(* ===== verification/_CoqProject ===== *)
-Q . S2P
Prelude.v
BigNumber.v
Decimals.v
LiquityMath.v
Constants.v
Troves.v
TroveProperties.v
Fees.v
Deposits.v
LiquityStore.v
LiquityStoreProperties.v
Subgraph.v
SubgraphProperties.v
SubgraphSchema.v
Populatable.v
PopulatableProperties.v
BatchedProvider.v
BatchedProviderProperties.v
Readable.v
ReadableProperties.v
CachedReadable.v
BlockPolled.v
BlockPolledProperties.v
WebSocketProvider.v
WebSocketProviderProperties.v
VaultValidation.v
VaultValidationProperties.v
VaultManager.v
VaultManagerProperties.v
Views.v
ViewsProperties.v
Transactions.v
TransactionsProperties.v
EthersLiquity.v
Connection.v
SubgraphClient.v
Observable.v
ParseLogs.v
ReactStore.v
Deploy.v
DeployProperties.v
Panels.v
PanelsProperties.v
VaultForms.v
VaultFormsProperties.v
DepositForms.v
Wallets.v
Fuzzer.v
FuzzerProperties.v
Dashboard.v
