(* ===== verification/Prelude.v ===== *)
(** * A verification development of the Threshold USD SDK

    The program is the TypeScript side of a lending protocol: users open Troves (the frontend says
    Vaults), deposit collateral and borrow THUSD.  This library models its own logic as executable
    definitions, in the order and with the names of the source, and proves what makes it correct.
    Paths below are under [src/packages/].

    ** The parts and how they interact

    - Numbers.  [Decimals] is [lib-base/src/Decimal.ts]: 18-digit fixed-point numbers over ethers'
      BigNumber, their parsing, printing and rounding, signed differences and percentages.
      BigNumber is third-party code: [BigNumber] states its operations as a class and its
      documented behaviour as laws; every theorem holds for any instance, and the witnesses run
      [Z_bignumber].  [Constants] are the protocol's constants; [LiquityMath] transcribes the
      contracts' arithmetic, the specification of several refinement theorems.
    - Data.  [Troves] is [lib-base/src/Trove.ts] (parameters and their normalisation, [whatChanged]
      and [apply], redistribution), [Fees] is [Fees.ts], [Deposits] are [StabilityDeposit.ts] and
      [BammDeposit.ts].
    - Reading.  [Readable] is [lib-ethers/src/ReadableEthersLiquity.ts] with the contract
      [MultiTroveGetter] it lists Troves through; [CachedReadable] is
      [lib-base/src/_CachedReadableLiquity.ts]: the same getters in front of a cache.
    - Keeping state.  [LiquityStore] is [lib-base/src/LiquityStore.ts]: a base state, what is
      derived from it, updates and listeners.  [BlockPolled] is its subclass
      [lib-ethers/src/BlockPolledLiquityStore.ts], which reads the base state at every block
      through [Readable], together with the getters that answer from the store.
    - Sending.  [Populatable] is [lib-ethers/src/PopulatableEthersLiquity.ts] with the calls and
      logs of [contracts.ts] and [parseLogs.ts]: how each transaction is prepared (gas, hints,
      simulated amounts, limits on rates) and what its receipt is told to be.  [EthersLiquity] are
      the facades above it, [SendableEthersLiquity.ts] and [EthersLiquity.ts]: sending, waiting and
      what a caller gets.  [ParseLogs] is the rest of [parseLogs.ts], the text of a receipt's logs.
    - Connecting.  [Connection] is [EthersLiquityConnection.ts] with the deployment files it
      imports and the connections of the frontend; [Deploy] is [lib-ethers/utils/deploy.ts] and the
      task of [hardhat.config.ts], which make those files.
    - Transport.  [BatchedProvider] and [WebSocketProvider] are the two provider mixins of
      [providers/src]: calls of the same turns joined in one multicall, and a provider that
      listens through a web socket and polls around load-balanced nodes.
    - Observing.  [Observable] is [ObservableEthersLiquity.ts]: subscriptions to events of the
      contracts and the reads they cause.
    - Indexing.  [Subgraph] is [subgraph/src]: the handlers that turn contract events into the
      entities of a database, [SubgraphSchema] the types of [schema.graphql] that database is to
      have, [SubgraphClient] is [lib-subgraph/src]: the queries and what is made of their answers,
      over the same database.
    - React.  [ReactStore] is [lib-react/src] and the asynchronous values of the frontend: stores
      that are loaded, selected from and unmounted.
    - Frontend.  [VaultValidation] decides which edited change may be sent; [VaultManager] keeps an
      edit while the store moves; [Views] is the state machine of the panels; [Transactions]
      follows a sent transaction; [Panels] are the lists of Vaults, liquidation and redemption;
      [VaultForms] are the forms that open, adjust and close a Vault, [DepositForms] those of a
      deposit and of a surplus; [Dashboard] are the cards of the start page, the data of the charts
      and the bar of a transaction; [Wallets] are the wallet, the configuration and the provider that
      hands the stores of a network to all of them.  They read the store ([LiquityStore]) and edit
      its Troves and deposits ([Troves], [Deposits]).
    - Fuzzing.  [Fuzzer] is [fuzzer/src]: checks of lists, pools and the indexer, histograms of
      gas, and what its operations send.

    A file [X.v] holds the definitions of a part and closed forms of its operations;
    [XProperties.v], where there is one, its theorems and witnesses.

    ** How the code is modelled

    A function that can throw returns [Res]: [Ok] or [Throw] with the message where the source
    gives one.  Code that changes state passes it explicitly, in [St] where it threads through many
    calls.  An asynchronous function is a step per stretch between two awaits, and the answers
    of the network, the timers and the messages of a socket are events of a step function; the
    theorems quantify over all their orders.  Objects compared by identity carry one ([Obj]).
    Numbers of JavaScript are texts where the code only prints or parses them, and integers
    otherwise, with 32-bit conversions written out ([to_int32], [i32]); random draws are arguments.
    Objects used as maps keep the order of their keys ([JsObject]).  A React component is a record
    of its state and of the dependencies its effects last ran with; [commit] is a render with the
    effects whose dependencies have changed, their clean-ups first, and a step renders until
    nothing changes ([settle], [rendered]).  Code that is not in the
    repository is a class or a section variable with its documented laws: BigNumber, the chain
    behind the contracts, graph-ts' numbers, the provider below a mixin.

    ** What the theorems show

    - Arithmetic: exactness and rounding of every operation, round trips of printing and parsing,
      agreement with the contracts ([Decimals], [Fees], [TroveProperties]).
    - Changes: what [whatChanged] and [adjustTo] report is what [apply] and [adjust] undo, with the
      one unit a fee can cost ([TroveProperties], [Deposits]).
    - The store: an invariant of all reachable states, exact reports of changes, listeners that
      may subscribe and unsubscribe while they are notified ([LiquityStoreProperties]); after a
      poll the store answers what the chain does, and which answer wins ([BlockPolledProperties]).
    - Reading: paging through the sorted list ([ReadableProperties]), transparency of the cache
      ([CachedReadable]).
    - Transactions: arguments, gas, hints (with the number of trials), redemptions that can be
      increased once, receipts ([PopulatableProperties]).
    - Providers: a batched call is answered like the same call without its sender, or made by the
      multicall contract, and it is always answered ([BatchedProviderProperties]); a registration
      for blocks whenever there are listeners, only one in runs without [once], notifications in
      order, polling loops that end ([WebSocketProviderProperties]).
    - Indexer: counts, a token ledger that adds up, events that commute ([SubgraphProperties]).
      The database always conforms to its schema ([SubgraphSchema]), and the client reads what the
      events announced ([SubgraphClient]).
    - Facades and connections: every operation completes as the chain settles it
      ([EthersLiquity]); deployments are wired, with the PCV, the B.AMM and the Chainlink feed left
      at the zero address, saved and found again ([DeployProperties], [Connection]), while
      [connect] always throws ([Connection]); the events of a change are followed by a read, but
      for those of [BorrowerOperations] for the number and the total of the Troves ([Observable]); stores are handed on when all have loaded ([ReactStore]).
    - Frontend: accepted changes keep the system as healthy as it was
      ([VaultValidationProperties]); edits are carried over amount by amount and the proposed debt
      follows the collateral ([VaultManagerProperties]); every panel follows the events of its own
      store ([ViewsProperties]); a transaction always has an event due that moves it on
      ([TransactionsProperties]); the button that liquidates is enabled exactly when the contract
      accepts and no transaction waits, the form that redeems checks what the contract does except
      for the price feed and the cap on the limit, pages exist ([PanelsProperties]); the form that opens a Vault refines
      an abstract form and sends what was typed ([VaultFormsProperties], [DepositForms]); which
      account the stores on the screen are of ([Wallets]), and since when the sums on it are
      ([Dashboard]).
    - Fuzzer: its checks decide what they are meant to, its histograms count, its funder borrows
      enough, its loop ends ([FuzzerProperties]).

    ** Fuel and bounds

    [pow_go] runs on 32 units of fuel, one per bit of an exponent below 2^32, which the assertion
    before it enforces; the contract's [decPow_loop] on 30, one per bit of its capped exponent.
    [_fromString_go] calls itself once, for the digits of a number with an exponent, and
    [populateRedemption] once, for the redemption it can be increased to, which is not truncated:
    two units each.  [dec_digits] has one unit per binary digit of the number.  The trials of the
    hint search are their own fuel, each round taking one at least, and [firstDone] makes the
    attempts it is given; in both cases a theorem says that enough of them give the result.  [settle]
    is given three renders for [Panels] and [Transactions] and four for the form that opens a Vault,
    after which theorems say nothing changes ([risky_vaults_pages], [opening_refines_form]);
    [commit_twice] says two are enough in [Wallets].  [liquidateAll] of the fuzzer takes a round per
    unit, and [order_ends] says how many are enough.  All other recursion is structural.

    ** Not modelled

    The Solidity contracts beyond the functions that are transcribed, with their JavaScript and Python
    tests, simulations and deployment scripts (the development is of the TypeScript code); the
    interfaces of [lib-base], which have no code; generated types; markup, styles, charts and texts
    of the React components; wallet libraries, which are inputs; messages on the console; the
    command line [led-cli], which calls methods of the SDK by the name that is typed, and the
    examples. *)

From Stdlib Require Export ZArith Lia Ascii.
From stdpp Require Export base list strings gmap.

#[global] Set Default Goal Selector "!".
#[global] Arguments String.append !_ _ : simpl nomatch.

(** ** Results: a JavaScript computation that returns a value or throws an [Error] *)

Inductive Res (A : Type) : Type :=
| Ok (a : A)
| Throw (message : string).
Arguments Ok {A} a.
Arguments Throw {A} message.

Definition res_bind {A B : Type} (r : Res A) (k : A -> Res B) : Res B :=
  match r with
  | Ok a => k a
  | Throw m => Throw m
  end.

Definition res_map {A B : Type} (f : A -> B) (r : Res A) : Res B :=
  res_bind r (fun a => Ok (f a)).

Definition res_ok {A : Type} (r : Res A) : bool :=
  match r with Ok _ => true | Throw _ => false end.

(** A static initialiser: the value of [r], or [d] if evaluating it throws (every use comes with
    a lemma that it does not). *)
Definition static_init {A : Type} (d : A) (r : Res A) : A :=
  match r with Ok a => a | Throw _ => d end.

Declare Scope res_scope.
Delimit Scope res_scope with res.
Open Scope res_scope.

Notation "'let!' x := e 'in' k" := (res_bind e (fun x => k))
  (at level 10, x name, e at level 100, k at level 200) : res_scope.
Notation "'let!' ' p := e 'in' k" := (res_bind e (fun p => k))
  (at level 10, p strict pattern, e at level 100, k at level 200) : res_scope.

(** [assert(b)] of Node's "assert" module. *)
Definition assert_ (b : bool) : Res unit :=
  if b then Ok tt else Throw "AssertionError".

(** [Array.prototype.map] with a callback that may throw. *)
Fixpoint res_mapM {A B : Type} (f : A -> Res B) (l : list A) : Res (list B) :=
  match l with
  | [] => Ok []
  | x :: l' => let! y := f x in let! ys := res_mapM f l' in Ok (y :: ys)
  end.

(** [Array.prototype.reduce] with a callback that may throw. *)
Fixpoint res_foldM {A B : Type} (f : B -> A -> Res B) (b : B) (l : list A) : Res B :=
  match l with
  | [] => Ok b
  | x :: l' => let! b' := f b x in res_foldM f b' l'
  end.

(** ** Stateful computations that may throw: assignments made before the [Error] stay made *)

Definition St (S A : Type) : Type := S -> Res A * S.

Definition st_ret {S A} (a : A) : St S A := fun s => (Ok a, s).
Definition st_throw {S A} (m : string) : St S A := fun s => (Throw m, s).
Definition st_bind {S A B} (e : St S A) (k : A -> St S B) : St S B :=
  fun s => match e s with
           | (Ok a, s') => k a s'
           | (Throw m, s') => (Throw m, s')
           end.
Definition st_get {S} : St S S := fun s => (Ok s, s).
Definition st_put {S} (s : S) : St S unit := fun _ => (Ok tt, s).
Definition st_gets {S A} (f : S -> A) : St S A := fun s => (Ok (f s), s).
Definition st_modify {S} (f : S -> S) : St S unit := fun s => (Ok tt, f s).
(** A computation that only reads its arguments. *)
Definition st_lift {S A} (r : Res A) : St S A := fun s => (r, s).

Notation "'do!' x := e 'in' k" := (st_bind e (fun x => k))
  (at level 10, x name, e at level 100, k at level 200) : res_scope.
Notation "'do!' ' p := e 'in' k" := (st_bind e (fun p => k))
  (at level 10, p strict pattern, e at level 100, k at level 200) : res_scope.

(** ** Objects: values with an identity, which is what [===] compares *)

Definition Obj (A : Type) : Type := N * A.
Definition sameObject {A} (a b : Obj A) : bool := (fst a =? fst b)%N.

(** ** Strings: the parts of [String.prototype] the sources use, on ASCII text *)
Module Js.

Definition is_digit (c : ascii) : bool :=
  let n := N_of_ascii c in (48 <=? n)%N && (n <=? 57)%N.

Definition digit_value (c : ascii) : Z := Z.of_N (N_of_ascii c) - 48.

Definition digit_char (z : Z) : ascii := ascii_of_N (Z.to_N (z + 48)).

Fixpoint all_digits (s : string) : bool :=
  match s with
  | EmptyString => true
  | String c s' => is_digit c && all_digits s'
  end.

(** The number a string of decimal digits denotes. *)
Fixpoint parse_digits (acc : Z) (s : string) : Z :=
  match s with
  | EmptyString => acc
  | String c s' => parse_digits (10 * acc + digit_value c) s'
  end.

Definition dec_value (s : string) : Z := parse_digits 0 s.

(** The number a string of hexadecimal digits denotes. *)
Definition hex_value (c : ascii) : option Z :=
  let n := Z.of_N (N_of_ascii c) in
  if (48 <=? n)%Z && (n <=? 57)%Z then Some (n - 48)%Z
  else if (97 <=? n)%Z && (n <=? 102)%Z then Some (n - 87)%Z
  else if (65 <=? n)%Z && (n <=? 70)%Z then Some (n - 55)%Z
  else None.

Fixpoint parse_hex (acc : Z) (s : string) : option Z :=
  match s with
  | EmptyString => Some acc
  | String c s' => match hex_value c with
                   | Some v => parse_hex (16 * acc + v)%Z s'
                   | None => None
                   end
  end.

(** The shortest decimal rendering of a natural number: [fuel] bounds the number of digits. *)
Fixpoint dec_digits (fuel : nat) (n : Z) (acc : string) : string :=
  match fuel with
  | O => acc
  | S fuel' =>
      let acc' := String (digit_char (n mod 10)) acc in
      if (n <? 10)%Z then acc' else dec_digits fuel' (n / 10) acc'
  end.

Definition dec_string (n : Z) : string := dec_digits (S (Z.to_nat (Z.log2 n))) n "".

(** [String.prototype.includes] of one character. *)
Fixpoint includes (c : ascii) (s : string) : bool :=
  match s with
  | EmptyString => false
  | String d s' => Ascii.eqb d c || includes c s'
  end.

(** [s.split(c)] for a one-character separator: never empty. *)
Fixpoint split (c : ascii) (s : string) : list string :=
  match s with
  | EmptyString => [""]
  | String d s' =>
      if Ascii.eqb d c then "" :: split c s'
      else match split c s' with
           | [] => [String d ""]
           | w :: ws => String d w :: ws
           end
  end.

(** ["c".repeat(n)] *)
Fixpoint repeat (c : ascii) (n : nat) : string :=
  match n with O => EmptyString | S n' => String c (repeat c n') end.

(** [s.padStart(n, c)] *)
Definition padStart (n : nat) (c : ascii) (s : string) : string :=
  repeat c (n - String.length s) +:+ s.

(** [s.substr(0, n)] *)
Fixpoint prefix (n : nat) (s : string) : string :=
  match n, s with
  | O, _ | _, EmptyString => EmptyString
  | S n', String c s' => String c (prefix n' s')
  end.

(** [s.substr(1)] *)
Definition tail1 (s : string) : string :=
  match s with EmptyString => EmptyString | String _ s' => s' end.

Definition startsWith (c : ascii) (s : string) : bool :=
  match s with EmptyString => false | String d _ => Ascii.eqb d c end.

(** [s.replace(/0*$/, "")] *)
Fixpoint trim_zeros (s : string) : string :=
  match s with
  | EmptyString => EmptyString
  | String c s' =>
      match trim_zeros s' with
      | EmptyString => if Ascii.eqb c "0" then EmptyString else String c EmptyString
      | t => String c t
      end
  end.

(** How many digits [s] starts with, and what follows them. *)
Fixpoint digit_run (s : string) : nat :=
  match s with
  | EmptyString => O
  | String c s' => if is_digit c then S (digit_run s') else O
  end.

Fixpoint skip_digits (s : string) : string :=
  match s with
  | EmptyString => EmptyString
  | String c s' => if is_digit c then skip_digits s' else s
  end.

(** [s.length]: UTF-16 code units, for text of the Basic Multilingual Plane stored as UTF-8 (the
    continuation bytes 128 to 191 do not count). *)
Fixpoint length16 (s : string) : nat :=
  match s with
  | EmptyString => O
  | String c s' =>
      let n := N_of_ascii c in
      if (128 <=? n)%N && (n <? 192)%N then length16 s' else S (length16 s')
  end.

(** A double quote, and a text between two of them. *)
Definition quote : string := String (ascii_of_N 34) EmptyString.
Definition quoted (s : string) : string := quote +:+ s +:+ quote.

(** [arr.join(sep)] *)
Fixpoint join (sep : string) (l : list string) : string :=
  match l with
  | [] => ""
  | [s] => s
  | s :: l' => s +:+ sep +:+ join sep l'
  end.

End Js.

(** ** Objects used as maps: their own properties, in the order in which they were added *)
Module JsObject.

Definition t (A : Type) : Type := list (string * A).

(** [key in object], and reading a property. *)
Definition has {A} (key : string) (o : t A) : bool :=
  existsb (fun kv => String.eqb (fst kv) key) o.
Fixpoint get {A} (key : string) (o : t A) : option A :=
  match o with
  | [] => None
  | (k, a) :: o' => if String.eqb k key then Some a else get key o'
  end.

(** Assigning a property: one that exists keeps its place. *)
Fixpoint set {A} (key : string) (a : A) (o : t A) : t A :=
  match o with
  | [] => [(key, a)]
  | (k, b) :: o' => if String.eqb k key then (k, a) :: o' else (k, b) :: set key a o'
  end.

(** [{ ...o, ...o' }] *)
Definition spread {A} (o o' : t A) : t A :=
  fold_left (fun acc kv => set (fst kv) (snd kv) acc) o' o.

(** [Object.fromEntries(l)] *)
Definition fromEntries {A} (l : list (string * A)) : t A := spread [] l.

Lemma get_set {A} key a (o : t A) key' :
  get key' (set key a o) = if String.eqb key key' then Some a else get key' o.
Proof.
  induction o as [|[k b] o IH]; simpl; [done|].
  destruct (String.eqb_spec k key) as [->|Hk]; simpl.
  - by destruct (String.eqb key key').
  - destruct (String.eqb_spec k key') as [->|]; [|done].
    destruct (String.eqb_spec key key'); [congruence|done].
Qed.

Lemma get_set_eq {A} key a (o : t A) : get key (set key a o) = Some a.
Proof. by rewrite get_set, String.eqb_refl. Qed.

Lemma get_set_ne {A} key a (o : t A) key' : key <> key' -> get key' (set key a o) = get key' o.
Proof. intros H. rewrite get_set. by destruct (String.eqb_spec key key'). Qed.

Lemma has_get {A} key (o : t A) : has key o = true <-> is_Some (get key o).
Proof.
  induction o as [|[k b] o IH]; simpl; [split; [done|by intros []]|].
  destruct (String.eqb k key); simpl; [split; eauto|done].
Qed.

(** A key occurs once. *)
Lemma keys_set {A} key a (o : t A) :
  NoDup (map fst o) -> NoDup (map fst (set key a o)) /\
  forall k, In k (map fst (set key a o)) <-> k = key \/ In k (map fst o).
Proof.
  induction o as [|[k b] o IH]; cbn [set map fst].
  { intros _. split; [apply NoDup_singleton|]. intros k. simpl. naive_solver. }
  intros [Hk Hnd]%NoDup_cons. destruct (String.eqb_spec k key) as [->|Hne]; cbn [map fst].
  - split; [by apply NoDup_cons|]. intros k'. simpl. naive_solver.
  - destruct (IH Hnd) as [IH1 IH2]. split.
    + apply NoDup_cons. split; [|done]. intros Hin%list_elem_of_In%IH2.
      destruct Hin as [->|Hin]; [done|]. by apply Hk, list_elem_of_In.
    + intros k'. simpl. rewrite IH2. naive_solver.
Qed.

Lemma get_In {A} key a (o : t A) : NoDup (map fst o) -> In (key, a) o <-> get key o = Some a.
Proof.
  induction o as [|[k b] o IH]; cbn [get map fst]; [done|].
  intros [Hk Hnd]%NoDup_cons. simpl. rewrite (IH Hnd). split.
  - intros [ [= -> ->]|H]; [by rewrite String.eqb_refl|].
    destruct (String.eqb_spec k key) as [->|]; [|done].
    destruct Hk. apply list_elem_of_In, (in_map fst _ (key, a)). by apply IH.
  - destruct (String.eqb_spec k key) as [->|]; [|by right]. intros [= ->]. by left.
Qed.

End JsObject.

(** A JavaScript number where the source distinguishes integers from other numbers. *)
Inductive JsNumber : Type :=
| JInt (z : Z)
| JFrac (representation : string).

(** ** Tactics *)

(** Case analysis on the first conditional or match of the goal or of a hypothesis. *)
Ltac case_goal :=
  match goal with
  | |- context [match ?x with _ => _ end] => destruct x eqn:?
  end.

Ltac case_hyp H :=
  match type of H with
  | context [match ?x with _ => _ end] => destruct x eqn:?
  end.

(** Turns boolean comparisons on Z and N in the context into propositions. *)
Ltac bool_to_prop :=
  repeat match goal with
  | H : (_ <? _)%Z = true |- _ => apply Z.ltb_lt in H
  | H : (_ <? _)%Z = false |- _ => apply Z.ltb_ge in H
  | H : (_ <=? _)%Z = true |- _ => apply Z.leb_le in H
  | H : (_ <=? _)%Z = false |- _ => apply Z.leb_gt in H
  | H : (_ =? _)%Z = true |- _ => apply Z.eqb_eq in H
  | H : (_ =? _)%Z = false |- _ => apply Z.eqb_neq in H
  | H : (_ <? _)%N = true |- _ => apply N.ltb_lt in H
  | H : (_ <? _)%N = false |- _ => apply N.ltb_ge in H
  | H : (_ <=? _)%N = true |- _ => apply N.leb_le in H
  | H : (_ <=? _)%N = false |- _ => apply N.leb_gt in H
  | H : (_ =? _)%N = true |- _ => apply N.eqb_eq in H
  | H : (_ =? _)%N = false |- _ => apply N.eqb_neq in H
  | H : (_ && _) = true |- _ => apply andb_true_iff in H; destruct H
  | H : (_ || _) = false |- _ => apply orb_false_iff in H; destruct H
  | H : negb _ = true |- _ => apply negb_true_iff in H
  | H : negb _ = false |- _ => apply negb_false_iff in H
  end.

(** ** Generic lemmas *)

Lemma res_bind_Ok {A B} (a : A) (k : A -> Res B) : res_bind (Ok a) k = k a.
Proof. reflexivity. Qed.

Lemma res_bind_inv {A B} (r : Res A) (k : A -> Res B) b :
  res_bind r k = Ok b -> exists a, r = Ok a /\ k a = Ok b.
Proof. destruct r; simpl; [eauto | discriminate]. Qed.

(** [injection] would compute the two values. *)
Lemma Ok_inj {A} (a b : A) : Ok a = Ok b -> a = b.
Proof. by intros [=]. Qed.

(** Takes a hypothesis [let! x := e in k = Ok b] apart. *)
Ltac res_inv H :=
  apply res_bind_inv in H as (? & ? & H).

Lemma st_bind_Ok {S A B} (e : St S A) (k : A -> St S B) s a s' :
  e s = (Ok a, s') -> st_bind e k s = k a s'.
Proof. unfold st_bind. by intros ->. Qed.

Lemma st_bind_inv {S A B} (e : St S A) (k : A -> St S B) s b s'' :
  st_bind e k s = (Ok b, s'') -> exists a s', e s = (Ok a, s') /\ k a s' = (Ok b, s'').
Proof. unfold st_bind. destruct (e s) as [ [a|m] s']; [eauto | discriminate]. Qed.

Lemma res_mapM_Ok {A B} (f : A -> B) (g : A -> Res B) l :
  (forall x, In x l -> g x = Ok (f x)) -> res_mapM g l = Ok (map f l).
Proof.
  induction l as [|x l IH]; simpl; intros H; [done|].
  rewrite (H x) by auto. simpl. rewrite IH by auto. done.
Qed.

Lemma res_mapM_length {A B} (g : A -> Res B) l l' :
  res_mapM g l = Ok l' -> length l' = length l.
Proof.
  revert l'; induction l as [|x l IH]; simpl; intros l' H; [by inv H|].
  res_inv H. res_inv H. inv H. simpl. f_equal. auto.
Qed.

Lemma res_mapM_Forall2 {A B} (g : A -> Res B) l l' :
  res_mapM g l = Ok l' <-> Forall2 (fun x y => g x = Ok y) l l'.
Proof.
  split.
  - revert l'; induction l as [|x l IH]; simpl; intros l' H; [by injection H as <-|].
    res_inv H. res_inv H. injection H as <-. auto.
  - induction 1 as [|x y l l' Hx _ IH]; simpl; [done|]. by rewrite Hx, IH.
Qed.

Lemma res_mapM_Throw {A B} (g : A -> Res B) l x m :
  In x l -> g x = Throw m -> exists m', res_mapM g l = Throw m'.
Proof.
  intros Hin Hx. induction l as [|y l IH]; [done|]. simpl.
  destruct (g y) as [b|m'] eqn:Hy; [|by exists m']. destruct Hin as [->|Hin]; [congruence|].
  destruct (IH Hin) as [m' ->]. by exists m'.
Qed.

Lemma res_foldM_Ok {A B} (f : B -> A -> B) (g : B -> A -> Res B) l b :
  (forall b x, In x l -> g b x = Ok (f b x)) -> res_foldM g b l = Ok (fold_left f l b).
Proof.
  revert b; induction l as [|x l IH]; simpl; intros b H; [done|].
  rewrite H by auto. simpl. apply IH. auto.
Qed.

Module JsFacts.
Import Js.

Lemma is_digit_char z : (0 <= z < 10)%Z -> is_digit (digit_char z) = true.
Proof.
  intros. unfold is_digit, digit_char. rewrite N_ascii_embedding by lia.
  apply andb_true_iff; split; apply N.leb_le; lia.
Qed.

Lemma digit_value_char z : (0 <= z < 10)%Z -> digit_value (digit_char z) = z.
Proof. intros. unfold digit_value, digit_char. rewrite N_ascii_embedding by lia. lia. Qed.

Lemma digit_value_bounds c : is_digit c = true -> (0 <= digit_value c < 10)%Z.
Proof. unfold is_digit, digit_value. intros. bool_to_prop. lia. Qed.

Lemma digit_char_value c : is_digit c = true -> digit_char (digit_value c) = c.
Proof.
  intros H. pose proof (digit_value_bounds c H). unfold digit_value, digit_char in *.
  replace (Z.to_N _) with (N_of_ascii c) by lia. apply ascii_N_embedding.
Qed.

Lemma digit_value_zero c : is_digit c = true -> digit_value c = 0%Z -> c = "0"%char.
Proof. intros H H0. rewrite <- (digit_char_value c H), H0. done. Qed.

Lemma parse_digits_app acc s t : parse_digits acc (s +:+ t) = parse_digits (parse_digits acc s) t.
Proof. revert acc; induction s as [|c s IH]; intros acc; simpl; [done|]. apply IH. Qed.

Lemma all_digits_app s t : all_digits (s +:+ t) = all_digits s && all_digits t.
Proof. induction s; simpl; [done|]. rewrite IHs. by rewrite andb_assoc. Qed.

Lemma str_length_app s t : String.length (s +:+ t) = (String.length s + String.length t)%nat.
Proof. induction s; simpl; auto. Qed.

Lemma length_repeat c n : String.length (repeat c n) = n.
Proof. induction n; simpl; auto. Qed.

Lemma str_app_nil_r s : s +:+ "" = s.
Proof. induction s; simpl; [done|]. congruence. Qed.

Lemma str_app_assoc s t u : (s +:+ t) +:+ u = s +:+ (t +:+ u).
Proof. induction s; simpl; [done|]. congruence. Qed.

Lemma parse_digits_acc acc s :
  all_digits s = true ->
  (parse_digits acc s = acc * 10 ^ Z.of_nat (String.length s) + parse_digits 0 s)%Z.
Proof.
  revert acc; induction s as [|c s IH]; cbn [parse_digits all_digits String.length];
    intros acc H; [change (10 ^ Z.of_nat 0)%Z with 1%Z; lia|].
  bool_to_prop. rewrite IH by done. rewrite (IH (10 * 0 + digit_value c)%Z) by done.
  rewrite Nat2Z.inj_succ, Z.pow_succ_r by lia. lia.
Qed.

Lemma dec_value_app s t :
  all_digits t = true ->
  (dec_value (s +:+ t) = dec_value s * 10 ^ Z.of_nat (String.length t) + dec_value t)%Z.
Proof. intros. unfold dec_value. rewrite parse_digits_app. by apply parse_digits_acc. Qed.

Lemma dec_value_nonneg s : all_digits s = true -> (0 <= dec_value s)%Z.
Proof.
  unfold dec_value. assert (forall acc, 0 <= acc -> all_digits s = true ->
    0 <= parse_digits acc s)%Z as Haux; [|intros; by apply Haux].
  induction s as [|c s IH]; simpl; intros acc Ha H; [done|].
  bool_to_prop. pose proof (digit_value_bounds c ltac:(done)). apply IH; [lia|done].
Qed.

Lemma dec_value_bound s :
  all_digits s = true -> (dec_value s < 10 ^ Z.of_nat (String.length s))%Z.
Proof.
  induction s as [|c s IH]; intros H; [done|].
  change (String c s) with (String c "" +:+ s). simpl in H. bool_to_prop.
  rewrite dec_value_app, str_length_app by done. simpl String.length.
  pose proof (digit_value_bounds c ltac:(done)). specialize (IH ltac:(done)).
  replace (dec_value (String c "")) with (digit_value c) by (unfold dec_value; simpl; lia).
  rewrite Nat2Z.inj_add, Z.pow_add_r by lia. simpl (10 ^ Z.of_nat 1)%Z. nia.
Qed.

Lemma dec_value_zeros n : dec_value (repeat "0" n) = 0%Z.
Proof. unfold dec_value. induction n; simpl; done. Qed.

Lemma all_digits_zeros n : all_digits (repeat "0" n) = true.
Proof. induction n; simpl; done. Qed.

(** [dec_digits] prepends the digits of [n] to [acc], given fuel for each of them. *)
Lemma dec_digits_spec fuel n acc :
  (0 <= n < 10 ^ Z.of_nat fuel)%Z -> all_digits acc = true ->
  let s := dec_digits fuel n acc in
  all_digits s = true /\
  (parse_digits 0 s = n * 10 ^ Z.of_nat (String.length acc) + parse_digits 0 acc)%Z.
Proof.
  revert n acc; induction fuel as [|fuel IH]; intros n acc Hn Hacc; simpl.
  { split; [done|]. change (10 ^ Z.of_nat 0)%Z with 1%Z in Hn. replace n with 0%Z by lia. lia. }
  assert (0 <= n mod 10 < 10)%Z as Hm by (apply Z.mod_pos_bound; lia).
  assert (all_digits (String (digit_char (n mod 10)) acc) = true) as Hacc'.
  { simpl. by rewrite is_digit_char. }
  assert (parse_digits 0 (String (digit_char (n mod 10)) acc) =
     (n mod 10) * 10 ^ Z.of_nat (String.length acc) + parse_digits 0 acc)%Z as Hp.
  { cbn [parse_digits]. rewrite parse_digits_acc by done. rewrite digit_value_char by done. lia. }
  destruct (Z.ltb_spec n 10).
  - split; [done|]. rewrite Hp. rewrite Z.mod_small by lia. done.
  - rewrite Nat2Z.inj_succ, Z.pow_succ_r in Hn by lia.
    destruct (IH (n / 10)%Z (String (digit_char (n mod 10)) acc)) as [H1 H2]; [|done|].
    { split; [apply Z.div_pos; lia|]. apply Z.div_lt_upper_bound; lia. }
    split; [done|]. rewrite H2, Hp. cbn [String.length].
    rewrite Nat2Z.inj_succ, Z.pow_succ_r by lia. pose proof (Z.div_mod n 10 ltac:(lia)). nia.
Qed.

Lemma pow2_log2_digits n : (0 <= n)%Z -> (n < 10 ^ Z.of_nat (S (Z.to_nat (Z.log2 n))))%Z.
Proof.
  intros Hn. destruct (Z.eq_dec n 0%Z) as [->|]; [done|].
  destruct (Z.log2_spec n) as [_ H]; [lia|].
  eapply Z.lt_le_trans; [apply H|].
  pose proof (Z.log2_nonneg n).
  rewrite Nat2Z.inj_succ, Z2Nat.id by done. apply Z.pow_le_mono_l. lia.
Qed.

(** Printing a natural number and reading the digits back is the identity. *)
Lemma dec_string_spec n :
  (0 <= n)%Z -> all_digits (dec_string n) = true /\ dec_value (dec_string n) = n.
Proof.
  intros Hn. unfold dec_string, dec_value.
  destruct (dec_digits_spec (S (Z.to_nat (Z.log2 n))) n "") as [H1 H2]; [|done|].
  - split; [done|]. by apply pow2_log2_digits.
  - split; [done|]. rewrite H2. simpl. lia.
Qed.

Lemma dec_digits_nonempty fuel n acc : dec_digits (S fuel) n acc <> "".
Proof.
  revert n acc; induction fuel as [|fuel IH]; intros n acc; cbn [dec_digits];
    destruct (n <? 10)%Z; try done.
  apply IH.
Qed.

Lemma dec_string_nonempty n : dec_string n <> "".
Proof. apply dec_digits_nonempty. Qed.

Lemma includes_digits c s : all_digits s = true -> is_digit c = false -> includes c s = false.
Proof.
  induction s as [|d s IH]; simpl; intros H Hc; [done|]. bool_to_prop.
  rewrite IH by done. destruct (Ascii.eqb_spec d c); [congruence|done].
Qed.

Lemma includes_app c s t : includes c (s +:+ t) = includes c s || includes c t.
Proof. induction s; simpl; [done|]. rewrite IHs. by rewrite orb_assoc. Qed.

Lemma split_no_sep c s : includes c s = false -> split c s = [s].
Proof.
  induction s as [|d s IH]; simpl; intros H; [done|]. bool_to_prop.
  rewrite H, IH by done. done.
Qed.

Lemma split_one_sep c s t :
  includes c s = false -> split c (s +:+ String c t) = s :: split c t.
Proof.
  induction s as [|d s IH]; simpl; intros H.
  - by rewrite Ascii.eqb_refl.
  - bool_to_prop. rewrite H, IH by done. done.
Qed.

Lemma skip_digits_all s : all_digits s = true -> skip_digits s = "".
Proof. induction s as [|c s IH]; simpl; intros H; [done|]. bool_to_prop. by rewrite H, IH. Qed.

Lemma skip_digits_app s t : all_digits s = true -> skip_digits (s +:+ t) = skip_digits t.
Proof. induction s as [|c s IH]; simpl; intros H; [done|]. bool_to_prop. by rewrite H, IH. Qed.

Lemma all_digits_trim s : all_digits s = true -> all_digits (trim_zeros s) = true.
Proof.
  induction s as [|c s IH]; simpl; intros H; [done|]. bool_to_prop. specialize (IH ltac:(done)).
  destruct (trim_zeros s); [|simpl in *; by rewrite H, IH].
  destruct (Ascii.eqb c "0"); simpl; [done|]. by rewrite H.
Qed.

Lemma length_trim s : (String.length (trim_zeros s) <= String.length s)%nat.
Proof.
  induction s as [|c s IH]; simpl; [done|].
  destruct (trim_zeros s); simpl in *; [destruct (Ascii.eqb c "0"); simpl; lia|lia].
Qed.

(** Trailing zeros can be put back. *)
Lemma trim_zeros_pad s :
  s = trim_zeros s +:+ repeat "0" (String.length s - String.length (trim_zeros s)).
Proof.
  induction s as [|c s IH]; simpl; [done|].
  pose proof (length_trim s) as Hl. destruct (trim_zeros s) as [|d t] eqn:E.
  - destruct (Ascii.eqb_spec c "0") as [->|].
    + simpl. rewrite Nat.sub_0_r in IH. simpl in IH. congruence.
    + simpl. rewrite Nat.sub_0_r in *. simpl in IH. congruence.
  - simpl in *. congruence.
Qed.

Lemma prefix_app n s t : n = String.length s -> prefix n (s +:+ t) = s.
Proof. intros ->. induction s; simpl; [by destruct t|]. congruence. Qed.

Lemma prefix_all n s : (String.length s <= n)%nat -> prefix n s = s.
Proof.
  revert n; induction s as [|c s IH]; intros [|n] H; simpl in *; try done; [lia|].
  f_equal. apply IH. lia.
Qed.

Lemma padStart_length n c s :
  (String.length s <= n)%nat -> String.length (padStart n c s) = n.
Proof. intros. unfold padStart. rewrite str_length_app, length_repeat. lia. Qed.

Lemma padStart_value n s :
  all_digits s = true -> dec_value (padStart n "0" s) = dec_value s.
Proof. intros. unfold padStart. rewrite dec_value_app by done. rewrite dec_value_zeros. lia. Qed.

Lemma all_digits_padStart n s :
  all_digits s = true -> all_digits (padStart n "0" s) = true.
Proof. intros. unfold padStart. by rewrite all_digits_app, all_digits_zeros. Qed.

(** A shortest rendering has at most [k] digits when the number is below [10 ^ k]. *)
Lemma dec_digits_length fuel n acc k :
  (0 <= n < 10 ^ Z.of_nat (S k))%Z ->
  (String.length (dec_digits fuel n acc) <= S k + String.length acc)%nat.
Proof.
  revert n acc k; induction fuel as [|fuel IH]; intros n acc k Hn; simpl; [lia|].
  destruct (Z.ltb_spec n 10); simpl; [lia|].
  destruct k as [|k]; [change (10 ^ Z.of_nat 1)%Z with 10%Z in Hn; lia|].
  rewrite Nat2Z.inj_succ, Z.pow_succ_r in Hn by lia.
  assert (0 <= n / 10 < 10 ^ Z.of_nat (S k))%Z as Hd.
  { split; [apply Z.div_pos; lia|]. apply Z.div_lt_upper_bound; lia. }
  specialize (IH (n / 10)%Z (String (digit_char (n mod 10)) acc) k Hd). simpl in IH. lia.
Qed.

Lemma dec_string_length n k :
  (0 <= n < 10 ^ Z.of_nat (S k))%Z -> (String.length (dec_string n) <= S k)%nat.
Proof. intros H. unfold dec_string. etrans; [by apply dec_digits_length|]. simpl. lia. Qed.

End JsFacts.
