(* ===== verification/BigNumber.v ===== *)
(** * The interface to the [@ethersproject/bignumber] package

    The SDK's arithmetic runs on that package's [BigNumber], which is not part of the repository.
    It enters the development as an interface: [BigNumberOps] are its operations, with a BigNumber
    identified with the integer it denotes, and [BigNumberLaws] states the documented behaviour
    the sources rely on (nothing is said about a division by zero, a negative exponent or a
    string that is not a number).  [Z_bignumber] is one implementation, used by the witnesses. *)

From S2P Require Import Prelude.

Open Scope Z_scope.

Class BigNumberOps : Type := {
  bn_from : string -> Res Z;
  bn_toString : Z -> string;
  bn_toHexString : Z -> string;
  bn_toNumber : Z -> Res Z;
  bn_add : Z -> Z -> Z;
  bn_sub : Z -> Z -> Z;
  bn_mul : Z -> Z -> Z;
  bn_div : Z -> Z -> Z;
  bn_mod : Z -> Z -> Z;
  bn_pow : Z -> Z -> Z;
  bn_isNegative : Z -> bool;
  bn_isZero : Z -> bool;
  bn_lt : Z -> Z -> bool;
  bn_lte : Z -> Z -> bool;
  bn_eq : Z -> Z -> bool;
  bn_gte : Z -> Z -> bool;
  bn_gt : Z -> Z -> bool;
}.

(** [Number.MAX_SAFE_INTEGER] *)
Definition MAX_SAFE_INTEGER : Z := 2 ^ 53 - 1.

Class BigNumberLaws (BN : BigNumberOps) : Prop := {
  bn_from_digits s : s <> "" -> Js.all_digits s = true -> bn_from s = Ok (Js.dec_value s);
  bn_from_hex s v : s <> "" -> Js.parse_hex 0 s = Some v -> bn_from ("0x" +:+ s) = Ok v;
  bn_toString_nonneg z : 0 <= z -> bn_toString z = Js.dec_string z;
  bn_from_toHexString z : bn_from (bn_toHexString z) = Ok z;
  bn_toNumber_safe z : Z.abs z <= MAX_SAFE_INTEGER -> bn_toNumber z = Ok z;
  bn_addE a b : bn_add a b = a + b;
  bn_subE a b : bn_sub a b = a - b;
  bn_mulE a b : bn_mul a b = a * b;
  bn_divE a b : 0 <= a -> 0 < b -> bn_div a b = a / b;
  bn_modE a b : 0 <= a -> 0 < b -> bn_mod a b = a mod b;
  bn_powE a b : 0 <= b -> bn_pow a b = a ^ b;
  bn_isNegativeE a : bn_isNegative a = (a <? 0);
  bn_isZeroE a : bn_isZero a = (a =? 0);
  bn_ltE a b : bn_lt a b = (a <? b);
  bn_lteE a b : bn_lte a b = (a <=? b);
  bn_eqE a b : bn_eq a b = (a =? b);
  bn_gteE a b : bn_gte a b = (b <=? a);
  bn_gtE a b : bn_gt a b = (b <? a);
}.

Create Rewrite HintDb bn.
#[export] Hint Rewrite @bn_addE @bn_subE @bn_mulE @bn_isNegativeE @bn_isZeroE @bn_ltE
  @bn_lteE @bn_eqE @bn_gteE @bn_gtE using typeclasses eauto : bn.

(** ** An implementation, on Rocq's integers *)
Module ZBigNumber.

Definition from (s : string) : Res Z :=
  if negb (String.eqb s "") && Js.all_digits s then Ok (Js.dec_value s)
  else match s with
       | String "0" (String "x" h) =>
           match Js.parse_hex 0 h with
           | Some v => if String.eqb h "" then Throw "invalid BigNumber string" else Ok v
           | None => Throw "invalid BigNumber string"
           end
       | String "-" s' =>
           match s' with
           | String "0" (String "x" h) =>
               match Js.parse_hex 0 h with
               | Some v => Ok (- v)
               | None => Throw "invalid BigNumber string"
               end
           | _ => Throw "invalid BigNumber string"
           end
       | _ => Throw "invalid BigNumber string"
       end.

Definition hex_char (z : Z) : ascii :=
  ascii_of_N (Z.to_N (if z <? 10 then z + 48 else z + 87)).

Fixpoint hex_digits (fuel : nat) (n : Z) (acc : string) : string :=
  match fuel with
  | O => acc
  | S fuel' =>
      let acc' := String (hex_char (n mod 16)) acc in
      if n <? 16 then acc' else hex_digits fuel' (n / 16) acc'
  end.

Definition hex_string (n : Z) : string := hex_digits (S (Z.to_nat (Z.log2 n))) n "".

Definition toHexString (z : Z) : string :=
  if z <? 0 then "-0x" +:+ hex_string (- z) else "0x" +:+ hex_string z.

Definition toString (z : Z) : string :=
  if z <? 0 then "-" +:+ Js.dec_string (- z) else Js.dec_string z.

Definition toNumber (z : Z) : Res Z :=
  if Z.abs z <=? MAX_SAFE_INTEGER then Ok z else Throw "overflow".

End ZBigNumber.

Definition Z_bignumber : BigNumberOps := {|
  bn_from := ZBigNumber.from;
  bn_toString := ZBigNumber.toString;
  bn_toHexString := ZBigNumber.toHexString;
  bn_toNumber := ZBigNumber.toNumber;
  bn_add := Z.add; bn_sub := Z.sub; bn_mul := Z.mul;
  bn_div := Z.quot; bn_mod := Z.rem; bn_pow := Z.pow;
  bn_isNegative := fun a => a <? 0; bn_isZero := fun a => a =? 0;
  bn_lt := Z.ltb; bn_lte := Z.leb; bn_eq := Z.eqb;
  bn_gte := fun a b => b <=? a; bn_gt := fun a b => b <? a;
|}.

Module ZBigNumberFacts.
Import ZBigNumber.

Lemma hex_value_char z : 0 <= z < 16 -> Js.hex_value (hex_char z) = Some z.
Proof.
  intros. unfold Js.hex_value, hex_char.
  rewrite N_ascii_embedding by (destruct (Z.ltb_spec z 10); lia).
  destruct (Z.ltb_spec z 10).
  - rewrite Z2N.id by lia.
    replace ((48 <=? z + 48) && (z + 48 <=? 57)) with true by lia. f_equal. lia.
  - rewrite Z2N.id by lia.
    replace ((48 <=? z + 87) && (z + 87 <=? 57)) with false by lia.
    replace ((97 <=? z + 87) && (z + 87 <=? 102)) with true by lia. f_equal. lia.
Qed.

Lemma hex_char_not_zero_x z : 0 <= z < 16 -> hex_char z <> "x"%char.
Proof. intros Hz H. pose proof (hex_value_char z Hz) as Hv. rewrite H in Hv. done. Qed.

Lemma hex_digits_parse fuel n acc m :
  0 <= n < 16 ^ Z.of_nat fuel -> 0 <= m ->
  Js.parse_hex 0 (hex_digits fuel n acc) = Js.parse_hex n acc.
Proof.
  intros Hn _. revert n acc Hn; induction fuel as [|fuel IH]; intros n acc Hn;
    cbn [hex_digits].
  { change (16 ^ Z.of_nat 0) with 1 in Hn. by replace n with 0 by lia. }
  assert (0 <= n mod 16 < 16) as Hm by (apply Z.mod_pos_bound; lia).
  destruct (Z.ltb_spec n 16).
  - cbn [Js.parse_hex]. rewrite hex_value_char by done. rewrite Z.mod_small by lia.
    by rewrite Z.mul_0_r, Z.add_0_l.
  - rewrite Nat2Z.inj_succ, Z.pow_succ_r in Hn by lia.
    rewrite IH by (split; [apply Z.div_pos; lia | apply Z.div_lt_upper_bound; lia]).
    cbn [Js.parse_hex]. rewrite hex_value_char by done.
    pose proof (Z.div_mod n 16 ltac:(lia)). f_equal. lia.
Qed.

Lemma hex_string_parse n : 0 <= n -> Js.parse_hex 0 (hex_string n) = Some n.
Proof.
  intros Hn. unfold hex_string. rewrite (hex_digits_parse _ _ _ 0); [done| |done].
  split; [done|]. destruct (Z.eq_dec n 0) as [->|]; [done|].
  destruct (Z.log2_spec n) as [_ H]; [lia|].
  eapply Z.lt_le_trans; [apply H|]. pose proof (Z.log2_nonneg n).
  rewrite Nat2Z.inj_succ, Z2Nat.id by done. apply Z.pow_le_mono_l. lia.
Qed.

Lemma hex_digits_nonempty fuel n acc : hex_digits (S fuel) n acc <> "".
Proof.
  revert n acc; induction fuel as [|fuel IH]; intros n acc; cbn [hex_digits];
    destruct (n <? 16); try discriminate.
  apply IH.
Qed.

Lemma hex_string_nonempty n : hex_string n <> "".
Proof. apply hex_digits_nonempty. Qed.

Lemma from_hex s v : s <> "" -> Js.parse_hex 0 s = Some v -> from ("0x" +:+ s) = Ok v.
Proof.
  intros Hs Hv. unfold from. simpl. rewrite Hv.
  by rewrite (proj2 (String.eqb_neq s "") Hs).
Qed.

Lemma from_toHexString z : from (toHexString z) = Ok z.
Proof.
  unfold toHexString. destruct (Z.ltb_spec z 0).
  - unfold from. simpl. rewrite hex_string_parse by lia. f_equal. lia.
  - apply from_hex; [apply hex_string_nonempty | by apply hex_string_parse].
Qed.

End ZBigNumberFacts.

(** The interface is inhabited. *)
Lemma Z_bignumber_laws : BigNumberLaws Z_bignumber.
Proof.
  constructor; simpl; try done.
  - intros s Hs H. unfold ZBigNumber.from.
    by rewrite H, (proj2 (String.eqb_neq s "") Hs).
  - apply ZBigNumberFacts.from_hex.
  - intros z Hz. unfold ZBigNumber.toString. destruct (Z.ltb_spec z 0); [lia|done].
  - apply ZBigNumberFacts.from_toHexString.
  - intros z Hz. unfold ZBigNumber.toNumber. destruct (Z.leb_spec (Z.abs z) MAX_SAFE_INTEGER);
      [done|lia].
  - intros. apply Z.quot_div_nonneg; lia.
  - intros. apply Z.rem_mod_nonneg; lia.
Qed.
