(* ===== verification/Decimals.v ===== *)
(** * Fixed-point decimals: [src/packages/lib-base/src/Decimal.ts]

    [Decimal] is the SDK's number type: a natural number of 10^-18 units.  The module models the
    class method by method over the [BigNumber] interface; [Difference] is the signed difference
    of two decimals and [Percent] the rendering of a ratio.  The closed forms ([dadd], [dmul], ...)
    at the end of [Decimal] are what every other file reasons with. *)

From S2P Require Import Prelude BigNumber.

Local Open Scope Z_scope.

Module Decimal.

(** The private constructor refuses negative BigNumbers, so the field is a natural number;
    [_bigNumber] reads it back as the BigNumber the code stores. *)
Record t : Type := mk { units : N }.

#[global] Instance t_eq_dec : EqDecision t.
Proof. solve_decision. Defined.

#[global] Instance t_inhabited : Inhabited t := populate (mk 0).

Definition _bigNumber (d : t) : Z := Z.of_N (units d).

(** [Decimalish]: a Decimal, a number (kept as the text its [toString] yields, the only thing the
    code reads of it), a string; [ofOther] is any other JavaScript value. *)
Inductive Decimalish : Type :=
| ofDecimal (d : t)
| ofNumber (representation : string)
| ofString (s : string)
| ofOther.

Coercion ofDecimal : t >-> Decimalish.

Definition PRECISION : nat := 18.
Definition ONE_BN : Z := 1.
Definition TEN_BN : Z := 10.
Definition MAX_UINT_256 : string :=
  "0xffffffffffffffffffffffffffffffffffffffffffffffffffffffffffffffff".
Definition magnitudes : list string := [""; "K"; "M"; "B"; "T"].

(** The regular expression of the same name: digits, then optionally a dot and digits, then
    optionally an "e", a sign and at least one digit.  The three parts start with different
    characters, so matching them greedily from the left is exact. *)
Definition stringRepresentationFormat (s : string) : bool :=
  let s1 := Js.skip_digits s in
  let s2 := if Js.startsWith "." s1 then Js.skip_digits (Js.tail1 s1) else s1 in
  match s2 with
  | EmptyString => true
  | String c s3 =>
      if Ascii.eqb c "e" then
        let s4 := if Js.startsWith "-" s3 || Js.startsWith "+" s3 then Js.tail1 s3 else s3 in
        negb (String.eqb s4 "") && Js.all_digits s4
      else false
  end.

Section Operations.
Context {BN : BigNumberOps}.

Definition getDigits (numDigits : Z) : Z := bn_pow TEN_BN numDigits.
Definition DIGITS : Z := getDigits (Z.of_nat PRECISION).

Definition hex (this : t) : string := bn_toHexString (_bigNumber this).
Definition bigNumber (this : t) : string := bn_toString (_bigNumber this).

Definition new (bigNumber : Z) : Res t :=
  if bn_isNegative bigNumber then Throw "negatives not supported by Decimal"
  else Ok (mk (Z.to_N bigNumber)).

Definition fromBigNumberString (bigNumberString : string) : Res t :=
  let! b := bn_from bigNumberString in new b.

Definition fromBigNumber (bigNumber : Z) : Res t := new bigNumber.

(** [_fromString] calls itself on the part before the "e", which holds no "e": one level of
    recursion, for which [fuel] 2 is enough ([fromString_fuel]). *)
Fixpoint _fromString_go (fuel : nat) (representation : string) : Res t :=
  match fuel with
  | O => Throw "out of fuel"
  | S fuel' =>
      if String.eqb representation "" || negb (stringRepresentationFormat representation)
      then Throw ("bad decimal format: " +:+ Js.quoted representation)
      else if Js.includes "e" representation then
        match Js.split "e" representation with
        | coefficient :: exponent :: _ =>
            if Js.startsWith "-" exponent then
              let! c := _fromString_go fuel' coefficient in
              let! e := bn_from (Js.tail1 exponent) in
              new (bn_div (_bigNumber c) (bn_pow TEN_BN e))
            else
              let exponent := if Js.startsWith "+" exponent then Js.tail1 exponent
                              else exponent in
              let! c := _fromString_go fuel' coefficient in
              let! e := bn_from exponent in
              new (bn_mul (_bigNumber c) (bn_pow TEN_BN e))
        | _ => Throw "exponent is undefined"
        end
      else if negb (Js.includes "." representation) then
        let! b := bn_from representation in new (bn_mul b DIGITS)
      else
        match Js.split "." representation with
        | characteristic :: mantissa :: _ =>
            let mantissa :=
              if (String.length mantissa <? PRECISION)%nat
              then mantissa +:+ Js.repeat "0" (PRECISION - String.length mantissa)
              else Js.prefix PRECISION mantissa in
            let! c := if String.eqb characteristic "" then Ok 0 else bn_from characteristic in
            let! m := bn_from mantissa in
            new (bn_add (bn_mul c DIGITS) m)
        | _ => Throw "mantissa is undefined"
        end
  end.

Definition _fromString (representation : string) : Res t := _fromString_go 2 representation.

Definition from (decimalish : Decimalish) : Res t :=
  match decimalish with
  | ofDecimal d => Ok d
  | ofString s => _fromString s
  | ofNumber representation => _fromString representation
  | ofOther => Throw "invalid Decimalish value"
  end.

(** Static members. *)
Definition INFINITY : t := static_init (mk 0) (fromBigNumberString MAX_UINT_256).
Definition ZERO : t := static_init (mk 0) (from (ofNumber "0")).
Definition HALF : t := static_init (mk 0) (from (ofNumber "0.5")).
Definition ONE : t := static_init (mk 0) (from (ofNumber "1")).

Definition roundedMul (x y : Z) : Res Z :=
  let! half := bn_from (hex HALF) in
  Ok (bn_div (bn_add (bn_mul x y) half) DIGITS).

Definition lt (this : t) (that : Decimalish) : Res bool :=
  let! d := from that in Ok (bn_lt (_bigNumber this) (_bigNumber d)).
Definition eq (this : t) (that : Decimalish) : Res bool :=
  let! d := from that in Ok (bn_eq (_bigNumber this) (_bigNumber d)).
Definition gt (this : t) (that : Decimalish) : Res bool :=
  let! d := from that in Ok (bn_gt (_bigNumber this) (_bigNumber d)).
Definition gte (this : t) (that : Decimalish) : Res bool :=
  let! d := from that in Ok (bn_gte (_bigNumber this) (_bigNumber d)).
Definition lte (this : t) (that : Decimalish) : Res bool :=
  let! d := from that in Ok (bn_lte (_bigNumber this) (_bigNumber d)).

Definition isZero (this : t) : bool := bn_isZero (_bigNumber this).
Definition zero (this : t) : option t := if isZero this then Some this else None.
Definition nonZero (this : t) : option t := if negb (isZero this) then Some this else None.
Definition infinite (this : t) : Res (option t) :=
  let! b := eq this INFINITY in Ok (if (b : bool) then Some this else None).
Definition finite (this : t) : Res (option t) :=
  let! b := eq this INFINITY in Ok (if negb b then Some this else None).
Definition absoluteValue (this : t) : t := this.

Definition add (this : t) (addend : Decimalish) : Res t :=
  let! d := from addend in new (bn_add (_bigNumber this) (_bigNumber d)).

Definition sub (this : t) (subtrahend : Decimalish) : Res t :=
  let! d := from subtrahend in new (bn_sub (_bigNumber this) (_bigNumber d)).

Definition mul (this : t) (multiplier : Decimalish) : Res t :=
  let! d := from multiplier in
  new (bn_div (bn_mul (_bigNumber this) (_bigNumber d)) DIGITS).

Definition div (this : t) (divider : Decimalish) : Res t :=
  let! divider := from divider in
  if isZero divider then Ok INFINITY
  else new (bn_div (bn_mul (_bigNumber this) DIGITS) (_bigNumber divider)).

Definition _divCeil (this : t) (divider : Decimalish) : Res t :=
  let! divider := from divider in
  if isZero divider then Ok INFINITY
  else new (bn_div (bn_add (bn_mul (_bigNumber this) DIGITS)
                           (bn_sub (_bigNumber divider) ONE_BN))
                   (_bigNumber divider)).

Definition mulDiv (this : t) (multiplier divider : Decimalish) : Res t :=
  let! multiplier := from multiplier in
  let! divider := from divider in
  if isZero divider then Ok INFINITY
  else new (bn_div (bn_mul (_bigNumber this) (_bigNumber multiplier)) (_bigNumber divider)).

(** [ToInt32] and [ToUint32] of the bitwise operators. *)
Definition to_uint32 (z : Z) : Z := Z.land z (2 ^ 32 - 1).
Definition to_int32 (z : Z) : Z :=
  if Z.testbit z 31 then to_uint32 z - 2 ^ 32 else to_uint32 z.

(** The loop [for (; exponent > 1; exponent >>>= 1)] of [pow]; [fuel] bounds its iterations:
    32 is enough for the exponents the assertions let through ([pow_go_spec]). *)
Fixpoint pow_go (fuel : nat) (x y exponent : Z) : Res (Z * Z) :=
  match fuel with
  | O => Throw "out of fuel"
  | S fuel' =>
      if 1 <? exponent then
        let! y := if negb (Z.land (to_int32 exponent) 1 =? 0) then roundedMul x y else Ok y in
        let! x := roundedMul x x in
        pow_go fuel' x y (Z.shiftr (to_uint32 exponent) 1)
      else Ok (x, y)
  end.

Definition pow (this : t) (exponent : JsNumber) : Res t :=
  match exponent with
  | JFrac _ => Throw "AssertionError"
  | JInt exponent =>
      let! _ := assert_ ((0 <=? exponent) && (exponent <=? 4294967295)) in
      if exponent =? 0 then Ok ONE
      else if exponent =? 1 then Ok this
      else let! '(x, y) := pow_go 32 (_bigNumber this) DIGITS exponent in
           let! r := roundedMul x y in
           new r
  end.

Definition min (a b : Decimalish) : Res t :=
  let! a := from a in
  let! b := from b in
  let! c := lt a b in
  Ok (if (c : bool) then a else b).

Definition max (a b : Decimalish) : Res t :=
  let! a := from a in
  let! b := from b in
  let! c := gt a b in
  Ok (if (c : bool) then a else b).

Definition _toStringWithAutomaticPrecision (this : t) : string :=
  let characteristic := bn_div (_bigNumber this) DIGITS in
  let mantissa := bn_mod (_bigNumber this) DIGITS in
  if bn_isZero mantissa then bn_toString characteristic
  else
    let paddedMantissa := Js.padStart PRECISION "0" (bn_toString mantissa) in
    let trimmedMantissa := Js.trim_zeros paddedMantissa in
    bn_toString characteristic +:+ "." +:+ trimmedMantissa.

Definition _roundUp (this : t) (precision : Z) : Z :=
  let halfDigit := bn_mul (getDigits (Z.of_nat PRECISION - 1 - precision)) 5 in
  bn_add (_bigNumber this) halfDigit.

Definition _toStringWithPrecision (this : t) (precision : Z) : Res string :=
  if precision <? 0 then Throw "precision must not be negative"
  else
    let value := if precision <? Z.of_nat PRECISION then _roundUp this precision
                 else _bigNumber this in
    let characteristic := bn_div value DIGITS in
    let mantissa := bn_mod value DIGITS in
    if precision =? 0 then Ok (bn_toString characteristic)
    else
      let paddedMantissa := Js.padStart PRECISION "0" (bn_toString mantissa) in
      let trimmedMantissa := Js.prefix (Z.to_nat precision) paddedMantissa in
      Ok (bn_toString characteristic +:+ "." +:+ trimmedMantissa).

Definition toString (this : t) (precision : option Z) : Res string :=
  let! inf := infinite this in
  match inf with
  | Some _ => Ok "∞"
  | None => match precision with
            | Some p => _toStringWithPrecision this p
            | None => Ok (_toStringWithAutomaticPrecision this)
            end
  end.

(** The [replace] of [prettify]: a comma after each digit that a positive multiple of three digits
    (and then no digit) follows. *)
Fixpoint separateThousands (s : string) : string :=
  match s with
  | EmptyString => EmptyString
  | String c s' =>
      let run := Js.digit_run s' in
      if Js.is_digit c && (0 <? run)%nat && (run mod 3 =? 0)%nat
      then String c (String "," (separateThousands s'))
      else String c (separateThousands s')
  end.

Definition prettify (this : t) (precision : option Z) : Res string :=
  let precision := match precision with Some p => p | None => 2 end in
  let! s := toString this (Some precision) in
  match Js.split "." s with
  | characteristic :: rest =>
      let prettyCharacteristic := separateThousands characteristic in
      Ok match rest with
         | mantissa :: _ => prettyCharacteristic +:+ "." +:+ mantissa
         | [] => prettyCharacteristic
         end
  | [] => Throw "characteristic is undefined"
  end.

Definition shorten (this : t) : Res string :=
  let! s := toString this (Some 0) in
  let characteristicLength := Z.of_nat (Js.length16 s) in
  let magnitude := Z.min ((characteristicLength - 1) / 3)
                         (Z.of_nat (length magnitudes) - 1) in
  let precision := Z.max (3 * (magnitude + 1) - characteristicLength) 0 in
  let! scale := new (getDigits (Z.of_nat PRECISION + 3 * magnitude)) in
  let! normalized := div this scale in
  let! p := prettify normalized (Some precision) in
  Ok (p +:+ nth (Z.to_nat magnitude) magnitudes "undefined").

End Operations.

End Decimal.
Export (coercions) Decimal.

(** ** The operations in closed form, on the natural number of units *)
Module DecimalFacts.
Create Rewrite HintDb dec.
Import Decimal.

Definition SCALE : N := 10 ^ 18.

(** The Decimal of a non-negative BigNumber. *)
Definition dec (z : Z) : t := mk (Z.to_N z).

Definition dadd (a b : t) : t := mk (units a + units b).
Definition dsub (a b : t) : t := mk (units a - units b).
Definition dmul (a b : t) : t := mk (units a * units b / SCALE).
Definition INF : t := mk (2 ^ 256 - 1).
Definition dmulDiv (a b c : t) : t :=
  if (units c =? 0)%N then INF else mk (units a * units b / units c).
Definition ddiv (a b : t) : t :=
  if (units b =? 0)%N then INF else mk (units a * SCALE / units b).
Definition ddivCeil (a b : t) : t :=
  if (units b =? 0)%N then INF
  else mk ((units a * SCALE + (units b - 1)) / units b).
Definition dltb (a b : t) : bool := (units a <? units b)%N.
Definition dleb (a b : t) : bool := (units a <=? units b)%N.
Definition deqb (a b : t) : bool := (units a =? units b)%N.

Lemma t_eq a b : units a = units b -> a = b.
Proof. destruct a, b; simpl; congruence. Qed.

Lemma deqb_eq a b : deqb a b = true <-> a = b.
Proof.
  unfold deqb. rewrite N.eqb_eq. split; [apply t_eq | congruence].
Qed.

Lemma deqb_refl a : deqb a a = true.
Proof. by apply deqb_eq. Qed.

Lemma units_dec z : 0 <= z -> Z.of_N (units (dec z)) = z.
Proof. intros. unfold dec; simpl. lia. Qed.

Lemma dec_units a : dec (_bigNumber a) = a.
Proof. apply t_eq. unfold dec, _bigNumber; simpl. lia. Qed.

(** *** What the format check lets through *)

(** An accepted text is digits, a fraction and an exponent part, each well formed. *)
Lemma format_parts s :
  stringRepresentationFormat s = true ->
  exists a b e,
    s = a +:+ b +:+ e /\ Js.all_digits a = true /\
    (b = "" \/ exists m, b = String "." m /\ Js.all_digits m = true) /\
    (e = "" \/ exists sg x, e = String "e" (sg +:+ x) /\ (sg = "" \/ sg = "-" \/ sg = "+") /\
        x <> "" /\ Js.all_digits x = true).
Proof.
  assert (forall u, exists d, u = d +:+ Js.skip_digits u /\ Js.all_digits d = true) as Hskip.
  { induction u as [|c u (d & Hd & Hd')]; [by exists ""|].
    simpl. destruct (Js.is_digit c) eqn:Hc; [|by exists ""].
    exists (String c d). simpl. rewrite Hc, Hd'. split; [|done]. by rewrite <- Hd. }
  assert (forall c u, Js.startsWith c u = true -> u = String c (Js.tail1 u)) as Hst.
  { intros c [|d u]; simpl; [done|]. intros H%Ascii.eqb_eq. by subst. }
  unfold stringRepresentationFormat. intros H.
  destruct (Hskip s) as (a & Ha & Hda).
  set (s1 := Js.skip_digits s) in *.
  assert (exists b s2, s1 = b +:+ s2 /\
    (if Js.startsWith "." s1 then Js.skip_digits (Js.tail1 s1) else s1) = s2 /\
    (b = "" \/ exists m, b = String "." m /\ Js.all_digits m = true)) as (b & s2 & Hb & Hs2 & Hb').
  { destruct (Js.startsWith "." s1) eqn:Hd; [|exists "", s1; auto].
    destruct (Hskip (Js.tail1 s1)) as (m & Hm & Hdm).
    exists (String "." m), (Js.skip_digits (Js.tail1 s1)). split; [|eauto].
    rewrite (Hst _ _ Hd) at 1. simpl. by rewrite <- Hm. }
  rewrite Hs2 in H. exists a, b, s2. rewrite Ha at 1. rewrite Hb.
  split; [done|]. split; [done|]. split; [done|].
  destruct s2 as [|c s3]; [by left|right].
  destruct (Ascii.eqb_spec c "e"); [subst c|done].
  destruct (Js.startsWith "-" s3) eqn:Hm; [|destruct (Js.startsWith "+" s3) eqn:Hp];
    simpl in H; bool_to_prop.
  - exists "-", (Js.tail1 s3). simpl. rewrite <- (Hst _ _ Hm). repeat split; auto. by apply String.eqb_neq.
  - exists "+", (Js.tail1 s3). simpl. rewrite <- (Hst _ _ Hp). repeat split; auto. by apply String.eqb_neq.
  - exists "", s3. repeat split; auto. by apply String.eqb_neq.
Qed.

Section Closed.
Context {BN : BigNumberOps} {BNL : BigNumberLaws BN}.

Lemma DIGITS_val : DIGITS = Z.of_N SCALE.
Proof. unfold DIGITS, getDigits. rewrite bn_powE by (simpl; lia). reflexivity. Qed.

Lemma new_ok z : 0 <= z -> new z = Ok (dec z).
Proof. intros. unfold new. autorewrite with bn. destruct (Z.ltb_spec z 0); [lia|done]. Qed.

Lemma new_throws z : z < 0 -> new z = Throw "negatives not supported by Decimal".
Proof. intros. unfold new. autorewrite with bn. destruct (Z.ltb_spec z 0); [done|lia]. Qed.

(** *** Parsing, piece by piece *)

Lemma includes_sign c sg x :
  is_true (negb (Js.is_digit c)) -> c <> "-"%char -> c <> "+"%char ->
  (sg = "" \/ sg = "-" \/ sg = "+") -> Js.all_digits x = true ->
  Js.includes c (sg +:+ x) = false.
Proof.
  intros Hc Hm Hp Hsg Hx. rewrite JsFacts.includes_app.
  rewrite (JsFacts.includes_digits c x) by (done || by apply negb_true_iff).
  rewrite orb_false_r.
  destruct Hsg as [-> | [-> | ->] ]; cbn [Js.includes]; [done| |].
  - destruct (Ascii.eqb_spec "-" c); [congruence|done].
  - destruct (Ascii.eqb_spec "+" c); [congruence|done].
Qed.

Lemma format_fraction a m :
  Js.all_digits a = true -> Js.all_digits m = true ->
  stringRepresentationFormat (a +:+ String "." m) = true.
Proof.
  intros Ha Hm. unfold stringRepresentationFormat.
  rewrite (JsFacts.skip_digits_app a _ Ha). simpl.
  by rewrite (JsFacts.skip_digits_all m Hm).
Qed.

Lemma format_digits a : Js.all_digits a = true -> stringRepresentationFormat a = true.
Proof.
  intros Ha. unfold stringRepresentationFormat. by rewrite (JsFacts.skip_digits_all a Ha).
Qed.

(** A plain digit string. *)
Lemma fromString_digits fuel s :
  s <> "" -> Js.all_digits s = true ->
  _fromString_go (S fuel) s = Ok (dec (Js.dec_value s * Z.of_N SCALE)).
Proof.
  intros Hs Hd. cbn [_fromString_go].
  rewrite (proj2 (String.eqb_neq s "") Hs), format_digits by done. cbn [negb orb].
  rewrite !(JsFacts.includes_digits _ s Hd) by reflexivity. cbn [negb].
  rewrite bn_from_digits by done. cbn [res_bind]. autorewrite with bn.
  rewrite DIGITS_val. apply new_ok. pose proof (JsFacts.dec_value_nonneg s Hd). lia.
Qed.

(** The text the code pads or cuts a fraction to. *)
Definition pad_mantissa (m : string) : string :=
  if (String.length m <? PRECISION)%nat
  then m +:+ Js.repeat "0" (PRECISION - String.length m) else Js.prefix PRECISION m.

Lemma all_digits_prefix n m : Js.all_digits m = true -> Js.all_digits (Js.prefix n m) = true.
Proof.
  revert n; induction m as [|c m IH]; intros [|n] H; try done.
  simpl in *. bool_to_prop. rewrite H, IH; done.
Qed.

Lemma pad_mantissa_digits m :
  Js.all_digits m = true -> Js.all_digits (pad_mantissa m) = true /\ pad_mantissa m <> "".
Proof.
  intros H. unfold pad_mantissa.
  destruct (Nat.ltb_spec (String.length m) PRECISION) as [Hl|Hl].
  - rewrite JsFacts.all_digits_app, H, JsFacts.all_digits_zeros. split; [done|].
    intros E%(f_equal String.length). rewrite JsFacts.str_length_app, JsFacts.length_repeat in E.
    unfold PRECISION in *. simpl in E. lia.
  - split; [by apply all_digits_prefix|]. destruct m; simpl in *; [unfold PRECISION in Hl; lia|].
    discriminate.
Qed.

(** A number with a fraction. *)
Lemma fromString_fraction fuel a m :
  Js.all_digits a = true -> Js.all_digits m = true ->
  _fromString_go (S fuel) (a +:+ String "." m) =
    Ok (dec (Js.dec_value a * Z.of_N SCALE + Js.dec_value (pad_mantissa m))).
Proof.
  intros Ha Hm. cbn [_fromString_go].
  assert (a +:+ String "." m <> "") as Hne by (destruct a; done).
  rewrite (proj2 (String.eqb_neq _ "") Hne), format_fraction by done. cbn [negb orb].
  rewrite !JsFacts.includes_app, !(JsFacts.includes_digits _ a Ha) by reflexivity.
  cbn [Js.includes]. rewrite (JsFacts.includes_digits "e" m Hm) by reflexivity. simpl.
  rewrite JsFacts.split_one_sep by (by apply JsFacts.includes_digits).
  rewrite JsFacts.split_no_sep by (by apply JsFacts.includes_digits).
  fold (pad_mantissa m). destruct (pad_mantissa_digits m Hm) as [Hpd Hpn].
  assert ((if String.eqb a "" then Ok 0 else bn_from a) = Ok (Js.dec_value a)) as ->.
  { destruct (String.eqb_spec a "") as [->|]; [done|]. by apply bn_from_digits. }
  cbn [res_bind]. rewrite bn_from_digits by done. cbn [res_bind]. autorewrite with bn.
  rewrite DIGITS_val. apply new_ok.
  pose proof (JsFacts.dec_value_nonneg a Ha). pose proof (JsFacts.dec_value_nonneg _ Hpd). lia.
Qed.

(** The value of a text with no exponent. *)
Definition plain_value (a b : string) : Z :=
  Js.dec_value a * Z.of_N SCALE +
  match b with EmptyString => 0 | String _ m => Js.dec_value (pad_mantissa m) end.

Lemma fromString_plain fuel a b :
  Js.all_digits a = true ->
  (b = "" \/ exists m, b = String "." m /\ Js.all_digits m = true) -> a +:+ b <> "" ->
  _fromString_go (S fuel) (a +:+ b) = Ok (dec (plain_value a b)) /\ 0 <= plain_value a b.
Proof.
  intros Ha Hb Hne. unfold plain_value. pose proof (JsFacts.dec_value_nonneg a Ha).
  destruct Hb as [->|(m & -> & Hm)].
  - rewrite JsFacts.str_app_nil_r in *. rewrite fromString_digits by done. split; [|lia].
    do 3 f_equal. lia.
  - rewrite fromString_fraction by done. split; [done|].
    pose proof (JsFacts.dec_value_nonneg _ (proj1 (pad_mantissa_digits m Hm))). lia.
Qed.

(** The value of an accepted text: digits [a], fraction [b], sign [sg] and digits [x] of the
    exponent. *)
Definition exp_value (a b sg x : string) : Z :=
  if String.eqb sg "-" then plain_value a b / 10 ^ Js.dec_value x
  else plain_value a b * 10 ^ Js.dec_value x.

Definition bad_format (s : string) : string := "bad decimal format: " +:+ Js.quoted s.

Lemma format_exp a b sg x :
  Js.all_digits a = true ->
  (b = "" \/ exists m, b = String "." m /\ Js.all_digits m = true) ->
  (sg = "" \/ sg = "-" \/ sg = "+") -> x <> "" -> Js.all_digits x = true ->
  stringRepresentationFormat (a +:+ b +:+ String "e" (sg +:+ x)) = true.
Proof.
  intros Ha Hb Hsg Hx Hdx. unfold stringRepresentationFormat.
  rewrite (JsFacts.skip_digits_app a _ Ha).
  assert ((if Js.startsWith "-" (sg +:+ x) || Js.startsWith "+" (sg +:+ x)
           then Js.tail1 (sg +:+ x) else sg +:+ x) = x) as Hrest.
  { destruct Hsg as [-> | [-> | ->] ]; [|done|done]. destruct x as [|c x]; [done|].
    simpl in *. bool_to_prop.
    destruct (Ascii.eqb_spec c "-") as [->|]; [done|].
    destruct (Ascii.eqb_spec c "+") as [->|]; [done|]. done. }
  destruct Hb as [->|(m & -> & Hm)].
  - simpl. rewrite Hrest, Hdx, (proj2 (String.eqb_neq x "") Hx). done.
  - simpl. rewrite (JsFacts.skip_digits_app m _ Hm). simpl.
    rewrite Hrest, Hdx, (proj2 (String.eqb_neq x "") Hx). done.
Qed.

Lemma no_e_plain a b :
  Js.all_digits a = true ->
  (b = "" \/ exists m, b = String "." m /\ Js.all_digits m = true) ->
  Js.includes "e" (a +:+ b) = false.
Proof.
  intros Ha Hb. rewrite JsFacts.includes_app, JsFacts.includes_digits by done.
  destruct Hb as [->|(m & -> & Hm)]; [done|]. simpl. by apply JsFacts.includes_digits.
Qed.

(** A number with an exponent part. *)
Lemma fromString_exp a b sg x :
  Js.all_digits a = true ->
  (b = "" \/ exists m, b = String "." m /\ Js.all_digits m = true) ->
  (sg = "" \/ sg = "-" \/ sg = "+") -> x <> "" -> Js.all_digits x = true ->
  _fromString (a +:+ b +:+ String "e" (sg +:+ x)) =
    if String.eqb (a +:+ b) "" then Throw (bad_format "")
    else Ok (dec (exp_value a b sg x)).
Proof.
  intros Ha Hb Hsg Hx Hdx. pose proof (format_exp a b sg x Ha Hb Hsg Hx Hdx) as Hf.
  pose proof (no_e_plain a b Ha Hb) as Hne. rewrite <- JsFacts.str_app_assoc in *.
  unfold _fromString, _fromString_go at 1. rewrite Hf.
  assert ((a +:+ b) +:+ String "e" (sg +:+ x) <> "") as Hn by (destruct (a +:+ b); done).
  rewrite (proj2 (String.eqb_neq _ "") Hn). cbn [negb orb].
  rewrite JsFacts.includes_app. replace (Js.includes "e" (String "e" (sg +:+ x))) with true by done.
  rewrite orb_true_r, JsFacts.split_one_sep by done.
  rewrite JsFacts.split_no_sep by (apply includes_sign; auto; done).
  fold (@_fromString_go BN). pose proof (JsFacts.dec_value_nonneg x Hdx) as Hx0.
  assert (forall k : t -> Res t, (let! c := _fromString_go 1 (a +:+ b) in k c) =
    if String.eqb (a +:+ b) "" then Throw (bad_format "") else k (dec (plain_value a b))) as Hrec.
  { intros k. destruct (String.eqb_spec (a +:+ b) "") as [->|Hab]; [done|].
    by rewrite (proj1 (fromString_plain 0 a b Ha Hb Hab)). }
  assert (a +:+ b <> "" -> 0 <= plain_value a b) as Hpos
    by (intros Hab; apply (fromString_plain 0 a b Ha Hb Hab)).
  destruct Hsg as [-> | [-> | ->] ].
  - replace (Js.startsWith "-" ("" +:+ x)) with false.
    2:{ destruct x as [|c x]; [done|]. simpl in *. bool_to_prop.
        destruct (Ascii.eqb_spec c "-") as [->|]; done. }
    replace (Js.startsWith "+" ("" +:+ x)) with false.
    2:{ destruct x as [|c x]; [done|]. simpl in *. bool_to_prop.
        destruct (Ascii.eqb_spec c "+") as [->|]; done. }
    rewrite Hrec. destruct (String.eqb_spec (a +:+ b) ""); [done|]. specialize (Hpos ltac:(done)).
    simpl. rewrite bn_from_digits by done. simpl. rewrite bn_mulE, bn_powE by done.
    unfold _bigNumber. rewrite units_dec by done. apply new_ok.
    by apply Z.mul_nonneg_nonneg; [|apply Z.pow_nonneg].
  - change (Js.startsWith "-" ("-" +:+ x)) with true. cbn [Js.tail1].
    rewrite Hrec. destruct (String.eqb_spec (a +:+ b) ""); [done|]. specialize (Hpos ltac:(done)).
    change (Js.tail1 ("-" +:+ x)) with x. rewrite bn_from_digits by done. cbn [res_bind].
    rewrite bn_powE by done. unfold _bigNumber. rewrite units_dec by done.
    assert (0 < TEN_BN ^ Js.dec_value x) by (apply Z.pow_pos_nonneg; unfold TEN_BN; lia).
    rewrite bn_divE by done. apply new_ok. apply Z.div_pos; done.
  - change (Js.startsWith "-" ("+" +:+ x)) with false.
    change (Js.startsWith "+" ("+" +:+ x)) with true. change (Js.tail1 ("+" +:+ x)) with x.
    set (c := _fromString_go 1 (a +:+ b)) in *. cbv iota zeta. rewrite Hrec. destruct (String.eqb_spec (a +:+ b) ""); [done|]. specialize (Hpos ltac:(done)).
    rewrite bn_from_digits by done. cbn [res_bind]. rewrite bn_mulE, bn_powE by done.
    unfold _bigNumber. rewrite units_dec by done. apply new_ok.
    by apply Z.mul_nonneg_nonneg; [|apply Z.pow_nonneg].
Qed.

(** Any text the format check refuses is refused. *)
Lemma fromString_bad s :
  stringRepresentationFormat s = false -> _fromString s = Throw (bad_format s).
Proof. intros H. unfold _fromString, _fromString_go. rewrite H. by rewrite orb_true_r. Qed.
End Closed.

(** The parser does not depend on the BigNumber implementation. *)
Lemma fromString_independent {BN} {BNL : BigNumberLaws BN} s :
  _fromString (BN := BN) s = _fromString (BN := Z_bignumber) s.
Proof.
  pose proof Z_bignumber_laws as ZL.
  destruct (stringRepresentationFormat s) eqn:Hf; [|by rewrite !fromString_bad].
  destruct (format_parts s Hf) as (a & b & e & -> & Ha & Hb & [->|(sg & x & -> & Hsg & Hx & Hdx)]).
  - rewrite JsFacts.str_app_nil_r in *.
    destruct (String.eqb_spec (a +:+ b) "") as [->|Hne]; [done|].
    unfold _fromString. by rewrite !(proj1 (fromString_plain _ a b Ha Hb Hne)).
  - by rewrite !fromString_exp.
Qed.

Section Ops.
Context {BN : BigNumberOps} {BNL : BigNumberLaws BN}.

(** *** Static members load, and their values *)

Lemma ZERO_val : ZERO = mk 0.
Proof. unfold ZERO, from. rewrite fromString_independent. by vm_compute. Qed.

Lemma ONE_val : ONE = mk SCALE.
Proof. unfold ONE, from. rewrite fromString_independent. by vm_compute. Qed.

Lemma HALF_val : HALF = mk (5 * 10 ^ 17).
Proof. unfold HALF, from. rewrite fromString_independent. by vm_compute. Qed.

Lemma INFINITY_val : INFINITY = INF.
Proof.
  unfold INFINITY, fromBigNumberString, MAX_UINT_256.
  change "0xffffffffffffffffffffffffffffffffffffffffffffffffffffffffffffffff" with
    ("0x" +:+ "ffffffffffffffffffffffffffffffffffffffffffffffffffffffffffffffff").
  rewrite (bn_from_hex _ (2 ^ 256 - 1)) by done. simpl res_bind. rewrite new_ok by done.
  reflexivity.
Qed.

(** *** Arithmetic *)

(** Non-negativity of the products and quotients below. *)
Ltac nonneg :=
  repeat first [ lia | apply Z.mul_nonneg_nonneg | apply Z.add_nonneg_nonneg | apply Z.div_pos ].

Lemma from_decimal (d : t) : from d = Ok d.
Proof. reflexivity. Qed.

Lemma from_number s : from (ofNumber s) = from (BN := Z_bignumber) (ofNumber s).
Proof. apply fromString_independent. Qed.

Lemma from_string s : from (ofString s) = from (BN := Z_bignumber) (ofString s).
Proof. apply fromString_independent. Qed.

Lemma isZero_ok a : isZero a = (units a =? 0)%N.
Proof. unfold isZero, _bigNumber. autorewrite with bn. destruct (N.eqb_spec (units a) 0); lia. Qed.

Lemma new_units n : 0 <= n -> new n = Ok (mk (Z.to_N n)).
Proof. apply new_ok. Qed.

Lemma add_ok (a b : t) : add a b = Ok (dadd a b).
Proof.
  unfold add, _bigNumber; simpl. autorewrite with bn. rewrite new_units by lia.
  unfold dadd. do 2 f_equal. lia.
Qed.

Lemma sub_ok (a b : t) : (units b <= units a)%N -> sub a b = Ok (dsub a b).
Proof.
  intros. unfold sub, _bigNumber; simpl. autorewrite with bn. rewrite new_units by lia.
  unfold dsub. do 2 f_equal. lia.
Qed.

Lemma sub_throws (a b : t) :
  (units a < units b)%N -> sub a b = Throw "negatives not supported by Decimal".
Proof. intros. unfold sub, _bigNumber; simpl. autorewrite with bn. apply new_throws. lia. Qed.

Lemma mul_ok (a b : t) : mul a b = Ok (dmul a b).
Proof.
  unfold mul, _bigNumber; simpl. autorewrite with bn. rewrite DIGITS_val.
  rewrite bn_divE by (unfold SCALE; nonneg). rewrite new_units by (unfold SCALE; nonneg).
  unfold dmul. do 2 f_equal. rewrite <- N2Z.inj_mul, <- N2Z.inj_div. apply N2Z.id.
Qed.

Lemma div_ok (a b : t) : div a b = Ok (ddiv a b).
Proof.
  unfold div; simpl. rewrite isZero_ok. unfold ddiv.
  destruct (N.eqb_spec (units b) 0); [by rewrite INFINITY_val|].
  unfold _bigNumber. autorewrite with bn. rewrite DIGITS_val, bn_divE by nonneg.
  rewrite new_units by nonneg.
  do 2 f_equal. rewrite <- N2Z.inj_mul, <- N2Z.inj_div. apply N2Z.id.
Qed.

Lemma divCeil_ok (a b : t) : _divCeil a b = Ok (ddivCeil a b).
Proof.
  unfold _divCeil; simpl. rewrite isZero_ok. unfold ddivCeil.
  destruct (N.eqb_spec (units b) 0); [by rewrite INFINITY_val|].
  unfold _bigNumber, ONE_BN. autorewrite with bn. rewrite DIGITS_val, bn_divE by nonneg.
  rewrite new_units by nonneg.
  do 2 f_equal. replace (Z.of_N (units b) - 1) with (Z.of_N (units b - 1)) by lia.
  rewrite <- N2Z.inj_mul, <- N2Z.inj_add, <- N2Z.inj_div. apply N2Z.id.
Qed.

Lemma mulDiv_ok (a b c : t) : mulDiv a b c = Ok (dmulDiv a b c).
Proof.
  unfold mulDiv; simpl. rewrite isZero_ok. unfold dmulDiv.
  destruct (N.eqb_spec (units c) 0); [by rewrite INFINITY_val|].
  unfold _bigNumber. autorewrite with bn. rewrite bn_divE by nonneg.
  rewrite new_units by nonneg.
  do 2 f_equal. rewrite <- N2Z.inj_mul, <- N2Z.inj_div. apply N2Z.id.
Qed.

Lemma ltb_of_N a b : (Z.of_N a <? Z.of_N b) = (a <? b)%N.
Proof. destruct (N.ltb_spec a b), (Z.ltb_spec (Z.of_N a) (Z.of_N b)); lia. Qed.
Lemma leb_of_N a b : (Z.of_N a <=? Z.of_N b) = (a <=? b)%N.
Proof. destruct (N.leb_spec a b), (Z.leb_spec (Z.of_N a) (Z.of_N b)); lia. Qed.
Lemma eqb_of_N a b : (Z.of_N a =? Z.of_N b) = (a =? b)%N.
Proof. destruct (N.eqb_spec a b), (Z.eqb_spec (Z.of_N a) (Z.of_N b)); lia. Qed.

Ltac compare_tac :=
  unfold _bigNumber, dltb, dleb, deqb; simpl; autorewrite with bn;
  by rewrite ?ltb_of_N, ?leb_of_N, ?eqb_of_N.

Lemma lt_ok (a b : t) : lt a b = Ok (dltb a b).
Proof. unfold lt. compare_tac. Qed.
Lemma gt_ok (a b : t) : gt a b = Ok (dltb b a).
Proof. unfold gt. compare_tac. Qed.
Lemma lte_ok (a b : t) : lte a b = Ok (dleb a b).
Proof. unfold lte. compare_tac. Qed.
Lemma gte_ok (a b : t) : gte a b = Ok (dleb b a).
Proof. unfold gte. compare_tac. Qed.
Lemma eq_ok (a b : t) : eq a b = Ok (deqb a b).
Proof. unfold eq. compare_tac. Qed.

Lemma min_ok (a b : t) : min a b = Ok (if dltb a b then a else b).
Proof. unfold min. rewrite !from_decimal. cbn [res_bind]. by rewrite lt_ok. Qed.
Lemma max_ok (a b : t) : max a b = Ok (if dltb b a then a else b).
Proof. unfold max. rewrite !from_decimal. cbn [res_bind]. by rewrite gt_ok. Qed.

Lemma zero_ok a : zero a = if (units a =? 0)%N then Some a else None.
Proof. unfold zero. by rewrite isZero_ok. Qed.
Lemma nonZero_ok a : nonZero a = if (units a =? 0)%N then None else Some a.
Proof. unfold nonZero. rewrite isZero_ok. by destruct (units a =? 0)%N. Qed.
Lemma infinite_ok a : infinite a = Ok (if deqb a INF then Some a else None).
Proof. unfold infinite. rewrite INFINITY_val, eq_ok. reflexivity. Qed.
Lemma finite_ok a : finite a = Ok (if deqb a INF then None else Some a).
Proof. unfold finite. rewrite INFINITY_val, eq_ok. simpl. by destruct (deqb a INF). Qed.

(** Operations whose argument is any [Decimalish]: as on the Decimal it denotes. *)
Lemma add_from (a d : t) x : from x = Ok d -> add a x = Ok (dadd a d).
Proof. intros H. rewrite <- add_ok. unfold add. by rewrite H. Qed.
Lemma mul_from (a d : t) x : from x = Ok d -> mul a x = Ok (dmul a d).
Proof. intros H. rewrite <- mul_ok. unfold mul. by rewrite H. Qed.
Lemma div_from (a d : t) x : from x = Ok d -> div a x = Ok (ddiv a d).
Proof. intros H. rewrite <- div_ok. unfold div. by rewrite H. Qed.
Lemma divCeil_from (a d : t) x : from x = Ok d -> _divCeil a x = Ok (ddivCeil a d).
Proof. intros H. rewrite <- divCeil_ok. unfold _divCeil. by rewrite H. Qed.
Lemma mulDiv_from (a b c : t) x y :
  from x = Ok b -> from y = Ok c -> mulDiv a x y = Ok (dmulDiv a b c).
Proof. intros H1 H2. rewrite <- mulDiv_ok. unfold mulDiv. by rewrite H1, H2. Qed.
Lemma lt_from (a d : t) x : from x = Ok d -> lt a x = Ok (dltb a d).
Proof. intros H. rewrite <- lt_ok. unfold lt. by rewrite H. Qed.
Lemma gte_from (a d : t) x : from x = Ok d -> gte a x = Ok (dleb d a).
Proof. intros H. rewrite <- gte_ok. unfold gte. by rewrite H. Qed.

(** *** Printing *)

Lemma div_mod_units (n : N) :
  bn_div (Z.of_N n) DIGITS = Z.of_N (n / SCALE) /\ bn_mod (Z.of_N n) DIGITS = Z.of_N (n mod SCALE).
Proof.
  rewrite DIGITS_val, bn_divE, bn_modE by (unfold SCALE; lia).
  by rewrite <- N2Z.inj_div, <- N2Z.inj_mod.
Qed.

Lemma trim_zeros_value m :
  Js.all_digits m = true -> String.length m = PRECISION ->
  Js.dec_value (pad_mantissa (Js.trim_zeros m)) = Js.dec_value m.
Proof.
  intros Hd Hl. pose proof (JsFacts.length_trim m) as Hlt. unfold pad_mantissa.
  destruct (Nat.ltb_spec (String.length (Js.trim_zeros m)) PRECISION) as [H|H].
  - f_equal. rewrite (JsFacts.trim_zeros_pad m) at 3. by rewrite Hl.
  - pose proof (JsFacts.trim_zeros_pad m) as E.
    replace (String.length m - String.length (Js.trim_zeros m))%nat with 0%nat in E by lia.
    simpl in E. rewrite JsFacts.str_app_nil_r in E. rewrite <- E.
    rewrite JsFacts.prefix_all by lia. done.
Qed.

(** The text printed without a precision parses back to the same units. *)
Lemma fromString_toString (d : t) : _fromString (_toStringWithAutomaticPrecision d) = Ok d.
Proof.
  unfold _toStringWithAutomaticPrecision, _bigNumber.
  destruct (div_mod_units (units d)) as [-> ->]. rewrite bn_isZeroE.
  rewrite !bn_toString_nonneg by apply N2Z.is_nonneg.
  destruct (JsFacts.dec_string_spec (Z.of_N (units d / SCALE)) (N2Z.is_nonneg _)) as [Hc Hcv].
  destruct (JsFacts.dec_string_spec (Z.of_N (units d mod SCALE)) (N2Z.is_nonneg _)) as [Hm Hmv].
  pose proof (N.div_mod (units d) SCALE ltac:(done)) as Hdm.
  pose proof (N.mod_lt (units d) SCALE ltac:(done)) as Hlt.
  set (q := (units d / SCALE)%N) in *. set (r := (units d mod SCALE)%N) in *.
  destruct (Z.eqb_spec (Z.of_N r) 0) as [Hz|Hz].
  - unfold _fromString. rewrite fromString_digits by (done || apply JsFacts.dec_string_nonempty).
    rewrite Hcv. f_equal. apply t_eq. unfold dec. cbn [units]. nia.
  - set (ms := Js.dec_string (Z.of_N r)) in *.
    assert (String.length ms <= PRECISION)%nat as Hlen.
    { apply (JsFacts.dec_string_length _ 17). change (10 ^ Z.of_nat 18) with (Z.of_N SCALE). lia. }
    unfold _fromString. simpl String.append at 2.
    rewrite fromString_fraction; [|done|].
    2:{ by apply JsFacts.all_digits_trim, JsFacts.all_digits_padStart. }
    rewrite trim_zeros_value;
      [|by apply JsFacts.all_digits_padStart | by apply JsFacts.padStart_length].
    rewrite JsFacts.padStart_value, Hcv, Hmv by done.
    f_equal. apply t_eq. unfold dec. cbn [units]. nia.
Qed.

Lemma toString_text (d : t) :
  toString d None = Ok (if deqb d INF then "∞" else _toStringWithAutomaticPrecision d).
Proof. unfold toString. rewrite infinite_ok. by destruct (deqb d INF). Qed.


(** *** Exponentiation *)

Definition rmul (x y : Z) : Z := (x * y + 5 * 10 ^ 17) / 10 ^ 18.

(** The value [pow] computes, by recursion on the binary exponent. *)
Fixpoint sq_mul (p : positive) (x y : Z) : Z :=
  match p with
  | xH => rmul x y
  | xO p => sq_mul p (rmul x x) y
  | xI p => sq_mul p (rmul x x) (rmul x y)
  end.

Lemma rmul_nonneg x y : 0 <= x -> 0 <= y -> 0 <= rmul x y.
Proof. intros. unfold rmul. nonneg. Qed.

Lemma sq_mul_nonneg p x y : 0 <= x -> 0 <= y -> 0 <= sq_mul p x y.
Proof. revert x y; induction p; simpl; intros; auto using rmul_nonneg. Qed.

(** With base and accumulator at most one, so is the result. *)
Lemma rmul_le_one x y : 0 <= x <= 10 ^ 18 -> 0 <= y <= 10 ^ 18 -> 0 <= rmul x y <= 10 ^ 18.
Proof.
  intros. split; [apply rmul_nonneg; lia|]. unfold rmul.
  assert (x * y <= 10 ^ 18 * 10 ^ 18) by (apply Z.mul_le_mono_nonneg; lia).
  apply Z.lt_succ_r, Z.div_lt_upper_bound; lia.
Qed.

Lemma sq_mul_le_one p x y :
  0 <= x <= 10 ^ 18 -> 0 <= y <= 10 ^ 18 -> 0 <= sq_mul p x y <= 10 ^ 18.
Proof. revert x y; induction p; simpl; intros; auto using rmul_le_one. Qed.

Lemma roundedMul_ok x y : 0 <= x -> 0 <= y -> roundedMul x y = Ok (rmul x y).
Proof.
  intros. unfold roundedMul, hex. rewrite HALF_val, bn_from_toHexString. cbn [res_bind].
  autorewrite with bn. rewrite DIGITS_val.
  change (_bigNumber (mk (5 * 10 ^ 17))) with (5 * 10 ^ 17).
  change (Z.of_N SCALE) with (10 ^ 18). rewrite bn_divE by nonneg. done.
Qed.

Lemma to_uint32_small z : 0 <= z < 2 ^ 32 -> to_uint32 z = z.
Proof.
  intros. unfold to_uint32. change (2 ^ 32 - 1) with (Z.ones 32).
  rewrite Z.land_ones by lia. apply Z.mod_small. lia.
Qed.

Lemma to_int32_odd z : 0 <= z < 2 ^ 32 -> negb (Z.land (to_int32 z) 1 =? 0) = Z.odd z.
Proof.
  intros. change 1 with (Z.ones 1). rewrite Z.land_ones by lia. change (2 ^ 1) with 2.
  unfold to_int32. rewrite to_uint32_small by done.
  replace ((if Z.testbit z 31 then z - 2 ^ 32 else z) mod 2) with (z mod 2).
  - rewrite Zmod_odd. by destruct (Z.odd z).
  - destruct (Z.testbit z 31); [|done].
    rewrite <- (Z_mod_plus_full z (- 2 ^ 31) 2). f_equal; lia.
Qed.

Lemma pow_go_spec fuel p x y :
  0 <= x -> 0 <= y -> Z.pos p < 2 ^ Z.of_nat (S fuel) -> Z.pos p < 2 ^ 32 ->
  exists x' y', pow_go (S fuel) x y (Z.pos p) = Ok (x', y') /\
    0 <= x' /\ 0 <= y' /\ rmul x' y' = sq_mul p x y.
Proof.
  revert p x y; induction fuel as [|fuel IH]; intros p x y Hx Hy Hf H32.
  { change (2 ^ Z.of_nat 1) with 2 in Hf. replace p with xH by lia. by exists x, y. }
  rewrite Nat2Z.inj_succ, Z.pow_succ_r in Hf by lia.
  remember (S fuel) as f1. cbn [pow_go]. subst f1.
  rewrite to_int32_odd, to_uint32_small by lia.
  rewrite Z.shiftr_div_pow2 by lia. change (2 ^ 1) with 2.
  destruct p as [p|p|].
  - change (1 <? Z.pos p~1) with true. change (Z.odd (Z.pos p~1)) with true.
    rewrite roundedMul_ok by done. cbn [res_bind]. rewrite roundedMul_ok by done.
    cbn [res_bind]. replace (Z.pos p~1 / 2) with (Z.pos p) by (apply Z.div_unique with 1; lia).
    destruct (IH p (rmul x x) (rmul x y)) as (x' & y' & H); try lia; try by apply rmul_nonneg.
    exists x', y'. exact H.
  - change (1 <? Z.pos p~0) with true. change (Z.odd (Z.pos p~0)) with false.
    cbn [res_bind]. rewrite roundedMul_ok by done.
    cbn [res_bind]. replace (Z.pos p~0 / 2) with (Z.pos p) by (apply Z.div_unique with 0; lia).
    destruct (IH p (rmul x x) y) as (x' & y' & H); try lia; try by apply rmul_nonneg.
    exists x', y'. exact H.
  - exists x, y. done.
Qed.

Lemma rmul_one x : 0 <= x -> rmul x (10 ^ 18) = x.
Proof.
  intros. unfold rmul. rewrite Z.add_comm, Z.div_add by lia.
  rewrite Z.div_small by lia. lia.
Qed.

(** [pow] on every exponent its assertions let through. *)
Lemma pow_ok d n :
  0 <= n < 2 ^ 32 ->
  pow d (JInt n) = Ok (match n with
                       | Zpos p => dec (sq_mul p (_bigNumber d) (10 ^ 18))
                       | _ => mk SCALE
                       end).
Proof.
  intros Hn. unfold pow, assert_.
  replace ((0 <=? n) && (n <=? 4294967295)) with true by lia. cbn [res_bind].
  destruct (Z.eqb_spec n 0) as [->|H0]; [by rewrite ONE_val|].
  assert (0 <= _bigNumber d) as Hd by (unfold _bigNumber; lia).
  destruct n as [|p|p]; [lia| |lia].
  destruct (Z.eqb_spec (Z.pos p) 1) as [E|H1].
  { inv E. simpl. rewrite rmul_one by done. by rewrite dec_units. }
  rewrite DIGITS_val. change (Z.of_N SCALE) with (10 ^ 18).
  destruct (pow_go_spec 31 p (_bigNumber d) (10 ^ 18)) as (x' & y' & -> & Hx' & Hy' & Hr);
    [done|lia|change (2 ^ Z.of_nat 32) with (2 ^ 32); lia|lia|].
  cbn [res_bind]. rewrite roundedMul_ok by done. cbn [res_bind].
  rewrite Hr, new_ok by (by apply sq_mul_nonneg). done.
Qed.
End Ops.
#[export] Hint Rewrite @add_ok @mul_ok @div_ok @divCeil_ok @mulDiv_ok @lt_ok @gt_ok @lte_ok
  @gte_ok @eq_ok @min_ok @max_ok @isZero_ok @zero_ok @nonZero_ok @infinite_ok @finite_ok @ZERO_val
  @ONE_val @INFINITY_val using typeclasses eauto : dec.

End DecimalFacts.

(** ** Signed differences *)
Module Difference.

Inductive Sign : Type := NoSign | Plus | Minus.

Record DifferenceRepresentation : Type := mkNumber {
  sign : Sign;
  magnitude : Decimal.t;
}.

(** [None] is the "N/A" difference. *)
Record t : Type := mk { _number : option DifferenceRepresentation }.

Definition sign_string (s : Sign) : string :=
  match s with NoSign => "" | Plus => "+" | Minus => "-" end.

Section Operations.
Context {BN : BigNumberOps}.

Definition between (d1 d2 : option Decimal.Decimalish) : Res t :=
  match d1, d2 with
  | Some d1, Some d2 =>
      let! d1 := Decimal.from d1 in
      let! d2 := Decimal.from d2 in
      let! inf1 := Decimal.infinite d1 in
      let! inf2 := Decimal.infinite d2 in
      match inf1, inf2 with
      | Some _, Some _ => Ok (mk None)
      | Some _, None => Ok (mk (Some (mkNumber Plus d1)))
      | None, Some _ => Ok (mk (Some (mkNumber Minus d2)))
      | None, None =>
          let! g12 := Decimal.gt d1 d2 in
          if (g12 : bool) then
            let! a := Decimal.sub d1 d2 in Ok (mk (Some (mkNumber Plus a)))
          else
            let! g21 := Decimal.gt d2 d1 in
            if (g21 : bool) then
              let! a := Decimal.sub d2 d1 in Ok (mk (Some (mkNumber Minus a)))
            else Ok (mk (Some (mkNumber NoSign Decimal.ZERO)))
      end
  | _, _ => Ok (mk None)
  end.

Definition toString (this : t) (precision : option Z) : Res string :=
  match _number this with
  | None => Ok "N/A"
  | Some n => let! s := Decimal.toString (magnitude n) precision in
              Ok (sign_string (sign n) +:+ s)
  end.

Definition prettify (this : t) (precision : option Z) : Res string :=
  match _number this with
  | None => toString this None
  | Some n => let! s := Decimal.prettify (magnitude n) precision in
              Ok (sign_string (sign n) +:+ s)
  end.

Definition zeroish (precision : nat) : string := "0." +:+ Js.repeat "0" precision +:+ "5".

Definition nonZeroish (this : t) (precision : nat) : Res (option t) :=
  match _number this with
  | None => Ok None
  | Some n => let! b := Decimal.gte (magnitude n) (Decimal.ofString (zeroish precision)) in
              Ok (if (b : bool) then Some this else None)
  end.

Definition mul (this : t) (multiplier : Decimal.Decimalish) : Res t :=
  match _number this with
  | None => Ok (mk None)
  | Some n => let! m := Decimal.mul (magnitude n) multiplier in
              Ok (mk (Some (mkNumber (sign n) m)))
  end.

Definition nonZero (this : t) : option t :=
  match _number this with
  | Some n => match Decimal.nonZero (magnitude n) with Some _ => Some this | None => None end
  | None => None
  end.

Definition positive (this : t) : option t :=
  match _number this with Some (mkNumber Plus _) => Some this | _ => None end.

Definition negative (this : t) : option t :=
  match _number this with Some (mkNumber Minus _) => Some this | _ => None end.

Definition absoluteValue (this : t) : option Decimal.t := magnitude <$> _number this.

Definition infinite (this : t) : Res (option t) :=
  match _number this with
  | None => Ok None
  | Some n => let! i := Decimal.infinite (magnitude n) in Ok ((fun _ => this) <$> i)
  end.

Definition finite (this : t) : Res (option t) :=
  match _number this with
  | None => Ok None
  | Some n => let! i := Decimal.finite (magnitude n) in Ok ((fun _ => this) <$> i)
  end.

End Operations.

(** The integer a difference denotes, in units. *)
Definition value (d : t) : option Z :=
  n ← _number d;
  Some match sign n with
       | Minus => - Decimal._bigNumber (magnitude n)
       | _ => Decimal._bigNumber (magnitude n)
       end.

End Difference.

(** ** Percentages of anything that can be infinite, multiplied and printed *)
Module Percent.

(** The structural type [Percent] asks of its argument. *)
Class Percentable {BN : BigNumberOps} (T A : Type) : Type := {
  infinite : T -> Res (option T);
  absoluteValue : T -> option A;
  mul : option (T -> Decimal.Decimalish -> Res T);
  toString_ : T -> option Z -> Res string;
  gte : A -> string -> Res bool;
}.

#[global] Instance Decimal_percentable {BN : BigNumberOps} : Percentable Decimal.t Decimal.t := {|
  infinite := Decimal.infinite;
  absoluteValue := fun d => Some (Decimal.absoluteValue d);
  mul := Some Decimal.mul;
  toString_ := Decimal.toString;
  gte := fun d s => Decimal.gte d (Decimal.ofString s);
|}.

#[global] Instance Difference_percentable {BN : BigNumberOps} :
    Percentable Difference.t Decimal.t := {|
  infinite := Difference.infinite;
  absoluteValue := Difference.absoluteValue;
  mul := Some Difference.mul;
  toString_ := Difference.toString;
  gte := fun d s => Decimal.gte d (Decimal.ofString s);
|}.

Record t (T : Type) : Type := mk { _percent : T }.
Arguments mk {T} _percent.
Arguments _percent {T} _.

Section Operations.
Context {BN : BigNumberOps} {T A : Type} {P : Percentable T A}.

Definition new (ratio : T) : Res (t T) :=
  let! inf := infinite ratio in
  match inf with
  | Some r => Ok (mk r)
  | None => match mul with
            | Some m => let! r := m ratio (Decimal.ofNumber "100") in Ok (mk r)
            | None => Ok (mk ratio)
            end
  end.

Definition nonZeroish (this : t T) (precision : nat) : Res (option (t T)) :=
  match absoluteValue (_percent this) with
  | None => Ok None
  | Some a => let! b := gte a (Difference.zeroish precision) in
              Ok (if (b : bool) then Some this else None)
  end.

Definition toString (this : t T) (precision : Z) : Res string :=
  let! s := toString_ (_percent this) (Some precision) in
  match absoluteValue (_percent this) with
  | None => Ok s
  | Some _ => let! inf := infinite (_percent this) in
              Ok match inf with None => s +:+ "%" | Some _ => s end
  end.

Definition prettify (this : t T) : Res string :=
  match absoluteValue (_percent this) with
  | None => toString this 2
  | Some a =>
      let! big := gte a "1000" in
      if (big : bool) then toString this 0
      else let! mid := gte a "10" in
           if (mid : bool) then toString this 1 else toString this 2
  end.

End Operations.
End Percent.

(** ** Properties of the number type *)
Module DecimalProperties.
Import Decimal DecimalFacts.
Section Properties.
Context {BN : BigNumberOps} {BNL : BigNumberLaws BN}.

(** C24: printing and parsing are inverse on every finite Decimal: the text [toString()] gives
    parses back to the same Decimal; the infinite one prints as the infinity sign, which the parser
    refuses. *)
Theorem toString_from_roundtrip (d : t) :
  exists s, toString d None = Ok s /\
    (d <> INFINITY -> from (ofString s) = Ok d) /\
    (d = INFINITY -> s = "∞" /\ from (ofString s) = Throw (bad_format s)).
Proof.
  rewrite toString_text, INFINITY_val. destruct (deqb d INF) eqn:E.
  - apply deqb_eq in E as ->. exists "∞". split; [done|]. split; [done|].
    intros _. split; [done|]. by apply fromString_bad.
  - exists (_toStringWithAutomaticPrecision d). split; [done|]. split.
    + intros _. apply fromString_toString.
    + intros ->. by rewrite deqb_refl in E.
Qed.

(** Which texts parse, and to what: the parser accepts exactly the texts of its format whose
    part before the exponent is not empty, the value being the digits before the dot, plus the
    first 18 digits after it, scaled (rounding down) by the power of ten. *)
Theorem fromString_accepts (s : string) :
  res_ok (_fromString s) = true <->
  exists a b e, s = a +:+ b +:+ e /\ a +:+ b <> "" /\ Js.all_digits a = true /\
    (b = "" \/ exists m, b = String "." m /\ Js.all_digits m = true) /\
    ((e = "" /\ _fromString s = Ok (dec (plain_value a b))) \/
     exists sg x, e = String "e" (sg +:+ x) /\ (sg = "" \/ sg = "-" \/ sg = "+") /\
       x <> "" /\ Js.all_digits x = true /\ _fromString s = Ok (dec (exp_value a b sg x))).
Proof.
  split.
  - destruct (stringRepresentationFormat s) eqn:Hf; [|by rewrite fromString_bad].
    destruct (format_parts s Hf) as (a & b & e & -> & Ha & Hb & He). intros Hok.
    exists a, b, e. destruct He as [->|(sg & x & -> & Hsg & Hx & Hdx)].
    + rewrite JsFacts.str_app_nil_r in *.
      assert (a +:+ b <> "") as Hne by (intros E; by rewrite E in Hok).
      do 4 (split; [done|]). left. split; [done|]. by apply fromString_plain.
    + rewrite fromString_exp in * by done.
      destruct (String.eqb_spec (a +:+ b) ""); [done|].
      do 4 (split; [done|]). right. by exists sg, x.
  - by intros (a & b & e & _ & _ & _ & _ & [(_ & ->)|(sg & x & _ & _ & _ & _ & ->)]).
Qed.

(** The arithmetic is exact integer arithmetic on units with one documented rounding each:
    [add] is exact and [sub] throws exactly below zero; [mul], [div] and [mulDiv] round down and
    [_divCeil] rounds up; dividing by zero gives infinity. *)
Theorem arithmetic_rounding (a b c : t) :
  (exists s, add a b = Ok s /\ units s = (units a + units b)%N /\ sub s b = Ok a) /\
  (res_ok (sub a b) = false <-> (units a < units b)%N) /\
  (exists p, mul a b = Ok p /\
     (units p * SCALE <= units a * units b < (units p + 1) * SCALE)%N) /\
  (exists q r m, div a c = Ok q /\ _divCeil a c = Ok r /\ mulDiv a b c = Ok m /\
     (units c = 0%N -> q = INFINITY /\ r = INFINITY /\ m = INFINITY) /\
     (units c <> 0%N ->
        (units q * units c <= units a * SCALE < (units q + 1) * units c)%N /\
        (units a * SCALE <= units r * units c < units a * SCALE + units c)%N /\
        (units m * units c <= units a * units b < (units m + 1) * units c)%N)).
Proof.
  assert (forall n d, d <> 0 -> n / d * d <= n < (n / d + 1) * d)%N as Hdiv.
  { intros n d Hd. pose proof (N.div_mod n d Hd). pose proof (N.mod_lt n d Hd).
    generalize dependent (n / d)%N. generalize dependent (n mod d)%N. nia. }
  split; [|split; [|split]].
  - exists (dadd a b). rewrite add_ok. split; [done|]. split; [done|].
    rewrite sub_ok by (simpl; lia). f_equal. apply t_eq. simpl. lia.
  - destruct (N.lt_ge_cases (units a) (units b)).
    + by rewrite sub_throws.
    + rewrite sub_ok by done. simpl. split; [done|lia].
  - exists (dmul a b). rewrite mul_ok. split; [done|]. by apply Hdiv.
  - exists (ddiv a c), (ddivCeil a c), (dmulDiv a b c).
    rewrite div_ok, divCeil_ok, mulDiv_ok, INFINITY_val. do 3 (split; [done|]).
    unfold ddiv, ddivCeil, dmulDiv. split; intros Hc.
    + by rewrite Hc.
    + rewrite (proj2 (N.eqb_neq _ _) Hc). cbn [units]. split; [by apply Hdiv|].
      split; [|by apply Hdiv].
      pose proof (Hdiv (units a * SCALE + (units c - 1))%N (units c) Hc) as Hr.
      generalize dependent ((units a * SCALE + (units c - 1)) / units c)%N.
      intros r. generalize (units a * SCALE)%N. nia.
Qed.

(** [Difference.between] denotes the integer difference of two finite Decimals, is "N/A" when
    either is missing or both are infinite, and swapping its arguments negates it. *)
Theorem between_value (d1 d2 : t) :
  exists x y, Difference.between (Some (ofDecimal d1)) (Some (ofDecimal d2)) = Ok x /\
    Difference.between (Some (ofDecimal d2)) (Some (ofDecimal d1)) = Ok y /\
    (d1 <> INFINITY -> d2 <> INFINITY ->
       Difference.value x = Some (_bigNumber d1 - _bigNumber d2)) /\
    (Difference._number x = None <-> d1 = INFINITY /\ d2 = INFINITY) /\
    Difference.value y = Z.opp <$> Difference.value x.
Proof.
  unfold Difference.between. rewrite !from_decimal, INFINITY_val. cbn [res_bind].
  rewrite !infinite_ok. cbn [res_bind].
  pose proof (deqb_eq d1 INF). pose proof (deqb_eq d2 INF).
  destruct (deqb d1 INF), (deqb d2 INF); cbn [res_bind].
  1-3: eexists _, _; split; [done|]; split; [done|]; unfold Difference.value; simpl;
    rewrite ?Z.opp_involutive; intuition congruence.
  rewrite !gt_ok, ZERO_val. unfold dltb. cbn [res_bind].
  destruct (N.lt_trichotomy (units d1) (units d2)) as [Hlt|[Heq|Hgt] ].
  - rewrite (proj2 (N.ltb_lt _ _) Hlt), (proj2 (N.ltb_ge (units d2) (units d1)) ltac:(lia)).
    rewrite sub_ok by lia. eexists _, _; split; [done|]; split; [done|].
    unfold Difference.value, _bigNumber; simpl. repeat split; intros; try f_equal; lia || intuition congruence.
  - rewrite Heq, N.ltb_irrefl. eexists _, _; split; [done|]; split; [done|].
    unfold Difference.value, _bigNumber; simpl. repeat split; intros; try f_equal; lia || intuition congruence.
  - rewrite (proj2 (N.ltb_lt _ _) Hgt), (proj2 (N.ltb_ge (units d1) (units d2)) ltac:(lia)).
    rewrite sub_ok by lia. eexists _, _; split; [done|]; split; [done|].
    unfold Difference.value, _bigNumber; simpl. repeat split; intros; try f_equal; lia || intuition congruence.
Qed.

End Properties.

(** ** Instances *)

Definition oneAndAHalf : t := mk (15 * 10 ^ 17).

Lemma toString_from_roundtrip_witness :
  exists s, @toString Z_bignumber oneAndAHalf None = Ok s /\
    @from Z_bignumber (ofString s) = Ok oneAndAHalf.
Proof.
  destruct (@toString_from_roundtrip Z_bignumber Z_bignumber_laws oneAndAHalf) as (s & H1 & H2 & _).
  exists s. split; [exact H1|]. apply H2. intros H. vm_compute in H. discriminate.
Defined.

Lemma fromString_accepts_witness :
  exists a b e, "1.5e3" = a +:+ b +:+ e /\ a +:+ b <> "".
Proof.
  destruct (proj1 (@fromString_accepts Z_bignumber Z_bignumber_laws "1.5e3"))
    as (a & b & e & H1 & H2 & _); [vm_compute; reflexivity|].
  exists a, b, e. exact (conj H1 H2).
Defined.

Lemma arithmetic_rounding_witness :
  exists s, @add Z_bignumber oneAndAHalf oneAndAHalf = Ok s /\ units s = (3 * SCALE)%N.
Proof.
  destruct (@arithmetic_rounding Z_bignumber Z_bignumber_laws oneAndAHalf oneAndAHalf (mk 0))
    as ((s & H1 & H2 & _) & _).
  exists s. split; [exact H1|]. rewrite H2. reflexivity.
Defined.

Lemma between_value_witness :
  exists x, @Difference.between Z_bignumber (Some (ofDecimal oneAndAHalf))
    (Some (ofDecimal (mk SCALE))) = Ok x /\ Difference.value x = Some (5 * 10 ^ 17).
Proof.
  destruct (@between_value Z_bignumber Z_bignumber_laws oneAndAHalf (mk SCALE))
    as (x & y & H1 & _ & H2 & _).
  exists x. split; [exact H1|].
  rewrite H2; [reflexivity | intros H; vm_compute in H; discriminate ..].
Defined.

End DecimalProperties.
