(* ===== verification/LiquityMath.v ===== *)
(** * The contracts' fixed-point library as the specification of the SDK's arithmetic

    [src/packages/contracts/contracts/Dependencies/LiquityMath.sol], in checked 256-bit arithmetic
    ([None] is a revert).  The SDK predicts what the contracts compute; the theorems here state
    that [Decimal.pow] and the collateral ratios agree with the contract functions. *)

From S2P Require Import Prelude BigNumber Decimals.

Local Open Scope Z_scope.

Module LiquityMath.

Definition UINT256_MAX : Z := 2 ^ 256 - 1.
Definition DECIMAL_PRECISION : Z := 10 ^ 18.
Definition NICR_PRECISION : Z := 10 ^ 20.

(** Solidity 0.8 arithmetic: an operation whose result does not fit reverts. *)
Definition checked (z : Z) : option Z :=
  if (0 <=? z) && (z <=? UINT256_MAX) then Some z else None.

Definition decMul (x y : Z) : option Z :=
  prod_xy ← checked (x * y);
  s ← checked (prod_xy + DECIMAL_PRECISION / 2);
  Some (s / DECIMAL_PRECISION).

(** The [while (n > 1)] loop: [fuel] 30 is enough for a capped exponent ([decPow_ok]). *)
Fixpoint decPow_loop (fuel : nat) (x y n : Z) : option (Z * Z) :=
  match fuel with
  | O => None
  | S fuel' =>
      if 1 <? n then
        if n mod 2 =? 0 then
          x' ← decMul x x;
          decPow_loop fuel' x' y (n / 2)
        else
          y' ← decMul x y;
          x' ← decMul x x;
          n' ← checked (n - 1);
          decPow_loop fuel' x' y' (n' / 2)
      else Some (x, y)
  end.

Definition _decPow (_base _minutes : Z) : option Z :=
  let _minutes := if 525600000 <? _minutes then 525600000 else _minutes in
  if _minutes =? 0 then Some DECIMAL_PRECISION
  else
    '(x, y) ← decPow_loop 30 _base DECIMAL_PRECISION _minutes;
    decMul x y.

Definition _computeNominalCR (_coll _debt : Z) : option Z :=
  if 0 <? _debt then
    p ← checked (_coll * NICR_PRECISION);
    Some (p / _debt)
  else Some UINT256_MAX.

Definition _computeCR (_coll _debt _price : Z) : option Z :=
  if 0 <? _debt then
    p ← checked (_coll * _price);
    Some (p / _debt)
  else Some UINT256_MAX.

End LiquityMath.

(** The fee computations of [src/packages/contracts/contracts/TroveManager.sol], as functions of
    the state they read ([baseRate], [lastFeeOperationTime]) and of the block's timestamp. *)
Module TroveManager.
Import LiquityMath.

Definition SECONDS_IN_ONE_MINUTE : Z := 60.
Definition MINUTE_DECAY_FACTOR : Z := 999037758833783000.
Definition BORROWING_FEE_FLOOR : Z := DECIMAL_PRECISION / 1000 * 5.
Definition REDEMPTION_FEE_FLOOR : Z := DECIMAL_PRECISION / 1000 * 5.
Definition MAX_BORROWING_FEE : Z := DECIMAL_PRECISION / 100 * 5.

Definition _minutesPassedSinceLastFeeOp (lastFeeOperationTime timestamp : Z) : option Z :=
  d ← checked (timestamp - lastFeeOperationTime);
  Some (d / SECONDS_IN_ONE_MINUTE).

Definition _calcDecayedBaseRate (baseRate lastFeeOperationTime timestamp : Z) : option Z :=
  minutesPassed ← _minutesPassedSinceLastFeeOp lastFeeOperationTime timestamp;
  decayFactor ← _decPow MINUTE_DECAY_FACTOR minutesPassed;
  p ← checked (baseRate * decayFactor);
  Some (p / DECIMAL_PRECISION).

Definition _calcBorrowingRate (_baseRate : Z) : option Z :=
  s ← checked (BORROWING_FEE_FLOOR + _baseRate);
  Some (Z.min s MAX_BORROWING_FEE).

Definition _calcRedemptionRate (_baseRate : Z) : option Z :=
  s ← checked (REDEMPTION_FEE_FLOOR + _baseRate);
  Some (Z.min s DECIMAL_PRECISION).

Definition getBorrowingRateWithDecay (baseRate lastFeeOperationTime timestamp : Z) : option Z :=
  r ← _calcDecayedBaseRate baseRate lastFeeOperationTime timestamp;
  _calcBorrowingRate r.

Definition getRedemptionRateWithDecay (baseRate lastFeeOperationTime timestamp : Z) : option Z :=
  r ← _calcDecayedBaseRate baseRate lastFeeOperationTime timestamp;
  _calcRedemptionRate r.

End TroveManager.

Module LiquityMathFacts.
Import LiquityMath DecimalFacts.

Lemma checked_ok z : 0 <= z <= UINT256_MAX -> checked z = Some z.
Proof.
  intros. unfold checked. destruct (Z.leb_spec 0 z), (Z.leb_spec z UINT256_MAX); done || lia.
Qed.

Lemma checked_inv z v : checked z = Some v -> v = z /\ 0 <= z <= UINT256_MAX.
Proof.
  unfold checked. destruct (Z.leb_spec 0 z), (Z.leb_spec z UINT256_MAX); simpl; intros E;
    inversion E; subst; lia.
Qed.

Lemma decMul_ok x y :
  0 <= x <= 10 ^ 18 -> 0 <= y <= 10 ^ 18 -> decMul x y = Some (rmul x y).
Proof.
  intros Hx Hy. assert (0 <= x * y <= 10 ^ 18 * 10 ^ 18) by nia.
  assert (10 ^ 18 * 10 ^ 18 + 10 ^ 18 <= UINT256_MAX) by (vm_compute; discriminate).
  unfold decMul, DECIMAL_PRECISION. rewrite checked_ok by lia. simpl.
  rewrite checked_ok by (change (10 ^ 18 / 2) with (5 * 10 ^ 17); lia).
  done.
Qed.

Lemma decMul_inv x y v : decMul x y = Some v -> v = rmul x y.
Proof.
  unfold decMul. intros E. destruct (checked (x * y)) eqn:E1; [|done]. simpl in E.
  apply checked_inv in E1 as [-> _].
  destruct (checked (x * y + DECIMAL_PRECISION / 2)) eqn:E2; [|done]. simpl in E.
  apply checked_inv in E2 as [-> _]. by inversion E.
Qed.

(** The loop squares along the binary digits of the exponent, like [sq_mul]. *)
Lemma decPow_loop_spec fuel p x y :
  0 <= x <= 10 ^ 18 -> 0 <= y <= 10 ^ 18 -> Z.pos p < 2 ^ Z.of_nat (S fuel) ->
  Z.pos p <= UINT256_MAX ->
  exists x' y', decPow_loop (S fuel) x y (Z.pos p) = Some (x', y') /\
    0 <= x' <= 10 ^ 18 /\ 0 <= y' <= 10 ^ 18 /\ rmul x' y' = sq_mul p x y.
Proof.
  revert p x y; induction fuel as [|fuel IH]; intros p x y Hx Hy Hf Hmax.
  { change (2 ^ Z.of_nat 1) with 2 in Hf. replace p with xH by lia. by exists x, y. }
  rewrite Nat2Z.inj_succ, Z.pow_succ_r in Hf by lia.
  remember (S fuel) as f1. cbn [decPow_loop]. subst f1.
  destruct p as [p|p|].
  - change (1 <? Z.pos p~1) with true.
    replace (Z.pos p~1 mod 2) with 1 by (apply Z.mod_unique with (Z.pos p); lia).
    change (1 =? 0) with false. rewrite !decMul_ok by done. cbn [mbind option_bind].
    rewrite checked_ok by lia. cbn [mbind option_bind].
    replace ((Z.pos p~1 - 1) / 2) with (Z.pos p) by (apply Z.div_unique with 0; lia).
    cbn [sq_mul]. apply IH; try apply rmul_le_one; lia.
  - change (1 <? Z.pos p~0) with true.
    replace (Z.pos p~0 mod 2) with 0 by (apply Z.mod_unique with (Z.pos p); lia).
    change (0 =? 0) with true. rewrite !decMul_ok by done. cbn [mbind option_bind].
    replace (Z.pos p~0 / 2) with (Z.pos p) by (apply Z.div_unique with 0; lia).
    cbn [sq_mul]. apply IH; try apply rmul_le_one; lia.
  - by exists x, y.
Qed.

(** Exponentiation by squaring with rounded products, on units. *)
Definition dpow (base minutes : Z) : Z :=
  match minutes with Zpos p => sq_mul p base (10 ^ 18) | _ => 10 ^ 18 end.

Lemma dpow_le_one base minutes :
  0 <= base <= 10 ^ 18 -> 0 <= dpow base minutes <= 10 ^ 18.
Proof. intros. destruct minutes; simpl; try lia. by apply sq_mul_le_one. Qed.

Lemma decPow_ok base minutes :
  0 <= base <= 10 ^ 18 -> 0 <= minutes <= 525600000 ->
  _decPow base minutes = Some (dpow base minutes).
Proof.
  intros Hb Hm. unfold _decPow. destruct (Z.ltb_spec 525600000 minutes); [lia|].
  destruct minutes as [|p|p]; [done| |lia].
  change (Z.pos p =? 0) with false.
  destruct (decPow_loop_spec 29 p base (10 ^ 18)) as (x' & y' & E & Hx & Hy & Hr);
    [done| by split |change (2 ^ Z.of_nat 30) with 1073741824; lia
    |unfold UINT256_MAX; lia|].
  unfold DECIMAL_PRECISION in *. rewrite E. simpl. by rewrite decMul_ok, Hr.
Qed.

Section Agreement.
Context {BN : BigNumberOps} {BNL : BigNumberLaws BN}.

Lemma pow_dpow base n :
  0 <= n < 2 ^ 32 -> Decimal.pow base (JInt n) = Ok (dec (dpow (Decimal._bigNumber base) n)).
Proof. intros. rewrite pow_ok by done. by destruct n. Qed.

(** Up to the contract's cap of 525600000 minutes and for a base of at most one, the contract's
    [_decPow] does not revert and [Decimal.pow] computes the same number. *)
Theorem pow_refines_decPow (base : Decimal.t) (minutes : Z) :
  Decimal._bigNumber base <= DECIMAL_PRECISION -> 0 <= minutes <= 525600000 ->
  exists r, Decimal.pow base (JInt minutes) = Ok r /\
    _decPow (Decimal._bigNumber base) minutes = Some (Decimal._bigNumber r) /\
    Decimal._bigNumber r <= DECIMAL_PRECISION.
Proof.
  intros Hb Hm. unfold DECIMAL_PRECISION in *.
  assert (0 <= Decimal._bigNumber base <= 10 ^ 18) as Hbase by (unfold Decimal._bigNumber in *; lia).
  pose proof (dpow_le_one _ minutes Hbase) as Hr.
  exists (dec (dpow (Decimal._bigNumber base) minutes)).
  assert (Decimal._bigNumber (dec (dpow (Decimal._bigNumber base) minutes)) =
          dpow (Decimal._bigNumber base) minutes) as -> by (apply units_dec; lia).
  rewrite pow_dpow, decPow_ok by lia. split; [done|]. split; [done|lia].
Qed.

(** The saturated ratio of the contract is the SDK's [INFINITY]. *)
Lemma mulDiv_agrees (a b c : Decimal.t) :
  Decimal._bigNumber (dmulDiv a b c) =
    if 0 <? Decimal._bigNumber c
    then Decimal._bigNumber a * Decimal._bigNumber b / Decimal._bigNumber c
    else UINT256_MAX.
Proof.
  unfold dmulDiv, Decimal._bigNumber.
  destruct (N.eqb_spec (Decimal.units c) 0) as [E|E].
  - by rewrite E.
  - replace (0 <? Z.of_N (Decimal.units c)) with true by lia.
    cbn [Decimal.units]. by rewrite N2Z.inj_div, N2Z.inj_mul.
Qed.

End Agreement.

Lemma pow_refines_decPow_witness :
  exists r, @Decimal.pow Z_bignumber (Decimal.mk (9 * 10 ^ 17)) (JInt 10) = Ok r /\
    _decPow (9 * 10 ^ 17) 10 = Some (Decimal._bigNumber r).
Proof.
  destruct (@pow_refines_decPow Z_bignumber Z_bignumber_laws (Decimal.mk (9 * 10 ^ 17)) 10)
    as (r & H1 & H2 & _); [vm_compute; discriminate | lia |].
  exists r. exact (conj H1 H2).
Defined.
End LiquityMathFacts.
