(* ===== verification/Constants.v ===== *)
(** * Protocol constants: [src/packages/lib-base/src/constants.ts]

    Static initialisers, with the lemmas that they load and their values in units. *)

From S2P Require Import Prelude BigNumber Decimals.

Local Open Scope Z_scope.

Section Constants.
Context {BN : BigNumberOps}.
Import Decimal.

Definition CRITICAL_COLLATERAL_RATIO : t := static_init (mk 0) (from (ofNumber "1.5")).
Definition MINIMUM_COLLATERAL_RATIO : t := static_init (mk 0) (from (ofNumber "1.1")).
Definition THUSD_LIQUIDATION_RESERVE : t := static_init (mk 0) (from (ofNumber "200")).
Definition THUSD_MINIMUM_NET_DEBT : t := static_init (mk 0) (from (ofNumber "1800")).
Definition THUSD_MINIMUM_DEBT : t :=
  static_init (mk 0) (add THUSD_LIQUIDATION_RESERVE THUSD_MINIMUM_NET_DEBT).
Definition MINIMUM_BORROWING_RATE : t := static_init (mk 0) (from (ofNumber "0.005")).
Definition MAXIMUM_BORROWING_RATE : t := static_init (mk 0) (from (ofNumber "0.05")).
Definition MINIMUM_REDEMPTION_RATE : t := static_init (mk 0) (from (ofNumber "0.005")).

End Constants.

Section Values.
Context {BN : BigNumberOps} {BNL : BigNumberLaws BN}.
Import Decimal DecimalFacts.

Ltac constant := unfold from; rewrite fromString_independent; by vm_compute.

Lemma CRITICAL_COLLATERAL_RATIO_val : CRITICAL_COLLATERAL_RATIO = mk (15 * 10 ^ 17).
Proof. unfold CRITICAL_COLLATERAL_RATIO. constant. Qed.
Lemma MINIMUM_COLLATERAL_RATIO_val : MINIMUM_COLLATERAL_RATIO = mk (11 * 10 ^ 17).
Proof. unfold MINIMUM_COLLATERAL_RATIO. constant. Qed.
Lemma THUSD_LIQUIDATION_RESERVE_val : THUSD_LIQUIDATION_RESERVE = mk (200 * SCALE).
Proof. unfold THUSD_LIQUIDATION_RESERVE. constant. Qed.
Lemma THUSD_MINIMUM_NET_DEBT_val : THUSD_MINIMUM_NET_DEBT = mk (1800 * SCALE).
Proof. unfold THUSD_MINIMUM_NET_DEBT. constant. Qed.
Lemma THUSD_MINIMUM_DEBT_val : THUSD_MINIMUM_DEBT = mk (2000 * SCALE).
Proof.
  unfold THUSD_MINIMUM_DEBT. rewrite THUSD_LIQUIDATION_RESERVE_val, THUSD_MINIMUM_NET_DEBT_val.
  rewrite add_ok. by vm_compute.
Qed.
Lemma MINIMUM_BORROWING_RATE_val : MINIMUM_BORROWING_RATE = mk (5 * 10 ^ 15).
Proof. unfold MINIMUM_BORROWING_RATE. constant. Qed.
Lemma MAXIMUM_BORROWING_RATE_val : MAXIMUM_BORROWING_RATE = mk (5 * 10 ^ 16).
Proof. unfold MAXIMUM_BORROWING_RATE. constant. Qed.
Lemma MINIMUM_REDEMPTION_RATE_val : MINIMUM_REDEMPTION_RATE = mk (5 * 10 ^ 15).
Proof. unfold MINIMUM_REDEMPTION_RATE. constant. Qed.

End Values.

#[export] Hint Rewrite @CRITICAL_COLLATERAL_RATIO_val @MINIMUM_COLLATERAL_RATIO_val
  @THUSD_LIQUIDATION_RESERVE_val @THUSD_MINIMUM_NET_DEBT_val @THUSD_MINIMUM_DEBT_val
  @MINIMUM_BORROWING_RATE_val @MAXIMUM_BORROWING_RATE_val @MINIMUM_REDEMPTION_RATE_val
  using typeclasses eauto : dec.
