(* ===== verification/Troves.v ===== *)
(** * Troves: [src/packages/lib-base/src/Trove.ts]

    A Trove is a pair of Decimals.  The file models the parameter objects of the three Trove
    transactions and their normalisation, the class [Trove] with [whatChanged] and [apply], and
    its subclasses for a user's Trove and for a Trove with a pending redistribution. *)

From S2P Require Import Prelude BigNumber Decimals Constants.

Local Open Scope Z_scope.

(** ** Parameter objects *)
Module TroveParams.

Record TroveCreationParams (T : Type) : Type := mkCreation {
  depositCollateral : T;
  borrowTHUSD : T;
}.
Arguments mkCreation {T} _ _.
Arguments depositCollateral {T} _.
Arguments borrowTHUSD {T} _.

Record TroveClosureParams (T : Type) : Type := mkClosure {
  closureWithdraw : T;
  closureRepay : option T;
}.
Arguments mkClosure {T} _ _.
Arguments closureWithdraw {T} _.
Arguments closureRepay {T} _.

(** The properties of an adjustment object; an absent property is [None].  The union type of the
    source rules out both of a pair; [normalize] rules it out at run time. *)
Record TroveAdjustmentParams (T : Type) : Type := mkAdjustment {
  deposit : option T;
  withdraw : option T;
  borrow : option T;
  repay : option T;
}.
Arguments mkAdjustment {T} _ _ _ _.
Arguments deposit {T} _.
Arguments withdraw {T} _.
Arguments borrow {T} _.
Arguments repay {T} _.

Definition noAdjustment {T} : TroveAdjustmentParams T := mkAdjustment None None None None.

(** [{ ...a, ...b }] *)
Definition spread {T} (a b : TroveAdjustmentParams T) : TroveAdjustmentParams T :=
  let pick (x y : option T) := match y with Some _ => y | None => x end in
  mkAdjustment (pick (deposit a) (deposit b)) (pick (withdraw a) (withdraw b))
               (pick (borrow a) (borrow b)) (pick (repay a) (repay b)).

(** An untyped parameter object, as [Object.entries] lists it. *)
Definition RawParams : Type := list (string * option Decimal.Decimalish).

Fixpoint valueIsDefined (params : RawParams) : list (string * Decimal.Decimalish) :=
  match params with
  | [] => []
  | (k, Some v) :: ps => (k, v) :: valueIsDefined ps
  | (_, None) :: ps => valueIsDefined ps
  end.

Definition listed (keys : list string) (k : string) : bool := existsb (String.eqb k) keys.

(** The two [checkAllowed...Keys] functions: [name] is the prefix of the message. *)
Definition checkAllowedKeys {V : Type} (name : string) (allowed : list string)
    (entries : list (string * V)) : Res unit :=
  let badKeys := map (fun e => "'" +:+ fst e +:+ "'")
                     (List.filter (fun e => negb (listed allowed (fst e))) entries) in
  match badKeys with
  | [] => Ok tt
  | _ => Throw (name +:+ ": property " +:+ Js.join ", " badKeys +:+ " not allowed")
  end.

(** [Object.fromEntries(entries)[k]]: the last entry of a key wins. *)
Definition entry {V : Type} (entries : list (string * V)) (k : string) : option V :=
  fold_left (fun acc e => if String.eqb (fst e) k then Some (snd e) else acc) entries None.

Definition allowedTroveCreationKeys : list string := ["depositCollateral"; "borrowTHUSD"].
Definition allowedTroveAdjustmentKeys : list string :=
  ["depositCollateral"; "withdrawCollateral"; "borrowTHUSD"; "repayTHUSD"].

Definition troveCreationParamsFromEntries {T} (entries : list (string * T)) :
    Res (TroveCreationParams T) :=
  let missingKeys := map (fun k => "'" +:+ k +:+ "'")
    (List.filter (fun k => match entry entries k with None => true | Some _ => false end)
                 allowedTroveCreationKeys) in
  match entry entries "depositCollateral", entry entries "borrowTHUSD" with
  | Some d, Some b => Ok (mkCreation d b)
  | _, _ => Throw ("TroveCreationParams: property " +:+ Js.join ", " missingKeys +:+ " missing")
  end.

Definition collateralChangeFrom {T} (params : TroveAdjustmentParams T) :
    Res (option (TroveAdjustmentParams T)) :=
  match deposit params, withdraw params with
  | Some _, Some _ => Throw ("TroveAdjustmentParams: 'depositCollateral' and " +:+
      "'withdrawCollateral' can't be present at the same time")
  | Some d, None => Ok (Some (mkAdjustment (Some d) None None None))
  | None, Some w => Ok (Some (mkAdjustment None (Some w) None None))
  | None, None => Ok None
  end.

Definition debtChangeFrom {T} (params : TroveAdjustmentParams T) :
    Res (option (TroveAdjustmentParams T)) :=
  match borrow params, repay params with
  | Some _, Some _ => Throw ("TroveAdjustmentParams: 'borrowTHUSD' and 'repayTHUSD' " +:+
      "can't be present at the same time")
  | Some b, None => Ok (Some (mkAdjustment None None (Some b) None))
  | None, Some r => Ok (Some (mkAdjustment None None None (Some r)))
  | None, None => Ok None
  end.

Definition troveAdjustmentParamsFromEntries {T} (entries : list (string * T)) :
    Res (TroveAdjustmentParams T) :=
  let params := mkAdjustment (entry entries "depositCollateral")
    (entry entries "withdrawCollateral") (entry entries "borrowTHUSD")
    (entry entries "repayTHUSD") in
  let! collateralChange := collateralChangeFrom params in
  let! debtChange := debtChangeFrom params in
  match collateralChange, debtChange with
  | Some c, Some d => Ok (spread c d)
  | Some c, None => Ok c
  | None, Some d => Ok d
  | None, None => Throw "TroveAdjustmentParams: must include at least one non-zero parameter"
  end.

Section Normalize.
Context {BN : BigNumberOps}.

Definition decimalize {K} (e : K * Decimal.Decimalish) : Res (K * Decimal.t) :=
  let! d := Decimal.from (snd e) in Ok (fst e, d).

Definition nonZero {K} (e : K * Decimal.t) : bool := negb (Decimal.isZero (snd e)).

Definition _normalizeTroveCreation (params : RawParams) : Res (TroveCreationParams Decimal.t) :=
  let definedEntries := valueIsDefined params in
  let! _ := checkAllowedKeys "TroveCreationParams" allowedTroveCreationKeys definedEntries in
  let! nonZeroEntries := res_mapM decimalize definedEntries in
  troveCreationParamsFromEntries nonZeroEntries.

Definition _normalizeTroveAdjustment (params : RawParams) :
    Res (TroveAdjustmentParams Decimal.t) :=
  let definedEntries := valueIsDefined params in
  let! _ := checkAllowedKeys "TroveAdjustmentParams" allowedTroveAdjustmentKeys definedEntries in
  let! decimals := res_mapM decimalize definedEntries in
  let nonZeroEntries := List.filter nonZero decimals in
  troveAdjustmentParamsFromEntries nonZeroEntries.

End Normalize.

(** A typed parameter object seen as an untyped one, in declaration order. *)
Definition rawCreation (p : TroveCreationParams Decimal.Decimalish) : RawParams :=
  [("depositCollateral", Some (depositCollateral p)); ("borrowTHUSD", Some (borrowTHUSD p))].

Definition rawAdjustment (p : TroveAdjustmentParams Decimal.Decimalish) : RawParams :=
  [("depositCollateral", deposit p); ("withdrawCollateral", withdraw p);
   ("borrowTHUSD", borrow p); ("repayTHUSD", repay p)].

Definition creationish (p : TroveCreationParams Decimal.t) :
    TroveCreationParams Decimal.Decimalish :=
  mkCreation (depositCollateral p : Decimal.Decimalish) (borrowTHUSD p : Decimal.Decimalish).

Definition adjustmentish (p : TroveAdjustmentParams Decimal.t) :
    TroveAdjustmentParams Decimal.Decimalish :=
  mkAdjustment (Decimal.ofDecimal <$> deposit p) (Decimal.ofDecimal <$> withdraw p)
               (Decimal.ofDecimal <$> borrow p) (Decimal.ofDecimal <$> repay p).

End TroveParams.

(** ** The class *)
Module Trove.
Import TroveParams.

Record t : Type := mk { collateral : Decimal.t; debt : Decimal.t }.

#[global] Instance t_eq_dec : EqDecision t.
Proof. solve_decision. Defined.

Inductive TroveCreationError : Type := missingLiquidationReserve.
Inductive SetToZero : Type := ZeroCollateral | ZeroDebt.

Inductive TroveChange (T : Type) : Type :=
| invalidCreation (invalidTrove : t) (error : TroveCreationError)
| creation (params : TroveCreationParams T)
| closure (params : TroveClosureParams T)
| adjustment (params : TroveAdjustmentParams T) (setToZero : option SetToZero).
Arguments invalidCreation {T} _ _.
Arguments creation {T} _.
Arguments closure {T} _.
Arguments adjustment {T} _ _.

Section Operations.
Context {BN : BigNumberOps}.

Definition applyFee (borrowingRate : Decimal.Decimalish) (debtIncrease : Decimal.t) :
    Res Decimal.t :=
  let! f := Decimal.add Decimal.ONE borrowingRate in Decimal.mul debtIncrease f.

Definition unapplyFee (borrowingRate : Decimal.Decimalish) (debtIncrease : Decimal.t) :
    Res Decimal.t :=
  let! f := Decimal.add Decimal.ONE borrowingRate in Decimal._divCeil debtIncrease f.

Definition NOMINAL_COLLATERAL_RATIO_PRECISION : Decimal.t :=
  static_init (Decimal.mk 0) (Decimal.from (Decimal.ofNumber "100")).

Definition empty : t := mk Decimal.ZERO Decimal.ZERO.

Definition isEmpty (this : t) : bool :=
  Decimal.isZero (collateral this) && Decimal.isZero (debt this).

Definition netDebt (this : t) : Res Decimal.t :=
  let! below := Decimal.lt (debt this) THUSD_LIQUIDATION_RESERVE in
  if (below : bool) then
    let! s := Decimal.toString THUSD_LIQUIDATION_RESERVE None in
    Throw ("netDebt should not be used when debt < " +:+ s)
  else Decimal.sub (debt this) THUSD_LIQUIDATION_RESERVE.

Definition _nominalCollateralRatio (this : t) : Res Decimal.t :=
  Decimal.mulDiv (collateral this) NOMINAL_COLLATERAL_RATIO_PRECISION (debt this).

Definition collateralRatio (this : t) (price : Decimal.Decimalish) : Res Decimal.t :=
  Decimal.mulDiv (collateral this) price (debt this).

Definition collateralRatioIsBelowMinimum (this : t) (price : Decimal.Decimalish) : Res bool :=
  let! r := collateralRatio this price in Decimal.lt r MINIMUM_COLLATERAL_RATIO.

Definition collateralRatioIsBelowCritical (this : t) (price : Decimal.Decimalish) : Res bool :=
  let! r := collateralRatio this price in Decimal.lt r CRITICAL_COLLATERAL_RATIO.

Definition isOpenableInRecoveryMode (this : t) (price : Decimal.Decimalish) : Res bool :=
  let! r := collateralRatio this price in Decimal.gte r CRITICAL_COLLATERAL_RATIO.

Definition toString (this : t) : Res string :=
  let! c := Decimal.toString (collateral this) None in
  let! d := Decimal.toString (debt this) None in
  Ok ("{ collateral: " +:+ c +:+ ", debt: " +:+ d +:+ " }").

Definition equals (this that : t) : Res bool :=
  let! c := Decimal.eq (collateral this) (collateral that) in
  if (c : bool) then Decimal.eq (debt this) (debt that) else Ok false.

Definition add (this that : t) : Res t :=
  let! c := Decimal.add (collateral this) (collateral that) in
  let! d := Decimal.add (debt this) (debt that) in
  Ok (mk c d).

Definition addCollateral (this : t) (collateral_ : Decimal.Decimalish) : Res t :=
  let! c := Decimal.add (collateral this) collateral_ in Ok (mk c (debt this)).

Definition addDebt (this : t) (debt_ : Decimal.Decimalish) : Res t :=
  let! d := Decimal.add (debt this) debt_ in Ok (mk (collateral this) d).

(** [a.gt(b) ? a.sub(b) : Decimal.ZERO] *)
Definition subOrZero (a : Decimal.t) (b : Decimal.Decimalish) : Res Decimal.t :=
  let! g := Decimal.gt a b in
  if (g : bool) then Decimal.sub a b else Ok Decimal.ZERO.

Definition subtract (this that : t) : Res t :=
  let! c := subOrZero (collateral this) (collateral that) in
  let! d := subOrZero (debt this) (debt that) in
  Ok (mk c d).

Definition subtractCollateral (this : t) (collateral_ : Decimal.Decimalish) : Res t :=
  let! c := subOrZero (collateral this) collateral_ in Ok (mk c (debt this)).

Definition subtractDebt (this : t) (debt_ : Decimal.Decimalish) : Res t :=
  let! d := subOrZero (debt this) debt_ in Ok (mk (collateral this) d).

Definition multiply (this : t) (multiplier : Decimal.Decimalish) : Res t :=
  let! c := Decimal.mul (collateral this) multiplier in
  let! d := Decimal.mul (debt this) multiplier in
  Ok (mk c d).

Definition setCollateral (this : t) (collateral_ : Decimal.Decimalish) : Res t :=
  let! c := Decimal.from collateral_ in Ok (mk c (debt this)).

Definition setDebt (this : t) (debt_ : Decimal.Decimalish) : Res t :=
  let! d := Decimal.from debt_ in Ok (mk (collateral this) d).

Definition _debtChange (this that : t) (borrowingRate : Decimal.Decimalish) :
    Res (TroveAdjustmentParams Decimal.t) :=
  let! more := Decimal.gt (debt that) (debt this) in
  if (more : bool) then
    let! inc := Decimal.sub (debt that) (debt this) in
    let! b := unapplyFee borrowingRate inc in
    Ok (mkAdjustment None None (Some b) None)
  else
    let! r := Decimal.sub (debt this) (debt that) in
    Ok (mkAdjustment None None None (Some r)).

Definition _collateralChange (this that : t) : Res (TroveAdjustmentParams Decimal.t) :=
  let! more := Decimal.gt (collateral that) (collateral this) in
  if (more : bool) then
    let! d := Decimal.sub (collateral that) (collateral this) in
    Ok (mkAdjustment (Some d) None None None)
  else
    let! w := Decimal.sub (collateral this) (collateral that) in
    Ok (mkAdjustment None (Some w) None None).

(** A missing borrowing rate defaults to the minimum one. *)
Definition rate (borrowingRate : option Decimal.Decimalish) : Decimal.Decimalish :=
  match borrowingRate with Some r => r | None => MINIMUM_BORROWING_RATE end.

Definition zeroDebt (that : t) : option SetToZero :=
  match Decimal.zero (debt that) with Some _ => Some ZeroDebt | None => None end.
Definition zeroCollateral (that : t) : option SetToZero :=
  match Decimal.zero (collateral that) with Some _ => Some ZeroCollateral | None => None end.

Definition whatChanged (this that : t) (borrowingRate : option Decimal.Decimalish) :
    Res (option (TroveChange Decimal.t)) :=
  let borrowingRate := rate borrowingRate in
  let! sameCollateral := Decimal.eq (collateral this) (collateral that) in
  let! sameDebt := Decimal.eq (debt this) (debt that) in
  if sameCollateral && sameDebt then Ok None
  else if isEmpty this then
    let! below := Decimal.lt (debt that) THUSD_LIQUIDATION_RESERVE in
    if (below : bool) then Ok (Some (invalidCreation that missingLiquidationReserve))
    else
      let! n := netDebt that in
      let! b := unapplyFee borrowingRate n in
      Ok (Some (creation (mkCreation (collateral that) b)))
  else if isEmpty that then
    let! n := netDebt this in
    Ok (Some (closure (mkClosure (collateral this)
                         (Decimal.nonZero n))))
  else if (sameCollateral : bool) then
    let! d := _debtChange this that borrowingRate in
    Ok (Some (adjustment d (zeroDebt that)))
  else if (sameDebt : bool) then
    let! c := _collateralChange this that in
    Ok (Some (adjustment c (zeroCollateral that)))
  else
    let! d := _debtChange this that borrowingRate in
    let! c := _collateralChange this that in
    Ok (Some (adjustment (spread d c)
                (match zeroDebt that with Some z => Some z | None => zeroCollateral that end))).

Definition valueOr (x : option Decimal.t) : Decimal.t :=
  match x with Some d => d | None => Decimal.ZERO end.

Definition apply (this : t) (change : option (TroveChange Decimal.t))
    (borrowingRate : option Decimal.Decimalish) : Res t :=
  let borrowingRate := rate borrowingRate in
  match change with
  | None => Ok this
  | Some (invalidCreation invalidTrove _) =>
      if negb (isEmpty this) then Throw "Can't create onto existing Trove"
      else Ok invalidTrove
  | Some (creation p) =>
      if negb (isEmpty this) then Throw "Can't create onto existing Trove"
      else
        let! f := applyFee borrowingRate (borrowTHUSD p) in
        let! d := Decimal.add THUSD_LIQUIDATION_RESERVE f in
        Ok (mk (depositCollateral p) d)
  | Some (closure _) =>
      if isEmpty this then Throw "Can't close empty Trove" else Ok empty
  | Some (adjustment p setToZero) =>
      let collateralDecrease := valueOr (withdraw p) in
      let collateralIncrease := valueOr (deposit p) in
      let debtDecrease := valueOr (repay p) in
      let! debtIncrease := match borrow p with
                           | Some b => applyFee borrowingRate b
                           | None => Ok Decimal.ZERO
                           end in
      match setToZero with
      | Some ZeroCollateral =>
          let! t1 := setCollateral this Decimal.ZERO in
          let! t2 := addDebt t1 debtIncrease in
          subtractDebt t2 debtDecrease
      | Some ZeroDebt =>
          let! t1 := setDebt this Decimal.ZERO in
          let! t2 := addCollateral t1 collateralIncrease in
          subtractCollateral t2 collateralDecrease
      | None =>
          let! t1 := add this (mk collateralIncrease debtIncrease) in
          subtract t1 (mk collateralDecrease debtDecrease)
      end
  end.

Definition create (params : TroveCreationParams Decimal.Decimalish)
    (borrowingRate : option Decimal.Decimalish) : Res t :=
  let! p := _normalizeTroveCreation (rawCreation params) in
  apply empty (Some (creation p)) borrowingRate.

Definition recreate (that : t) (borrowingRate : option Decimal.Decimalish) :
    Res (TroveCreationParams Decimal.t) :=
  let! change := whatChanged empty that borrowingRate in
  match change with
  | Some (creation params) => Ok params
  | _ => Throw "AssertionError"
  end.

Definition adjust (this : t) (params : TroveAdjustmentParams Decimal.Decimalish)
    (borrowingRate : option Decimal.Decimalish) : Res t :=
  let! p := _normalizeTroveAdjustment (rawAdjustment params) in
  apply this (Some (adjustment p None)) borrowingRate.

Definition adjustTo (this that : t) (borrowingRate : option Decimal.Decimalish) :
    Res (TroveAdjustmentParams Decimal.t) :=
  let! change := whatChanged this that borrowingRate in
  match change with
  | Some (adjustment params _) => Ok params
  | _ => Throw "AssertionError"
  end.

End Operations.
End Trove.

(** ** Troves of a user *)
Module UserTrove.

Inductive UserTroveStatus : Type :=
| nonExistent | open | closedByOwner | closedByLiquidation | closedByRedemption.

#[global] Instance UserTroveStatus_eq_dec : EqDecision UserTroveStatus.
Proof. solve_decision. Defined.

Definition status_string (s : UserTroveStatus) : string :=
  match s with
  | nonExistent => "nonExistent" | open => "open" | closedByOwner => "closedByOwner"
  | closedByLiquidation => "closedByLiquidation" | closedByRedemption => "closedByRedemption"
  end.

(** [UserTrove extends Trove]. *)
Record t : Type := mk {
  super : Trove.t;
  ownerAddress : string;
  status : UserTroveStatus;
}.

#[global] Instance t_eq_dec : EqDecision t.
Proof. solve_decision. Defined.

Section Operations.
Context {BN : BigNumberOps}.

Definition equals (this that : t) : Res bool :=
  let! s := Trove.equals (super this) (super that) in
  Ok ((s : bool) && String.eqb (ownerAddress this) (ownerAddress that) &&
      bool_decide (status this = status that)).

Definition toString (this : t) : Res string :=
  let! c := Decimal.toString (Trove.collateral (super this)) None in
  let! d := Decimal.toString (Trove.debt (super this)) None in
  Ok ("{ ownerAddress: " +:+ Js.quoted (ownerAddress this) +:+ ", collateral: " +:+ c +:+
      ", debt: " +:+ d +:+ ", status: " +:+ Js.quoted (status_string (status this)) +:+ " }").

End Operations.
End UserTrove.

Module TroveWithPendingRedistribution.

Record t : Type := mk {
  super : UserTrove.t;
  stake : Decimal.t;
  snapshotOfTotalRedistributed : Trove.t;
}.

#[global] Instance t_eq_dec : EqDecision t.
Proof. solve_decision. Defined.

Section Operations.
Context {BN : BigNumberOps}.

(** The constructor's defaults: an absent collateral, debt, stake or snapshot is zero. *)
Definition new (ownerAddress : string) (status : UserTrove.UserTroveStatus)
    (collateral debt stake : option Decimal.t) (snapshot : option Trove.t) : t :=
  mk (UserTrove.mk (Trove.mk (Trove.valueOr collateral) (Trove.valueOr debt)) ownerAddress status)
     (Trove.valueOr stake)
     (match snapshot with Some s => s | None => Trove.empty end).

Definition trove (this : t) : Trove.t := UserTrove.super (super this).

Definition applyRedistribution (this : t) (totalRedistributed : Trove.t) : Res UserTrove.t :=
  let! since := Trove.subtract totalRedistributed (snapshotOfTotalRedistributed this) in
  let! share := Trove.multiply since (stake this) in
  let! afterRedistribution := Trove.add (trove this) share in
  Ok (UserTrove.mk afterRedistribution (UserTrove.ownerAddress (super this))
                   (UserTrove.status (super this))).

Definition equals (this that : t) : Res bool :=
  let! s := UserTrove.equals (super this) (super that) in
  if (s : bool) then
    let! e := Decimal.eq (stake this) (stake that) in
    if (e : bool) then
      Trove.equals (snapshotOfTotalRedistributed this) (snapshotOfTotalRedistributed that)
    else Ok false
  else Ok false.

End Operations.
End TroveWithPendingRedistribution.

(** ** The operations in closed form *)
Module TroveFacts.
Import Decimal DecimalFacts Trove TroveParams.

Definition tsubtract (a b : t) : t :=
  Trove.mk (dsub (collateral a) (collateral b)) (dsub (debt a) (debt b)).
Definition tadd (a b : t) : t :=
  Trove.mk (dadd (collateral a) (collateral b)) (dadd (debt a) (debt b)).
Definition tmultiply (a : t) (m : Decimal.t) : t :=
  Trove.mk (dmul (collateral a) m) (dmul (debt a) m).
Definition tempty : t := Trove.mk (Decimal.mk 0) (Decimal.mk 0).

(** One plus a rate. *)
Definition onePlus (r : Decimal.t) : N := SCALE + units r.
Definition dapplyFee (r b : Decimal.t) : Decimal.t := Decimal.mk (units b * onePlus r / SCALE).
Definition dunapplyFee (r d : Decimal.t) : Decimal.t :=
  Decimal.mk ((units d * SCALE + (onePlus r - 1)) / onePlus r).

Lemma trove_eq (a b : t) :
  units (collateral a) = units (collateral b) -> units (debt a) = units (debt b) -> a = b.
Proof. destruct a, b; simpl. intros ?%t_eq ?%t_eq. congruence. Qed.

(** Adding a fee to an amount and taking it off again gives the amount back. *)
Lemma unapply_apply r b : dunapplyFee r (dapplyFee r b) = b.
Proof.
  apply t_eq. unfold dunapplyFee, dapplyFee, onePlus. cbn [units].
  set (D := SCALE). set (F := (D + units r)%N).
  assert (0 < D <= F)%N as HD by (unfold F, D, SCALE; lia).
  pose proof (N.div_mod (units b * F) D ltac:(lia)) as H1.
  pose proof (N.mod_lt (units b * F) D ltac:(lia)) as H2.
  generalize dependent (units b * F / D)%N. generalize dependent ((units b * F) mod D)%N.
  intros m Hm q Hq. symmetry. apply N.div_unique with (q * D + (F - 1) - F * units b)%N; nia.
Qed.

(** Taking a fee off and adding it again is exact up to one unit, upwards, for rates below one. *)
Lemma apply_unapply r d :
  (units r < SCALE)%N ->
  (units d <= units (dapplyFee r (dunapplyFee r d)) <= units d + 1)%N.
Proof.
  intros Hr. unfold dunapplyFee, dapplyFee, onePlus. cbn [units].
  set (D := SCALE) in *. set (F := (D + units r)%N).
  assert (0 < D <= F /\ F < 2 * D)%N as [HD HF] by (unfold F, D, SCALE in *; lia).
  pose proof (N.div_mod (units d * D + (F - 1)) F ltac:(lia)) as H1.
  pose proof (N.mod_lt (units d * D + (F - 1)) F ltac:(lia)) as H2.
  generalize dependent ((units d * D + (F - 1)) / F)%N.
  generalize dependent ((units d * D + (F - 1)) mod F)%N.
  intros m Hm q Hq.
  pose proof (N.div_mod (q * F) D ltac:(lia)) as H3.
  pose proof (N.mod_lt (q * F) D ltac:(lia)) as H4.
  generalize dependent (q * F / D)%N. generalize dependent ((q * F) mod D)%N.
  intros m' Hm' q' Hq'. nia.
Qed.

Section Closed.
Context {BN : BigNumberOps} {BNL : BigNumberLaws BN}.

Lemma NOMINAL_val : NOMINAL_COLLATERAL_RATIO_PRECISION = Decimal.mk (100 * SCALE).
Proof. unfold NOMINAL_COLLATERAL_RATIO_PRECISION. unfold from. rewrite fromString_independent. by vm_compute. Qed.

Lemma applyFee_ok x r b : from x = Ok r -> applyFee x b = Ok (dapplyFee r b).
Proof.
  intros H. unfold applyFee. rewrite (add_from _ _ _ H), ONE_val. cbn [res_bind].
  by rewrite mul_ok.
Qed.

Lemma unapplyFee_ok x r d : from x = Ok r -> unapplyFee x d = Ok (dunapplyFee r d).
Proof.
  intros H. unfold unapplyFee. rewrite (add_from _ _ _ H), ONE_val. cbn [res_bind].
  rewrite divCeil_ok. unfold ddivCeil, dunapplyFee, onePlus. cbn [units dadd].
  destruct (N.eqb_spec (SCALE + units r) 0) as [E|E]; [unfold SCALE in E; lia|done].
Qed.

Lemma empty_val : empty = tempty.
Proof. unfold empty. by rewrite ZERO_val. Qed.

Lemma isEmpty_ok a : isEmpty a = ((units (collateral a) =? 0)%N && (units (debt a) =? 0)%N).
Proof. unfold isEmpty. by rewrite !isZero_ok. Qed.

Lemma subOrZero_ok (a b : Decimal.t) : subOrZero a b = Ok (dsub a b).
Proof.
  unfold subOrZero. rewrite gt_ok, ZERO_val. cbn [res_bind]. unfold dltb.
  destruct (N.ltb_spec (units b) (units a)).
  - apply sub_ok. lia.
  - f_equal. apply t_eq. simpl. lia.
Qed.

Lemma subtract_ok a b : subtract a b = Ok (tsubtract a b).
Proof. unfold subtract. by rewrite !subOrZero_ok. Qed.

Lemma tadd_ok a b : add a b = Ok (tadd a b).
Proof. unfold add. by rewrite !add_ok. Qed.

Lemma multiply_ok a (m : Decimal.t) : multiply a m = Ok (tmultiply a m).
Proof. unfold multiply. by rewrite !mul_ok. Qed.

Lemma equals_ok a b :
  equals a b = Ok (deqb (collateral a) (collateral b) && deqb (debt a) (debt b)).
Proof. unfold equals. rewrite !eq_ok. cbn [res_bind]. by destruct (deqb _ _). Qed.

Lemma equals_true a b : equals a b = Ok true <-> a = b.
Proof.
  rewrite equals_ok. split.
  - intros [=H]. apply andb_true_iff in H as [H1%deqb_eq H2%deqb_eq]. destruct a, b; simpl in *.
    congruence.
  - intros ->. by rewrite !deqb_refl.
Qed.

Lemma equals_decide a b : equals a b = Ok (bool_decide (a = b)).
Proof.
  destruct (bool_decide_reflect (a = b)) as [E|E]; [by apply equals_true|].
  rewrite equals_ok. f_equal. apply not_true_is_false. intros H. apply E, equals_true.
  by rewrite equals_ok, H.
Qed.

Lemma user_equals_decide (a b : UserTrove.t) :
  UserTrove.equals a b = Ok (bool_decide (a = b)).
Proof.
  unfold UserTrove.equals. rewrite equals_decide. cbn [res_bind]. f_equal.
  destruct a as [ta oa sa], b as [tb ob sb]. cbn [UserTrove.super UserTrove.ownerAddress
    UserTrove.status].
  destruct (String.eqb_spec oa ob) as [->|E]; repeat case_bool_decide; simplify_eq; done.
Qed.

Lemma pending_equals_decide (a b : TroveWithPendingRedistribution.t) :
  TroveWithPendingRedistribution.equals a b = Ok (bool_decide (a = b)).
Proof.
  unfold TroveWithPendingRedistribution.equals. rewrite user_equals_decide, eq_ok, equals_decide.
  destruct a as [ua ka na], b as [ub kb nb]. cbn [res_bind TroveWithPendingRedistribution.super
    TroveWithPendingRedistribution.stake
    TroveWithPendingRedistribution.snapshotOfTotalRedistributed].
  destruct (deqb ka kb) eqn:E; [apply deqb_eq in E as ->|];
    [|assert (ka <> kb) by (intros ->; by rewrite deqb_refl in E)];
    repeat case_bool_decide; simplify_eq; done.
Qed.

Lemma reserve_string : Decimal.toString THUSD_LIQUIDATION_RESERVE None = Ok "200".
Proof.
  rewrite THUSD_LIQUIDATION_RESERVE_val. unfold Decimal.toString. rewrite infinite_ok.
  replace (deqb (Decimal.mk (200 * SCALE)) INF) with false by reflexivity. cbn [res_bind].
  unfold _toStringWithAutomaticPrecision, _bigNumber. cbn [units].
  destruct (div_mod_units (200 * SCALE)) as [-> ->].
  change ((200 * SCALE) mod SCALE)%N with 0%N. change (200 * SCALE / SCALE)%N with 200%N.
  rewrite bn_isZeroE, bn_toString_nonneg by lia. reflexivity.
Qed.

Lemma netDebt_ok a :
  netDebt a = if (units (debt a) <? 200 * SCALE)%N
              then Throw "netDebt should not be used when debt < 200"
              else Ok (dsub (debt a) (Decimal.mk (200 * SCALE))).
Proof.
  unfold netDebt. rewrite reserve_string, THUSD_LIQUIDATION_RESERVE_val, lt_ok. cbn [res_bind].
  unfold dltb. cbn [units]. destruct (N.ltb_spec (units (debt a)) (200 * SCALE)); [done|].
  by apply sub_ok.
Qed.

Lemma collateralRatio_ok a (price : Decimal.t) :
  collateralRatio a price = Ok (dmulDiv (collateral a) price (debt a)).
Proof. unfold collateralRatio. by rewrite mulDiv_ok. Qed.

Lemma zeroDebt_ok a : zeroDebt a = if (units (debt a) =? 0)%N then Some ZeroDebt else None.
Proof. unfold zeroDebt. rewrite zero_ok. by destruct (units (debt a) =? 0)%N. Qed.
Lemma zeroCollateral_ok a :
  zeroCollateral a = if (units (collateral a) =? 0)%N then Some ZeroCollateral else None.
Proof. unfold zeroCollateral. rewrite zero_ok. by destruct (units (collateral a) =? 0)%N. Qed.

Lemma debtChange_ok a b x r :
  from x = Ok r ->
  _debtChange a b x = Ok (if dltb (debt a) (debt b)
    then mkAdjustment None None (Some (dunapplyFee r (dsub (debt b) (debt a)))) None
    else mkAdjustment None None None (Some (dsub (debt a) (debt b)))).
Proof.
  intros H. unfold _debtChange. rewrite gt_ok. cbn [res_bind]. unfold dltb.
  destruct (N.ltb_spec (units (debt a)) (units (debt b))); rewrite sub_ok by lia; cbn [res_bind].
  - by rewrite (unapplyFee_ok _ _ _ H).
  - done.
Qed.

Lemma collateralChange_ok a b :
  _collateralChange a b = Ok (if dltb (collateral a) (collateral b)
    then mkAdjustment (Some (dsub (collateral b) (collateral a))) None None None
    else mkAdjustment None (Some (dsub (collateral a) (collateral b))) None None).
Proof.
  unfold _collateralChange. rewrite gt_ok. cbn [res_bind]. unfold dltb.
  destruct (N.ltb_spec (units (collateral a)) (units (collateral b))); by rewrite sub_ok by lia.
Qed.

End Closed.
#[export] Hint Rewrite @empty_val @isEmpty_ok @subOrZero_ok @subtract_ok @tadd_ok @multiply_ok
  @equals_ok @netDebt_ok @collateralRatio_ok @zeroDebt_ok @zeroCollateral_ok @collateralChange_ok
  using typeclasses eauto : dec.
End TroveFacts.
