(* ===== verification/TroveProperties.v ===== *)
(** * Properties of Troves

    [whatChanged] and [apply], [recreate] and [create], [adjustTo] and [adjust] undo one another;
    the collateral ratios are the contracts'; the parameter normalisation accepts exactly the
    well-formed parameter objects. *)

From S2P Require Import Prelude BigNumber Decimals LiquityMath Constants Troves.

Local Open Scope Z_scope.

Module TroveProperties.
Import Decimal DecimalFacts Trove TroveParams TroveFacts.

(** ** Adjustments in closed form *)

Definition orZero (x : option Decimal.t) : Decimal.t :=
  match x with Some d => d | None => Decimal.mk 0 end.

Definition increase (r : Decimal.t) (p : TroveAdjustmentParams Decimal.t) : Trove.t :=
  Trove.mk (orZero (deposit p))
           (match borrow p with Some b => dapplyFee r b | None => Decimal.mk 0 end).
Definition decrease (p : TroveAdjustmentParams Decimal.t) : Trove.t :=
  Trove.mk (orZero (withdraw p)) (orZero (repay p)).

Definition tadjust (r : Decimal.t) (a : Trove.t) (p : TroveAdjustmentParams Decimal.t)
    (z : option SetToZero) : Trove.t :=
  let t := tsubtract (tadd a (increase r p)) (decrease p) in
  match z with
  | None => t
  | Some ZeroCollateral => Trove.mk (Decimal.mk 0) (debt t)
  | Some ZeroDebt => Trove.mk (collateral t) (Decimal.mk 0)
  end.

(** Parameters in normal form: at least one change, none of them zero, at most one of each pair. *)
Definition positive (x : option Decimal.t) : bool :=
  match x with Some d => negb (units d =? 0)%N | None => true end.
Definition exclusive {A} (x y : option A) : bool :=
  match x, y with Some _, Some _ => false | _, _ => true end.
Definition present {A} (x : option A) : bool := match x with Some _ => true | None => false end.

Definition normal (p : TroveAdjustmentParams Decimal.t) : bool :=
  positive (deposit p) && positive (withdraw p) && positive (borrow p) && positive (repay p) &&
  exclusive (deposit p) (withdraw p) && exclusive (borrow p) (repay p) &&
  (present (deposit p) || present (withdraw p) || present (borrow p) || present (repay p)).

(** What normalisation does to the values. *)
Definition dropZero (x : option Decimal.t) : option Decimal.t :=
  match x with Some d => if (units d =? 0)%N then None else Some d | None => None end.
Definition dropZeros (p : TroveAdjustmentParams Decimal.t) : TroveAdjustmentParams Decimal.t :=
  mkAdjustment (dropZero (deposit p)) (dropZero (withdraw p)) (dropZero (borrow p))
               (dropZero (repay p)).

Section Facts.
Context {BN : BigNumberOps} {BNL : BigNumberLaws BN}.

Lemma valueOr_ok x : valueOr x = orZero x.
Proof. destruct x; simpl; [done|]. apply ZERO_val. Qed.

Lemma apply_adjustment_ok a p z x r :
  from x = Ok r -> apply a (Some (adjustment p z)) (Some x) = Ok (tadjust r a p z).
Proof.
  intros Hx. unfold apply, rate. rewrite !valueOr_ok.
  assert (match borrow p with Some b => applyFee x b | None => Ok ZERO end =
          Ok (debt (increase r p))) as ->.
  { unfold increase. destruct (borrow p); simpl; [by apply applyFee_ok | by rewrite ZERO_val]. }
  cbn [res_bind].
  destruct z as [ [|]|]; unfold setCollateral, setDebt, addDebt, addCollateral,
    subtractDebt, subtractCollateral; rewrite ?from_decimal; cbn [res_bind collateral debt];
    rewrite ?add_ok, ?tadd_ok, ?ZERO_val; cbn [res_bind];
    rewrite ?subOrZero_ok, ?subtract_ok; done.
Qed.

Lemma apply_creation_ok p x r :
  from x = Ok r ->
  apply empty (Some (creation p)) (Some x) =
    Ok (Trove.mk (depositCollateral p)
          (dadd (Decimal.mk (200 * SCALE)) (dapplyFee r (borrowTHUSD p)))).
Proof.
  intros Hx. unfold apply, rate. rewrite isEmpty_ok, empty_val. cbn [negb].
  change (units (collateral tempty) =? 0)%N with true.
  change (units (debt tempty) =? 0)%N with true. cbn [andb negb].
  rewrite (applyFee_ok _ _ _ Hx). cbn [res_bind].
  by rewrite THUSD_LIQUIDATION_RESERVE_val, add_ok.
Qed.

(** [whatChanged] in closed form. *)
Definition tdebtChange (r : Decimal.t) (a b : Trove.t) : TroveAdjustmentParams Decimal.t :=
  if dltb (debt a) (debt b)
  then mkAdjustment None None (Some (dunapplyFee r (dsub (debt b) (debt a)))) None
  else mkAdjustment None None None (Some (dsub (debt a) (debt b))).
Definition tcollateralChange (a b : Trove.t) : TroveAdjustmentParams Decimal.t :=
  if dltb (collateral a) (collateral b)
  then mkAdjustment (Some (dsub (collateral b) (collateral a))) None None None
  else mkAdjustment None (Some (dsub (collateral a) (collateral b))) None None.

Definition twhatChanged (r : Decimal.t) (a b : Trove.t) : option (TroveChange Decimal.t) :=
  let sameC := deqb (collateral a) (collateral b) in
  let sameD := deqb (debt a) (debt b) in
  if sameC && sameD then None
  else Some
   (if isEmpty a then
      if (units (debt b) <? 200 * SCALE)%N then invalidCreation b missingLiquidationReserve
      else creation (mkCreation (collateral b)
             (dunapplyFee r (dsub (debt b) (Decimal.mk (200 * SCALE)))))
    else if isEmpty b then
      closure (mkClosure (collateral a)
        (Decimal.nonZero (dsub (debt a) (Decimal.mk (200 * SCALE)))))
    else if sameC then adjustment (tdebtChange r a b) (zeroDebt b)
    else if sameD then adjustment (tcollateralChange a b) (zeroCollateral b)
    else adjustment (spread (tdebtChange r a b) (tcollateralChange a b))
           (match zeroDebt b with Some z => Some z | None => zeroCollateral b end)).

(** The only case that throws: closing a Trove whose debt is below the reserve. *)
Definition badClosure (a b : Trove.t) : bool :=
  negb (deqb (collateral a) (collateral b) && deqb (debt a) (debt b)) && negb (isEmpty a) &&
  isEmpty b && (units (debt a) <? 200 * SCALE)%N.

Lemma whatChanged_ok a b x r :
  from x = Ok r ->
  whatChanged a b (Some x) =
    if badClosure a b then Throw "netDebt should not be used when debt < 200"
    else Ok (twhatChanged r a b).
Proof.
  intros Hx. unfold whatChanged, badClosure, twhatChanged, rate. rewrite !eq_ok. cbn [res_bind].
  destruct (deqb (collateral a) (collateral b)) eqn:Ec, (deqb (debt a) (debt b)) eqn:Ed;
    cbn [andb negb]; try done.
  all: destruct (isEmpty a); cbn [andb negb];
    [rewrite lt_ok, THUSD_LIQUIDATION_RESERVE_val, netDebt_ok; cbn [res_bind]; unfold dltb;
     cbn [units]; destruct (N.ltb_spec (units (debt b)) (200 * SCALE)); cbn [res_bind]; [done|];
     by rewrite (unapplyFee_ok _ _ _ Hx)
    | destruct (isEmpty b); cbn [andb negb];
      [rewrite netDebt_ok; by destruct (N.ltb_spec (units (debt a)) (200 * SCALE))|] ].
  all: rewrite ?(debtChange_ok _ _ _ _ Hx), ?collateralChange_ok; cbn [res_bind]; done.
Qed.

Lemma isEmpty_inv a : isEmpty a = true -> a = tempty.
Proof.
  rewrite isEmpty_ok. intros H. bool_to_prop. apply trove_eq; done.
Qed.

Lemma twhatChanged_none r a b : twhatChanged r a b = None <-> a = b.
Proof.
  unfold twhatChanged. split.
  - destruct (deqb _ _) eqn:E1, (deqb (debt a) (debt b)) eqn:E2; simpl; intros H; try done.
    apply deqb_eq in E1, E2. apply trove_eq; congruence.
  - intros ->. by rewrite !deqb_refl.
Qed.

(** What the change of the debt, the collateral or both does when applied. *)
Lemma tadjust_debt r a b p z :
  borrow p = borrow (tdebtChange r a b) -> orZero (repay p) = orZero (repay (tdebtChange r a b)) ->
  (z = zeroDebt b \/ z <> Some ZeroDebt) -> (units r < SCALE)%N ->
  (units (debt b) <= units (debt (tadjust r a p z)) <= units (debt b) + 1)%N /\
  ((units (debt b) <= units (debt a))%N -> debt (tadjust r a p z) = debt b).
Proof.
  intros Hb Hp Hz Hr.
  assert (units (debt b) <= units (debt (tadjust r a p None)) <= units (debt b) + 1 /\
    (units (debt b) <= units (debt a) -> units (debt (tadjust r a p None)) = units (debt b)))%N
    as Hn.
  { unfold tadjust, increase, decrease, tsubtract, tadd. cbn [debt dsub dadd units].
    rewrite Hb, Hp. unfold tdebtChange, dltb.
    destruct (N.ltb_spec (units (debt a)) (units (debt b))); cbn [borrow repay units orZero].
    - pose proof (apply_unapply r (dsub (debt b) (debt a)) Hr) as Hf. cbn [dsub units] in Hf. lia.
    - cbn [dsub units]. lia. }
  destruct z as [ [|]|].
  - split; [apply Hn | intros; apply t_eq; by apply Hn].
  - destruct Hz as [Hz|]; [|done]. rewrite zeroDebt_ok in Hz.
    destruct (N.eqb_spec (units (debt b)) 0); [|done]. cbn [tadjust debt units].
    split; [lia | intros; by apply t_eq].
  - split; [apply Hn | intros; apply t_eq; by apply Hn].
Qed.

Lemma tadjust_collateral r a b p z :
  orZero (deposit p) = orZero (deposit (tcollateralChange a b)) ->
  orZero (withdraw p) = orZero (withdraw (tcollateralChange a b)) ->
  (z = zeroCollateral b \/ z <> Some ZeroCollateral) ->
  collateral (tadjust r a p z) = collateral b.
Proof.
  intros Hd Hw Hz.
  assert (units (collateral (tadjust r a p None)) = units (collateral b)) as Hn.
  { unfold tadjust, increase, decrease, tsubtract, tadd. cbn [collateral dsub dadd units].
    rewrite Hd, Hw. unfold tcollateralChange, dltb.
    destruct (N.ltb_spec (units (collateral a)) (units (collateral b)));
      cbn [deposit withdraw units dsub orZero]; lia. }
  destruct z as [ [|]|]; apply t_eq; try apply Hn.
  destruct Hz as [Hz|]; [|done]. rewrite zeroCollateral_ok in Hz.
  destruct (N.eqb_spec (units (collateral b)) 0); done.
Qed.

Lemma twhatChanged_adjustment r a b :
  deqb (collateral a) (collateral b) && deqb (debt a) (debt b) = false ->
  isEmpty a = false -> isEmpty b = false -> (units r < SCALE)%N ->
  exists p z, twhatChanged r a b = Some (adjustment p z) /\
    collateral (tadjust r a p z) = collateral b /\
    (units (debt b) <= units (debt (tadjust r a p z)) <= units (debt b) + 1)%N /\
    ((units (debt b) <= units (debt a))%N -> debt (tadjust r a p z) = debt b).
Proof.
  intros Hs Ha Hb Hr. unfold twhatChanged. rewrite Hs, Ha, Hb.
  assert (forall z, zeroDebt b = Some z -> z = ZeroDebt) as Hzd.
  { intros z. rewrite zeroDebt_ok. by destruct (_ =? _)%N; intros [=]. }
  assert (forall z, zeroCollateral b = Some z -> z = ZeroCollateral) as Hzc.
  { intros z. rewrite zeroCollateral_ok. by destruct (_ =? _)%N; intros [=]. }
  destruct (deqb (collateral a) (collateral b)) eqn:Ec; cbn [andb] in Hs;
    [|destruct (deqb (debt a) (debt b)) eqn:Ed]; eexists _, _; (split; [done|]).
  - apply deqb_eq in Ec. split.
    + apply tadjust_collateral.
      * unfold tdebtChange, tcollateralChange, dltb. rewrite Ec, N.ltb_irrefl.
        by destruct (_ <? _)%N.
      * unfold tdebtChange, tcollateralChange, dltb. rewrite Ec, N.ltb_irrefl.
        destruct (_ <? _)%N; apply t_eq; simpl; lia.
      * right. destruct (zeroDebt b) as [z|]; [rewrite (Hzd z) by done|]; done.
    + apply tadjust_debt; auto.
  - apply deqb_eq in Ed. split; [apply tadjust_collateral; auto|]. apply tadjust_debt; [| | |done].
    + unfold tdebtChange, tcollateralChange, dltb. rewrite Ed, N.ltb_irrefl.
      by destruct (_ <? _)%N.
    + unfold tdebtChange, tcollateralChange, dltb. rewrite Ed, N.ltb_irrefl.
      destruct (_ <? _)%N; apply t_eq; simpl; lia.
    + right. destruct (zeroCollateral b) as [z|]; [rewrite (Hzc z) by done|]; done.
  - assert (forall z, (match zeroDebt b with Some z => Some z | None => zeroCollateral b end) = z ->
      (z = zeroDebt b \/ z <> Some ZeroDebt) /\ (z = zeroCollateral b \/ z <> Some ZeroCollateral))
      as Hz.
    { intros z <-. destruct (zeroDebt b) as [z'|]; [rewrite (Hzd z') by done; auto|].
      destruct (zeroCollateral b) as [z'|]; [rewrite (Hzc z') by done|]; auto. }
    destruct (Hz _ eq_refl) as [Hz1 Hz2]. split.
    + apply tadjust_collateral; [| |done];
        unfold spread, tdebtChange, tcollateralChange; by repeat destruct (dltb _ _).
    + apply tadjust_debt; [| |done|done];
        unfold spread, tdebtChange, tcollateralChange; by repeat destruct (dltb _ _).
Qed.

(** What would be a closure of a Trove whose debt does not cover the liquidation reserve. *)
Definition belowReserve (a b : Trove.t) : Prop :=
  isEmpty a = false /\ isEmpty b = true /\ (units (debt a) < 200 * SCALE)%N.

Lemma whatChanged_applies (a b : Trove.t) (x : Decimalish) (r : Decimal.t) :
  from x = Ok r -> (units r < SCALE)%N ->
  match whatChanged a b (Some x) with
  | Throw _ => isEmpty a = false /\ isEmpty b = true /\ (units (debt a) < 200 * SCALE)%N
  | Ok c =>
      (c = None <-> a = b) /\
      exists t, apply a c (Some x) = Ok t /\ collateral t = collateral b /\
        (units (debt b) <= units (debt t) <= units (debt b) + 1)%N /\
        ((units (debt b) <= units (debt a))%N -> t = b)
  end.
Proof.
  intros Hx Hr. rewrite (whatChanged_ok _ _ _ _ Hx).
  destruct (badClosure a b) eqn:Ebad.
  { unfold badClosure in Ebad. bool_to_prop. done. }
  split; [apply twhatChanged_none|].
  destruct (deqb (collateral a) (collateral b) && deqb (debt a) (debt b)) eqn:Esame.
  { unfold twhatChanged. rewrite Esame. apply andb_true_iff in Esame as [?%deqb_eq ?%deqb_eq].
    exists a. split; [done|]. split; [done|]. replace (debt b) with (debt a) by congruence.
    split; [lia|]. intros _. apply trove_eq; congruence. }
  destruct (isEmpty a) eqn:Ea.
  { pose proof (isEmpty_inv _ Ea) as ->. unfold twhatChanged. rewrite Esame, Ea.
    destruct (N.ltb_spec (units (debt b)) (200 * SCALE)).
    - exists b. unfold apply. rewrite Ea. repeat split; done || lia.
    - rewrite <- empty_val, (apply_creation_ok _ _ _ Hx). eexists; split; [done|].
      cbn [collateral debt depositCollateral borrowTHUSD dadd units]. split; [done|].
      pose proof (apply_unapply r (dsub (debt b) (Decimal.mk (200 * SCALE))) Hr) as Hfee.
      cbn [dsub units] in Hfee. split; [lia|].
      rewrite empty_val. cbn [tempty debt units]. unfold SCALE in *. intros. exfalso. lia. }
  destruct (isEmpty b) eqn:Eb.
  { pose proof (isEmpty_inv _ Eb) as ->. unfold twhatChanged. rewrite Esame, Ea, Eb.
    exists tempty. unfold apply. rewrite Ea, empty_val. repeat split; done || lia. }
  destruct (twhatChanged_adjustment r a b Esame Ea Eb Hr) as (p & z & -> & Hc & Hd & Hd').
  rewrite (apply_adjustment_ok _ _ _ _ _ Hx). eexists; split; [done|].
  split; [done|]. split; [by apply Hd|]. intros. apply trove_eq; [by rewrite Hc|]. by rewrite Hd'.
Qed.

Lemma whatChanged_throws (a b : Trove.t) (x : Decimalish) (r : Decimal.t) :
  from x = Ok r ->
  match whatChanged a b (Some x) with
  | Throw _ => belowReserve a b
  | Ok _ => ~ belowReserve a b
  end.
Proof.
  intros Hx. rewrite (whatChanged_ok _ _ _ _ Hx). unfold belowReserve, badClosure.
  destruct (isEmpty a) eqn:Ea; [rewrite andb_false_r; by intros (? & _)|].
  destruct (isEmpty b) eqn:Eb; [|rewrite andb_false_r; by intros (_ & ? & _)].
  destruct (N.ltb_spec (units (debt a)) (200 * SCALE)) as [Hlt|Hge];
    [|rewrite andb_false_r; intros (_ & _ & ?); lia].
  destruct (deqb _ _ && deqb _ _) eqn:E; [|by repeat split].
  apply andb_true_iff in E as [?%deqb_eq ?%deqb_eq].
  assert (a = b) by (apply trove_eq; congruence). congruence.
Qed.

(** C1: [apply] undoes [whatChanged] at the same borrowing rate (below 100%): the Trove it gives
    has the collateral aimed at and its debt, or one unit more when debt is borrowed; the change is
    absent exactly when nothing changed, and the call throws exactly when it would have to close a
    Trove whose debt is below the liquidation reserve. *)
Theorem whatChanged_apply (a b : Trove.t) (x : Decimalish) (r : Decimal.t) :
  from x = Ok r -> (units r < SCALE)%N ->
  ((exists e, whatChanged a b (Some x) = Throw e) <->
    isEmpty a = false /\ isEmpty b = true /\ (units (debt a) < 200 * SCALE)%N) /\
  match whatChanged a b (Some x) with
  | Throw _ => True
  | Ok c =>
      (c = None <-> a = b) /\
      exists t, apply a c (Some x) = Ok t /\ collateral t = collateral b /\
        (units (debt b) <= units (debt t) <= units (debt b) + 1)%N /\
        ((units (debt b) <= units (debt a))%N -> t = b)
  end.
Proof.
  intros Hx Hr. pose proof (whatChanged_applies a b x r Hx Hr) as Ha.
  pose proof (whatChanged_throws a b x r Hx) as Ht.
  destruct (whatChanged a b (Some x)) as [c|e].
  - split; [|done]. split; [by intros [e He]|]. intros Hb. by destruct Ht.
  - split; [|done]. split; [done|]. intros _. by exists e.
Qed.

Lemma normalizeCreation_ok (p : TroveCreationParams Decimal.t) :
  _normalizeTroveCreation (rawCreation (creationish p)) = Ok p.
Proof. by destruct p. Qed.

Lemma filter_nonZero_cons {K} (k : K) (d : Decimal.t) l :
  List.filter nonZero ((k, d) :: l) =
    if (units d =? 0)%N then List.filter nonZero l else (k, d) :: List.filter nonZero l.
Proof. cbn [List.filter]. unfold nonZero at 1. cbn [snd]. rewrite isZero_ok. by destruct (_ =? _)%N. Qed.

Lemma normalizeAdjustment_ok (q : TroveAdjustmentParams Decimal.t) :
  _normalizeTroveAdjustment (rawAdjustment (adjustmentish q)) =
    troveAdjustmentParamsFromEntries
      (List.filter nonZero
        ((match deposit q with Some d => [("depositCollateral", d)] | None => [] end) ++
         (match withdraw q with Some d => [("withdrawCollateral", d)] | None => [] end) ++
         (match borrow q with Some d => [("borrowTHUSD", d)] | None => [] end) ++
         (match repay q with Some d => [("repayTHUSD", d)] | None => [] end))).
Proof. destruct q as [ [d|] [w|] [b|] [r|] ]; reflexivity. Qed.

Lemma normalizeAdjustment_normal (p : TroveAdjustmentParams Decimal.t) :
  normal p = true -> _normalizeTroveAdjustment (rawAdjustment (adjustmentish p)) = Ok p.
Proof.
  intros H. rewrite normalizeAdjustment_ok. unfold normal in H.
  destruct p as [ [d|] [w|] [b|] [r|] ]; cbn [deposit withdraw borrow repay positive exclusive] in *;
    rewrite ?andb_false_r, ?andb_true_r in H; bool_to_prop; try done; cbn [app];
    rewrite ?filter_nonZero_cons; repeat (rewrite (proj2 (N.eqb_neq _ _)) by done); done.
Qed.

Lemma entry_positive (l : list (string * Decimal.t)) k :
  positive (entry (List.filter nonZero l) k) = true.
Proof.
  unfold entry. assert (positive (None : option Decimal.t) = true) as H by done. revert H.
  generalize (None : option Decimal.t). induction l as [|[k' d] l IH]; intros o Ho; [done|].
  rewrite filter_nonZero_cons. destruct (N.eqb_spec (units d) 0) as [E|E]; [by apply IH|].
  cbn [fold_left fst snd]. apply IH. destruct (String.eqb k' k); [|done].
  cbn [positive]. by rewrite (proj2 (N.eqb_neq _ _) E).
Qed.

(** Whatever object is normalised, the outcome is in normal form. *)
Lemma normalize_normal params p : _normalizeTroveAdjustment params = Ok p -> normal p = true.
Proof.
  unfold _normalizeTroveAdjustment. intros H. res_inv H. apply res_bind_inv in H as (l & _ & H).
  unfold troveAdjustmentParamsFromEntries in H.
  pose proof (entry_positive l "depositCollateral") as H1.
  pose proof (entry_positive l "withdrawCollateral") as H2.
  pose proof (entry_positive l "borrowTHUSD") as H3.
  pose proof (entry_positive l "repayTHUSD") as H4.
  destruct (entry _ "depositCollateral") as [a|], (entry _ "withdrawCollateral") as [b|],
    (entry _ "borrowTHUSD") as [c|], (entry _ "repayTHUSD") as [d|]; try discriminate H;
    injection H as <-; unfold normal; cbn -[N.eqb] in *; by rewrite ?H1, ?H2, ?H3, ?H4.
Qed.

(** Normalising an adjustment drops the zero entries and accepts exactly the parameters that
    are then in normal form (some change, none of the pairs given twice); no parameter object with
    a defined property outside the four allowed ones is accepted. *)
Theorem normalizeTroveAdjustment_accepts :
  (forall q : TroveAdjustmentParams Decimal.t,
     match _normalizeTroveAdjustment (rawAdjustment (adjustmentish q)) with
     | Ok p => p = dropZeros q /\ normal p = true
     | Throw _ => normal (dropZeros q) = false
     end) /\
  (forall (params : RawParams) k v,
     In (k, Some v) params -> listed allowedTroveAdjustmentKeys k = false ->
     res_ok (_normalizeTroveAdjustment params) = false).
Proof.
  split.
  - intros q. rewrite normalizeAdjustment_ok. unfold dropZeros.
    destruct q as [ [d|] [w|] [b|] [r|] ]; cbn [deposit withdraw borrow repay dropZero app];
      rewrite ?filter_nonZero_cons; cbn [List.filter];
      repeat match goal with |- context [(units ?d =? 0)%N] => destruct (units d =? 0)%N eqn:? end;
      unfold normal, spread; cbn -[N.eqb];
      repeat match goal with H : _ = _ |- _ => rewrite H end; done.
  - intros params k v Hin Hk. unfold _normalizeTroveAdjustment, checkAllowedKeys.
    assert (In (k, v) (List.filter (fun e => negb (listed allowedTroveAdjustmentKeys (fst e)))
              (valueIsDefined params))) as Hbad.
    { apply filter_In. split; [|cbn [fst]; by rewrite Hk]. clear Hk.
      induction params as [|(k', [v'|]) ps IH]; simpl in *; [done| |].
      - destruct Hin as [[= -> ->]|]; auto.
      - destruct Hin as [|]; [done|auto]. }
    by destruct (List.filter _ _).
Qed.

(** [recreate] gives back the parameters a Trove was created with, exactly, for any borrowing
    rate, and the Trove created owes the liquidation reserve, the amount and the fee on it. *)
Theorem recreate_create (p : TroveCreationParams Decimal.t) (x : Decimalish) (r : Decimal.t) :
  from x = Ok r ->
  exists t, create (creationish p) (Some x) = Ok t /\ recreate t (Some x) = Ok p /\
    collateral t = depositCollateral p /\
    (units (debt t) = 200 * SCALE + units (borrowTHUSD p) * (SCALE + units r) / SCALE)%N.
Proof.
  intros Hx. unfold create. rewrite normalizeCreation_ok. cbn [res_bind].
  rewrite (apply_creation_ok _ _ _ Hx). eexists; split; [done|].
  unfold recreate. rewrite (whatChanged_ok _ _ _ _ Hx), empty_val.
  destruct p as [c b]. cbn [depositCollateral borrowTHUSD]. set (f := dapplyFee r b).
  assert (dsub (dadd (Decimal.mk (200 * SCALE)) f) (Decimal.mk (200 * SCALE)) = f) as Hf
    by (apply t_eq; cbn [dsub dadd units]; lia).
  unfold badClosure, twhatChanged. rewrite !isEmpty_ok. cbn [collateral debt tempty].
  rewrite Hf. cbn [dadd units]. rewrite N.eqb_refl.
  unfold deqb at 2 4. cbn [units dadd]. rewrite (proj2 (N.eqb_neq 0 (200 * SCALE + units f)))
    by (unfold SCALE; lia).
  rewrite !andb_false_r. cbn [andb negb].
  rewrite (proj2 (N.ltb_ge (200 * SCALE + units f) (200 * SCALE))) by lia.
  cbn [res_bind]. subst f. by rewrite (unapply_apply r b).
Qed.

(** An adjustment in normal form that takes no more than there is shows in the Trove. *)
Lemma tadjust_collateral_seen r a p :
  normal p = true -> (units (orZero (withdraw p)) <= units (collateral a))%N ->
  let t := tadjust r a p None in
  deqb (collateral a) (collateral t) = negb (present (deposit p) || present (withdraw p)) /\
  (present (deposit p) || present (withdraw p) = true ->
   tcollateralChange a t = mkAdjustment (deposit p) (withdraw p) None None).
Proof.
  intros Hn Hw. unfold normal in Hn. bool_to_prop.
  unfold tadjust, increase, decrease, tsubtract, tadd, tcollateralChange, dltb, deqb.
  cbn [collateral dsub dadd units].
  destruct (deposit p) as [d|], (withdraw p) as [w|];
    cbn [orZero units present orb negb positive exclusive] in *; bool_to_prop; try done.
  - rewrite (proj2 (N.eqb_neq _ _)) by lia. split; [done|]. intros _.
    rewrite (proj2 (N.ltb_lt _ _)) by lia. do 2 f_equal. apply t_eq. cbn [dsub dadd units]. lia.
  - rewrite (proj2 (N.eqb_neq _ _)) by lia. split; [done|]. intros _.
    rewrite (proj2 (N.ltb_ge _ _)) by lia. do 2 f_equal. apply t_eq. cbn [dsub dadd units]. lia.
  - rewrite (proj2 (N.eqb_eq _ _)) by lia. done.
Qed.

Lemma dapplyFee_ge r b : (units b <= units (dapplyFee r b))%N.
Proof.
  unfold dapplyFee, onePlus. cbn [units]. apply N.div_le_lower_bound; [done|].
  unfold SCALE. lia.
Qed.

Lemma tadjust_debt_seen r a p :
  normal p = true -> (units (orZero (repay p)) <= units (debt a))%N ->
  let t := tadjust r a p None in
  deqb (debt a) (debt t) = negb (present (borrow p) || present (repay p)) /\
  (present (borrow p) || present (repay p) = true ->
   tdebtChange r a t = mkAdjustment None None (borrow p) (repay p)).
Proof.
  intros Hn Hw. unfold normal in Hn. bool_to_prop.
  unfold tadjust, increase, decrease, tsubtract, tadd, tdebtChange, dltb, deqb.
  cbn [debt dsub dadd units].
  destruct (borrow p) as [b|], (repay p) as [w|];
    cbn [orZero units present orb negb positive exclusive] in *; bool_to_prop; try done.
  - pose proof (dapplyFee_ge r b). rewrite (proj2 (N.eqb_neq _ _)) by lia. split; [done|].
    intros _. rewrite (proj2 (N.ltb_lt _ _)) by lia. do 2 f_equal.
    rewrite <- (unapply_apply r b) at 2. f_equal. apply t_eq. cbn [dsub dadd units]. lia.
  - rewrite (proj2 (N.eqb_neq _ _)) by lia. split; [done|]. intros _.
    rewrite (proj2 (N.ltb_ge _ _)) by lia. do 2 f_equal. apply t_eq. cbn [dsub dadd units]. lia.
  - rewrite (proj2 (N.eqb_eq _ _)) by lia. done.
Qed.

(** C14: [adjust] adds and subtracts what its parameters say, the borrowing fee included, and
    [adjustTo] recovers those parameters from the two Troves, for parameters in normal form that
    take out no more than the Trove holds and leave it open. *)
Theorem adjustTo_adjust (a : Trove.t) (p : TroveAdjustmentParams Decimal.t) (x : Decimalish) r :
  from x = Ok r -> normal p = true -> isEmpty a = false ->
  (units (orZero (withdraw p)) <= units (collateral a))%N ->
  (units (orZero (repay p)) <= units (debt a))%N ->
  exists t, adjust a (adjustmentish p) (Some x) = Ok t /\
    (units (collateral t) + units (orZero (withdraw p)) =
       units (collateral a) + units (orZero (deposit p)))%N /\
    (units (debt t) + units (orZero (repay p)) =
       units (debt a) + units (orZero (borrow p)) * (SCALE + units r) / SCALE)%N /\
    (isEmpty t = false -> adjustTo a t (Some x) = Ok p).
Proof.
  intros Hx Hn Ha Hw Hr. unfold adjust. rewrite normalizeAdjustment_normal by done.
  cbn [res_bind]. rewrite (apply_adjustment_ok _ _ _ _ _ Hx). eexists; split; [done|].
  destruct (tadjust_collateral_seen r a p Hn Hw) as [Hc Hc'].
  destruct (tadjust_debt_seen r a p Hn Hr) as [Hd Hd'].
  split; [|split; [|intros Ht] ].
  - unfold tadjust, increase, decrease. simpl. lia.
  - unfold tadjust, increase, decrease, tsubtract, tadd. cbn [debt dsub dadd units].
    destruct (borrow p) as [b|]; unfold dapplyFee, onePlus; cbn [orZero units];
      [generalize dependent (units b * (SCALE + units r) / SCALE)%N; intros; lia|].
    rewrite N.mul_0_l, N.Div0.div_0_l. lia.
  - unfold adjustTo. rewrite (whatChanged_ok _ _ _ _ Hx). unfold badClosure, twhatChanged.
    rewrite Ha, Ht, Hc, Hd. cbn [negb andb]. rewrite andb_false_r. cbn [andb]. unfold normal in Hn.
    destruct p as [ [d|] [w|] [b|] [y|] ];
      cbn [deposit withdraw borrow repay present exclusive orb andb negb] in *;
      rewrite ?andb_false_r in Hn; try done; cbn [res_bind];
      rewrite ?Hc', ?Hd' by done; done.
Qed.

Lemma ratio_below a (price : Decimal.t) (limit : N) :
  (limit < units INF)%N ->
  dltb (dmulDiv (collateral a) price (debt a)) (Decimal.mk limit) = true <->
  units (debt a) <> 0%N /\ (units (collateral a) * units price < limit * units (debt a))%N.
Proof.
  intros Hl. unfold dmulDiv, dltb. destruct (N.eqb_spec (units (debt a)) 0) as [E|E].
  - rewrite N.ltb_lt. cbn [units] in *. split; [lia|by intros []].
  - cbn [units]. rewrite N.ltb_lt. split.
    + intros H. split; [done|]. rewrite N.mul_comm.
      pose proof (N.div_mod (units (collateral a) * units price) (units (debt a)) E) as Hdm.
      pose proof (N.mod_lt (units (collateral a) * units price) (units (debt a)) E).
      generalize dependent ((units (collateral a) * units price) / units (debt a))%N.
      intros q Hq Hdm. nia.
    + intros [_ H]. apply N.Div0.div_lt_upper_bound; lia.
Qed.

(** The two collateral ratios are the contracts' wherever those do not revert, and a Trove is
    below the minimum (critical) ratio exactly when it has debt and its collateral is worth less
    than 110% (150%) of it, in exact arithmetic. *)
Theorem collateralRatio_refines (a : Trove.t) (price : Decimal.t) :
  let coll := _bigNumber (collateral a) in
  let debt := _bigNumber (debt a) in
  (exists q, collateralRatio a price = Ok q /\
     (coll * _bigNumber price <= LiquityMath.UINT256_MAX ->
      LiquityMath._computeCR coll debt (_bigNumber price) = Some (_bigNumber q))) /\
  (exists q, _nominalCollateralRatio a = Ok q /\
     (coll * LiquityMath.NICR_PRECISION <= LiquityMath.UINT256_MAX ->
      LiquityMath._computeNominalCR coll debt = Some (_bigNumber q))) /\
  (exists b, collateralRatioIsBelowMinimum a price = Ok b /\
     (b = true <-> 0 < debt /\ 10 * (coll * _bigNumber price) < 11 * (debt * 10 ^ 18))) /\
  (exists b, collateralRatioIsBelowCritical a price = Ok b /\
     isOpenableInRecoveryMode a price = Ok (negb b) /\
     (b = true <-> 0 < debt /\ 10 * (coll * _bigNumber price) < 15 * (debt * 10 ^ 18))).
Proof.
  intros coll debt_.
  assert (0 <= coll /\ 0 <= debt_ /\ 0 <= _bigNumber price) as (Hc & Hd & Hp)
    by (unfold coll, debt_, _bigNumber; lia).
  unfold collateralRatioIsBelowMinimum, collateralRatioIsBelowCritical, isOpenableInRecoveryMode,
    _nominalCollateralRatio.
  rewrite collateralRatio_ok, mulDiv_ok, MINIMUM_COLLATERAL_RATIO_val,
    CRITICAL_COLLATERAL_RATIO_val, NOMINAL_val. cbn [res_bind]. rewrite !lt_ok, gte_ok.
  split; [|split; [|split] ].
  - eexists; split; [done|]. intros H. unfold LiquityMath._computeCR.
    rewrite LiquityMathFacts.mulDiv_agrees. fold coll debt_. destruct (0 <? debt_); [|done].
    rewrite LiquityMathFacts.checked_ok by nia. done.
  - eexists; split; [done|]. intros H. unfold LiquityMath._computeNominalCR.
    rewrite LiquityMathFacts.mulDiv_agrees. fold coll debt_. destruct (0 <? debt_); [|done].
    rewrite LiquityMathFacts.checked_ok by (unfold LiquityMath.NICR_PRECISION in *; lia). done.
  - eexists; split; [done|]. rewrite ratio_below by done. unfold coll, debt_, _bigNumber.
    split; intros [H1 H2]; lia.
  - eexists; split; [done|]. split; [f_equal; unfold dltb, dleb; apply N.leb_antisym|].
    rewrite ratio_below by done. unfold coll, debt_, _bigNumber. split; intros [H1 H2]; lia.
Qed.

(** [applyRedistribution] adds to a Trove its stake's share (rounded down) of what has been
    redistributed since its snapshot, keeping owner and status: nothing when nothing was, and never
    less as more is redistributed. *)
Theorem applyRedistribution_share (u : TroveWithPendingRedistribution.t) (total : Trove.t) :
  let trove := TroveWithPendingRedistribution.trove u in
  let snapshot := TroveWithPendingRedistribution.snapshotOfTotalRedistributed u in
  let share now since :=
    ((now - since) * units (TroveWithPendingRedistribution.stake u) / SCALE)%N in
  exists v, TroveWithPendingRedistribution.applyRedistribution u total = Ok v /\
    UserTrove.ownerAddress v = UserTrove.ownerAddress (TroveWithPendingRedistribution.super u) /\
    UserTrove.status v = UserTrove.status (TroveWithPendingRedistribution.super u) /\
    units (collateral (UserTrove.super v)) = (units (collateral trove) +
       share (units (collateral total)) (units (collateral snapshot)))%N /\
    units (debt (UserTrove.super v)) = (units (debt trove) +
       share (units (debt total)) (units (debt snapshot)))%N /\
    (total = snapshot -> UserTrove.super v = trove) /\
    (forall later, (units (collateral total) <= units (collateral later))%N ->
       (units (debt total) <= units (debt later))%N ->
       exists w, TroveWithPendingRedistribution.applyRedistribution u later = Ok w /\
         (units (collateral (UserTrove.super v)) <= units (collateral (UserTrove.super w)))%N /\
         (units (debt (UserTrove.super v)) <= units (debt (UserTrove.super w)))%N).
Proof.
  intros trove snapshot share.
  assert (forall now, TroveWithPendingRedistribution.applyRedistribution u now =
    Ok (UserTrove.mk (tadd trove (tmultiply (tsubtract now snapshot)
           (TroveWithPendingRedistribution.stake u)))
         (UserTrove.ownerAddress (TroveWithPendingRedistribution.super u))
         (UserTrove.status (TroveWithPendingRedistribution.super u)))) as Happ.
  { intros now. unfold TroveWithPendingRedistribution.applyRedistribution.
    rewrite subtract_ok. cbn [res_bind]. rewrite multiply_ok. cbn [res_bind].
    by rewrite tadd_ok. }
  rewrite Happ. eexists; split; [done|]. cbn [UserTrove.super UserTrove.ownerAddress
    UserTrove.status tadd tmultiply tsubtract collateral debt dadd dmul dsub units].
  do 4 (split; [done|]). split.
  - intros ->. fold snapshot.
    apply trove_eq; cbn [tadd tmultiply tsubtract collateral debt dadd dmul dsub units];
      by rewrite N.sub_diag, N.mul_0_l, N.add_0_r.
  - intros later H1 H2. rewrite Happ. eexists; split; [done|].
    cbn [UserTrove.super tadd tmultiply tsubtract collateral debt dadd dmul dsub units].
    split; apply N.add_le_mono_l, N.Div0.div_le_mono, N.mul_le_mono_r; lia.
Qed.

End Facts.

(** ** Instances *)

Definition aTrove : Trove.t := Trove.mk (Decimal.mk (10 * SCALE)) (Decimal.mk (2500 * SCALE)).
Definition anotherTrove : Trove.t :=
  Trove.mk (Decimal.mk (12 * SCALE)) (Decimal.mk (2801 * SCALE)).
Definition aRate : Decimal.t := Decimal.mk (5 * 10 ^ 15).
Definition anAdjustment : TroveAdjustmentParams Decimal.t :=
  mkAdjustment (Some (Decimal.mk SCALE)) None None (Some (Decimal.mk (100 * SCALE))).

Lemma whatChanged_apply_witness :
  exists c t, @whatChanged Z_bignumber aTrove anotherTrove (Some (ofDecimal aRate)) = Ok c /\
    @apply Z_bignumber aTrove c (Some (ofDecimal aRate)) = Ok t /\
    collateral t = collateral anotherTrove.
Proof.
  pose proof (@whatChanged_apply Z_bignumber Z_bignumber_laws aTrove anotherTrove
    (ofDecimal aRate) aRate eq_refl eq_refl) as H.
  assert (res_ok (@whatChanged Z_bignumber aTrove anotherTrove (Some (ofDecimal aRate))) = true)
    as Hok by (vm_compute; reflexivity).
  destruct (whatChanged aTrove anotherTrove _) as [c|]; [|discriminate].
  destruct H as [_ [_ (t & H1 & H2 & _)]]. by exists c, t.
Defined.

Lemma normalizeTroveAdjustment_accepts_witness :
  exists p, @_normalizeTroveAdjustment Z_bignumber (rawAdjustment (adjustmentish anAdjustment))
    = Ok p /\ p = anAdjustment.
Proof.
  pose proof (proj1 (@normalizeTroveAdjustment_accepts Z_bignumber Z_bignumber_laws) anAdjustment)
    as H.
  destruct (_normalizeTroveAdjustment _) as [p|]; [|vm_compute in H; discriminate].
  exists p. split; [done|]. by destruct H as [-> _].
Defined.

Lemma recreate_create_witness :
  exists t, @create Z_bignumber (creationish (mkCreation (Decimal.mk SCALE) (Decimal.mk 1)))
    (Some (ofDecimal aRate)) = Ok t /\ collateral t = Decimal.mk SCALE.
Proof.
  destruct (@recreate_create Z_bignumber Z_bignumber_laws
    (mkCreation (Decimal.mk SCALE) (Decimal.mk 1)) (ofDecimal aRate) aRate eq_refl)
    as (t & H1 & _ & H2 & _).
  exists t. exact (conj H1 H2).
Defined.

Lemma adjustTo_adjust_witness :
  exists t, @adjust Z_bignumber aTrove (adjustmentish anAdjustment) (Some (ofDecimal aRate)) = Ok t
    /\ (@isEmpty Z_bignumber t = false ->
        @adjustTo Z_bignumber aTrove t (Some (ofDecimal aRate)) = Ok anAdjustment).
Proof.
  destruct (@adjustTo_adjust Z_bignumber Z_bignumber_laws aTrove anAdjustment (ofDecimal aRate)
    aRate eq_refl) as (t & H1 & _ & _ & H2);
    [reflexivity | reflexivity | vm_compute; discriminate | vm_compute; discriminate |].
  exists t. exact (conj H1 H2).
Defined.

Lemma collateralRatio_refines_witness :
  exists q, @collateralRatio Z_bignumber aTrove (Decimal.mk (1000 * SCALE)) = Ok q /\
    LiquityMath._computeCR (10 * 10 ^ 18) (2500 * 10 ^ 18) (1000 * 10 ^ 18) = Some (_bigNumber q).
Proof.
  destruct (proj1 (@collateralRatio_refines Z_bignumber Z_bignumber_laws aTrove
    (Decimal.mk (1000 * SCALE)))) as (q & H1 & H2).
  exists q. split; [exact H1|]. apply H2. by vm_compute.
Defined.

Lemma applyRedistribution_share_witness :
  exists v, @TroveWithPendingRedistribution.applyRedistribution Z_bignumber
    (@TroveWithPendingRedistribution.new Z_bignumber "owner" UserTrove.open
       (Some (Decimal.mk SCALE)) None (Some (Decimal.mk SCALE)) None) aTrove = Ok v /\
    units (collateral (UserTrove.super v)) = (11 * SCALE)%N.
Proof.
  destruct (@applyRedistribution_share Z_bignumber Z_bignumber_laws
    (@TroveWithPendingRedistribution.new Z_bignumber "owner" UserTrove.open
       (Some (Decimal.mk SCALE)) None (Some (Decimal.mk SCALE)) None) aTrove)
    as (v & H1 & _ & _ & H2 & _).
  exists v. split; [exact H1|]. rewrite H2. by vm_compute.
Defined.

End TroveProperties.
