(* ===== verification/Fees.v ===== *)
(** * Fees: [src/packages/lib-base/src/Fees.ts]

    The client-side calculator of the borrowing and redemption rates.  A [Date] is the integer
    number of milliseconds [getTime()] gives. *)

From S2P Require Import Prelude BigNumber Decimals LiquityMath Constants.

Local Open Scope Z_scope.

Module Fees.

Record t : Type := mk {
  _baseRateWithoutDecay : Decimal.t;
  _minuteDecayFactor : Decimal.t;
  _beta : Decimal.t;
  _lastFeeOperation : Z;
  _timeOfLatestBlock : Z;
  _recoveryMode : bool;
}.

#[global] Instance t_eq_dec : EqDecision t.
Proof. solve_decision. Defined.

Section Operations.
Context {BN : BigNumberOps}.

Definition new (baseRateWithoutDecay minuteDecayFactor beta : Decimal.Decimalish)
    (lastFeeOperation timeOfLatestBlock : Z) (recoveryMode : bool) : Res t :=
  let! b := Decimal.from baseRateWithoutDecay in
  let! m := Decimal.from minuteDecayFactor in
  let! be := Decimal.from beta in
  let! c := Decimal.lt m (Decimal.ofNumber "1") in
  let! _ := assert_ c in
  Ok (mk b m be lastFeeOperation timeOfLatestBlock recoveryMode).

Definition _setRecoveryMode (this : t) (recoveryMode : bool) : Res t :=
  new (_baseRateWithoutDecay this) (_minuteDecayFactor this) (_beta this)
      (_lastFeeOperation this) (_timeOfLatestBlock this) recoveryMode.

Definition equals (this that : t) : Res bool :=
  let! b := Decimal.eq (_baseRateWithoutDecay this) (_baseRateWithoutDecay that) in
  let! m := Decimal.eq (_minuteDecayFactor this) (_minuteDecayFactor that) in
  let! be := Decimal.eq (_beta this) (_beta that) in
  Ok ((b : bool) && (m : bool) && (be : bool) &&
      (_lastFeeOperation this =? _lastFeeOperation that) &&
      (_timeOfLatestBlock this =? _timeOfLatestBlock that) &&
      Bool.eqb (_recoveryMode this) (_recoveryMode that)).

(** [toLocaleString] depends on the host's locale. *)
Definition toString (toLocaleString : Z -> string) (this : t) : Res string :=
  let! b := Decimal.toString (_baseRateWithoutDecay this) None in
  Ok ("{ baseRateWithoutDecay: " +:+ b +:+ ", lastFeeOperation: " +:+
      Js.quoted (toLocaleString (_lastFeeOperation this)) +:+ ", recoveryMode: " +:+
      (if _recoveryMode this then "true" else "false") +:+ " } ").

Definition baseRate (this : t) (when : option Z) : Res Decimal.t :=
  let when := match when with Some w => w | None => _timeOfLatestBlock this end in
  let millisecondsSinceLastFeeOperation := Z.max (when - _lastFeeOperation this) 0 in
  let minutesSinceLastFeeOperation := millisecondsSinceLastFeeOperation / 60000 in
  let! p := Decimal.pow (_minuteDecayFactor this) (JInt minutesSinceLastFeeOperation) in
  Decimal.mul p (_baseRateWithoutDecay this).

Definition borrowingRate (this : t) (when : option Z) : Res Decimal.t :=
  if _recoveryMode this then Ok Decimal.ZERO
  else
    let! b := baseRate this when in
    let! s := Decimal.add MINIMUM_BORROWING_RATE b in
    Decimal.min s MAXIMUM_BORROWING_RATE.

(** An absent fraction defaults to [Decimal.ZERO]. *)
Definition redemptionRate (this : t) (redeemedFractionOfSupply : option Decimal.Decimalish)
    (when : option Z) : Res Decimal.t :=
  let! redeemedFractionOfSupply :=
    Decimal.from match redeemedFractionOfSupply with
                 | Some f => f
                 | None => Decimal.ofDecimal Decimal.ZERO
                 end in
  let! baseRate := baseRate this when in
  let! baseRate := match Decimal.nonZero redeemedFractionOfSupply with
                   | Some _ =>
                       let! q := Decimal.div redeemedFractionOfSupply (_beta this) in
                       Decimal.add q baseRate
                   | None => Ok baseRate
                   end in
  let! s := Decimal.add MINIMUM_REDEMPTION_RATE baseRate in
  Decimal.min s Decimal.ONE.

End Operations.
End Fees.

Module FeesFacts.
Import Decimal DecimalFacts LiquityMathFacts.
Import Fees.

(** Whole minutes from the last fee operation to [when] (the latest block's time by default). *)
Definition minutes (f : Fees.t) (when : option Z) : Z :=
  Z.max (default (_timeOfLatestBlock f) when - _lastFeeOperation f) 0 / 60000.

Definition wf (f : Fees.t) : Prop := (units (_minuteDecayFactor f) < SCALE)%N.

(** The decayed base rate, in units. *)
Definition decayed (f : Fees.t) (when : option Z) : N :=
  (Z.to_N (dpow (_bigNumber (_minuteDecayFactor f)) (minutes f when)) *
   units (_baseRateWithoutDecay f) / SCALE)%N.

Lemma minutes_nonneg f w : 0 <= minutes f w.
Proof. unfold minutes. apply Z.div_pos; lia. Qed.

Lemma decayed_le f w : wf f -> (decayed f w <= units (_baseRateWithoutDecay f))%N.
Proof.
  unfold wf, decayed. intros Hw.
  assert (0 <= _bigNumber (_minuteDecayFactor f) <= 10 ^ 18) as Hb
    by (unfold _bigNumber, SCALE in *; lia).
  pose proof (dpow_le_one _ (minutes f w) Hb).
  assert (Z.to_N (dpow (_bigNumber (_minuteDecayFactor f)) (minutes f w)) <= SCALE)%N as Hd
    by (unfold SCALE; lia).
  apply N.Div0.div_le_upper_bound. by apply N.mul_le_mono_r.
Qed.

Section Closed.
Context {BN : BigNumberOps} {BNL : BigNumberLaws BN}.

Lemma one_from : from (ofNumber "1") = Ok (Decimal.mk SCALE).
Proof. rewrite from_number. by vm_compute. Qed.

Lemma fees_new_ok x b y m z be l tl r :
  from x = Ok b -> from y = Ok m -> from z = Ok be ->
  Fees.new x y z l tl r =
    if dltb m (Decimal.mk SCALE) then Ok (Fees.mk b m be l tl r) else Throw "AssertionError".
Proof.
  intros Hx Hy Hz. unfold Fees.new. rewrite Hx, Hy, Hz. cbn [res_bind].
  rewrite (lt_from _ _ _ one_from). cbn [res_bind]. by destruct (dltb _ _).
Qed.

Lemma setRecoveryMode_ok f r :
  wf f -> _setRecoveryMode f r = Ok (Fees.mk (_baseRateWithoutDecay f) (_minuteDecayFactor f)
    (_beta f) (_lastFeeOperation f) (_timeOfLatestBlock f) r).
Proof.
  intros Hw. unfold _setRecoveryMode. erewrite fees_new_ok by apply from_decimal.
  unfold dltb. cbn [units]. by rewrite (proj2 (N.ltb_lt _ _) Hw).
Qed.

Lemma fees_equals_true f g : equals f g = Ok true <-> f = g.
Proof.
  unfold equals. rewrite !eq_ok. cbn [res_bind]. split.
  - intros [=H]. bool_to_prop. rewrite !deqb_eq in *.
    destruct f, g; simpl in *. apply eqb_prop in H0. congruence.
  - intros ->. by rewrite !deqb_refl, !Z.eqb_refl, Bool.eqb_reflx.
Qed.

Lemma fees_equals_ok f g : exists b, equals f g = Ok b.
Proof. unfold equals. rewrite !eq_ok. eexists; done. Qed.

Lemma fees_equals_decide f g : equals f g = Ok (bool_decide (f = g)).
Proof.
  destruct (fees_equals_ok f g) as [b Hb]. rewrite Hb. f_equal.
  destruct b; symmetry; [apply bool_decide_eq_true_2; by apply fees_equals_true|].
  apply bool_decide_eq_false_2. intros E%fees_equals_true. congruence.
Qed.

Lemma baseRate_ok f w :
  minutes f w < 2 ^ 32 -> baseRate f w = Ok (Decimal.mk (decayed f w)).
Proof.
  intros Hm. unfold baseRate. pose proof (minutes_nonneg f w).
  change (Z.max (match w with Some w => w | None => _ end - _lastFeeOperation f) 0 / 60000)
    with (minutes f w).
  rewrite pow_dpow by lia. cbn [res_bind]. by rewrite mul_ok.
Qed.

Lemma baseRate_throws f w : 2 ^ 32 <= minutes f w -> baseRate f w = Throw "AssertionError".
Proof.
  intros Hm. unfold baseRate.
  change (Z.max (match w with Some w => w | None => _ end - _lastFeeOperation f) 0 / 60000)
    with (minutes f w).
  unfold pow. replace (minutes f w <=? 4294967295) with false by lia.
  by rewrite andb_false_r.
Qed.

Lemma borrowingRate_ok f w :
  _recoveryMode f = true \/ minutes f w < 2 ^ 32 ->
  borrowingRate f w = Ok (Decimal.mk (if _recoveryMode f then 0
                              else N.min (5 * 10 ^ 15 + decayed f w) (5 * 10 ^ 16))).
Proof.
  intros H. unfold borrowingRate. destruct (_recoveryMode f); [by rewrite ZERO_val|].
  destruct H as [|H]; [done|]. rewrite baseRate_ok by done. cbn [res_bind].
  rewrite MINIMUM_BORROWING_RATE_val, MAXIMUM_BORROWING_RATE_val, add_ok. cbn [res_bind].
  rewrite min_ok. f_equal. unfold dltb, dadd. cbn [units].
  destruct (N.ltb_spec (5 * 10 ^ 15 + decayed f w) (5 * 10 ^ 16)); f_equal; lia.
Qed.

(** The part of the redemption rate that the redeemed fraction adds. *)
Definition fractionPart (f : Fees.t) (fraction : Decimal.t) : N :=
  if (units fraction =? 0)%N then 0 else units (ddiv fraction (_beta f)).

Lemma redemptionRate_ok f (fraction : Decimal.t) w :
  minutes f w < 2 ^ 32 ->
  redemptionRate f (Some (ofDecimal fraction)) w =
    Ok (Decimal.mk (N.min (5 * 10 ^ 15 + (fractionPart f fraction + decayed f w)) SCALE)).
Proof.
  intros H. unfold redemptionRate. rewrite from_decimal. cbn [res_bind].
  rewrite baseRate_ok, nonZero_ok by done. cbn [res_bind].
  assert ((match (if (units fraction =? 0)%N then None else Some fraction) with
          | Some _ => let! q := div fraction (_beta f) in add q (Decimal.mk (decayed f w))
          | None => Ok (Decimal.mk (decayed f w))
          end) = Ok (Decimal.mk (fractionPart f fraction + decayed f w))) as ->.
  { unfold fractionPart. destruct (_ =? _)%N; [done|]. rewrite div_ok. cbn [res_bind].
    by rewrite add_ok. }
  cbn [res_bind]. rewrite MINIMUM_REDEMPTION_RATE_val, ONE_val, add_ok. cbn [res_bind].
  rewrite min_ok. f_equal. unfold dltb, dadd. cbn [units].
  match goal with |- context [(?a <? ?b)%N] => destruct (N.ltb_spec a b) end; f_equal; lia.
Qed.

Lemma redemptionRate_default f w :
  redemptionRate f None w = redemptionRate f (Some (ofDecimal (Decimal.mk 0))) w.
Proof. unfold redemptionRate. by rewrite ZERO_val. Qed.

End Closed.
End FeesFacts.

Module FeesProperties.
Import Decimal DecimalFacts Fees FeesFacts LiquityMathFacts.

Section Properties.
Context {BN : BigNumberOps} {BNL : BigNumberLaws BN}.

(** The constructor accepts exactly decay factors below one, and from then on: the decayed
    base rate never exceeds the undecayed one; the borrowing rate is zero in recovery mode and
    between 0.5% and 5% otherwise; the redemption rate is between 0.5% and 100%, grows with the
    redeemed fraction and is at least the decayed base rate unless capped.  A time more than 2^32
    minutes after the last fee operation is the only one that throws. *)
Theorem fee_bounds (x y z : Decimalish) (b m be : Decimal.t) l tl r :
  from x = Ok b -> from y = Ok m -> from z = Ok be ->
  (res_ok (Fees.new x y z l tl r) = true <-> (units m < SCALE)%N) /\
  (forall f, Fees.new x y z l tl r = Ok f -> forall when,
    (res_ok (baseRate f when) = true <-> minutes f when < 2 ^ 32) /\
    (minutes f when < 2 ^ 32 -> exists base borrowing,
      baseRate f when = Ok base /\ (units base <= units b)%N /\
      borrowingRate f when = Ok borrowing /\
      (r = true -> units borrowing = 0%N) /\
      (r = false -> (5 * 10 ^ 15 <= units borrowing <= 5 * 10 ^ 16)%N) /\
      forall f1 f2 : Decimal.t, (units f1 <= units f2)%N -> exists r1 r2,
        redemptionRate f (Some (ofDecimal f1)) when = Ok r1 /\
        redemptionRate f (Some (ofDecimal f2)) when = Ok r2 /\
        (5 * 10 ^ 15 <= units r1 <= units r2)%N /\ (units r2 <= SCALE)%N /\
        (units base <= units r1 \/ units r1 = SCALE)%N)).
Proof.
  intros Hx Hy Hz. rewrite (fees_new_ok _ _ _ _ _ _ l tl r Hx Hy Hz). split.
  { unfold dltb. cbn [units]. destruct (N.ltb_spec (units m) SCALE); split; done || lia. }
  intros f Hf when. destruct (dltb m (Decimal.mk SCALE)) eqn:Hm; [|done]. injection Hf as <-.
  apply N.ltb_lt in Hm. cbn [units] in Hm. set (f := Fees.mk _ _ _ _ _ _). split.
  { destruct (Z.lt_ge_cases (minutes f when) (2 ^ 32)).
    - by rewrite baseRate_ok.
    - rewrite baseRate_throws by done. split; [done|lia]. }
  intros Hw. exists (Decimal.mk (decayed f when)). eexists. rewrite baseRate_ok by done. split; [done|].
  split; [by apply (decayed_le f)|]. rewrite borrowingRate_ok by auto. split; [done|].
  cbn [units]. change (_recoveryMode f) with r.
  split; [by intros ->|]. split; [intros ->; lia|].
  intros f1 f2 Hle. do 2 eexists. rewrite !redemptionRate_ok by done. do 2 (split; [done|]).
  assert (fractionPart f f1 <= fractionPart f f2)%N as Hfr.
  { unfold fractionPart. destruct (N.eqb_spec (units f1) 0); [lia|].
    destruct (N.eqb_spec (units f2) 0); [lia|]. unfold ddiv. destruct (_ =? 0)%N; [done|].
    cbn [units]. apply N.Div0.div_le_mono. by apply N.mul_le_mono_r. }
  cbn [units]. unfold SCALE. lia.
Qed.

(** C4: at the time of a block no earlier than the last fee operation and within the contract's
    1000-year cap, the rates the SDK predicts are the ones the contract's
    [getBorrowingRateWithDecay] and [getRedemptionRateWithDecay] return (outside recovery mode),
    the client's clock being the contract's in milliseconds. *)
Theorem rates_refine_contract (f : Fees.t) (seconds : Z) :
  _bigNumber (_minuteDecayFactor f) = TroveManager.MINUTE_DECAY_FACTOR ->
  _lastFeeOperation f mod 1000 = 0 ->
  0 <= _lastFeeOperation f / 1000 <= seconds ->
  (seconds - _lastFeeOperation f / 1000) / 60 <= 525600000 ->
  _bigNumber (_baseRateWithoutDecay f) <= LiquityMath.DECIMAL_PRECISION ->
  _recoveryMode f = false ->
  exists borrowing redemption,
    borrowingRate f (Some (seconds * 1000)) = Ok borrowing /\
    TroveManager.getBorrowingRateWithDecay (_bigNumber (_baseRateWithoutDecay f))
      (_lastFeeOperation f / 1000) seconds = Some (_bigNumber borrowing) /\
    redemptionRate f None (Some (seconds * 1000)) = Ok redemption /\
    TroveManager.getRedemptionRateWithDecay (_bigNumber (_baseRateWithoutDecay f))
      (_lastFeeOperation f / 1000) seconds = Some (_bigNumber redemption).
Proof.
  intros Hm Hl Hs Hcap Hb Hrec.
  assert (minutes f (Some (seconds * 1000)) = (seconds - _lastFeeOperation f / 1000) / 60) as Hmin.
  { unfold minutes. cbn [from_option id]. pose proof (Z.div_mod (_lastFeeOperation f) 1000 ltac:(lia)).
    replace (Z.max _ 0) with ((seconds - _lastFeeOperation f / 1000) * 1000) by lia.
    change 60000 with (60 * 1000). by rewrite Z.div_mul_cancel_r. }
  assert (wf f) as Hwf by (unfold wf, _bigNumber, TroveManager.MINUTE_DECAY_FACTOR, SCALE in *; lia).
  set (n := minutes f (Some (seconds * 1000))) in *.
  assert (0 <= n <= 525600000) as Hn by (split; [apply minutes_nonneg | lia]).
  exists (Decimal.mk (N.min (5 * 10 ^ 15 + decayed f (Some (seconds * 1000))) (5 * 10 ^ 16))),
    (Decimal.mk (N.min (5 * 10 ^ 15 + decayed f (Some (seconds * 1000))) SCALE)).
  rewrite borrowingRate_ok, Hrec by (right; fold n; lia).
  rewrite redemptionRate_default, redemptionRate_ok by (fold n; lia).
  change (fractionPart f (Decimal.mk 0)) with 0%N. rewrite N.add_0_l.
  assert (TroveManager._calcDecayedBaseRate (_bigNumber (_baseRateWithoutDecay f))
      (_lastFeeOperation f / 1000) seconds = Some (Z.of_N (decayed f (Some (seconds * 1000)))))
    as Hdec.
  { unfold TroveManager._calcDecayedBaseRate, TroveManager._minutesPassedSinceLastFeeOp.
    assert (TroveManager.SECONDS_IN_ONE_MINUTE = 60) as -> by done.
    unfold LiquityMath.DECIMAL_PRECISION in *.
    assert (0 <= TroveManager.MINUTE_DECAY_FACTOR <= 10 ^ 18) as Hf by (vm_compute; split; discriminate).
    pose proof (dpow_le_one _ n Hf) as Hp.
    assert (0 <= _bigNumber (_baseRateWithoutDecay f)) by (unfold _bigNumber; lia).
    assert (seconds - _lastFeeOperation f / 1000 <= 31536000059) as Hsec by 
      (pose proof (Z.mul_succ_div_gt (seconds - _lastFeeOperation f / 1000) 60); lia).
    assert (31536000059 <= LiquityMath.UINT256_MAX) as Hmax by (vm_compute; discriminate).
    rewrite (checked_ok (seconds - _lastFeeOperation f / 1000)) by lia.
    cbn [mbind option_bind]. rewrite <- Hmin, decPow_ok by done. cbn [mbind option_bind].
    rewrite checked_ok by (unfold LiquityMath.UINT256_MAX; nia). cbn [mbind option_bind].
    f_equal. unfold decayed. fold n. rewrite N2Z.inj_div, N2Z.inj_mul, Hm, Z2N.id by lia.
    by rewrite Z.mul_comm. }
  unfold TroveManager.getBorrowingRateWithDecay, TroveManager.getRedemptionRateWithDecay.
  rewrite Hdec. cbn [mbind option_bind]. pose proof (decayed_le f (Some (seconds * 1000)) Hwf) as Hle.
  unfold TroveManager._calcBorrowingRate, TroveManager._calcRedemptionRate,
    TroveManager.BORROWING_FEE_FLOOR, TroveManager.REDEMPTION_FEE_FLOOR,
    TroveManager.MAX_BORROWING_FEE, LiquityMath.DECIMAL_PRECISION in *.
  change (10 ^ 18 / 1000 * 5) with (5 * 10 ^ 15). change (10 ^ 18 / 100 * 5) with (5 * 10 ^ 16).
  rewrite !checked_ok by (unfold LiquityMath.UINT256_MAX, _bigNumber in *; lia).
  cbn [mbind option_bind]. unfold _bigNumber, SCALE. cbn [units].
  split; [done|]. split; [f_equal; lia|]. split; [done|]. f_equal. lia.
Qed.

End Properties.

(** ** Instances *)

Definition someFees : Fees.t :=
  Fees.mk (Decimal.mk (3 * 10 ^ 16)) (Decimal.mk 999037758833783000) (Decimal.mk (2 * SCALE))
    1600000000000 1600000600000 false.

Lemma fee_bounds_witness :
  exists borrowing, @borrowingRate Z_bignumber someFees None = Ok borrowing /\
    (5 * 10 ^ 15 <= units borrowing <= 5 * 10 ^ 16)%N.
Proof.
  destruct (proj2 (@fee_bounds Z_bignumber Z_bignumber_laws (Decimal.mk (3 * 10 ^ 16))
    (Decimal.mk 999037758833783000) (Decimal.mk (2 * SCALE)) (Decimal.mk (3 * 10 ^ 16))
    (Decimal.mk 999037758833783000) (Decimal.mk (2 * SCALE)) 1600000000000 1600000600000 false
    eq_refl eq_refl eq_refl) someFees ltac:(vm_compute; reflexivity) None)
    as [_ H].
  destruct H as (base & borrowing & _ & _ & H1 & _ & H2 & _); [vm_compute; reflexivity|].
  exists borrowing. exact (conj H1 (H2 eq_refl)).
Defined.

Lemma rates_refine_contract_witness :
  exists borrowing, @borrowingRate Z_bignumber someFees (Some (1600003600 * 1000)) = Ok borrowing /\
    TroveManager.getBorrowingRateWithDecay (3 * 10 ^ 16) 1600000000 1600003600 =
      Some (_bigNumber borrowing).
Proof.
  destruct (@rates_refine_contract Z_bignumber Z_bignumber_laws someFees 1600003600)
    as (borrowing & _ & H1 & H2 & _);
    [reflexivity | reflexivity | vm_compute; split; discriminate | vm_compute; discriminate
    | vm_compute; discriminate | reflexivity |].
  exists borrowing. exact (conj H1 H2).
Defined.

End FeesProperties.
