(* ===== verification/Deposits.v ===== *)
(** * Deposits: [src/packages/lib-base/src/StabilityDeposit.ts] and [BammDeposit.ts]

    The two deposit classes have the same change protocol ([whatChanged], [apply]); the stability
    deposit's is an exact round trip, the B.AMM deposit's is not. *)

From S2P Require Import Prelude BigNumber Decimals.

Local Open Scope Z_scope.

(** [StabilityDepositChange] and [BammDepositChange]: the same type. *)
Inductive DepositChange (T : Type) : Type :=
| depositTHUSD (amount : T)
| withdrawTHUSD (amount : T) (withdrawAllTHUSD : bool).
Arguments depositTHUSD {T} _.
Arguments withdrawTHUSD {T} _ _.

Module StabilityDeposit.

Record t : Type := mk {
  initialTHUSD : Decimal.t;
  currentTHUSD : Decimal.t;
  collateralGain : Decimal.t;
}.

#[global] Instance t_eq_dec : EqDecision t.
Proof. solve_decision. Defined.

Section Operations.
Context {BN : BigNumberOps}.

Definition new (initialTHUSD currentTHUSD collateralGain : Decimal.t) : Res t :=
  let! g := Decimal.gt currentTHUSD initialTHUSD in
  if (g : bool) then Throw "currentTHUSD can't be greater than initialTHUSD"
  else Ok (mk initialTHUSD currentTHUSD collateralGain).

Definition isEmpty (this : t) : bool :=
  Decimal.isZero (initialTHUSD this) && Decimal.isZero (currentTHUSD this) &&
  Decimal.isZero (collateralGain this).

Definition toString (this : t) : Res string :=
  let! i := Decimal.toString (initialTHUSD this) None in
  let! c := Decimal.toString (currentTHUSD this) None in
  let! g := Decimal.toString (collateralGain this) None in
  Ok ("{ initialTHUSD: " +:+ i +:+ ", currentTHUSD: " +:+ c +:+ ", collateralGain: " +:+ g +:+ " }").

Definition equals (this that : t) : Res bool :=
  let! i := Decimal.eq (initialTHUSD this) (initialTHUSD that) in
  let! c := Decimal.eq (currentTHUSD this) (currentTHUSD that) in
  let! g := Decimal.eq (collateralGain this) (collateralGain that) in
  Ok ((i : bool) && (c : bool) && (g : bool)).

Definition whatChanged (this : t) (thatTHUSD : Decimal.Decimalish) :
    Res (option (DepositChange Decimal.t)) :=
  let! thatTHUSD := Decimal.from thatTHUSD in
  let! less := Decimal.lt thatTHUSD (currentTHUSD this) in
  if (less : bool) then
    let! w := Decimal.sub (currentTHUSD this) thatTHUSD in
    Ok (Some (withdrawTHUSD w (Decimal.isZero thatTHUSD)))
  else
    let! more := Decimal.gt thatTHUSD (currentTHUSD this) in
    if (more : bool) then
      let! d := Decimal.sub thatTHUSD (currentTHUSD this) in
      Ok (Some (depositTHUSD d))
    else Ok None.

Definition apply (this : t) (change : option (DepositChange Decimal.Decimalish)) :
    Res Decimal.t :=
  match change with
  | None => Ok (currentTHUSD this)
  | Some (withdrawTHUSD w all) =>
      let! zero := if all then Ok true else Decimal.lte (currentTHUSD this) w in
      if (zero : bool) then Ok Decimal.ZERO else Decimal.sub (currentTHUSD this) w
  | Some (depositTHUSD d) => Decimal.add (currentTHUSD this) d
  end.

End Operations.
End StabilityDeposit.

Module BammDeposit.

(** Two of the fields are compared by reference ([===] on objects), so Decimal objects carry an
    identity here. *)
Record t : Type := mk {
  bammPoolShare : Decimal.t;
  poolShare : Decimal.t;
  initialTHUSD : Decimal.t;
  currentUSD : Decimal.t;
  currentTHUSD : Decimal.t;
  collateralGain : Decimal.t;
  totalCollateralInBamm : Obj Decimal.t;
  totalThusdInBamm : Obj Decimal.t;
}.

Section Operations.
Context {BN : BigNumberOps}.

Definition isEmpty (this : t) : bool :=
  Decimal.isZero (initialTHUSD this) && Decimal.isZero (currentTHUSD this) &&
  Decimal.isZero (collateralGain this).

Definition equals (this that : t) : Res bool :=
  let! b := Decimal.eq (bammPoolShare this) (bammPoolShare that) in
  let! p := Decimal.eq (poolShare this) (poolShare that) in
  let! u := Decimal.eq (currentUSD this) (currentUSD that) in
  let! i := Decimal.eq (initialTHUSD this) (initialTHUSD that) in
  let! c := Decimal.eq (currentTHUSD this) (currentTHUSD that) in
  let! g := Decimal.eq (collateralGain this) (collateralGain that) in
  Ok ((b : bool) && (p : bool) && (u : bool) && (i : bool) && (c : bool) && (g : bool) &&
      sameObject (totalCollateralInBamm this) (totalCollateralInBamm that) &&
      sameObject (totalThusdInBamm this) (totalThusdInBamm that)).

Definition toString (this : t) : Res string :=
  let! b := Decimal.toString (bammPoolShare this) None in
  let! p := Decimal.toString (poolShare this) None in
  let! i := Decimal.toString (initialTHUSD this) None in
  let! c := Decimal.toString (currentTHUSD this) None in
  let! g := Decimal.toString (collateralGain this) None in
  let! tc := Decimal.toString (snd (totalCollateralInBamm this)) None in
  let! tt := Decimal.toString (snd (totalThusdInBamm this)) None in
  Ok ("{ bammPoolShare: " +:+ b +:+ ", poolShare: " +:+ p +:+ ", initialTHUSD: " +:+ i +:+
      ", currentTHUSD: " +:+ c +:+ ", collateralGain: " +:+ g +:+
      ", totalCollateralInBamm: " +:+ tc +:+ ", totalThusdInBamm: " +:+ tt).

Definition whatChanged (this : t) (thatUSD : Decimal.Decimalish) :
    Res (option (DepositChange Decimal.t)) :=
  let! thatUSD := Decimal.from thatUSD in
  let! less := Decimal.lt thatUSD (currentTHUSD this) in
  if (less : bool) then
    let! w := Decimal.sub (currentTHUSD this) thatUSD in
    Ok (Some (withdrawTHUSD w (Decimal.isZero thatUSD)))
  else
    let! more := Decimal.gt thatUSD (currentTHUSD this) in
    if (more : bool) then
      let! d := Decimal.sub thatUSD (currentTHUSD this) in
      Ok (Some (depositTHUSD d))
    else Ok None.

Definition apply (this : t) (change : option (DepositChange Decimal.Decimalish)) :
    Res Decimal.t :=
  match change with
  | None => Ok (currentUSD this)
  | Some (withdrawTHUSD w all) =>
      let! zero := if all then Ok true else Decimal.lte (currentUSD this) w in
      if (zero : bool) then Ok Decimal.ZERO else Decimal.sub (currentTHUSD this) w
  | Some (depositTHUSD d) => Decimal.add (currentTHUSD this) d
  end.

End Operations.
End BammDeposit.

Module DepositFacts.
Import Decimal DecimalFacts.

(** A change whose amounts are Decimals, seen as one whose amounts can be. *)
Definition changeish (c : DepositChange Decimal.t) : DepositChange Decimal.Decimalish :=
  match c with
  | depositTHUSD d => depositTHUSD (ofDecimal d)
  | withdrawTHUSD w all => withdrawTHUSD (ofDecimal w) all
  end.

Section Facts.
Context {BN : BigNumberOps} {BNL : BigNumberLaws BN}.

Lemma lte_from (a d : Decimal.t) x : from x = Ok d -> lte a x = Ok (dleb a d).
Proof. intros H. rewrite <- lte_ok. unfold lte. by rewrite H. Qed.

Lemma stability_equals_true a b : StabilityDeposit.equals a b = Ok true <-> a = b.
Proof.
  unfold StabilityDeposit.equals. rewrite !eq_ok. cbn [res_bind]. split.
  - intros [=H]. bool_to_prop. rewrite !deqb_eq in *. destruct a, b; simpl in *; congruence.
  - intros ->. by rewrite !deqb_refl.
Qed.

Lemma stability_equals_ok a b : exists e, StabilityDeposit.equals a b = Ok e.
Proof. unfold StabilityDeposit.equals. rewrite !eq_ok. by eexists. Qed.

Lemma stability_equals_decide a b :
  StabilityDeposit.equals a b = Ok (bool_decide (a = b)).
Proof.
  destruct (stability_equals_ok a b) as [e He]. rewrite He. f_equal.
  destruct e; symmetry; [apply bool_decide_eq_true_2; by apply stability_equals_true|].
  apply bool_decide_eq_false_2. intros E%stability_equals_true. congruence.
Qed.

Lemma bamm_equals_ok a b : exists e, BammDeposit.equals a b = Ok e.
Proof. unfold BammDeposit.equals. rewrite !eq_ok. by eexists. Qed.

(** The change [whatChanged] reports between two amounts. *)
Definition change (current that : Decimal.t) : option (DepositChange Decimal.t) :=
  if dltb that current then Some (withdrawTHUSD (dsub current that) (units that =? 0)%N)
  else if dltb current that then Some (depositTHUSD (dsub that current))
  else None.

Lemma stability_whatChanged_ok s x d :
  from x = Ok d ->
  StabilityDeposit.whatChanged s x = Ok (change (StabilityDeposit.currentTHUSD s) d).
Proof.
  intros H. unfold StabilityDeposit.whatChanged, change. rewrite H. cbn [res_bind].
  rewrite lt_ok, gt_ok, isZero_ok. cbn [res_bind]. unfold dltb.
  destruct (N.ltb_spec (units d) (units (StabilityDeposit.currentTHUSD s)));
    [by rewrite sub_ok by lia|].
  destruct (N.ltb_spec (units (StabilityDeposit.currentTHUSD s)) (units d)); [|done].
  by rewrite sub_ok by lia.
Qed.

Lemma bamm_whatChanged_ok s x d :
  from x = Ok d ->
  BammDeposit.whatChanged s x = Ok (change (BammDeposit.currentTHUSD s) d).
Proof.
  intros H. unfold BammDeposit.whatChanged, change. rewrite H. cbn [res_bind].
  rewrite lt_ok, gt_ok, isZero_ok. cbn [res_bind]. unfold dltb.
  destruct (N.ltb_spec (units d) (units (BammDeposit.currentTHUSD s)));
    [by rewrite sub_ok by lia|].
  destruct (N.ltb_spec (units (BammDeposit.currentTHUSD s)) (units d)); [|done].
  by rewrite sub_ok by lia.
Qed.

Lemma change_none c d : change c d = None <-> c = d.
Proof.
  unfold change, dltb. split.
  - destruct (N.ltb_spec (units d) (units c)), (N.ltb_spec (units c) (units d)); try done.
    intros _. apply t_eq. lia.
  - intros ->. by rewrite N.ltb_irrefl.
Qed.

(** Applying the change between the deposit and an amount gives the amount. *)
Lemma stability_apply_change s (target : Decimal.t) :
  StabilityDeposit.apply s (changeish <$> change (StabilityDeposit.currentTHUSD s) target) =
    Ok target.
Proof.
  unfold change, dltb. set (current := StabilityDeposit.currentTHUSD s).
  destruct (N.ltb_spec (units target) (units current));
    [|destruct (N.ltb_spec (units current) (units target))];
    cbn [fmap option_fmap option_map changeish StabilityDeposit.apply]; fold current.
  - destruct (N.eqb_spec (units target) 0); cbn [res_bind].
    { rewrite ZERO_val. f_equal. by apply t_eq. }
    rewrite lte_ok. unfold dleb, dsub. cbn [res_bind units].
    rewrite (proj2 (N.leb_gt _ _)) by lia. rewrite sub_ok by (cbn [units]; lia).
    f_equal. apply t_eq. cbn [dsub units]. lia.
  - rewrite add_ok. f_equal. apply t_eq. cbn [dadd dsub units]. lia.
  - f_equal. apply t_eq. lia.
Qed.

(** A stability deposit is created exactly when it does not exceed its initial amount;
    [whatChanged] reports no change exactly for equal amounts and [apply] turns what it reports
    into the amount aimed at; a withdrawal never takes more than the deposit, whatever its
    amount. *)
Theorem stability_whatChanged_apply (initial current gain : Decimal.t) x (target : Decimal.t) :
  from x = Ok target ->
  (res_ok (StabilityDeposit.new initial current gain) = true <->
     (units current <= units initial)%N) /\
  forall s, StabilityDeposit.new initial current gain = Ok s ->
  (exists c, StabilityDeposit.whatChanged s x = Ok c /\ (c = None <-> current = target) /\
     StabilityDeposit.apply s (changeish <$> c) = Ok target) /\
  (forall all, exists r, StabilityDeposit.apply s (Some (withdrawTHUSD x all)) = Ok r /\
     units r = (if all then 0 else units current - units target)%N) /\
  (exists r, StabilityDeposit.apply s (Some (depositTHUSD x)) = Ok r /\
     units r = (units current + units target)%N).
Proof.
  intros Hx. unfold StabilityDeposit.new. rewrite gt_ok. cbn [res_bind]. unfold dltb.
  split; [destruct (N.ltb_spec (units initial) (units current)); split; done || lia|].
  intros s Hs. destruct (_ <? _)%N; [done|]. injection Hs as <-.
  rewrite (stability_whatChanged_ok _ _ _ Hx). cbn [StabilityDeposit.currentTHUSD].
  split; [|split].
  - eexists; split; [done|]. split; [apply change_none|]. apply stability_apply_change.
  - intros all. unfold StabilityDeposit.apply. destruct all; cbn [res_bind].
    { rewrite ZERO_val. by eexists. }
    rewrite (lte_from _ _ _ Hx). cbn [res_bind StabilityDeposit.currentTHUSD]. unfold dleb.
    destruct (N.leb_spec (units current) (units target)).
    + rewrite ZERO_val. eexists; split; [done|]. cbn [units]. lia.
    + exists (dsub current target). split; [|done]. rewrite <- (sub_ok current target) by lia.
      unfold sub. by rewrite Hx, from_decimal.
  - unfold StabilityDeposit.apply. cbn [StabilityDeposit.currentTHUSD].
    rewrite (add_from _ _ _ Hx). by eexists.
Qed.

(** What the B.AMM deposit's change protocol gives back: deposits and full withdrawals reach
    the target, but no change yields [currentUSD] rather than [currentTHUSD], and a partial
    withdrawal of at least [currentUSD] yields zero; and its [equals] tells apart any two deposits
    that do not share their total Decimal objects, equal values or not. *)
Theorem bamm_whatChanged_apply (b : BammDeposit.t) (target : Decimal.t) :
  let current := BammDeposit.currentTHUSD b in
  let usd := BammDeposit.currentUSD b in
  (exists c, BammDeposit.whatChanged b (ofDecimal target) = Ok c /\
     BammDeposit.apply b (changeish <$> c) =
       Ok (if deqb current target then usd
           else if dltb target current && dleb usd (dsub current target) then Decimal.mk 0
           else target)) /\
  (forall b' i j, fst (BammDeposit.totalCollateralInBamm b) <> i ->
     b' = BammDeposit.mk (BammDeposit.bammPoolShare b) (BammDeposit.poolShare b)
       (BammDeposit.initialTHUSD b) usd current (BammDeposit.collateralGain b)
       (i, snd (BammDeposit.totalCollateralInBamm b)) (j, snd (BammDeposit.totalThusdInBamm b)) ->
     BammDeposit.equals b b' = Ok false).
Proof.
  intros current usd. split.
  - rewrite (bamm_whatChanged_ok _ _ _ (from_decimal _)). fold current.
    eexists; split; [done|]. unfold change, dltb, deqb.
    destruct (N.eqb_spec (units current) (units target)) as [E|E].
    { rewrite E, N.ltb_irrefl. done. }
    destruct (N.ltb_spec (units target) (units current));
      [|destruct (N.ltb_spec (units current) (units target)); [|lia] ];
      cbn [fmap option_fmap option_map changeish BammDeposit.apply andb]; fold current usd.
    + destruct (N.eqb_spec (units target) 0) as [Ht|Ht]; cbn [res_bind].
      { rewrite ZERO_val. f_equal. destruct (dleb _ _); [done|]. by apply t_eq. }
      rewrite lte_ok. cbn [res_bind]. destruct (dleb usd (dsub current target)).
      * by rewrite ZERO_val.
      * rewrite sub_ok by (cbn [dsub units]; lia). f_equal. apply t_eq. cbn [dsub units]. lia.
    + rewrite add_ok. f_equal. apply t_eq. cbn [dadd dsub units]. lia.
  - intros b' i j Hi ->. unfold BammDeposit.equals. rewrite !eq_ok. cbn [res_bind].
    unfold sameObject. cbn [BammDeposit.totalCollateralInBamm fst].
    rewrite (proj2 (N.eqb_neq _ _) Hi). by rewrite !andb_false_r.
Qed.

End Facts.

(** ** Instances *)

Lemma stability_whatChanged_apply_witness :
  exists c, @StabilityDeposit.whatChanged Z_bignumber
      (StabilityDeposit.mk (Decimal.mk 9) (Decimal.mk 7) (Decimal.mk 1)) (ofDecimal (Decimal.mk 3))
      = Ok c /\
    @StabilityDeposit.apply Z_bignumber
      (StabilityDeposit.mk (Decimal.mk 9) (Decimal.mk 7) (Decimal.mk 1)) (changeish <$> c)
      = Ok (Decimal.mk 3).
Proof.
  destruct (proj2 (@stability_whatChanged_apply Z_bignumber Z_bignumber_laws (Decimal.mk 9)
    (Decimal.mk 7) (Decimal.mk 1) (ofDecimal (Decimal.mk 3)) (Decimal.mk 3) eq_refl) _ eq_refl)
    as [(c & H1 & _ & H2) _].
  exists c. exact (conj H1 H2).
Defined.

Lemma bamm_whatChanged_apply_witness :
  @BammDeposit.apply Z_bignumber
    (BammDeposit.mk (Decimal.mk 1) (Decimal.mk 1) (Decimal.mk 9) (Decimal.mk 5) (Decimal.mk 7)
       (Decimal.mk 0) (1%N, Decimal.mk 2) (2%N, Decimal.mk 2)) None = Ok (Decimal.mk 5).
Proof.
  destruct (proj1 (@bamm_whatChanged_apply Z_bignumber Z_bignumber_laws
    (BammDeposit.mk (Decimal.mk 1) (Decimal.mk 1) (Decimal.mk 9) (Decimal.mk 5) (Decimal.mk 7)
       (Decimal.mk 0) (1%N, Decimal.mk 2) (2%N, Decimal.mk 2)) (Decimal.mk 7))) as (c & H1 & H2).
  assert (c = None) as -> by (vm_compute in H1; congruence). exact H2.
Defined.

End DepositFacts.
