(* ===== verification/LiquityStore.v ===== *)
(** * The data store: [src/packages/lib-base/src/LiquityStore.ts]

    The abstract class that keeps the state read from the blockchain, derives the rest of the
    state from it, and notifies its listeners of what changed.  Objects carry an identity, because
    [difference] compares them with [!==].  The subclass enters through the class
    [StoreSubclass]. *)

From S2P Require Import Prelude BigNumber Decimals Constants Troves Fees Deposits.

Local Open Scope Z_scope.

Module LiquityStore.

(** ** State *)

(** [LiquityStoreBaseState] with every property under [F]: [F] is the identity for a state and
    [option] for a [Partial] one. *)
Record BaseStateOf (F : Type -> Type) : Type := mkBase {
  numberOfTroves : F Z;
  accountBalance : F (Obj Decimal.t);
  thusdBalance : F (Obj Decimal.t);
  erc20TokenBalance : F (Obj Decimal.t);
  erc20TokenAllowance : F (Obj Decimal.t);
  isStabilityPools : F bool;
  isBorrowerOperations : F bool;
  isTroveManager : F bool;
  collateralSurplusBalance : F (Obj Decimal.t);
  price : F (Obj Decimal.t);
  marketPrice : F (Obj Decimal.t);
  piRedemptionRate : F (Obj Decimal.t);
  deviationFactor : F (Obj Decimal.t);
  thusdInStabilityPool : F (Obj Decimal.t);
  pcvBalance : F (Obj Decimal.t);
  total : F (Obj Trove.t);
  totalRedistributed : F (Obj Trove.t);
  troveBeforeRedistribution : F (Obj TroveWithPendingRedistribution.t);
  symbol : F string;
  collateralAddress : F string;
  stableAddress : F string;
  stabilityDeposit : F (Obj StabilityDeposit.t);
  bammDeposit : F (Obj BammDeposit.t);
  mintList : F bool;
  _feesInNormalMode : F (Obj Fees.t);
  _riskiestTroveBeforeRedistribution : F (Obj TroveWithPendingRedistribution.t);
}.

Definition LiquityStoreBaseState : Type := BaseStateOf (fun A => A).
Definition PartialBaseState : Type := BaseStateOf option.

Record LiquityStoreDerivedState : Type := mkDerived {
  trove : Obj UserTrove.t;
  fees : Obj Fees.t;
  borrowingRate : Obj Decimal.t;
  redemptionRate : Obj Decimal.t;
  haveUndercollateralizedTroves : bool;
}.

(** The values of the state's properties. *)
Inductive Value : Type :=
| VNumber (z : Z)
| VBool (b : bool)
| VString (s : string)
| VDecimal (o : Obj Decimal.t)
| VTrove (o : Obj Trove.t)
| VUserTrove (o : Obj UserTrove.t)
| VPendingTrove (o : Obj TroveWithPendingRedistribution.t)
| VStabilityDeposit (o : Obj StabilityDeposit.t)
| VBammDeposit (o : Obj BammDeposit.t)
| VFees (o : Obj Fees.t)
| VFunction (id : N)
| VUndefined.

(** [a === b] *)
Definition strictEquals (a b : Value) : bool :=
  match a, b with
  | VNumber x, VNumber y => x =? y
  | VBool x, VBool y => Bool.eqb x y
  | VString x, VString y => String.eqb x y
  | VDecimal x, VDecimal y => sameObject x y
  | VTrove x, VTrove y => sameObject x y
  | VUserTrove x, VUserTrove y => sameObject x y
  | VPendingTrove x, VPendingTrove y => sameObject x y
  | VStabilityDeposit x, VStabilityDeposit y => sameObject x y
  | VBammDeposit x, VBammDeposit y => sameObject x y
  | VFees x, VFees y => sameObject x y
  | VFunction x, VFunction y => (x =? y)%N
  | VUndefined, VUndefined => true
  | _, _ => false
  end.

(** What [Object.entries] lists. *)
Definition Entries : Type := list (string * Value).

Definition baseEntries (b : LiquityStoreBaseState) : Entries :=
  [("numberOfTroves", VNumber (numberOfTroves _ b));
   ("accountBalance", VDecimal (accountBalance _ b));
   ("thusdBalance", VDecimal (thusdBalance _ b));
   ("erc20TokenBalance", VDecimal (erc20TokenBalance _ b));
   ("erc20TokenAllowance", VDecimal (erc20TokenAllowance _ b));
   ("isStabilityPools", VBool (isStabilityPools _ b));
   ("isBorrowerOperations", VBool (isBorrowerOperations _ b));
   ("isTroveManager", VBool (isTroveManager _ b));
   ("collateralSurplusBalance", VDecimal (collateralSurplusBalance _ b));
   ("price", VDecimal (price _ b));
   ("marketPrice", VDecimal (marketPrice _ b));
   ("piRedemptionRate", VDecimal (piRedemptionRate _ b));
   ("deviationFactor", VDecimal (deviationFactor _ b));
   ("thusdInStabilityPool", VDecimal (thusdInStabilityPool _ b));
   ("pcvBalance", VDecimal (pcvBalance _ b));
   ("total", VTrove (total _ b));
   ("totalRedistributed", VTrove (totalRedistributed _ b));
   ("troveBeforeRedistribution", VPendingTrove (troveBeforeRedistribution _ b));
   ("symbol", VString (symbol _ b));
   ("collateralAddress", VString (collateralAddress _ b));
   ("stableAddress", VString (stableAddress _ b));
   ("stabilityDeposit", VStabilityDeposit (stabilityDeposit _ b));
   ("bammDeposit", VBammDeposit (bammDeposit _ b));
   ("mintList", VBool (mintList _ b));
   ("_feesInNormalMode", VFees (_feesInNormalMode _ b));
   ("_riskiestTroveBeforeRedistribution",
      VPendingTrove (_riskiestTroveBeforeRedistribution _ b))].

Definition derivedEntries (d : LiquityStoreDerivedState) : Entries :=
  [("trove", VUserTrove (trove d));
   ("fees", VFees (fees d));
   ("borrowingRate", VDecimal (borrowingRate d));
   ("redemptionRate", VDecimal (redemptionRate d));
   ("haveUndercollateralizedTroves", VBool (haveUndercollateralizedTroves d))].

(** [o[key]] *)
Fixpoint property {V} (l : list (string * V)) (key : string) : option V :=
  match l with
  | [] => None
  | (k, v) :: l' => if String.eqb k key then Some v else property l' key
  end.

(** The properties of [a] whose value is not, strictly, the one [b] has. *)
Definition difference (a b : Entries) : Entries :=
  List.filter (fun e => match property b (fst e) with
                        | Some w => negb (strictEquals (snd e) w)
                        | None => true
                        end) a.

Record LiquityStoreListenerParams : Type := mkParams {
  newState : Entries;
  oldState : Entries;
  stateChange : Entries;
}.

(** ** The subclass's part of the store *)

(** [T] is the type of the extra state, [U] of its updates and [L] of the listeners; a listener
    may register and unregister listeners while it runs.  The keys of the extra state are its
    own. *)
Inductive ListenerOp (L : Type) : Type :=
| Subscribe (listener : L)
| Unsubscribe (id : N).
Arguments Subscribe {L} _.
Arguments Unsubscribe {L} _.

Class StoreSubclass (T U L : Type) : Type := {
  _reduceExtra : T -> U -> T;
  extraEntries : T -> Entries;
  callListener : L -> LiquityStoreListenerParams -> list (ListenerOp L);
}.

(** The fields of the class, and of the host the pending timers and the supply of fresh
    identities. *)
Record Store (T L : Type) : Type := mkStore {
  _loaded : bool;
  _baseState : option LiquityStoreBaseState;
  _derivedState : option LiquityStoreDerivedState;
  _extraState : option T;
  _updateTimeoutId : option N;
  _listeners : list (N * L);
  timers : list N;
  fresh : N;
}.
Arguments mkStore {T L} _ _ _ _ _ _ _ _.
Arguments _loaded {T L} _.
Arguments _baseState {T L} _.
Arguments _derivedState {T L} _.
Arguments _extraState {T L} _.
Arguments _updateTimeoutId {T L} _.
Arguments _listeners {T L} _.
Arguments timers {T L} _.
Arguments fresh {T L} _.

Section Operations.
Context {BN : BigNumberOps} {T U L : Type} {SC : StoreSubclass T U L}.

Definition newStore : Store T L := mkStore false None None None None [] [] 0.

Definition with_base (b : option LiquityStoreBaseState) (s : Store T L) : Store T L :=
  mkStore (_loaded s) b (_derivedState s) (_extraState s) (_updateTimeoutId s) (_listeners s)
    (timers s) (fresh s).
Definition with_derived (d : option LiquityStoreDerivedState) (s : Store T L) : Store T L :=
  mkStore (_loaded s) (_baseState s) d (_extraState s) (_updateTimeoutId s) (_listeners s)
    (timers s) (fresh s).
Definition with_extra (e : option T) (s : Store T L) : Store T L :=
  mkStore (_loaded s) (_baseState s) (_derivedState s) e (_updateTimeoutId s) (_listeners s)
    (timers s) (fresh s).
Definition with_loaded (s : Store T L) : Store T L :=
  mkStore true (_baseState s) (_derivedState s) (_extraState s) (_updateTimeoutId s)
    (_listeners s) (timers s) (fresh s).
Definition with_timers (id : option N) (ts : list N) (s : Store T L) : Store T L :=
  mkStore (_loaded s) (_baseState s) (_derivedState s) (_extraState s) id (_listeners s) ts
    (fresh s).
Definition with_listeners (l : list (N * L)) (s : Store T L) : Store T L :=
  mkStore (_loaded s) (_baseState s) (_derivedState s) (_extraState s) (_updateTimeoutId s) l
    (timers s) (fresh s).
Definition tick (s : Store T L) : Store T L :=
  mkStore (_loaded s) (_baseState s) (_derivedState s) (_extraState s) (_updateTimeoutId s)
    (_listeners s) (timers s) (fresh s + 1).

(** A new object. *)
Definition alloc {A} (a : A) : St (Store T L) (Obj A) :=
  do! id := st_gets fresh in
  do! _ := st_modify tick in
  st_ret (id, a).

(** [get state()]: [Object.assign] of the three parts. *)
Definition state (s : Store T L) : Entries :=
  (match _baseState s with Some b => baseEntries b | None => [] end) ++
  (match _derivedState s with Some d => derivedEntries d | None => [] end) ++
  (match _extraState s with Some e => extraEntries e | None => [] end).

(** *** The update timer *)

Definition clearTimeout (id : N) (s : Store T L) : Store T L :=
  with_timers (_updateTimeoutId s) (List.filter (fun t => negb (t =? id)%N) (timers s)) s.

Definition _cancelUpdateIfScheduled (s : Store T L) : Store T L :=
  match _updateTimeoutId s with
  | Some id => clearTimeout id s
  | None => s
  end.

Definition _scheduleUpdate (s : Store T L) : Store T L :=
  let s := _cancelUpdateIfScheduled s in
  with_timers (Some (fresh s)) (fresh s :: timers s) (tick s).

(** *** Reducing: keep the previous value unless the next one differs *)

Definition _updateIfChanged {V} (equals : V -> V -> Res bool) (prev : V) (next : option V) :
    Res V :=
  match next with
  | None => Ok prev
  | Some next => let! e := equals prev next in Ok (if (e : bool) then prev else next)
  end.

(** The same, without logging. *)
Definition _silentlyUpdateIfChanged {V} (equals : V -> V -> Res bool) (prev : V)
    (next : option V) : Res V :=
  match next with
  | None => Ok prev
  | Some next => let! e := equals prev next in Ok (if (e : bool) then prev else next)
  end.

Definition _updateFees (prev : Obj Fees.t) (next : option (Obj Fees.t)) : Res (Obj Fees.t) :=
  match next with
  | Some next => let! e := Fees.equals (snd next) (snd prev) in
                 Ok (if (e : bool) then prev else next)
  | None => Ok prev
  end.

(** The comparison functions handed to them. *)
Definition eq (a b : Obj Decimal.t) : Res bool := Decimal.eq (snd a) (Decimal.ofDecimal (snd b)).
Definition strictEqualsZ (a b : Z) : Res bool := Ok (a =? b).
Definition strictEqualsBool (a b : bool) : Res bool := Ok (Bool.eqb a b).
Definition equalsTrove (a b : Obj Trove.t) : Res bool := Trove.equals (snd a) (snd b).
Definition equalsUserTrove (a b : Obj UserTrove.t) : Res bool := UserTrove.equals (snd a) (snd b).
Definition equalsPending (a b : Obj TroveWithPendingRedistribution.t) : Res bool :=
  TroveWithPendingRedistribution.equals (snd a) (snd b).
Definition equalsStability (a b : Obj StabilityDeposit.t) : Res bool :=
  StabilityDeposit.equals (snd a) (snd b).
Definition equalsBamm (a b : Obj BammDeposit.t) : Res bool := BammDeposit.equals (snd a) (snd b).
Definition equalsFees (a b : Obj Fees.t) : Res bool := Fees.equals (snd a) (snd b).

Definition _reduce (baseState : LiquityStoreBaseState) (baseStateUpdate : PartialBaseState) :
    Res LiquityStoreBaseState :=
  let b := baseState in
  let u := baseStateUpdate in
  let! numberOfTroves_ := _updateIfChanged strictEqualsZ (numberOfTroves _ b) (numberOfTroves _ u) in
  let! accountBalance_ := _updateIfChanged eq (accountBalance _ b) (accountBalance _ u) in
  let! thusdBalance_ := _updateIfChanged eq (thusdBalance _ b) (thusdBalance _ u) in
  let! pcvBalance_ := _updateIfChanged eq (pcvBalance _ b) (pcvBalance _ u) in
  let! erc20TokenBalance_ :=
    _updateIfChanged eq (erc20TokenBalance _ b) (erc20TokenBalance _ u) in
  let! erc20TokenAllowance_ :=
    _updateIfChanged eq (erc20TokenAllowance _ b) (erc20TokenAllowance _ u) in
  let! collateralSurplusBalance_ :=
    _updateIfChanged eq (collateralSurplusBalance _ b) (collateralSurplusBalance _ u) in
  let! price_ := _updateIfChanged eq (price _ b) (price _ u) in
  let! marketPrice_ := _updateIfChanged eq (marketPrice _ b) (marketPrice _ u) in
  let! piRedemptionRate_ := _updateIfChanged eq (piRedemptionRate _ b) (piRedemptionRate _ u) in
  let! deviationFactor_ := _updateIfChanged eq (deviationFactor _ b) (deviationFactor _ u) in
  let! thusdInStabilityPool_ :=
    _updateIfChanged eq (thusdInStabilityPool _ b) (thusdInStabilityPool _ u) in
  let! total_ := _updateIfChanged equalsTrove (total _ b) (total _ u) in
  let! totalRedistributed_ :=
    _updateIfChanged equalsTrove (totalRedistributed _ b) (totalRedistributed _ u) in
  let! troveBeforeRedistribution_ := _updateIfChanged equalsPending
    (troveBeforeRedistribution _ b) (troveBeforeRedistribution _ u) in
  let! stabilityDeposit_ :=
    _updateIfChanged equalsStability (stabilityDeposit _ b) (stabilityDeposit _ u) in
  let! bammDeposit_ := _updateIfChanged equalsBamm (bammDeposit _ b) (bammDeposit _ u) in
  let! _feesInNormalMode_ := _silentlyUpdateIfChanged equalsFees
    (_feesInNormalMode _ b) (_feesInNormalMode _ u) in
  let! _riskiestTroveBeforeRedistribution_ := _silentlyUpdateIfChanged equalsPending
    (_riskiestTroveBeforeRedistribution _ b) (_riskiestTroveBeforeRedistribution _ u) in
  Ok (mkBase (fun A => A) numberOfTroves_ accountBalance_ thusdBalance_ erc20TokenBalance_
        erc20TokenAllowance_ (isStabilityPools _ b) (isBorrowerOperations _ b)
        (isTroveManager _ b) collateralSurplusBalance_ price_ marketPrice_ piRedemptionRate_
        deviationFactor_ thusdInStabilityPool_ pcvBalance_ total_ totalRedistributed_
        troveBeforeRedistribution_ (symbol _ b) (collateralAddress _ b) (stableAddress _ b)
        stabilityDeposit_ bammDeposit_ (mintList _ b) _feesInNormalMode_
        _riskiestTroveBeforeRedistribution_).

(** The values of the derived state... *)
Definition deriveValues (b : LiquityStoreBaseState) :
    Res (UserTrove.t * Fees.t * Decimal.t * Decimal.t * bool) :=
  let totalRedistributed := snd (totalRedistributed _ b) in
  let price := Decimal.ofDecimal (snd (price _ b)) in
  let! critical := Trove.collateralRatioIsBelowCritical (snd (total _ b)) price in
  let! fees := Fees._setRecoveryMode (snd (_feesInNormalMode _ b)) critical in
  let! trove := TroveWithPendingRedistribution.applyRedistribution
                  (snd (troveBeforeRedistribution _ b)) totalRedistributed in
  let! borrowingRate := Fees.borrowingRate fees None in
  let! redemptionRate := Fees.redemptionRate fees None None in
  let! riskiest := TroveWithPendingRedistribution.applyRedistribution
                     (snd (_riskiestTroveBeforeRedistribution _ b)) totalRedistributed in
  let! under := Trove.collateralRatioIsBelowMinimum (UserTrove.super riskiest) price in
  Ok (trove, fees, borrowingRate, redemptionRate, under).

(** ... each in an object of its own.  (The rates can be static Decimals such as [Decimal.ZERO]:
    whether two equal rates are one object is never observed, since an equal rate is not
    replaced.) *)
Definition _derive (b : LiquityStoreBaseState) : St (Store T L) LiquityStoreDerivedState :=
  do! '(trove, fees, borrowingRate, redemptionRate, under) := st_lift (deriveValues b) in
  do! trove := alloc trove in
  do! fees := alloc fees in
  do! borrowingRate := alloc borrowingRate in
  do! redemptionRate := alloc redemptionRate in
  st_ret (mkDerived trove fees borrowingRate redemptionRate under).

Definition _reduceDerived (derivedState derivedStateUpdate : LiquityStoreDerivedState) :
    Res LiquityStoreDerivedState :=
  let d := derivedState in
  let u := derivedStateUpdate in
  let! fees_ := _updateFees (fees d) (Some (fees u)) in
  let! trove_ := _updateIfChanged equalsUserTrove (trove d) (Some (trove u)) in
  let! borrowingRate_ := _silentlyUpdateIfChanged eq (borrowingRate d) (Some (borrowingRate u)) in
  let! redemptionRate_ :=
    _silentlyUpdateIfChanged eq (redemptionRate d) (Some (redemptionRate u)) in
  let! under_ := _updateIfChanged strictEqualsBool (haveUndercollateralizedTroves d)
    (Some (haveUndercollateralizedTroves u)) in
  Ok (mkDerived trove_ fees_ borrowingRate_ redemptionRate_ under_).

(** *** Listeners *)

Definition isListener (id : N) (s : Store T L) : bool :=
  existsb (fun e => (fst e =? id)%N) (_listeners s).

(** [subscribe] answers with the identity of the wrapper, which the function it returns removes. *)
Definition subscribe (listener : L) (s : Store T L) : N * Store T L :=
  (fresh s, with_listeners (_listeners s ++ [(fresh s, listener)]) (tick s)).

Definition unsubscribe (uniqueListener : N) (s : Store T L) : Store T L :=
  with_listeners (List.filter (fun e => negb (fst e =? uniqueListener)%N) (_listeners s)) s.

Definition listenerOp (s : Store T L) (op : ListenerOp L) : Store T L :=
  match op with
  | Subscribe l => snd (subscribe l s)
  | Unsubscribe id => unsubscribe id s
  end.

(** The loop of [_notify] over the copy of the listeners; it also yields the listeners called. *)
Fixpoint notify_go (copy : list (N * L)) (params : LiquityStoreListenerParams) (s : Store T L) :
    list N * Store T L :=
  match copy with
  | [] => ([], s)
  | (id, listener) :: rest =>
      if isListener id s then
        let s' := fold_left listenerOp (callListener listener params) s in
        let '(called, s'') := notify_go rest params s' in
        (id :: called, s'')
      else notify_go rest params s
  end.

Definition _notify (params : LiquityStoreListenerParams) (s : Store T L) :
    list N * Store T L :=
  notify_go (_listeners s) params s.

(** *** Loading and updating *)

Definition _load (baseState : LiquityStoreBaseState) (extraState : option T) :
    St (Store T L) unit :=
  do! loaded := st_gets _loaded in
  do! _ := st_lift (assert_ (negb loaded)) in
  do! _ := st_modify (with_base (Some baseState)) in
  do! d := _derive baseState in
  do! _ := st_modify (with_derived (Some d)) in
  do! _ := st_modify (with_extra extraState) in
  do! _ := st_modify with_loaded in
  st_modify _scheduleUpdate.

(** The two conditional assignments of [_update]. *)
Definition updateBase (b : LiquityStoreBaseState) (baseStateUpdate : option PartialBaseState) :
    St (Store T L) LiquityStoreBaseState :=
  match baseStateUpdate with
  | Some u =>
      do! b' := st_lift (_reduce b u) in
      do! _ := st_modify (with_base (Some b')) in
      st_ret b'
  | None => st_ret b
  end.

Definition updateExtra (extraStateUpdate : option U) : St (Store T L) unit :=
  match extraStateUpdate with
  | Some u =>
      do! e := st_gets _extraState in
      match e with
      | Some e => st_modify (with_extra (Some (_reduceExtra e u)))
      | None => st_throw "AssertionError"
      end
  | None => st_ret tt
  end.

(** [_update] yields what it notified the listeners of, and which ones it called. *)
Definition _update (baseStateUpdate : option PartialBaseState) (extraStateUpdate : option U) :
    St (Store T L) (LiquityStoreListenerParams * list N) :=
  do! b := st_gets _baseState in
  do! d := st_gets _derivedState in
  match b, d with
  | Some b, Some d =>
      do! oldState := st_gets state in
      do! b := updateBase b baseStateUpdate in
      do! u := _derive b in
      do! d' := st_lift (_reduceDerived d u) in
      do! _ := st_modify (with_derived (Some d')) in
      do! _ := updateExtra extraStateUpdate in
      do! _ := st_modify _scheduleUpdate in
      do! newState := st_gets state in
      let params := mkParams newState oldState (difference newState oldState) in
      do! s := st_get in
      let '(called, s') := _notify params s in
      do! _ := st_put s' in
      st_ret (params, called)
  | _, _ => st_throw "AssertionError"
  end.

(** The host fires a pending timer. *)
Definition fireTimer (id : N) (s : Store T L) :
    Res (LiquityStoreListenerParams * list N) * Store T L :=
  let s := with_timers None (List.filter (fun t => negb (t =? id)%N) (timers s)) s in
  _update None None s.

(** The store's part of the function [start()] returns. *)
Definition stop (s : Store T L) : Store T L := _cancelUpdateIfScheduled s.

End Operations.
End LiquityStore.
