(* ===== verification/LiquityStoreProperties.v ===== *)
(** * Properties of the data store

    What an update does to each property of the state, what the listeners are told, and the
    invariants of every reachable store. *)

From S2P Require Import Prelude BigNumber Decimals Constants Troves Fees Deposits LiquityStore.

Local Open Scope Z_scope.

Module LiquityStoreFacts.
Import LiquityStore.

(** The value a reduction keeps. *)
Definition upd {V} (same : V -> V -> bool) (prev : V) (next : option V) : V :=
  match next with
  | None => prev
  | Some n => if same prev n then prev else n
  end.

(** Equality of contents. *)
Definition sameValue {A} `{EqDecision A} (a b : Obj A) : bool := bool_decide (snd a = snd b).

Definition bammEquals (a b : BammDeposit.t) : bool :=
  let eq := DecimalFacts.deqb in
  eq (BammDeposit.bammPoolShare a) (BammDeposit.bammPoolShare b) &&
  eq (BammDeposit.poolShare a) (BammDeposit.poolShare b) &&
  eq (BammDeposit.currentUSD a) (BammDeposit.currentUSD b) &&
  eq (BammDeposit.initialTHUSD a) (BammDeposit.initialTHUSD b) &&
  eq (BammDeposit.currentTHUSD a) (BammDeposit.currentTHUSD b) &&
  eq (BammDeposit.collateralGain a) (BammDeposit.collateralGain b) &&
  sameObject (BammDeposit.totalCollateralInBamm a) (BammDeposit.totalCollateralInBamm b) &&
  sameObject (BammDeposit.totalThusdInBamm a) (BammDeposit.totalThusdInBamm b).
Definition sameBamm (a b : Obj BammDeposit.t) : bool := bammEquals (snd a) (snd b).

(** [_reduce] in closed form. *)
Definition treduce (b : LiquityStoreBaseState) (u : PartialBaseState) : LiquityStoreBaseState :=
  mkBase (fun A => A)
    (upd Z.eqb (numberOfTroves _ b) (numberOfTroves _ u))
    (upd sameValue (accountBalance _ b) (accountBalance _ u))
    (upd sameValue (thusdBalance _ b) (thusdBalance _ u))
    (upd sameValue (erc20TokenBalance _ b) (erc20TokenBalance _ u))
    (upd sameValue (erc20TokenAllowance _ b) (erc20TokenAllowance _ u))
    (isStabilityPools _ b) (isBorrowerOperations _ b) (isTroveManager _ b)
    (upd sameValue (collateralSurplusBalance _ b) (collateralSurplusBalance _ u))
    (upd sameValue (price _ b) (price _ u))
    (upd sameValue (marketPrice _ b) (marketPrice _ u))
    (upd sameValue (piRedemptionRate _ b) (piRedemptionRate _ u))
    (upd sameValue (deviationFactor _ b) (deviationFactor _ u))
    (upd sameValue (thusdInStabilityPool _ b) (thusdInStabilityPool _ u))
    (upd sameValue (pcvBalance _ b) (pcvBalance _ u))
    (upd sameValue (total _ b) (total _ u))
    (upd sameValue (totalRedistributed _ b) (totalRedistributed _ u))
    (upd sameValue (troveBeforeRedistribution _ b) (troveBeforeRedistribution _ u))
    (symbol _ b) (collateralAddress _ b) (stableAddress _ b)
    (upd sameValue (stabilityDeposit _ b) (stabilityDeposit _ u))
    (upd sameBamm (bammDeposit _ b) (bammDeposit _ u))
    (mintList _ b)
    (upd sameValue (_feesInNormalMode _ b) (_feesInNormalMode _ u))
    (upd sameValue (_riskiestTroveBeforeRedistribution _ b)
                   (_riskiestTroveBeforeRedistribution _ u)).

Definition treduceDerived (d u : LiquityStoreDerivedState) : LiquityStoreDerivedState :=
  mkDerived (upd sameValue (trove d) (Some (trove u))) (upd sameValue (fees d) (Some (fees u)))
    (upd sameValue (borrowingRate d) (Some (borrowingRate u)))
    (upd sameValue (redemptionRate d) (Some (redemptionRate u)))
    (upd Bool.eqb (haveUndercollateralizedTroves d) (Some (haveUndercollateralizedTroves u))).

(** A value without the identities. *)
Definition contents (v : Value) : Value :=
  match v with
  | VDecimal o => VDecimal (0%N, snd o)
  | VTrove o => VTrove (0%N, snd o)
  | VUserTrove o => VUserTrove (0%N, snd o)
  | VPendingTrove o => VPendingTrove (0%N, snd o)
  | VStabilityDeposit o => VStabilityDeposit (0%N, snd o)
  | VBammDeposit o => VBammDeposit (0%N, snd o)
  | VFees o => VFees (0%N, snd o)
  | _ => v
  end.

(** The values of a derived state. *)
Definition derivedValues (d : LiquityStoreDerivedState) :
    UserTrove.t * Fees.t * Decimal.t * Decimal.t * bool :=
  (snd (trove d), snd (fees d), snd (borrowingRate d), snd (redemptionRate d),
   haveUndercollateralizedTroves d).

Lemma upd_value {A} `{EqDecision A} (p n : Obj A) : snd (upd sameValue p (Some n)) = snd n.
Proof. unfold upd, sameValue. case_bool_decide; done. Qed.

Lemma treduceDerived_values d u : derivedValues (treduceDerived d u) = derivedValues u.
Proof.
  unfold derivedValues, treduceDerived. cbn [trove fees borrowingRate redemptionRate
    haveUndercollateralizedTroves]. rewrite !upd_value. repeat f_equal.
  unfold upd. destruct (haveUndercollateralizedTroves d) eqn:?,
    (haveUndercollateralizedTroves u) eqn:?; done.
Qed.

(** Fees that are usable until the latest block. *)
Definition validFees (f : Fees.t) : Prop := FeesFacts.wf f /\ FeesFacts.minutes f None < 2 ^ 32.
Definition validBase (b : LiquityStoreBaseState) : Prop := validFees (snd (_feesInNormalMode _ b)).
Definition validUpdate (u : PartialBaseState) : Prop :=
  forall f, _feesInNormalMode _ u = Some f -> validFees (snd f).

Section Closed.
Context {BN : BigNumberOps} {BNL : BigNumberLaws BN}.

Lemma updateIfChanged_ok {V} (equals : V -> V -> Res bool) same (p : V) n :
  (forall a b, equals a b = Ok (same a b)) -> _updateIfChanged equals p n = Ok (upd same p n).
Proof. intros H. destruct n; [simpl; by rewrite H | done]. Qed.

Lemma silently_ok {V} (equals : V -> V -> Res bool) same (p : V) n :
  (forall a b, equals a b = Ok (same a b)) ->
  _silentlyUpdateIfChanged equals p n = Ok (upd same p n).
Proof. apply updateIfChanged_ok. Qed.

Lemma eq_same a b : eq a b = Ok (sameValue a b).
Proof.
  unfold eq, sameValue. rewrite DecimalFacts.eq_ok. f_equal.
  pose proof (DecimalFacts.deqb_eq (snd a) (snd b)).
  destruct (DecimalFacts.deqb _ _); case_bool_decide; intuition congruence.
Qed.
Lemma trove_same a b : equalsTrove a b = Ok (sameValue a b).
Proof. apply TroveFacts.equals_decide. Qed.
Lemma user_same a b : equalsUserTrove a b = Ok (sameValue a b).
Proof. apply TroveFacts.user_equals_decide. Qed.
Lemma pending_same a b : equalsPending a b = Ok (sameValue a b).
Proof. apply TroveFacts.pending_equals_decide. Qed.
Lemma stability_same a b : equalsStability a b = Ok (sameValue a b).
Proof. apply DepositFacts.stability_equals_decide. Qed.
Lemma fees_same a b : equalsFees a b = Ok (sameValue a b).
Proof. apply FeesFacts.fees_equals_decide. Qed.
Lemma bamm_same a b : equalsBamm a b = Ok (sameBamm a b).
Proof. unfold equalsBamm, BammDeposit.equals. by rewrite !DecimalFacts.eq_ok. Qed.

Lemma strictZ_same a b : strictEqualsZ a b = Ok (Z.eqb a b).
Proof. done. Qed.
Lemma strictBool_same a b : strictEqualsBool a b = Ok (Bool.eqb a b).
Proof. done. Qed.

Lemma updateFees_ok p n : _updateFees p (Some n) = Ok (upd sameValue p (Some n)).
Proof.
  unfold _updateFees, upd, sameValue. rewrite FeesFacts.fees_equals_decide. cbn [res_bind].
  repeat case_bool_decide; congruence.
Qed.

Lemma reduce_ok b u : _reduce b u = Ok (treduce b u).
Proof.
  unfold _reduce.
  repeat (erewrite updateIfChanged_ok by
    (first [apply strictZ_same | apply eq_same | apply trove_same | apply pending_same | apply stability_same
           | apply bamm_same]); cbn [res_bind]).
  repeat (erewrite silently_ok by (first [apply fees_same | apply pending_same]);
    cbn [res_bind]).
  done.
Qed.

Lemma reduceDerived_ok d u : _reduceDerived d u = Ok (treduceDerived d u).
Proof.
  unfold _reduceDerived. rewrite updateFees_ok. cbn [res_bind].
  repeat (erewrite updateIfChanged_ok by (first [apply user_same | apply strictBool_same]); cbn [res_bind]).
  repeat (erewrite silently_ok by apply eq_same; cbn [res_bind]).
  by erewrite updateIfChanged_ok by apply strictBool_same.
Qed.

Lemma deriveValues_ok b : validBase b -> exists v, deriveValues b = Ok v.
Proof.
  intros [Hw Hm]. unfold deriveValues, Trove.collateralRatioIsBelowCritical,
    Trove.collateralRatioIsBelowMinimum.
  rewrite TroveFacts.collateralRatio_ok. cbn [res_bind]. rewrite DecimalFacts.lt_ok.
  cbn [res_bind]. rewrite FeesFacts.setRecoveryMode_ok by done. cbn [res_bind].
  unfold TroveWithPendingRedistribution.applyRedistribution.
  rewrite !TroveFacts.subtract_ok. cbn [res_bind]. rewrite !TroveFacts.multiply_ok.
  cbn [res_bind]. rewrite !TroveFacts.tadd_ok. cbn [res_bind].
  rewrite FeesFacts.borrowingRate_ok by (right; exact Hm). cbn [res_bind].
  rewrite FeesFacts.redemptionRate_default, FeesFacts.redemptionRate_ok by exact Hm.
  cbn [res_bind]. rewrite TroveFacts.collateralRatio_ok. cbn [res_bind].
  rewrite DecimalFacts.lt_ok. cbn [res_bind]. by eexists.
Qed.

Lemma treduce_valid b u : validBase b -> validUpdate u -> validBase (treduce b u).
Proof.
  unfold validBase, validUpdate, treduce. cbn [_feesInNormalMode]. unfold upd. intros Hb Hu.
  destruct (_feesInNormalMode _ u) as [f|]; [|done]. destruct (sameValue _ _); auto.
Qed.

End Closed.

(** ** Stores *)
Section Stores.
Context {BN : BigNumberOps} {BNL : BigNumberLaws BN} {T U L : Type} {SC : StoreSubclass T U L}.
Implicit Types s : Store T L.

(** At most one update is scheduled, and it is the one the store remembers. *)
Definition timersOk s : Prop :=
  timers s = [] \/ exists id, _updateTimeoutId s = Some id /\ timers s = [id].

Definition derivedBelow (n : N) (d : LiquityStoreDerivedState) : Prop :=
  (fst (trove d) < n /\ fst (fees d) < n /\ fst (borrowingRate d) < n /\
   fst (redemptionRate d) < n)%N.
Definition derivedAbove (n : N) (d : LiquityStoreDerivedState) : Prop :=
  (n <= fst (trove d) /\ n <= fst (fees d) /\ n <= fst (borrowingRate d) /\
   n <= fst (redemptionRate d))%N.

Definition coreOk s : Prop :=
  match _baseState s, _derivedState s with
  | Some b, Some d => _loaded s = true /\ validBase b /\
      deriveValues b = Ok (derivedValues d) /\ derivedBelow (fresh s) d
  | None, None => _loaded s = false
  | _, _ => False
  end.

Definition storeOk s : Prop := coreOk s /\ timersOk s.

Lemma derive_ok b v s :
  deriveValues b = Ok v ->
  exists d s', _derive b s = (Ok d, s') /\ derivedValues d = v /\
    derivedAbove (fresh s) d /\ derivedBelow (fresh s') d /\ (fresh s <= fresh s')%N /\
    s' = mkStore (_loaded s) (_baseState s) (_derivedState s) (_extraState s)
           (_updateTimeoutId s) (_listeners s) (timers s) (fresh s').
Proof.
  intros Hv. destruct v as [ [ [ [t f] br] rr] un].
  exists (mkDerived (fresh s, t) (fresh s + 1, f)%N (fresh s + 1 + 1, br)%N
            (fresh s + 1 + 1 + 1, rr)%N un).
  eexists. split; [unfold _derive, st_lift, st_bind; rewrite Hv; reflexivity|].
  split; [done|]. cbn. unfold derivedAbove, derivedBelow. cbn.
  split; [lia|]. split; [lia|]. split; [lia|done].
Qed.

Lemma schedule_fields s :
  let s' := _scheduleUpdate s in
  _loaded s' = _loaded s /\ _baseState s' = _baseState s /\ _derivedState s' = _derivedState s /\
  _extraState s' = _extraState s /\ _listeners s' = _listeners s /\ fresh s' = (fresh s + 1)%N /\
  _updateTimeoutId s' = Some (fresh s) /\
  (timersOk s -> timers s' = [fresh s]).
Proof.
  unfold _scheduleUpdate, _cancelUpdateIfScheduled.
  destruct (_updateTimeoutId s) as [id|] eqn:Eid; cbn; do 7 (split; [done|]).
  - intros [->|(i & Hi & ->)]; [done|]. rewrite Eid in Hi. injection Hi as ->. cbn.
    by rewrite N.eqb_refl.
  - intros [->|(i & Hi & _)]; [done|congruence].
Qed.

Lemma treduceDerived_below n d u :
  derivedBelow n d -> derivedBelow n u -> derivedBelow n (treduceDerived d u).
Proof.
  unfold derivedBelow, treduceDerived, upd. cbn. intros (?&?&?&?) (?&?&?&?).
  repeat (destruct (sameValue _ _)); auto.
Qed.

Lemma derivedBelow_mono n m d : (n <= m)%N -> derivedBelow n d -> derivedBelow m d.
Proof. unfold derivedBelow. lia. Qed.

(** What [_update] has done when it comes to notifying the listeners, and its result. *)
Lemma update_ok s b d (u : option PartialBaseState) (x : option U) v :
  let b' := match u with Some u => treduce b u | None => b end in
  _baseState s = Some b -> _derivedState s = Some d -> deriveValues b' = Ok v ->
  (forall e, x = Some e -> _extraState s <> None) ->
  exists d' s1 called s2,
    let params := mkParams (state s1) (state s) (difference (state s1) (state s)) in
    _update u x s = (Ok (params, called), s2) /\ _notify params s1 = (called, s2) /\
    derivedValues d' = v /\ derivedAbove (fresh s) d' /\ derivedBelow (fresh s1) d' /\
    (fresh s <= fresh s1)%N /\
    _loaded s1 = _loaded s /\ _baseState s1 = Some b' /\
    _derivedState s1 = Some (treduceDerived d d') /\ _listeners s1 = _listeners s /\
    (exists id, _updateTimeoutId s1 = Some id /\ (timersOk s -> timers s1 = [id])) /\
    _extraState s1 = (match x, _extraState s with
                      | Some x, Some e => Some (_reduceExtra e x)
                      | _, e => e
                      end).
Proof.
  intros b' Hb Hd Hv Hx.
  destruct (derive_ok b' v (with_base (Some b') s) Hv)
    as (d' & s0 & Hderive & Hdv & Habove & Hbelow & Hfresh & Hs0).
  set (s0' := with_derived (Some (treduceDerived d d')) s0).
  set (e' := match x, _extraState s with
             | Some x, Some e => Some (_reduceExtra e x) | _, e => e end).
  set (s1 := _scheduleUpdate (with_extra e' s0')).
  destruct (schedule_fields (with_extra e' s0')) as (H1 & H2 & H3 & H4 & H5 & H6 & H7 & H8).
  fold s1 in H1, H2, H3, H4, H5, H6, H7, H8.
  destruct (_notify (mkParams (state s1) (state s) (difference (state s1) (state s))) s1)
    as [called s2] eqn:Hn.
  exists d', s1, called, s2. cbn zeta. split; [|].
  - assert (with_base (Some b) s = s) as Hsame by (clear -Hb; destruct s; cbn in Hb; by subst).
    assert (_extraState s0' = _extraState s) as Hex by (unfold s0'; rewrite Hs0; done).
    assert (updateExtra x s0' = (Ok tt, with_extra e' s0')) as Hextra.
    { unfold e', updateExtra. destruct x as [x|].
      - erewrite st_bind_Ok by reflexivity. rewrite Hex.
        destruct (_extraState s) as [e|] eqn:Ee; [done|]. exfalso. by apply (Hx x).
      - unfold st_ret. f_equal. rewrite <- Hex. by destruct s0'. }
    unfold _update. do 2 (erewrite st_bind_Ok by reflexivity). rewrite Hb, Hd.
    erewrite st_bind_Ok by reflexivity.
    rewrite (st_bind_Ok _ _ s b' (with_base (Some b') s)).
    2: { subst b'. unfold updateBase. destruct u; [|by rewrite Hsame].
         unfold st_lift, st_bind. by rewrite reduce_ok. }
    rewrite (st_bind_Ok _ _ _ _ _ Hderive).
    rewrite (st_bind_Ok _ _ s0 (treduceDerived d d') s0)
      by (unfold st_lift; by rewrite reduceDerived_ok).
    rewrite (st_bind_Ok _ _ s0 tt s0') by reflexivity.
    rewrite (st_bind_Ok _ _ _ _ _ Hextra).
    rewrite (st_bind_Ok _ _ _ tt s1) by reflexivity.
    do 2 (erewrite st_bind_Ok by reflexivity). by rewrite Hn.
  - split; [done|]. split; [done|]. split; [done|].
    assert (fresh s1 = fresh s0 + 1)%N as Hf1 by (rewrite H6; unfold s0'; done).
    split; [unfold derivedBelow in *; rewrite Hf1; cbn in *; lia|].
    cbn in Hfresh. split; [lia|]. rewrite H1, H2, H3, H4, H5. unfold s0'. rewrite Hs0. cbn.
    do 4 (split; [done|]). split; [|done]. eexists; split; [exact H7|].
    intros Ht. apply H8. unfold s0'. rewrite Hs0. exact Ht.
Qed.

(** Listeners can only change the set of listeners. *)
Definition sameCore s s' : Prop :=
  _loaded s' = _loaded s /\ _baseState s' = _baseState s /\ _derivedState s' = _derivedState s /\
  _extraState s' = _extraState s /\ _updateTimeoutId s' = _updateTimeoutId s /\
  timers s' = timers s /\ (fresh s <= fresh s')%N.

Lemma sameCore_refl s : sameCore s s.
Proof. unfold sameCore. repeat split; lia. Qed.

Lemma sameCore_trans s1 s2 s3 : sameCore s1 s2 -> sameCore s2 s3 -> sameCore s1 s3.
Proof. unfold sameCore. intuition (congruence || lia). Qed.

Lemma listenerOp_core s op : sameCore s (listenerOp s op).
Proof. destruct op; unfold sameCore; cbn; repeat split; lia. Qed.

Lemma listenerOps_core ops s : sameCore s (fold_left listenerOp ops s).
Proof.
  revert s; induction ops as [|op ops IH]; intros s; [apply sameCore_refl|].
  eapply sameCore_trans; [apply listenerOp_core | apply IH].
Qed.

Lemma notify_go_core copy p s called s' :
  notify_go copy p s = (called, s') -> sameCore s s'.
Proof.
  revert s called; induction copy as [|(id, l) copy IH]; cbn [notify_go]; intros s called H.
  - injection H as <- <-. apply sameCore_refl.
  - destruct (isListener id s); [|by eapply IH].
    destruct (notify_go copy p _) as [c s''] eqn:E. injection H as <- <-.
    eapply sameCore_trans; [apply listenerOps_core | by eapply IH].
Qed.

Lemma sameCore_ok s s' : sameCore s s' -> storeOk s -> storeOk s'.
Proof.
  intros (H1 & H2 & H3 & H4 & H5 & H6 & H7) [Hc Ht]. split.
  - unfold coreOk in *. rewrite H1, H2, H3. destruct (_baseState s), (_derivedState s); try done.
    destruct Hc as (Hl & Hb & Hd & Hbelow). do 3 (split; [done|]).
    by eapply derivedBelow_mono.
  - unfold timersOk in *. by rewrite H5, H6.
Qed.

(** A base state whose values derive keeps deriving after a valid update. *)
Definition updated (u : option PartialBaseState) (b : LiquityStoreBaseState) :
    LiquityStoreBaseState :=
  match u with Some u => treduce b u | None => b end.

Definition validOption (u : option PartialBaseState) : Prop :=
  forall u', u = Some u' -> validUpdate u'.

Lemma updated_valid u b : validBase b -> validOption u -> validBase (updated u b).
Proof. intros Hb Hu. destruct u as [u|]; [|done]. apply treduce_valid; [done|]. by apply Hu. Qed.

Lemma update_preserves s (u : option PartialBaseState) (x : option U) :
  storeOk s -> validOption u -> (forall e, x = Some e -> _extraState s <> None) ->
  storeOk (snd (_update u x s)).
Proof.
  intros [Hc Ht] Hu Hx. unfold coreOk in Hc.
  destruct (_baseState s) as [b|] eqn:Hb, (_derivedState s) as [d|] eqn:Hd; try done.
  2: { unfold _update, st_gets, st_bind. rewrite Hb. split; [|done].
       unfold coreOk. cbn. by rewrite Hb, Hd. }
  destruct Hc as (Hl & Hvb & Hdv & Hbelow).
  destruct (deriveValues_ok (updated u b) (updated_valid u b Hvb Hu)) as [v Hv].
  destruct (update_ok s b d u x v Hb Hd Hv Hx)
    as (d' & s1 & called & s2 & Hup & Hn & Hd'v & Hab & Hbe & Hfr & H1 & H2 & H3 & _ & H4 & _).
  rewrite Hup. cbn [snd]. apply notify_go_core in Hn. apply (sameCore_ok _ _ Hn). split.
  - unfold coreOk. rewrite H2, H3. rewrite H1. split; [done|].
    split; [by apply updated_valid|]. split.
    + rewrite treduceDerived_values, Hd'v. exact Hv.
    + apply treduceDerived_below; [|done]. eapply derivedBelow_mono; done.
  - destruct H4 as (id & Hid & Hts). right. exists id. auto.
Qed.

Lemma load_ok s b (e : option T) :
  _loaded s = false -> validBase b ->
  exists d s', _load b e s = (Ok tt, s') /\ _loaded s' = true /\ _baseState s' = Some b /\
    _derivedState s' = Some d /\ deriveValues b = Ok (derivedValues d) /\
    derivedBelow (fresh s') d /\ _extraState s' = e /\ _listeners s' = _listeners s /\
    (fresh s <= fresh s')%N /\
    exists id, _updateTimeoutId s' = Some id /\ (timersOk s -> timers s' = [id]).
Proof.
  intros Hl Hb. destruct (deriveValues_ok b Hb) as [v Hv].
  destruct (derive_ok b v (with_base (Some b) s) Hv)
    as (d & s0 & Hderive & Hdv & _ & Hbelow & Hfr & Hs0).
  set (s1 := with_loaded (with_extra e (with_derived (Some d) s0))).
  exists d, (_scheduleUpdate s1). destruct (schedule_fields s1) as (H1 & H2 & H3 & H4 & H5 & H6 & H7 & H8).
  split.
  - unfold _load. erewrite st_bind_Ok by reflexivity. rewrite Hl.
    do 2 (erewrite st_bind_Ok by reflexivity). rewrite (st_bind_Ok _ _ _ _ _ Hderive).
    do 3 (erewrite st_bind_Ok by reflexivity). reflexivity.
  - assert (_loaded s1 = true /\ _baseState s1 = Some b /\ _derivedState s1 = Some d /\
      _extraState s1 = e /\ _listeners s1 = _listeners s /\ fresh s1 = fresh s0 /\
      _updateTimeoutId s1 = _updateTimeoutId s /\ timers s1 = timers s)
      as (E1 & E2 & E3 & E4 & E5 & E6 & E7 & E8) by (unfold s1; rewrite Hs0; done).
    rewrite H1, H2, H3, H4, H5, H6, E1, E2, E3, E4, E5, E6. do 3 (split; [done|]).
    split; [congruence|]. split; [eapply derivedBelow_mono; [|done]; lia|].
    do 2 (split; [done|]). split; [cbn in Hfr; lia|].
    eexists; split; [exact H7|]. intros Ht. rewrite H8; [done|].
    unfold timersOk in *. by rewrite E7, E8.
Qed.

(** ** Reachable stores *)

Inductive step : Store T L -> Store T L -> Prop :=
| step_load b e s : validBase b -> step s (snd (_load b e s))
| step_update u x s :
    validOption u -> (forall e, x = Some e -> _extraState s <> None) ->
    step s (snd (_update u x s))
| step_timer id s : In id (timers s) -> step s (snd (fireTimer id s))
| step_subscribe l s : step s (snd (subscribe l s))
| step_unsubscribe id s : step s (unsubscribe id s)
| step_stop s : step s (stop s).

Definition reachable s : Prop := rtc step newStore s.

Lemma step_ok s s' : step s s' -> storeOk s -> storeOk s'.
Proof.
  intros Hs Hok. pose proof Hok as [Hc Ht]. destruct Hs as [b e s Hb|u x s Hu Hx|id s Hin|l s|id s|s].
  - destruct (_loaded s) eqn:Hl.
    { unfold _load, st_bind, st_gets, st_lift. by rewrite Hl. }
    destruct (load_ok s b e Hl Hb) as (d & s' & -> & H1 & H2 & H3 & H4 & H5 & _ & _ & _ & id & Hi & Hts).
    cbn [snd]. split; [unfold coreOk; by rewrite H1, H2, H3 | right; exists id; auto].
  - by apply update_preserves.
  - unfold fireTimer. apply update_preserves; [|intros ?; congruence|congruence].
    split; [exact Hc|]. left. cbn. destruct Ht as [->|(i & _ & Hi)]; [done|].
    rewrite Hi in Hin |- *. destruct Hin as [->|[]]. cbn. by rewrite N.eqb_refl.
  - eapply sameCore_ok; [|done]. apply (listenerOp_core s (Subscribe l)).
  - eapply sameCore_ok; [|done]. apply (listenerOp_core s (Unsubscribe id)).
  - unfold stop, _cancelUpdateIfScheduled. destruct (_updateTimeoutId s) as [id|] eqn:Eid; [|done].
    split; [exact Hc|]. left. cbn. destruct Ht as [->|(i & Hi' & Hi)]; [done|].
    rewrite Hi. cbn. assert (i = id) as -> by congruence. by rewrite N.eqb_refl.
Qed.

Lemma reachable_ok s : reachable s -> storeOk s.
Proof.
  intros H. assert (forall s1 s2, rtc step s1 s2 -> storeOk s1 -> storeOk s2) as Hind.
  { induction 1; eauto using step_ok. }
  eapply Hind; [exact H|]. split; [done | by left].
Qed.

(** ** Listeners *)

Definition unsubscribes (id : N) (ops : list (ListenerOp L)) : bool :=
  existsb (fun op => match op with Unsubscribe i => (i =? id)%N | Subscribe _ => false end) ops.

Lemma unsubscribes_In id ops : unsubscribes id ops = true <-> In (Unsubscribe id) ops.
Proof.
  unfold unsubscribes. rewrite existsb_exists. split.
  - intros ([l|i] & Hin & H); [done|]. apply N.eqb_eq in H as ->. done.
  - intros H. eexists; split; [exact H|]. apply N.eqb_refl.
Qed.

Lemma isListener_In id s : isListener id s = true <-> In id (map fst (_listeners s)).
Proof.
  unfold isListener. rewrite existsb_exists, in_map_iff. split.
  - intros ([i l] & Hin & H). apply N.eqb_eq in H. by exists (i, l).
  - intros ([i l] & H & Hin). exists (i, l). split; [done|]. by apply N.eqb_eq.
Qed.

Lemma isListener_unsubscribe i id s :
  isListener id (unsubscribe i s) = isListener id s && negb (i =? id)%N.
Proof.
  unfold isListener, unsubscribe. cbn. induction (_listeners s) as [|[j l] ls IH]; [done|]. cbn.
  destruct (N.eqb_spec j i) as [->|Hj]; cbn; rewrite IH.
  - destruct (N.eqb_spec i id); cbn; by rewrite ?andb_false_r.
  - destruct (N.eqb_spec j id) as [->|]; cbn; [|done].
    rewrite (proj2 (N.eqb_neq _ _)) by congruence. done.
Qed.

(** Running a listener removes the listeners it unregisters, and only those, from the ones there
    already are. *)
Lemma isListener_ops id ops s :
  (id < fresh s)%N ->
  isListener id (fold_left listenerOp ops s) = isListener id s && negb (unsubscribes id ops) /\
  (id < fresh (fold_left listenerOp ops s))%N.
Proof.
  revert s; induction ops as [|op ops IH]; intros s Hid; cbn.
  - by rewrite andb_true_r.
  - destruct (IH (listenerOp s op)) as [-> ?].
    { destruct op; cbn; lia. }
    split; [|done]. destruct op as [l|i]; cbn [listenerOp subscribe snd].
    + cbn [orb]. f_equal. unfold isListener. cbn. rewrite existsb_app. cbn.
      rewrite (proj2 (N.eqb_neq _ _)) by lia. by rewrite !orb_false_r.
    + rewrite isListener_unsubscribe. by rewrite negb_orb, andb_assoc.
Qed.

(** The calls [notify_go] makes. *)
Lemma notify_go_calls copy p s called s' :
  (forall id l, In (id, l) copy -> (id < fresh s)%N) ->
  notify_go copy p s = (called, s') ->
  sublist called (map fst copy) /\
  (forall id, (id < fresh s)%N -> isListener id s = false -> ~ In id called) /\
  (forall id, In id (map fst copy) -> isListener id s = true -> ~ In id called ->
     exists k l, In k called /\ In (k, l) copy /\ In (Unsubscribe id) (callListener l p)) /\
  (forall pre k post id, called = pre ++ k :: post -> (id < fresh s)%N ->
     (forall l, In (k, l) copy -> In (Unsubscribe id) (callListener l p)) -> ~ In id post).
Proof.
  revert s called; induction copy as [|[i l] copy IH]; cbn [notify_go]; intros s called Hlt H.
  { injection H as <- <-. split; [constructor|]. split; [intros ? ? ? []|].
    split; [intros ? []|]. intros [] ? ? ? [=]. }
  assert (forall id l0, In (id, l0) copy -> (id < fresh s)%N) as Hlt'
    by (intros; eapply Hlt; by right).
  destruct (isListener i s) eqn:Hi.
  2: { destruct (IH s called Hlt' H) as (H1 & H2 & H3 & H4). split; [by constructor|].
       split; [done|]. split.
       - intros id [<-|Hin] Hl Hn; [cbn in Hl; congruence|].
         destruct (H3 id Hin Hl Hn) as (k & l0 & ? & ? & ?). exists k, l0. auto with datatypes.
       - intros pre k post id Hc Hid Hk. apply (H4 pre k post id Hc Hid). auto with datatypes. }
  set (s1 := fold_left listenerOp (callListener l p) s) in *.
  destruct (notify_go copy p s1) as [called' s''] eqn:E. injection H as <- <-.
  pose proof (fun id Hid => isListener_ops id (callListener l p) s Hid) as Hops. fold s1 in Hops.
  destruct (IH s1 called') as (H1 & H2 & H3 & H4); [|done|].
  { intros id l0 Hin. apply Hops. by eapply Hlt'. }
  split; [by constructor|]. split; [|split].
  - intros id Hid Hl [<-|Hin]; [congruence|]. revert Hin. apply H2; [by apply Hops|].
    by rewrite (proj1 (Hops id Hid)), Hl.
  - intros id Hin Hl Hn. destruct Hin as [<-|Hin]; [exfalso; apply Hn; by left|].
    assert (id < fresh s)%N as Hid.
    { apply in_map_iff in Hin as ([j l0] & <- & Hin). by eapply Hlt'. }
    destruct (unsubscribes id (callListener l p)) eqn:Hu.
    + exists i, l. apply unsubscribes_In in Hu. auto with datatypes.
    + destruct (H3 id Hin) as (k & l0 & ? & ? & ?).
      * by rewrite (proj1 (Hops id Hid)), Hl, Hu.
      * intros Hc. apply Hn. by right.
      * exists k, l0. auto with datatypes.
  - intros [|j pre] k post id Hc Hid Hk; injection Hc as -> ->.
    + apply H2; [by apply Hops|]. rewrite (proj1 (Hops id Hid)).
      rewrite (proj2 (unsubscribes_In id _)); [by rewrite andb_false_r|]. apply Hk. by left.
    + apply (H4 pre k post id eq_refl); [by apply Hops|]. auto with datatypes.
Qed.

(** Wrappers have identities of their own. *)
Definition listenersOk s : Prop :=
  NoDup (map fst (_listeners s)) /\ (forall id, In id (map fst (_listeners s)) -> (id < fresh s)%N).

Lemma listenersOk_weaken s s' :
  _listeners s' = _listeners s -> (fresh s <= fresh s')%N -> listenersOk s -> listenersOk s'.
Proof.
  intros Hl Hf [H1 H2]. unfold listenersOk. rewrite Hl. split; [done|].
  intros id Hin. specialize (H2 id Hin). lia.
Qed.

Lemma listenerOp_ok op s : listenersOk s -> listenersOk (listenerOp s op).
Proof.
  intros [H1 H2]. destruct op as [l|i]; unfold listenersOk; cbn.
  - rewrite map_app. cbn. split.
    + apply NoDup_app. split; [done|]. split; [|apply NoDup_singleton].
      intros id Hin%list_elem_of_In Hid%list_elem_of_singleton. specialize (H2 id Hin). lia.
    + intros id Hin. apply in_app_or in Hin as [Hin|[<-|[]]]; [specialize (H2 id Hin)|]; lia.
  - split.
    + clear H2. induction (_listeners s) as [|[j l] ls IH]; [done|]. cbn in *.
      apply NoDup_cons in H1 as [Hj H1]. destruct (negb (j =? i)%N); cbn; [|auto].
      apply NoDup_cons. split; [|auto]. rewrite list_elem_of_In in *. contradict Hj.
      apply in_map_iff in Hj as (e & <- & He). apply filter_In in He as [He _]. by apply in_map.
    + intros id Hin. apply H2. apply in_map_iff in Hin as (e & <- & He).
      apply filter_In in He as [He _]. by apply in_map.
Qed.

Lemma notify_go_ok copy p s called s' :
  notify_go copy p s = (called, s') -> listenersOk s -> listenersOk s'.
Proof.
  assert (forall ops s, listenersOk s -> listenersOk (fold_left listenerOp ops s)) as Hops.
  { intros ops; induction ops as [|op ops IH]; cbn; auto using listenerOp_ok. }
  revert s called; induction copy as [|(id, l) copy IH]; cbn [notify_go]; intros s called H Hs.
  - by injection H as <- <-.
  - destruct (isListener id s); [|by eapply IH].
    destruct (notify_go copy p _) as [c s''] eqn:E. injection H as <- <-. eauto.
Qed.

Lemma update_listeners s (u : option PartialBaseState) (x : option U) :
  storeOk s -> validOption u -> (forall e, x = Some e -> _extraState s <> None) ->
  listenersOk s -> listenersOk (snd (_update u x s)).
Proof.
  intros [Hc Ht] Hu Hx Hl. unfold coreOk in Hc.
  destruct (_baseState s) as [b|] eqn:Hb, (_derivedState s) as [d|] eqn:Hd; try done.
  2: { unfold _update, st_gets, st_bind. by rewrite Hb. }
  destruct Hc as (_ & Hvb & _ & _).
  destruct (deriveValues_ok (updated u b) (updated_valid u b Hvb Hu)) as [v Hv].
  destruct (update_ok s b d u x v Hb Hd Hv Hx)
    as (d' & s1 & called & s2 & -> & Hn & _ & _ & _ & Hfr & _ & _ & _ & H3 & _).
  cbn [snd]. eapply notify_go_ok; [exact Hn|]. by eapply listenersOk_weaken.
Qed.

Lemma step_listeners s s' : step s s' -> storeOk s -> listenersOk s -> listenersOk s'.
Proof.
  intros Hs Hok Hl. destruct Hs as [b e s Hb|u x s Hu Hx|id s Hin|l s|id s|s].
  - destruct (_loaded s) eqn:Hld.
    { unfold _load, st_bind, st_gets, st_lift. by rewrite Hld. }
    destruct (load_ok s b e Hld Hb) as (d & s' & -> & _ & _ & _ & _ & _ & _ & H & Hf & _).
    by eapply listenersOk_weaken.
  - by apply update_listeners.
  - unfold fireTimer. pose proof Hok as [Hc Ht].
    apply update_listeners; [|intros ?; congruence|congruence|done].
    split; [exact Hc|]. left. cbn. destruct Ht as [->|(i & _ & Hi)]; [done|].
    rewrite Hi in Hin |- *. destruct Hin as [->|[]]. cbn. by rewrite N.eqb_refl.
  - by apply (listenerOp_ok (Subscribe l)).
  - by apply (listenerOp_ok (Unsubscribe id)).
  - eapply listenersOk_weaken; [| |done]; unfold stop, _cancelUpdateIfScheduled;
      by destruct (_updateTimeoutId s).
Qed.

Lemma reachable_listeners s : reachable s -> listenersOk s.
Proof.
  intros H. assert (forall s1 s2, rtc step s1 s2 -> storeOk s1 -> listenersOk s1 ->
    listenersOk s2) as Hind.
  { induction 1; eauto using step_ok, step_listeners. }
  eapply Hind; [exact H| |].
  - split; [done | by left].
  - split; [apply NoDup_nil_2 | intros id []].
Qed.

End Stores.
End LiquityStoreFacts.

(** ** The properties *)
Module LiquityStoreProperties.
Import LiquityStore LiquityStoreFacts.

(** An update as a list of optional values, in the order of [baseEntries]. *)
Definition partialEntries (u : PartialBaseState) : list (string * option Value) :=
  [("numberOfTroves", VNumber <$> numberOfTroves _ u);
   ("accountBalance", VDecimal <$> accountBalance _ u);
   ("thusdBalance", VDecimal <$> thusdBalance _ u);
   ("erc20TokenBalance", VDecimal <$> erc20TokenBalance _ u);
   ("erc20TokenAllowance", VDecimal <$> erc20TokenAllowance _ u);
   ("isStabilityPools", VBool <$> isStabilityPools _ u);
   ("isBorrowerOperations", VBool <$> isBorrowerOperations _ u);
   ("isTroveManager", VBool <$> isTroveManager _ u);
   ("collateralSurplusBalance", VDecimal <$> collateralSurplusBalance _ u);
   ("price", VDecimal <$> price _ u);
   ("marketPrice", VDecimal <$> marketPrice _ u);
   ("piRedemptionRate", VDecimal <$> piRedemptionRate _ u);
   ("deviationFactor", VDecimal <$> deviationFactor _ u);
   ("thusdInStabilityPool", VDecimal <$> thusdInStabilityPool _ u);
   ("pcvBalance", VDecimal <$> pcvBalance _ u);
   ("total", VTrove <$> total _ u);
   ("totalRedistributed", VTrove <$> totalRedistributed _ u);
   ("troveBeforeRedistribution", VPendingTrove <$> troveBeforeRedistribution _ u);
   ("symbol", VString <$> symbol _ u);
   ("collateralAddress", VString <$> collateralAddress _ u);
   ("stableAddress", VString <$> stableAddress _ u);
   ("stabilityDeposit", VStabilityDeposit <$> stabilityDeposit _ u);
   ("bammDeposit", VBammDeposit <$> bammDeposit _ u);
   ("mintList", VBool <$> mintList _ u);
   ("_feesInNormalMode", VFees <$> _feesInNormalMode _ u);
   ("_riskiestTroveBeforeRedistribution",
      VPendingTrove <$> _riskiestTroveBeforeRedistribution _ u)].

(** The properties no update touches. *)
Definition frozen (k : string) : bool :=
  existsb (String.eqb k) ["isStabilityPools"; "isBorrowerOperations"; "isTroveManager"; "symbol";
    "collateralAddress"; "stableAddress"; "mintList"].

(** The objects of [u] that are objects of [b] have their contents (objects do not change). *)
Definition coherent (b : LiquityStoreBaseState) (u : PartialBaseState) : Prop :=
  forall k v old, property (partialEntries u) k = Some (Some v) ->
    property (baseEntries b) k = Some old -> strictEquals v old = true -> contents v = contents old.

(** Whether strict equality sees the difference between two values. *)
Definition seen (old new : Value) : Prop :=
  strictEquals new old = true <-> contents new = contents old.

Lemma strictEquals_refl v : strictEquals v v = true.
Proof.
  destruct v; cbn; unfold sameObject; auto using Z.eqb_refl, Bool.eqb_reflx, String.eqb_refl,
    N.eqb_refl.
Qed.

Lemma upd_seen {A} `{EqDecision A} (C : Obj A -> Value) (p : Obj A) (n : option (Obj A)) :
  (forall x y, contents (C x) = contents (C y) <-> snd x = snd y) ->
  (forall v, n = Some v -> strictEquals (C v) (C p) = true -> contents (C v) = contents (C p)) ->
  seen (C p) (C (upd sameValue p n)).
Proof.
  intros Hc Hn. unfold upd, seen, sameValue. destruct n as [n|].
  - case_bool_decide as Hs; [by rewrite strictEquals_refl|]. split; [by apply Hn|].
    intros E%Hc. congruence.
  - by rewrite strictEquals_refl.
Qed.

Lemma upd_kept {A} `{EqDecision A} (C : Obj A -> Value) (p : Obj A) (n : option (Obj A)) :
  (forall x y, contents (C x) = contents (C y) <-> snd x = snd y) ->
  match C <$> n with
  | None => C (upd sameValue p n) = C p
  | Some v => contents (C (upd sameValue p n)) = contents v /\
              (contents v = contents (C p) -> C (upd sameValue p n) = C p)
  end.
Proof.
  intros Hc. destruct n as [n|]; [|done]. cbn. split.
  - apply Hc. apply upd_value.
  - intros E%Hc. unfold upd, sameValue. by rewrite bool_decide_true.
Qed.

Section Properties.
Context {BN : BigNumberOps} {BNL : BigNumberLaws BN} {T U L : Type} {SC : StoreSubclass T U L}.
Implicit Types s : Store T L.

(** What an update does to each property of the base state.  A property the update leaves out
    keeps its object; one it gives has the new contents afterwards, and keeps its object when the
    contents are the same (the B.AMM deposit apart); seven properties keep their value whatever
    the update gives for them. *)
Theorem reduce_updates (b : LiquityStoreBaseState) (u : PartialBaseState) :
  exists b', _reduce b u = Ok b' /\
    forall k v, In (k, v) (partialEntries u) ->
    exists old new, property (baseEntries b) k = Some old /\
      property (baseEntries b') k = Some new /\
      (frozen k = true -> new = old) /\
      (frozen k = false -> match v with
         | None => new = old
         | Some v => k = "bammDeposit" \/
             contents new = contents v /\ (contents v = contents old -> new = old)
         end).
Proof.
  exists (treduce b u). rewrite reduce_ok. split; [done|]. intros k v Hin.
  assert (forall A `{EqDecision A} (C : Obj A -> Value) p n,
    (forall x y, contents (C x) = contents (C y) <-> snd x = snd y) ->
    v = C <$> n -> match v with
      | None => C (upd sameValue p n) = C p
      | Some v => k = "bammDeposit" \/ contents (C (upd sameValue p n)) = contents v /\
          (contents v = contents (C p) -> C (upd sameValue p n) = C p) end) as Hkept.
  { intros A EA C p n Hc ->. pose proof (upd_kept C p n Hc) as H. destruct n; [by right|done]. }
  cbn [partialEntries In] in Hin.
  repeat (destruct Hin as [Hin|Hin]; [injection Hin as <- Hv; do 2 eexists;
    (split; [reflexivity|]); (split; [reflexivity|]); (split; [try done|try done]) |]);
    try done; intros _.
  all: try (eapply Hkept; [|done]; intros [] []; cbn; split; congruence).
  - rewrite <- Hv. cbn. destruct (numberOfTroves _ u) as [n|]; cbn; [|done]. right.
    unfold upd. destruct (Z.eqb_spec (numberOfTroves _ b) n) as [->|]; split; congruence.
  - rewrite <- Hv. cbn. destruct (bammDeposit _ u); cbn; [by left|done].
Qed.

(** The base properties: strict inequality is inequality of contents. *)
Lemma treduce_seen b u k old new :
  coherent b u -> k <> "bammDeposit" ->
  property (baseEntries b) k = Some old -> In (k, new) (baseEntries (treduce b u)) -> seen old new.
Proof.
  intros Hco Hk Hold Hin.
  assert (forall A `{EqDecision A} (C : Obj A -> Value) p n,
    (forall x y, contents (C x) = contents (C y) <-> snd x = snd y) ->
    property (partialEntries u) k = Some (C <$> n) -> property (baseEntries b) k = Some (C p) ->
    seen (C p) (C (upd sameValue p n))) as Hseen.
  { intros A EA C p n Hc Hp Hb. apply upd_seen; [done|]. intros v ->. by apply (Hco k). }
  cbn [baseEntries treduce In numberOfTroves accountBalance thusdBalance erc20TokenBalance
    erc20TokenAllowance isStabilityPools isBorrowerOperations isTroveManager
    collateralSurplusBalance price marketPrice piRedemptionRate deviationFactor
    thusdInStabilityPool pcvBalance total totalRedistributed troveBeforeRedistribution symbol
    collateralAddress stableAddress stabilityDeposit bammDeposit mintList _feesInNormalMode
    _riskiestTroveBeforeRedistribution] in Hin.
  repeat (destruct Hin as [Hin|Hin]; [injection Hin as <- <-;
    assert (Hold' := Hold); cbn in Hold'; injection Hold' as <- |]); try done.
  all: try (eapply Hseen; [intros [] []; cbn; split; congruence | reflexivity | exact Hold]).
  all: try (unfold seen; rewrite strictEquals_refl; done).
  unfold seen, upd. cbn. destruct (numberOfTroves _ u) as [n|]; [|by rewrite Z.eqb_refl].
  destruct (Z.eqb_spec (numberOfTroves _ b) n) as [->|E].
  - by rewrite Z.eqb_refl.
  - split; [intros ->%Z.eqb_eq; done | intros [=]; congruence].
Qed.

Lemma treduceDerived_seen n d d' k old new :
  derivedBelow n d -> derivedAbove n d' ->
  property (derivedEntries d) k = Some old -> In (k, new) (derivedEntries (treduceDerived d d')) ->
  seen old new.
Proof.
  intros (H1 & H2 & H3 & H4) (H1' & H2' & H3' & H4') Hold Hin.
  cbn [derivedEntries treduceDerived In trove fees borrowingRate redemptionRate
    haveUndercollateralizedTroves] in Hin.
  assert (forall A `{EqDecision A} (C : Obj A -> Value) (x y : Obj A),
    (forall x y, contents (C x) = contents (C y) <-> snd x = snd y) ->
    (forall x y, strictEquals (C x) (C y) = sameObject x y) -> (fst x < n <= fst y)%N ->
    seen (C x) (C (upd sameValue x (Some y)))) as Hseen.
  { intros A EA C x y Hc Hs Hn. apply upd_seen; [done|]. intros v [= <-]. rewrite Hs.
    unfold sameObject. intros E%N.eqb_eq. lia. }
  repeat (destruct Hin as [Hin|Hin]; [injection Hin as <- <-; cbn in Hold; injection Hold as <- |]);
    try done.
  all: try (apply Hseen; [intros [] []; cbn; split; congruence | done | lia]).
  unfold seen, upd. cbn [strictEquals].
  destruct (haveUndercollateralizedTroves d), (haveUndercollateralizedTroves d'); done.
Qed.

Lemma property_app {V} (l m : list (string * V)) k v :
  property l k = Some v -> property (l ++ m) k = Some v.
Proof. induction l as [|[k' v'] l IH]; cbn; [done|]. destruct (String.eqb k' k); auto. Qed.

Lemma property_app_r {V} (l m : list (string * V)) k :
  property l k = None -> property (l ++ m) k = property m k.
Proof. induction l as [|[k' v'] l IH]; cbn; [done|]. destruct (String.eqb k' k); [done|auto]. Qed.

Lemma property_In {V} (l : list (string * V)) k :
  In k (map fst l) -> exists v, property l k = Some v.
Proof.
  induction l as [|[k' v'] l IH]; cbn; [done|]. destruct (String.eqb_spec k' k); [by eexists|].
  intros [|]; [done|auto].
Qed.

Lemma derived_not_base b d k :
  In k (map fst (derivedEntries d)) -> property (baseEntries b) k = None.
Proof.
  cbn [map derivedEntries fst In]. intros H.
  repeat (destruct H as [<-|H]; [reflexivity|]). destruct H.
Qed.

Lemma In_difference a b k v :
  In (k, v) (difference a b) <->
    In (k, v) a /\ (forall w, property b k = Some w -> strictEquals v w = false).
Proof.
  unfold difference. rewrite filter_In. cbn [fst snd]. destruct (property b k) as [w|].
  - rewrite negb_true_iff. split; intros [? H]; (split; [done|]); [by intros ? [= <-] | by apply H].
  - split; intros [? _]; done.
Qed.

(** C5: on a reachable, loaded store and for an update whose objects are unchanged ones or new ones,
    [_update] succeeds, and what it notifies is right: the old state is the state before, and a
    base or derived property is listed as changed exactly when its contents differ from before.
    The one exception is the B.AMM deposit, whose [equals] compares by reference. *)
Theorem update_reports_changes s (u : PartialBaseState) (x : option U) b d :
  reachable s -> _baseState s = Some b -> _derivedState s = Some d ->
  validUpdate u -> coherent b u -> (forall e, x = Some e -> _extraState s <> None) ->
  exists params called s' b' d',
    _update (Some u) x s = (Ok (params, called), s') /\ _reduce b u = Ok b' /\
    _baseState s' = Some b' /\ _derivedState s' = Some d' /\
    oldState params = state s /\ newState params = state s' /\
    forall k old new,
      property (baseEntries b ++ derivedEntries d) k = Some old ->
      In (k, new) (baseEntries b' ++ derivedEntries d') -> k <> "bammDeposit" ->
      (In (k, new) (stateChange params) <-> contents new <> contents old).
Proof.
  intros Hr Hb Hd Hu Hco Hx. destruct (reachable_ok s Hr) as [Hc _]. unfold coreOk in Hc.
  rewrite Hb, Hd in Hc. destruct Hc as (_ & Hvb & _ & Hbelow).
  destruct (deriveValues_ok (treduce b u) (treduce_valid b u Hvb Hu)) as [v Hv].
  destruct (update_ok s b d (Some u) x v Hb Hd Hv Hx)
    as (d' & s1 & called & s2 & Hup & Hn & _ & Hab & _ & _ & _ & H1 & H2 & _).
  exists (mkParams (state s1) (state s) (difference (state s1) (state s))), called, s2,
    (treduce b u), (treduceDerived d d').
  destruct (notify_go_core _ _ _ _ _ Hn) as (_ & E1 & E2 & E3 & _).
  split; [done|]. split; [apply reduce_ok|]. split; [congruence|]. split; [congruence|].
  split; [done|]. split; [unfold state; cbn [newState]; by rewrite E1, E2, E3|].
  intros k old new Hold Hin Hk. cbn [stateChange]. rewrite In_difference.
  assert (property (state s) k = Some old) as Hp.
  { unfold state. rewrite Hb, Hd, app_assoc. by apply property_app. }
  assert (In (k, new) (state s1)) as Hin1.
  { unfold state. rewrite H1, H2, app_assoc. apply in_or_app. by left. }
  assert (seen old new) as Hseen.
  { apply in_app_or in Hin as [Hin|Hin].
    - eapply treduce_seen; [exact Hco|exact Hk| |exact Hin].
      destruct (property_In (baseEntries b) k) as [w Hw];
        [change (map fst (baseEntries b)) with (map fst (baseEntries (treduce b u)));
         by apply (in_map fst) in Hin|].
      rewrite (property_app _ _ _ _ Hw) in Hold. congruence.
    - eapply treduceDerived_seen; [exact Hbelow|exact Hab| |exact Hin].
      rewrite property_app_r in Hold; [exact Hold|]. apply (derived_not_base _ d).
      change (map fst (derivedEntries d)) with
        (map fst (derivedEntries (treduceDerived d d'))). by apply (in_map fst) in Hin. }
  unfold seen in Hseen. rewrite Hp. split.
  - intros [_ H] Hc. apply Hseen in Hc. by rewrite (H old eq_refl) in Hc.
  - intros Hc. split; [done|]. intros w [= <-]. apply not_true_is_false. intros H. by apply Hc, Hseen.
Qed.

(** C6: in every reachable store the derived state holds exactly what [_derive] computes from the
    base state, the store counts as loaded exactly when it has a base state, at most one update is
    scheduled and it is the one the store remembers; after a load or an update of a loaded store
    exactly one is. *)
Theorem store_invariant s :
  reachable s ->
  (forall b d, _baseState s = Some b -> _derivedState s = Some d ->
     deriveValues b = Ok (derivedValues d)) /\
  (_loaded s = true <-> _baseState s <> None) /\ (_loaded s = true <-> _derivedState s <> None) /\
  (timers s = [] \/ exists id, _updateTimeoutId s = Some id /\ timers s = [id]) /\
  (forall b e, validBase b -> _loaded s = false ->
     exists id, timers (snd (_load b e s)) = [id]) /\
  (forall u x, validOption u -> (forall e, x = Some e -> _extraState s <> None) ->
     _loaded s = true -> exists id, timers (snd (_update u x s)) = [id]).
Proof.
  intros Hr. destruct (reachable_ok s Hr) as [Hc Ht]. unfold coreOk in Hc.
  split; [intros b d Hb Hd; rewrite Hb, Hd in Hc; apply Hc|].
  split; [destruct (_baseState s), (_derivedState s); try done;
    [by destruct Hc as [-> _] | by rewrite Hc] |].
  split; [destruct (_baseState s), (_derivedState s); try done;
    [by destruct Hc as [-> _] | by rewrite Hc] |].
  split; [exact Ht|]. split.
  - intros b e Hb Hl. destruct (load_ok s b e Hl Hb)
      as (d & s' & -> & _ & _ & _ & _ & _ & _ & _ & _ & id & _ & H). exists id. by apply H.
  - intros u x Hu Hx Hl. destruct (_baseState s) as [b|] eqn:Hb, (_derivedState s) as [d|] eqn:Hd;
      try done; [|congruence].
    destruct Hc as (_ & Hvb & _ & _).
    destruct (deriveValues_ok (updated u b) (updated_valid u b Hvb Hu)) as [v Hv].
    destruct (update_ok s b d u x v Hb Hd Hv Hx) as (d' & s1 & called & s2 & -> & Hn & _ & _ & _ &
      _ & _ & _ & _ & _ & (id & _ & Hid) & _).
    exists id. destruct (notify_go_core _ _ _ _ _ Hn) as (_ & _ & _ & _ & _ & E & _).
    cbn [snd]. rewrite E. by apply Hid.
Qed.

(** The update the timer runs changes nothing: with no new base state, the derived state is the
    one there already is, whatever time has passed (rates are derived at the time of the latest
    block), and the listeners are called with an empty [stateChange]; the next update is
    scheduled. *)
Theorem timer_update_is_silent s id b d :
  reachable s -> _baseState s = Some b -> _derivedState s = Some d -> In id (timers s) ->
  NoDup (map fst (state s)) ->
  exists params called s',
    fireTimer id s = (Ok (params, called), s') /\
    _baseState s' = Some b /\ _derivedState s' = Some d /\ _extraState s' = _extraState s /\
    newState params = oldState params /\ stateChange params = [] /\
    exists id', timers s' = [id'].
Proof.
  intros Hr Hb Hd Hin Hnd. destruct (reachable_ok s Hr) as [Hc Ht]. unfold coreOk in Hc.
  rewrite Hb, Hd in Hc. destruct Hc as (_ & _ & Hdv & _).
  set (s0 := with_timers None (List.filter (fun t => negb (t =? id)%N) (timers s)) s).
  assert (timersOk s0) as Ht0.
  { left. cbn. destruct Ht as [->|(i & _ & Hi)]; [done|]. rewrite Hi in Hin |- *.
    destruct Hin as [->|[]]. cbn. by rewrite N.eqb_refl. }
  destruct (update_ok s0 b d None None _ Hb Hd Hdv ltac:(congruence)) as (d' & s1 & called & s2 &
    Hup & Hn & Hd' & _ & _ & _ & _ & E1 & E2 & _ & (i & _ & Hi) & E4).
  assert (treduceDerived d d' = d) as Hsame.
  { unfold derivedValues in Hd'. injection Hd' as V1 V2 V3 V4 V5.
    unfold treduceDerived, upd, sameValue.
    rewrite V1, V2, V3, V4, V5, !bool_decide_true, Bool.eqb_reflx by done. by destruct d. }
  rewrite Hsame in E2. assert (state s1 = state s) as Hstate.
  { unfold state. rewrite E1, E2, E4, Hb, Hd. done. }
  destruct (notify_go_core _ _ _ _ _ Hn) as (_ & F1 & F2 & F3 & _ & F5 & _).
  do 3 eexists. split; [exact Hup|]. split; [congruence|]. split; [congruence|].
  split; [rewrite F3, E4; done|]. cbn [newState oldState stateChange].
  rewrite Hstate. split; [done|]. split; [|exists i; rewrite F5; by apply Hi].
  change (state s0) with (state s).
  clear -Hnd. unfold difference. assert (forall l m, NoDup (map fst (m ++ l)) ->
    List.filter (fun e => match property (m ++ l) (fst e) with
      | Some w => negb (strictEquals (snd e) w) | None => true end) l = []) as Haux.
  { intros l. induction l as [|[k v] l IH]; intros m Hm; [done|]. cbn [List.filter fst snd].
    assert (property (m ++ (k, v) :: l) k = Some v) as ->.
    { rewrite map_app in Hm. apply NoDup_app in Hm as (_ & Hm & _).
      rewrite property_app_r; [cbn; by rewrite String.eqb_refl|].
      induction m as [|[k' v'] m IHm]; [done|]. cbn. destruct (String.eqb_spec k' k) as [->|].
      - exfalso. apply (Hm k); [cbn; left | cbn; left].
      - apply IHm. intros y Hy. apply Hm. cbn. by right. }
    rewrite strictEquals_refl. cbn [negb].
    specialize (IH (m ++ [(k, v)])). rewrite <- app_assoc in IH. by apply IH. }
  apply (Haux (state s) []). exact Hnd.
Qed.

(** A notification calls listeners that were registered when it began, each at most once and in
    the order they subscribed, never one that subscribed meanwhile; a listener unregistered by one
    called before it is not called, and one that is not called has been unregistered so. *)
Theorem notify_calls s (params : LiquityStoreListenerParams) called s' :
  reachable s -> _notify params s = (called, s') ->
  sublist called (map fst (_listeners s)) /\ NoDup called /\
  (forall pre k l post id, called = pre ++ k :: post -> In (k, l) (_listeners s) ->
     In (Unsubscribe id) (callListener l params) -> ~ In id post) /\
  (forall id, In id (map fst (_listeners s)) -> ~ In id called ->
     exists k l, In k called /\ In (k, l) (_listeners s) /\
       In (Unsubscribe id) (callListener l params)).
Proof.
  intros Hr Hn. destruct (reachable_listeners s Hr) as [Hnd Hlt].
  assert (forall id l, In (id, l) (_listeners s) -> (id < fresh s)%N) as Hlt'.
  { intros id l Hin. apply Hlt. apply in_map_iff. by exists (id, l). }
  destruct (notify_go_calls _ _ _ _ _ Hlt' Hn) as (H1 & _ & H3 & H4).
  split; [done|]. split; [by eapply sublist_NoDup|]. split.
  - intros pre k l post id Hc Hk Hun Hpost. refine (H4 pre k post id Hc _ _ Hpost).
    + apply Hlt. eapply list_elem_of_In, elem_of_sublist; [|exact H1]. apply list_elem_of_In.
      rewrite Hc. apply in_or_app. right. by right.
    + intros l' Hk'. assert (l' = l) as ->; [|done].
      clear -Hnd Hk Hk'. induction (_listeners s) as [|[j m] ls IH]; [done|].
      cbn in Hnd. apply NoDup_cons in Hnd as [Hj Hnd]. rewrite list_elem_of_In in Hj.
      destruct Hk as [Hk|Hk], Hk' as [Hk'|Hk']; simplify_eq; [done| | |auto];
        exfalso; apply Hj; apply in_map_iff; [by exists (k, l') | by exists (k, l)].
  - intros id Hin Hnot. apply H3; [done| |done]. by apply isListener_In.
Qed.

End Properties.

(** ** Instances *)

(** Listeners that unregister the listeners they list. *)
#[local] Instance demoSubclass : StoreSubclass unit unit (list N) := {|
  _reduceExtra := fun e _ => e;
  extraEntries := fun _ => [];
  callListener := fun l _ => map Unsubscribe l;
|}.

Definition oneD : Obj Decimal.t := (100%N, Decimal.mk (10 ^ 18)).
Definition somePending : TroveWithPendingRedistribution.t :=
  TroveWithPendingRedistribution.mk
    (UserTrove.mk (Trove.mk (Decimal.mk (10 ^ 18)) (Decimal.mk (10 ^ 18))) "owner" UserTrove.open)
    (Decimal.mk 0) (Trove.mk (Decimal.mk 0) (Decimal.mk 0)).
Definition someTotal : Trove.t := Trove.mk (Decimal.mk (10 ^ 18)) (Decimal.mk (10 ^ 18)).

Definition someBase : LiquityStoreBaseState :=
  mkBase (fun A => A) 1 oneD oneD oneD oneD true true true oneD oneD oneD oneD oneD oneD oneD
    (101%N, someTotal) (102%N, someTotal) (103%N, somePending) "SYM" "0x1" "0x2"
    (104%N, StabilityDeposit.mk (Decimal.mk 5) (Decimal.mk 5) (Decimal.mk 0))
    (105%N, BammDeposit.mk (Decimal.mk 0) (Decimal.mk 0) (Decimal.mk 0) (Decimal.mk 0)
       (Decimal.mk 0) (Decimal.mk 0) (1%N, Decimal.mk 0) (2%N, Decimal.mk 0))
    true
    (106%N, Fees.mk (Decimal.mk (10 ^ 16)) (Decimal.mk (9 * 10 ^ 17)) (Decimal.mk (2 * 10 ^ 18))
       0 600000 false)
    (107%N, somePending).

(** A new price. *)
Definition someUpdate : PartialBaseState :=
  mkBase option None None None None None None None None None
    (Some (200%N, Decimal.mk (2 * 10 ^ 18))) None None None None None None None None None None
    None None None None None None.

Definition someStore : Store unit (list N) :=
  snd (subscribe [6%N] (snd (subscribe [] (snd (_load (BN := Z_bignumber) someBase None newStore))))).

Lemma someBase_valid : validBase someBase.
Proof. split; vm_compute; reflexivity. Qed.

Lemma someStore_reachable : reachable (BN := Z_bignumber) someStore.
Proof.
  unfold reachable, someStore. eapply rtc_l; [apply step_load, someBase_valid|].
  eapply rtc_l; [apply step_subscribe|]. eapply rtc_once, step_subscribe.
Qed.

Lemma someStore_base : _baseState someStore = Some someBase.
Proof. vm_compute. reflexivity. Qed.

Lemma someStore_derived : exists d, _derivedState someStore = Some d.
Proof. vm_compute. eexists; reflexivity. Qed.

Lemma someUpdate_coherent : coherent someBase someUpdate.
Proof.
  intros k v old Hk Hold Hs. unfold partialEntries, someUpdate in Hk. cbn -[String.eqb] in Hk.
  repeat match type of Hk with
  | (if String.eqb ?a k then _ else _) = _ =>
      destruct (String.eqb_spec a k) as [<-|_]
  end; simplify_eq/=; done.
Qed.

Lemma reduce_updates_witness :
  exists b', @_reduce Z_bignumber someBase someUpdate = Ok b'.
Proof.
  destruct (@reduce_updates Z_bignumber Z_bignumber_laws someBase someUpdate) as (b' & H & _).
  exists b'. exact H.
Defined.

Lemma update_reports_changes_witness :
  exists params called s' b', _update (BN := Z_bignumber) (Some someUpdate) None someStore =
      (Ok (params, called), s') /\
    @_reduce Z_bignumber someBase someUpdate = Ok b' /\ _baseState s' = Some b'.
Proof.
  destruct someStore_derived as [d Hd].
  destruct (@update_reports_changes Z_bignumber Z_bignumber_laws unit unit (list N) demoSubclass
    someStore someUpdate None someBase d someStore_reachable someStore_base Hd ltac:(intros f Hf; discriminate Hf)
    someUpdate_coherent ltac:(intros e He; discriminate He))
    as (params & called & s' & b' & d' & H1 & H2 & H3 & _).
  exists params, called, s', b'. exact (conj H1 (conj H2 H3)).
Defined.

Lemma store_invariant_witness :
  timers someStore = [] \/ exists id, _updateTimeoutId someStore = Some id /\ timers someStore = [id].
Proof.
  apply (@store_invariant Z_bignumber Z_bignumber_laws unit unit (list N) demoSubclass someStore
    someStore_reachable).
Defined.

Lemma timer_update_is_silent_witness :
  exists params called s', fireTimer (BN := Z_bignumber) 4 someStore = (Ok (params, called), s') /\
    stateChange params = [].
Proof.
  destruct someStore_derived as [d Hd].
  destruct (@timer_update_is_silent Z_bignumber Z_bignumber_laws unit unit (list N) demoSubclass
    someStore 4 someBase d someStore_reachable someStore_base Hd ltac:(vm_compute; auto))
    as (params & called & s' & H1 & _ & _ & _ & _ & H2 & _).
  { apply (bool_decide_unpack _). vm_compute. exact I. }
  exists params, called, s'. exact (conj H1 H2).
Defined.

Lemma notify_calls_witness :
  sublist (fst (_notify (mkParams [] [] []) someStore)) (map fst (_listeners someStore)).
Proof.
  destruct (_notify (mkParams [] [] []) someStore) as [called s'] eqn:E.
  exact (proj1 (@notify_calls Z_bignumber Z_bignumber_laws unit unit (list N) demoSubclass someStore
    _ called s' someStore_reachable E)).
Defined.

End LiquityStoreProperties.
