(* ===== verification/Subgraph.v ===== *)
(** * The subgraph's event handlers: [src/packages/subgraph/src]

    The handlers of The Graph indexer, which turn contract events into entities of a database.
    [load] answers a copy of an entity and [save] writes it back, so entities are values here.
    Numbers of type [i32] wrap around.  The [graph-ts] library (its decimals, the conversion
    [toI32], calls of the token contract) enters through the class [GraphTs]; its [BigInt] is an
    integer, addresses and hashes are hexadecimal strings. *)

From S2P Require Import Prelude.

Local Open Scope Z_scope.

(** ** The indexer's library *)

Class GraphTs : Type := {
  BigDecimal : Type;
  fromString : string -> BigDecimal;
  divDecimal : Z -> BigDecimal -> BigDecimal;
  plus : BigDecimal -> BigDecimal -> BigDecimal;
  minus : BigDecimal -> BigDecimal -> BigDecimal;
  times : BigDecimal -> BigDecimal -> BigDecimal;
  div : BigDecimal -> BigDecimal -> BigDecimal;
  truncate : BigDecimal -> Z -> BigDecimal;
  bd_eq : BigDecimal -> BigDecimal -> bool;
  bd_lt : BigDecimal -> BigDecimal -> bool;
  bd_le : BigDecimal -> BigDecimal -> bool;
  toI32 : Z -> Res Z;
  contract_name : string -> string;
  contract_symbol : string -> string;
}.

(** What the theorems use of it: a decimal equals itself, and an integer scales to the decimal zero
    exactly when it is zero. *)
Class GraphTsLaws (G : GraphTs) : Prop := {
  bd_eq_refl x : bd_eq x x = true;
  divDecimal_zero z :
    bd_eq (divDecimal z (fromString "1000000000000000000")) (fromString "0") = true <-> z = 0;
}.

(** [i32] arithmetic. *)
Definition i32 (z : Z) : Z := (z + 2 ^ 31) mod 2 ^ 32 - 2 ^ 31.

Definition i32_toString (z : Z) : string :=
  if z <? 0 then "-" +:+ Js.dec_string (- z) else Js.dec_string z.

Module Subgraph.

Definition ZERO_ADDRESS : string := "0x" +:+ Js.repeat "0" 40.
Definition BIGINT_SCALING_FACTOR : Z := 10 ^ 18.
Definition DECIMAL_PRECISION : Z := 18.

(** ** Operations on Troves: [types/TroveOperation.ts] *)

Inductive BorrowerOperation : Type := openTrove | closeTrove | adjustTrove.
Inductive TroveManagerOperation : Type :=
| applyPendingRewards | liquidateInNormalMode | liquidateInRecoveryMode | redeemCollateral.

Definition getTroveOperationFromBorrowerOperation (operation : BorrowerOperation) : string :=
  match operation with
  | openTrove => "openTrove"
  | closeTrove => "closeTrove"
  | adjustTrove => "adjustTrove"
  end.

Definition isBorrowerOperation (troveOperation : string) : bool :=
  String.eqb troveOperation "openTrove" || String.eqb troveOperation "closeTrove" ||
  String.eqb troveOperation "adjustTrove".

Definition getTroveOperationFromTroveManagerOperation (operation : TroveManagerOperation) :
    string :=
  match operation with
  | applyPendingRewards => "accrueRewards"
  | liquidateInNormalMode => "liquidateInNormalMode"
  | liquidateInRecoveryMode => "liquidateInRecoveryMode"
  | redeemCollateral => "redeemCollateral"
  end.

Definition isLiquidation (troveOperation : string) : bool :=
  String.eqb troveOperation "liquidateInNormalMode" ||
  String.eqb troveOperation "liquidateInRecoveryMode".
Definition isRecoveryModeLiquidation (troveOperation : string) : bool :=
  String.eqb troveOperation "liquidateInRecoveryMode".
Definition isRedemption (troveOperation : string) : bool :=
  String.eqb troveOperation "redeemCollateral".

(** ** Entities *)
Section Entities.
Context {G : GraphTs}.

Definition DECIMAL_SCALING_FACTOR : BigDecimal := fromString "1000000000000000000".
Definition DECIMAL_ZERO : BigDecimal := fromString "0".
Definition DECIMAL_ONE : BigDecimal := fromString "1".
Definition DECIMAL_COLLATERAL_GAS_COMPENSATION_DIVISOR : BigDecimal := fromString "200".

Definition decimalize (bigInt : Z) : BigDecimal := divDecimal bigInt DECIMAL_SCALING_FACTOR.

(** The five counts of Troves. *)
Record TroveNumbers : Type := mkNumbers {
  numberOfOpenTroves : Z;
  numberOfLiquidatedTroves : Z;
  numberOfRedeemedTroves : Z;
  numberOfTrovesClosedByOwner : Z;
  totalNumberOfTroves : Z;
}.

Record Global : Type := mkGlobal {
  systemStateCount : Z;
  transactionCount : Z;
  changeCount : Z;
  liquidationCount : Z;
  redemptionCount : Z;
  troveNumbers : TroveNumbers;
  rawTotalRedistributedCollateral : Z;
  rawTotalRedistributedDebt : Z;
  totalBorrowingFeesPaid : BigDecimal;
  totalRedemptionFeesPaid : BigDecimal;
  currentSystemState : option string;
  currentLiquidation : option string;
  currentRedemption : option string;
  tmpDepositUpdate : option Z;
}.

Record SystemState : Type := mkSystemState {
  ss_sequenceNumber : Z;
  ss_price : option BigDecimal;
  totalCollateral : BigDecimal;
  totalDebt : BigDecimal;
  totalCollateralRatio : option BigDecimal;
  tokensInStabilityPool : BigDecimal;
  collSurplusPoolBalance : BigDecimal;
}.

Record User : Type := mkUser {
  user_trove : option string;
  user_stabilityDeposit : option string;
  collSurplus : BigDecimal;
}.

Inductive TroveStatus : Type :=
| open | closedByOwner | closedByLiquidation | closedByRedemption.

(** A Trove; the raw fields are not set before the first save. *)
Record RawTrove : Type := mkRaw {
  rawCollateral : Z;
  rawDebt : Z;
  rawStake : Z;
  rawSnapshotOfTotalRedistributedCollateral : Z;
  rawSnapshotOfTotalRedistributedDebt : Z;
  collateralRatioSortKey : option Z;
}.
Record Trove : Type := mkTrove {
  trove_owner : string;
  status : TroveStatus;
  collateral : BigDecimal;
  debt : BigDecimal;
  raw : option RawTrove;
}.

Record StabilityDeposit : Type := mkStabilityDeposit {
  sd_owner : string;
  depositedAmount : BigDecimal;
}.

Record Transaction : Type := mkTransaction {
  tx_sequenceNumber : Z;
  tx_blockNumber : Z;
  tx_timestamp : Z;
}.

(** The part of a change [initChange] and [finishChange] set. *)
Record Change : Type := mkChange {
  sequenceNumber : Z;
  transaction : string;
  systemStateBefore : string;
  systemStateAfter : string;
}.

Record TroveChange : Type := mkTroveChange {
  tc_change : Change;
  tc_trove : string;
  troveOperation : string;
  collateralBefore : BigDecimal;
  collateralChange : BigDecimal;
  collateralAfter : BigDecimal;
  debtBefore : BigDecimal;
  debtChange : BigDecimal;
  debtAfter : BigDecimal;
  borrowingFee : option BigDecimal;
  collateralRatioBefore : option BigDecimal;
  collateralRatioAfter : option BigDecimal;
  tc_liquidation : option string;
  tc_redemption : option string;
}.

Record StabilityDepositChange : Type := mkStabilityDepositChange {
  sdc_change : Change;
  sdc_stabilityDeposit : string;
  stabilityDepositOperation : string;
  depositedAmountBefore : BigDecimal;
  depositedAmountChange : BigDecimal;
  depositedAmountAfter : BigDecimal;
  sdc_collateralGain : option BigDecimal;
}.

Record PriceChange : Type := mkPriceChange {
  pc_change : Change;
  priceChange : BigDecimal;
}.

Record CollSurplusChange : Type := mkCollSurplusChange {
  csc_change : Change;
  csc_user : string;
  collSurplusBefore : BigDecimal;
  collSurplusChange : BigDecimal;
  collSurplusAfter : BigDecimal;
}.

Record Liquidation : Type := mkLiquidation {
  lq_sequenceNumber : Z;
  lq_transaction : string;
  liquidator : string;
  liquidatedCollateral : BigDecimal;
  liquidatedDebt : BigDecimal;
  collGasCompensation : BigDecimal;
  tokenGasCompensation : BigDecimal;
}.

Record Redemption : Type := mkRedemption {
  rd_sequenceNumber : Z;
  rd_transaction : string;
  redeemer : string;
  tokensAttemptedToRedeem : BigDecimal;
  tokensActuallyRedeemed : BigDecimal;
  collateralRedeemed : BigDecimal;
  partial : bool;
  fee : BigDecimal;
}.

Record Token : Type := mkToken {
  name : string;
  token_symbol : string;
  totalSupply : Z;
}.

Record TokenBalance : Type := mkTokenBalance {
  tb_token : string;
  tb_owner : string;
  balance : Z;
}.

Record TokenAllowance : Type := mkTokenAllowance {
  ta_token : string;
  ta_owner : string;
  spender : string;
  value : Z;
}.

(** The database, a table per entity type. *)
Record DB : Type := mkDB {
  globals : option Global;
  systemStates : gmap string SystemState;
  users : gmap string User;
  troves : gmap string Trove;
  stabilityDeposits : gmap string StabilityDeposit;
  transactions : gmap string Transaction;
  troveChanges : gmap string TroveChange;
  stabilityDepositChanges : gmap string StabilityDepositChange;
  priceChanges : gmap string PriceChange;
  collSurplusChanges : gmap string CollSurplusChange;
  liquidations : gmap string Liquidation;
  redemptions : gmap string Redemption;
  tokens : gmap string Token;
  tokenBalances : gmap string TokenBalance;
  tokenAllowances : gmap string TokenAllowance;
}.

Definition emptyDB : DB := mkDB None ∅ ∅ ∅ ∅ ∅ ∅ ∅ ∅ ∅ ∅ ∅ ∅ ∅ ∅.

(** [entity.save()], per type. *)
Definition saveGlobal (g : Global) (s : DB) : DB :=
  mkDB (Some g) (systemStates s) (users s) (troves s) (stabilityDeposits s) (transactions s)
    (troveChanges s) (stabilityDepositChanges s) (priceChanges s) (collSurplusChanges s)
    (liquidations s) (redemptions s) (tokens s) (tokenBalances s) (tokenAllowances s).
Definition saveSystemState (id : string) (x : SystemState) (s : DB) : DB :=
  mkDB (globals s) (<[id := x]> (systemStates s)) (users s) (troves s) (stabilityDeposits s)
    (transactions s) (troveChanges s) (stabilityDepositChanges s) (priceChanges s)
    (collSurplusChanges s) (liquidations s) (redemptions s) (tokens s) (tokenBalances s)
    (tokenAllowances s).
Definition saveUser (id : string) (x : User) (s : DB) : DB :=
  mkDB (globals s) (systemStates s) (<[id := x]> (users s)) (troves s) (stabilityDeposits s)
    (transactions s) (troveChanges s) (stabilityDepositChanges s) (priceChanges s)
    (collSurplusChanges s) (liquidations s) (redemptions s) (tokens s) (tokenBalances s)
    (tokenAllowances s).
Definition saveTrove (id : string) (x : Trove) (s : DB) : DB :=
  mkDB (globals s) (systemStates s) (users s) (<[id := x]> (troves s)) (stabilityDeposits s)
    (transactions s) (troveChanges s) (stabilityDepositChanges s) (priceChanges s)
    (collSurplusChanges s) (liquidations s) (redemptions s) (tokens s) (tokenBalances s)
    (tokenAllowances s).
Definition saveStabilityDeposit (id : string) (x : StabilityDeposit) (s : DB) : DB :=
  mkDB (globals s) (systemStates s) (users s) (troves s) (<[id := x]> (stabilityDeposits s))
    (transactions s) (troveChanges s) (stabilityDepositChanges s) (priceChanges s)
    (collSurplusChanges s) (liquidations s) (redemptions s) (tokens s) (tokenBalances s)
    (tokenAllowances s).
Definition saveTransaction (id : string) (x : Transaction) (s : DB) : DB :=
  mkDB (globals s) (systemStates s) (users s) (troves s) (stabilityDeposits s)
    (<[id := x]> (transactions s)) (troveChanges s) (stabilityDepositChanges s) (priceChanges s)
    (collSurplusChanges s) (liquidations s) (redemptions s) (tokens s) (tokenBalances s)
    (tokenAllowances s).
Definition saveTroveChange (id : string) (x : TroveChange) (s : DB) : DB :=
  mkDB (globals s) (systemStates s) (users s) (troves s) (stabilityDeposits s) (transactions s)
    (<[id := x]> (troveChanges s)) (stabilityDepositChanges s) (priceChanges s)
    (collSurplusChanges s) (liquidations s) (redemptions s) (tokens s) (tokenBalances s)
    (tokenAllowances s).
Definition saveStabilityDepositChange (id : string) (x : StabilityDepositChange) (s : DB) : DB :=
  mkDB (globals s) (systemStates s) (users s) (troves s) (stabilityDeposits s) (transactions s)
    (troveChanges s) (<[id := x]> (stabilityDepositChanges s)) (priceChanges s)
    (collSurplusChanges s) (liquidations s) (redemptions s) (tokens s) (tokenBalances s)
    (tokenAllowances s).
Definition savePriceChange (id : string) (x : PriceChange) (s : DB) : DB :=
  mkDB (globals s) (systemStates s) (users s) (troves s) (stabilityDeposits s) (transactions s)
    (troveChanges s) (stabilityDepositChanges s) (<[id := x]> (priceChanges s))
    (collSurplusChanges s) (liquidations s) (redemptions s) (tokens s) (tokenBalances s)
    (tokenAllowances s).
Definition saveCollSurplusChange (id : string) (x : CollSurplusChange) (s : DB) : DB :=
  mkDB (globals s) (systemStates s) (users s) (troves s) (stabilityDeposits s) (transactions s)
    (troveChanges s) (stabilityDepositChanges s) (priceChanges s)
    (<[id := x]> (collSurplusChanges s)) (liquidations s) (redemptions s) (tokens s)
    (tokenBalances s) (tokenAllowances s).
Definition saveLiquidation (id : string) (x : Liquidation) (s : DB) : DB :=
  mkDB (globals s) (systemStates s) (users s) (troves s) (stabilityDeposits s) (transactions s)
    (troveChanges s) (stabilityDepositChanges s) (priceChanges s) (collSurplusChanges s)
    (<[id := x]> (liquidations s)) (redemptions s) (tokens s) (tokenBalances s)
    (tokenAllowances s).
Definition saveRedemption (id : string) (x : Redemption) (s : DB) : DB :=
  mkDB (globals s) (systemStates s) (users s) (troves s) (stabilityDeposits s) (transactions s)
    (troveChanges s) (stabilityDepositChanges s) (priceChanges s) (collSurplusChanges s)
    (liquidations s) (<[id := x]> (redemptions s)) (tokens s) (tokenBalances s)
    (tokenAllowances s).
Definition saveToken (id : string) (x : Token) (s : DB) : DB :=
  mkDB (globals s) (systemStates s) (users s) (troves s) (stabilityDeposits s) (transactions s)
    (troveChanges s) (stabilityDepositChanges s) (priceChanges s) (collSurplusChanges s)
    (liquidations s) (redemptions s) (<[id := x]> (tokens s)) (tokenBalances s)
    (tokenAllowances s).
Definition saveTokenBalance (id : string) (x : TokenBalance) (s : DB) : DB :=
  mkDB (globals s) (systemStates s) (users s) (troves s) (stabilityDeposits s) (transactions s)
    (troveChanges s) (stabilityDepositChanges s) (priceChanges s) (collSurplusChanges s)
    (liquidations s) (redemptions s) (tokens s) (<[id := x]> (tokenBalances s))
    (tokenAllowances s).
Definition saveTokenAllowance (id : string) (x : TokenAllowance) (s : DB) : DB :=
  mkDB (globals s) (systemStates s) (users s) (troves s) (stabilityDeposits s) (transactions s)
    (troveChanges s) (stabilityDepositChanges s) (priceChanges s) (collSurplusChanges s)
    (liquidations s) (redemptions s) (tokens s) (tokenBalances s)
    (<[id := x]> (tokenAllowances s)).

(** The fields of [ethereum.Event] the handlers read. *)
Record Event : Type := mkEvent {
  address : string;
  transaction_hash : string;
  transaction_from : string;
  block_number : Z;
  block_timestamp : Z;
}.

(** *** [entities/Global.ts] *)

Definition newGlobal : Global :=
  mkGlobal 0 0 0 0 0 (mkNumbers 0 0 0 0 0) 0 0 DECIMAL_ZERO DECIMAL_ZERO None None None None.

(** The entity [getGlobal] answers in a state of the database. *)
Definition globalOf (s : DB) : Global :=
  match globals s with Some g => g | None => newGlobal end.

Definition getGlobal : St DB Global := st_gets globalOf.

(** The keys [increaseCounter] is called with. *)
Inductive Counter : Type :=
| CSystemState | CTransaction | CChange | CLiquidation | CRedemption.

Definition getCounter (key : Counter) (g : Global) : Z :=
  match key with
  | CSystemState => systemStateCount g
  | CTransaction => transactionCount g
  | CChange => changeCount g
  | CLiquidation => liquidationCount g
  | CRedemption => redemptionCount g
  end.

Definition setCounter (key : Counter) (n : Z) (g : Global) : Global :=
  let pick k old := match key, k with
    | CSystemState, CSystemState | CTransaction, CTransaction | CChange, CChange
    | CLiquidation, CLiquidation | CRedemption, CRedemption => n
    | _, _ => old
    end in
  mkGlobal (pick CSystemState (systemStateCount g)) (pick CTransaction (transactionCount g))
    (pick CChange (changeCount g)) (pick CLiquidation (liquidationCount g))
    (pick CRedemption (redemptionCount g)) (troveNumbers g) (rawTotalRedistributedCollateral g)
    (rawTotalRedistributedDebt g) (totalBorrowingFeesPaid g) (totalRedemptionFeesPaid g)
    (currentSystemState g) (currentLiquidation g) (currentRedemption g) (tmpDepositUpdate g).

Definition setNumbers (n : TroveNumbers) (g : Global) : Global :=
  mkGlobal (systemStateCount g) (transactionCount g) (changeCount g) (liquidationCount g)
    (redemptionCount g) n (rawTotalRedistributedCollateral g) (rawTotalRedistributedDebt g)
    (totalBorrowingFeesPaid g) (totalRedemptionFeesPaid g) (currentSystemState g)
    (currentLiquidation g) (currentRedemption g) (tmpDepositUpdate g).
Definition setRedistributed (coll debt : Z) (g : Global) : Global :=
  mkGlobal (systemStateCount g) (transactionCount g) (changeCount g) (liquidationCount g)
    (redemptionCount g) (troveNumbers g) coll debt (totalBorrowingFeesPaid g)
    (totalRedemptionFeesPaid g) (currentSystemState g) (currentLiquidation g)
    (currentRedemption g) (tmpDepositUpdate g).
Definition setFees (borrowing redemption : BigDecimal) (g : Global) : Global :=
  mkGlobal (systemStateCount g) (transactionCount g) (changeCount g) (liquidationCount g)
    (redemptionCount g) (troveNumbers g) (rawTotalRedistributedCollateral g)
    (rawTotalRedistributedDebt g) borrowing redemption (currentSystemState g)
    (currentLiquidation g) (currentRedemption g) (tmpDepositUpdate g).
Definition setCurrent (state liquidation redemption : option string) (g : Global) : Global :=
  mkGlobal (systemStateCount g) (transactionCount g) (changeCount g) (liquidationCount g)
    (redemptionCount g) (troveNumbers g) (rawTotalRedistributedCollateral g)
    (rawTotalRedistributedDebt g) (totalBorrowingFeesPaid g) (totalRedemptionFeesPaid g)
    state liquidation redemption (tmpDepositUpdate g).
Definition setTmpDepositUpdate (u : option Z) (g : Global) : Global :=
  mkGlobal (systemStateCount g) (transactionCount g) (changeCount g) (liquidationCount g)
    (redemptionCount g) (troveNumbers g) (rawTotalRedistributedCollateral g)
    (rawTotalRedistributedDebt g) (totalBorrowingFeesPaid g) (totalRedemptionFeesPaid g)
    (currentSystemState g) (currentLiquidation g) (currentRedemption g) u.

(** [let global = getGlobal(); ...; global.save();] *)
Definition modifyGlobal (f : Global -> Global) : St DB unit :=
  do! global := getGlobal in
  st_modify (saveGlobal (f global)).

Definition increaseCounter (key : Counter) : St DB Z :=
  do! global := getGlobal in
  let count := getCounter key global in
  do! _ := st_modify (saveGlobal (setCounter key (i32 (count + 1)) global)) in
  st_ret count.

Definition getSystemStateSequenceNumber : St DB Z := increaseCounter CSystemState.
Definition getTransactionSequenceNumber : St DB Z := increaseCounter CTransaction.
Definition getChangeSequenceNumber : St DB Z := increaseCounter CChange.
Definition getLiquidationSequenceNumber : St DB Z := increaseCounter CLiquidation.
Definition getRedemptionSequenceNumber : St DB Z := increaseCounter CRedemption.

Definition getLastChangeSequenceNumber : St DB Z :=
  do! global := getGlobal in st_ret (i32 (changeCount global - 1)).

Definition updateTotalRedistributed (L_ETH L_THUSDDebt : Z) : St DB unit :=
  modifyGlobal (setRedistributed L_ETH L_THUSDDebt).

Definition modifyNumbers (f : TroveNumbers -> TroveNumbers) : St DB unit :=
  modifyGlobal (fun g => setNumbers (f (troveNumbers g)) g).

Definition increaseNumberOfOpenTroves : St DB unit := modifyNumbers (fun n =>
  mkNumbers (i32 (numberOfOpenTroves n + 1)) (numberOfLiquidatedTroves n)
    (numberOfRedeemedTroves n) (numberOfTrovesClosedByOwner n) (i32 (totalNumberOfTroves n + 1))).
Definition increaseNumberOfLiquidatedTroves : St DB unit := modifyNumbers (fun n =>
  mkNumbers (i32 (numberOfOpenTroves n - 1)) (i32 (numberOfLiquidatedTroves n + 1))
    (numberOfRedeemedTroves n) (numberOfTrovesClosedByOwner n) (totalNumberOfTroves n)).
Definition decreaseNumberOfLiquidatedTroves : St DB unit := modifyNumbers (fun n =>
  mkNumbers (i32 (numberOfOpenTroves n + 1)) (i32 (numberOfLiquidatedTroves n - 1))
    (numberOfRedeemedTroves n) (numberOfTrovesClosedByOwner n) (totalNumberOfTroves n)).
Definition increaseNumberOfRedeemedTroves : St DB unit := modifyNumbers (fun n =>
  mkNumbers (i32 (numberOfOpenTroves n - 1)) (numberOfLiquidatedTroves n)
    (i32 (numberOfRedeemedTroves n + 1)) (numberOfTrovesClosedByOwner n) (totalNumberOfTroves n)).
Definition decreaseNumberOfRedeemedTroves : St DB unit := modifyNumbers (fun n =>
  mkNumbers (i32 (numberOfOpenTroves n + 1)) (numberOfLiquidatedTroves n)
    (i32 (numberOfRedeemedTroves n - 1)) (numberOfTrovesClosedByOwner n) (totalNumberOfTroves n)).
Definition increaseNumberOfTrovesClosedByOwner : St DB unit := modifyNumbers (fun n =>
  mkNumbers (i32 (numberOfOpenTroves n - 1)) (numberOfLiquidatedTroves n)
    (numberOfRedeemedTroves n) (i32 (numberOfTrovesClosedByOwner n + 1)) (totalNumberOfTroves n)).
Definition decreaseNumberOfTrovesClosedByOwner : St DB unit := modifyNumbers (fun n =>
  mkNumbers (i32 (numberOfOpenTroves n + 1)) (numberOfLiquidatedTroves n)
    (numberOfRedeemedTroves n) (i32 (numberOfTrovesClosedByOwner n - 1)) (totalNumberOfTroves n)).

Definition increaseTotalBorrowingFeesPaid (_THUSDFee : Z) : St DB unit :=
  modifyGlobal (fun g =>
    setFees (plus (totalBorrowingFeesPaid g) (decimalize _THUSDFee)) (totalRedemptionFeesPaid g) g).

(** *** [entities/Transaction.ts], [entities/User.ts] *)

(** An entity [load]ed by an identifier that may be null. *)
Definition loadBy {A} (table : DB -> gmap string A) (id : option string) : St DB (option A) :=
  st_gets (fun s => match id with Some id => table s !! id | None => None end).

(** Answers the identifier, the one thing the callers read. *)
Definition getTransaction (event : Event) : St DB string :=
  let transactionId := transaction_hash event in
  do! transactionOrNull := loadBy transactions (Some transactionId) in
  match transactionOrNull with
  | Some _ => st_ret transactionId
  | None =>
      do! sequenceNumber := getTransactionSequenceNumber in
      do! blockNumber := st_lift (toI32 (block_number event)) in
      do! timestamp := st_lift (toI32 (block_timestamp event)) in
      do! _ := st_modify (saveTransaction transactionId
                 (mkTransaction sequenceNumber blockNumber timestamp)) in
      st_ret transactionId
  end.

Definition getUser (_user : string) : St DB User :=
  do! userOrNull := loadBy users (Some _user) in
  match userOrNull with
  | Some user => st_ret user
  | None =>
      let newUser := mkUser None None DECIMAL_ZERO in
      do! _ := st_modify (saveUser _user newUser) in
      st_ret newUser
  end.

(** *** [entities/SystemState.ts] and [entities/Change.ts] *)

Definition setCurrentSystemState (id : string) : St DB unit :=
  modifyGlobal (fun g => setCurrent (Some id) (currentLiquidation g) (currentRedemption g) g).

(** Answers the identifier with the entity. *)
Definition getCurrentSystemState : St DB (string * SystemState) :=
  do! global := getGlobal in
  let currentSystemStateId := currentSystemState global in
  do! currentSystemStateOrNull := loadBy systemStates currentSystemStateId in
  match currentSystemStateId, currentSystemStateOrNull with
  | Some id, Some state => st_ret (id, state)
  | _, _ =>
      do! sequenceNumber := getSystemStateSequenceNumber in
      let id := i32_toString sequenceNumber in
      let newSystemState := mkSystemState sequenceNumber None DECIMAL_ZERO DECIMAL_ZERO None
                              DECIMAL_ZERO DECIMAL_ZERO in
      do! _ := st_modify (saveSystemState id newSystemState) in
      do! _ := setCurrentSystemState id in
      st_ret (id, newSystemState)
  end.

Definition bumpSystemState (systemState : SystemState) : St DB unit :=
  do! sequenceNumber := getSystemStateSequenceNumber in
  let id := i32_toString sequenceNumber in
  let systemState := mkSystemState sequenceNumber (ss_price systemState)
    (totalCollateral systemState) (totalDebt systemState) (totalCollateralRatio systemState)
    (tokensInStabilityPool systemState) (collSurplusPoolBalance systemState) in
  do! _ := st_modify (saveSystemState id systemState) in
  setCurrentSystemState id.

Definition getCurrentPrice : St DB BigDecimal :=
  do! '(_, currentSystemState) := getCurrentSystemState in
  match ss_price currentSystemState with
  | Some price => st_ret price
  | None => st_throw "unexpected null"
  end.

(** [beginChange] and [initChange]: the change's number, its transaction and the system state
    before it. *)
Definition beginChange (event : Event) : St DB (Z * string * string) :=
  do! sequenceNumber := getChangeSequenceNumber in
  do! transactionId := getTransaction event in
  do! '(systemStateBeforeId, _) := getCurrentSystemState in
  st_ret (sequenceNumber, transactionId, systemStateBeforeId).

Definition finishChange (begun : Z * string * string) : St DB Change :=
  let '(sequenceNumber, transactionId, systemStateBeforeId) := begun in
  do! '(systemStateAfterId, _) := getCurrentSystemState in
  st_ret (mkChange sequenceNumber transactionId systemStateBeforeId systemStateAfterId).

Definition changeId (begun : Z * string * string) : string :=
  i32_toString (fst (fst begun)).

Definition calculateCollateralRatio (collateral debt price : BigDecimal) : option BigDecimal :=
  if bd_eq debt DECIMAL_ZERO then None
  else Some (truncate (div (times collateral price) debt) DECIMAL_PRECISION).

Definition setPrice (p : BigDecimal) (s : SystemState) : SystemState :=
  mkSystemState (ss_sequenceNumber s) (Some p) (totalCollateral s) (totalDebt s)
    (totalCollateralRatio s) (tokensInStabilityPool s) (collSurplusPoolBalance s).
Definition setTotals (coll debt pool : BigDecimal) (s : SystemState) : SystemState :=
  mkSystemState (ss_sequenceNumber s) (ss_price s) coll debt (totalCollateralRatio s) pool
    (collSurplusPoolBalance s).

Definition updatePrice (event : Event) (_lastGoodPrice : Z) : St DB unit :=
  do! '(id, systemState) := getCurrentSystemState in
  let newPrice := decimalize _lastGoodPrice in
  match ss_price systemState with
  | None => st_modify (saveSystemState id (setPrice newPrice systemState))
  | Some oldPrice =>
      if negb (bd_eq newPrice oldPrice) then
        do! begun := beginChange event in
        do! _ := bumpSystemState (setPrice newPrice systemState) in
        do! change := finishChange begun in
        st_modify (savePriceChange (changeId begun) (mkPriceChange change (minus newPrice oldPrice)))
      else st_ret tt
  end.

Definition tryToOffsetWithTokensFromStabilityPool (systemState : SystemState)
    (collateralToLiquidate debtToLiquidate : BigDecimal) : SystemState :=
  let s := systemState in
  if bd_le debtToLiquidate (tokensInStabilityPool s) then
    setTotals (minus (totalCollateral s) collateralToLiquidate)
      (minus (totalDebt s) debtToLiquidate) (minus (tokensInStabilityPool s) debtToLiquidate) s
  else if bd_lt DECIMAL_ZERO (tokensInStabilityPool s) then
    setTotals
      (minus (totalCollateral s)
         (truncate (div (times collateralToLiquidate (tokensInStabilityPool s)) debtToLiquidate)
            DECIMAL_PRECISION))
      (minus (totalDebt s) (tokensInStabilityPool s)) DECIMAL_ZERO s
  else s.

(** The totals after a change of a Trove. *)
Definition totalsAfter (tc : TroveChange) (s : SystemState) : St DB SystemState :=
  let operation := troveOperation tc in
  if isBorrowerOperation operation || isRedemption operation then
    st_ret (setTotals (plus (totalCollateral s) (collateralChange tc))
              (plus (totalDebt s) (debtChange tc)) (tokensInStabilityPool s) s)
  else if isLiquidation operation then
    let collateral := collateralBefore tc in
    let debt := debtBefore tc in
    let collateralGasCompensation :=
      truncate (div collateral DECIMAL_COLLATERAL_GAS_COMPENSATION_DIVISOR) DECIMAL_PRECISION in
    let s := setTotals (minus (totalCollateral s) collateralGasCompensation) (totalDebt s)
               (tokensInStabilityPool s) s in
    do! offset :=
      if negb (isRecoveryModeLiquidation operation) then st_ret true
      else match collateralRatioBefore tc with
           | Some r => st_ret (bd_lt DECIMAL_ONE r)
           | None => st_throw "unexpected null"
           end in
    if (offset : bool) then
      st_ret (tryToOffsetWithTokensFromStabilityPool s
                (minus collateral collateralGasCompensation) debt)
    else st_ret s
  else st_ret s.

Definition updateSystemStateByTroveChange (troveChange : TroveChange) : St DB unit :=
  do! '(_, systemState) := getCurrentSystemState in
  do! s := totalsAfter troveChange systemState in
  match ss_price s with
  | None => st_throw "unexpected null"
  | Some price =>
      let ratio := calculateCollateralRatio (totalCollateral s) (totalDebt s) price in
      bumpSystemState (mkSystemState (ss_sequenceNumber s) (ss_price s) (totalCollateral s)
        (totalDebt s) ratio (tokensInStabilityPool s) (collSurplusPoolBalance s))
  end.

Definition updateSystemStateByStabilityDepositChange (operation : string)
    (depositedAmountChange : BigDecimal) : St DB unit :=
  do! '(_, s) := getCurrentSystemState in
  let s := if String.eqb operation "depositTokens" || String.eqb operation "withdrawTokens"
           then setTotals (totalCollateral s) (totalDebt s)
                  (plus (tokensInStabilityPool s) depositedAmountChange) s
           else s in
  bumpSystemState s.

Definition updateSystemStateByCollSurplusChange (collSurplusChange : BigDecimal) : St DB unit :=
  do! '(_, s) := getCurrentSystemState in
  bumpSystemState (mkSystemState (ss_sequenceNumber s) (ss_price s) (totalCollateral s)
    (totalDebt s) (totalCollateralRatio s) (tokensInStabilityPool s)
    (plus (collSurplusPoolBalance s) collSurplusChange)).

Definition updateUserClaimColl (event : Event) (_borrower : string) (_collSurplus : Z) :
    St DB unit :=
  do! user := getUser _borrower in
  let newCollSurplus := decimalize _collSurplus in
  if bd_eq newCollSurplus (collSurplus user) then st_ret tt
  else
    do! begun := beginChange event in
    let change := minus newCollSurplus (collSurplus user) in
    do! _ := updateSystemStateByCollSurplusChange change in
    do! c := finishChange begun in
    do! _ := st_modify (saveCollSurplusChange (changeId begun)
               (mkCollSurplusChange c _borrower (collSurplus user) change newCollSurplus)) in
    st_modify (saveUser _borrower (mkUser (user_trove user) (user_stabilityDeposit user)
                                     newCollSurplus)).

(** *** [entities/Liquidation.ts], [entities/Redemption.ts] *)

Definition setCurrentLiquidation (id : option string) : St DB unit :=
  modifyGlobal (fun g => setCurrent (currentSystemState g) id (currentRedemption g) g).

Definition getCurrentLiquidation (event : Event) : St DB (string * Liquidation) :=
  do! global := getGlobal in
  let currentLiquidationId := currentLiquidation global in
  do! currentLiquidationOrNull := loadBy liquidations currentLiquidationId in
  match currentLiquidationId, currentLiquidationOrNull with
  | Some id, Some l => st_ret (id, l)
  | _, _ =>
      do! sequenceNumber := getLiquidationSequenceNumber in
      let id := i32_toString sequenceNumber in
      do! transactionId := getTransaction event in
      do! _ := getUser (transaction_from event) in
      let newLiquidation := mkLiquidation sequenceNumber transactionId (transaction_from event)
        DECIMAL_ZERO DECIMAL_ZERO DECIMAL_ZERO DECIMAL_ZERO in
      do! _ := st_modify (saveLiquidation id newLiquidation) in
      do! _ := setCurrentLiquidation (Some id) in
      st_ret (id, newLiquidation)
  end.

Definition finishCurrentLiquidation (event : Event)
    (_liquidatedColl _liquidatedDebt _collGasCompensation _THUSDGasCompensation : Z) :
    St DB unit :=
  do! '(id, l) := getCurrentLiquidation event in
  do! _ := st_modify (saveLiquidation id (mkLiquidation (lq_sequenceNumber l) (lq_transaction l)
    (liquidator l) (decimalize _liquidatedColl) (decimalize _liquidatedDebt)
    (decimalize _collGasCompensation) (decimalize _THUSDGasCompensation))) in
  setCurrentLiquidation None.

Definition setCurrentRedemption (id : option string) : St DB unit :=
  modifyGlobal (fun g => setCurrent (currentSystemState g) (currentLiquidation g) id g).

Definition getCurrentRedemption (event : Event) : St DB (string * Redemption) :=
  do! global := getGlobal in
  let currentRedemptionId := currentRedemption global in
  do! currentRedemptionOrNull := loadBy redemptions currentRedemptionId in
  match currentRedemptionId, currentRedemptionOrNull with
  | Some id, Some r => st_ret (id, r)
  | _, _ =>
      do! sequenceNumber := getRedemptionSequenceNumber in
      let id := i32_toString sequenceNumber in
      do! transactionId := getTransaction event in
      do! _ := getUser (transaction_from event) in
      let newRedemption := mkRedemption sequenceNumber transactionId (transaction_from event)
        DECIMAL_ZERO DECIMAL_ZERO DECIMAL_ZERO false DECIMAL_ZERO in
      do! _ := st_modify (saveRedemption id newRedemption) in
      do! _ := setCurrentRedemption (Some id) in
      st_ret (id, newRedemption)
  end.

Definition finishCurrentRedemption (event : Event)
    (_attemptedTHUSDAmount _actualTHUSDAmount _collateralSent _collateralFee : Z) : St DB unit :=
  let fee := decimalize _collateralFee in
  do! '(id, r) := getCurrentRedemption event in
  do! _ := st_modify (saveRedemption id (mkRedemption (rd_sequenceNumber r) (rd_transaction r)
    (redeemer r) (decimalize _attemptedTHUSDAmount) (decimalize _actualTHUSDAmount)
    (decimalize _collateralSent) (_actualTHUSDAmount <? _attemptedTHUSDAmount) fee)) in
  modifyGlobal (fun g =>
    setFees (totalBorrowingFeesPaid g) (plus (totalRedemptionFeesPaid g) fee)
      (setCurrent (currentSystemState g) (currentLiquidation g) None g)).

(** *** [entities/Trove.ts] *)

Definition TroveStatus_eqb (a b : TroveStatus) : bool :=
  match a, b with
  | open, open | closedByOwner, closedByOwner | closedByLiquidation, closedByLiquidation
  | closedByRedemption, closedByRedemption => true
  | _, _ => false
  end.

Definition getTrove (_user : string) : St DB Trove :=
  do! troveOrNull := loadBy troves (Some _user) in
  match troveOrNull with
  | Some trove => st_ret trove
  | None =>
      do! owner := getUser _user in
      do! _ := increaseNumberOfOpenTroves in
      do! _ := st_modify (saveUser _user
                 (mkUser (Some _user) (user_stabilityDeposit owner) (collSurplus owner))) in
      st_ret (mkTrove _user open DECIMAL_ZERO DECIMAL_ZERO None)
  end.

(** Answers the Trove's new status. *)
Definition setTroveStatus (statusBefore status : TroveStatus) : St DB TroveStatus :=
  do! _ :=
    if TroveStatus_eqb status statusBefore then st_ret tt
    else match status, statusBefore with
         | open, closedByOwner => decreaseNumberOfTrovesClosedByOwner
         | open, closedByLiquidation => decreaseNumberOfLiquidatedTroves
         | open, closedByRedemption => decreaseNumberOfRedeemedTroves
         | open, open => st_ret tt
         | closedByOwner, _ => increaseNumberOfTrovesClosedByOwner
         | closedByLiquidation, _ => increaseNumberOfLiquidatedTroves
         | closedByRedemption, _ => increaseNumberOfRedeemedTroves
         end in
  st_ret status.

(** The status [updateTrove] sets. *)
Definition statusAfter (operation : string) (_coll : Z) : TroveStatus :=
  if _coll =? 0 then
    if isLiquidation operation then closedByLiquidation
    else if isRedemption operation then closedByRedemption
    else closedByOwner
  else open.

(** The raw fields [updateTrove] sets. *)
Definition rawAfter (global : Global) (_coll _debt stake : Z) : RawTrove :=
  if negb (stake =? 0) then
    mkRaw _coll _debt stake (rawTotalRedistributedCollateral global)
      (rawTotalRedistributedDebt global)
      (Some (Z.quot (_debt * BIGINT_SCALING_FACTOR) stake - rawTotalRedistributedDebt global))
  else mkRaw _coll _debt stake 0 0 None.

Definition updateTrove (event : Event) (operation _borrower : string) (_coll _debt stake : Z) :
    St DB unit :=
  do! global := getGlobal in
  do! trove := getTrove _borrower in
  let newCollateral := decimalize _coll in
  let newDebt := decimalize _debt in
  if bd_eq newCollateral (collateral trove) && bd_eq newDebt (debt trove) then st_ret tt
  else
    do! begun := beginChange event in
    do! price := getCurrentPrice in
    let ratioBefore := calculateCollateralRatio (collateral trove) (debt trove) price in
    let ratioAfter := calculateCollateralRatio newCollateral newDebt price in
    do! liquidation :=
      if isLiquidation operation then
        do! '(id, _) := getCurrentLiquidation event in st_ret (Some id)
      else st_ret None in
    do! redemption :=
      if isRedemption operation then
        do! '(id, _) := getCurrentRedemption event in st_ret (Some id)
      else st_ret None in
    let change c := mkTroveChange c _borrower operation
      (collateral trove) (minus newCollateral (collateral trove)) newCollateral
      (debt trove) (minus newDebt (debt trove)) newDebt None ratioBefore ratioAfter
      liquidation redemption in
    do! _ := updateSystemStateByTroveChange
               (change (mkChange (fst (fst begun)) (snd (fst begun)) (snd begun) "")) in
    do! c := finishChange begun in
    do! _ := st_modify (saveTroveChange (changeId begun) (change c)) in
    do! status' := setTroveStatus (status trove) (statusAfter operation _coll) in
    st_modify (saveTrove _borrower
      (mkTrove (trove_owner trove) status' newCollateral newDebt
         (Some (rawAfter global _coll _debt stake)))).

Definition setBorrowingFeeOfLastTroveChange (_THUSDFee : Z) : St DB unit :=
  do! lastChangeSequenceNumber := getLastChangeSequenceNumber in
  let id := i32_toString lastChangeSequenceNumber in
  do! lastTroveChange := loadBy troveChanges (Some id) in
  match lastTroveChange with
  | Some tc => st_modify (saveTroveChange id
      (mkTroveChange (tc_change tc) (tc_trove tc) (troveOperation tc) (collateralBefore tc)
         (collateralChange tc) (collateralAfter tc) (debtBefore tc) (debtChange tc)
         (debtAfter tc) (Some (decimalize _THUSDFee)) (collateralRatioBefore tc)
         (collateralRatioAfter tc) (tc_liquidation tc) (tc_redemption tc)))
  | None => st_throw "unexpected null"
  end.

(** The share of a redistribution a stake earns since its snapshot. *)
Definition redistributed (total snapshot stake : Z) : Z :=
  Z.quot ((total - snapshot) * stake) BIGINT_SCALING_FACTOR.

Definition applyRedistributionToTroveBeforeLiquidation (event : Event) (_borrower : string) :
    St DB unit :=
  do! global := getGlobal in
  do! trove := getTrove _borrower in
  match raw trove with
  | None => st_throw "unexpected null"
  | Some r =>
      let redistributedCollateral :=
        redistributed (rawTotalRedistributedCollateral global)
          (rawSnapshotOfTotalRedistributedCollateral r) (rawStake r) in
      let redistributedDebt :=
        redistributed (rawTotalRedistributedDebt global)
          (rawSnapshotOfTotalRedistributedDebt r) (rawStake r) in
      updateTrove event "accrueRewards" _borrower (rawCollateral r + redistributedCollateral)
        (rawDebt r + redistributedDebt) 0
  end.

(** *** [entities/StabilityDeposit.ts] *)

Definition getStabilityDeposit (_user : string) : St DB StabilityDeposit :=
  do! stabilityDepositOrNull := loadBy stabilityDeposits (Some _user) in
  match stabilityDepositOrNull with
  | Some d => st_ret d
  | None =>
      do! owner := getUser _user in
      do! _ := st_modify (saveUser _user
                 (mkUser (user_trove owner) (Some _user) (collSurplus owner))) in
      st_ret (mkStabilityDeposit _user DECIMAL_ZERO)
  end.

(** Answers the deposit with its new amount. *)
Definition updateStabilityDepositByOperation (event : Event) (_user : string)
    (stabilityDeposit : StabilityDeposit) (operation : string) (newDepositedAmount : BigDecimal)
    (collateralGain : option BigDecimal) : St DB StabilityDeposit :=
  do! begun := beginChange event in
  let before := depositedAmount stabilityDeposit in
  let change := minus newDepositedAmount before in
  do! _ := updateSystemStateByStabilityDepositChange operation change in
  do! c := finishChange begun in
  do! _ := st_modify (saveStabilityDepositChange (changeId begun)
             (mkStabilityDepositChange c _user operation before change newDepositedAmount
                collateralGain)) in
  st_ret (mkStabilityDeposit (sd_owner stabilityDeposit) newDepositedAmount).

Definition updateStabilityDeposit (event : Event) (_user : string) (_amount : Z) : St DB unit :=
  do! stabilityDeposit := getStabilityDeposit _user in
  let newDepositedAmount := decimalize _amount in
  do! _ := getUser _user in
  if bd_eq newDepositedAmount (depositedAmount stabilityDeposit) then st_ret tt
  else
    do! d := updateStabilityDepositByOperation event _user stabilityDeposit
      (if bd_lt (depositedAmount stabilityDeposit) newDepositedAmount
       then "depositTokens" else "withdrawTokens") newDepositedAmount None in
    st_modify (saveStabilityDeposit _user d).

Definition withdrawCollateralGainFromStabilityDeposit (event : Event) (_user : string)
    (_ETH _THUSDLoss : Z) : St DB unit :=
  if (_ETH =? 0) && (_THUSDLoss =? 0) then st_ret tt
  else
    do! stabilityDeposit := getStabilityDeposit _user in
    let depositLoss := decimalize _THUSDLoss in
    let newDepositedAmount := minus (depositedAmount stabilityDeposit) depositLoss in
    do! d := updateStabilityDepositByOperation event _user stabilityDeposit
      "withdrawCollateralGain" newDepositedAmount (Some (decimalize _ETH)) in
    st_modify (saveStabilityDeposit _user d).

(** *** [entities/Token.ts], [TokenBalance.ts], [TokenAllowance.ts] *)

Definition createToken (address name symbol : string) : St DB Token :=
  let token := mkToken name symbol 0 in
  do! _ := st_modify (saveToken address token) in
  st_ret token.

Definition getToken (_token : string) : St DB Token :=
  do! tokenOrNull := loadBy tokens (Some _token) in
  match tokenOrNull with
  | Some token => st_ret token
  | None => createToken _token (contract_name _token) (contract_symbol _token)
  end.

Definition balanceId (_token _owner : string) : string := _token +:+ "-" +:+ _owner.

Definition getTokenBalance (_token _owner : string) : St DB TokenBalance :=
  let id := balanceId _token _owner in
  do! _ := getUser _owner in
  do! balanceOrNull := loadBy tokenBalances (Some id) in
  match balanceOrNull with
  | Some b => st_ret b
  | None =>
      let newBalance := mkTokenBalance _token _owner 0 in
      do! _ := st_modify (saveTokenBalance id newBalance) in
      st_ret newBalance
  end.

(** [let b = getTokenBalance(...); b.balance = f(b.balance); b.save();] *)
Definition changeBalance (_token _owner : string) (f : Z -> Z) : St DB unit :=
  do! b := getTokenBalance _token _owner in
  st_modify (saveTokenBalance (balanceId _token _owner)
               (mkTokenBalance (tb_token b) (tb_owner b) (f (balance b)))).

Definition updateBalance (_event : Event) (_from _to : string) (_value : Z) : St DB unit :=
  let tokenAddress := address _event in
  do! token := getToken tokenAddress in
  do! token :=
    if String.eqb _from ZERO_ADDRESS then
      let token := mkToken (name token) (token_symbol token) (totalSupply token + _value) in
      do! _ := st_modify (saveToken tokenAddress token) in
      st_ret token
    else
      do! _ := changeBalance tokenAddress _from (fun b => b - _value) in
      st_ret token in
  if String.eqb _to ZERO_ADDRESS then
    st_modify (saveToken tokenAddress
                 (mkToken (name token) (token_symbol token) (totalSupply token - _value)))
  else changeBalance tokenAddress _to (fun b => b + _value).

Definition allowanceId (_token _owner _spender : string) : string :=
  _token +:+ "-" +:+ _owner +:+ "-" +:+ _spender.

Definition getTokenAllowance (_token _owner _spender : string) : St DB TokenAllowance :=
  let id := allowanceId _token _owner _spender in
  do! _ := getUser _owner in
  do! _ := getUser _spender in
  do! allowanceOrNull := loadBy tokenAllowances (Some id) in
  match allowanceOrNull with
  | Some a => st_ret a
  | None =>
      let newAllowance := mkTokenAllowance _token _owner _spender 0 in
      do! _ := st_modify (saveTokenAllowance id newAllowance) in
      st_ret newAllowance
  end.

Definition updateAllowance (_event : Event) (_owner _spender : string) (_value : Z) : St DB unit :=
  let tokenAddress := address _event in
  do! a := getTokenAllowance tokenAddress _owner _spender in
  st_modify (saveTokenAllowance (allowanceId tokenAddress _owner _spender)
               (mkTokenAllowance (ta_token a) (ta_owner a) (spender a) _value)).

(** *** [mappings/] *)

(** Answers the value before the swap. *)
Definition swapTmpDepositUpdate (valueToSetIfNull : Z) : St DB (option Z) :=
  do! global := getGlobal in
  let old := tmpDepositUpdate global in
  do! _ := st_modify (saveGlobal (setTmpDepositUpdate
             (match old with None => Some valueToSetIfNull | Some _ => None end) global)) in
  st_ret old.

Definition handleUserDepositChanged (event : Event) (_depositor : string) (_newDeposit : Z) :
    St DB unit :=
  do! ethGainWithdrawn := swapTmpDepositUpdate _newDeposit in
  match ethGainWithdrawn with
  | Some _ => updateStabilityDeposit event _depositor _newDeposit
  | None => st_ret tt
  end.

Definition handleCollateralGainWithdrawn (event : Event) (_depositor : string)
    (_collateral _THUSDLoss : Z) : St DB unit :=
  do! depositUpdate := swapTmpDepositUpdate 0 in
  do! _ := withdrawCollateralGainFromStabilityDeposit event _depositor _collateral _THUSDLoss in
  match depositUpdate with
  | Some d => updateStabilityDeposit event _depositor d
  | None => st_ret tt
  end.

Definition handleBorrowerTroveUpdated (event : Event) (_borrower : string) (_coll _debt stake : Z)
    (operation : BorrowerOperation) : St DB unit :=
  updateTrove event (getTroveOperationFromBorrowerOperation operation) _borrower _coll _debt stake.

Definition handleTHUSDBorrowingFeePaid (_THUSDFee : Z) : St DB unit :=
  do! _ := setBorrowingFeeOfLastTroveChange _THUSDFee in
  increaseTotalBorrowingFeesPaid _THUSDFee.

Definition handleTroveUpdated (event : Event) (_borrower : string) (_coll _debt _stake : Z)
    (_operation : TroveManagerOperation) : St DB unit :=
  updateTrove event (getTroveOperationFromTroveManagerOperation _operation) _borrower _coll _debt
    _stake.

Definition handleTroveLiquidated (event : Event) (_borrower : string) : St DB unit :=
  applyRedistributionToTroveBeforeLiquidation event _borrower.

Definition handleLiquidation : Event -> Z -> Z -> Z -> Z -> St DB unit := finishCurrentLiquidation.
Definition handleRedemption : Event -> Z -> Z -> Z -> Z -> St DB unit := finishCurrentRedemption.

Definition handleLTermsUpdated (_L_Collateral _L_THUSDDebt : Z) : St DB unit :=
  updateTotalRedistributed _L_Collateral _L_THUSDDebt.

Definition handleCollSurplusBalanceUpdated (event : Event) (_account : string) (_newBalance : Z) :
    St DB unit :=
  updateUserClaimColl event _account _newBalance.

Definition handleLastGoodPrice (event : Event) (newPrice : Z) : St DB unit :=
  updatePrice event newPrice.

Definition handleTokenTransfer (event : Event) (from to : string) (value : Z) : St DB unit :=
  updateBalance event from to value.

Definition handleTokenApproval (event : Event) (owner spender : string) (value : Z) : St DB unit :=
  updateAllowance event owner spender value.

(** ** The indexer: an event is handed to its handler *)
Inductive ContractEvent : Type :=
| EvBorrowerTroveUpdated (_borrower : string) (_coll _debt stake : Z) (operation : BorrowerOperation)
| EvBorrowingFeePaid (_borrower : string) (_THUSDFee : Z)
| EvTroveUpdated (_borrower : string) (_coll _debt _stake : Z) (_operation : TroveManagerOperation)
| EvTroveLiquidated (_borrower : string)
| EvLiquidation (_liquidatedColl _liquidatedDebt _collGasCompensation _THUSDGasCompensation : Z)
| EvRedemption (_attempted _actual _collateralSent _collateralFee : Z)
| EvLTermsUpdated (_L_Collateral _L_THUSDDebt : Z)
| EvLastGoodPrice (newPrice : Z)
| EvUserDepositChanged (_depositor : string) (_newDeposit : Z)
| EvCollateralGainWithdrawn (_depositor : string) (_collateral _THUSDLoss : Z)
| EvCollBalanceUpdated (_account : string) (_newBalance : Z)
| EvTransfer (from to : string) (value : Z)
| EvApproval (owner spender : string) (value : Z).

Definition handle (event : Event) (e : ContractEvent) : St DB unit :=
  match e with
  | EvBorrowerTroveUpdated b c d s op => handleBorrowerTroveUpdated event b c d s op
  | EvBorrowingFeePaid _ f => handleTHUSDBorrowingFeePaid f
  | EvTroveUpdated b c d s op => handleTroveUpdated event b c d s op
  | EvTroveLiquidated b => handleTroveLiquidated event b
  | EvLiquidation a b c d => handleLiquidation event a b c d
  | EvRedemption a b c d => handleRedemption event a b c d
  | EvLTermsUpdated c d => handleLTermsUpdated c d
  | EvLastGoodPrice p => handleLastGoodPrice event p
  | EvUserDepositChanged u d => handleUserDepositChanged event u d
  | EvCollateralGainWithdrawn u c l => handleCollateralGainWithdrawn event u c l
  | EvCollBalanceUpdated u b => handleCollSurplusBalanceUpdated event u b
  | EvTransfer a b v => handleTokenTransfer event a b v
  | EvApproval a b v => handleTokenApproval event a b v
  end.

End Entities.
End Subgraph.
