(* ===== verification/SubgraphProperties.v ===== *)
(** * Properties of the subgraph's handlers

    The token ledger and the counts of Troves are invariants of the database under every sequence
    of events; the two events of a withdrawal commute.  Most helpers do not touch what an
    invariant is about: that is proved once for every view of the database that is insensitive to
    the tables they write. *)

From Stdlib Require Import QArith.
From S2P Require Import Prelude Subgraph.

Local Open Scope Z_scope.

(** ** Sums over a table *)
Module TableSum.

Definition msum {A} (f : A -> Z) (m : gmap string A) : Z := map_fold (fun _ x acc => f x + acc) 0 m.

Lemma msum_empty {A} (f : A -> Z) : msum f ∅ = 0.
Proof. apply map_fold_empty. Qed.

Lemma msum_insert_new {A} (f : A -> Z) m k x :
  m !! k = None -> msum f (<[k := x]> m) = f x + msum f m.
Proof.
  intros Hk. unfold msum. apply (map_fold_insert_L (fun _ x acc => f x + acc)); [|done].
  intros. lia.
Qed.

Lemma msum_insert {A} (f : A -> Z) m k x :
  msum f (<[k := x]> m) = msum f m - (match m !! k with Some y => f y | None => 0 end) + f x.
Proof.
  destruct (m !! k) as [y|] eqn:E.
  - rewrite <- (insert_id m k y E) at 2. rewrite <- (insert_delete_eq m k y).
    rewrite <- (insert_delete_eq m k x). rewrite !msum_insert_new by apply lookup_delete_eq. lia.
  - rewrite msum_insert_new by done. lia.
Qed.

Lemma msum_nonneg {A} (f : A -> Z) m : (forall x, 0 <= f x) -> 0 <= msum f m.
Proof.
  intros H. induction m as [|k x m Hk IH] using map_ind; [by rewrite msum_empty|].
  rewrite msum_insert_new by done. specialize (H x). lia.
Qed.

End TableSum.

(** ** Frames *)
Module SubgraphFrame.
Import Subgraph.

Section Frame.
Context {G : GraphTs} {X : Type}.

(** A computation that leaves a view of the database as it is, whether it throws or not. *)
Definition frame {A} (V : DB -> X) (e : St DB A) : Prop := forall s, V (snd (e s)) = V s.

(** A view that reads nothing but the Troves, the deposits, the tokens and their balances, and of
    [Global] the counts of Troves and the pending deposit update. *)
Class Insensitive (V : DB -> X) : Prop := {
  ins_systemState id x s : V (saveSystemState id x s) = V s;
  ins_user id x s : V (saveUser id x s) = V s;
  ins_transaction id x s : V (saveTransaction id x s) = V s;
  ins_troveChange id x s : V (saveTroveChange id x s) = V s;
  ins_depositChange id x s : V (saveStabilityDepositChange id x s) = V s;
  ins_priceChange id x s : V (savePriceChange id x s) = V s;
  ins_collSurplusChange id x s : V (saveCollSurplusChange id x s) = V s;
  ins_liquidation id x s : V (saveLiquidation id x s) = V s;
  ins_redemption id x s : V (saveRedemption id x s) = V s;
  ins_allowance id x s : V (saveTokenAllowance id x s) = V s;
  ins_global g s : troveNumbers g = troveNumbers (globalOf s) ->
    tmpDepositUpdate g = tmpDepositUpdate (globalOf s) -> V (saveGlobal g s) = V s;
}.

Context (V : DB -> X) {HV : Insensitive V}.

Lemma frame_ret {A} (a : A) : frame V (st_ret a).
Proof. by intros s. Qed.
Lemma frame_throw {A} m : frame V (st_throw (A := A) m).
Proof. by intros s. Qed.
Lemma frame_gets {A} (f : DB -> A) : frame V (st_gets f).
Proof. by intros s. Qed.
Lemma frame_lift {A} (r : Res A) : frame V (st_lift r).
Proof. by intros s. Qed.
Lemma frame_modify f : (forall s, V (f s) = V s) -> frame V (st_modify f).
Proof. intros H s. apply H. Qed.
Lemma frame_bind {A B} (e : St DB A) (k : A -> St DB B) :
  frame V e -> (forall a, frame V (k a)) -> frame V (st_bind e k).
Proof.
  intros He Hk s. unfold st_bind. pose proof (He s) as H. destruct (e s) as [ [a|m] s']; [|done].
  cbn in H. rewrite <- H. apply Hk.
Qed.
Lemma frame_modifyGlobal f :
  (forall g, troveNumbers (f g) = troveNumbers g) ->
  (forall g, tmpDepositUpdate (f g) = tmpDepositUpdate g) -> frame V (modifyGlobal f).
Proof. intros H1 H2 s. cbn. apply ins_global; auto. Qed.
Lemma frame_increaseCounter key : frame V (increaseCounter key).
Proof. intros s. cbn. apply ins_global; by destruct key. Qed.

End Frame.

Create HintDb frame.
#[export] Hint Extern 1 (Insensitive _) => typeclasses eauto : frame.

(** Runs through a handler, each step by a rule or by a lemma of the database. *)
Ltac frame_steps :=
  repeat first
    [ solve [eauto with frame]
    | simple apply frame_increaseCounter; typeclasses eauto
    | simple apply frame_modifyGlobal; [typeclasses eauto | by intros [] | by intros [] ]
    | simple apply frame_bind; [|intros ?]
    | apply frame_ret | apply frame_throw | apply frame_gets | apply frame_lift
    | apply frame_modify; intros ?;
      solve [apply ins_systemState | apply ins_user | apply ins_transaction
            | apply ins_troveChange | apply ins_depositChange | apply ins_priceChange
            | apply ins_collSurplusChange | apply ins_liquidation | apply ins_redemption
            | apply ins_allowance]
    | match goal with
      | |- frame _ (let '(_, _) := ?p in _) => destruct p
      | |- frame _ (match ?x with _ => _ end) => destruct x
      end ].

Section Helpers.
Context {G : GraphTs} {X : Type} (V : DB -> X) {HV : Insensitive V}.

Lemma frame_getTransaction e : frame V (getTransaction e).
Proof. unfold getTransaction, loadBy, getTransactionSequenceNumber. frame_steps. Qed.
Lemma frame_getUser u : frame V (getUser u).
Proof. unfold getUser, loadBy. frame_steps. Qed.
Lemma frame_getCurrentSystemState : frame V getCurrentSystemState.
Proof.
  unfold getCurrentSystemState, getGlobal, loadBy, getSystemStateSequenceNumber,
    setCurrentSystemState. frame_steps.
Qed.
Lemma frame_bumpSystemState x : frame V (bumpSystemState x).
Proof.
  unfold bumpSystemState, getSystemStateSequenceNumber, setCurrentSystemState. frame_steps.
Qed.

End Helpers.
#[export] Hint Resolve frame_getTransaction frame_getUser frame_getCurrentSystemState
  frame_bumpSystemState : frame.

Section Handlers.
Context {G : GraphTs} {X : Type} (V : DB -> X) {HV : Insensitive V}.

Lemma frame_getCurrentPrice : frame V getCurrentPrice.
Proof. unfold getCurrentPrice. frame_steps. Qed.
Lemma frame_beginChange e : frame V (beginChange e).
Proof. unfold beginChange, getChangeSequenceNumber. frame_steps. Qed.
Lemma frame_finishChange b : frame V (finishChange b).
Proof. unfold finishChange. frame_steps. Qed.
Lemma frame_totalsAfter tc x : frame V (totalsAfter tc x).
Proof. unfold totalsAfter. frame_steps. Qed.
Lemma frame_byDeposit op c : frame V (updateSystemStateByStabilityDepositChange op c).
Proof. unfold updateSystemStateByStabilityDepositChange. frame_steps. Qed.
Lemma frame_byCollSurplus c : frame V (updateSystemStateByCollSurplusChange c).
Proof. unfold updateSystemStateByCollSurplusChange. frame_steps. Qed.
Lemma frame_getCurrentLiquidation e : frame V (getCurrentLiquidation e).
Proof.
  unfold getCurrentLiquidation, getGlobal, loadBy, getLiquidationSequenceNumber,
    setCurrentLiquidation. frame_steps.
Qed.
Lemma frame_getCurrentRedemption e : frame V (getCurrentRedemption e).
Proof.
  unfold getCurrentRedemption, getGlobal, loadBy, getRedemptionSequenceNumber,
    setCurrentRedemption. frame_steps.
Qed.

End Handlers.
#[export] Hint Resolve frame_getCurrentPrice frame_beginChange frame_finishChange
  frame_totalsAfter frame_byDeposit frame_byCollSurplus frame_getCurrentLiquidation
  frame_getCurrentRedemption : frame.

Section Tops.
Context {G : GraphTs} {X : Type} (V : DB -> X) {HV : Insensitive V}.

Lemma frame_byTrove tc : frame V (updateSystemStateByTroveChange tc).
Proof. unfold updateSystemStateByTroveChange. frame_steps. Qed.
Lemma frame_updatePrice e p : frame V (updatePrice e p).
Proof. unfold updatePrice. frame_steps. Qed.
Lemma frame_updateUserClaimColl e u c : frame V (updateUserClaimColl e u c).
Proof. unfold updateUserClaimColl. frame_steps. Qed.
Lemma frame_finishCurrentLiquidation e a b c d : frame V (finishCurrentLiquidation e a b c d).
Proof. unfold finishCurrentLiquidation, setCurrentLiquidation. frame_steps. Qed.
Lemma frame_finishCurrentRedemption e a b c d : frame V (finishCurrentRedemption e a b c d).
Proof. unfold finishCurrentRedemption. frame_steps. Qed.
Lemma frame_borrowingFee f : frame V (handleTHUSDBorrowingFeePaid f).
Proof.
  unfold handleTHUSDBorrowingFeePaid, setBorrowingFeeOfLastTroveChange,
    getLastChangeSequenceNumber, getGlobal, loadBy, increaseTotalBorrowingFeesPaid. frame_steps.
Qed.
Lemma frame_updateAllowance e o sp v : frame V (updateAllowance e o sp v).
Proof. unfold updateAllowance, getTokenAllowance, loadBy. frame_steps. Qed.
Lemma frame_updateTotalRedistributed c d : frame V (updateTotalRedistributed c d).
Proof. unfold updateTotalRedistributed. frame_steps. Qed.

End Tops.
#[export] Hint Resolve frame_byTrove frame_updatePrice frame_updateUserClaimColl
  frame_finishCurrentLiquidation frame_finishCurrentRedemption frame_borrowingFee
  frame_updateAllowance frame_updateTotalRedistributed : frame.

End SubgraphFrame.

(** ** Views, reachable databases *)
Module SubgraphFacts.
Import Subgraph SubgraphFrame TableSum.

Section Facts.
Context {G : GraphTs}.

Definition tokenView (s : DB) := (tokens s, tokenBalances s).
Definition troveView (s : DB) := (troves s, troveNumbers (globalOf s)).
Definition depositView (s : DB) := (stabilityDeposits s, tmpDepositUpdate (globalOf s)).

#[export] Instance tokenView_insensitive : Insensitive tokenView.
Proof. by constructor. Qed.
#[export] Instance troveView_insensitive : Insensitive troveView.
Proof. constructor; try done. intros g s H _. unfold troveView. cbn. by rewrite H. Qed.
#[export] Instance depositView_insensitive : Insensitive depositView.
Proof. constructor; try done. intros g s _ H. unfold depositView. cbn. by rewrite H. Qed.

(** The databases the indexer reaches: each event's handler runs to the end (a handler that throws
    stops the indexer, and its writes are dropped); [wf] says which events come. *)
Inductive indexed (wf : DB -> Event -> ContractEvent -> Prop) : DB -> Prop :=
| indexed_empty : indexed wf emptyDB
| indexed_step s event e s' :
    indexed wf s -> wf s event e -> handle event e s = (Ok tt, s') -> indexed wf s'.

(** A bind whose first part leaves a view alone. *)
Lemma frame_bind_inv {A B} {X} (V : DB -> X) (e : St DB A) (k : A -> St DB B) s b s'' :
  frame V e -> st_bind e k s = (Ok b, s'') ->
  exists a s', e s = (Ok a, s') /\ V s' = V s /\ k a s' = (Ok b, s'').
Proof.
  intros He H. apply st_bind_inv in H as (a & s' & H1 & H2). exists a, s'.
  split; [done|]. split; [|done]. pose proof (He s) as Hs. by rewrite H1 in Hs.
Qed.

Lemma frame_run {A} {X} (V : DB -> X) (e : St DB A) s r s' :
  frame V e -> e s = (r, s') -> V s' = V s.
Proof. intros He H. pose proof (He s) as Hs. by rewrite H in Hs. Qed.

(** *** The token view *)

Lemma frame_token_global f : frame tokenView (modifyGlobal f).
Proof. by intros s. Qed.
Lemma frame_token_trove id x : frame tokenView (st_modify (saveTrove id x)).
Proof. by intros s. Qed.
Lemma frame_token_deposit id x : frame tokenView (st_modify (saveStabilityDeposit id x)).
Proof. by intros s. Qed.
Lemma frame_token_saveGlobal g : frame tokenView (st_modify (saveGlobal g)).
Proof. by intros s. Qed.
Local Hint Resolve frame_token_global frame_token_trove frame_token_deposit
  frame_token_saveGlobal : frame.

Lemma frame_token_getTrove u : frame tokenView (getTrove u).
Proof.
  unfold getTrove, loadBy, increaseNumberOfOpenTroves, modifyNumbers. frame_steps.
Qed.
Lemma frame_token_setTroveStatus a b : frame tokenView (setTroveStatus a b).
Proof.
  unfold setTroveStatus, decreaseNumberOfTrovesClosedByOwner, decreaseNumberOfLiquidatedTroves,
    decreaseNumberOfRedeemedTroves, increaseNumberOfTrovesClosedByOwner,
    increaseNumberOfLiquidatedTroves, increaseNumberOfRedeemedTroves, modifyNumbers. frame_steps.
Qed.
Local Hint Resolve frame_token_getTrove frame_token_setTroveStatus : frame.

Lemma frame_token_updateTrove e op b c d st : frame tokenView (updateTrove e op b c d st).
Proof. unfold updateTrove, getGlobal. cbv zeta. frame_steps. Qed.
Local Hint Resolve frame_token_updateTrove : frame.

Lemma frame_token_getDeposit u : frame tokenView (getStabilityDeposit u).
Proof. unfold getStabilityDeposit, loadBy. frame_steps. Qed.
Lemma frame_token_byOperation e u d op n g :
  frame tokenView (updateStabilityDepositByOperation e u d op n g).
Proof. unfold updateStabilityDepositByOperation. cbv zeta. frame_steps. Qed.
Local Hint Resolve frame_token_getDeposit frame_token_byOperation : frame.

Lemma frame_token_updateDeposit e u n : frame tokenView (updateStabilityDeposit e u n).
Proof. unfold updateStabilityDeposit. cbv zeta. frame_steps. Qed.
Lemma frame_token_withdrawGain e u c l :
  frame tokenView (withdrawCollateralGainFromStabilityDeposit e u c l).
Proof. unfold withdrawCollateralGainFromStabilityDeposit. cbv zeta. frame_steps. Qed.
Lemma frame_token_swap v : frame tokenView (swapTmpDepositUpdate v).
Proof. unfold swapTmpDepositUpdate, getGlobal. cbv zeta. frame_steps. Qed.
Local Hint Resolve frame_token_updateDeposit frame_token_withdrawGain frame_token_swap : frame.

(** Every handler but that of transfers leaves tokens and balances alone. *)
Lemma frame_token_handle event e :
  (forall from to v, e <> EvTransfer from to v) -> frame tokenView (handle event e).
Proof.
  intros Ht. destruct e; cbn [handle]; try (by exfalso; eapply Ht);
    unfold handleBorrowerTroveUpdated, handleTroveUpdated, handleTroveLiquidated,
      applyRedistributionToTroveBeforeLiquidation, handleLiquidation, handleRedemption,
      handleLTermsUpdated, handleLastGoodPrice, handleUserDepositChanged,
      handleCollateralGainWithdrawn, handleCollSurplusBalanceUpdated, handleTokenApproval,
      getGlobal; cbv zeta; frame_steps.
Qed.

(** *** The ledger of a token *)

Definition supply (token : string) (s : DB) : Z :=
  match tokens s !! token with Some t => totalSupply t | None => 0 end.

Definition heldOf (token : string) (b : TokenBalance) : Z :=
  if String.eqb (tb_token b) token then balance b else 0.

(** The sum of the balances of a token. *)
Definition held (token : string) (s : DB) : Z := msum (heldOf token) (tokenBalances s).

(** A hexadecimal address holds no dash, so that balance identifiers are unambiguous. *)
Definition isAddress (a : string) : Prop := Js.includes "-" a = false.

Definition balancesOk (s : DB) : Prop :=
  forall id b, tokenBalances s !! id = Some b ->
    id = balanceId (tb_token b) (tb_owner b) /\ isAddress (tb_token b) /\
    tb_owner b <> ZERO_ADDRESS.

Lemma balanceId_inj t o t' o' :
  isAddress t -> isAddress t' -> balanceId t o = balanceId t' o' -> t = t' /\ o = o'.
Proof.
  unfold isAddress, balanceId. intros Ht Ht' H.
  revert t' Ht' H; induction t as [|c t IH]; intros [|c' t'] Ht' H; cbn in *.
  - by injection H.
  - injection H as <- _. cbn in Ht'. discriminate.
  - injection H as -> _. cbn in Ht. discriminate.
  - injection H as <- H. bool_to_prop. destruct (IH ltac:(done) t' ltac:(done) H) as [-> ->]. done.
Qed.

Definition oldBalance (id : string) (s : DB) : Z :=
  match tokenBalances s !! id with Some b => balance b | None => 0 end.

Lemma changeBalance_ok t o f s :
  balancesOk s -> isAddress t -> exists s',
    changeBalance t o f s = (Ok tt, s') /\ tokens s' = tokens s /\
    tokenBalances s' = <[balanceId t o :=
      mkTokenBalance t o (f (oldBalance (balanceId t o) s))]> (tokenBalances s).
Proof.
  intros Hok Ht. unfold changeBalance, getTokenBalance.
  assert (exists u s1, getUser o s = (Ok u, s1)) as (u & s1 & Hu).
  { unfold getUser, loadBy, st_bind, st_gets. destruct (users s !! o); by do 2 eexists. }
  pose proof (frame_run tokenView _ _ _ _ (frame_getUser tokenView o) Hu) as HV.
  injection HV as HV1 HV2. unfold st_bind. rewrite Hu. unfold loadBy, st_gets. rewrite HV2.
  unfold oldBalance. destruct (tokenBalances s !! balanceId t o) as [b|] eqn:Hb.
  - eexists; split; [reflexivity|]. cbn. split; [done|]. rewrite HV2.
    destruct (Hok _ _ Hb) as (Hid & Hb1 & _). apply balanceId_inj in Hid as [<- <-]; done.
  - eexists; split; [reflexivity|]. cbn. split; [done|]. by rewrite HV2, insert_insert_eq.
Qed.

Lemma balancesOk_insert s s' t o v :
  balancesOk s -> isAddress t -> o <> ZERO_ADDRESS ->
  tokenBalances s' = <[balanceId t o := mkTokenBalance t o v]> (tokenBalances s) -> balancesOk s'.
Proof.
  intros Hok Ht Ho H id b. rewrite H. intros [[<- <-]|[Hne Hb]]%lookup_insert_Some; [done|].
  by apply Hok.
Qed.

Lemma held_insert s s' t o v token :
  balancesOk s -> isAddress t ->
  tokenBalances s' = <[balanceId t o := mkTokenBalance t o v]> (tokenBalances s) ->
  held token s' = held token s +
    (if String.eqb t token then v - oldBalance (balanceId t o) s else 0).
Proof.
  intros Hok Ht H. unfold held, oldBalance. rewrite H, msum_insert.
  unfold heldOf at 3. cbn [tb_token balance].
  destruct (tokenBalances s !! balanceId t o) as [b|] eqn:Hb.
  - destruct (Hok _ _ Hb) as (Hid & Hb1 & _). apply balanceId_inj in Hid as [Hid _]; [|done|done].
    unfold heldOf at 2. rewrite <- Hid. destruct (String.eqb t token); lia.
  - destruct (String.eqb t token); lia.
Qed.

Lemma getToken_ok t s :
  exists k s', getToken t s = (Ok k, s') /\ tokenBalances s' = tokenBalances s /\
    tokens s' !! t = Some k /\ totalSupply k = supply t s /\
    (forall t', supply t' s' = supply t' s).
Proof.
  unfold getToken, loadBy, st_bind, st_gets, supply. destruct (tokens s !! t) as [k|] eqn:Hk.
  - exists k, s. by rewrite Hk.
  - do 2 eexists. split; [reflexivity|]. cbn. split; [done|].
    split; [by rewrite lookup_insert_eq|]. split; [done|]. intros t'.
    destruct (decide (t = t')) as [<-|Hne].
    + by rewrite lookup_insert_eq, Hk.
    + by rewrite lookup_insert_ne.
Qed.

(** What one side of a transfer does: it changes the supply, or one balance. *)
Definition moved (t token : string) (zero : bool) (v : Z) : Z :=
  if String.eqb t token then if zero then v else 0 else 0.

Lemma supply_saveToken t k token s :
  supply token (saveToken t k s) = if String.eqb t token then totalSupply k else supply token s.
Proof.
  unfold supply. cbn. destruct (String.eqb_spec t token) as [<-|Hne];
    [by rewrite lookup_insert_eq|by rewrite lookup_insert_ne].
Qed.

Lemma supply_eq t k s : tokens s !! t = Some k -> supply t s = totalSupply k.
Proof. unfold supply. by intros ->. Qed.

(** What a transfer does to the supplies and to the balances. *)
Lemma updateBalance_ok event from to v s :
  balancesOk s -> isAddress (address event) ->
  exists s', updateBalance event from to v s = (Ok tt, s') /\ balancesOk s' /\
    (forall token, supply token s' = supply token s +
       moved (address event) token (String.eqb from ZERO_ADDRESS) v -
       moved (address event) token (String.eqb to ZERO_ADDRESS) v) /\
    (forall token, held token s' = held token s -
       moved (address event) token (negb (String.eqb from ZERO_ADDRESS)) v +
       moved (address event) token (negb (String.eqb to ZERO_ADDRESS)) v).
Proof.
  intros Hb Ha. set (t := address event) in *. unfold updateBalance. fold t. cbv zeta.
  destruct (getToken_ok t s) as (k & s1 & H1 & HB1 & Hk1 & Hs1 & HT1).
  rewrite (st_bind_Ok _ _ _ _ _ H1).
  assert (balancesOk s1) as Hb1 by (unfold balancesOk; by rewrite HB1).
  assert (forall token, held token s1 = held token s) as Hh1 by (intros; unfold held; by rewrite HB1).
  set (first := if String.eqb from ZERO_ADDRESS then _ else _).
  assert (exists k2 s2, first s1 = (Ok k2, s2) /\ balancesOk s2 /\ tokens s2 !! t = Some k2 /\
     (forall token, supply token s2 = supply token s +
        moved t token (String.eqb from ZERO_ADDRESS) v) /\
     (forall token, held token s2 = held token s -
        moved t token (negb (String.eqb from ZERO_ADDRESS)) v))
    as (k2 & s2 & H2 & Hb2 & Hk2 & HT2 & Hh2).
  { subst first. unfold moved. destruct (String.eqb_spec from ZERO_ADDRESS) as [->|Hf].
    - do 2 eexists. split; [reflexivity|]. split; [exact Hb1|].
      split; [apply lookup_insert_eq|]. split; intros token.
      + rewrite supply_saveToken, HT1. destruct (String.eqb_spec t token) as [<-|_]; cbn; lia.
      + etransitivity; [apply Hh1|]. cbn [negb]. destruct (String.eqb t token); lia.
    - destruct (changeBalance_ok t from (fun b => b - v) s1 Hb1 Ha) as (s2 & H2 & HK2 & HB2).
      exists k, s2. rewrite (st_bind_Ok _ _ _ _ _ H2). split; [done|].
      split; [by eapply balancesOk_insert|]. split; [by rewrite HK2|]. split; intros token.
      + unfold supply at 1. rewrite HK2. fold (supply token s1). rewrite HT1.
        destruct (String.eqb t token); lia.
      + rewrite (held_insert s1 s2 t from _ token Hb1 Ha HB2), Hh1. cbn [negb].
        destruct (String.eqb t token); lia. }
  rewrite (st_bind_Ok _ _ _ _ _ H2). unfold moved in *.
  destruct (String.eqb_spec to ZERO_ADDRESS) as [->|Hto].
  - eexists; split; [reflexivity|]. split; [exact Hb2|]. split; intros token.
    + rewrite supply_saveToken, <- HT2. pose proof (supply_eq _ _ _ Hk2) as Hk.
      destruct (String.eqb_spec t token) as [<-|_]; cbn; lia.
    + etransitivity; [apply Hh2|]. cbn [negb]. destruct (String.eqb t token); lia.
  - destruct (changeBalance_ok t to (fun b => b + v) s2 Hb2 Ha) as (s3 & H3 & HK3 & HB3).
    exists s3. split; [done|]. split; [by eapply balancesOk_insert|]. split; intros token.
    + unfold supply at 1. rewrite HK3. fold (supply token s2). rewrite HT2.
      destruct (String.eqb t token); lia.
    + rewrite (held_insert s2 s3 t to _ token Hb2 Ha HB3), Hh2. cbn [negb].
      destruct (String.eqb t token); lia.
Qed.

Lemma indexed_ledger s :
  indexed (fun _ event _ => isAddress (address event)) s ->
  balancesOk s /\ forall token, supply token s = held token s.
Proof.
  intros H. induction H as [|s event e s' _ [IH1 IH2] Ha Hh].
  - split; [intros id b; cbn; by rewrite lookup_empty|]. intros token. unfold held. cbn.
    by rewrite msum_empty.
  - assert ((exists from to v, e = EvTransfer from to v) \/
      (forall from to v, e <> EvTransfer from to v)) as [(f & t & v & ->)|Hne]
      by (destruct e; by eauto).
    + destruct (updateBalance_ok event f t v s IH1 Ha) as (s1 & H1 & Hb & HS & HH).
      cbn [handle] in Hh. unfold handleTokenTransfer in Hh. rewrite H1 in Hh. injection Hh as <-.
      split; [done|]. intros token. rewrite HS, HH, IH2. unfold moved.
      destruct (String.eqb (address event) token), (String.eqb f ZERO_ADDRESS),
        (String.eqb t ZERO_ADDRESS); cbn; lia.
    + assert (tokenView s' = tokenView s) as HV.
      { eapply frame_run; [|exact Hh]. by apply frame_token_handle. }
      injection HV as HV1 HV2. unfold balancesOk, supply, held in *. by rewrite HV1, HV2.
Qed.

(** C12: in every database the indexer reaches, whatever events came, the total supply recorded for
    a token is the sum of the balances recorded for its holders, each balance is filed under its
    token and owner, and the zero address holds none; and the handler of a transfer then does not
    throw: it adds a mint to the token's supply, takes a burn off it, and any other transfer leaves
    every supply as it was. *)
Theorem token_ledger s :
  indexed (fun _ event _ => isAddress (address event)) s ->
  (forall token, supply token s = held token s) /\
  (forall id b, tokenBalances s !! id = Some b ->
     id = balanceId (tb_token b) (tb_owner b) /\ tb_owner b <> ZERO_ADDRESS) /\
  (forall event from to v, isAddress (address event) ->
     exists s', handle event (EvTransfer from to v) s = (Ok tt, s') /\
       forall token, supply token s' = supply token s +
         (if String.eqb (address event) token
          then (if String.eqb from ZERO_ADDRESS then v else 0) -
               (if String.eqb to ZERO_ADDRESS then v else 0) else 0)).
Proof.
  intros [Hb Hl]%indexed_ledger. split; [done|].
  split; [intros id b Hi; by apply Hb in Hi as (? & _ & ?)|]. intros event from to v Ha.
  destruct (updateBalance_ok event from to v s Hb Ha) as (s' & H & _ & HS & _).
  exists s'. split; [exact H|]. intros token. rewrite HS. unfold moved.
  destruct (String.eqb (address event) token); lia.
Qed.

(** *** The counts of Troves *)

Lemma i32_i32_add a b : i32 (i32 a + b) = i32 (a + b).
Proof.
  unfold i32. f_equal. replace ((a + 2 ^ 31) mod 2 ^ 32 - 2 ^ 31 + b + 2 ^ 31)
    with ((a + 2 ^ 31) mod 2 ^ 32 + b) by lia.
  rewrite Zplus_mod_idemp_l. f_equal. lia.
Qed.
Lemma i32_i32_sub a b : i32 (i32 a - b) = i32 (a - b).
Proof. by rewrite <- Z.add_opp_r, i32_i32_add, Z.add_opp_r. Qed.
Lemma i32_small z : 0 <= z < 2 ^ 31 -> i32 z = z.
Proof. intros H. unfold i32. rewrite Z.mod_small; lia. Qed.

(** The Troves with a status. *)
Definition hasStatus (st : TroveStatus) (t : Trove) : Z :=
  if TroveStatus_eqb (status t) st then 1 else 0.
Definition count (st : TroveStatus) (m : gmap string Trove) : Z := msum (hasStatus st) m.

Lemma count_nonneg st m : 0 <= count st m.
Proof. apply msum_nonneg. intros t. unfold hasStatus. by destruct TroveStatus_eqb. Qed.

(** A Trove belongs to exactly one count. *)
Lemma count_total m :
  count open m + count closedByOwner m + count closedByLiquidation m + count closedByRedemption m =
  Z.of_nat (size m).
Proof.
  induction m as [|k t m Hk IH] using map_ind; [done|]. unfold count in *.
  rewrite !msum_insert_new by done. rewrite map_size_insert_None by done.
  unfold hasStatus at 1 3 5 7. destruct (status t); cbn [TroveStatus_eqb]; lia.
Qed.

(** The counts of the Troves of a table. *)
Definition numbersOf (m : gmap string Trove) : TroveNumbers :=
  mkNumbers (i32 (count open m)) (i32 (count closedByLiquidation m))
    (i32 (count closedByRedemption m)) (i32 (count closedByOwner m)) (i32 (Z.of_nat (size m))).

Definition numbersAre (v : gmap string Trove * TroveNumbers) : Prop :=
  snd v = numbersOf (fst v) /\
  forall b t, fst v !! b = Some t -> status t <> open ->
    collateral t = decimalize 0 /\ debt t = decimalize 0.


(** **** What leaves the Troves and their counts alone *)

Lemma frame_trove_deposit id x : frame troveView (st_modify (saveStabilityDeposit id x)).
Proof. by intros s. Qed.
Lemma frame_trove_token id x : frame troveView (st_modify (saveToken id x)).
Proof. by intros s. Qed.
Lemma frame_trove_balance id x : frame troveView (st_modify (saveTokenBalance id x)).
Proof. by intros s. Qed.
Lemma frame_trove_swap v : frame troveView (swapTmpDepositUpdate v).
Proof. by intros s. Qed.
Local Hint Resolve frame_trove_deposit frame_trove_token frame_trove_balance
  frame_trove_swap : frame.

Lemma frame_trove_getDeposit u : frame troveView (getStabilityDeposit u).
Proof. unfold getStabilityDeposit, loadBy. frame_steps. Qed.
Lemma frame_trove_byOperation e u d op n g :
  frame troveView (updateStabilityDepositByOperation e u d op n g).
Proof. unfold updateStabilityDepositByOperation. cbv zeta. frame_steps. Qed.
Local Hint Resolve frame_trove_getDeposit frame_trove_byOperation : frame.

Lemma frame_trove_updateDeposit e u n : frame troveView (updateStabilityDeposit e u n).
Proof. unfold updateStabilityDeposit. cbv zeta. frame_steps. Qed.
Lemma frame_trove_withdrawGain e u c l :
  frame troveView (withdrawCollateralGainFromStabilityDeposit e u c l).
Proof. unfold withdrawCollateralGainFromStabilityDeposit. cbv zeta. frame_steps. Qed.
Lemma frame_trove_changeBalance t o f : frame troveView (changeBalance t o f).
Proof. unfold changeBalance, getTokenBalance, loadBy. frame_steps. Qed.
Lemma frame_trove_getToken t : frame troveView (getToken t).
Proof. unfold getToken, createToken, loadBy. cbv zeta. frame_steps. Qed.
Local Hint Resolve frame_trove_updateDeposit frame_trove_withdrawGain
  frame_trove_changeBalance frame_trove_getToken : frame.

Definition isTroveEvent (e : ContractEvent) : bool :=
  match e with
  | EvBorrowerTroveUpdated _ _ _ _ _ | EvTroveUpdated _ _ _ _ _ | EvTroveLiquidated _ => true
  | _ => false
  end.

Lemma frame_trove_handle event e : isTroveEvent e = false -> frame troveView (handle event e).
Proof.
  intros Ht. destruct e; cbn [handle]; try discriminate Ht;
    unfold handleLiquidation, handleRedemption, handleLTermsUpdated, handleLastGoodPrice,
      handleUserDepositChanged, handleCollateralGainWithdrawn, handleCollSurplusBalanceUpdated,
      handleTokenTransfer, updateBalance, handleTokenApproval; cbv zeta; frame_steps.
Qed.

(** **** What an update of a Trove does to the counts *)

Lemma getTrove_inv u s t s' :
  getTrove u s = (Ok t, s') ->
  (troves s !! u = Some t /\ s' = s) \/
  (troves s !! u = None /\ t = mkTrove u open DECIMAL_ZERO DECIMAL_ZERO None /\
   troves s' = troves s /\ exists n, n = troveNumbers (globalOf s) /\
   troveNumbers (globalOf s') =
     mkNumbers (i32 (numberOfOpenTroves n + 1)) (numberOfLiquidatedTroves n)
       (numberOfRedeemedTroves n) (numberOfTrovesClosedByOwner n)
       (i32 (totalNumberOfTroves n + 1))).
Proof.
  unfold getTrove. intros (o & s1 & H1 & H2)%st_bind_inv.
  unfold loadBy, st_gets in H1. injection H1 as <- <-.
  destruct (troves s !! u) as [x|] eqn:E; [injection H2 as <- <-; by left|]. right.
  apply (frame_bind_inv troveView) in H2 as (o & s1 & _ & HV & H2);
    [|apply frame_getUser; typeclasses eauto].
  injection HV as HV1 HV2. cbn in H2. injection H2 as <- <-. cbn. rewrite HV1, HV2.
  do 3 (split; [done|]). eexists. split; reflexivity.
Qed.

(** How a change of status moves the count of [st]. *)
Definition move (before after st : TroveStatus) : Z :=
  (if TroveStatus_eqb after st then 1 else 0) - (if TroveStatus_eqb before st then 1 else 0).

Lemma setTroveStatus_inv before after s x s' a b c d e :
  before = open \/ after = open ->
  troveNumbers (globalOf s) = mkNumbers (i32 a) (i32 b) (i32 c) (i32 d) (i32 e) ->
  setTroveStatus before after s = (Ok x, s') ->
  x = after /\ troves s' = troves s /\ troveNumbers (globalOf s') =
    mkNumbers (i32 (a + move before after open)) (i32 (b + move before after closedByLiquidation))
      (i32 (c + move before after closedByRedemption)) (i32 (d + move before after closedByOwner))
      (i32 e).
Proof.
  intros Hopen Hn H.
  assert (forall k, (k : Z) + 0 = k) as E0 by lia.
  destruct before, after; try (by destruct Hopen as [E|E]); cbn in H; injection H as <- <-;
    (split; [done|]); (split; [done|]); cbn; rewrite Hn; cbn;
    rewrite ?i32_i32_add, ?i32_i32_sub, ?E0; reflexivity.
Qed.

(** The updates the contracts announce: a Trove without collateral has no debt, and a Trove first
    heard of has collateral. *)
Definition okUpdate (s : DB) (b : string) (coll debt : Z) : Prop :=
  (coll = 0 -> debt = 0) /\ (troves s !! b = None -> coll <> 0).

(** The steps of an update that touch Troves or their counts. *)
Lemma updateTrove_inv event op b coll debt' stake s s' :
  updateTrove event op b coll debt' stake s = (Ok tt, s') ->
  exists t s1, getTrove b s = (Ok t, s1) /\
    (if bd_eq (decimalize coll) (collateral t) && bd_eq (decimalize debt') (debt t) then s' = s1
     else exists st s2 s3, troveView s2 = troveView s1 /\
       setTroveStatus (status t) (statusAfter op coll) s2 = (Ok st, s3) /\
       s' = saveTrove b (mkTrove (trove_owner t) st (decimalize coll) (decimalize debt')
              (Some (rawAfter (globalOf s) coll debt' stake))) s3).
Proof.
  unfold updateTrove. cbv zeta.
  intros (g & s0 & H0 & H)%st_bind_inv. injection H0 as <- <-.
  apply st_bind_inv in H as (t & s1 & H1 & H). exists t, s1. split; [exact H1|].
  destruct (_ && _); [by injection H as <-|].
  apply (frame_bind_inv troveView) in H as (x & s2 & _ & HV1 & H);
    [|apply frame_beginChange; typeclasses eauto].
  apply (frame_bind_inv troveView) in H as (p & s3 & _ & HV2 & H);
    [|apply frame_getCurrentPrice; typeclasses eauto].
  apply (frame_bind_inv troveView) in H as (l & s4 & _ & HV3 & H); [|frame_steps].
  apply (frame_bind_inv troveView) in H as (r & s5 & _ & HV4 & H); [|frame_steps].
  apply (frame_bind_inv troveView) in H as (u & s6 & _ & HV5 & H); [|frame_steps].
  apply (frame_bind_inv troveView) in H as (c & s7 & _ & HV6 & H); [|frame_steps].
  apply (frame_bind_inv troveView) in H as (v & s8 & _ & HV7 & H); [|frame_steps].
  apply st_bind_inv in H as (st & s9 & Hst & H). injection H as <-.
  exists st, s8, s9. split; [congruence|]. split; [exact Hst|done].
Qed.

Lemma statusAfter_open op coll : coll <> 0 -> statusAfter op coll = open.
Proof. intros H. unfold statusAfter. by rewrite (proj2 (Z.eqb_neq _ _) H). Qed.
Lemma statusAfter_closed op : statusAfter op 0 <> open.
Proof. unfold statusAfter. cbn. by destruct isLiquidation, isRedemption. Qed.

Lemma count_insert st m b t :
  count st (<[b := t]> m) = count st m + hasStatus st t -
    (match m !! b with Some o => hasStatus st o | None => 0 end).
Proof. unfold count. rewrite msum_insert. lia. Qed.

(** The counts after saving a Trove, from the counts moved along with its status; [k] is one for a
    Trove that was not in the table. *)
Lemma numbersOf_insert m b t before k :
  match m !! b with Some o => status o = before /\ k = 0 | None => before = open /\ k = 1 end ->
  numbersOf (<[b := t]> m) =
    mkNumbers (i32 (count open m + k + move before (status t) open))
      (i32 (count closedByLiquidation m + move before (status t) closedByLiquidation))
      (i32 (count closedByRedemption m + move before (status t) closedByRedemption))
      (i32 (count closedByOwner m + move before (status t) closedByOwner))
      (i32 (Z.of_nat (size m) + k)).
Proof.
  intros H. unfold numbersOf. rewrite !count_insert, map_size_insert. unfold hasStatus, move.
  destruct (m !! b) as [o|]; destruct H as [E ->]; subst before; cbn [TroveStatus_eqb id];
    f_equal; f_equal; destruct (status t); cbn [TroveStatus_eqb]; lia.
Qed.

Lemma updateTrove_counts {L : GraphTsLaws G} event op b coll debt' stake s s' :
  numbersAre (troveView s) -> okUpdate s b coll debt' ->
  updateTrove event op b coll debt' stake s = (Ok tt, s') -> numbersAre (troveView s').
Proof.
  intros [Hn Hz] [Hdebt Hnew] H. cbn in Hn, Hz.
  apply updateTrove_inv in H as (t & s1 & Ht & H).
  assert (exists k, troves s1 = troves s /\
    (match troves s !! b with
     | Some o => o = t /\ k = 0
     | None => coll <> 0 /\ status t = open /\ k = 1 /\ collateral t = DECIMAL_ZERO end) /\
    troveNumbers (globalOf s1) = mkNumbers (i32 (count open (troves s) + k))
      (i32 (count closedByLiquidation (troves s))) (i32 (count closedByRedemption (troves s)))
      (i32 (count closedByOwner (troves s))) (i32 (Z.of_nat (size (troves s)) + k)))
    as (k & Hs1 & Hk & Hn1).
  { apply getTrove_inv in Ht as [[-> ->]|(Hb & -> & Hs1 & n & -> & ->)].
    - exists 0. rewrite Hn, !Z.add_0_r. done.
    - exists 1. rewrite Hb, Hn, Hs1. cbn. rewrite !i32_i32_add. split; [done|].
      split; [|done]. by split; [apply Hnew|]. }
  destruct (_ && _) eqn:Heq.
  { subst s'. apply andb_true_iff in Heq as [Heq _]. destruct (troves s !! b) eqn:Hb.
    - destruct Hk as [_ ->]. split; cbn; rewrite Hs1; [|exact Hz].
      rewrite Hn1, !Z.add_0_r. done.
    - destruct Hk as (Hc & _ & _ & Hc0). rewrite Hc0 in Heq. by apply divDecimal_zero in Heq. }
  destruct H as (st & s2 & s3 & HV & Hst & ->). injection HV as HV1 HV2.
  assert (status t = open \/ statusAfter op coll = open) as Hopen.
  { destruct (Z.eq_dec coll 0) as [->|Hc]; [left|right; by apply statusAfter_open].
    destruct (troves s !! b) as [o|] eqn:Hb; [|by destruct Hk as (Hc & _)].
    destruct Hk as [-> ->]. destruct (TroveStatus_eqb (status t) open) eqn:E;
      [by destruct (status t)|].
    destruct (Hz b t Hb) as [E1 E2]; [intros E'; by rewrite E' in E|].
    rewrite (Hdebt eq_refl), E1, E2, !bd_eq_refl in Heq. discriminate. }
  rewrite Hn1 in HV2. apply (setTroveStatus_inv _ _ _ _ _ _ _ _ _ _ Hopen HV2) in Hst
    as (-> & Hs3 & Hn3).
  split; cbn; rewrite Hs3, HV1, Hs1.
  - etransitivity; [exact Hn3|]. symmetry. apply numbersOf_insert.
    destruct (troves s !! b); [by destruct Hk as [-> ->]|by destruct Hk as (_ & -> & -> & _)].
  - intros b' t'. intros [[<- <-]|[Hne Hb]]%lookup_insert_Some; [|by apply (Hz b')].
    cbn. intros Hc. destruct (Z.eq_dec coll 0) as [->|Hc'];
      [by rewrite (Hdebt eq_refl)|by rewrite statusAfter_open in Hc].
Qed.

(** Which events the contracts emit in a database: updates as in [okUpdate], and a liquidated Trove
    without collateral once its share of redistributions is added has no debt then. *)
Definition okTroveEvent (s : DB) (event : Event) (e : ContractEvent) : Prop :=
  match e with
  | EvBorrowerTroveUpdated b coll debt _ _ | EvTroveUpdated b coll debt _ _ =>
      okUpdate s b coll debt
  | EvTroveLiquidated b =>
      forall t r, troves s !! b = Some t -> raw t = Some r ->
      rawCollateral r + redistributed (rawTotalRedistributedCollateral (globalOf s))
        (rawSnapshotOfTotalRedistributedCollateral r) (rawStake r) = 0 ->
      rawDebt r + redistributed (rawTotalRedistributedDebt (globalOf s))
        (rawSnapshotOfTotalRedistributedDebt r) (rawStake r) = 0
  | _ => True
  end.

Lemma liquidated_counts {L : GraphTsLaws G} event b s s' :
  numbersAre (troveView s) -> okTroveEvent s event (EvTroveLiquidated b) ->
  handleTroveLiquidated event b s = (Ok tt, s') -> numbersAre (troveView s').
Proof.
  intros Hv Hok. unfold handleTroveLiquidated, applyRedistributionToTroveBeforeLiquidation.
  intros (g & s0 & H0 & H)%st_bind_inv. injection H0 as <- <-.
  apply st_bind_inv in H as (t & s1 & Ht & H). cbn in Hok.
  apply getTrove_inv in Ht as [[Hb ->]|(_ & -> & _)]; [|discriminate H].
  destruct (raw t) as [r|] eqn:Hr; [|discriminate H].
  eapply updateTrove_counts; [exact Hv| |exact H].
  split; [by apply (Hok t)|intros Hn; by rewrite Hb in Hn].
Qed.

Lemma indexed_numbers {L : GraphTsLaws G} s :
  indexed okTroveEvent s -> numbersAre (troveView s).
Proof.
  intros H. induction H as [|s event e s' _ IH Hok Hh].
  - split; [done|]. cbn. intros b t. by rewrite lookup_empty.
  - destruct (isTroveEvent e) eqn:He.
    + destruct e; try discriminate He; cbn [handle] in Hh;
        [eapply updateTrove_counts; [exact IH|exact Hok|exact Hh]..|
         eapply liquidated_counts; [exact IH|exact Hok|exact Hh] ].
    + rewrite (frame_run troveView _ _ _ _ (frame_trove_handle event e He) Hh). exact IH.
Qed.

(** C13: in every database the indexer reaches by the updates the contracts announce, the counts of
    open, liquidated, redeemed and owner-closed Troves kept in the global entity are the numbers of
    Troves of the database with each status, and the total is the number of Troves, as 32-bit
    integers; below 2^31 Troves they are exact, and the four counts add up to the total. *)
Theorem trove_counts {L : GraphTsLaws G} s :
  indexed okTroveEvent s ->
  troveNumbers (globalOf s) = numbersOf (troves s) /\
  (Z.of_nat (size (troves s)) < 2 ^ 31 ->
   let n := troveNumbers (globalOf s) in
   numberOfOpenTroves n = count open (troves s) /\
   totalNumberOfTroves n = Z.of_nat (size (troves s)) /\
   numberOfOpenTroves n + numberOfLiquidatedTroves n + numberOfRedeemedTroves n +
     numberOfTrovesClosedByOwner n = totalNumberOfTroves n).
Proof.
  intros [Hn _]%indexed_numbers. cbn in Hn. split; [done|]. intros Hsize. cbv zeta.
  rewrite Hn. unfold numbersOf. cbn. pose proof (count_total (troves s)) as Ht.
  pose proof (count_nonneg open (troves s)). pose proof (count_nonneg closedByOwner (troves s)).
  pose proof (count_nonneg closedByLiquidation (troves s)).
  pose proof (count_nonneg closedByRedemption (troves s)).
  rewrite !i32_small by lia. lia.
Qed.

(** An update without collateral and debt of a borrower without a Trove counts one more open
    Trove, but saves none: from then on the count of open Troves exceeds the open Troves. *)
Theorem unknown_empty_update {L : GraphTsLaws G} event op b stake s :
  troves s !! b = None ->
  exists s', updateTrove event op b 0 0 stake s = (Ok tt, s') /\ troves s' = troves s /\
    numberOfOpenTroves (troveNumbers (globalOf s')) =
      i32 (numberOfOpenTroves (troveNumbers (globalOf s)) + 1) /\
    totalNumberOfTroves (troveNumbers (globalOf s')) =
      i32 (totalNumberOfTroves (troveNumbers (globalOf s)) + 1).
Proof.
  intros Hb. unfold updateTrove. cbv zeta.
  assert (exists t s1, getTrove b s = (Ok t, s1)) as (t & s1 & Ht).
  { unfold getTrove, getUser, loadBy, st_bind, st_gets. rewrite Hb.
    destruct (users s !! b); by do 2 eexists. }
  exists s1. unfold st_bind at 1. cbn. rewrite (st_bind_Ok _ _ _ _ _ Ht).
  apply getTrove_inv in Ht as [[Hb' _]|(_ & -> & Hs1 & n & -> & Hn)]; [by rewrite Hb in Hb'|].
  cbn [collateral debt]. unfold decimalize, DECIMAL_ZERO, DECIMAL_SCALING_FACTOR.
  rewrite (proj2 (divDecimal_zero 0)) by done. cbn. by rewrite Hs1, Hn.
Qed.

(** *** The two events of a withdrawal *)

Definition returns {A} (e : St DB A) : Prop := forall s, exists a s', e s = (Ok a, s').

Lemma returns_ret {A} (a : A) : returns (st_ret a).
Proof. intros s. by exists a, s. Qed.
Lemma returns_gets {A} (f : DB -> A) : returns (st_gets f).
Proof. intros s. by exists (f s), s. Qed.
Lemma returns_modify f : returns (st_modify f).
Proof. intros s. by exists tt, (f s). Qed.
Lemma returns_bind {A B} (e : St DB A) (k : A -> St DB B) :
  returns e -> (forall a, returns (k a)) -> returns (st_bind e k).
Proof.
  intros He Hk s. destruct (He s) as (a & s1 & H). rewrite (st_bind_Ok _ _ _ _ _ H). apply Hk.
Qed.

(** A part that returns and leaves a view alone, at the head of a bind. *)
Lemma returns_frame {A B X} (V : DB -> X) (e : St DB A) (k : A -> St DB B) s :
  returns e -> frame V e -> exists a s', V s' = V s /\ st_bind e k s = k a s'.
Proof.
  intros He HV. destruct (He s) as (a & s1 & H). exists a, s1.
  split; [by eapply frame_run|by apply st_bind_Ok].
Qed.

(** Passes such a part; the state after it has the same view. *)
Ltac pass V a s' HV :=
  match goal with
  | |- context [st_bind ?e ?k ?s] =>
      destruct (returns_frame V e k s) as (a & s' & HV & ->); [by auto|by auto with frame|]
  end.

Ltac returns_steps :=
  repeat first
    [ solve [eauto with returns]
    | simple apply returns_bind; [|intros ?]
    | apply returns_ret | apply returns_gets | apply returns_modify
    | match goal with
      | |- returns (let '(_, _) := ?p in _) => destruct p
      | |- returns (match ?x with _ => _ end) => destruct x
      end ].

(** The block's number and time fit 32 bits. *)
Definition validEvent (event : Event) : Prop :=
  (exists n, toI32 (block_number event) = Ok n) /\
  (exists t, toI32 (block_timestamp event) = Ok t).

Lemma returns_getUser u : returns (getUser u).
Proof. unfold getUser, loadBy. returns_steps. Qed.
Lemma returns_getCurrentSystemState : returns getCurrentSystemState.
Proof.
  unfold getCurrentSystemState, getGlobal, loadBy, getSystemStateSequenceNumber, increaseCounter,
    setCurrentSystemState, modifyGlobal, getGlobal. returns_steps.
Qed.
Lemma returns_getTransaction event : validEvent event -> returns (getTransaction event).
Proof.
  intros [[n Hn] [t Ht]]. unfold getTransaction, loadBy, getTransactionSequenceNumber,
    increaseCounter, getGlobal. rewrite Hn, Ht. returns_steps.
  all: intros s; cbn; by do 2 eexists.
Qed.
#[local] Hint Resolve returns_getUser returns_getCurrentSystemState returns_getTransaction : core.
Lemma returns_beginChange event : validEvent event -> returns (beginChange event).
Proof.
  intros H. unfold beginChange, getChangeSequenceNumber, increaseCounter, getGlobal.
  returns_steps; auto.
Qed.

Lemma returns_finishChange b : returns (finishChange b).
Proof. unfold finishChange. destruct b as [[? ?] ?]. returns_steps; auto. Qed.
Lemma returns_byDeposit op c : returns (updateSystemStateByStabilityDepositChange op c).
Proof.
  unfold updateSystemStateByStabilityDepositChange, bumpSystemState, getSystemStateSequenceNumber,
    increaseCounter, setCurrentSystemState, modifyGlobal, getGlobal. cbv zeta.
  returns_steps; auto.
Qed.

#[local] Hint Resolve returns_beginChange returns_finishChange returns_byDeposit : core.

(** The amount of a user's deposit in a table, and the table with another. *)
Definition amountOf (u : string) (m : gmap string StabilityDeposit) : BigDecimal :=
  match m !! u with Some d => depositedAmount d | None => DECIMAL_ZERO end.
Definition setAmount (u : string) (x : BigDecimal) (m : gmap string StabilityDeposit) :=
  <[u := mkStabilityDeposit (match m !! u with Some d => sd_owner d | None => u end) x]> m.

(** The deposits after a user's new amount, and after the withdrawal of a gain. *)
Definition updated (u : string) (n : Z) (m : gmap string StabilityDeposit) :=
  if bd_eq (decimalize n) (amountOf u m) then m else setAmount u (decimalize n) m.
Definition gained (u : string) (c l : Z) (m : gmap string StabilityDeposit) :=
  if (c =? 0) && (l =? 0) then m else setAmount u (minus (amountOf u m) (decimalize l)) m.

Lemma getStabilityDeposit_ok u s :
  exists d s', getStabilityDeposit u s = (Ok d, s') /\ depositView s' = depositView s /\
    depositedAmount d = amountOf u (stabilityDeposits s) /\
    (forall x, setAmount u x (stabilityDeposits s) =
       <[u := mkStabilityDeposit (sd_owner d) x]> (stabilityDeposits s)).
Proof.
  unfold getStabilityDeposit, amountOf, setAmount. unfold loadBy at 1, st_gets, st_bind at 1.
  destruct (stabilityDeposits s !! u) as [d|] eqn:E; [by exists d, s|].
  destruct (returns_frame depositView (getUser u) (fun owner =>
    do! _ := st_modify (saveUser u (mkUser (user_trove owner) (Some u) (collSurplus owner))) in
    st_ret (mkStabilityDeposit u DECIMAL_ZERO)) s) as (a & s1 & HV & ->);
    [apply returns_getUser|apply frame_getUser; typeclasses eauto|].
  do 2 eexists. split; [reflexivity|]. split; [|done]. exact HV.
Qed.

Lemma byOperation_ok event u d op x g s :
  validEvent event ->
  exists s', updateStabilityDepositByOperation event u d op x g s =
    (Ok (mkStabilityDeposit (sd_owner d) x), s') /\ depositView s' = depositView s.
Proof.
  intros Hev. unfold updateStabilityDepositByOperation. cbv zeta.
  pass depositView begun s1 HV1. pass depositView y s2 HV2. pass depositView c s3 HV3.
  eexists. split; [reflexivity|]. rewrite <- HV1, <- HV2, <- HV3. done.
Qed.

Lemma swap_eq v s :
  swapTmpDepositUpdate v s = (Ok (tmpDepositUpdate (globalOf s)),
    saveGlobal (setTmpDepositUpdate
      (match tmpDepositUpdate (globalOf s) with None => Some v | Some _ => None end)
      (globalOf s)) s).
Proof. done. Qed.

Lemma updateStabilityDeposit_ok event u n s :
  validEvent event ->
  exists s', updateStabilityDeposit event u n s = (Ok tt, s') /\
    depositView s' =
      (updated u n (stabilityDeposits s), tmpDepositUpdate (globalOf s)).
Proof.
  intros Hev. unfold updateStabilityDeposit, updated. cbv zeta.
  destruct (getStabilityDeposit_ok u s) as (d & s1 & H1 & HV1 & Hd & Hset).
  rewrite (st_bind_Ok _ _ _ _ _ H1).
  pass depositView y s2 HV2.
  rewrite Hd, Hset. rewrite HV1 in HV2. destruct (bd_eq _ _); [by exists s2|].
  edestruct (byOperation_ok event u d) as (s3 & H3 & HV3); [exact Hev|].
  eexists. split; [erewrite st_bind_Ok by exact H3; reflexivity|].
  rewrite HV2 in HV3. by injection HV3 as <- <-.
Qed.

Lemma withdrawGain_ok event u c l s :
  validEvent event ->
  exists s', withdrawCollateralGainFromStabilityDeposit event u c l s = (Ok tt, s') /\
    depositView s' =
      (gained u c l (stabilityDeposits s), tmpDepositUpdate (globalOf s)).
Proof.
  intros Hev. unfold withdrawCollateralGainFromStabilityDeposit, gained. cbv zeta.
  destruct (_ && _); [by exists s|].
  destruct (getStabilityDeposit_ok u s) as (d & s1 & H1 & HV1 & Hd & Hset).
  rewrite (st_bind_Ok _ _ _ _ _ H1), Hd, Hset.
  edestruct (byOperation_ok event u d) as (s3 & H3 & HV3); [exact Hev|].
  eexists. split; [erewrite st_bind_Ok by exact H3; reflexivity|].
  rewrite HV1 in HV3. by injection HV3 as <- <-.
Qed.

Lemma amountOf_setAmount u x m : amountOf u (setAmount u x m) = x.
Proof. unfold amountOf, setAmount. by rewrite lookup_insert_eq. Qed.

Lemma updated_amount {L : GraphTsLaws G} u n m :
  bd_eq (decimalize n) (amountOf u (updated u n m)) = true.
Proof.
  unfold updated. destruct (bd_eq (decimalize n) (amountOf u m)) eqn:E; [done|]. by rewrite amountOf_setAmount, bd_eq_refl.
Qed.
Lemma setAmount_ne u u' x m : u' <> u -> setAmount u x m !! u' = m !! u'.
Proof. intros H. unfold setAmount. by rewrite lookup_insert_ne. Qed.
Lemma updated_gained_ne u u' n c l m :
  u' <> u -> updated u n (gained u c l m) !! u' = m !! u'.
Proof.
  intros H. unfold updated, gained.
  destruct (_ && _), (bd_eq _ _); by rewrite ?setAmount_ne.
Qed.

Lemma handleUserDepositChanged_ok event u n s :
  validEvent event ->
  exists s', handleUserDepositChanged event u n s = (Ok tt, s') /\
    depositView s' = match tmpDepositUpdate (globalOf s) with
      | None => (stabilityDeposits s, Some n)
      | Some _ => (updated u n (stabilityDeposits s), None)
      end.
Proof.
  intros Hev. unfold handleUserDepositChanged.
  rewrite (st_bind_Ok _ _ _ _ _ (swap_eq n s)).
  destruct (tmpDepositUpdate (globalOf s)); [|by eexists].
  by apply updateStabilityDeposit_ok.
Qed.

Lemma handleCollateralGainWithdrawn_ok event u c l s :
  validEvent event ->
  exists s', handleCollateralGainWithdrawn event u c l s = (Ok tt, s') /\
    depositView s' = match tmpDepositUpdate (globalOf s) with
      | None => (gained u c l (stabilityDeposits s), Some 0)
      | Some n => (updated u n (gained u c l (stabilityDeposits s)), None)
      end.
Proof.
  intros Hev. unfold handleCollateralGainWithdrawn.
  rewrite (st_bind_Ok _ _ _ _ _ (swap_eq 0 s)).
  edestruct (withdrawGain_ok event u c l) as (s1 & H1 & HV1); [exact Hev|].
  rewrite (st_bind_Ok _ _ _ _ _ H1). cbn in HV1. injection HV1 as HV1 HV2.
  destruct (tmpDepositUpdate (globalOf s)) as [n|].
  - destruct (updateStabilityDeposit_ok event u n s1 Hev) as (s2 & H2 & HV3).
    exists s2. split; [done|]. by rewrite HV3, HV1, HV2.
  - exists s1. split; [done|]. unfold depositView. by rewrite HV1, HV2.
Qed.

(** A withdrawal from the stability pool emits the new deposit and the withdrawn gain, in
    either order: both orders run to the end, leave the same table of deposits and no pending
    update, with the depositor's recorded amount equal to the announced deposit and every other
    deposit as it was. *)
Theorem withdrawal_events {L : GraphTsLaws G} event event' u n c l s :
  validEvent event -> validEvent event' -> tmpDepositUpdate (globalOf s) = None ->
  exists s1 s2 s3 s4,
    handle event (EvUserDepositChanged u n) s = (Ok tt, s1) /\
    handle event' (EvCollateralGainWithdrawn u c l) s1 = (Ok tt, s2) /\
    handle event (EvCollateralGainWithdrawn u c l) s = (Ok tt, s3) /\
    handle event' (EvUserDepositChanged u n) s3 = (Ok tt, s4) /\
    stabilityDeposits s2 = stabilityDeposits s4 /\
    tmpDepositUpdate (globalOf s2) = None /\ tmpDepositUpdate (globalOf s4) = None /\
    bd_eq (decimalize n) (amountOf u (stabilityDeposits s2)) = true /\
    forall u', u' <> u -> stabilityDeposits s2 !! u' = stabilityDeposits s !! u'.
Proof.
  intros Hev Hev' Htmp. cbn [handle].
  destruct (handleUserDepositChanged_ok event u n s Hev) as (s1 & H1 & HV1).
  destruct (handleCollateralGainWithdrawn_ok event' u c l s1 Hev') as (s2 & H2 & HV2).
  destruct (handleCollateralGainWithdrawn_ok event u c l s Hev) as (s3 & H3 & HV3).
  destruct (handleUserDepositChanged_ok event' u n s3 Hev') as (s4 & H4 & HV4).
  rewrite Htmp in HV1, HV3. injection HV1 as HV1 HT1. injection HV3 as HV3 HT3.
  rewrite HT1, HV1 in HV2. rewrite HT3, HV3 in HV4.
  injection HV2 as HV2 HT2. injection HV4 as HV4 HT4.
  exists s1, s2, s3, s4. rewrite HV2, HV4, HT2, HT4.
  do 7 (split; [done|]). split; [apply updated_amount|]. intros u'. apply updated_gained_ne.
Qed.

End Facts.
End SubgraphFacts.

(** ** Concrete runs, with rational numbers for the library's decimals *)
Module SubgraphRuns.
Import Subgraph SubgraphFacts.

Definition parse (s : string) : Q :=
  if String.eqb s "1000000000000000000" then inject_Z (10 ^ 18)
  else if String.eqb s "200" then inject_Z 200
  else if String.eqb s "1" then inject_Z 1 else inject_Z 0.

#[local] Instance rationals : GraphTs := {|
  BigDecimal := Q;
  fromString := parse;
  divDecimal z q := Qred (inject_Z z / q);
  plus a b := Qred (a + b);
  minus a b := Qred (a - b);
  times a b := Qred (a * b);
  div a b := Qred (a / b);
  truncate q n := Qred (inject_Z (Z.quot (Qnum q * 10 ^ n) (Zpos (Qden q))) / inject_Z (10 ^ n));
  bd_eq := Qeq_bool;
  bd_lt a b := negb (Qle_bool b a);
  bd_le := Qle_bool;
  toI32 z := if z <? 2 ^ 31 then Ok z else Throw "overflow converting value to i32";
  contract_name _ := "Threshold USD";
  contract_symbol _ := "thUSD";
|}.

#[local] Instance rationals_laws : GraphTsLaws rationals.
Proof.
  split; [apply Qeq_bool_refl|]. intros z. cbn [divDecimal fromString bd_eq rationals].
  unfold parse. cbn [String.eqb Ascii.eqb Bool.eqb]. rewrite Qeq_bool_iff, Qred_correct.
  change (inject_Z (10 ^ 18)) with (1000000000000000000 # 1)%Q.
  unfold Qeq, Qdiv, Qmult, Qinv, inject_Z. cbn [Qnum Qden]. lia.
Qed.

Definition ev : Event := mkEvent "0xf" "0xhash" "0xe" 100 1700000000.
Definition after (e : ContractEvent) (s : DB) : DB := snd (handle ev e s).

(** A database, and the one after an event whose handler runs to the end. *)
Lemma indexed_after wf e s :
  indexed wf s -> wf s ev e -> fst (handle ev e s) = Ok tt -> indexed wf (after e s).
Proof.
  intros Hs Hw H. apply (indexed_step wf s ev e); [done|done|]. unfold after.
  destruct (handle ev e s) as [r s']. cbn in H. by rewrite H.
Qed.

(** A mint, then a transfer. *)
Definition mint : DB := after (EvTransfer ZERO_ADDRESS "0xa" 5) emptyDB.
Definition minted : DB := after (EvTransfer "0xa" "0xb" 2) mint.
(** A price, then a Trove opened and closed. *)
Definition priced : DB := after (EvLastGoodPrice 2000) emptyDB.
Definition opened : DB := after (EvBorrowerTroveUpdated "0xa" 30 10 30 openTrove) priced.
Definition closed : DB := after (EvBorrowerTroveUpdated "0xa" 0 0 0 closeTrove) opened.

Lemma minted_indexed : indexed (fun _ event _ => isAddress (address event)) minted.
Proof.
  apply (indexed_after _ (EvTransfer "0xa" "0xb" 2) mint); [|reflexivity|vm_compute; reflexivity].
  apply (indexed_after _ (EvTransfer ZERO_ADDRESS "0xa" 5) emptyDB);
    [apply indexed_empty|reflexivity|vm_compute; reflexivity].
Qed.

Lemma token_ledger_witness :
  supply "0xf" minted = 5 /\ held "0xf" minted = 5.
Proof.
  assert (supply "0xf" minted = 5) as E by (vm_compute; reflexivity).
  split; [exact E|]. rewrite <- (proj1 (token_ledger minted minted_indexed) "0xf"). exact E.
Defined.

Lemma opened_trove : troves opened !! "0xa" <> None.
Proof.
  intros H. assert (match troves opened !! "0xa" with Some _ => true | None => false end = true)
    as E by (vm_compute; reflexivity). rewrite H in E. discriminate E.
Qed.

Lemma closed_indexed : indexed okTroveEvent closed.
Proof.
  apply (indexed_after _ (EvBorrowerTroveUpdated "0xa" 0 0 0 closeTrove) opened);
    [|split; [done|intros H; by destruct (opened_trove H)]|vm_compute; reflexivity].
  apply (indexed_after _ (EvBorrowerTroveUpdated "0xa" 30 10 30 openTrove) priced);
    [|split; intros H; [discriminate H|intros H'; discriminate H']|vm_compute; reflexivity].
  apply (indexed_after _ (EvLastGoodPrice 2000) emptyDB);
    [apply indexed_empty|exact I|vm_compute; reflexivity].
Qed.

Lemma trove_counts_witness :
  troveNumbers (globalOf closed) = mkNumbers 0 0 0 1 1 /\
  troveNumbers (globalOf closed) = numbersOf (troves closed).
Proof.
  split; [vm_compute; reflexivity|]. exact (proj1 (trove_counts closed closed_indexed)).
Defined.

Lemma unknown_empty_update_witness :
  exists s', updateTrove ev "closeTrove" "0xa" 0 0 0 emptyDB = (Ok tt, s') /\
    troves s' = ∅ /\ numberOfOpenTroves (troveNumbers (globalOf s')) = 1.
Proof.
  destruct (unknown_empty_update ev "closeTrove" "0xa" 0 emptyDB eq_refl) as (s' & H1 & H2 & H3 & _).
  exists s'. exact (conj H1 (conj H2 H3)).
Defined.

Lemma ev_valid : validEvent ev.
Proof. split; eexists; reflexivity. Qed.

Lemma withdrawal_events_witness :
  exists s1 s2, handle ev (EvUserDepositChanged "0xa" 7) emptyDB = (Ok tt, s1) /\
    handle ev (EvCollateralGainWithdrawn "0xa" 3 2) s1 = (Ok tt, s2) /\
    tmpDepositUpdate (globalOf s2) = None.
Proof.
  destruct (withdrawal_events ev ev "0xa" 7 3 2 emptyDB ev_valid ev_valid eq_refl)
    as (s1 & s2 & s3 & s4 & H1 & H2 & _ & _ & _ & H & _).
  exists s1, s2. exact (conj H1 (conj H2 H)).
Defined.

End SubgraphRuns.
