(* ===== verification/SubgraphSchema.v ===== *)
(** * The entities of the subgraph conform to its schema: [src/packages/subgraph/schema.graphql]

    The schema's types are the records of [Subgraph]; what a record does not say is that a
    reference to another entity resolves, that a field declared non-null is set, and that a name is
    one of its enumeration.  This is an invariant of the database: [safe] is a Hoare triple over
    the references known to resolve, proved of every helper and composed by a tactic. *)

From S2P Require Import Prelude Subgraph SubgraphProperties.
Import Subgraph SubgraphFacts.

Local Open Scope Z_scope.

Module Schema.

(** ** The schema *)
Section Schema.
Context {G : GraphTs}.

(** References, by the type they are to. *)
Inductive Ref : Type :=
| RTransaction (id : string)
| RSystemState (id : string)
| RUser (id : string)
| RTrove (id : string)
| RDeposit (id : string)
| RLiquidation (id : string)
| RRedemption (id : string)
| RToken (id : string).

Definition resolves (s : DB) (r : Ref) : Prop :=
  match r with
  | RTransaction id => is_Some (transactions s !! id)
  | RSystemState id => is_Some (systemStates s !! id)
  | RUser id => is_Some (users s !! id)
  | RTrove id => is_Some (troves s !! id)
  | RDeposit id => is_Some (stabilityDeposits s !! id)
  | RLiquidation id => is_Some (liquidations s !! id)
  | RRedemption id => is_Some (redemptions s !! id)
  | RToken id => is_Some (tokens s !! id)
  end.

(** The entities that have references or fields to check. *)
Inductive Entity : Type :=
| ETrove (t : Trove)
| EDeposit (d : StabilityDeposit)
| ETroveChange (c : TroveChange)
| EDepositChange (c : StabilityDepositChange)
| EPriceChange (c : PriceChange)
| ECollSurplusChange (c : CollSurplusChange)
| ELiquidation (l : Liquidation)
| ERedemption (r : Redemption)
| EBalance (b : TokenBalance)
| EAllowance (a : TokenAllowance).

Definition stored (s : DB) (x : Entity) : Prop :=
  match x with
  | ETrove t => exists id, troves s !! id = Some t
  | EDeposit d => exists id, stabilityDeposits s !! id = Some d
  | ETroveChange c => exists id, troveChanges s !! id = Some c
  | EDepositChange c => exists id, stabilityDepositChanges s !! id = Some c
  | EPriceChange c => exists id, priceChanges s !! id = Some c
  | ECollSurplusChange c => exists id, collSurplusChanges s !! id = Some c
  | ELiquidation l => exists id, liquidations s !! id = Some l
  | ERedemption r => exists id, redemptions s !! id = Some r
  | EBalance b => exists id, tokenBalances s !! id = Some b
  | EAllowance a => exists id, tokenAllowances s !! id = Some a
  end.

Definition changeRefs (c : Change) : list Ref :=
  [RTransaction (transaction c); RSystemState (systemStateBefore c);
   RSystemState (systemStateAfter c)].

Definition optionRef (f : string -> Ref) (o : option string) : list Ref :=
  match o with Some id => [f id] | None => [] end.

(** The references of an entity; those of a Trove's change to a liquidation or redemption may be
    absent. *)
Definition refs (x : Entity) : list Ref :=
  match x with
  | ETrove t => [RUser (trove_owner t)]
  | EDeposit d => [RUser (sd_owner d)]
  | ETroveChange c => changeRefs (tc_change c) ++ RTrove (tc_trove c) ::
      optionRef RLiquidation (tc_liquidation c) ++ optionRef RRedemption (tc_redemption c)
  | EDepositChange c => RDeposit (sdc_stabilityDeposit c) :: changeRefs (sdc_change c)
  | EPriceChange c => changeRefs (pc_change c)
  | ECollSurplusChange c => RUser (csc_user c) :: changeRefs (csc_change c)
  | ELiquidation l => [RTransaction (lq_transaction l); RUser (liquidator l)]
  | ERedemption r => [RTransaction (rd_transaction r); RUser (redeemer r)]
  | EBalance b => [RToken (tb_token b); RUser (tb_owner b)]
  | EAllowance a => [RToken (ta_token a); RUser (ta_owner a); RUser (spender a)]
  end.

(** The enumerations [TroveOperation] and [StabilityDepositOperation]. *)
Definition TroveOperation : list string :=
  ["openTrove"; "closeTrove"; "adjustTrove"; "accrueRewards"; "liquidateInNormalMode";
   "liquidateInRecoveryMode"; "redeemCollateral"].
Definition StabilityDepositOperation : list string :=
  ["depositTokens"; "withdrawTokens"; "withdrawCollateralGain"].

(** Fields that are set, and names of their enumeration. *)
Definition fieldsOk (x : Entity) : Prop :=
  match x with
  | ETrove t => is_Some (raw t)
  | ETroveChange c => In (troveOperation c) TroveOperation
  | EDepositChange c => In (stabilityDepositOperation c) StabilityDepositOperation
  | _ => True
  end.

(** What [s] and the references [m] that are about to be stored make resolve. *)
Definition known (m : list Ref) (s : DB) (r : Ref) : Prop := In r m \/ resolves s r.

(** The database conforms, but for references in [m]. *)
Definition Conforms (m : list Ref) (s : DB) : Prop :=
  forall x, stored s x -> Forall (known m s) (refs x) /\ fieldsOk x.

(** Nothing that resolves ceases to. *)
Definition grows (s s' : DB) : Prop := forall r, resolves s r -> resolves s' r.

Lemma schema_grows_refl s : grows s s.
Proof. by intros r. Qed.
Lemma schema_grows_trans s1 s2 s3 : grows s1 s2 -> grows s2 s3 -> grows s1 s3.
Proof. intros H1 H2 r H. by apply H2, H1. Qed.

Lemma known_grows m s s' r : grows s s' -> known m s r -> known m s' r.
Proof. intros H [?|?]; [by left|right; by apply H]. Qed.
Lemma Forall_known m s s' l : grows s s' -> Forall (known m s) l -> Forall (known m s') l.
Proof. intros Hg H. eapply Forall_impl; [exact H|]. intros r. by apply known_grows. Qed.

(** ** Triples *)

(** Started where the references [pre] resolve, [e] keeps the database conforming and, if it does
    not throw, makes those of its answer resolve. *)
Definition safe {A} (m pre : list Ref) (e : St DB A) (post : A -> list Ref) : Prop :=
  forall s a s', Conforms m s -> Forall (known m s) pre -> e s = (Ok a, s') ->
    Conforms m s' /\ grows s s' /\ Forall (known m s') (post a).

Lemma safe_bind {A B} m pre (e : St DB A) mid (k : A -> St DB B) post :
  safe m pre e mid -> (forall a, safe m (mid a ++ pre) (k a) post) -> safe m pre (st_bind e k) post.
Proof.
  intros He Hk s b s'' Hc Hp H. apply st_bind_inv in H as (a & s' & H1 & H2).
  destruct (He _ _ _ Hc Hp H1) as (Hc' & Hg & Hm).
  destruct (Hk a s' b s'' Hc') as (Hc'' & Hg' & Hpost); [|done|].
  - apply Forall_app. split; [done|]. by eapply Forall_known.
  - split; [done|]. split; [by eapply schema_grows_trans|done].
Qed.

Lemma safe_weaken {A} m pre pre' (e : St DB A) post :
  safe m pre' e post -> incl pre' pre -> safe m pre e post.
Proof.
  intros He Hi s a s' Hc Hp H. eapply He; [done| |done].
  apply Forall_forall. intros r Hr. apply list_elem_of_In, Hi, list_elem_of_In in Hr.
  by eapply Forall_forall in Hp.
Qed.

Lemma safe_ret {A} m pre (a : A) post : incl (post a) pre -> safe m pre (st_ret a) post.
Proof.
  intros Hi s a' s' Hc Hp [= <- <-]. split; [done|]. split; [apply schema_grows_refl|].
  apply Forall_forall. intros r Hr. apply list_elem_of_In, Hi, list_elem_of_In in Hr.
  by eapply Forall_forall in Hp.
Qed.

Lemma safe_ret_nil {A} m pre (a : A) : safe m pre (st_ret a) (fun _ => []).
Proof. apply safe_ret, incl_nil_l. Qed.

Lemma safe_throw {A} m pre msg (post : A -> list Ref) : safe m pre (st_throw msg) post.
Proof. by intros s a s' _ _ [=]. Qed.

Lemma safe_lift {A} m pre (r : Res A) : safe m pre (st_lift r) (fun _ => []).
Proof. intros s a s' Hc _ [= _ <-]. split; [done|]. split; [apply schema_grows_refl|done]. Qed.

Lemma safe_gets {A} m pre (f : DB -> A) : safe m pre (st_gets f) (fun _ => []).
Proof. intros s a s' Hc _ [= _ <-]. split; [done|]. split; [apply schema_grows_refl|done]. Qed.

(** A write that stores an entity whose references resolve. *)
Lemma safe_modify m pre (f : DB -> DB) new (post : list Ref) :
  (forall s, grows s (f s)) ->
  (forall s x, stored (f s) x -> stored s x \/ new = Some x) ->
  (forall x, new = Some x -> incl (refs x) pre /\ fieldsOk x) ->
  (forall s r, In r post -> resolves (f s) r) ->
  safe m pre (st_modify f) (fun _ => post).
Proof.
  intros Hg Hs Hn Hpost s a s' Hc Hp [= _ <-]. split; [|split; [apply Hg|] ].
  - intros x Hx. destruct (Hs _ _ Hx) as [Hx'|Hx'].
    + destruct (Hc x Hx') as [H1 H2]. split; [|done]. by eapply Forall_known.
    + destruct (Hn _ Hx') as [H1 H2]. split; [|done]. eapply Forall_known; [apply Hg|].
      apply Forall_forall. intros r Hr. apply list_elem_of_In, H1, list_elem_of_In in Hr.
      by eapply Forall_forall in Hp.
  - apply Forall_forall. intros r Hr%list_elem_of_In. right. by apply Hpost.
Qed.

(** An answer that is an entity of the database conforms. *)
Lemma safe_load {A} m pre (f : DB -> option A) (E : A -> Entity) (P : A -> list Ref) :
  (forall s a, f s = Some a -> stored s (E a) /\ Forall (resolves s) (P a)) ->
  safe m pre (st_gets f)
    (fun o => match o with Some a => P a ++ refs (E a) | None => [] end).
Proof.
  intros H s o s' Hc _ [= <- <-]. split; [done|]. split; [apply schema_grows_refl|].
  destruct (f s) as [a|] eqn:E0; [|done]. destruct (H _ _ E0) as [Hst HP].
  apply Forall_app. split; [|by apply Hc]. eapply Forall_impl; [exact HP|]. intros r Hr. by right.
Qed.

(** A reference that is to resolve once [e] has run may be used while it runs. *)
Definition ensures {A} (r : Ref) (e : St DB A) : Prop :=
  forall s a s', e s = (Ok a, s') -> resolves s' r.

Lemma ensures_bind {A B} r (e : St DB A) (k : A -> St DB B) :
  (forall a, ensures r (k a)) -> ensures r (st_bind e k).
Proof. intros Hk s b s' H. apply st_bind_inv in H as (a & s1 & _ & H). by eapply Hk. Qed.

Lemma safe_until {A} m pre r (e : St DB A) :
  safe (r :: m) (r :: pre) e (fun _ => []) -> ensures r e -> safe m pre e (fun _ => []).
Proof.
  intros He Hr s a s' Hc Hp H. destruct (He s a s') as (Hc' & Hg & _); [| |done|].
  - intros x Hx. destruct (Hc x Hx) as [Hk Hf]. split; [|done].
    eapply Forall_impl; [exact Hk|]. intros r' [?|?]; [left; by right|by right].
  - apply Forall_cons. split; [left; by left|]. eapply Forall_impl; [exact Hp|].
    intros r' [?|?]; [left; by right|by right].
  - split; [|done]. intros x Hx. destruct (Hc' x Hx) as [Hk Hf]. split; [|done].
    eapply Forall_impl; [exact Hk|]. intros r' [ [<-|?]|?]; [right; by eapply Hr|by left|by right].
Qed.

End Schema.

(** Membership of concrete references in concrete lists. *)
Ltac incl_tac :=
  unfold changeRefs in *; cbn in *;
  repeat match goal with H : incl (_ :: _) _ |- _ => apply incl_cons_inv in H as [? H] end;
  intros ?r ?Hr; cbn in *; rewrite ?in_app_iff in *; cbn in *; destruct_or?; subst;
  first [done | auto 20].

(** The tables but the one written are as they were, and in that one a new entity is. *)
Ltac save_tac E :=
  apply (safe_modify _ _ _ E);
  [ intros s r; destruct r; cbn; try done; intros H; rewrite lookup_insert; by case_decide
  | intros s y Hy; destruct y; cbn in *; try (by left); destruct Hy as [i Hi];
    apply lookup_insert_Some in Hi as [ [_ <-]|[_ Hi] ]; eauto
  | intros y [= <-]; split; [done|try done]
  | intros s r Hr; cbn in *; repeat destruct Hr as [<-|Hr]; cbn; rewrite ?lookup_insert_eq; done ].

Ltac plain_save_tac :=
  apply (safe_modify _ _ _ None);
  [ intros s r; destruct r; cbn; try done; intros H; rewrite lookup_insert; by case_decide
  | intros s y Hy; left; by destruct y
  | done
  | intros s r [<-|[] ]; cbn; by rewrite lookup_insert_eq ].

Section Saves.
Context {G : GraphTs} (m : list Ref).

Lemma safe_saveGlobal pre g : safe m pre (st_modify (saveGlobal g)) (fun _ => []).
Proof.
  apply (safe_modify _ _ _ None); [by intros s r; destruct r| |done|done].
  intros s y Hy. left. by destruct y.
Qed.
Lemma safe_saveSystemState pre id x :
  safe m pre (st_modify (saveSystemState id x)) (fun _ => [RSystemState id]).
Proof. plain_save_tac. Qed.
Lemma safe_saveUser pre id x : safe m pre (st_modify (saveUser id x)) (fun _ => [RUser id]).
Proof. plain_save_tac. Qed.
Lemma safe_saveTransaction pre id x :
  safe m pre (st_modify (saveTransaction id x)) (fun _ => [RTransaction id]).
Proof. plain_save_tac. Qed.
Lemma safe_saveToken pre id x : safe m pre (st_modify (saveToken id x)) (fun _ => [RToken id]).
Proof. plain_save_tac. Qed.

Lemma safe_saveTrove pre id x :
  incl (refs (ETrove x)) pre -> is_Some (raw x) ->
  safe m pre (st_modify (saveTrove id x)) (fun _ => [RTrove id]).
Proof. intros H1 H2. save_tac (Some (ETrove x)). Qed.
Lemma safe_saveDeposit pre id x :
  incl (refs (EDeposit x)) pre ->
  safe m pre (st_modify (saveStabilityDeposit id x)) (fun _ => [RDeposit id]).
Proof. intros H1. save_tac (Some (EDeposit x)). Qed.
Lemma safe_saveTroveChange pre id x :
  incl (refs (ETroveChange x)) pre -> In (troveOperation x) TroveOperation ->
  safe m pre (st_modify (saveTroveChange id x)) (fun _ => []).
Proof. intros H1 H2. save_tac (Some (ETroveChange x)). Qed.
Lemma safe_saveDepositChange pre id x :
  incl (refs (EDepositChange x)) pre ->
  In (stabilityDepositOperation x) StabilityDepositOperation ->
  safe m pre (st_modify (saveStabilityDepositChange id x)) (fun _ => []).
Proof. intros H1 H2. save_tac (Some (EDepositChange x)). Qed.
Lemma safe_savePriceChange pre id x :
  incl (refs (EPriceChange x)) pre -> safe m pre (st_modify (savePriceChange id x)) (fun _ => []).
Proof. intros H1. save_tac (Some (EPriceChange x)). Qed.
Lemma safe_saveCollSurplusChange pre id x :
  incl (refs (ECollSurplusChange x)) pre ->
  safe m pre (st_modify (saveCollSurplusChange id x)) (fun _ => []).
Proof. intros H1. save_tac (Some (ECollSurplusChange x)). Qed.
Lemma safe_saveLiquidation pre id x :
  incl (refs (ELiquidation x)) pre ->
  safe m pre (st_modify (saveLiquidation id x)) (fun _ => [RLiquidation id]).
Proof. intros H1. save_tac (Some (ELiquidation x)). Qed.
Lemma safe_saveRedemption pre id x :
  incl (refs (ERedemption x)) pre ->
  safe m pre (st_modify (saveRedemption id x)) (fun _ => [RRedemption id]).
Proof. intros H1. save_tac (Some (ERedemption x)). Qed.
Lemma safe_saveTokenBalance pre id x :
  incl (refs (EBalance x)) pre -> safe m pre (st_modify (saveTokenBalance id x)) (fun _ => []).
Proof. intros H1. save_tac (Some (EBalance x)). Qed.
Lemma safe_saveTokenAllowance pre id x :
  incl (refs (EAllowance x)) pre -> safe m pre (st_modify (saveTokenAllowance id x)) (fun _ => []).
Proof. intros H1. save_tac (Some (EAllowance x)). Qed.

End Saves.

Section Loads.
Context {G : GraphTs} (m : list Ref).

(** The references known of what was loaded. *)
Definition loaded {A} (id : option string) (o : option A) (f : string -> A -> list Ref) :
    list Ref :=
  match id with Some i => match o with Some a => f i a | None => [] end | None => [] end.

(** What loading an entity tells: it resolves, and so do its references. *)
Lemma safe_loadBy {A} pre (table : DB -> gmap string A) id (E : A -> Entity) (P : string -> Ref) :
  (forall s i a, table s !! i = Some a -> stored s (E a) /\ resolves s (P i)) ->
  safe m pre (loadBy table id)
    (fun o => loaded id o (fun i a => P i :: refs (E a))).
Proof.
  intros H s o s' Hc _ Hrun. injection Hrun as <- <-. split; [done|]. split; [apply schema_grows_refl|].
  destruct id as [i|]; [|done]. destruct (table s !! i) as [a|] eqn:E0; [|done].
  destruct (H _ _ _ E0) as [Hst HP]. apply Forall_cons. split; [by right|]. by apply Hc.
Qed.

(** The same for entities without references. *)
Lemma safe_loadPlain {A} pre (table : DB -> gmap string A) id (P : string -> Ref) :
  (forall s i a, table s !! i = Some a -> resolves s (P i)) ->
  safe m pre (loadBy table id)
    (fun o => loaded id o (fun i _ => [P i])).
Proof.
  intros H s o s' Hc _ Hrun. injection Hrun as <- <-. split; [done|]. split; [apply schema_grows_refl|].
  destruct id as [i|]; [|done]. destruct (table s !! i) as [a|] eqn:E0; [|done].
  apply Forall_singleton. right. by eapply H.
Qed.

Local Ltac load t E P :=
  refine (safe_loadBy _ t _ E P _); intros s i a Hi; split; [by exists i|by exists a].

Lemma safe_loadTrove pre id :
  safe m pre (loadBy troves id)
    (fun o => loaded id o (fun i x => RTrove i :: refs (ETrove x))).
Proof. load troves ETrove RTrove. Qed.
Lemma safe_loadDeposit pre id :
  safe m pre (loadBy stabilityDeposits id)
    (fun o => loaded id o (fun i x => RDeposit i :: refs (EDeposit x))).
Proof. load stabilityDeposits EDeposit RDeposit. Qed.
Lemma safe_loadLiquidation pre id :
  safe m pre (loadBy liquidations id)
    (fun o => loaded id o (fun i x => RLiquidation i :: refs (ELiquidation x))).
Proof. load liquidations ELiquidation RLiquidation. Qed.
Lemma safe_loadRedemption pre id :
  safe m pre (loadBy redemptions id)
    (fun o => loaded id o (fun i x => RRedemption i :: refs (ERedemption x))).
Proof. load redemptions ERedemption RRedemption. Qed.
Lemma safe_loadUser pre id :
  safe m pre (loadBy users id)
    (fun o => loaded id o (fun i _ => [RUser i])).
Proof. refine (safe_loadPlain _ users _ RUser _). intros s i a Hi. by exists a. Qed.
Lemma safe_loadTransaction pre id :
  safe m pre (loadBy transactions id)
    (fun o => loaded id o (fun i _ => [RTransaction i])).
Proof. refine (safe_loadPlain _ transactions _ RTransaction _). intros s i a Hi. by exists a. Qed.
Lemma safe_loadSystemState pre id :
  safe m pre (loadBy systemStates id)
    (fun o => loaded id o (fun i _ => [RSystemState i])).
Proof. refine (safe_loadPlain _ systemStates _ RSystemState _). intros s i a Hi. by exists a. Qed.
Lemma safe_loadToken pre id :
  safe m pre (loadBy tokens id)
    (fun o => loaded id o (fun i _ => [RToken i])).
Proof. refine (safe_loadPlain _ tokens _ RToken _). intros s i a Hi. by exists a. Qed.
Lemma safe_loadBalance pre id :
  safe m pre (loadBy tokenBalances (Some id))
    (fun o => match o with Some b => refs (EBalance b) | None => [] end).
Proof.
  intros s o s' Hc _ Hrun. injection Hrun as <- <-. split; [done|]. split; [apply schema_grows_refl|].
  destruct (tokenBalances s !! id) as [b|] eqn:E0; [|done]. apply (Hc (EBalance b)). by exists id.
Qed.
Lemma safe_loadAllowance pre id :
  safe m pre (loadBy tokenAllowances (Some id))
    (fun o => match o with Some a => refs (EAllowance a) | None => [] end).
Proof.
  intros s o s' Hc _ Hrun. injection Hrun as <- <-. split; [done|]. split; [apply schema_grows_refl|].
  destruct (tokenAllowances s !! id) as [b|] eqn:E0; [|done].
  apply (Hc (EAllowance b)). by exists id.
Qed.

Lemma safe_post {A} pre (e : St DB A) post post' :
  safe m pre e post' -> (forall a, incl (post a) (post' a)) -> safe m pre e post.
Proof.
  intros He Hi s a s' Hc Hp H. destruct (He _ _ _ Hc Hp H) as (H1 & H2 & H3).
  split; [done|]. split; [done|]. apply Forall_forall.
  intros r Hr%list_elem_of_In%Hi%list_elem_of_In. by eapply Forall_forall in H3.
Qed.

Lemma safe_modifyGlobal pre f : safe m pre (modifyGlobal f) (fun _ => []).
Proof.
  unfold modifyGlobal, getGlobal. eapply safe_bind; [apply safe_gets|intros g].
  apply safe_saveGlobal.
Qed.
Lemma safe_increaseCounter pre key : safe m pre (increaseCounter key) (fun _ => []).
Proof.
  unfold increaseCounter, getGlobal. eapply safe_bind; [apply safe_gets|intros g].
  eapply safe_bind; [apply safe_saveGlobal|intros u]. apply safe_ret. incl_tac.
Qed.

End Loads.

Create HintDb safe.
#[export] Hint Constants Opaque : safe.
#[export] Hint Resolve safe_saveGlobal safe_saveSystemState safe_saveUser safe_saveTransaction
  safe_saveToken safe_saveTrove safe_saveDeposit safe_saveTroveChange safe_saveDepositChange
  safe_savePriceChange safe_saveCollSurplusChange safe_saveLiquidation safe_saveRedemption
  safe_saveTokenBalance safe_saveTokenAllowance safe_loadTrove safe_loadDeposit
  safe_loadLiquidation safe_loadRedemption safe_loadUser safe_loadTransaction
  safe_loadSystemState safe_loadToken safe_loadBalance safe_loadAllowance safe_modifyGlobal
  safe_increaseCounter safe_throw safe_lift : safe.
#[export] Hint Extern 4 (incl _ _) => incl_tac : safe.
#[export] Hint Extern 4 (In _ _) => cbn; tauto : safe.
#[export] Hint Extern 4 (is_Some _) => by eexists : safe.
#[export] Hint Extern 3 (safe _ _ (st_ret _) _) => apply safe_ret; incl_tac : safe.
#[export] Hint Extern 5 (safe _ _ (st_gets _) _) => apply safe_gets : safe.

(** Runs through a helper, each step by a lemma of the database. *)
Ltac safe_steps :=
  repeat first
    [ match goal with
      | |- safe _ _ (st_bind ?e _) _ =>
          lazymatch e with match _ with _ => _ end => fail | _ => idtac end;
          eapply safe_bind; [solve [eauto 3 with safe nocore]|intros ?; cbn beta iota]
      | |- safe _ _ (let '(_, _) := ?p in _) _ => destruct p; cbn [fst snd] in *
      | |- safe _ _ (match ?x with _ => _ end) _ => destruct x
      | |- safe _ _ (st_bind (match ?x with _ => _ end) _) _ => destruct x
      end
    | solve [eauto 3 with safe nocore]
    | solve [eapply safe_post; [eauto 3 with safe nocore | intros ?; incl_tac] ] ].

Section Helpers.
Context {G : GraphTs} (m : list Ref).

Lemma safe_getTransaction pre e :
  safe m pre (getTransaction e) (fun id => [RTransaction id]).
Proof. unfold getTransaction, getTransactionSequenceNumber. cbv zeta. safe_steps. Qed.
Lemma safe_getUser pre u : safe m pre (getUser u) (fun _ => [RUser u]).
Proof. unfold getUser. cbv zeta. safe_steps. Qed.
Lemma safe_getCurrentSystemState pre :
  safe m pre getCurrentSystemState (fun p => [RSystemState (fst p)]).
Proof.
  unfold getCurrentSystemState, getGlobal, getSystemStateSequenceNumber, setCurrentSystemState.
  cbv zeta. safe_steps.
Qed.
Lemma safe_bumpSystemState pre x : safe m pre (bumpSystemState x) (fun _ => []).
Proof.
  unfold bumpSystemState, getSystemStateSequenceNumber, setCurrentSystemState. cbv zeta.
  safe_steps.
Qed.

End Helpers.
#[export] Hint Resolve safe_getTransaction safe_getUser safe_getCurrentSystemState
  safe_bumpSystemState : safe.

Section Changes.
Context {G : GraphTs} (m : list Ref).

Lemma safe_getCurrentPrice pre : safe m pre getCurrentPrice (fun _ => []).
Proof. unfold getCurrentPrice. cbv zeta. safe_steps. Qed.

(** The references of a change that has begun. *)
Definition begunRefs (b : Z * string * string) : list Ref :=
  [RTransaction (snd (fst b)); RSystemState (snd b)].

Lemma safe_beginChange pre e : safe m pre (beginChange e) begunRefs.
Proof. unfold beginChange, getChangeSequenceNumber, begunRefs. cbv zeta. safe_steps. Qed.
Lemma safe_finishChange pre b :
  incl (begunRefs b) pre -> safe m pre (finishChange b) changeRefs.
Proof. intros H. unfold finishChange, begunRefs in *. safe_steps. Qed.

End Changes.
#[export] Hint Resolve safe_getCurrentPrice safe_beginChange safe_finishChange : safe.

Section SystemStates.
Context {G : GraphTs} (m : list Ref).

Lemma safe_totalsAfter pre tc x : safe m pre (totalsAfter tc x) (fun _ => []).
Proof.
  unfold totalsAfter. cbv zeta. case (_ || _); [apply safe_ret_nil|].
  case (isLiquidation _); [|apply safe_ret_nil].
  eapply (safe_bind _ _ _ (fun _ => [])); [|intros []; apply safe_ret_nil].
  case (negb _); [apply safe_ret_nil|].
  case (collateralRatioBefore tc); [intros r; apply safe_ret_nil|apply safe_throw].
Qed.
Lemma safe_byDeposit pre op c :
  safe m pre (updateSystemStateByStabilityDepositChange op c) (fun _ => []).
Proof. unfold updateSystemStateByStabilityDepositChange. cbv zeta. safe_steps. Qed.
Lemma safe_byCollSurplus pre c :
  safe m pre (updateSystemStateByCollSurplusChange c) (fun _ => []).
Proof. unfold updateSystemStateByCollSurplusChange. cbv zeta. safe_steps. Qed.
Lemma safe_getCurrentLiquidation pre e :
  safe m pre (getCurrentLiquidation e) (fun p => RLiquidation (fst p) :: refs (ELiquidation (snd p))).
Proof.
  unfold getCurrentLiquidation, getGlobal, getLiquidationSequenceNumber, setCurrentLiquidation.
  cbv zeta. safe_steps.
Qed.
Lemma safe_getCurrentRedemption pre e :
  safe m pre (getCurrentRedemption e) (fun p => RRedemption (fst p) :: refs (ERedemption (snd p))).
Proof.
  unfold getCurrentRedemption, getGlobal, getRedemptionSequenceNumber, setCurrentRedemption.
  cbv zeta. safe_steps.
Qed.

End SystemStates.
#[export] Hint Resolve safe_totalsAfter safe_byDeposit safe_byCollSurplus
  safe_getCurrentLiquidation safe_getCurrentRedemption : safe.

Section Handlers.
Context {G : GraphTs} (m : list Ref).

Lemma safe_byTrove pre tc : safe m pre (updateSystemStateByTroveChange tc) (fun _ => []).
Proof. unfold updateSystemStateByTroveChange. cbv zeta. safe_steps. Qed.
Lemma safe_updatePrice pre e p : safe m pre (updatePrice e p) (fun _ => []).
Proof. unfold updatePrice. cbv zeta. safe_steps. Qed.
Lemma safe_updateUserClaimColl pre e u c : safe m pre (updateUserClaimColl e u c) (fun _ => []).
Proof. unfold updateUserClaimColl. cbv zeta. safe_steps. Qed.
Lemma safe_finishCurrentLiquidation pre e a b c d :
  safe m pre (finishCurrentLiquidation e a b c d) (fun _ => []).
Proof. unfold finishCurrentLiquidation, setCurrentLiquidation. cbv zeta. safe_steps. Qed.
Lemma safe_finishCurrentRedemption pre e a b c d :
  safe m pre (finishCurrentRedemption e a b c d) (fun _ => []).
Proof. unfold finishCurrentRedemption. cbv zeta. safe_steps. Qed.
Lemma safe_updateTotalRedistributed pre c d : safe m pre (updateTotalRedistributed c d) (fun _ => []).
Proof. unfold updateTotalRedistributed. safe_steps. Qed.
Lemma safe_swap pre v : safe m pre (swapTmpDepositUpdate v) (fun _ => []).
Proof. unfold swapTmpDepositUpdate, getGlobal. cbv zeta. safe_steps. Qed.
Lemma safe_setTroveStatus pre a b : safe m pre (setTroveStatus a b) (fun _ => []).
Proof.
  unfold setTroveStatus. eapply (safe_bind _ _ _ (fun _ => [])); [|intros; apply safe_ret_nil].
  case (TroveStatus_eqb b a); [apply safe_ret_nil|].
  destruct b, a; first [apply safe_ret_nil | apply safe_modifyGlobal].
Qed.
Lemma safe_getTrove pre u : safe m pre (getTrove u) (fun t => refs (ETrove t)).
Proof. unfold getTrove, increaseNumberOfOpenTroves, modifyNumbers. cbv zeta. safe_steps. Qed.
Lemma safe_getDeposit pre u : safe m pre (getStabilityDeposit u) (fun d => refs (EDeposit d)).
Proof. unfold getStabilityDeposit. cbv zeta. safe_steps. Qed.
Lemma safe_getToken pre t : safe m pre (getToken t) (fun _ => [RToken t]).
Proof. unfold getToken, createToken. cbv zeta. safe_steps. Qed.
Lemma safe_getTokenBalance pre t o :
  incl [RToken t] pre -> safe m pre (getTokenBalance t o) (fun b => refs (EBalance b)).
Proof. intros H. unfold getTokenBalance. cbv zeta. safe_steps. Qed.
Lemma safe_getTokenAllowance pre t o sp :
  incl [RToken t] pre -> safe m pre (getTokenAllowance t o sp) (fun a => refs (EAllowance a)).
Proof. intros H. unfold getTokenAllowance. cbv zeta. safe_steps. Qed.

End Handlers.
#[export] Hint Resolve safe_byTrove safe_updatePrice safe_updateUserClaimColl
  safe_finishCurrentLiquidation safe_finishCurrentRedemption safe_updateTotalRedistributed
  safe_swap safe_setTroveStatus safe_getTrove safe_getDeposit safe_getToken safe_getTokenBalance
  safe_getTokenAllowance : safe.

Section Updates.
Context {G : GraphTs} (m : list Ref).

(** The part of [updateTrove] that runs when the Trove has changed. *)
Lemma safe_updateTrove pre ev operation b c d stake :
  In operation TroveOperation -> safe m pre (updateTrove ev operation b c d stake) (fun _ => []).
Proof.
  intros Hop. unfold updateTrove. cbv zeta.
  eapply safe_bind; [apply safe_gets|intros g]. eapply safe_bind; [apply safe_getTrove|intros t].
  case (_ && _); [apply safe_ret_nil|].
  apply (safe_until _ _ (RTrove b)).
  - eapply safe_bind; [apply safe_beginChange|intros begun].
    eapply safe_bind; [apply safe_getCurrentPrice|intros price].
    eapply (safe_bind _ _ _ (optionRef RLiquidation)); [|intros liquidation].
    { case (isLiquidation operation); safe_steps. }
    eapply (safe_bind _ _ _ (optionRef RRedemption)); [|intros redemption].
    { case (isRedemption operation); safe_steps. }
    eapply safe_bind; [apply safe_byTrove|intros ?].
    eapply safe_bind; [apply safe_finishChange; incl_tac|intros ch].
    eapply safe_bind; [apply safe_saveTroveChange; [|done]|intros ?].
    { incl_tac. }
    eapply safe_bind; [apply safe_setTroveStatus|intros st].
    eapply safe_post; [apply safe_saveTrove; [incl_tac|by eexists]|intros ?; apply incl_nil_l].
  - do 8 (apply ensures_bind; intros ?).
    intros s x s' [= _ <-]. cbn. rewrite lookup_insert_eq. by eexists.
Qed.

(** A change that is loaded again has the fields of the one that was saved. *)
Lemma safe_bind_loadTroveChange {A} pre id (k : option TroveChange -> St DB A) post :
  (forall tc, In (troveOperation tc) TroveOperation ->
    safe m (refs (ETroveChange tc) ++ pre) (k (Some tc)) post) ->
  safe m pre (k None) post -> safe m pre (st_bind (loadBy troveChanges (Some id)) k) post.
Proof.
  intros HS HN s a s' Hc Hp H. apply st_bind_inv in H as (o & s1 & [= <- <-] & H).
  destruct (troveChanges s !! id) as [tc|] eqn:E; [|by eapply HN].
  destruct (Hc (ETroveChange tc)) as [Hr Hf]; [by exists id|].
  eapply (HS tc Hf); [done| |done]. by apply Forall_app.
Qed.

Lemma safe_setBorrowingFee pre f : safe m pre (setBorrowingFeeOfLastTroveChange f) (fun _ => []).
Proof.
  unfold setBorrowingFeeOfLastTroveChange. cbv zeta.
  eapply (safe_bind _ _ _ (fun _ => [])); [|intros n].
  { unfold getLastChangeSequenceNumber, getGlobal. safe_steps. }
  apply safe_bind_loadTroveChange; [|apply safe_throw].
  intros tc Hop. apply safe_saveTroveChange; [incl_tac|done].
Qed.

Lemma safe_applyRedistribution pre ev b :
  safe m pre (applyRedistributionToTroveBeforeLiquidation ev b) (fun _ => []).
Proof.
  unfold applyRedistributionToTroveBeforeLiquidation. cbv zeta.
  eapply safe_bind; [apply safe_gets|intros g]. eapply safe_bind; [apply safe_getTrove|intros t].
  case (raw t); [|apply safe_throw]. intros r. apply safe_updateTrove. cbn. tauto.
Qed.

Lemma safe_depositByOperation pre ev u d op new gain :
  incl (RDeposit u :: refs (EDeposit d)) pre -> In op StabilityDepositOperation ->
  safe m pre (updateStabilityDepositByOperation ev u d op new gain) (fun d => refs (EDeposit d)).
Proof.
  intros H Hop. unfold updateStabilityDepositByOperation. cbv zeta.
  eapply safe_bind; [apply safe_beginChange|intros begun].
  eapply safe_bind; [apply safe_byDeposit|intros ?].
  eapply safe_bind; [apply safe_finishChange; incl_tac|intros c].
  eapply safe_bind; [apply safe_saveDepositChange; [incl_tac|done]|intros ?].
  apply safe_ret. incl_tac.
Qed.

End Updates.

Section Conformance.
Context {G : GraphTs} (m : list Ref).

(** A changed deposit, saved after the change that refers to it. *)
Lemma safe_changeDeposit pre ev u d op new gain :
  incl (refs (EDeposit d)) pre -> In op StabilityDepositOperation ->
  safe m pre (st_bind (updateStabilityDepositByOperation ev u d op new gain)
    (fun d => st_modify (saveStabilityDeposit u d))) (fun _ => []).
Proof.
  intros H Hop. apply (safe_until _ _ (RDeposit u)).
  - eapply safe_bind; [apply safe_depositByOperation; [incl_tac|done]|intros d'].
    eapply safe_post; [apply safe_saveDeposit; incl_tac|intros ?; apply incl_nil_l].
  - apply ensures_bind. intros d' s x s' [= _ <-]. cbn. rewrite lookup_insert_eq. by eexists.
Qed.

Lemma safe_updateDeposit pre ev u a : safe m pre (updateStabilityDeposit ev u a) (fun _ => []).
Proof.
  unfold updateStabilityDeposit. cbv zeta. eapply safe_bind; [apply safe_getDeposit|intros d].
  eapply safe_bind; [apply safe_getUser|intros ?]. case (bd_eq _ _); [apply safe_ret_nil|].
  apply safe_changeDeposit; [incl_tac|]. case (bd_lt _ _); cbn; tauto.
Qed.

Lemma safe_withdrawGain pre ev u c l :
  safe m pre (withdrawCollateralGainFromStabilityDeposit ev u c l) (fun _ => []).
Proof.
  unfold withdrawCollateralGainFromStabilityDeposit. cbv zeta.
  case (_ && _); [apply safe_ret_nil|]. eapply safe_bind; [apply safe_getDeposit|intros d].
  apply safe_changeDeposit; [incl_tac|cbn; tauto].
Qed.

Lemma safe_changeBalance pre t o f :
  incl [RToken t] pre -> safe m pre (changeBalance t o f) (fun _ => []).
Proof.
  intros H. unfold changeBalance. eapply safe_bind; [by apply safe_getTokenBalance|intros b].
  apply safe_saveTokenBalance. incl_tac.
Qed.

Lemma safe_updateBalance pre ev a b v : safe m pre (updateBalance ev a b v) (fun _ => []).
Proof.
  unfold updateBalance. cbv zeta. eapply safe_bind; [apply safe_getToken|intros t].
  eapply (safe_bind _ _ _ (fun _ => [])); [|intros t'].
  - case (String.eqb a _); (eapply safe_bind; [|intros ?; apply safe_ret_nil]).
    + apply safe_saveToken.
    + apply safe_changeBalance. incl_tac.
  - case (String.eqb b _); [|apply safe_changeBalance; incl_tac].
    eapply safe_post; [apply safe_saveToken|intros ?; apply incl_nil_l].
Qed.

(** What an event needs: an approval, that its token is recorded. *)
Definition needs (ev : Event) (e : ContractEvent) : list Ref :=
  match e with EvApproval _ _ _ => [RToken (address ev)] | _ => [] end.

Lemma safe_handle ev e : safe m (needs ev e) (handle ev e) (fun _ => []).
Proof.
  destruct e; cbn [handle needs].
  - apply safe_updateTrove. destruct operation; cbn; tauto.
  - eapply safe_bind; [apply safe_setBorrowingFee|intros ?; apply safe_modifyGlobal].
  - apply safe_updateTrove. destruct _operation; cbn; tauto.
  - apply safe_applyRedistribution.
  - apply safe_finishCurrentLiquidation.
  - apply safe_finishCurrentRedemption.
  - apply safe_updateTotalRedistributed.
  - apply safe_updatePrice.
  - eapply safe_bind; [apply safe_swap|intros [d|] ]; [apply safe_updateDeposit|].
    apply safe_ret_nil.
  - eapply safe_bind; [apply safe_swap|intros o].
    eapply safe_bind; [apply safe_withdrawGain|intros ?].
    destruct o; [apply safe_updateDeposit|apply safe_ret_nil].
  - apply safe_updateUserClaimColl.
  - apply safe_updateBalance.
  - unfold handleTokenApproval, updateAllowance. cbv zeta.
    eapply safe_bind; [apply safe_getTokenAllowance; incl_tac|intros al].
    apply safe_saveTokenAllowance. incl_tac.
Qed.

End Conformance.

Section Properties.
Context {G : GraphTs}.

(** Every entity has its references resolved and its fields set. *)
Definition conforms (s : DB) : Prop :=
  forall x, stored s x -> Forall (resolves s) (refs x) /\ fieldsOk x.

Lemma Conforms_nil s : Conforms [] s <-> conforms s.
Proof.
  split; intros H x Hx; destruct (H x Hx) as [Hr Hf]; (split; [|done]);
    (eapply Forall_impl; [exact Hr|]); intros r; [by intros [[]|?]|by right].
Qed.

(** An event whose needs are met. *)
Definition prepared (s : DB) (ev : Event) (e : ContractEvent) : Prop :=
  Forall (resolves s) (needs ev e).

(** C27: the types the schema gives the subgraph's entities hold of the database at every point:
    after any sequence of events that were handled, in which an approval is of a token a transfer
    has recorded, every reference the schema declares non-null (of a Trove and a stability deposit
    to their owner, of a change to its transaction, its Trove or deposit and the system states
    before and after, of a liquidation and a redemption to their transaction and account, of
    balances and allowances to their token and users) resolves, so do a change's liquidation and
    redemption when they are set, every saved Trove has its raw fields, and every operation's name
    is one of its enumeration. *)
Theorem schema_conformance s : indexed prepared s -> conforms s.
Proof.
  intros H. apply Conforms_nil. induction H as [|s ev e s' _ IH Hw Hr].
  - intros []; cbn; intros [id Hid]; by rewrite lookup_empty in Hid.
  - apply (safe_handle [] ev e s tt s' IH); [|done].
    eapply Forall_impl; [exact Hw|]. intros r. by right.
Qed.

End Properties.

End Schema.

(** ** Runs of the handlers, with rational numbers for decimals *)
Module SchemaRuns.
Import SubgraphRuns Schema.
#[local] Existing Instance rationals.

(** A price, a Trove, a mint and an approval. *)
Definition approved : DB := after (EvApproval "0xa" "0xb" 3) (after (EvTransfer ZERO_ADDRESS "0xa" 5)
  (after (EvBorrowerTroveUpdated "0xa" 30 10 30 openTrove) (after (EvLastGoodPrice 2000) emptyDB))).

Lemma approved_indexed : indexed prepared approved.
Proof.
  apply indexed_after;
    [|constructor; [vm_compute; by eexists|constructor]|vm_compute; reflexivity].
  repeat (apply indexed_after; [|constructor|vm_compute; reflexivity]).
  apply indexed_empty.
Qed.

Lemma approved_allowance :
  exists a, tokenAllowances approved !! "0xf-0xa-0xb" = Some a /\ ta_token a = "0xf".
Proof. eexists. split; vm_compute; reflexivity. Qed.

Lemma schema_conformance_witness : is_Some (tokens approved !! "0xf").
Proof.
  destruct approved_allowance as (a & Ha & Ht). rewrite <- Ht.
  pose proof (schema_conformance approved approved_indexed (EAllowance a)
    (ex_intro _ "0xf-0xa-0xb" Ha)) as [Hr _].
  exact (Forall_inv Hr).
Defined.

(** An approval of a token no transfer has recorded stores an allowance without its token. *)
Lemma approval_first :
  exists s, handle ev (EvApproval "0xa" "0xb" 3) emptyDB = (Ok tt, s) /\ ~ conforms s.
Proof.
  set (s := after (EvApproval "0xa" "0xb" 3) emptyDB). exists s. split.
  - unfold s, after. destruct (handle ev _ emptyDB) as [r s'] eqn:E.
    assert (fst (handle ev (EvApproval "0xa" "0xb" 3) emptyDB) = Ok tt) as Hr
      by (vm_compute; reflexivity).
    rewrite E in Hr. cbn in Hr. by rewrite Hr.
  - intros H.
    assert (tokenAllowances s !! "0xf-0xa-0xb" = Some (mkTokenAllowance "0xf" "0xa" "0xb" 3)) as Ha
      by (vm_compute; reflexivity).
    destruct (H (EAllowance _) (ex_intro _ "0xf-0xa-0xb" Ha)) as [Hf _].
    apply Forall_inv in Hf as [t Ht]. cbn in Ht.
    assert (tokens s !! "0xf" = None) as Hn by (vm_compute; reflexivity). by rewrite Hn in Ht.
Qed.

End SchemaRuns.
