(* ===== verification/Populatable.v ===== *)
(** * Preparing transactions: [src/packages/lib-ethers/src/PopulatableEthersLiquity.ts]

    The functions that turn a user's intent into an Ethereum transaction: estimation of gas with
    headroom, the search for insertion hints, limits on rates, redemptions, and the reading of
    receipts and event logs; with [contracts.ts] and parts of [EthersLiquityConnection.ts] and
    [_utils.ts].

    A promise is the result it settles with.  The contracts behind the connection and the Ethers
    library are the class [Ethers]: its answers while a transaction is being prepared are those of
    one state of the chain.  What the code reads through [ReadableEthersLiquity] is the class
    [ReadableLiquity].  Tolerances in minutes and numbers of Troves are integers; the doubles
    [Math.ceil(Math.log2(n))] and [Math.ceil(10 * Math.sqrt(n))] are computed exactly. *)

From S2P Require Import Prelude BigNumber Decimals Constants Troves Fees Deposits.

Local Open Scope Z_scope.

Definition AddressZero : string := "0x" +:+ Js.repeat "0" 40.
Definition ZERO_ADDRESS : string := AddressZero.

(** ** Calls of contracts and their logs: [contracts.ts] *)
Module Contracts.

(** An argument of a contract call. *)
Inductive Arg : Type :=
| AHex (hex : string)
| AAddress (address : string)
| AAddresses (addresses : list string)
| ABool (b : bool)
| ANumber (n : Z)
| ABigNumber (z : Z).

(** Transaction overrides, as a caller gives them; an absent object has no field set. *)
Record Overrides : Type := mkOverrides {
  from : option string;
  nonce : option Z;
  gasLimit : option Z;
  gasPrice : option Z;
}.
Definition noOverrides : Overrides := mkOverrides None None None None.

(** The overrides a function of a contract is called with: those given, after a [value] if it is
    payable. *)
Record PayableOverrides : Type := mkPayable {
  value : option string;
  transactionOverrides : Overrides;
}.

(** [{ ...overrides }], [{ ...overrides, gasLimit }] and [{ value, ...overrides }]. *)
Definition withoutValue (o : Overrides) : PayableOverrides := mkPayable None o.
Definition withGasLimit (gasLimit : Z) (o : Overrides) : Overrides :=
  mkOverrides (from o) (nonce o) (Some gasLimit) (gasPrice o).
Definition withValue (v : string) (o : Overrides) : PayableOverrides := mkPayable (Some v) o.

Inductive LogValue : Type :=
| VBigNumber (z : Z)
| VString (s : string).

Record LogDescription : Type := mkLogDescription {
  name : string;
  args : list (string * LogValue);
}.

(** The Ethers library and the deployed contracts. *)
Class Ethers : Type := {
  LogData : Type;
  RawTx : Type;
  contractAddress : string -> string;
  parseLog : string -> string * LogData -> Res LogDescription;
  estimateGas : string -> string -> list Arg -> PayableOverrides -> Res Z;
  populateTransaction : string -> string -> list Arg -> PayableOverrides -> Res RawTx;
  (** calls of [sortedTroves] and [hintHelpers] *)
  getFirst : Res string;
  getPrev : string -> Res string;
  getNext : string -> Res string;
  findInsertPosition : string -> string -> string -> Res (string * string);
  getApproxHint : string -> Z -> Z -> Res (Z * (Z * string));
  getRedemptionHints : string -> string -> Z -> Res (string * Z * Z);
  setPriceInPriceFeed : bool;
  randomInteger : Z;
  userAddress : option string;
}.

Section Contracts.
Context {BN : BigNumberOps} {E : Ethers}.

Definition decimalify (bigNumber : Z) : Res Decimal.t :=
  Decimal.fromBigNumberString (bn_toHexString bigNumber).

(** A log is its address with the data the contract's interface parses. *)
Definition Log : Type := string * LogData.

Definition buildEstimatedFunction (contract functionName : string) (overrides : Overrides)
    (adjustEstimate : Z -> Res Z) (args : list Arg) : Res RawTx :=
  let! overrides :=
    match gasLimit overrides with
    | None =>
        let! estimatedGas := estimateGas contract functionName args (withoutValue overrides) in
        let! gasLimit := adjustEstimate estimatedGas in
        Ok (withGasLimit gasLimit overrides)
    | Some _ => Ok overrides
    end in
  populateTransaction contract functionName args (withoutValue overrides).

Definition estimateAndPopulate := buildEstimatedFunction.

Definition extractEvents (contract : string) (logs : list Log) (name_ : string) :
    Res (list LogDescription) :=
  let! parsed := res_mapM (parseLog contract)
    (filter (fun log => String.eqb (fst log) (contractAddress contract) = true) logs) in
  Ok (filter (fun e => String.eqb (name e) name_ = true) parsed).

(** [args[key]], and [decimalify] of it. *)
Definition arg (key : string) (e : LogDescription) : option LogValue :=
  match find (fun kv => String.eqb (fst kv) key) (args e) with
  | Some kv => Some (snd kv)
  | None => None
  end.
Definition decimalArg (key : string) (e : LogDescription) : Res Decimal.t :=
  match arg key e with
  | Some (VBigNumber z) => decimalify z
  | _ => Throw "TypeError"
  end.
Definition isArg (key s : string) (e : LogDescription) : bool :=
  match arg key e with
  | Some (VString s') => String.eqb s' s
  | _ => false
  end.

Definition _requireAddress (overrides : Overrides) : Res string :=
  match from overrides with
  | Some a => Ok a
  | None => match userAddress with
            | Some a => Ok a
            | None => Throw "A user address is required"
            end
  end.

End Contracts.
End Contracts.

(** ** What is read through [ReadableEthersLiquity] *)
Class ReadableLiquity : Type := {
  getNumberOfTroves : Res Z;
  getPrice : Res Decimal.t;
  getTotal : Res Trove.t;
  getTrove : string -> Res UserTrove.t;
  getFees : Res Fees.t;
  _getFeesFactory : Res (Z -> bool -> Res Fees.t);
  _getBlockTimestamp : Res Z;
  getCollateralAddress : Res string;
  getStabilityDeposit : string -> Res StabilityDeposit.t;
  getBammDeposit : string -> Res BammDeposit.t;
  getWithdrawsSpShare : Decimal.Decimalish -> Res string;
}.

(** ** Sent transactions and their receipts *)
Module Sent.
Import Contracts.

(** The fields of a raw receipt the code reads; [status] is whether it is truthy. *)
Record RawReceipt {E : Ethers} : Type := mkRawReceipt {
  status : bool;
  receipt_from : string;
  logs : list Log;
}.
Arguments RawReceipt : clear implicits.

(** What the receipt of a transaction says: [lib-base]'s [LiquityReceipt]. *)
Inductive LiquityReceipt {E : Ethers} (T : Type) : Type :=
| _pendingReceipt
| _failedReceipt (rawReceipt : RawReceipt E)
| _successfulReceipt (rawReceipt : RawReceipt E) (details : T).
Arguments _pendingReceipt {E T}.
Arguments _failedReceipt {E T} _.
Arguments _successfulReceipt {E T} _ _.

(** What [wait] rejects with; [isError] is [error instanceof Error], the properties may be absent. *)
Record JsError {E : Ethers} : Type := mkJsError {
  isError : bool;
  code : option string;
  reason : option string;
  cancelled : bool;
  receipt : option (RawReceipt E);
}.
Arguments JsError : clear implicits.

(** How a call ends: a value, an error of the code's own, or the raw error. *)
Inductive Outcome {E : Ethers} (A : Type) : Type :=
| Returned (a : A)
| TransactionCancelled (message : string) (rawReplacementReceipt : option (RawReceipt E))
    (rawError : JsError E)
| Rethrown (rawError : JsError E)
| Failed (message : string).
Arguments Returned {E A} _.
Arguments TransactionCancelled {E A} _ _ _.
Arguments Rethrown {E A} _.
Arguments Failed {E A} _.

(** The signer, and the response to a sent transaction. *)
Class Wallet (E : Ethers) : Type := {
  TransactionResponse : Type;
  signer : option (RawTx -> Res TransactionResponse);
  wait : TransactionResponse -> option Z -> option (RawReceipt E) + JsError E;
}.

(** [_RawErrorReason] *)
Definition TRANSACTION_FAILED : string := "transaction failed".
Definition TRANSACTION_CANCELLED : string := "cancelled".
Definition TRANSACTION_REPLACED : string := "replaced".
Definition TRANSACTION_REPRICED : string := "repriced".

Definition transactionReplacementReasons : list string :=
  [TRANSACTION_CANCELLED; TRANSACTION_REPLACED; TRANSACTION_REPRICED].

(** A transaction prepared for sending: [PopulatedEthersLiquityTransaction]. *)
Record Populated {E : Ethers} (T : Type) : Type := mkPopulated {
  rawPopulatedTransaction : RawTx;
  gasHeadroom : option Z;
  parse : RawReceipt E -> Res T;
}.
Arguments mkPopulated {E T} _ _ _.
Arguments rawPopulatedTransaction {E T} _.
Arguments gasHeadroom {E T} _.
Arguments parse {E T} _ _.

Section Sent.
Context {E : Ethers}.

Definition propIs (o : option string) (s : string) : bool :=
  match o with Some s' => String.eqb s' s | None => false end.

Definition isTransactionFailedError (error : JsError E) : bool :=
  propIs (code error) "CALL_EXCEPTION" && propIs (reason error) TRANSACTION_FAILED.
Definition isTransactionReplacedError (error : JsError E) : bool :=
  propIs (code error) "TRANSACTION_REPLACED" &&
  existsb (fun r => propIs (reason error) r) transactionReplacementReasons.

(** [throw new EthersTransactionCancelledError(rawError)] *)
Definition throwCancelled {A} (rawError : JsError E) : Outcome A :=
  if propIs (reason rawError) TRANSACTION_REPRICED then Failed "AssertionError"
  else TransactionCancelled ("Transaction " +:+ default "undefined" (reason rawError))
         (receipt rawError) rawError.

(** The [catch] of [_waitForRawReceipt]. *)
Definition caught (error : JsError E) : Outcome (option (RawReceipt E)) :=
  if isError error && isTransactionFailedError error then Returned (receipt error)
  else if isError error && isTransactionReplacedError error then
    if cancelled error then throwCancelled error else Returned (receipt error)
  else Rethrown error.

Context {W : Wallet E} {T : Type}.

Definition _receiptFrom (parse : RawReceipt E -> Res T) (rawReceipt : option (RawReceipt E)) :
    Res (LiquityReceipt T) :=
  match rawReceipt with
  | Some r =>
      if status r then let! details := parse r in Ok (_successfulReceipt r details)
      else Ok (_failedReceipt r)
  | None => Ok _pendingReceipt
  end.

Definition _waitForRawReceipt (rawSentTransaction : TransactionResponse)
    (confirmations : option Z) : Outcome (option (RawReceipt E)) :=
  match wait rawSentTransaction confirmations with
  | inl rawReceipt => Returned rawReceipt
  | inr error => caught error
  end.

(** [this._receiptFrom(await this._waitForRawReceipt(confirmations))] *)
Definition receiptOf (sent : TransactionResponse * (RawReceipt E -> Res T))
    (confirmations : option Z) : Outcome (LiquityReceipt T) :=
  match _waitForRawReceipt (fst sent) confirmations with
  | Returned r =>
      match _receiptFrom (snd sent) r with
      | Ok receipt => Returned receipt
      | Throw m => Failed m
      end
  | TransactionCancelled m r e => TransactionCancelled m r e
  | Rethrown e => Rethrown e
  | Failed m => Failed m
  end.

Definition getReceipt (sent : TransactionResponse * (RawReceipt E -> Res T)) :
    Outcome (LiquityReceipt T) := receiptOf sent (Some 0).

Definition waitForReceipt (sent : TransactionResponse * (RawReceipt E -> Res T)) :
    Outcome (LiquityReceipt T) :=
  match receiptOf sent None with
  | Returned _pendingReceipt => Failed "AssertionError"
  | o => o
  end.

(** Answers the sent transaction: the signer's response with the parser. *)
Definition send (tx : Populated T) : Res (TransactionResponse * (RawReceipt E -> Res T)) :=
  match signer with
  | Some sendTransaction =>
      let! response := sendTransaction (rawPopulatedTransaction tx) in
      Ok (response, parse tx)
  | None => Throw "Must be connected through a Signer"
  end.

End Sent.
End Sent.

(** ** [PopulatableEthersLiquity] *)
Module Populatable.
Import Contracts Sent.

(** *** What receipts tell *)

Record _TroveChangeWithFees (T : Type) : Type := mkTroveChangeWithFees {
  params : T;
  newTrove : option Trove.t;
  fee : option Decimal.t;
}.
Arguments mkTroveChangeWithFees {T} _ _ _.
Arguments params {T} _.
Arguments newTrove {T} _.
Arguments fee {T} _.

Record LiquidationTotals : Type := mkLiquidationTotals {
  collateralGasCompensation : Decimal.t;
  thusdGasCompensation : Decimal.t;
  totalLiquidated : Trove.t;
}.
Record LiquidationDetails : Type := mkLiquidationDetails {
  liquidatedAddresses : list (option LogValue);
  totals : option LiquidationTotals;
}.

Record StabilityPoolGainsWithdrawalDetails : Type := mkGains {
  thusdLoss : Decimal.t;
  newTHUSDDeposit : option Decimal.t;
  gains_collateralGain : Decimal.t;
}.

Inductive StabilityChange : Type :=
| depositChange (depositTHUSD : Decimal.t)
| withdrawChange (withdrawTHUSD : option Decimal.t) (withdrawAllTHUSD : bool).

Record RedemptionDetails : Type := mkRedemptionDetails {
  attemptedTHUSDAmount : Decimal.t;
  actualTHUSDAmount : Decimal.t;
  collateralTaken : Decimal.t;
  redemptionFee : Decimal.t;
}.

Section Populatable.
Context {BN : BigNumberOps} {E : Ethers} {R : ReadableLiquity}.

Definition bigNumberMax (a : Z) (b : option Z) : Z :=
  match b with Some b => if bn_gt b a then b else a | None => a end.

Definition _redeemMaxIterations : Z := 70.

Definition defaultBorrowingRateSlippageTolerance : Decimal.t :=
  static_init (Decimal.mk 0) (Decimal.from (Decimal.ofNumber "0.005")).
Definition defaultRedemptionRateSlippageTolerance : Decimal.t :=
  static_init (Decimal.mk 0) (Decimal.from (Decimal.ofNumber "0.001")).
Definition defaultBorrowingFeeDecayToleranceMinutes : Z := 10.

(** [1414 * Math.ceil(Math.log2(minutes + 1))]: the logarithm of zero is minus infinity, that of a
    negative number is not a number, and neither makes a [BigNumber]. *)
Definition decayGas (minutes : Z) : Res Z :=
  if minutes + 1 =? 0 then Throw "overflow"
  else if minutes + 1 <? 0 then Throw "invalid BigNumber string"
  else Ok (1414 * Z.log2_up (minutes + 1)).

(** [addGasForBaseRateUpdate(maxMinutesSinceLastUpdate = 10)] *)
Definition addGasForBaseRateUpdate (maxMinutesSinceLastUpdate : option Z) (gas : Z) : Res Z :=
  let! decay := decayGas (default 10 maxMinutesSinceLastUpdate) in
  Ok (bn_add gas (10000 + decay)).
Definition addGasForPotentialListTraversal (gas : Z) : Res Z := Ok (bn_add gas 80000).
Definition addGasForIssuance (gas : Z) : Res Z := Ok (bn_add gas 50000).
Definition simpleAddGas (gas : Z) : Res Z := Ok (bn_add gas 1000).
Definition id_ (gas : Z) : Res Z := Ok gas.
Definition compose {T U V : Type} (f : U -> Res V) (g : T -> Res U) (t : T) : Res V :=
  let! u := g t in f u.

(** *** The search for hints *)

Definition maxNumberOfTrialsAtOnce : Z := 2500.

(** The loop of the generator; [fuel] is the number of trials, each round takes one at least. *)
Fixpoint generateTrials_go (fuel : nat) (totalNumberOfTrials : Z) : list Z :=
  match fuel with
  | O => []
  | S fuel' =>
      if totalNumberOfTrials =? 0 then []
      else
        let numberOfTrials := Z.min totalNumberOfTrials maxNumberOfTrialsAtOnce in
        numberOfTrials :: generateTrials_go fuel' (totalNumberOfTrials - numberOfTrials)
  end.

Definition generateTrials (totalNumberOfTrials : Z) : Res (list Z) :=
  let! _ := assert_ (0 <? totalNumberOfTrials) in
  Ok (generateTrials_go (Z.to_nat totalNumberOfTrials) totalNumberOfTrials).

Definition HintResult : Type := Z * string.

(** [collectApproxHint]: the state is the latest random seed with the results so far. *)
Definition collectApproxHint (nominalCollateralRatio : Decimal.t)
    (state : Z * list HintResult) (numberOfTrials : Z) : Res (Z * list HintResult) :=
  let '(latestRandomSeed, results) := state in
  let! '(latestRandomSeed, result) :=
    getApproxHint (Decimal.hex nominalCollateralRatio) numberOfTrials latestRandomSeed in
  Ok (latestRandomSeed, results ++ [result]).

(** [(a, b) => (a.diff.lt(b.diff) ? a : b)] *)
Definition closer (a b : HintResult) : HintResult := if bn_lt (fst a) (fst b) then a else b.

(** [results.reduce(...)] without an initial value. *)
Definition closest (results : list HintResult) : Res HintResult :=
  match results with
  | r :: results' => Ok (fold_left closer results' r)
  | [] => Throw "TypeError: Reduce of empty array with no initial value"
  end.

(** "Jumps over" the Trove being reinserted. *)
Definition jumpOver (ownAddress : option string) (position : string * string) :
    Res (string * string) :=
  let '(prev, next) := position in
  match ownAddress with
  | Some own =>
      if String.eqb own "" then Ok (prev, next)
      else if String.eqb prev own then let! prev := getPrev prev in Ok (prev, next)
      else if String.eqb next own then let! next := getNext next in Ok (prev, next)
      else Ok (prev, next)
  | None => Ok (prev, next)
  end.

Definition avoidZero (position : string * string) : string * string :=
  let '(prev, next) := position in
  if String.eqb prev AddressZero then (next, next)
  else if String.eqb next AddressZero then (prev, prev)
  else (prev, next).

Definition _findHintsForNominalCollateralRatio (nominalCollateralRatio : Decimal.t)
    (ownAddress : option string) : Res (string * string) :=
  let! numberOfTroves := getNumberOfTroves in
  if numberOfTroves =? 0 then Ok (AddressZero, AddressZero)
  else
    let! infinite := Decimal.infinite nominalCollateralRatio in
    match infinite with
    | Some _ => let! first := getFirst in Ok (AddressZero, first)
    | None =>
        let totalNumberOfTrials := Z.sqrt_up (100 * numberOfTroves) in
        let! trials := generateTrials totalNumberOfTrials in
        let! '(_, results) :=
          res_foldM (collectApproxHint nominalCollateralRatio) (randomInteger, []) trials in
        let! '(_, hintAddress) := closest results in
        let! position :=
          findInsertPosition (Decimal.hex nominalCollateralRatio) hintAddress hintAddress in
        let! position := jumpOver ownAddress position in
        Ok (avoidZero position)
    end.

(** A Trove, or an instance of the subclass [TroveWithPendingRedistribution]. *)
Definition _findHints (trove : Trove.t + TroveWithPendingRedistribution.t)
    (ownAddress : option string) : Res (string * string) :=
  match trove with
  | inr _ => Throw "Rewards must be applied to this Trove"
  | inl trove =>
      let! ratio := Trove._nominalCollateralRatio trove in
      _findHintsForNominalCollateralRatio ratio ownAddress
  end.

Definition _findRedemptionHints (amount : Decimal.t) :
    Res (Decimal.t * string * (string * string * Z)) :=
  let! price := getPrice in
  let! '(firstRedemptionHint, partialRedemptionHintNICR, truncatedTHUSDamount) :=
    getRedemptionHints (Decimal.hex amount) (Decimal.hex price) _redeemMaxIterations in
  let! '(upper, lower) :=
    if bn_isZero partialRedemptionHintNICR then Ok (AddressZero, AddressZero)
    else
      let! ratio := decimalify partialRedemptionHintNICR in
      _findHintsForNominalCollateralRatio ratio None in
  let! truncatedAmount := decimalify truncatedTHUSDamount in
  Ok (truncatedAmount, firstRedemptionHint, (upper, lower, partialRedemptionHintNICR)).

(** *** What receipts tell *)

Definition _wrapSimpleTransaction (raw : RawTx) : Populated unit :=
  mkPopulated raw None (fun _ => Ok tt).

(** [new Trove(decimalify(_coll), decimalify(_debt))] of an event. *)
Definition troveOf (coll debt : string) (e : LogDescription) : Res Trove.t :=
  let! c := decimalArg coll e in
  let! d := decimalArg debt e in
  Ok (Trove.mk c d).

(** [const [x] = contract.extractEvents(logs, name).map(f)] *)
Definition firstOf {A} (contract name : string) (f : LogDescription -> Res A) (logs : list Log) :
    Res (option A) :=
  let! events := extractEvents contract logs name in
  let! xs := res_mapM f events in
  Ok (head xs).

Definition _wrapTroveChangeWithFees {P} (params : P) (raw : RawTx) (gasHeadroom : option Z) :
    Populated (_TroveChangeWithFees P) :=
  mkPopulated raw gasHeadroom (fun receipt =>
    let! newTrove := firstOf "borrowerOperations" "TroveUpdated" (troveOf "_coll" "_debt")
                       (logs receipt) in
    let! fee := firstOf "borrowerOperations" "THUSDBorrowingFeePaid" (decimalArg "_THUSDFee")
                  (logs receipt) in
    Ok (mkTroveChangeWithFees params newTrove fee)).

(** The first [_amount] of the events that pass a filter. *)
Definition firstAmount (contract name : string) (p : LogDescription -> bool) (key : string)
    (logs : list Log) : Res (option Decimal.t) :=
  let! events := extractEvents contract logs name in
  let! xs := res_mapM (decimalArg key) (filter (fun e => p e = true) events) in
  Ok (head xs).

(** The closure's [repayTHUSD] is left out when it is zero. *)
Definition _wrapTroveClosure (raw : RawTx) :
    Populated (option Decimal.t * option Decimal.t) :=
  mkPopulated raw None (fun receipt =>
    let! repayTHUSD := firstAmount "thusdToken" "Transfer"
      (fun e => isArg "from" (receipt_from receipt) e && isArg "to" AddressZero e)
      "value" (logs receipt) in
    let! withdrawCollateral := firstAmount "activePool" "CollateralSent"
      (isArg "_to" (receipt_from receipt)) "_amount" (logs receipt) in
    match repayTHUSD with
    | Some r => Ok (withdrawCollateral, Decimal.nonZero r)
    | None => Throw "TypeError"
    end).

Definition _wrapLiquidation (raw : RawTx) : Populated LiquidationDetails :=
  mkPopulated raw None (fun receipt =>
    let! events := extractEvents "troveManager" (logs receipt) "TroveLiquidated" in
    let! totals := firstOf "troveManager" "Liquidation" (fun e =>
      let! collateralGasCompensation := decimalArg "_collGasCompensation" e in
      let! thusdGasCompensation := decimalArg "_THUSDGasCompensation" e in
      let! totalLiquidated := troveOf "_liquidatedColl" "_liquidatedDebt" e in
      Ok (mkLiquidationTotals collateralGasCompensation thusdGasCompensation totalLiquidated))
      (logs receipt) in
    Ok (mkLiquidationDetails (map (arg "_borrower") events) totals)).

Definition _extractStabilityPoolGainsWithdrawalDetails (logs : list Log) :
    Res StabilityPoolGainsWithdrawalDetails :=
  let! newTHUSDDeposit :=
    firstOf "stabilityPool" "UserDepositChanged" (decimalArg "_newDeposit") logs in
  let! gains := firstOf "stabilityPool" "CollateralGainWithdrawn" (fun e =>
    let! collateralGain := decimalArg "_collateral" e in
    let! thusdLoss := decimalArg "_THUSDLoss" e in
    Ok (collateralGain, thusdLoss)) logs in
  match gains with
  | Some (collateralGain, thusdLoss) => Ok (mkGains thusdLoss newTHUSDDeposit collateralGain)
  | None => Throw "TypeError"
  end.

Definition _wrapStabilityPoolGainsWithdrawal (raw : RawTx) :
    Populated StabilityPoolGainsWithdrawalDetails :=
  mkPopulated raw None (fun receipt => _extractStabilityPoolGainsWithdrawalDetails (logs receipt)).

Definition _wrapStabilityDepositTopup (change : StabilityChange) (raw : RawTx) :
    Populated (StabilityPoolGainsWithdrawalDetails * StabilityChange) :=
  mkPopulated raw None (fun receipt =>
    let! gains := _extractStabilityPoolGainsWithdrawalDetails (logs receipt) in
    Ok (gains, change)).

Definition _wrapStabilityDepositWithdrawal (raw : RawTx) :
    Populated (StabilityPoolGainsWithdrawalDetails * StabilityChange) :=
  mkPopulated raw None (fun receipt =>
    let! gains := _extractStabilityPoolGainsWithdrawalDetails (logs receipt) in
    let! withdrawTHUSD := firstAmount "thusdToken" "Transfer"
      (fun e => isArg "from" (contractAddress "stabilityPool") e &&
                isArg "to" (receipt_from receipt) e) "value" (logs receipt) in
    match newTHUSDDeposit gains with
    | Some d => Ok (gains, withdrawChange withdrawTHUSD (Decimal.isZero d))
    | None => Throw "TypeError"
    end).

Definition _wrapCollateralGainTransfer (raw : RawTx) :
    Populated (StabilityPoolGainsWithdrawalDetails * option Trove.t) :=
  mkPopulated raw None (fun receipt =>
    let! newTrove := firstOf "borrowerOperations" "TroveUpdated" (troveOf "_coll" "_debt")
                       (logs receipt) in
    let! gains := _extractStabilityPoolGainsWithdrawalDetails (logs receipt) in
    Ok (gains, newTrove)).

(** *** Borrowing operations *)

(** [maxBorrowingRateOrOptionalParams] *)
Inductive BorrowingLimit : Type :=
| unspecified
| rateLimit (maxBorrowingRate : Decimal.Decimalish)
| optionalParams (maxBorrowingRate : option Decimal.Decimalish)
    (borrowingFeeDecayToleranceMinutes : option Z).

(** [currentBorrowingRate?.add(defaultBorrowingRateSlippageTolerance) ?? Decimal.ZERO] *)
Definition defaultMaxBorrowingRate (currentBorrowingRate : option Decimal.t) : Res Decimal.t :=
  match currentBorrowingRate with
  | Some rate => Decimal.add rate defaultBorrowingRateSlippageTolerance
  | None => Ok Decimal.ZERO
  end.

Definition normalizeBorrowingOperationOptionalParams
    (maxBorrowingRateOrOptionalParams : BorrowingLimit) (currentBorrowingRate : option Decimal.t) :
    Res (Decimal.t * Z) :=
  match maxBorrowingRateOrOptionalParams with
  | unspecified =>
      let! rate := defaultMaxBorrowingRate currentBorrowingRate in
      Ok (rate, defaultBorrowingFeeDecayToleranceMinutes)
  | rateLimit rate =>
      let! rate := Decimal.from rate in
      Ok (rate, defaultBorrowingFeeDecayToleranceMinutes)
  | optionalParams rate minutes =>
      let! rate := match rate with
                   | Some rate => Decimal.from rate
                   | None => defaultMaxBorrowingRate currentBorrowingRate
                   end in
      Ok (rate, default defaultBorrowingFeeDecayToleranceMinutes minutes)
  end.

(** The check both operations make on the Trove after the decay. *)
Definition checkDecayedDebt (decayedTrove : Trove.t) (borrowingFeeDecayToleranceMinutes : Z) :
    Res unit :=
  let! low := Decimal.lt (Trove.debt decayedTrove) THUSD_MINIMUM_DEBT in
  if (low : bool) then
    let! m := Decimal.toString THUSD_MINIMUM_DEBT None in
    Throw ("Trove's debt might fall below " +:+ m +:+ " within " +:+
           Js.dec_string borrowingFeeDecayToleranceMinutes +:+ " minutes")
  else Ok tt.

(** The array [txParams(borrowTHUSD)] of [openTrove], without the overrides. *)
Definition openArgs (maxBorrowingRate borrowTHUSD depositCollateral : Decimal.t)
    (isCollateralEth : bool) (hints : string * string) : list Arg :=
  [AHex (Decimal.hex maxBorrowingRate); AHex (Decimal.hex borrowTHUSD);
   AHex (Decimal.hex (if isCollateralEth then Decimal.ZERO else depositCollateral));
   AAddress (fst hints); AAddress (snd hints)].

Definition openTrove (params : TroveParams.RawParams)
    (maxBorrowingRateOrOptionalParams : BorrowingLimit) (overrides : Overrides) :
    Res (Populated (_TroveChangeWithFees (TroveParams.TroveCreationParams Decimal.t))) :=
  let! normalizedParams := TroveParams._normalizeTroveCreation params in
  let depositCollateral := TroveParams.depositCollateral normalizedParams in
  let borrowTHUSD := TroveParams.borrowTHUSD normalizedParams in
  let! fees := _getFeesFactory in
  let! blockTimestamp := _getBlockTimestamp in
  let! total := getTotal in
  let! price := getPrice in
  let! collateralAddress := getCollateralAddress in
  let isCollateralEth := String.eqb collateralAddress ZERO_ADDRESS in
  let! recoveryMode := Trove.collateralRatioIsBelowCritical total price in
  let decayBorrowingRate (seconds : Z) :=
    let! f := fees (blockTimestamp + seconds) recoveryMode in
    Fees.borrowingRate f None in
  let! currentBorrowingRate := decayBorrowingRate 0 in
  let creation := TroveParams.creationish normalizedParams in
  let! newTrove := Trove.create creation (Some (Decimal.ofDecimal currentBorrowingRate)) in
  let! hints := _findHints (inl newTrove) None in
  let! '(maxBorrowingRate, borrowingFeeDecayToleranceMinutes) :=
    normalizeBorrowingOperationOptionalParams maxBorrowingRateOrOptionalParams
      (Some currentBorrowingRate) in
  let txParams borrowTHUSD :=
    openArgs maxBorrowingRate borrowTHUSD depositCollateral isCollateralEth hints in
  let txOverrides overrides :=
    withValue (Decimal.hex (if isCollateralEth then depositCollateral else Decimal.ZERO))
      overrides in
  let! '(gasHeadroom, overrides) :=
    match gasLimit overrides with
    | None =>
        let! decayedBorrowingRate :=
          decayBorrowingRate (60 * borrowingFeeDecayToleranceMinutes) in
        let! decayedTrove :=
          Trove.create creation (Some (Decimal.ofDecimal decayedBorrowingRate)) in
        let! simulated :=
          Trove.recreate decayedTrove (Some (Decimal.ofDecimal currentBorrowingRate)) in
        let! _ := checkDecayedDebt decayedTrove borrowingFeeDecayToleranceMinutes in
        let! gasNow := estimateGas "borrowerOperations" "openTrove" (txParams borrowTHUSD)
                         (txOverrides overrides) in
        let! gasLater := estimateGas "borrowerOperations" "openTrove"
                           (txParams (TroveParams.borrowTHUSD simulated))
                           (txOverrides overrides) in
        let! traversal := addGasForPotentialListTraversal gasNow in
        let! gasLimit := addGasForBaseRateUpdate (Some borrowingFeeDecayToleranceMinutes)
          (bigNumberMax traversal (Some gasLater)) in
        let! gasHeadroom := bn_toNumber (bn_sub gasLimit gasNow) in
        Ok (Some gasHeadroom, withGasLimit gasLimit overrides)
    | Some _ => Ok (None, overrides)
    end in
  let! raw := populateTransaction "borrowerOperations" "openTrove" (txParams borrowTHUSD)
                (txOverrides overrides) in
  Ok (_wrapTroveChangeWithFees normalizedParams raw gasHeadroom).

Definition closeTrove (overrides : Overrides) :
    Res (Populated (option Decimal.t * option Decimal.t)) :=
  let! raw := estimateAndPopulate "borrowerOperations" "closeTrove" overrides id_ [] in
  Ok (_wrapTroveClosure raw).

(** The array [txParams(borrowTHUSD)] of [adjustTrove], without the overrides; [p] holds the
    amounts to deposit, withdraw and repay. *)
Definition adjustArgs (maxBorrowingRate : Decimal.t)
    (p : TroveParams.TroveAdjustmentParams Decimal.t) (borrowTHUSD : option Decimal.t)
    (isCollateralEth : bool) (hints : string * string) : list Arg :=
  let orZero (d : option Decimal.t) := default Decimal.ZERO d in
  [AHex (Decimal.hex maxBorrowingRate);
   AHex (Decimal.hex (orZero (TroveParams.withdraw p)));
   AHex (Decimal.hex (match borrowTHUSD with
                      | Some b => b
                      | None => orZero (TroveParams.repay p)
                      end));
   ABool (match borrowTHUSD with Some _ => true | None => false end);
   AHex (Decimal.hex (if isCollateralEth then Decimal.ZERO else orZero (TroveParams.deposit p)));
   AAddress (fst hints); AAddress (snd hints)].

(** The rate [adjustTrove] predicts for some seconds ahead; [feeVars] is absent when it does not
    borrow. *)
Definition decayBorrowingRate
    (feeVars : option ((Z -> bool -> Res Fees.t) * Z * Trove.t * Decimal.t)) (seconds : Z) :
    Res (option Decimal.t) :=
  match feeVars with
  | Some (fees, blockTimestamp, total, price) =>
      let! recoveryMode := Trove.collateralRatioIsBelowCritical total price in
      let! f := fees (blockTimestamp + seconds) recoveryMode in
      let! rate := Fees.borrowingRate f None in
      Ok (Some rate)
  | None => Ok None
  end.

Definition adjustTrove (params : TroveParams.RawParams)
    (maxBorrowingRateOrOptionalParams : BorrowingLimit) (overrides : Overrides) :
    Res (Populated (_TroveChangeWithFees (TroveParams.TroveAdjustmentParams Decimal.t))) :=
  let! address := _requireAddress overrides in
  let! normalizedParams := TroveParams._normalizeTroveAdjustment params in
  let borrowTHUSD := TroveParams.borrow normalizedParams in
  let! userTrove := getTrove address in
  let trove := UserTrove.super userTrove in
  let! collateralAddress := getCollateralAddress in
  let! feeVars :=
    match borrowTHUSD with
    | Some _ =>
        let! fees := _getFeesFactory in
        let! blockTimestamp := _getBlockTimestamp in
        let! total := getTotal in
        let! price := getPrice in
        Ok (Some (fees, blockTimestamp, total, price))
    | None => Ok None
    end in
  let isCollateralEth := String.eqb collateralAddress ZERO_ADDRESS in
  let decayBorrowingRate := decayBorrowingRate feeVars in
  let! currentBorrowingRate := decayBorrowingRate 0 in
  let adjustment := TroveParams.adjustmentish normalizedParams in
  let! adjustedTrove := Trove.adjust trove adjustment (Decimal.ofDecimal <$> currentBorrowingRate) in
  let! hints := _findHints (inl adjustedTrove) (Some address) in
  let! '(maxBorrowingRate, borrowingFeeDecayToleranceMinutes) :=
    normalizeBorrowingOperationOptionalParams maxBorrowingRateOrOptionalParams
      currentBorrowingRate in
  let txParams borrowTHUSD :=
    adjustArgs maxBorrowingRate normalizedParams borrowTHUSD isCollateralEth hints in
  let txOverrides overrides :=
    withValue (Decimal.hex (if isCollateralEth
      then default Decimal.ZERO (TroveParams.deposit normalizedParams) else Decimal.ZERO))
      overrides in
  let! '(gasHeadroom, overrides) :=
    match gasLimit overrides with
    | None =>
        let! decayedBorrowingRate :=
          decayBorrowingRate (60 * borrowingFeeDecayToleranceMinutes) in
        let! decayedTrove :=
          Trove.adjust trove adjustment (Decimal.ofDecimal <$> decayedBorrowingRate) in
        let! simulated :=
          Trove.adjustTo trove decayedTrove (Decimal.ofDecimal <$> currentBorrowingRate) in
        let! _ := checkDecayedDebt decayedTrove borrowingFeeDecayToleranceMinutes in
        let! gasNow := estimateGas "borrowerOperations" "adjustTrove" (txParams borrowTHUSD)
                         (txOverrides overrides) in
        let! gasLater :=
          match borrowTHUSD with
          | Some _ =>
              let! g := estimateGas "borrowerOperations" "adjustTrove"
                          (txParams (TroveParams.borrow simulated)) (txOverrides overrides) in
              Ok (Some g)
          | None => Ok None
          end in
        let! traversal := addGasForPotentialListTraversal gasNow in
        let gasLimit := bigNumberMax traversal gasLater in
        let! gasLimit :=
          match borrowTHUSD with
          | Some _ => addGasForBaseRateUpdate (Some borrowingFeeDecayToleranceMinutes) gasLimit
          | None => Ok gasLimit
          end in
        let! gasHeadroom := bn_toNumber (bn_sub gasLimit gasNow) in
        Ok (Some gasHeadroom, withGasLimit gasLimit overrides)
    | Some _ => Ok (None, overrides)
    end in
  let! raw := populateTransaction "borrowerOperations" "adjustTrove" (txParams borrowTHUSD)
                (txOverrides overrides) in
  Ok (_wrapTroveChangeWithFees normalizedParams raw gasHeadroom).

(** The aliases of [adjustTrove]. *)
Definition depositCollateral (amount : Decimal.Decimalish) :=
  adjustTrove [("depositCollateral", Some amount)] unspecified.
Definition withdrawCollateral (amount : Decimal.Decimalish) :=
  adjustTrove [("withdrawCollateral", Some amount)] unspecified.
Definition borrowTHUSD (amount : Decimal.Decimalish) (maxBorrowingRate : option Decimal.Decimalish) :=
  adjustTrove [("borrowTHUSD", Some amount)]
    match maxBorrowingRate with Some r => rateLimit r | None => unspecified end.
Definition repayTHUSD (amount : Decimal.Decimalish) :=
  adjustTrove [("repayTHUSD", Some amount)] unspecified.

Definition claimCollateralSurplus (overrides : Overrides) : Res (Populated unit) :=
  let! raw := estimateAndPopulate "borrowerOperations" "claimCollateral" overrides id_ [] in
  Ok (_wrapSimpleTransaction raw).

Definition setPrice (price : Decimal.Decimalish) (overrides : Overrides) : Res (Populated unit) :=
  if negb setPriceInPriceFeed then Throw "setPrice() unavailable on this deployment of Liquity"
  else
    let! price := Decimal.from price in
    let! raw := estimateAndPopulate "priceFeed" "setPrice" overrides id_
                  [AHex (Decimal.hex price)] in
    Ok (_wrapSimpleTransaction raw).

(** *** Liquidations and pools *)

Definition liquidate (address : string + list string) (overrides : Overrides) :
    Res (Populated LiquidationDetails) :=
  let! raw :=
    match address with
    | inr addresses => estimateAndPopulate "troveManager" "batchLiquidateTroves" overrides
                         addGasForIssuance [AAddresses addresses]
    | inl address => estimateAndPopulate "troveManager" "liquidate" overrides
                       addGasForIssuance [AAddress address]
    end in
  Ok (_wrapLiquidation raw).

Definition liquidateUpTo (maximumNumberOfTrovesToLiquidate : Z) (overrides : Overrides) :
    Res (Populated LiquidationDetails) :=
  let! raw := estimateAndPopulate "troveManager" "liquidateTroves" overrides addGasForIssuance
                [ANumber maximumNumberOfTrovesToLiquidate] in
  Ok (_wrapLiquidation raw).

Definition bammUnlock (overrides : Overrides) : Res (Populated unit) :=
  let! raw := estimateAndPopulate "thusdToken" "approve" overrides simpleAddGas
                [AAddress (contractAddress "bamm"); ABigNumber (2 ^ 256 - 1)] in
  Ok (_wrapSimpleTransaction raw).

Definition depositTHUSDInBammPool (amount : Decimal.Decimalish) (overrides : Overrides) :
    Res (Populated (StabilityPoolGainsWithdrawalDetails * StabilityChange)) :=
  let! depositTHUSD := Decimal.from amount in
  let! raw := estimateAndPopulate "bamm" "deposit" overrides addGasForIssuance
                [AHex (Decimal.hex depositTHUSD)] in
  Ok (_wrapStabilityDepositTopup (depositChange depositTHUSD) raw).

Definition withdrawTHUSDFromBammPool (amount : Decimal.Decimalish) (overrides : Overrides) :
    Res (Populated (StabilityPoolGainsWithdrawalDetails * StabilityChange)) :=
  let! spShareToWithdraw := getWithdrawsSpShare amount in
  let! share := Decimal.from (Decimal.ofString spShareToWithdraw) in
  let! raw := estimateAndPopulate "bamm" "withdraw" overrides addGasForIssuance
                [AHex (Decimal.hex share)] in
  Ok (_wrapStabilityDepositWithdrawal raw).

Definition withdrawGainsFromBammPool (overrides : Overrides) :
    Res (Populated StabilityPoolGainsWithdrawalDetails) :=
  let! raw := estimateAndPopulate "bamm" "withdraw" overrides addGasForIssuance
                [AHex (Decimal.hex Decimal.ZERO)] in
  Ok (_wrapStabilityPoolGainsWithdrawal raw).

Definition depositTHUSDInStabilityPool (amount : Decimal.Decimalish) (overrides : Overrides) :
    Res (Populated (StabilityPoolGainsWithdrawalDetails * StabilityChange)) :=
  let! depositTHUSD := Decimal.from amount in
  let! raw := estimateAndPopulate "stabilityPool" "provideToSP" overrides addGasForIssuance
                [AHex (Decimal.hex depositTHUSD)] in
  Ok (_wrapStabilityDepositTopup (depositChange depositTHUSD) raw).

Definition withdrawTHUSDFromStabilityPool (amount : Decimal.Decimalish) (overrides : Overrides) :
    Res (Populated (StabilityPoolGainsWithdrawalDetails * StabilityChange)) :=
  let! amount := Decimal.from amount in
  let! raw := estimateAndPopulate "stabilityPool" "withdrawFromSP" overrides addGasForIssuance
                [AHex (Decimal.hex amount)] in
  Ok (_wrapStabilityDepositWithdrawal raw).

Definition withdrawGainsFromStabilityPool (overrides : Overrides) :
    Res (Populated StabilityPoolGainsWithdrawalDetails) :=
  let! raw := estimateAndPopulate "stabilityPool" "withdrawFromSP" overrides addGasForIssuance
                [AHex (Decimal.hex Decimal.ZERO)] in
  Ok (_wrapStabilityPoolGainsWithdrawal raw).

(** The common part of the two transfers of a gain into the user's Trove. *)
Definition transferGain (address : string) (gain : Decimal.t) (initialTrove : UserTrove.t)
    (overrides : Overrides) :
    Res (Populated (StabilityPoolGainsWithdrawalDetails * option Trove.t)) :=
  let! finalTrove := Trove.addCollateral (UserTrove.super initialTrove) gain in
  let! '(upper, lower) := _findHints (inl finalTrove) (Some address) in
  let! raw := estimateAndPopulate "stabilityPool" "withdrawCollateralGainToTrove" overrides
                (compose addGasForPotentialListTraversal addGasForIssuance)
                [AAddress upper; AAddress lower] in
  Ok (_wrapCollateralGainTransfer raw).

Definition transferCollateralGainToTrove (overrides : Overrides) :
    Res (Populated (StabilityPoolGainsWithdrawalDetails * option Trove.t)) :=
  let! address := _requireAddress overrides in
  let! initialTrove := getTrove address in
  let! stabilityDeposit := getStabilityDeposit address in
  transferGain address (StabilityDeposit.collateralGain stabilityDeposit) initialTrove overrides.

Definition transferBammCollateralGainToTrove (overrides : Overrides) :
    Res (Populated (StabilityPoolGainsWithdrawalDetails * option Trove.t)) :=
  let! address := _requireAddress overrides in
  let! initialTrove := getTrove address in
  let! bammDeposit := getBammDeposit address in
  transferGain address (BammDeposit.collateralGain bammDeposit) initialTrove overrides.

(** *** Tokens *)

Definition sendTHUSD (toAddress : string) (amount : Decimal.Decimalish) (overrides : Overrides) :
    Res (Populated unit) :=
  let! amount := Decimal.from amount in
  let! raw := estimateAndPopulate "thusdToken" "transfer" overrides id_
                [AAddress toAddress; AHex (Decimal.hex amount)] in
  Ok (_wrapSimpleTransaction raw).

Definition approveErc20 (allowance : option Decimal.Decimalish) (overrides : Overrides) :
    Res (Populated unit) :=
  let! allowance := Decimal.from (default (Decimal.ofDecimal Decimal.INFINITY) allowance) in
  let! raw := estimateAndPopulate "erc20" "approve" overrides id_
                [AAddress (contractAddress "borrowerOperations"); AHex (Decimal.hex allowance)] in
  Ok (_wrapSimpleTransaction raw).

Definition mintErc20 (toAddress : string) (amount : Decimal.Decimalish) (overrides : Overrides) :
    Res (Populated unit) :=
  let! amount := Decimal.from amount in
  let! raw := estimateAndPopulate "erc20" "mint" overrides id_
                [AAddress toAddress; AHex (Decimal.hex amount)] in
  Ok (_wrapSimpleTransaction raw).

(** *** Redemptions *)

(** [PopulatedEthersRedemption]: [increase] is the function behind
    [increaseAmountByMinimumNetDebt], if it was given one. *)
Inductive PopulatedRedemption : Type := mkRedemption {
  redemption : Populated (option RedemptionDetails);
  attempted : Decimal.t;
  redeemable : Decimal.t;
  increase : option (option Decimal.Decimalish -> Res PopulatedRedemption);
}.

Definition isTruncated (r : PopulatedRedemption) : Res bool :=
  Decimal.lt (redeemable r) (attempted r).

Definition increaseAmountByMinimumNetDebt (r : PopulatedRedemption)
    (maxRedemptionRate : option Decimal.Decimalish) : Res PopulatedRedemption :=
  match increase r with
  | Some f => f maxRedemptionRate
  | None => Throw ("PopulatedEthersRedemption: increaseAmountByMinimumNetDebt() can " +:+
                   "only be called when amount is truncated")
  end.

Definition redemptionDetails (receipt : RawReceipt E) : Res (option RedemptionDetails) :=
  firstOf "troveManager" "Redemption" (fun e =>
    let! attempted := decimalArg "_attemptedTHUSDAmount" e in
    let! actual := decimalArg "_actualTHUSDAmount" e in
    let! taken := decimalArg "_collateralSent" e in
    let! fee := decimalArg "_collateralFee" e in
    Ok (mkRedemptionDetails attempted actual taken fee)) (logs receipt).

(** [defaultMaxRedemptionRate(amount)] *)
Definition defaultMaxRedemptionRate (fees : Fees.t) (total : Trove.t) (amount : Decimal.t) :
    Res Decimal.t :=
  let! fraction := Decimal.div amount (Trove.debt total) in
  let! rate := Fees.redemptionRate fees (Some (Decimal.ofDecimal fraction)) None in
  let! rate := Decimal.add rate defaultRedemptionRateSlippageTolerance in
  Decimal.min rate Decimal.ONE.

(** [populateRedemption]: the redemption it can be increased to is not truncated, so that [fuel] 2
    is enough. *)
Fixpoint populateRedemption (fuel : nat) (fees : Fees.t) (total : Trove.t)
    (firstRedemptionHint : string) (overrides : Overrides) (attemptedTHUSDAmount : Decimal.t)
    (maxRedemptionRate : option Decimal.Decimalish) (truncatedAmount : option Decimal.t)
    (partialHints : option (string * string * Z)) : Res PopulatedRedemption :=
  match fuel with
  | O => Throw "out of fuel"
  | S fuel' =>
      let truncatedAmount := default attemptedTHUSDAmount truncatedAmount in
      let '(upper, lower, nicr) := default (AddressZero, AddressZero, 0) partialHints in
      let! maxRedemptionRateOrDefault :=
        match maxRedemptionRate with
        | Some rate => Decimal.from rate
        | None => defaultMaxRedemptionRate fees total truncatedAmount
        end in
      let! raw := estimateAndPopulate "troveManager" "redeemCollateral" overrides
        (addGasForBaseRateUpdate None)
        [AHex (Decimal.hex truncatedAmount); AAddress firstRedemptionHint; AAddress upper;
         AAddress lower; ABigNumber nicr; ANumber _redeemMaxIterations;
         AHex (Decimal.hex maxRedemptionRateOrDefault)] in
      let! truncated := Decimal.lt truncatedAmount attemptedTHUSDAmount in
      Ok (mkRedemption (mkPopulated raw None redemptionDetails) attemptedTHUSDAmount
        truncatedAmount
        (if (truncated : bool) then Some (fun newMaxRedemptionRate =>
           let! increased := Decimal.add truncatedAmount THUSD_MINIMUM_NET_DEBT in
           populateRedemption fuel' fees total firstRedemptionHint overrides increased
             (match newMaxRedemptionRate with Some r => Some r | None => maxRedemptionRate end)
             None None)
         else None))
  end.

Definition redeemTHUSD (amount : Decimal.Decimalish)
    (maxRedemptionRate : option Decimal.Decimalish) (overrides : Overrides) :
    Res PopulatedRedemption :=
  let! attemptedTHUSDAmount := Decimal.from amount in
  let! fees := getFees in
  let! total := getTotal in
  let! '(truncatedAmount, firstRedemptionHint, partialHints) :=
    _findRedemptionHints attemptedTHUSDAmount in
  if Decimal.isZero truncatedAmount then
    let! m := Decimal.toString THUSD_MINIMUM_NET_DEBT None in
    Throw ("redeemTHUSD: amount too low to redeem (try at least " +:+ m +:+ ")")
  else
    populateRedemption 2 fees total firstRedemptionHint overrides attemptedTHUSDAmount
      maxRedemptionRate (Some truncatedAmount) (Some partialHints).

End Populatable.
End Populatable.
