(* ===== verification/PopulatableProperties.v ===== *)
(** * Properties of prepared transactions

    The search for hints, the gas and the arguments of borrowing operations, redemptions, and
    what a receipt is told as. *)

From S2P Require Import Prelude BigNumber Decimals Constants Troves TroveProperties.
From S2P Require Import Fees Populatable.

Local Open Scope Z_scope.

(** ** Hints *)
Module HintProperties.
Import Contracts Populatable.

(** Batches add up to the number of trials, none empty or larger than the maximum. *)
Lemma generateTrials_go_spec fuel n :
  0 <= n <= Z.of_nat fuel ->
  fold_right Z.add 0 (generateTrials_go fuel n) = n /\
  Forall (fun k => 0 < k <= maxNumberOfTrialsAtOnce) (generateTrials_go fuel n).
Proof.
  revert n. induction fuel as [|fuel IH]; intros n Hn; cbn [generateTrials_go].
  - split; [cbn; lia|constructor].
  - destruct (Z.eqb_spec n 0) as [->|Hn0]; [split; [done|constructor]|].
    assert (0 < Z.min n maxNumberOfTrialsAtOnce <= maxNumberOfTrialsAtOnce)
      by (unfold maxNumberOfTrialsAtOnce; lia).
    destruct (IH (n - Z.min n maxNumberOfTrialsAtOnce)) as [IH1 IH2]; [lia|].
    split; [|by constructor]. cbn [fold_right]. rewrite IH1. lia.
Qed.

Section Search.
Context {BN : BigNumberOps} {BNL : BigNumberLaws BN} {E : Ethers} {R : ReadableLiquity}.

Lemma generateTrials_ok n :
  0 < n -> exists l, generateTrials n = Ok l /\ l <> [] /\ fold_right Z.add 0 l = n /\
    Forall (fun k => 0 < k <= maxNumberOfTrialsAtOnce) l.
Proof.
  intros Hn. unfold generateTrials. rewrite (proj2 (Z.ltb_lt 0 n) Hn). cbn [assert_ res_bind].
  destruct (generateTrials_go_spec (Z.to_nat n) n) as [H1 H2]; [lia|].
  eexists; split; [done|]. split; [|done]. intros E0. rewrite E0 in H1. cbn in H1. lia.
Qed.

(** A search that gets an answer to each of its calls keeps all of them. *)
Lemma collect_length ratio trials seed results s' results' :
  res_foldM (collectApproxHint ratio) (seed, results) trials = Ok (s', results') ->
  length results' = (length results + length trials)%nat.
Proof.
  revert seed results. induction trials as [|k l IH]; intros seed results H; cbn in H.
  - injection H as <- <-. cbn. lia.
  - apply res_bind_inv in H as ((seed1 & results1) & H1 & H). res_inv H1.
    destruct x as [seed2 r]. injection H1 as <- <-. apply IH in H. rewrite H, length_app. cbn. lia.
Qed.

(** The fold keeps a result whose difference is the least so far. *)
Lemma fold_closer l r :
  let best := fold_left closer l r in
  In best (r :: l) /\ Forall (fun x => fst best <= fst x) (r :: l).
Proof.
  revert r. induction l as [|x l IH]; intros r; cbn [fold_left].
  - split; [by left|]. by constructor.
  - destruct (IH (closer r x)) as [H1 H2]. inversion H2 as [|y l' H3 H4 Heq]; subst.
    unfold closer in *. rewrite bn_ltE in *. cbv zeta.
    destruct (Z.ltb_spec (fst r) (fst x)) as [Hlt|Hge].
    + split; [destruct H1 as [<-|H1]; [by left|by right; right]|].
      constructor; [lia|]. constructor; [lia|done].
    + split; [destruct H1 as [<-|H1]; [by right; left|by right; right]|].
      constructor; [lia|]. constructor; [lia|done].
Qed.

(** The list of Troves in the contract, from head to tail: its answers about neighbours (the zero
    address past an end, and for a Trove that is not in it) and insertion positions, which are
    gaps of the list; the other calls the search makes succeed. *)
Class SortedTroves : Type := {
  troves : list string;
  troves_distinct : NoDup troves;
  troves_addresses a : In a troves -> a <> AddressZero /\ a <> "";
  troves_number : getNumberOfTroves = Ok (Z.of_nat (length troves));
  troves_first : getFirst = Ok (default AddressZero (head troves));
  troves_prev before a after : troves = before ++ a :: after ->
    getPrev a = Ok (default AddressZero (last before));
  troves_next before a after : troves = before ++ a :: after ->
    getNext a = Ok (default AddressZero (head after));
  troves_absent a : ~ In a troves -> getPrev a = Ok AddressZero /\ getNext a = Ok AddressZero;
  troves_position r a b : exists before after, troves = before ++ after /\
    findInsertPosition r a b =
      Ok (default AddressZero (last before), default AddressZero (head after));
  troves_approx r k s : 0 < k <= maxNumberOfTrialsAtOnce -> exists a, getApproxHint r k s = Ok a;
}.

(** The Troves of a list without the one that is being reinserted. *)
Definition without (own : option string) (l : list string) : list string :=
  match own with Some o => List.filter (fun a => negb (String.eqb a o)) l | None => l end.

Lemma without_absent own l : (forall o, own = Some o -> ~ In o l) -> without own l = l.
Proof.
  destruct own as [o|]; [|done]. intros H. specialize (H o eq_refl). cbn.
  induction l as [|a l IH]; [done|]. cbn. destruct (String.eqb_spec a o) as [->|_].
  - destruct H. by left.
  - cbn. rewrite IH; [done|]. intros Hin. apply H. by right.
Qed.

Lemma without_app own l l' : without own (l ++ l') = without own l ++ without own l'.
Proof. destruct own; [apply List.filter_app | done]. Qed.

Lemma without_keeps o a l : a <> o -> without (Some o) (a :: l) = a :: without (Some o) l.
Proof. intros H. cbn. by destruct (String.eqb_spec a o). Qed.

Lemma without_drops o l : without (Some o) (o :: l) = without (Some o) l.
Proof. cbn. by rewrite String.eqb_refl. Qed.

Lemma last_without o l : last l <> Some o -> last (without (Some o) l) = last l.
Proof.
  intros H. destruct (last l) as [a|] eqn:El.
  - apply last_Some in El as [l' ->]. rewrite without_app, without_keeps by congruence.
    apply last_snoc.
  - by apply last_None in El as ->.
Qed.

Lemma head_without o l : head l <> Some o -> head (without (Some o) l) = head l.
Proof. destruct l as [|a l]; [done|]. intros H. cbn in H. rewrite without_keeps by congruence. done. Qed.

(** Jumping over a Trove gives the ends of the gap in the list without it. *)
Lemma jumpOver_spec {L : SortedTroves} own before after : troves = before ++ after ->
  jumpOver own (default AddressZero (last before), default AddressZero (head after)) =
    Ok (default AddressZero (last (without own before)),
        default AddressZero (head (without own after))).
Proof.
  intros Hl. destruct own as [o|]; [|done]. pose proof troves_distinct as Hnd.
  pose proof troves_addresses as Hadr. rewrite Hl in Hnd, Hadr. unfold jumpOver.
  destruct (String.eqb_spec o "") as [->|Hempty].
  { rewrite !without_absent; [done| |]; intros ? [= <-] Hin;
      by destruct (Hadr "") as [_ []]; [apply in_app_iff; auto|]. }
  destruct (String.eqb_spec (default AddressZero (last before)) o) as [Ho|Hb];
    [|destruct (String.eqb_spec (default AddressZero (head after)) o) as [Ho|Ha]].
  - destruct (last before) as [a|] eqn:El; cbn [from_option id] in Ho |- *; subst o.
    + apply last_Some in El as [before' ->]. rewrite <- app_assoc in Hl.
      rewrite (troves_prev before' a after Hl). cbn [res_bind].
      apply NoDup_app in Hnd as ((_ & Hba & _)%NoDup_app & Hdis & _).
      rewrite without_app, without_drops, app_nil_r. rewrite !without_absent; [done| |].
      * intros ? [= <-] Hin. apply (Hdis a); apply list_elem_of_In; [|done]. apply in_app_iff.
        right. by left.
      * intros ? [= <-] Hin. apply (Hba a); apply list_elem_of_In; [done|]. by left.
    + apply last_None in El as ->. cbn [app] in *.
      destruct (troves_absent AddressZero) as [-> _].
      { rewrite Hl. intros Hin. by destruct (Hadr _ Hin). }
      cbn [res_bind]. rewrite (without_absent _ after); [done|]. intros ? [= <-] Hin.
      by destruct (Hadr _ Hin).
  - destruct after as [|a after]; cbn [head from_option id] in Ho |- *; subst o.
    + destruct (troves_absent AddressZero) as [_ ->].
      { rewrite Hl. intros Hin. by destruct (Hadr _ Hin). }
      cbn [res_bind]. rewrite (without_absent _ before); [done|]. intros ? [= <-] Hin.
      destruct (Hadr AddressZero) as [[] _]; [|done]. apply in_app_iff. by left.
    + rewrite (troves_next before a after Hl). cbn [res_bind].
      apply NoDup_app in Hnd as (_ & Hdis & Haa%NoDup_cons). destruct Haa as [Haa _].
      rewrite without_drops. rewrite !without_absent; [done| |]; intros ? [= <-] Hin.
      * apply Haa. by apply list_elem_of_In.
      * apply (Hdis a); apply list_elem_of_In; [done|by left].
  - rewrite last_without, head_without; [done| |]; intros E0; rewrite E0 in *; done.
Qed.

Definition orElse {A} (a b : option A) : option A := match a with Some _ => a | None => b end.

Lemma avoidZero_spec p q :
  (forall a, p = Some a -> a <> AddressZero) -> (forall a, q = Some a -> a <> AddressZero) ->
  avoidZero (default AddressZero p, default AddressZero q) =
    (default AddressZero (orElse p q), default AddressZero (orElse q p)).
Proof.
  intros Hp Hq. unfold avoidZero. destruct p as [a|]; cbn [from_option id orElse].
  - rewrite (proj2 (String.eqb_neq a AddressZero)) by auto. destruct q as [b|]; cbn [from_option id].
    + by rewrite (proj2 (String.eqb_neq b AddressZero)) by auto.
    + by rewrite String.eqb_refl.
  - rewrite String.eqb_refl. by destruct q.
Qed.

Lemma without_in own a l : In a (without own l) -> In a l.
Proof. destruct own; [|done]. cbn. rewrite filter_In. tauto. Qed.

Lemma collect_total {L : SortedTroves} ratio trials seed results :
  Forall (fun k => 0 < k <= maxNumberOfTrialsAtOnce) trials ->
  exists s' results', res_foldM (collectApproxHint ratio) (seed, results) trials = Ok (s', results').
Proof.
  intros Hall. revert seed results. induction Hall as [|k l Hk _ IH]; intros seed results; cbn;
    [by do 2 eexists|]. destruct (troves_approx (Decimal.hex ratio) k seed Hk) as [[s r] ->].
  apply IH.
Qed.

(** C19: the search for hints, for a ratio and possibly the address of a Trove being reinserted,
    always answers.  Two zero addresses when there are no Troves; zero and the first Trove for an
    infinite ratio.  Otherwise it asks for exactly [ceil(10 * sqrt(n))] trials in batches of at most
    2500, and from a hint whose difference is the least of all batches it finds a gap of the list;
    its hints are the ends of that gap in the list without the Trove being reinserted, one of them
    twice when the other end is that of the list, and two zero addresses only if the list has no
    other Trove there. *)
Theorem hint_search {L : SortedTroves} (ratio : Decimal.t) own :
  (troves = [] -> _findHintsForNominalCollateralRatio ratio own = Ok (AddressZero, AddressZero)) /\
  (troves <> [] -> ratio = DecimalFacts.INF ->
     exists first, head troves = Some first /\
       _findHintsForNominalCollateralRatio ratio own = Ok (AddressZero, first)) /\
  (troves <> [] -> ratio <> DecimalFacts.INF ->
   exists trials results seed best before after,
    fold_right Z.add 0 trials = Z.sqrt_up (100 * Z.of_nat (length troves)) /\
    Forall (fun k => 0 < k <= 2500) trials /\
    res_foldM (collectApproxHint ratio) (randomInteger, []) trials = Ok (seed, results) /\
    length results = length trials /\ In best results /\
    Forall (fun x => fst best <= fst x) results /\
    troves = before ++ after /\
    findInsertPosition (Decimal.hex ratio) (snd best) (snd best) =
      Ok (default AddressZero (last before), default AddressZero (head after)) /\
    let prev := last (without own before) in
    let next := head (without own after) in
    _findHintsForNominalCollateralRatio ratio own =
      Ok (default AddressZero (orElse prev next), default AddressZero (orElse next prev))).
Proof.
  unfold _findHintsForNominalCollateralRatio. rewrite troves_number. cbn [res_bind].
  rewrite DecimalFacts.infinite_ok. split; [|split].
  - intros ->. done.
  - intros Hne ->. rewrite (proj2 (Z.eqb_neq _ 0)) by (destruct troves; [done | cbn; lia]).
    cbn [res_bind]. rewrite (proj2 (DecimalFacts.deqb_eq _ _) eq_refl), troves_first. cbn [res_bind].
    destruct troves as [|first l]; [done|]. by exists first.
  - intros Hne Hfin.
    assert (0 < Z.of_nat (length troves)) as Hpos by (destruct troves; [done | cbn; lia]).
    rewrite (proj2 (Z.eqb_neq _ 0)) by lia. cbn [res_bind].
    destruct (DecimalFacts.deqb ratio DecimalFacts.INF) eqn:Ei; [by apply DecimalFacts.deqb_eq in Ei|].
    destruct (generateTrials_ok (Z.sqrt_up (100 * Z.of_nat (length troves))))
      as (trials & Ht & Hnil & Hsum & Hall); [apply Z.sqrt_up_pos; lia|].
    destruct (collect_total ratio trials randomInteger [] Hall) as (seed & results & Hr).
    pose proof (collect_length _ _ _ _ _ _ Hr) as Hlen. cbn in Hlen.
    destruct results as [|r results]; [by destruct trials|].
    destruct (fold_closer results r) as [Hin Hbest].
    set (best := fold_left closer results r) in *.
    destruct (troves_position (Decimal.hex ratio) (snd best) (snd best))
      as (before & after & Hl & Hp).
    exists trials, (r :: results), seed, best, before, after. do 8 (split; [done|]).
    cbv zeta. rewrite Ht. cbn [res_bind]. rewrite Hr. cbn [res_bind closest]. fold best.
    destruct best as [d h]. cbn [snd] in Hp. rewrite Hp. cbn [res_bind].
    rewrite (jumpOver_spec own before after Hl). cbn [res_bind]. f_equal. apply avoidZero_spec.
    + intros a Ha. apply (troves_addresses a). rewrite Hl. apply in_app_iff. left.
      apply (without_in own), list_elem_of_In. by apply last_Some_elem_of.
    + intros a Ha. apply (troves_addresses a). rewrite Hl. apply in_app_iff. right.
      apply (without_in own), list_elem_of_In. by apply head_Some_elem_of.
Qed.

End Search.
End HintProperties.

(** ** Receipts *)
Module ReceiptProperties.
Import Contracts Sent.

Section Receipts.
Context {E : Ethers} {W : Wallet E} {T : Type}.

(** The receipt the chain settled on, if any: that of the transaction, of its failure, or of a
    replacement that is not a cancellation. *)
Definition settled (o : option (RawReceipt E) + JsError E) : option (RawReceipt E) :=
  match o with
  | inl r => r
  | inr e =>
      if isError e && (isTransactionFailedError e ||
                       isTransactionReplacedError e && negb (cancelled e))
      then receipt e else None
  end.

(** A cancellation or a replacement by another transaction. *)
Definition cancellation (e : JsError E) : bool :=
  isError e && negb (isTransactionFailedError e) && isTransactionReplacedError e && cancelled e.

(** An error that says nothing of the transaction's fate. *)
Definition foreign (e : JsError E) : bool :=
  negb (isError e && (isTransactionFailedError e || isTransactionReplacedError e)).

(** What [waitForReceipt] tells of the receipt the chain settled on. *)
Definition tell (parse : RawReceipt E -> Res T) (o : option (RawReceipt E)) :
    Outcome (LiquityReceipt T) :=
  match _receiptFrom parse o with
  | Ok _pendingReceipt => Failed "AssertionError"
  | Ok r => Returned r
  | Throw m => Failed m
  end.

Lemma tell_spec parse o :
  (forall r d, tell parse o = Returned (_successfulReceipt r d) <->
     o = Some r /\ status r = true /\ parse r = Ok d) /\
  (forall r, tell parse o = Returned (_failedReceipt r) <-> o = Some r /\ status r = false) /\
  tell parse o <> Returned _pendingReceipt /\ (forall e, tell parse o <> Rethrown e) /\
  (forall m r e, tell parse o <> TransactionCancelled m r e).
Proof.
  unfold tell, _receiptFrom. destruct o as [r|]; [destruct (status r) eqn:Es|];
    [destruct (parse r) eqn:Ep| |]; cbn [res_bind];
    (split; [|split; [|split; [|split]]]); intros; try split; intros H; destruct_and?;
    simplify_eq; rewrite ?Ep; auto; congruence.
Qed.

Lemma unsettled e : cancellation e = true \/ foreign e = true -> settled (inr e) = None.
Proof.
  unfold cancellation, foreign, settled.
  destruct (isError e), (isTransactionFailedError e), (isTransactionReplacedError e),
    (cancelled e); cbn; intros [H|H]; done.
Qed.

(** What waiting comes to. *)
Lemma waitForReceipt_cases (sent : TransactionResponse * (RawReceipt E -> Res T)) :
  waitForReceipt sent =
    match wait (fst sent) None with
    | inr e => if cancellation e then throwCancelled e
               else if foreign e then Rethrown e else tell (snd sent) (settled (inr e))
    | inl r => tell (snd sent) r
    end.
Proof.
  unfold waitForReceipt, receiptOf, _waitForRawReceipt, tell.
  destruct (wait (fst sent) None) as [r|e].
  { destruct (_receiptFrom (snd sent) r) as [[]|]; done. }
  unfold caught, cancellation, foreign, settled.
  destruct (isError e), (isTransactionFailedError e); cbn [andb orb negb]; try done;
    [destruct (_receiptFrom (snd sent) (receipt e)) as [ []|]; done|].
  destruct (isTransactionReplacedError e), (cancelled e); cbn [andb negb]; try done.
  - unfold throwCancelled. by destruct (propIs _ _).
  - destruct (_receiptFrom (snd sent) (receipt e)) as [[]|]; done.
Qed.

Local Ltac four_parts :=
  (split; [|split; [|split] ]);
  [intros r d; split; intros H0 | intros r; split; intros H0 | intros H0
  | intros e He; injection He as <-; split; split; intros H0];
  destruct_and?; simplify_eq; try congruence; auto.

(** A receipt told as successful or failed is the receipt the chain settled on, with that
    status, and its details are what the parser reads from it; [waitForReceipt] never tells a
    pending one; a cancellation is thrown as such exactly when the error is one (a repricing that
    claims to be one fails an assertion), and an error that does not tell what became of the
    transaction is thrown on. *)
Theorem receipts_are_settled (sent : TransactionResponse * (RawReceipt E -> Res T)) :
  (forall r d, waitForReceipt sent = Returned (_successfulReceipt r d) <->
     settled (wait (fst sent) None) = Some r /\ status r = true /\ snd sent r = Ok d) /\
  (forall r, waitForReceipt sent = Returned (_failedReceipt r) <->
     settled (wait (fst sent) None) = Some r /\ status r = false) /\
  waitForReceipt sent <> Returned _pendingReceipt /\
  (forall e, wait (fst sent) None = inr e ->
     (cancellation e = true /\ propIs (reason e) TRANSACTION_REPRICED = false <->
      waitForReceipt sent =
        TransactionCancelled ("Transaction " +:+ default "undefined" (reason e)) (receipt e) e) /\
     (foreign e = true <-> waitForReceipt sent = Rethrown e)).
Proof.
  rewrite waitForReceipt_cases. destruct (wait (fst sent) None) as [r0|e0].
  { destruct (tell_spec (snd sent) r0) as (H1 & H2 & H3 & _). cbn [settled].
    do 3 (split; [done|]). done. }
  destruct (tell_spec (snd sent) (settled (inr e0))) as (H1 & H2 & H3 & H4 & H5).
  pose proof (unsettled e0) as Hu. unfold throwCancelled.
  assert (cancellation e0 = true -> foreign e0 = false) as Hcf.
  { unfold cancellation, foreign. destruct (isError e0), (isTransactionFailedError e0),
      (isTransactionReplacedError e0); cbn; intros E0; done. }
  destruct (cancellation e0) eqn:Hc; [|destruct (foreign e0) eqn:Hf].
  - rewrite Hu by auto. pose proof (Hcf eq_refl) as Hf.
    destruct (propIs (reason e0) TRANSACTION_REPRICED) eqn:Hr; four_parts.
  - rewrite Hu by auto. four_parts.
  - split; [done|]. split; [done|]. split; [done|]. intros e [= <-]. split; split; intros H;
      destruct_and?; try congruence; exfalso; [by eapply H5|by eapply H4].
Qed.

End Receipts.
End ReceiptProperties.

(** ** Borrowing operations *)
Module BorrowingProperties.
Import Contracts Sent Populatable.
Import Decimal DecimalFacts TroveFacts FeesFacts Populatable.

Section Borrowing.
Context {BN : BigNumberOps} {BNL : BigNumberLaws BN} {E : Ethers} {R : ReadableLiquity}.

(** A gas estimate is far below what a double holds exactly. *)
Class GasBounds : Prop :=
  gas_bounds c f a o g : estimateGas c f a o = Ok g -> 0 <= g <= 2 ^ 40.

(** The tolerance in minutes a limit stands for. *)
Definition tolerance (limit : BorrowingLimit) : Z :=
  match limit with
  | optionalParams _ (Some minutes) => minutes
  | _ => 10
  end.

(** The limit on the rate: the one given, or the rate expected now plus 0.5%; zero when nothing is
    borrowed. *)
Definition rateLimitOf (limit : BorrowingLimit) (now : option Decimal.t) : Res Decimal.t :=
  match limit with
  | rateLimit r | optionalParams (Some r) _ => from r
  | _ => Ok (match now with Some r => Decimal.mk (units r + 5 * 10 ^ 15) | None => Decimal.ZERO end)
  end.

Lemma borrowing_tolerance : defaultBorrowingRateSlippageTolerance = Decimal.mk (5 * 10 ^ 15).
Proof.
  unfold defaultBorrowingRateSlippageTolerance, from. rewrite fromString_independent.
  by vm_compute.
Qed.

Lemma defaultMaxBorrowingRate_ok now : defaultMaxBorrowingRate now =
  Ok (match now with Some r => Decimal.mk (units r + 5 * 10 ^ 15) | None => Decimal.ZERO end).
Proof.
  destruct now as [r|]; [|done]. unfold defaultMaxBorrowingRate.
  by rewrite borrowing_tolerance, add_ok.
Qed.

Lemma normalize_limit limit rate max minutes :
  normalizeBorrowingOperationOptionalParams limit rate = Ok (max, minutes) ->
  minutes = tolerance limit /\ rateLimitOf limit rate = Ok max.
Proof.
  destruct limit as [|r|[r|] m]; cbn -[defaultMaxBorrowingRate];
    rewrite ?defaultMaxBorrowingRate_ok; intros H; res_inv H; injection H as <- <-;
    (split; [first [done | by destruct m] | first [done | congruence]]).
Qed.

Lemma borrowingRate_max f r w : Fees.borrowingRate f w = Ok r -> (units r < SCALE)%N.
Proof.
  intros H. destruct (Fees._recoveryMode f) eqn:Er;
    [rewrite borrowingRate_ok in H by auto; rewrite Er in H; by injection H as <-|].
  destruct (Z.lt_ge_cases (minutes f w) (2 ^ 32)) as [Hm|Hm].
  - rewrite borrowingRate_ok in H by auto. rewrite Er in H. injection H as <-. cbn [units].
    unfold SCALE. lia.
  - unfold Fees.borrowingRate in H. by rewrite Er, baseRate_throws in H.
Qed.

Lemma addGas_inv m g r : addGasForBaseRateUpdate (Some m) g = Ok r ->
  r = g + 10000 + 1414 * Z.log2_up (m + 1).
Proof.
  unfold addGasForBaseRateUpdate, decayGas. change (default 10 (Some m)) with m.
  destruct (_ =? _); [done|]. destruct (_ <? _); [done|]. cbn [res_bind]. rewrite bn_addE.
  intros H%Ok_inj. lia.
Qed.

Lemma bigNumberMax_ok a b : bigNumberMax a (Some b) = Z.max a b.
Proof.
  unfold bigNumberMax. rewrite bn_gtE.
  destruct (Z.ltb_spec a b); lia.
Qed.

Lemma log2_up_bound m : m <= 2 ^ 40 -> 0 <= Z.log2_up (m + 1) <= 41.
Proof.
  intros H. split; [apply Z.log2_up_nonneg|].
  etransitivity; [apply (Z.log2_up_le_mono _ (2 ^ 41)); lia|]. by vm_compute.
Qed.

Lemma checkDecayedDebt_ok t m u :
  checkDecayedDebt t m = Ok u -> (2000 * SCALE <= units (Trove.debt t))%N.
Proof.
  unfold checkDecayedDebt. rewrite THUSD_MINIMUM_DEBT_val, lt_ok. cbn [res_bind].
  unfold dltb. cbn [units]. destruct (N.ltb_spec (units (Trove.debt t)) (2000 * SCALE)); [|done].
  intros H'. res_inv H'. discriminate.
Qed.

(** The borrowing rate predicted for [seconds] after the latest block. *)
Definition predictedRate (seconds : Z) : Res Decimal.t :=
  let! fees := _getFeesFactory in
  let! blockTimestamp := _getBlockTimestamp in
  let! total := getTotal in
  let! price := getPrice in
  let! recoveryMode := Trove.collateralRatioIsBelowCritical total price in
  let! f := fees (blockTimestamp + seconds) recoveryMode in
  Fees.borrowingRate f None.

Lemma predictedRate_max s r : predictedRate s = Ok r -> (units r < SCALE)%N.
Proof. unfold predictedRate. intros H. do 6 res_inv H. by eapply borrowingRate_max. Qed.

Lemma create_inv p r t :
  Trove.create (TroveParams.creationish p) (Some (Decimal.ofDecimal r)) = Ok t ->
  t = Trove.mk (TroveParams.depositCollateral p)
        (dadd (Decimal.mk (200 * SCALE)) (dapplyFee r (TroveParams.borrowTHUSD p))).
Proof.
  unfold Trove.create. rewrite TroveProperties.normalizeCreation_ok. cbn [res_bind].
  rewrite (TroveProperties.apply_creation_ok _ _ r) by apply from_decimal. by intros [= <-].
Qed.

(** Borrowing again what a Trove borrowed with another fee owes what it owed, up to one unit. *)
Lemma recreate_simulates c d r q :
  Trove.recreate (Trove.mk c (dadd (Decimal.mk (200 * SCALE)) d)) (Some (Decimal.ofDecimal r)) = Ok q ->
  (units r < SCALE)%N ->
  TroveParams.depositCollateral q = c /\
  (units d <= units (dapplyFee r (TroveParams.borrowTHUSD q)) <= units d + 1)%N.
Proof.
  intros H Hr. unfold Trove.recreate in H.
  rewrite (TroveProperties.whatChanged_ok _ _ _ r) in H by apply from_decimal.
  destruct (TroveProperties.badClosure _ _); [discriminate H|]. cbn [res_bind] in H.
  unfold TroveProperties.twhatChanged in H. rewrite empty_val, !isEmpty_ok in H.
  cbn [Trove.collateral Trove.debt tempty dadd units N.eqb andb] in H.
  destruct (deqb _ _ && deqb _ _); [discriminate H|].
  rewrite (proj2 (N.ltb_ge (200 * SCALE + units d) (200 * SCALE))) in H by lia.
  assert (dsub (Decimal.mk (200 * SCALE + units d)) (Decimal.mk (200 * SCALE)) = d) as Hd
    by (apply t_eq; cbn [dsub units]; lia).
  unfold dadd in H. cbn [units] in H. rewrite Hd in H. injection H as <-. cbn.
  split; [done|]. by apply apply_unapply.
Qed.

Lemma headroom_ok g gasNow h :
  bn_toNumber (bn_sub g gasNow) = Ok h -> Z.abs (g - gasNow) <= MAX_SAFE_INTEGER ->
  h = g - gasNow.
Proof.
  rewrite bn_subE. intros H Hb. rewrite bn_toNumber_safe in H by done. by injection H.
Qed.

(** The gas limit of an operation that borrows. *)
Definition borrowingGas (gasNow gasLater minutes : Z) : Z :=
  Z.max (gasNow + 80000) gasLater + 10000 + 1414 * Z.log2_up (minutes + 1).

Lemma borrowingGas_inv gasNow gasLater minutes traversal g :
  addGasForPotentialListTraversal gasNow = Ok traversal ->
  addGasForBaseRateUpdate (Some minutes) (bigNumberMax traversal (Some gasLater)) = Ok g ->
  g = borrowingGas gasNow gasLater minutes.
Proof.
  intros H%Ok_inj Hg. rewrite bn_addE in H. apply addGas_inv in Hg as ->.
  by rewrite bigNumberMax_ok, <- H.
Qed.

Lemma borrowingGas_headroom gasNow gasLater minutes h :
  0 <= gasNow <= 2 ^ 40 -> 0 <= gasLater <= 2 ^ 40 -> minutes <= 2 ^ 40 ->
  bn_toNumber (bn_sub (borrowingGas gasNow gasLater minutes) gasNow) = Ok h ->
  h = borrowingGas gasNow gasLater minutes - gasNow /\
  gasNow + 90000 <= borrowingGas gasNow gasLater minutes /\
  gasLater + 10000 <= borrowingGas gasNow gasLater minutes.
Proof.
  intros Hn Hl Hm H. pose proof (log2_up_bound _ Hm) as Hlog. unfold borrowingGas in *.
  apply headroom_ok in H as ->; [lia|]. unfold MAX_SAFE_INTEGER. lia.
Qed.

(** C16: the transaction that opens a Trove has these arguments: the limit on the rate (the one
    given, or the rate predicted for now plus 0.5%), the amount to borrow, the deposit, and the
    hints found for the Trove it will be with the fee of now; when the collateral is the native coin
    the deposit is the value sent and the argument is zero, otherwise the value is zero; the
    overrides are those given.  Without a gas limit it is given one that covers, with 10000 to
    spare, the gas it needs now plus the traversal of the list, and the gas it would need after the
    tolerated minutes: the second estimate borrows what, at today's rate, owes what the Trove will
    owe then, up to one unit; and the Trove will then still owe the minimum debt. *)
Theorem openTrove_transaction {GB : GasBounds} params limit ov tx :
  tolerance limit <= 2 ^ 40 ->
  openTrove params limit ov = Ok tx ->
  exists p now maxRate coll hints ov',
    TroveParams._normalizeTroveCreation params = Ok p /\ predictedRate 0 = Ok now /\
    rateLimitOf limit (Some now) = Ok maxRate /\ getCollateralAddress = Ok coll /\
    let deposit := TroveParams.depositCollateral p in
    let amount := TroveParams.borrowTHUSD p in
    _findHints (inl (Trove.mk deposit (Decimal.mk (200 * SCALE + units (dapplyFee now amount)))))
      None = Ok hints /\
    let args b :=
      [AHex (Decimal.hex maxRate); AHex (Decimal.hex b);
       AHex (Decimal.hex (if String.eqb coll AddressZero then Decimal.ZERO else deposit));
       AAddress (fst hints); AAddress (snd hints)] in
    let sent ov := mkPayable (Some (Decimal.hex
      (if String.eqb coll AddressZero then deposit else Decimal.ZERO))) ov in
    let estimate b := estimateGas "borrowerOperations" "openTrove" (args b) (sent ov) in
    populateTransaction "borrowerOperations" "openTrove" (args amount) (sent ov') =
      Ok (rawPopulatedTransaction tx) /\
    match gasLimit ov with
    | Some _ => ov' = ov /\ gasHeadroom tx = None
    | None => exists later simulated gasNow gasLater,
        predictedRate (60 * tolerance limit) = Ok later /\
        estimate amount = Ok gasNow /\ estimate simulated = Ok gasLater /\
        let g := borrowingGas gasNow gasLater (tolerance limit) in
        ov' = withGasLimit g ov /\ gasHeadroom tx = Some (g - gasNow) /\
        gasNow + 90000 <= g /\ gasLater + 10000 <= g /\
        (2000 * SCALE <= 200 * SCALE + units (dapplyFee later amount))%N /\
        (units (dapplyFee later amount) <= units (dapplyFee now simulated) <=
         units (dapplyFee later amount) + 1)%N
    end.
Proof.
  intros Htol H. unfold openTrove in H. cbv zeta in H.
  apply res_bind_inv in H as (p & Hp & H). apply res_bind_inv in H as (fees & Hfees & H).
  apply res_bind_inv in H as (ts & Hts & H). apply res_bind_inv in H as (total & Htotal & H).
  apply res_bind_inv in H as (price & Hprice & H). apply res_bind_inv in H as (coll & Hcoll & H).
  apply res_bind_inv in H as (rm & Hrm & H). apply res_bind_inv in H as (now & Hnow & H).
  assert (forall s, predictedRate s = let! f := fees (ts + s) rm in Fees.borrowingRate f None)
    as Hrate.
  { intros s. unfold predictedRate. by rewrite Hfees, Hts, Htotal, Hprice; cbn [res_bind];
      rewrite Hrm. }
  rewrite <- Hrate in Hnow. pose proof (predictedRate_max _ _ Hnow) as Hmax.
  apply res_bind_inv in H as (trove & Htrove & H). apply res_bind_inv in H as (hints & Hhints & H).
  apply res_bind_inv in H as ((maxRate, minutes) & Hnorm & H).
  apply normalize_limit in Hnorm as [-> Hlimit].
  apply res_bind_inv in H as ((headroom, ov') & Hgas & H).
  apply res_bind_inv in H as (raw & Hraw & H). injection H as <-.
  apply create_inv in Htrove as ->.
  exists p, now, maxRate, coll, hints, ov'.
  do 4 (split; [done|]). split; [exact Hhints|]. split; [exact Hraw|].
  cbn [gasHeadroom _wrapTroveChangeWithFees].
  destruct (gasLimit ov); [by injection Hgas as <- <-|].
  apply res_bind_inv in Hgas as (later & Hlater & Hgas). rewrite <- Hrate in Hlater.
  apply res_bind_inv in Hgas as (decayed & Hdec & Hgas). apply create_inv in Hdec as ->.
  apply res_bind_inv in Hgas as (q & Hq & Hgas).
  apply recreate_simulates in Hq as [_ Hsim]; [|done].
  apply res_bind_inv in Hgas as (u & Hcheck & Hgas). apply checkDecayedDebt_ok in Hcheck.
  apply res_bind_inv in Hgas as (gasNow & Hgn & Hgas).
  apply res_bind_inv in Hgas as (gasLater & Hgl & Hgas).
  apply res_bind_inv in Hgas as (traversal & Htr & Hgas).
  apply res_bind_inv in Hgas as (g & Hg & Hgas).
  rewrite (borrowingGas_inv _ _ _ _ _ Htr Hg) in Hgas.
  apply res_bind_inv in Hgas as (h & Hh & Hgas). injection Hgas as <- <-.
  pose proof (gas_bounds _ _ _ _ _ Hgn) as Hbn. pose proof (gas_bounds _ _ _ _ _ Hgl) as Hbl.
  apply borrowingGas_headroom in Hh as (-> & Hc1 & Hc2); [|done|done|done].
  exists later, (TroveParams.borrowTHUSD q), gasNow, gasLater.
  by do 3 (split; [done|]).
Qed.

Lemma adjust_inv t p r t' :
  TroveProperties.normal p = true ->
  Trove.adjust t (TroveParams.adjustmentish p) (Some (Decimal.ofDecimal r)) = Ok t' ->
  t' = TroveProperties.tadjust r t p None.
Proof.
  intros Hn. unfold Trove.adjust. rewrite TroveProperties.normalizeAdjustment_normal by done.
  cbn [res_bind]. rewrite (TroveProperties.apply_adjustment_ok _ _ _ _ r) by apply from_decimal.
  by intros [= <-].
Qed.

(** Borrowing again what an adjustment borrowed with another fee. *)
Lemma adjustTo_simulates t p b later r q :
  TroveProperties.normal p = true -> TroveParams.borrow p = Some b ->
  Trove.adjustTo t (TroveProperties.tadjust later t p None) (Some (Decimal.ofDecimal r)) = Ok q ->
  (units r < SCALE)%N ->
  exists s, TroveParams.borrow q = Some s /\
    (units (dapplyFee later b) <= units (dapplyFee r s) <= units (dapplyFee later b) + 1)%N.
Proof.
  intros Hn Hb H Hr. set (t' := TroveProperties.tadjust later t p None) in *.
  assert (units (Trove.debt t') = units (Trove.debt t) + units (dapplyFee later b) /\
    0 < units (dapplyFee later b))%N as [Hd Hpos].
  { pose proof (TroveProperties.dapplyFee_ge later b) as Hge.
    unfold TroveProperties.normal in Hn. bool_to_prop. subst t'.
    unfold TroveProperties.tadjust, TroveProperties.increase, TroveProperties.decrease.
    rewrite Hb in *. destruct (TroveParams.repay p); [done|].
    cbn [TroveProperties.positive] in *. bool_to_prop. cbn [TroveProperties.orZero tsubtract tadd
      Trove.debt dsub dadd units]. lia. }
  unfold Trove.adjustTo in H. rewrite (TroveProperties.whatChanged_ok _ _ _ r) in H
    by apply from_decimal.
  destruct (TroveProperties.badClosure _ _); [discriminate H|]. cbn [res_bind] in H.
  unfold TroveProperties.twhatChanged in H.
  assert (deqb (Trove.debt t) (Trove.debt t') = false) as Hne.
  { unfold deqb. apply N.eqb_neq. lia. }
  rewrite Hne, andb_false_r in H.
  exists (dunapplyFee r (dapplyFee later b)). split; [|by apply apply_unapply].
  assert (TroveParams.borrow (TroveProperties.tdebtChange r t t') =
    Some (dunapplyFee r (dapplyFee later b))) as Hc.
  { unfold TroveProperties.tdebtChange, dltb. rewrite (proj2 (N.ltb_lt _ _)) by lia.
    cbn [TroveParams.borrow]. do 2 f_equal. apply t_eq. cbn [dsub units]. lia. }
  destruct (Trove.isEmpty t); [destruct (_ <? _)%N; discriminate H|].
  destruct (Trove.isEmpty t'); [discriminate H|].
  destruct (deqb (Trove.collateral t) _); injection H as <-; [exact Hc|].
  unfold TroveParams.spread. cbn [TroveParams.borrow]. rewrite Hc.
  unfold TroveProperties.tcollateralChange. by destruct (dltb _ _).
Qed.

(** The arguments and the value of an adjustment. *)
Lemma adjustArgs_ok maxRate p b native hints : adjustArgs maxRate p b native hints =
  [AHex (Decimal.hex maxRate); AHex (Decimal.hex (default Decimal.ZERO (TroveParams.withdraw p)));
   match b with
   | Some b => AHex (Decimal.hex b)
   | None => AHex (Decimal.hex (default Decimal.ZERO (TroveParams.repay p)))
   end;
   ABool (match b with Some _ => true | None => false end);
   AHex (Decimal.hex (default Decimal.ZERO (if native then None else TroveParams.deposit p)));
   AAddress (fst hints); AAddress (snd hints)].
Proof. by destruct b, native. Qed.

Lemma deposited_ok (p : TroveParams.TroveAdjustmentParams Decimal.t) (native : bool) :
  (if native then default Decimal.ZERO (TroveParams.deposit p) else Decimal.ZERO) =
  default Decimal.ZERO (if native then TroveParams.deposit p else None).
Proof. by destruct native. Qed.

(** C17: the transaction that adjusts a Trove has these arguments: the limit on the rate (the one
    given, or the rate predicted for now plus 0.5%, or zero when nothing is borrowed), the amounts
    to withdraw, to borrow or repay, whether it borrows, the deposit, and the hints found for the
    adjusted Trove, reinserted; when the collateral is the native coin the deposit is the value
    sent and the argument is zero, otherwise the value is zero.  Without a gas limit it is given
    one: 80000 above the estimate if it does not borrow; otherwise as for opening a Trove, the
    second estimate borrowing what, at today's rate, owes what the amount borrowed will owe after
    the tolerated minutes, up to one unit.  In both cases the Trove will then still owe the minimum
    debt. *)
Theorem adjustTrove_transaction {GB : GasBounds} params limit ov tx :
  tolerance limit <= 2 ^ 40 ->
  adjustTrove params limit ov = Ok tx ->
  exists address trove p rate adjusted maxRate coll hints ov',
    _requireAddress ov = Ok address /\ getTrove address = Ok trove /\
    TroveParams._normalizeTroveAdjustment params = Ok p /\
    match TroveParams.borrow p with
    | Some _ => exists now, rate = Some now /\ predictedRate 0 = Ok now
    | None => rate = None
    end /\
    Trove.adjust (UserTrove.super trove) (TroveParams.adjustmentish p) (Decimal.ofDecimal <$> rate) =
      Ok adjusted /\
    rateLimitOf limit rate = Ok maxRate /\ getCollateralAddress = Ok coll /\
    _findHints (inl adjusted) (Some address) = Ok hints /\
    let hexOr (d : option Decimal.t) := AHex (Decimal.hex (default Decimal.ZERO d)) in
    let native := String.eqb coll AddressZero in
    let args (b : option Decimal.t) :=
      [AHex (Decimal.hex maxRate); hexOr (TroveParams.withdraw p);
       match b with Some b => AHex (Decimal.hex b) | None => hexOr (TroveParams.repay p) end;
       ABool (match b with Some _ => true | None => false end);
       hexOr (if native then None else TroveParams.deposit p);
       AAddress (fst hints); AAddress (snd hints)] in
    let sent ov := mkPayable (Some (Decimal.hex (default Decimal.ZERO
      (if native then TroveParams.deposit p else None)))) ov in
    let estimate b := estimateGas "borrowerOperations" "adjustTrove" (args b) (sent ov) in
    populateTransaction "borrowerOperations" "adjustTrove" (args (TroveParams.borrow p))
      (sent ov') = Ok (rawPopulatedTransaction tx) /\
    match gasLimit ov, TroveParams.borrow p with
    | Some _, _ => ov' = ov /\ gasHeadroom tx = None
    | None, None => exists gasNow,
        estimate None = Ok gasNow /\ ov' = withGasLimit (gasNow + 80000) ov /\
        gasHeadroom tx = Some 80000 /\ (2000 * SCALE <= units (Trove.debt adjusted))%N
    | None, Some b => exists now later simulated gasNow gasLater,
        rate = Some now /\ predictedRate (60 * tolerance limit) = Ok later /\
        estimate (Some b) = Ok gasNow /\ estimate (Some simulated) = Ok gasLater /\
        let g := borrowingGas gasNow gasLater (tolerance limit) in
        ov' = withGasLimit g ov /\ gasHeadroom tx = Some (g - gasNow) /\
        gasNow + 90000 <= g /\ gasLater + 10000 <= g /\
        (2000 * SCALE <= units (Trove.debt (UserTrove.super trove)) + units (dapplyFee later b))%N /\
        (units (dapplyFee later b) <= units (dapplyFee now simulated) <=
         units (dapplyFee later b) + 1)%N
    end.
Proof.
  intros Htol H. unfold adjustTrove in H. cbv zeta in H.
  apply res_bind_inv in H as (address & Haddr & H). apply res_bind_inv in H as (p & Hp & H).
  apply res_bind_inv in H as (trove & Htrove & H). apply res_bind_inv in H as (coll & Hcoll & H).
  apply res_bind_inv in H as (feeVars & Hfee & H).
  pose proof (TroveProperties.normalize_normal _ _ Hp) as Hnormal.
  assert (forall s o, decayBorrowingRate feeVars s = Ok o -> match TroveParams.borrow p with
    | Some _ => exists r, o = Some r /\ predictedRate s = Ok r | None => o = None end) as Hrate.
  { intros s o. unfold decayBorrowingRate. destruct (TroveParams.borrow p); [|by injection Hfee as <-; intros [=]].
    apply res_bind_inv in Hfee as (fees & Hfees & Hfee).
    apply res_bind_inv in Hfee as (ts & Hts & Hfee).
    apply res_bind_inv in Hfee as (total & Htotal & Hfee).
    apply res_bind_inv in Hfee as (price & Hprice & Hfee). injection Hfee as <-.
    intros Ho. unfold predictedRate. rewrite Hfees, Hts, Htotal, Hprice. cbn [res_bind].
    apply res_bind_inv in Ho as (rm & -> & Ho). cbn [res_bind].
    apply res_bind_inv in Ho as (f & -> & Ho). cbn [res_bind].
    apply res_bind_inv in Ho as (r & Hr & Ho). injection Ho as <-. by exists r. }
  apply res_bind_inv in H as (now & Hnow & H). apply Hrate in Hnow.
  apply res_bind_inv in H as (t & Ht & H). apply res_bind_inv in H as (hints & Hhints & H).
  apply res_bind_inv in H as ((maxRate, minutes) & Hnorm & H).
  apply normalize_limit in Hnorm as [-> Hlimit].
  apply res_bind_inv in H as ((headroom, ov') & Hgas & H).
  apply res_bind_inv in H as (raw & Hraw & H). injection H as <-.
  exists address, trove, p, now, t, maxRate, coll, hints, ov'.
  do 3 (split; [done|]). split.
  { destruct (TroveParams.borrow p); [|done]. destruct Hnow as (r & -> & ?). by exists r. }
  do 4 (split; [done|]). cbv zeta. change AddressZero with ZERO_ADDRESS.
  rewrite adjustArgs_ok, deposited_ok in Hraw. rewrite ?adjustArgs_ok, ?deposited_ok in Hgas.
  split; [exact Hraw|]. cbn [gasHeadroom _wrapTroveChangeWithFees].
  destruct (gasLimit ov); [by injection Hgas as <- <-|].
  apply res_bind_inv in Hgas as (later & Hlater & Hgas). apply Hrate in Hlater.
  apply res_bind_inv in Hgas as (decayed & Hdec & Hgas).
  apply res_bind_inv in Hgas as (q & Hq & Hgas).
  apply res_bind_inv in Hgas as (u & Hcheck & Hgas). apply checkDecayedDebt_ok in Hcheck.
  apply res_bind_inv in Hgas as (gasNow & Hgn & Hgas).
  pose proof (gas_bounds _ _ _ _ _ Hgn) as Hbn.
  apply res_bind_inv in Hgas as (gasLater & Hgl & Hgas).
  destruct (TroveParams.borrow p) as [b|] eqn:Hb.
  - destruct Hnow as (now' & -> & Hnow). destruct Hlater as (later' & -> & Hlater).
    apply adjust_inv in Hdec as ->; [|done].
    apply (adjustTo_simulates _ _ b) in Hq as (s & Hs & Hsim);
      [|done|done|by eapply predictedRate_max].
    rewrite Hs in Hgl. apply res_bind_inv in Hgl as (gl & Hgl & H). injection H as <-.
    pose proof (gas_bounds _ _ _ _ _ Hgl) as Hbl.
    apply res_bind_inv in Hgas as (traversal & Htr & Hgas).
    apply res_bind_inv in Hgas as (g & Hg & Hgas).
    rewrite (borrowingGas_inv _ _ _ _ _ Htr Hg) in Hgas.
    apply res_bind_inv in Hgas as (h & Hh & Hgas). injection Hgas as <- <-.
    apply borrowingGas_headroom in Hh as (-> & Hc1 & Hc2); [|done|done|done].
    exists now', later', s, gasNow, gl. rewrite adjustArgs_ok in Hgl.
    do 8 (split; [done|]). split; [|done].
    unfold TroveProperties.tadjust, TroveProperties.increase in Hcheck. rewrite Hb in Hcheck.
    cbn [tsubtract tadd Trove.debt dsub dadd units] in Hcheck. lia.
  - subst now later. injection Hgl as <-. unfold bigNumberMax, addGasForPotentialListTraversal in Hgas.
    cbn [res_bind] in Hgas. rewrite bn_addE in Hgas. apply res_bind_inv in Hgas as (h & Hh & Hgas). injection Hgas as <- <-.
    apply headroom_ok in Hh as ->; [|unfold MAX_SAFE_INTEGER; lia].
    assert (decayed = t) as -> by congruence.
    exists gasNow. replace (gasNow + 80000 - gasNow) with 80000 by lia. done.
Qed.

End Borrowing.
End BorrowingProperties.

(** ** Redemptions *)
Module RedemptionProperties.
Import Contracts Sent.
Import Decimal DecimalFacts Populatable.

Section Redemptions.
Context {BN : BigNumberOps} {BNL : BigNumberLaws BN} {E : Ethers} {R : ReadableLiquity}.

Lemma redemption_tolerance : defaultRedemptionRateSlippageTolerance = Decimal.mk (10 ^ 15).
Proof.
  unfold defaultRedemptionRateSlippageTolerance, from. rewrite fromString_independent.
  by vm_compute.
Qed.

(** The limit on the rate of a redemption of an amount. *)
Definition redemptionLimit (fees : Fees.t) (total : Trove.t) (amount : Decimal.t)
    (maxRate : option Decimalish) : Res Decimal.t :=
  match maxRate with
  | Some rate => from rate
  | None => defaultMaxRedemptionRate fees total amount
  end.

(** The transaction that redeems an amount. *)
Definition redemptionTx (fees : Fees.t) (total : Trove.t) (first : string) (ov : Overrides)
    (amount : Decimal.t) (maxRate : option Decimalish) (hints : string * string * Z) : Res RawTx :=
  let! limit := redemptionLimit fees total amount maxRate in
  estimateAndPopulate "troveManager" "redeemCollateral" ov (addGasForBaseRateUpdate None)
    [AHex (hex amount); AAddress first; AAddress (fst (fst hints)); AAddress (snd (fst hints));
     ABigNumber (snd hints); ANumber 70; AHex (hex limit)].

Definition notTruncated : string :=
  "PopulatedEthersRedemption: increaseAmountByMinimumNetDebt() can " +:+
  "only be called when amount is truncated".

Lemma populateRedemption_ok fuel fees total first ov attempted maxRate amount hints :
  populateRedemption (S fuel) fees total first ov attempted maxRate amount hints =
  let amount := default attempted amount in
  let! raw := redemptionTx fees total first ov amount maxRate
                (default (AddressZero, AddressZero, 0) hints) in
  Ok (mkRedemption (mkPopulated raw None redemptionDetails) attempted amount
    (if dltb amount attempted then Some (fun m =>
       populateRedemption fuel fees total first ov (dadd amount (Decimal.mk (1800 * SCALE)))
         (match m with Some r => Some r | None => maxRate end) None None) else None)).
Proof.
  cbn [populateRedemption]. cbv zeta. destruct (default (AddressZero, AddressZero, 0) hints)
    as [ [upper lower] nicr]. unfold redemptionTx, redemptionLimit. cbn [fst snd].
  destruct maxRate as [rate|].
  - destruct (from rate); [|done]. cbn [res_bind].
    destruct (estimateAndPopulate _ _ _ _ _); [|done]. cbn [res_bind].
    rewrite lt_ok. cbn [res_bind]. destruct (dltb _ _); [|done].
    by rewrite THUSD_MINIMUM_NET_DEBT_val, add_ok.
  - destruct (defaultMaxRedemptionRate _ _ _); [|done]. cbn [res_bind].
    destruct (estimateAndPopulate _ _ _ _ _); [|done]. cbn [res_bind].
    rewrite lt_ok. cbn [res_bind]. destruct (dltb _ _); [|done].
    by rewrite THUSD_MINIMUM_NET_DEBT_val, add_ok.
Qed.

Lemma dltb_irrefl a : dltb a a = false.
Proof. unfold dltb. apply N.ltb_irrefl. Qed.

(** C18: a redemption attempts the amount asked for and redeems what the contract says can be, which
    is not zero, with the hints found for it.  It can be increased exactly when that is less than
    the attempt: by the minimum net debt above what can be redeemed, to a redemption that takes
    that amount whole, without partial hints, and cannot be increased again.  A limit that is not
    given is the predicted rate plus 0.1%, at most 100%. *)
Theorem redeem_transaction amount maxRate ov r :
  redeemTHUSD amount maxRate ov = Ok r ->
  exists asked fees total first hints,
    from amount = Ok asked /\ getFees = Ok fees /\ getTotal = Ok total /\
    _findRedemptionHints asked = Ok (redeemable r, first, hints) /\
    attempted r = asked /\ units (redeemable r) <> 0%N /\
    redemptionTx fees total first ov (redeemable r) maxRate hints =
      Ok (rawPopulatedTransaction (redemption r)) /\
    isTruncated r = Ok (units (redeemable r) <? units asked)%N /\
    (forall m, increaseAmountByMinimumNetDebt r m =
       if (units (redeemable r) <? units asked)%N then
         let more := Decimal.mk (units (redeemable r) + 1800 * SCALE) in
         let! raw := redemptionTx fees total first ov more
           (match m with Some x => Some x | None => maxRate end) (AddressZero, AddressZero, 0) in
         Ok (mkRedemption (mkPopulated raw None redemptionDetails) more more None)
       else Throw notTruncated) /\
    (forall x limit, redemptionLimit fees total x None = Ok limit ->
       exists rate, Fees.redemptionRate fees (Some (ofDecimal (ddiv x (Trove.debt total)))) None =
         Ok rate /\ (units limit = N.min (units rate + 10 ^ 15) SCALE)%N).
Proof.
  unfold redeemTHUSD. intros H. apply res_bind_inv in H as (asked & Hasked & H).
  apply res_bind_inv in H as (fees & Hfees & H). apply res_bind_inv in H as (total & Htotal & H).
  apply res_bind_inv in H as ([ [amt first] hints] & Hhints & H).
  rewrite isZero_ok in H. destruct (N.eqb_spec (units amt) 0) as [|Hnz];
    [res_inv H; discriminate H|].
  rewrite populateRedemption_ok in H. cbv zeta in H.
  change (default asked (Some amt)) with amt in H.
  change (default (AddressZero, AddressZero, 0) (Some hints)) with hints in H.
  apply res_bind_inv in H as (raw & Hraw & H). apply Ok_inj in H as <-.
  exists asked, fees, total, first, hints.
  cbn [attempted redeemable redemption rawPopulatedTransaction].
  do 7 (split; [done|]). split; [unfold isTruncated; cbn [redeemable attempted]; by rewrite lt_ok|]. split.
  - intros m. unfold increaseAmountByMinimumNetDebt. cbn [increase]. unfold dltb at 1.
    destruct (units amt <? units asked)%N; [|done]. cbv beta iota.
    rewrite (populateRedemption_ok 0). cbv zeta.
    change (default ?a None) with a. unfold dadd. cbn [units].
    rewrite dltb_irrefl. reflexivity.
  - intros x limit Hl. unfold redemptionLimit, defaultMaxRedemptionRate in Hl.
    rewrite div_ok in Hl. cbn [res_bind] in Hl. apply res_bind_inv in Hl as (rate & Hrate & Hl).
    exists rate. split; [exact Hrate|]. rewrite redemption_tolerance, add_ok in Hl.
    cbn [res_bind] in Hl. rewrite min_ok, ONE_val in Hl. injection Hl as <-.
    unfold dltb, dadd. cbn [units].
    destruct (N.ltb_spec (units rate + 10 ^ 15) SCALE); cbn [units]; lia.
Qed.

End Redemptions.
End RedemptionProperties.

(** ** Concrete runs *)
Module PopulatableRuns.
Import Contracts Sent Populatable.
Import HintProperties BorrowingProperties RedemptionProperties.
Import Decimal DecimalFacts TroveFacts.

#[local] Existing Instance Z_bignumber.
#[local] Existing Instance Z_bignumber_laws.

(** A chain with one estimate for all calls, and three Troves. *)
Definition sorted : list string := ["0xa"; "0xb"; "0xc"].
Definition before_ (a : string) : string :=
  if String.eqb a "0xb" then "0xa" else if String.eqb a "0xc" then "0xb" else AddressZero.
Definition after_ (a : string) : string :=
  if String.eqb a "0xa" then "0xb" else if String.eqb a "0xb" then "0xc" else AddressZero.

#[local] Instance chain : Ethers := {|
  LogData := unit;
  RawTx := string * string * list Arg * PayableOverrides;
  contractAddress c := c;
  parseLog _ _ := Throw "no logs";
  estimateGas _ _ _ _ := Ok 300000;
  populateTransaction c f args o := Ok (c, f, args, o);
  getFirst := Ok "0xa";
  getPrev a := Ok (before_ a);
  getNext a := Ok (after_ a);
  findInsertPosition _ _ _ := Ok ("0xb", "0xc");
  getApproxHint _ k s := Ok (s + 1, (k, "0xb"));
  getRedemptionHints _ _ _ := Ok ("0xa", 0, 500 * 10 ^ 18);
  setPriceInPriceFeed := false;
  randomInteger := 7;
  userAddress := Some "0xu";
|}.

Definition fees : Fees.t :=
  Fees.mk (Decimal.mk (10 ^ 16)) (Decimal.mk 999037758833783000) (Decimal.mk (2 * SCALE)) 0 60000
    false.

#[local] Instance reader : ReadableLiquity := {|
  getNumberOfTroves := Ok 3;
  getPrice := Ok (Decimal.mk (2000 * SCALE));
  getTotal := Ok (Trove.mk (Decimal.mk (1000 * SCALE)) (Decimal.mk (900000 * SCALE)));
  getTrove a := Ok (UserTrove.mk (Trove.mk (Decimal.mk (10 * SCALE)) (Decimal.mk (5000 * SCALE)))
                      a UserTrove.open);
  getFees := Ok fees;
  _getFeesFactory := Ok (fun t r => Ok (Fees.mk (Decimal.mk (10 ^ 16))
    (Decimal.mk 999037758833783000) (Decimal.mk (2 * SCALE)) 0 (1000 * t) r));
  _getBlockTimestamp := Ok 60;
  getCollateralAddress := Ok ZERO_ADDRESS;
  getStabilityDeposit _ := Throw "none";
  getBammDeposit _ := Throw "none";
  getWithdrawsSpShare _ := Throw "none";
|}.

#[local] Instance chain_gas : GasBounds.
Proof. intros c f a o g [= <-]. lia. Qed.

Lemma sorted_split (P : list string -> string -> list string -> Prop) before a after :
  P [] "0xa" ["0xb"; "0xc"] -> P ["0xa"] "0xb" ["0xc"] -> P ["0xa"; "0xb"] "0xc" [] ->
  sorted = before ++ a :: after -> P before a after.
Proof.
  intros H1 H2 H3. unfold sorted.
  destruct before as [|x [|y [|z before]]]; cbn; intros E; simplify_eq; try done.
  by destruct before.
Qed.

#[local] Instance chain_troves : SortedTroves.
Proof.
  refine {| troves := sorted |}.
  - by apply (bool_decide_eq_true_1 _).
  - intros a [<-|[<-|[<-|[]]]]; done.
  - done.
  - done.
  - intros before a after. by apply (sorted_split (fun b a _ => getPrev a = Ok (default AddressZero (last b)))).
  - intros before a after. by apply (sorted_split (fun _ a b => getNext a = Ok (default AddressZero (head b)))).
  - intros a Ha. cbn [getPrev getNext chain]. unfold before_, after_.
    destruct (String.eqb_spec a "0xa") as [->|_]; [destruct Ha; by left|].
    destruct (String.eqb_spec a "0xb") as [->|_]; [destruct Ha; right; by left|].
    destruct (String.eqb_spec a "0xc") as [->|_]; [destruct Ha; right; right; by left|]. done.
  - intros r a b. by exists ["0xa"; "0xb"], ["0xc"].
  - intros r k s _. by eexists.
Defined.

Lemma hint_search_witness :
  (exists trials, fold_right Z.add 0 trials = 18 /\ Forall (fun k => 0 < k <= 2500) trials) /\
  _findHintsForNominalCollateralRatio INF (Some "0xb") = Ok (AddressZero, "0xa").
Proof.
  assert (Hne : troves <> []) by discriminate.
  assert (Hfin : Decimal.mk 7 <> INF) by discriminate.
  split.
  - destruct (proj2 (proj2 (hint_search (Decimal.mk 7) (Some "0xb"))) Hne Hfin) as (trials & results & seed & best & before & after & H1 & H2 & _).
    exists trials. exact (conj H1 H2).
  - destruct (proj1 (proj2 (hint_search INF (Some "0xb"))) Hne eq_refl)
      as (first & Hf & H). apply (inj Some) in Hf. subst first. exact H.
Defined.

(** The hints for reinserting the second Trove are its neighbours. *)
Lemma neighbours_found :
  _findHintsForNominalCollateralRatio (Decimal.mk 7) (Some "0xb") = Ok ("0xa", "0xc").
Proof. vm_compute. reflexivity. Qed.

(** A result that is not an exception. *)
Lemma res_value {A} (r : Res A) : res_ok r = true -> exists a, r = Ok a.
Proof. destruct r; [by eexists|done]. Qed.

Definition opening : TroveParams.RawParams :=
  [("depositCollateral", Some (ofNumber "2")); ("borrowTHUSD", Some (ofNumber "2000"))].
Definition borrowing : TroveParams.RawParams := [("borrowTHUSD", Some (ofNumber "100"))].
Definition anHour : BorrowingLimit := optionalParams None (Some 60).

Lemma openTrove_transaction_witness :
  exists tx, openTrove opening unspecified noOverrides = Ok tx /\
    exists g, gasHeadroom tx = Some g /\ 90000 <= g.
Proof.
  destruct (res_value (openTrove opening unspecified noOverrides)) as [tx H];
    [vm_compute; reflexivity|].
  exists tx. split; [exact H|].
  assert (tolerance unspecified <= 2 ^ 40) as Htol by (cbn [tolerance]; lia).
  destruct (openTrove_transaction opening unspecified noOverrides tx Htol H)
    as (p & now & maxRate & coll & hints & ov' & _ & _ & _ & _ & _ & _ & later & s & gn & gl
        & _ & _ & _ & _ & Hh & Hg & _).
  eexists. split; [exact Hh|lia].
Defined.

Lemma adjustTrove_transaction_witness :
  exists tx, adjustTrove borrowing anHour noOverrides = Ok tx /\
    exists h, gasHeadroom tx = Some h.
Proof.
  destruct (res_value (adjustTrove borrowing anHour noOverrides)) as [tx H]; [vm_compute; reflexivity|].
  exists tx. split; [exact H|].
  assert (tolerance anHour <= 2 ^ 40) as Htol by (cbn [tolerance anHour]; lia).
  destruct (adjustTrove_transaction borrowing anHour noOverrides tx Htol H)
    as (a & t & p & rate & adj & maxRate & coll & hints & ov' & _ & _ & _ & _ & _ & _ & _ & _ & _
        & Hm).
  cbn [gasLimit noOverrides] in Hm. destruct (TroveParams.borrow p).
  - destruct Hm as (now & later & s & gn & gl & _ & _ & _ & _ & _ & Hh & _). eexists; exact Hh.
  - destruct Hm as (gn & _ & _ & Hh & _). eexists; exact Hh.
Defined.

Lemma redeem_transaction_witness :
  exists r, redeemTHUSD (ofNumber "600") None noOverrides = Ok r /\
    exists b, isTruncated r = Ok b.
Proof.
  destruct (res_value (redeemTHUSD (ofNumber "600") None noOverrides)) as [r H];
    [vm_compute; reflexivity|].
  exists r. split; [exact H|].
  destruct (redeem_transaction _ _ _ _ H) as (a & f & t & fi & h & _ & _ & _ & _ & _ & _ & _ & Ht & _).
  eexists. exact Ht.
Defined.

End PopulatableRuns.
