(* ===== verification/BatchedProvider.v ===== *)
(** * Batching of calls: [src/packages/providers/src/BatchedProvider.ts]

    A provider that holds back the calls made to it for 10 milliseconds and sends those that
    came meanwhile as one call of the Multicall contract.  The state is the provider's with that
    of its host (clock, timers, promises, requests on their way); [step] is one turn of the event
    loop.  The provider below, and the encoding of a batch, are the class [Network]. *)

From S2P Require Import Prelude.

Local Open Scope Z_scope.

Module BatchedProvider.

(** ** Requests *)

Inductive BlockTag : Type :=
| TagNumber (n : Z)
| TagName (s : string).
#[global] Instance BlockTag_eq_dec : EqDecision BlockTag.
Proof. solve_decision. Defined.

(** [BytesLike] *)
Inductive BytesLike : Type :=
| Hex (s : string)
| Bytes (l : list Z).

Record ResolvedTransactionRequest : Type := mkRequest {
  to : option string;
  from : option string;
  nonce : option Z;
  gasLimit : option Z;
  gasPrice : option Z;
  data : option BytesLike;
  value : option Z;
  request_chainId : option Z;
}.

Record CallRequest : Type := mkCall {
  target : option string;
  callData : option BytesLike;
}.

(** The request a call of a batch of one is sent as. *)
Definition plain (c : CallRequest) : ResolvedTransactionRequest :=
  mkRequest (target c) None None None None (callData c) None None.

Definition multicallAddress : list (Z * string) :=
  [(1, "0xeefBa1e63905eF1D7ACbA5a8513c70307C1cE441");
   (3, "0x53C43764255c17BD724F74c4eF150724AC50a3ed");
   (4, "0x42Ad527de7d4e9d9d011aC45B31D8551f8Fe9821");
   (5, "0x77dCa2C955b15e9dE4dbBCf1246B4B85b651e50e");
   (42, "0x2cc8688C5f75E365aaEEb4ea8D6a480405A48D2A")].

(** [multicallAddress[chainId]] *)
Definition multicallOf (chainId : Z) : option string :=
  snd <$> find (fun e => fst e =? chainId) multicallAddress.

Definition isUndefined {A} (o : option A) : bool := match o with None => true | Some _ => false end.

Definition batchableCall (request : ResolvedTransactionRequest) : bool :=
  isUndefined (gasLimit request) && isUndefined (gasPrice request) && isUndefined (value request).

Definition batchedCall (request : ResolvedTransactionRequest) (multicallAddress : string) : bool :=
  match to request with Some a => String.eqb a multicallAddress | None => false end &&
  match data request with Some (Hex s) => String.prefix "0x252dba42" s | _ => false end.

(** ** The provider below *)
Class Network : Type := {
  superCall : ResolvedTransactionRequest -> option BlockTag -> Res string;
  encodeAggregate : list CallRequest -> string;
  decodeAggregate : string -> Res (list string);
  isAddress : string -> bool;
  encodeGetEthBalance : string -> string;
}.

(** The request [this._multicall.callStatic.aggregate(calls)] makes. *)
Definition aggregateRequest {N : Network} (multicall : string) (calls : list CallRequest) :
    ResolvedTransactionRequest :=
  mkRequest (Some multicall) None None None None (Some (Hex (encodeAggregate calls))) None None.

(** ** The state *)

Record BatchedCalls : Type := mkBatch {
  calls : list CallRequest;
  callbacks : list N;
  batch_blockTag : option BlockTag;
}.
Definition emptyBatch : BatchedCalls := mkBatch [] [] None.

(** A promise answered by [call]: what was asked and, once settled, the outcome (a result that is
    not there is [undefined]). *)
Record Promise : Type := mkPromise {
  request : ResolvedTransactionRequest;
  requestTag : option BlockTag;
  outcome : option (Res (option string));
}.

Record t : Type := mk {
  _chainId : Z;
  _multicall : option string;
  _timeoutId : option N;
  _batched : BatchedCalls;
  _numberOfBatchedCalls : Z;
  _numberOfActualCalls : Z;
  _timeOfLastRatioCheck : option Z;
  (** the host *)
  clock : Z;
  fresh : N;
  timers : list (N * Z);
  promises : gmap N Promise;
  resolving : list N;
  inFlight : list N;
  awaited : list (N * (list N * bool));
}.

Definition init (now : Z) : t :=
  mk 0 None None emptyBatch 0 0 None now 0%N [] ∅ [] [] [].

Definition batchingDelayMs : Z := 10.

Definition with_batch (b : BatchedCalls) (s : t) : t :=
  mk (_chainId s) (_multicall s) (_timeoutId s) b (_numberOfBatchedCalls s)
    (_numberOfActualCalls s) (_timeOfLastRatioCheck s) (clock s) (fresh s) (timers s) (promises s)
    (resolving s) (inFlight s) (awaited s).
Definition with_timers (id : option N) (l : list (N * Z)) (s : t) : t :=
  mk (_chainId s) (_multicall s) id (_batched s) (_numberOfBatchedCalls s)
    (_numberOfActualCalls s) (_timeOfLastRatioCheck s) (clock s) (fresh s) l (promises s)
    (resolving s) (inFlight s) (awaited s).
Definition with_counts (batched actual : Z) (time : option Z) (s : t) : t :=
  mk (_chainId s) (_multicall s) (_timeoutId s) (_batched s) batched actual time (clock s)
    (fresh s) (timers s) (promises s) (resolving s) (inFlight s) (awaited s).
Definition with_chain (chainId : Z) (multicall : option string) (s : t) : t :=
  mk chainId multicall (_timeoutId s) (_batched s) (_numberOfBatchedCalls s)
    (_numberOfActualCalls s) (_timeOfLastRatioCheck s) (clock s) (fresh s) (timers s) (promises s)
    (resolving s) (inFlight s) (awaited s).
Definition with_clock (now : Z) (s : t) : t :=
  mk (_chainId s) (_multicall s) (_timeoutId s) (_batched s) (_numberOfBatchedCalls s)
    (_numberOfActualCalls s) (_timeOfLastRatioCheck s) now (fresh s) (timers s) (promises s)
    (resolving s) (inFlight s) (awaited s).
Definition with_promises (next : N) (p : gmap N Promise) (s : t) : t :=
  mk (_chainId s) (_multicall s) (_timeoutId s) (_batched s) (_numberOfBatchedCalls s)
    (_numberOfActualCalls s) (_timeOfLastRatioCheck s) (clock s) next (timers s) p
    (resolving s) (inFlight s) (awaited s).
Definition with_pending (resolving inFlight : list N) (awaited : list (N * (list N * bool)))
    (s : t) : t :=
  mk (_chainId s) (_multicall s) (_timeoutId s) (_batched s) (_numberOfBatchedCalls s)
    (_numberOfActualCalls s) (_timeOfLastRatioCheck s) (clock s) (fresh s) (timers s) (promises s)
    resolving inFlight awaited.

Definition setChainId (chainId : Z) (s : t) : Res t :=
  match _multicall s with
  | Some _ => Throw "can only set chainId once"
  | None => Ok (with_chain chainId (multicallOf chainId) s)
  end.

(** ** Calls *)

Definition newPromise (r : ResolvedTransactionRequest) (tag : option BlockTag) (s : t) : N * t :=
  (fresh s, with_promises (fresh s + 1) (<[fresh s := mkPromise r tag None]> (promises s)) s).

(** [super.call(...)] for a promise: the request is on its way. *)
Definition send (id : N) (s : t) : t :=
  with_pending (resolving s) (inFlight s ++ [id]) (awaited s) s.

(** The batching ratio is measured anew every 10 seconds. *)
Definition checkRatio (s : t) : t :=
  match _timeOfLastRatioCheck s with
  | None => with_counts (_numberOfBatchedCalls s) (_numberOfActualCalls s) (Some (clock s)) s
  | Some last =>
      if (10000 <=? clock s - last) && negb (_numberOfActualCalls s =? 0)
      then with_counts 0 0 (Some (clock s)) s else s
  end.

(** [call], up to the point where it awaits the properties of the request. *)
Definition call (r : ResolvedTransactionRequest) (tag : option BlockTag) (s : t) : N * t :=
  let '(id, s) := newPromise r tag s in
  match _multicall s with
  | None => (id, send id s)
  | Some _ =>
      let s := checkRatio s in
      (id, with_pending (resolving s ++ [id]) (inFlight s) (awaited s) s)
  end.

Definition tagOr (tag : option BlockTag) : BlockTag := default (TagName "latest") tag.

Definition _alreadyBatchedCallsConflictWith (tag : option BlockTag) (s : t) : bool :=
  negb (Nat.eqb (length (calls (_batched s))) 0) &&
  negb (bool_decide (tagOr tag = tagOr (batch_blockTag (_batched s)))).

Definition clearTimeout (id : option N) (s : t) : t :=
  match id with
  | Some id => with_timers (_timeoutId s) (List.filter (fun e => negb (fst e =? id)%N) (timers s)) s
  | None => s
  end.

(** [_enqueueCall], for the promise [id]. *)
Definition _enqueueCall (c : CallRequest) (id : N) (s : t) : t :=
  let s := clearTimeout (_timeoutId s) s in
  let b := _batched s in
  let s := with_batch (mkBatch (calls b ++ [c]) (callbacks b ++ [id]) (batch_blockTag b)) s in
  let timer := fresh s in
  let s := with_promises (timer + 1) (promises s) s in
  with_timers (Some timer) (timers s ++ [(timer, clock s + batchingDelayMs)]) s.

(** Whether [call] sends a request by itself. *)
Definition sentAlone (multicall : string) (r : ResolvedTransactionRequest)
    (tag : option BlockTag) (s : t) : bool :=
  batchedCall r multicall || negb (batchableCall r) || _alreadyBatchedCallsConflictWith tag s.

(** [call], from that point on. *)
Definition resume (id : N) (s : t) : t :=
  let s := with_pending (List.filter (fun i => negb (i =? id)%N) (resolving s)) (inFlight s)
             (awaited s) s in
  match promises s !! id, _multicall s with
  | Some p, Some multicall =>
      if sentAlone multicall (request p) (requestTag p) s then
        send id (with_counts (_numberOfBatchedCalls s) (_numberOfActualCalls s + 1)
                   (_timeOfLastRatioCheck s) s)
      else
        let s := with_counts (_numberOfBatchedCalls s + 1) (_numberOfActualCalls s)
                   (_timeOfLastRatioCheck s) s in
        let b := _batched s in
        let s := if Nat.eqb (length (calls b)) 0
                 then with_batch (mkBatch (calls b) (callbacks b) (requestTag p)) s else s in
        _enqueueCall (mkCall (to (request p)) (data (request p))) id s
  | _, _ => s
  end.

(** ** The dispatch *)
Section Dispatch.
Context {NW : Network}.

(** A promise is settled once. *)
Definition settle (m : gmap N Promise) (e : N * Res (option string)) : gmap N Promise :=
  match m !! fst e with
  | Some p =>
      match outcome p with
      | None => <[fst e := mkPromise (request p) (requestTag p) (Some (snd e))]> m
      | Some _ => m
      end
  | None => m
  end.

(** [callbacks.forEach(([resolve], i) => resolve(results[i]))], or the rejections. *)
Definition outcomes (ids : list N) (results : Res (list string)) :
    list (N * Res (option string)) :=
  match results with
  | Ok l => imap (fun i id => (id, Ok (l !! i))) ids
  | Throw m => map (fun id => (id, Throw m)) ids
  end.

Definition settleAll (es : list (N * Res (option string))) (s : t) : t :=
  with_promises (fresh s) (fold_left settle es (promises s)) s.

(** [_dispatchCalls], up to its [await]: the batch awaits the promise of a single call, or of a
    call of the Multicall contract through this provider. *)
Definition _dispatchCalls (s : t) : t :=
  let b := _batched s in
  let s := with_batch emptyBatch s in
  match calls b, _multicall s with
  | [], _ => s
  | [c], _ =>
      let '(id, s) := newPromise (plain c) (batch_blockTag b) s in
      let s := send id s in
      with_pending (resolving s) (inFlight s) (awaited s ++ [(id, (callbacks b, false))]) s
  | cs, Some multicall =>
      let '(id, s) := call (aggregateRequest multicall cs) (batch_blockTag b) s in
      with_pending (resolving s) (inFlight s) (awaited s ++ [(id, (callbacks b, true))]) s
  | _, None => settleAll (outcomes (callbacks b) (Throw "_multicall is undefined")) s
  end.

(** The end of [_dispatchCalls] for a batch whose await gave [result]. *)
Definition delivered (result : Res string) (a : N * (list N * bool)) :
    list (N * Res (option string)) :=
  outcomes (fst (snd a))
    (if snd (snd a) then (let! raw := result in decodeAggregate raw)
     else res_map (fun v => [v]) result).

(** The batches that await the promise [id] go on. *)
Definition deliver (id : N) (result : Res string) (s : t) : t :=
  let mine := List.filter (fun a => (fst a =? id)%N) (awaited s) in
  settleAll (concat (map (delivered result) mine))
    (with_pending (resolving s) (inFlight s)
       (List.filter (fun a => negb (fst a =? id)%N) (awaited s)) s).

(** The provider below answers the request of the promise [id]. *)
Definition answer (id : N) (s : t) : t :=
  let s := with_pending (resolving s) (List.filter (fun i => negb (i =? id)%N) (inFlight s))
             (awaited s) s in
  match promises s !! id with
  | Some p =>
      let result := superCall (request p) (requestTag p) in
      deliver id result (settleAll [(id, res_map Some result)] s)
  | None => s
  end.

(** [getBalance]: through the Multicall contract when the argument is an address, as a call like
    any other; the provider below is asked otherwise. *)
Definition getBalance (address : string) (tag : option BlockTag) (s : t) : option N * t :=
  match _multicall s with
  | Some multicall =>
      if isAddress address then
        let '(id, s) := call (mkRequest (Some multicall) None None None None
                                (Some (Hex (encodeGetEthBalance address))) None None) tag s in
        (Some id, s)
      else (None, s)
  | None => (None, s)
  end.

(** ** The event loop *)

Inductive Event : Type :=
| SetChainId (chainId : Z)
| Call (r : ResolvedTransactionRequest) (tag : option BlockTag)
| GetBalance (address : string) (tag : option BlockTag)
| Resume (id : N)
| Tick (ms : Z)
| Fire (timer : N)
| Answer (id : N).

Definition member (id : N) (l : list N) : bool := existsb (fun i => (i =? id)%N) l.

(** One turn; [None] when the event cannot happen. *)
Definition step (e : Event) (s : t) : option t :=
  match e with
  | SetChainId c => match setChainId c s with Ok s' => Some s' | Throw _ => Some s end
  | Call r tag => Some (snd (call r tag s))
  | GetBalance a tag => Some (snd (getBalance a tag s))
  | Resume id => if member id (resolving s) then Some (resume id s) else None
  | Tick ms => if 0 <=? ms then Some (with_clock (clock s + ms) s) else None
  | Fire timer =>
      if existsb (fun e => (fst e =? timer)%N && (snd e <=? clock s)) (timers s)
      then Some (_dispatchCalls (with_timers (_timeoutId s)
             (List.filter (fun e => negb (fst e =? timer)%N) (timers s)) s))
      else None
  | Answer id => if member id (inFlight s) then Some (answer id s) else None
  end.

Fixpoint run (es : list Event) (s : t) : option t :=
  match es with
  | [] => Some s
  | e :: es' => match step e s with Some s' => run es' s' | None => None end
  end.

End Dispatch.
End BatchedProvider.
