(* ===== verification/BatchedProviderProperties.v ===== *)
(** * Properties of the batching provider

    Every answer a caller gets is the one the provider below gives to that caller's own request, or
    to the same call without its sender; every promise is settled, whatever the order of events,
    and its request is on its way within the batching delay; the batch, its timer and the batches
    that are awaited stay consistent.  [MulticallLaws] states what is assumed of the provider below
    and of the Multicall contract; [TestNetwork] is a network with these laws. *)

From S2P Require Import Prelude.
From S2P Require Import BatchedProvider.
Import BatchedProvider.

Local Open Scope Z_scope.

(** A call as [sender] makes it, or as an unnamed one does. *)
Definition sentBy (sender : option string) (c : CallRequest) : ResolvedTransactionRequest :=
  mkRequest (target c) sender None None None (callData c) None None.

(** The selector of [aggregate((address,bytes)[])]. *)
Class MulticallEncoding (NW : Network) : Prop := {
  aggregate_selector cs : String.prefix "0x252dba42" (encodeAggregate cs) = true;
}.

(** What is known of the provider below and of the Multicall contract: "latest" is the default
    tag; [readOnly] are the calls whose execution leaves the state of the chain as it was; of such
    calls the Multicall contract gives what each answers when it is the caller, and reverts if one
    of them does. *)
Class MulticallLaws (NW : Network) : Type := {
  readOnly : CallRequest -> bool;
  latest_default r : superCall r None = superCall r (Some (TagName "latest"));
  aggregate_answers m cs tag raw : In m (map snd multicallAddress) ->
    forallb readOnly cs = true -> superCall (aggregateRequest m cs) tag = Ok raw ->
    exists l, decodeAggregate raw = Ok l /\
      Forall2 (fun c w => superCall (sentBy (Some m) c) tag = Ok w) cs l;
}.

Module BatchedFacts.
Section Facts.
Context {NW : Network} {NE : MulticallEncoding NW}.

(** ** Promises *)

Definition grows (m m' : gmap N Promise) : Prop :=
  forall id p, m !! id = Some p ->
    exists p', m' !! id = Some p' /\ request p' = request p /\ requestTag p' = requestTag p.

Lemma grows_refl m : grows m m.
Proof. intros id p H. by exists p. Qed.

Lemma grows_trans a b c : grows a b -> grows b c -> grows a c.
Proof.
  intros H1 H2 id p (p' & Hp & Hr & Ht)%H1. destruct (H2 _ _ Hp) as (q & ? & ? & ?).
  exists q. split; [done|]. split; congruence.
Qed.

Lemma grows_new m id p : m !! id = None -> grows m (<[id := p]> m).
Proof. intros H i q Hq. exists q. rewrite lookup_insert_ne; [done | congruence]. Qed.

Lemma grows_settle m e : grows m (settle m e).
Proof.
  unfold settle. destruct (m !! e.1) as [p|] eqn:E; [|apply grows_refl].
  destruct (outcome p); [apply grows_refl|]. intros i q Hq.
  destruct (decide (i = e.1)) as [->|Hne].
  - rewrite lookup_insert_eq. simplify_eq. by eexists.
  - rewrite lookup_insert_ne; [by exists q | done].
Qed.

Lemma grows_settles es m : grows m (fold_left settle es m).
Proof.
  revert m. induction es as [|e es IH]; intros m; [apply grows_refl|].
  eapply grows_trans; [apply grows_settle | apply IH].
Qed.

(** A settled promise stays as it is. *)
Lemma settle_keeps m e id p o : m !! id = Some p -> outcome p = Some o ->
  settle m e !! id = Some p.
Proof.
  intros Hp Ho. unfold settle. destruct (m !! e.1) as [q|] eqn:E; [|done].
  destruct (outcome q) eqn:E'; [done|].
  rewrite lookup_insert_ne; [done|]. congruence.
Qed.

Lemma settles_keep es m id p o : m !! id = Some p -> outcome p = Some o ->
  fold_left settle es m !! id = Some p.
Proof.
  revert m. induction es as [|e es IH]; intros m Hp Ho; [done|].
  apply IH; [eapply settle_keeps|]; eauto.
Qed.

(** Where the promises of a map after [settle]s come from. *)
Lemma settles_from es m id p' : fold_left settle es m !! id = Some p' ->
  exists p, m !! id = Some p /\ request p' = request p /\ requestTag p' = requestTag p /\
    (outcome p' = outcome p \/ exists o, In (id, o) es /\ outcome p' = Some o).
Proof.
  revert m. induction es as [|e es IH]; intros m H; [eexists; eauto 6|].
  destruct (IH _ H) as (p & Hp & Hr & Ht & Ho). unfold settle in Hp.
  assert (m !! id = Some p \/ exists q, m !! id = Some q /\ id = e.1 /\
      p = mkPromise (request q) (requestTag q) (Some e.2)) as [Hm|(q & Hm & Hid & ->)].
  { destruct (m !! e.1) as [q|] eqn:E; [|by left]. destruct (outcome q) eqn:E'; [by left|].
    destruct (decide (id = e.1)) as [->|Hne].
    - rewrite lookup_insert_eq in Hp. simplify_eq. right. by exists q.
    - rewrite lookup_insert_ne in Hp; [by left | done]. }
  - exists p. do 3 (split; [done|]). destruct Ho as [|(o & ? & ?)]; [by left|].
    right. exists o. split; [by right | done].
  - exists q. do 3 (split; [done|]). right. destruct Ho as [Ho|(o & ? & ?)].
    + exists e.2. subst id. split; [left; by destruct e | done].
    + exists o. split; [by right | done].
Qed.

(** Every promise an event of the list names is settled after it. *)
Lemma settles_settled es m e p : In e es -> m !! e.1 = Some p ->
  exists p' o, fold_left settle es m !! e.1 = Some p' /\ outcome p' = Some o.
Proof.
  revert m p. induction es as [|e' es IH]; intros m p; [done|]. intros [->|Hin] Hp; simpl.
  - unfold settle at 2. rewrite Hp. destruct (outcome p) as [o|] eqn:E.
    + exists p, o. split; [eapply settles_keep|]; eauto.
    + eexists _, _. split; [eapply settles_keep|]; [apply lookup_insert_eq|..]; done.
  - destruct (grows_settle m e' _ _ Hp) as (q & Hq & _). eapply IH; eauto.
Qed.

(** ** What a promise is due, and who waits for what *)

(** The call a request is batched as. *)
Definition callOf (r : ResolvedTransactionRequest) : CallRequest := mkCall (to r) (data r).

(** The promise [id] can be settled with the answer to the call [c] at [tag]. *)
Definition waiting (m : gmap N Promise) (tag : option BlockTag) (c : CallRequest) (id : N) : Prop :=
  exists p, m !! id = Some p /\ c = callOf (request p) /\
    batchableCall (request p) = true /\ tagOr (requestTag p) = tagOr tag.

(** The promise [inner] carries the calls of the promises [ids]. *)
Definition carries (m : gmap N Promise) (inner : N) (ids : list N) (aggregate : bool) : Prop :=
  exists p cs, m !! inner = Some p /\ Forall2 (waiting m (requestTag p)) cs ids /\
    (if aggregate
     then exists a, In a (map snd multicallAddress) /\ request p = aggregateRequest a cs
     else exists c, cs = [c] /\ request p = plain c).

Lemma waiting_grows m m' tag c id : grows m m' -> waiting m tag c id -> waiting m' tag c id.
Proof.
  intros Hg (p & Hp & -> & Hb & Ht). destruct (Hg _ _ Hp) as (q & Hq & Hr & Hrt).
  exists q. rewrite Hr, Hrt. done.
Qed.

Lemma waitings_grow m m' tag cs ids : grows m m' ->
  Forall2 (waiting m tag) cs ids -> Forall2 (waiting m' tag) cs ids.
Proof. intros Hg H. eapply Forall2_impl; [exact H|]. intros. by eapply waiting_grows. Qed.

Lemma carries_grows m m' inner ids b : grows m m' -> carries m inner ids b -> carries m' inner ids b.
Proof.
  intros Hg (p & cs & Hp & Hw & Hb). destruct (Hg _ _ Hp) as (q & Hq & Hr & Ht).
  exists q, cs. rewrite Ht, Hr. split; [done|]. split; [by eapply waitings_grow | done].
Qed.

(** ** The answers to a batch are the answers to its calls *)

(** [v] is what the provider below gives for the request [r], sent alone or in a batch [cs] whose
    calls wait for it; the answer to a batch may lack some of its results. *)
Definition answered (m : gmap N Promise) (r : ResolvedTransactionRequest) (tag : option BlockTag)
    (v : option string) : Prop :=
  (exists w, v = Some w /\ superCall r tag = Ok w) \/
  batchableCall r = true /\ exists tag', tagOr tag = tagOr tag' /\
    ((exists w, v = Some w /\ superCall (plain (callOf r)) tag' = Ok w) \/
     exists a cs ids raw l i, In a (map snd multicallAddress) /\ Forall2 (waiting m tag') cs ids /\
       superCall (aggregateRequest a cs) tag' = Ok raw /\ decodeAggregate raw = Ok l /\
       cs !! i = Some (callOf r) /\ v = l !! i).

Lemma answered_grows m m' r tag v : grows m m' -> answered m r tag v -> answered m' r tag v.
Proof.
  intros Hg [H|(Hb & tag' & Ht & H)]; [by left|]. right. split; [done|]. exists tag'. split; [done|].
  destruct H as [H|(a & cs & ids & raw & l & i & Ha & Hw & H)]; [by left|]. right.
  exists a, cs, ids, raw, l, i. split; [done|]. split; [by eapply waitings_grow | done].
Qed.

Definition honest (m : gmap N Promise) : Prop :=
  forall id p v, m !! id = Some p -> outcome p = Some (Ok v) ->
    answered m (request p) (requestTag p) v.

Definition honestEvent (m : gmap N Promise) (e : N * Res (option string)) : Prop :=
  forall p v, m !! e.1 = Some p -> e.2 = Ok v -> answered m (request p) (requestTag p) v.

(** The results of a batch go to the promises that wait for its calls. *)
Lemma outcomes_honest m tag cs ids l :
  Forall2 (waiting m tag) cs ids ->
  (forall i c r rtag, cs !! i = Some c -> c = callOf r -> batchableCall r = true ->
     tagOr rtag = tagOr tag -> answered m r rtag (l !! i)) ->
  Forall (honestEvent m) (outcomes ids (Ok l)).
Proof.
  intros Hw Hl. apply Forall_lookup. intros i e He. cbn in He.
  apply list_lookup_imap_Some in He. destruct He as (id & Hid & ->).
  destruct (Forall2_lookup_r _ _ _ _ _ Hw Hid) as (c & Hc & (q & Hq & Hcq & Hb & Ht)).
  intros p v Hp [= <-]. cbn in Hp. simplify_eq. by eapply Hl.
Qed.

Lemma delivered_honest m inner ids b p :
  carries m inner ids b -> m !! inner = Some p ->
  Forall (honestEvent m) (delivered (superCall (request p) (requestTag p)) (inner, (ids, b))).
Proof.
  intros (q & cs & Hq & Hw & Hb) Hp. simplify_eq. unfold delivered. cbn [fst snd].
  assert (Hthrow : forall msg, Forall (honestEvent m) (outcomes ids (Throw msg))).
  { intros msg. apply Forall_forall. intros e He. cbn in He. apply list_elem_of_In, in_map_iff in He.
    destruct He as (id & <- & _). by intros ???. }
  destruct b.
  - destruct Hb as (a & Ha & ->). destruct (superCall _ _) as [raw|msg] eqn:E; [|apply Hthrow].
    cbn [res_bind]. destruct (decodeAggregate raw) as [l|msg] eqn:El; [|apply Hthrow].
    eapply outcomes_honest; [done|]. intros i c r rtag Hc -> Hb Ht. right. split; [done|].
    exists (requestTag q). split; [done|]. right. by exists a, cs, ids, raw, l, i.
  - destruct Hb as (c & -> & ->). destruct (superCall _ _) as [w|msg] eqn:E; [|apply Hthrow].
    eapply outcomes_honest; [done|]. intros i c' r rtag Hc Hr Hb Ht. right. split; [done|].
    exists (requestTag q). split; [done|]. left. apply list_lookup_singleton_Some in Hc as [-> <-].
    exists w. split; [done|]. by rewrite <- Hr.
Qed.

Lemma outcomes_cover ids r id : In id ids -> exists o, In (id, o) (outcomes ids r).
Proof.
  intros Hin. destruct r as [l|msg]; cbn.
  - apply list_elem_of_In, list_elem_of_lookup in Hin. destruct Hin as [i Hi].
    exists (Ok (l !! i)). apply list_elem_of_In, list_elem_of_lookup. exists i.
    apply list_lookup_imap_Some. by exists id.
  - exists (Throw msg). by apply (in_map (fun id => (id, Throw msg))).
Qed.

(** ** The invariant *)

Definition queue (s : t) : list N := resolving s ++ inFlight s.
Definition awaiting (s : t) : list N := concat (map (fun a => fst (snd a)) (awaited s)).

(** Exactly the batch that holds calls has a timer, which goes off within [batchingDelayMs]. *)
Definition timed (s : t) : Prop :=
  match timers s with
  | [] => calls (_batched s) = []
  | [(timer, due)] => calls (_batched s) <> [] /\ _timeoutId s = Some timer /\
      due <= clock s + batchingDelayMs
  | _ => False
  end.

(** The call of the promise [id] is one of the Multicall contract itself. *)
Definition direct (s : t) (id : N) : Prop :=
  exists p m, promises s !! id = Some p /\ _multicall s = Some m /\ batchedCall (request p) m = true.

Lemma direct_grows s s' id : grows (promises s) (promises s') -> _multicall s' = _multicall s ->
  direct s id -> direct s' id.
Proof.
  intros Hg Hm (p & m & Hp & Hs & Hb). destruct (Hg _ _ Hp) as (q & Hq & Hr & _).
  exists q, m. by rewrite Hr, Hm.
Qed.

(** [Inv x s]: the state [s] is consistent, but for the promises [x], which nothing in it is about
    to settle. *)
Record Inv (x : list N) (s : t) : Prop := {
  inv_fresh : forall id p, promises s !! id = Some p -> (id < fresh s)%N;
  inv_multicall : forall m, _multicall s = Some m -> In m (map snd multicallAddress);
  inv_batching : _multicall s = None -> calls (_batched s) = [] /\ resolving s = [];
  inv_timed : timed s;
  inv_batch : Forall2 (waiting (promises s) (batch_blockTag (_batched s)))
                (calls (_batched s)) (callbacks (_batched s));
  inv_queue : forall id, In id (queue s) -> is_Some (promises s !! id);
  inv_awaited : forall inner ids b, In (inner, (ids, b)) (awaited s) ->
    In inner (queue s) /\ carries (promises s) inner ids b;
  inv_direct : forall inner ids b, In (inner, (ids, b)) (awaited s) -> In inner (resolving s) ->
    direct s inner;
  inv_located : forall id p, promises s !! id = Some p -> outcome p = None ->
    In id (queue s ++ callbacks (_batched s) ++ awaiting s ++ x);
  inv_honest : honest (promises s);
}.

Lemma inv_init now : Inv [] (init now).
Proof. split; cbn; try done; try (by constructor). Qed.

(** *** Settling *)

Lemma settleAll_inv x es s : Inv x s -> Forall (honestEvent (promises s)) es ->
  Inv x (settleAll es s).
Proof.
  intros HI Hes. pose proof (grows_settles es (promises s)) as Hg. split; cbn.
  - intros id p H. apply settles_from in H. destruct H as (q & Hq & _). by eapply inv_fresh.
  - apply (inv_multicall x s HI).
  - apply (inv_batching x s HI).
  - apply (inv_timed x s HI).
  - eapply waitings_grow; [done | apply (inv_batch x s HI)].
  - intros id H. destruct (inv_queue x s HI id H) as [p Hp].
    destruct (Hg _ _ Hp) as (q & ? & _). by exists q.
  - intros inner ids b H. destruct (inv_awaited x s HI _ _ _ H) as [? Hc].
    split; [done | by eapply carries_grows].
  - intros inner ids b H Hin. eapply direct_grows; [exact Hg | done |].
    by eapply (inv_direct x s HI).
  - intros id p H Hp. apply settles_from in H. destruct H as (q & Hq & _ & _ & Ho).
    apply (inv_located x s HI id q Hq). destruct Ho as [<-|(o & _ & Ho)]; congruence.
  - intros id p v H Ho. apply settles_from in H. destruct H as (q & Hq & Hr & Ht & Hc).
    rewrite Hr, Ht. apply (answered_grows (promises s)); [done|].
    destruct Hc as [Hc|(o & Hin & Hc)].
    + apply (inv_honest x s HI id q v Hq). congruence.
    + rewrite Forall_forall in Hes. eapply (Hes (id, o)); [by apply list_elem_of_In | done |].
      cbn. congruence.
Qed.

(** Promises that are settled need no one to settle them. *)
Lemma inv_drop x s :
  Inv x s -> (forall id p, In id x -> promises s !! id = Some p -> outcome p <> None) -> Inv [] s.
Proof.
  intros HI Hx. split; try apply HI.
  intros id p Hp Ho. pose proof (inv_located x s HI id p Hp Ho) as Hin.
  rewrite !in_app_iff in *. destruct Hin as [?|[?|[?|Hin]]]; [tauto..|].
  by destruct (Hx id p Hin Hp).
Qed.

Lemma inv_more x s : Inv [] s -> Inv x s.
Proof.
  intros HI. split; try apply HI. intros id p Hp Ho.
  pose proof (inv_located _ s HI id p Hp Ho) as Hin. rewrite !in_app_iff in *. cbn in *. tauto.
Qed.

(** *** A new promise, sent or resolving *)

Lemma newPromise_inv x r tag s : Inv x s ->
  let '(id, s') := newPromise r tag s in
  Inv (id :: x) s' /\ promises s' !! id = Some (mkPromise r tag None) /\
  grows (promises s) (promises s') /\ ~ In id (queue s').
Proof.
  intros HI. cbn.
  assert (Hnone : promises s !! fresh s = None).
  { destruct (promises s !! fresh s) eqn:E; [|done]. apply (inv_fresh x s HI) in E. lia. }
  pose proof (grows_new _ _ (mkPromise r tag None) Hnone) as Hg.
  split; [|split; [by rewrite lookup_insert_eq|split; [done|]]].
  2: { intros H. apply (inv_queue x s HI) in H. rewrite Hnone in H. by destruct H. }
  split; cbn; [| apply HI.. | | | | | |].
  - intros id p. destruct (decide (id = fresh s)) as [->|Hne]; [lia|].
    rewrite lookup_insert_ne by done. intros H%(inv_fresh x s HI). lia.
  - eapply waitings_grow; [done | apply (inv_batch x s HI)].
  - intros id H. destruct (inv_queue x s HI id H) as [p Hp]. destruct (Hg _ _ Hp) as (q & ? & _).
    by exists q.
  - intros inner ids b H. destruct (inv_awaited x s HI _ _ _ H) as [? Hc].
    split; [done | by eapply carries_grows].
  - intros inner ids b H Hin. eapply (direct_grows s); [exact Hg | done |].
    by eapply (inv_direct x s HI).
  - intros id p. destruct (decide (id = fresh s)) as [->|Hne]; intros H Ho.
    + rewrite !in_app_iff. do 3 right. by left.
    + rewrite lookup_insert_ne in H by done. pose proof (inv_located x s HI id p H Ho) as Hin.
      revert Hin. unfold queue, awaiting. cbn. rewrite !in_app_iff. cbn. tauto.
  - intros id p v. destruct (decide (id = fresh s)) as [->|Hne]; intros H Ho.
    + rewrite lookup_insert_eq in H. by simplify_eq.
    + rewrite lookup_insert_ne in H by done. eapply answered_grows; [exact Hg|].
      by eapply (inv_honest x s HI).
Qed.

(** The promise [id] starts waiting for the provider below, or for its properties. *)
Lemma queue_inv x id s l l' : Inv (id :: x) s -> is_Some (promises s !! id) ->
  (forall i, In i (l ++ l') <-> In i (queue s) \/ i = id) ->
  (_multicall s = None -> l = []) ->
  (forall i, In i l -> In i (resolving s) \/ ~ In i (queue s)) ->
  Inv x (with_pending l l' (awaited s) s).
Proof.
  intros HI Hid Hl Hm Hr. split; try apply HI; unfold queue; cbn.
  - intros H. split; [apply HI | by apply Hm]. done.
  - intros i [Hi| ->]%Hl; [by eapply inv_queue | done].
  - intros inner ids b H. destruct (inv_awaited _ s HI _ _ _ H). split; [|done].
    apply Hl. by left.
  - intros inner ids b H [Hi|Hi]%Hr; [by eapply (inv_direct _ s HI)|].
    by destruct (inv_awaited _ s HI _ _ _ H).
  - intros i p Hp Ho. pose proof (inv_located _ s HI i p Hp Ho) as Hin.
    revert Hin. unfold queue, awaiting. cbn. rewrite (in_app_iff (l ++ l')), Hl. unfold queue.
    rewrite !in_app_iff. cbn. intuition auto.
Qed.

Lemma counts_inv x a b c s : Inv x s -> Inv x (with_counts a b c s).
Proof. intros HI. split; apply HI. Qed.

Lemma checkRatio_inv x s : Inv x s -> Inv x (checkRatio s).
Proof.
  intros HI. unfold checkRatio. destruct (_timeOfLastRatioCheck s); [destruct (_ && _)|];
    try apply counts_inv; done.
Qed.

Lemma call_inv x r tag s : Inv x s ->
  let '(id, s') := call r tag s in
  Inv x s' /\ In id (queue s') /\ promises s' !! id = Some (mkPromise r tag None) /\
  grows (promises s) (promises s') /\ awaited s' = awaited s /\ _multicall s' = _multicall s.
Proof.
  intros HI. pose proof (newPromise_inv x r tag s HI) as Hn. unfold call.
  destruct (newPromise r tag s) as [id s'] eqn:E.
  destruct Hn as (HI' & Hp & Hg & Hfresh).
  assert (Ha : awaited s' = awaited s /\ _multicall s' = _multicall s) by (by injection E as <- <-).
  destruct Ha as [Ha Hmc].
  assert (Hr : awaited (checkRatio s') = awaited s' /\ promises (checkRatio s') = promises s' /\
    queue (checkRatio s') = queue s' /\ _multicall (checkRatio s') = _multicall s').
  { unfold checkRatio. destruct (_timeOfLastRatioCheck s'); [destruct (_ && _)|]; done. }
  destruct Hr as (Hr1 & Hr2 & Hr3 & Hr4).
  destruct (_multicall s') as [m|] eqn:Em.
  - split; [|split; [|split; [|split; [|split]]]].
    + apply (queue_inv x id); [by apply checkRatio_inv | by rewrite Hr2, Hp | | |].
      * intros i. unfold queue. rewrite !in_app_iff. cbn. intuition auto.
      * rewrite Hr4. congruence.
      * intros i [Hi|[<-|[]]]%in_app_iff; [by left | right; by rewrite Hr3].
    + unfold queue. cbn. rewrite !in_app_iff. left. right. by left.
    + cbn. by rewrite Hr2.
    + cbn. by rewrite Hr2.
    + cbn. by rewrite Hr1.
    + cbn. congruence.
  - split; [|split; [|split; [|split; [|split]]]]; try done.
    + apply (queue_inv x id); [done | by rewrite Hp | | |].
      * intros i. unfold queue. rewrite !in_app_iff. cbn. intuition auto.
      * intros _. by apply (inv_batching _ s' HI').
      * intros i Hi. by left.
    + unfold queue. cbn. rewrite !in_app_iff. right. right. by left.
    + cbn. congruence.
Qed.

(** *** The dispatch *)

(** A batch leaves with its timer. *)
Lemma empty_inv s : Inv [] s ->
  Inv (callbacks (_batched s)) (with_batch emptyBatch (with_timers (_timeoutId s) [] s)).
Proof.
  intros HI. split; try apply HI; cbn.
  - intros H. by apply (inv_batching _ s HI) in H as [_ ->].
  - done.
  - constructor.
  - intros id p Hp Ho. pose proof (inv_located _ s HI id p Hp Ho) as Hin.
    revert Hin. unfold queue, awaiting. cbn. rewrite !in_app_iff. cbn. intuition auto.
Qed.

Lemma await_inv x inner b s : Inv x s -> In inner (queue s) -> carries (promises s) inner x b ->
  (In inner (resolving s) -> direct s inner) ->
  Inv [] (with_pending (resolving s) (inFlight s) (awaited s ++ [(inner, (x, b))]) s).
Proof.
  intros HI Hin Hc Hd. split; try apply HI; cbn.
  - intros i ids b' [H|[[= <- <- <-]|[]]]%in_app_iff; [by eapply (inv_awaited _ s HI) | done].
  - intros i ids b' [H|[[= <- <- <-]|[]]]%in_app_iff; [by eapply (inv_direct _ s HI) | done].
  - intros id p Hp Ho. pose proof (inv_located _ s HI id p Hp Ho) as Hloc.
    revert Hloc. unfold queue, awaiting. cbn.
    rewrite map_app, concat_app, !in_app_iff. cbn. rewrite app_nil_r. intuition auto.
Qed.

Lemma dispatch_inv s : Inv [] s -> Inv [] (_dispatchCalls (with_timers (_timeoutId s) [] s)).
Proof.
  intros HI. pose proof (empty_inv s HI) as He. pose proof (inv_batch _ s HI) as Hb.
  pose proof (inv_batching _ s HI) as Hm. pose proof (inv_multicall _ s HI) as Ha.
  unfold _dispatchCalls. cbn [_batched with_timers].
  set (s0 := with_batch emptyBatch _) in *. change (_multicall s0) with (_multicall s).
  destruct (calls (_batched s)) as [|c [|c' cs]] eqn:Ec.
  - apply Forall2_nil_inv_l in Hb. by rewrite Hb in He.
  - pose proof (newPromise_inv _ (plain c) (batch_blockTag (_batched s)) s0 He) as Hn.
    destruct (newPromise _ _ s0) as [id s1] eqn:E. destruct Hn as (HI1 & Hp & Hg & Hid).
    set (s2 := send id s1).
    assert (HI2 : Inv (callbacks (_batched s)) s2).
    { apply (queue_inv _ id); [done | by rewrite Hp | | |].
      - intros i. unfold queue. rewrite !in_app_iff. cbn. intuition auto.
      - intros H. by apply (inv_batching _ s1 HI1).
      - intros i Hi. by left. }
    apply await_inv; [done | | |].
    + unfold queue. cbn. rewrite !in_app_iff. right. right. by left.
    + exists (mkPromise (plain c) (batch_blockTag (_batched s)) None), [c]. split; [done|].
      split; [by eapply waitings_grow|]. by exists c.
    + intros Hin. destruct Hid. apply in_app_iff. by left.
  - destruct (_multicall s) as [m|] eqn:Em; [|by destruct Hm].
    pose proof (call_inv _ (aggregateRequest m (c :: c' :: cs)) (batch_blockTag (_batched s)) s0 He)
      as Hn.
    destruct (call _ _ s0) as [id s1] eqn:E. destruct Hn as (HI1 & Hq & Hp & Hg & _ & Hm1).
    apply await_inv; [done | done | |].
    + eexists _, (c :: c' :: cs). split; [exact Hp|]. split; [by eapply waitings_grow|].
      exists m. split; [by apply Ha | done].
    + intros _. eexists _, m. split; [exact Hp|]. split; [by rewrite Hm1|].
      unfold batchedCall. cbn -[String.prefix]. by rewrite String.eqb_refl, aggregate_selector.
Qed.

(** *** The rest of [call] *)

Lemma member_In id l : member id l = true <-> In id l.
Proof.
  unfold member. rewrite existsb_exists. split.
  - intros (i & Hi & ->%N.eqb_eq). done.
  - intros H. exists id. by rewrite N.eqb_refl.
Qed.

Lemma in_remove_id i id l : In i (List.filter (fun j => negb (j =? id)%N) l) <-> In i l /\ i <> id.
Proof. by rewrite filter_In, negb_true_iff, N.eqb_neq. Qed.

Lemma clear_timers s : timed s -> timers (clearTimeout (_timeoutId s) s) = [].
Proof.
  unfold timed. destruct (timers s) as [|[tm due] [|]] eqn:Et; [| |done].
  - intros _. destruct s; cbn in *; subst. by destruct _timeoutId0.
  - intros (_ & -> & _). cbn. by rewrite Et; cbn; rewrite N.eqb_refl.
Qed.

(** The promise [id] joins the batch, which is sent after [batchingDelayMs]. *)
Lemma enqueue_inv id p tag s : Inv [id] s -> promises s !! id = Some p ->
  batchableCall (request p) = true -> _multicall s <> None ->
  tagOr (requestTag p) = tagOr tag ->
  let b := _batched s in
  Forall2 (waiting (promises s) tag) (calls b) (callbacks b) ->
  Inv [] (_enqueueCall (mkCall (to (request p)) (data (request p))) id
            (with_batch (mkBatch (calls b) (callbacks b) tag) s)).
Proof.
  intros HI Hp Hb Hm Htag b Hw.
  assert (Hclear : exists timeout, clearTimeout (_timeoutId s) (with_batch (mkBatch (calls b) (callbacks b) tag) s)
    = with_timers timeout [] (with_batch (mkBatch (calls b) (callbacks b) tag) s)).
  { exists (_timeoutId s). pose proof (clear_timers s (inv_timed _ s HI)) as H.
    destruct s; cbn in *. destruct _timeoutId0; cbn in *; by rewrite H. }
  destruct Hclear as [timeout Hclear]. unfold _enqueueCall.
  change (_timeoutId (with_batch _ s)) with (_timeoutId s). rewrite Hclear.
  split; try apply HI; cbn.
  - intros i q Hq%(inv_fresh _ s HI). lia.
  - done.
  - unfold timed. cbn. split; [by destruct (calls b)|]. split; [done | lia].
  - apply Forall2_app; [done|]. constructor; [|constructor]. by exists p.
  - intros i q Hq Ho. pose proof (inv_located _ s HI i q Hq Ho) as Hin. fold b in Hin.
    revert Hin. unfold queue, awaiting. cbn. rewrite !in_app_iff. cbn. intuition auto.
Qed.

(** A batch that is empty takes the tag of its first call. *)
Lemma first_tag (s : t) tag :
  let b := _batched s in
  (if Nat.eqb (length (calls b)) 0 then with_batch (mkBatch (calls b) (callbacks b) tag) s else s) =
  with_batch (mkBatch (calls b) (callbacks b)
    (if Nat.eqb (length (calls b)) 0 then tag else batch_blockTag b)) s.
Proof. destruct s as [???[]]; cbn. by destruct calls0. Qed.

Lemma no_conflict (s : t) p :
  _alreadyBatchedCallsConflictWith (requestTag p) s = false ->
  tagOr (requestTag p) =
    tagOr (if Nat.eqb (length (calls (_batched s))) 0 then requestTag p
           else batch_blockTag (_batched s)).
Proof.
  unfold _alreadyBatchedCallsConflictWith. destruct (Nat.eqb _ 0); [done|]. cbn.
  by intros ?%negb_false_iff%bool_decide_eq_true.
Qed.

Lemma resume_inv id s : Inv [] s -> In id (resolving s) -> Inv [] (resume id s).
Proof.
  intros HI Hin. unfold resume.
  destruct (inv_queue _ s HI id) as [p Hp]; [apply in_app_iff; by left|].
  cbn [promises _multicall with_pending]. rewrite Hp.
  destruct (_multicall s) as [m|] eqn:Em;
    [|by apply (inv_batching _ s HI) in Em as [_ Hr]; rewrite Hr in Hin].
  set (l := List.filter _ (resolving s)). set (s1 := with_pending l _ _ s).
  assert (Hsplit : forall i, In i (resolving s) <-> In i l \/ i = id).
  { intros i. unfold l. rewrite in_remove_id. destruct (decide (i = id)) as [->|]; tauto. }
  destruct (sentAlone m (request p) (requestTag p) s1) eqn:Ealone.
  - pose proof (inv_more [id] s HI) as HI2.
    change (Inv [] (with_counts (_numberOfBatchedCalls s) (_numberOfActualCalls s + 1)
      (_timeOfLastRatioCheck s) (with_pending l (inFlight s ++ [id]) (awaited s) s))).
    apply counts_inv, (queue_inv [] id); [done | by rewrite Hp | | congruence |].
    + intros i. unfold queue. rewrite !in_app_iff, Hsplit. cbn. intuition auto.
    + intros i Hi. left. apply Hsplit. by left.
  - unfold sentAlone in Ealone. rewrite !orb_false_iff, negb_false_iff in Ealone.
    destruct Ealone as [[Hd Hb] Hcf].
    set (s2 := with_counts (_numberOfBatchedCalls s + 1) (_numberOfActualCalls s)
      (_timeOfLastRatioCheck s) s1).
    assert (HI2 : Inv [id] s2).
    { split; try apply HI; cbn.
      - congruence.
      - intros i Hi. apply (inv_queue _ s HI). unfold queue in *. cbn in Hi.
        rewrite in_app_iff in *. rewrite Hsplit. tauto.
      - intros i ids b H. destruct (inv_awaited _ s HI _ _ _ H) as [Hq Hc]. split; [|done].
        unfold queue in *. cbn. rewrite in_app_iff in *. destruct Hq as [Hq|]; [|by right].
        left. apply Hsplit in Hq as Hq'. destruct Hq' as [|Heq]; [done|]. exfalso. subst i.
        destruct (inv_direct _ s HI _ _ _ H Hq) as (p' & m' & Hp' & Hm' & Hd'). congruence.
      - intros i ids b H Hi. apply (inv_direct _ s HI i ids b H). apply Hsplit. by left.
      - intros i q Hq Ho. pose proof (inv_located _ s HI i q Hq Ho) as Hl.
        revert Hl. unfold queue, awaiting. cbn. rewrite !in_app_iff, Hsplit. cbn. intuition auto. }
    change (Inv [] (_enqueueCall (mkCall (to (request p)) (data (request p))) id
      (if Nat.eqb (length (calls (_batched s2))) 0
       then with_batch (mkBatch (calls (_batched s2)) (callbacks (_batched s2)) (requestTag p)) s2
       else s2))).
    rewrite (first_tag s2). apply (enqueue_inv id p); [done|done|done| | |].
    + cbn. congruence.
    + by apply (no_conflict s2).
    + change (_batched s2) with (_batched s). pose proof (inv_batch _ s HI) as Hw.
      change (promises s2) with (promises s).
      destruct (calls (_batched s)); [|exact Hw].
      apply Forall2_nil_inv_l in Hw. rewrite Hw. constructor.
Qed.

(** *** An answer *)

(** The state in which the promise [id] and those it carries are about to be settled. *)
Definition released (id : N) (s : t) : t :=
  with_pending (resolving s) (List.filter (fun i => negb (i =? id)%N) (inFlight s))
    (List.filter (fun a => negb (fst a =? id)%N) (awaited s)) s.
Definition settling (id : N) (result : Res string) (s : t) : list (N * Res (option string)) :=
  (id, res_map Some result) ::
  concat (map (delivered result) (List.filter (fun a => (fst a =? id)%N) (awaited s))).
Definition settledBy (id : N) (s : t) : list N :=
  id :: concat (map (fun a => fst (snd a)) (List.filter (fun a => (fst a =? id)%N) (awaited s))).

Lemma answer_eq id s p : promises s !! id = Some p ->
  answer id s = settleAll (settling id (superCall (request p) (requestTag p)) s) (released id s).
Proof. intros Hp. unfold answer. cbn [promises with_pending]. by rewrite Hp. Qed.

Lemma released_inv id s : Inv [] s -> Inv (settledBy id s) (released id s).
Proof.
  intros HI.
  assert (Hsub : forall e, In e (awaited (released id s)) <-> In e (awaited s) /\ e.1 <> id).
  { intros e. cbn. by rewrite filter_In, negb_true_iff, N.eqb_neq. }
  split; try apply HI.
  - intros i Hi. apply (inv_queue _ s HI). unfold queue in *. cbn in Hi.
    rewrite in_app_iff, in_remove_id in *. tauto.
  - intros i ids b [H Hne]%Hsub. destruct (inv_awaited _ s HI _ _ _ H). split; [|done].
    unfold queue in *. cbn. rewrite in_app_iff, in_remove_id in *. tauto.
  - intros i ids b [H _]%Hsub. by apply (inv_direct _ s HI i ids b H).
  - intros i p Hp Ho. pose proof (inv_located _ s HI i p Hp Ho) as Hin.
    assert (Hsplit : In i (awaiting s) -> In i (awaiting (released id s) ++ settledBy id s)).
    { unfold awaiting. intros (l & (a & <- & Ha)%in_map_iff & Hi)%in_concat.
      rewrite in_app_iff. destruct (decide (a.1 = id)) as [Heq|Hne].
      - right. right. apply in_concat. exists a.2.1. split; [|done]. apply in_map_iff.
        exists a. split; [done|]. apply filter_In. by rewrite N.eqb_eq.
      - left. apply in_concat. exists a.2.1. split; [|done]. apply in_map_iff.
        exists a. split; [done|]. by apply Hsub. }
    revert Hin. unfold queue. cbn [resolving inFlight released with_pending _batched].
    rewrite !in_app_iff, in_remove_id. rewrite in_app_iff in Hsplit. cbn [In].
    destruct (decide (i = id)) as [->|]; [intros _; do 3 right; by left | tauto].
Qed.

Lemma settling_honest id s p : Inv [] s -> promises s !! id = Some p ->
  Forall (honestEvent (promises s)) (settling id (superCall (request p) (requestTag p)) s).
Proof.
  intros HI Hp. constructor.
  - intros q v Hq Hv. cbn in Hq, Hv. simplify_eq. left.
    destruct (superCall _ _) as [w|]; [|done]. exists w. by injection Hv as <-.
  - apply Forall_forall. intros e He. apply list_elem_of_In, in_concat in He.
    destruct He as (es & (a & <- & Ha)%in_map_iff & He).
    apply filter_In in Ha. destruct Ha as [Ha Heq%N.eqb_eq].
    destruct a as [inner [ids b]]. cbn [fst] in Heq. subst inner. destruct (inv_awaited _ s HI _ _ _ Ha) as [_ Hc].
    pose proof (delivered_honest _ _ _ _ _ Hc Hp) as Hd. rewrite Forall_forall in Hd.
    apply Hd. by apply list_elem_of_In.
Qed.

Lemma settling_covers id r s i : In i (settledBy id s) -> exists o, In (i, o) (settling id r s).
Proof.
  intros [<-|(l & (a & <- & Ha)%in_map_iff & Hi)%in_concat]; [by eexists; left|].
  destruct (outcomes_cover a.2.1 (if a.2.2 then let! raw := r in decodeAggregate raw
    else res_map (fun v => [v]) r) i Hi) as [o Ho].
  exists o. right. apply in_concat. eexists. split; [by apply in_map|]. done.
Qed.

Lemma answer_inv id s : Inv [] s -> In id (inFlight s) -> Inv [] (answer id s).
Proof.
  intros HI Hin. destruct (inv_queue _ s HI id) as [p Hp]; [apply in_app_iff; by right|].
  rewrite (answer_eq id s p Hp). apply (inv_drop (settledBy id s)).
  - apply settleAll_inv; [by apply released_inv | by apply (settling_honest id s)].
  - intros i q (o & Ho)%(settling_covers id (superCall (request p) (requestTag p))) Hq Hnone.
    change (fold_left settle (settling id (superCall (request p) (requestTag p)) s) (promises s)
      !! i = Some q) in Hq. pose proof Hq as (q0 & Hq0 & _)%settles_from.
    destruct (settles_settled _ (promises s) _ _ Ho Hq0) as (q' & o' & Hq' & Ho').
    cbn [fst] in Hq'. congruence.
Qed.

(** ** Every event keeps the invariant *)

Lemma setChainId_inv c s s' : Inv [] s -> setChainId c s = Ok s' -> Inv [] s'.
Proof.
  intros HI. unfold setChainId. destruct (_multicall s) eqn:Em; [done|]. intros [= <-].
  destruct (inv_batching _ s HI Em) as [Hc Hr].
  split; try apply HI; cbn -[multicallOf multicallAddress].
  - intros m Hm. unfold multicallOf in Hm. apply fmap_Some in Hm.
    destruct Hm as (e & He%find_some & ->). apply in_map. tauto.
  - done.
  - intros i ids b _. by rewrite Hr.
Qed.

Lemma getBalance_inv a tag s : Inv [] s -> Inv [] (snd (getBalance a tag s)).
Proof.
  intros HI. unfold getBalance. destruct (_multicall s) as [m|]; [|done].
  destruct (isAddress a); [|done].
  pose proof (call_inv [] (mkRequest (Some m) None None None None
    (Some (Hex (encodeGetEthBalance a))) None None) tag s HI) as Hc.
  destruct (call _ tag s). apply Hc.
Qed.

(** The timer that goes off is the only one. *)
Lemma fire_timers timer s : timed s ->
  existsb (fun e => (fst e =? timer)%N && (snd e <=? clock s)) (timers s) = true ->
  List.filter (fun e => negb (fst e =? timer)%N) (timers s) = [] /\ calls (_batched s) <> [].
Proof.
  unfold timed. destruct (timers s) as [|[tm due] [|]]; [done| |done].
  intros (Hc & _ & _). cbn. rewrite orb_false_r. intros [-> _]%andb_true_iff. done.
Qed.

Lemma step_inv e s s' : Inv [] s -> step e s = Some s' -> Inv [] s'.
Proof.
  intros HI. destruct e; cbn [step].
  - destruct (setChainId _ s) eqn:E; intros [= <-]; [by eapply setChainId_inv | done].
  - intros [= <-]. pose proof (call_inv [] r tag s HI) as Hc. destruct (call r tag s). apply Hc.
  - intros [= <-]. by apply getBalance_inv.
  - destruct (member id _) eqn:E; [|done]. intros [= <-]. apply resume_inv; [done|].
    by apply member_In.
  - destruct (0 <=? ms) eqn:E; [|done]. intros [= <-]. apply Z.leb_le in E.
    split; try apply HI. pose proof (inv_timed _ s HI) as Ht. unfold timed in *. cbn.
    destruct (timers s) as [|[tm due] [|]]; [done | | done]. intuition lia.
  - destruct (existsb _ _) eqn:E; [|done]. intros [= <-].
    destruct (fire_timers timer s (inv_timed _ s HI) E) as [-> _]. by apply dispatch_inv.
  - destruct (member id _) eqn:E; [|done]. intros [= <-]. apply answer_inv; [done|].
    by apply member_In.
Qed.

Lemma run_inv es s s' : Inv [] s -> run es s = Some s' -> Inv [] s'.
Proof.
  revert s. induction es as [|e es IH]; cbn; intros s HI; [by intros [= <-]|].
  destruct (step e s) eqn:E; [|done]. apply IH. by eapply step_inv.
Qed.

Definition Reachable (s : t) : Prop := exists now es, run es (init now) = Some s.

Lemma reachable_inv s : Reachable s -> Inv [] s.
Proof. intros (now & es & H). eapply run_inv; [apply inv_init | exact H]. Qed.

(** ** Progress *)

(** The turns the promise [id] still takes once its properties are there. *)
Definition resumeWeight (s : t) (id : N) : nat :=
  match promises s !! id, _multicall s with
  | Some p, Some m => if batchedCall (request p) m || negb (batchableCall (request p)) then 2 else 4
  | _, _ => 2
  end.
Definition weight (s : t) : nat :=
  (list_sum (map (resumeWeight s) (resolving s)) + length (inFlight s) +
   3 * length (calls (_batched s)))%nat.

(** A turn of the event loop that is no new request. *)
Definition turn (e : Event) : bool :=
  match e with Resume _ | Fire _ | Answer _ => true | _ => false end.
Definition quiet (e : Event) : bool := match e with Tick _ => true | _ => turn e end.

Lemma sum_filter (f : N -> nat) id l :
  (list_sum (map f (List.filter (fun i => negb (i =? id)%N) l)) <= list_sum (map f l))%nat.
Proof. unfold list_sum. induction l as [|i l IH]; [done|]. cbn. destruct (i =? id)%N; cbn; lia. Qed.

Lemma sum_remove (f : N -> nat) id l : In id l ->
  (list_sum (map f (List.filter (fun i => negb (i =? id)%N) l)) + f id <= list_sum (map f l))%nat.
Proof.
  pose proof (sum_filter f id) as Hle. unfold list_sum in *.
  induction l as [|i l IH]; [done|]. cbn. intros [->|Hin].
  - rewrite N.eqb_refl. cbn. specialize (Hle l). lia.
  - specialize (IH Hin). specialize (Hle l). destruct (N.eqb_spec i id) as [->|]; cbn; lia.
Qed.

Lemma resumeWeights_stable s s' l : grows (promises s) (promises s') ->
  _multicall s' = _multicall s -> (forall i, In i l -> is_Some (promises s !! i)) ->
  map (resumeWeight s') l = map (resumeWeight s) l.
Proof.
  intros Hg Hm Hl. apply map_ext_in. intros i Hi. destruct (Hl i Hi) as [p Hp].
  destruct (Hg _ _ Hp) as (q & Hq & Hr & _). unfold resumeWeight. by rewrite Hp, Hq, Hm, Hr.
Qed.

Lemma resume_weight id s : Inv [] s -> In id (resolving s) -> (weight (resume id s) < weight s)%nat.
Proof.
  intros HI Hin. pose proof (sum_remove (resumeWeight s) id (resolving s) Hin) as Hsum.
  unfold resume. cbn [promises _multicall with_pending].
  destruct (inv_queue _ s HI id) as [p Hp]; [apply in_app_iff; by left|]. rewrite Hp.
  destruct (_multicall s) as [m|] eqn:Em;
    [|by apply (inv_batching _ s HI) in Em as [_ Hr]; rewrite Hr in Hin].
  assert (Hw : resumeWeight s id =
    if batchedCall (request p) m || negb (batchableCall (request p)) then 2%nat else 4%nat)
    by (unfold resumeWeight; by rewrite Hp, Em).
  destruct (sentAlone m _ _ _) eqn:Ealone.
  - change (resumeWeight s) with (resumeWeight s) in Hsum. unfold weight in *.
    cbn [resolving inFlight _batched send with_pending with_counts calls]. rewrite length_app.
    cbn [length]. change (resumeWeight (send id _)) with (resumeWeight s).
    destruct (_ || _); lia.
  - unfold sentAlone in Ealone. rewrite !orb_false_iff in Ealone.
    destruct Ealone as [[Hd Hb] _]. rewrite Hd, Hb in Hw. cbn [orb] in Hw.
    match goal with |- (weight (_enqueueCall ?c id ?s2) < _)%nat =>
      assert (Hc : calls (_batched (_enqueueCall c id s2)) = calls (_batched s2) ++ [c] /\
        resolving (_enqueueCall c id s2) = resolving s2 /\
        inFlight (_enqueueCall c id s2) = inFlight s2 /\
        resumeWeight (_enqueueCall c id s2) = resumeWeight s2) end.
    { unfold _enqueueCall. by destruct (_timeoutId _). }
    destruct Hc as (Hc & Hr & Hi & Hrw). unfold weight in *. rewrite Hc, Hr, Hi, Hrw, length_app.
    destruct (Nat.eqb _ 0); cbn [resolving inFlight _batched with_pending with_counts with_batch calls length];
      cbn [Nat.add]; change (resumeWeight (with_counts _ _ _ _)) with (resumeWeight s);
      try change (resumeWeight (with_batch _ _)) with (resumeWeight s); lia.
Qed.

Lemma answer_weight id s : Inv [] s -> In id (inFlight s) -> (weight (answer id s) < weight s)%nat.
Proof.
  intros HI Hin. destruct (inv_queue _ s HI id) as [p Hp]; [apply in_app_iff; by right|].
  rewrite (answer_eq id s p Hp). unfold weight.
  rewrite (resumeWeights_stable s); [|apply grows_settles|done|].
  - cbn. pose proof (sum_remove (fun _ => 1%nat) id (inFlight s) Hin) as Hsum.
    assert (Hlen : forall l : list N, list_sum (map (fun _ => 1%nat) l) = length l)
      by (unfold list_sum; induction l; cbn; lia).
    rewrite !Hlen in Hsum. unfold list_sum in *. lia.
  - intros i Hi. apply (inv_queue _ s HI), in_app_iff. by left.
Qed.

Lemma dispatch_weight s : Inv [] s -> calls (_batched s) <> [] ->
  (weight (_dispatchCalls (with_timers (_timeoutId s) [] s)) < weight s)%nat.
Proof.
  intros HI Hne. pose proof (empty_inv s HI) as He.
  pose proof (inv_batching _ s HI) as Hm.
  assert (Hdom : forall i, In i (resolving s) -> is_Some (promises s !! i))
    by (intros i Hi; apply (inv_queue _ s HI), in_app_iff; by left).
  unfold _dispatchCalls. cbn [_batched with_timers].
  set (s0 := with_batch emptyBatch _) in *. change (_multicall s0) with (_multicall s).
  destruct (calls (_batched s)) as [|c [|c' cs]] eqn:Ec; [done| |].
  - pose proof (newPromise_inv _ (plain c) (batch_blockTag (_batched s)) s0 He) as (_ & _ & Hg & _).
    cbn [newPromise]. unfold weight. cbn [resolving inFlight _batched calls send with_pending
      with_promises s0 with_batch with_timers emptyBatch]. rewrite Ec, length_app.
    rewrite (resumeWeights_stable s); [cbn; lia | exact Hg | done | done].
  - destruct (_multicall s) as [m|] eqn:Em; [|by destruct Hm].
    pose proof (call_inv _ (aggregateRequest m (c :: c' :: cs)) (batch_blockTag (_batched s)) s0 He)
      as Hn.
    destruct (call _ _ s0) as [id s1] eqn:E. destruct Hn as (_ & _ & Hp & Hg & _ & Hm1).
    unfold call in E. cbn [newPromise] in E.
    change (_multicall (with_promises _ _ s0)) with (_multicall s) in E. rewrite Em in E.
    assert (Hs1 : resolving s1 = resolving s ++ [id] /\ inFlight s1 = inFlight s /\
      calls (_batched s1) = []).
    { injection E as <- <-. unfold checkRatio. cbn.
      destruct (_timeOfLastRatioCheck s); [destruct (_ && _)|]; done. }
    destruct Hs1 as (Hr & Hi & Hcs). unfold weight.
    cbn [resolving inFlight _batched with_pending]. rewrite Hr, Hi, Hcs, Ec, map_app, list_sum_app.
    rewrite (resumeWeights_stable s); [|exact Hg|exact Hm1|done].
    assert (Hw : map (resumeWeight (with_pending (resolving s1) (inFlight s1) (awaited s1 ++
      [(id, (callbacks (_batched s), true))]) s1)) [id] = [2%nat]).
    { cbn [map]. unfold resumeWeight. cbn [promises _multicall with_pending].
      rewrite Hp, Hm1. change (_multicall s0) with (_multicall s). rewrite Em.
      unfold batchedCall. cbn -[String.prefix]. by rewrite String.eqb_refl, aggregate_selector. }
    rewrite Hr, Hi in Hw. rewrite Hw. cbn. lia.
Qed.

Lemma step_weight e s s' : Inv [] s -> quiet e = true -> step e s = Some s' ->
  (weight s' + (if turn e then 1 else 0) <= weight s)%nat.
Proof.
  intros HI Hq. destruct e; try done; cbn [step turn].
  - destruct (member id _) eqn:E; [|done]. intros [= <-]. apply member_In in E.
    pose proof (resume_weight id s HI E). lia.
  - destruct (0 <=? ms); [|done]. intros [= <-]. change (weight (with_clock _ s)) with (weight s). lia.
  - destruct (existsb _ _) eqn:E; [|done]. intros [= <-].
    destruct (fire_timers timer s (inv_timed _ s HI) E) as [-> Hne].
    pose proof (dispatch_weight s HI Hne). lia.
  - destruct (member id _) eqn:E; [|done]. intros [= <-]. apply member_In in E.
    pose proof (answer_weight id s HI E). lia.
Qed.

Lemma run_weight es s s' : Inv [] s -> forallb quiet es = true -> run es s = Some s' ->
  (weight s' + length (List.filter turn es) <= weight s)%nat.
Proof.
  revert s. induction es as [|e es IH]; cbn [run forallb List.filter length]; intros s HI.
  { intros _ [= <-]. lia. }
  intros [Hq Hqs]%andb_true_iff. destruct (step e s) as [s1|] eqn:E; [|done]. intros Hrun.
  pose proof (step_weight e s s1 HI Hq E). pose proof (step_inv e s s1 HI E) as HI1.
  specialize (IH s1 HI1 Hqs Hrun). destruct (turn e); cbn [length]; lia.
Qed.

(** While a promise is pending, some event comes within [batchingDelayMs]. *)
Lemma progress s id p : Inv [] s -> promises s !! id = Some p -> outcome p = None ->
  exists ms e s', 0 <= ms <= batchingDelayMs /\ turn e = true /\ run [Tick ms; e] s = Some s'.
Proof.
  intros HI Hp Ho. pose proof (inv_located _ s HI id p Hp Ho) as Hloc.
  assert (Hqueue : forall i, In i (queue s) ->
    exists ms e s', 0 <= ms <= batchingDelayMs /\ turn e = true /\ run [Tick ms; e] s = Some s').
  { intros i [Hi|Hi]%in_app_iff; apply member_In in Hi; unfold batchingDelayMs.
    - exists 0, (Resume i). cbn [run step Z.leb Z.compare resolving inFlight with_clock]. rewrite Hi. by eexists.
    - exists 0, (Answer i). cbn [run step Z.leb Z.compare resolving inFlight with_clock]. rewrite Hi. by eexists. }
  rewrite app_nil_r, !in_app_iff in Hloc. destruct Hloc as [Hq|[Hb|Ha]]; [by eapply Hqueue| |].
  - pose proof (inv_timed _ s HI) as Ht. unfold timed in Ht. pose proof (inv_batch _ s HI) as Hf.
    destruct (timers s) as [|[tm due] [|]] eqn:Et; [| |done].
    { rewrite Ht in Hf. apply Forall2_nil_inv_l in Hf. by rewrite Hf in Hb. }
    destruct Ht as (_ & _ & Hdue). exists (Z.max 0 (due - clock s)), (Fire tm).
    cbn [run step]. rewrite (proj2 (Z.leb_le 0 _)) by lia.
    cbn [timers with_clock clock existsb fst snd]. rewrite Et. cbn [existsb fst snd].
    rewrite N.eqb_refl, (proj2 (Z.leb_le due _)) by lia. eexists. split; [|done].
    unfold batchingDelayMs in *. lia.
  - apply in_concat in Ha. destruct Ha as (l & ([inner [ids b]] & <- & Hin)%in_map_iff & _).
    destruct (inv_awaited _ s HI _ _ _ Hin) as [Hq _]. by eapply Hqueue.
Qed.

Definition allSettled (s : t) : Prop :=
  forall id p, promises s !! id = Some p -> outcome p <> None.

Lemma settled_dec s : allSettled s \/ exists id p, promises s !! id = Some p /\ outcome p = None.
Proof.
  destruct (decide (map_Forall (fun (_ : N) p => isUndefined (outcome p) = false) (promises s)))
    as [H|H].
  - left. intros id p Hp Ho. specialize (H id p Hp). cbn in H. by rewrite Ho in H.
  - right. apply map_not_Forall in H; [|apply _]. destruct H as (id & p & Hp & Hne).
    exists id, p. split; [done|]. by destruct (outcome p).
Qed.

(** ** The batching delay *)

(** A host that keeps time: no time passes while something can be done at once, and no timer goes
    off late. *)
Definition punctual (e : Event) (s : t) : bool :=
  match e with
  | Tick ms => (ms <=? 0) ||
      (Nat.eqb (length (resolving s)) 0 && forallb (fun e => clock s + ms <=? snd e) (timers s))
  | _ => true
  end.
Fixpoint punctualRun (es : list Event) (s : t) : bool :=
  match es with
  | [] => true
  | e :: es' =>
      punctual e s && match step e s with Some s' => punctualRun es' s' | None => true end
  end.

(** What holds between the last request, at [t0], and the time its batch is due. *)
Record Prompt (t0 : Z) (s : t) : Prop := {
  prompt_start : t0 <= clock s;
  prompt_due : forall e, In e (timers s) -> snd e <= t0 + batchingDelayMs;
  prompt_direct : t0 < clock s -> forall i, In i (resolving s) -> direct s i;
  prompt_over : t0 + batchingDelayMs < clock s -> timers s = [] /\ resolving s = [];
}.

Lemma prompt_init s : Inv [] s -> Prompt (clock s) s.
Proof.
  intros HI. split; [lia | | lia | unfold batchingDelayMs; lia].
  intros e He. pose proof (inv_timed _ s HI) as Ht. unfold timed in Ht.
  destruct (timers s) as [|[tm due] [|]]; [done| |done]. destruct He as [<-|[]]. cbn. tauto.
Qed.

(** An event that takes no time, starts no timer and leaves nothing to resolve but calls of the
    Multicall contract. *)
Lemma prompt_instant t0 s s' : Prompt t0 s -> clock s' = clock s ->
  (forall e, In e (timers s') -> In e (timers s)) ->
  (t0 < clock s -> forall i, In i (resolving s') -> direct s' i) ->
  (t0 + batchingDelayMs < clock s -> resolving s' = []) -> Prompt t0 s'.
Proof.
  intros HP Hc Ht Hd Ho. split; rewrite ?Hc; [apply HP | | done |].
  - intros e He. by apply (prompt_due _ _ HP), Ht.
  - intros Hlt. split; [|by apply Ho]. destruct (prompt_over _ _ HP Hlt) as [Ht0 _].
    destruct (timers s') as [|e l] eqn:E; [done|]. specialize (Ht e). rewrite Ht0 in Ht.
    destruct Ht. by left.
Qed.

Lemma prompt_resume t0 id s : Inv [] s -> Prompt t0 s -> In id (resolving s) ->
  Prompt t0 (resume id s).
Proof.
  intros HI HP Hin.
  assert (Hover : ~ t0 + batchingDelayMs < clock s).
  { intros [_ Hr]%(prompt_over _ _ HP). by rewrite Hr in Hin. }
  destruct (inv_queue _ s HI id) as [p Hp]; [apply in_app_iff; by left|].
  unfold resume. cbn [promises _multicall with_pending]. rewrite Hp.
  destruct (_multicall s) as [m|] eqn:Em;
    [|by apply (inv_batching _ s HI) in Em as [_ Hr]; rewrite Hr in Hin].
  destruct (sentAlone m _ _ _) eqn:Ealone.
  - apply (prompt_instant t0 s); [done..| |done]. cbn. intros Hlt i [Hi _]%in_remove_id.
    destruct (prompt_direct _ _ HP Hlt i Hi) as (q & m' & H). by exists q, m'.
  - assert (Hnow : clock s = t0).
    { pose proof (prompt_start _ _ HP). destruct (decide (t0 < clock s)) as [Hlt|]; [|lia].
      destruct (prompt_direct _ _ HP Hlt id Hin) as (q & m' & Hq & Hm & Hd). simplify_eq.
      unfold sentAlone in Ealone. by rewrite Hd in Ealone. }
    match goal with |- Prompt _ (_enqueueCall ?c id ?s2) =>
      assert (Hs : clock (_enqueueCall c id s2) = clock s /\
        timers (_enqueueCall c id s2) = timers (clearTimeout (_timeoutId s2) s2) ++
          [(fresh s2, clock s + batchingDelayMs)] /\
        timers (clearTimeout (_timeoutId s2) s2) = timers (clearTimeout (_timeoutId s) s)) end.
    { unfold _enqueueCall. destruct (Nat.eqb _ 0); cbn [_timeoutId with_batch with_counts with_pending];
        by destruct (_timeoutId s). }
    destruct Hs as (Hc & Ht & Hs). rewrite Hs, (clear_timers s (inv_timed _ s HI)) in Ht.
    split; rewrite ?Hc, ?Ht; [lia | | lia | lia]. intros e [<-|[]]. cbn. lia.
Qed.

(** What a dispatch leaves to resolve is awaited. *)
Lemma dispatch_resolving s i : let s' := _dispatchCalls s in
  In i (resolving s') -> In i (resolving s) \/ exists a, In (i, a) (awaited s').
Proof.
  unfold _dispatchCalls. destruct (calls (_batched s)) as [|c [|c' cs]]; [by left | by left |].
  cbn [_multicall with_batch]. destruct (_multicall s) as [m|] eqn:Em; [|by left].
  unfold call. cbn [newPromise]. change (_multicall (with_promises _ _ _)) with (_multicall s).
  rewrite Em. unfold checkRatio. cbn -[multicallAddress].
  destruct (_timeOfLastRatioCheck s); [destruct (_ && _)|];
    cbn -[multicallAddress]; intros [Hi|[<-|[]]]%in_app_iff; (by left) || (right; eexists;
      apply in_app_iff; right; by left).
Qed.

Lemma dispatch_kept s : clock (_dispatchCalls s) = clock s /\ timers (_dispatchCalls s) = timers s /\
  _multicall (_dispatchCalls s) = _multicall s.
Proof.
  unfold _dispatchCalls. destruct (calls (_batched s)) as [|c [|c' cs]]; [done | done |].
  cbn [_multicall with_batch]. destruct (_multicall s) as [m|] eqn:Em; [|done].
  unfold call. cbn [newPromise]. change (_multicall (with_promises _ _ _)) with (_multicall s).
  rewrite Em. unfold checkRatio. cbn -[multicallAddress].
  destruct (_timeOfLastRatioCheck s); [destruct (_ && _)|]; done.
Qed.

Lemma dispatch_grows s : Inv [] s ->
  grows (promises s) (promises (_dispatchCalls (with_timers (_timeoutId s) [] s))).
Proof.
  intros HI. pose proof (empty_inv s HI) as He. unfold _dispatchCalls. cbn [_batched with_timers].
  set (s0 := with_batch emptyBatch _) in *. change (_multicall s0) with (_multicall s).
  destruct (calls (_batched s)) as [|c [|c' cs]]; [apply grows_refl| |].
  - pose proof (newPromise_inv _ (plain c) (batch_blockTag (_batched s)) s0 He) as (_ & _ & Hg & _).
    exact Hg.
  - destruct (_multicall s) as [m|]; [|apply grows_settles].
    pose proof (call_inv _ (aggregateRequest m (c :: c' :: cs)) (batch_blockTag (_batched s)) s0 He)
      as Hn.
    destruct (call _ _ s0) as [id s1]. destruct Hn as (_ & _ & _ & Hg & _). exact Hg.
Qed.

Lemma prompt_dispatch t0 s : Inv [] s -> Prompt t0 s -> timers s <> [] ->
  Prompt t0 (_dispatchCalls (with_timers (_timeoutId s) [] s)).
Proof.
  intros HI HP Hne. pose proof (dispatch_inv s HI) as HI'. pose proof (dispatch_grows s HI) as Hg.
  pose proof (dispatch_resolving (with_timers (_timeoutId s) [] s)) as Hr.
  destruct (dispatch_kept (with_timers (_timeoutId s) [] s)) as (Hc & Ht & Hm).
  set (s' := _dispatchCalls _) in *. apply (prompt_instant t0 s); [done | exact Hc | by rewrite Ht | |].
  - intros Hlt i Hi. destruct (Hr i Hi) as [Hin|[[ids b] Ha]].
    + apply (direct_grows s); [exact Hg | exact Hm |]. by apply (prompt_direct _ _ HP Hlt).
    + by apply (inv_direct _ s' HI' i ids b).
  - by intros [? _]%(prompt_over _ _ HP).
Qed.

Lemma prompt_answer t0 id s : Inv [] s -> Prompt t0 s -> In id (inFlight s) ->
  Prompt t0 (answer id s).
Proof.
  intros HI HP Hin. destruct (inv_queue _ s HI id) as [p Hp]; [apply in_app_iff; by right|].
  rewrite (answer_eq id s p Hp). apply (prompt_instant t0 s); [done..| |].
  - intros Hlt i Hi. apply (direct_grows s); [apply grows_settles | done |].
    by apply (prompt_direct _ _ HP Hlt).
  - by intros [_ ?]%(prompt_over _ _ HP).
Qed.

Lemma prompt_tick t0 ms s : Prompt t0 s -> 0 <= ms -> punctual (Tick ms) s = true ->
  Prompt t0 (with_clock (clock s + ms) s).
Proof.
  intros HP Hms. cbn [punctual]. intros [Hz%Z.leb_le|[Hr Hf]%andb_true_iff]%orb_true_iff.
  { replace (clock s + ms) with (clock s) by lia. by destruct s. }
  apply Nat.eqb_eq, nil_length_inv in Hr. rewrite forallb_forall in Hf.
  pose proof (prompt_start _ _ HP). split; cbn; [lia | apply HP | by rewrite Hr |].
  intros Hlt. split; [|done]. destruct (timers s) as [|e l] eqn:E; [done|].
  pose proof (prompt_due _ _ HP e) as Hd. rewrite E in Hd. specialize (Hd (or_introl eq_refl)).
  specialize (Hf e (or_introl eq_refl)). apply Z.leb_le in Hf. lia.
Qed.

Lemma prompt_step t0 e s s' : Inv [] s -> Prompt t0 s -> quiet e = true -> punctual e s = true ->
  step e s = Some s' -> Prompt t0 s'.
Proof.
  intros HI HP Hq Hpt. destruct e; try done; cbn [step].
  - destruct (member id _) eqn:E; [|done]. intros [= <-]. apply prompt_resume; [done..|].
    by apply member_In.
  - destruct (0 <=? ms) eqn:E; [|done]. intros [= <-]. apply Z.leb_le in E. by apply prompt_tick.
  - destruct (existsb _ _) eqn:E; [|done]. intros [= <-].
    destruct (fire_timers timer s (inv_timed _ s HI) E) as [-> _]. apply prompt_dispatch; [done..|].
    by intros Ht; rewrite Ht in E.
  - destruct (member id _) eqn:E; [|done]. intros [= <-]. apply prompt_answer; [done..|].
    by apply member_In.
Qed.

Lemma prompt_run es t0 s s' : Inv [] s -> Prompt t0 s -> forallb quiet es = true ->
  punctualRun es s = true -> run es s = Some s' -> Prompt t0 s'.
Proof.
  revert s. induction es as [|e es IH]; cbn [run forallb punctualRun]; intros s HI HP.
  { by intros _ _ [= <-]. }
  intros [Hq Hqs]%andb_true_iff [Hpt Hpts]%andb_true_iff. destruct (step e s) as [s1|] eqn:E; [|done].
  apply IH; [by eapply step_inv | by eapply prompt_step | done..].
Qed.

(** Once the batching delay is over, what is pending waits for the provider below. *)
Lemma sent_off t0 s id p : Inv [] s -> Prompt t0 s -> t0 + batchingDelayMs < clock s ->
  promises s !! id = Some p -> outcome p = None ->
  In id (inFlight s) \/
  exists inner ids b, In (inner, (ids, b)) (awaited s) /\ In id ids /\ In inner (inFlight s).
Proof.
  intros HI HP Hlt Hp Ho. destruct (prompt_over _ _ HP Hlt) as [Ht Hr].
  pose proof (inv_timed _ s HI) as Hc. unfold timed in Hc. rewrite Ht in Hc.
  pose proof (inv_batch _ s HI) as Hb. rewrite Hc in Hb. apply Forall2_nil_inv_l in Hb.
  pose proof (inv_located _ s HI id p Hp Ho) as Hl. unfold queue in Hl.
  rewrite Hr, Hb, app_nil_r, !in_app_iff in Hl. destruct Hl as [ [[]|Hl]|[[]|Hl] ]; [by left|right].
  apply in_concat in Hl. destruct Hl as (l & ([inner [ids b]] & <- & Ha)%in_map_iff & Hi).
  exists inner, ids, b. split; [done|]. split; [done|].
  destruct (inv_awaited _ s HI _ _ _ Ha) as [Hq _]. unfold queue in Hq. by rewrite Hr in Hq.
Qed.

End Facts.
End BatchedFacts.
Import BatchedFacts.

(** ** The properties *)
Module BatchedProperties.
Section Properties.
Context {NW : Network} {NE : MulticallEncoding NW}.

(** All that callers ask for is read-only: of the requests made, those that may be batched leave
    the state of the chain as it was. *)
Definition reads {NL : MulticallLaws NW} (s : t) : Prop :=
  forall id p, promises s !! id = Some p -> batchableCall (request p) = true ->
    readOnly (callOf (request p)) = true.

(** A request whose answer does not depend on who sends it. *)
Definition senderless (r : ResolvedTransactionRequest) : Prop :=
  forall sender tag, superCall (sentBy sender (callOf r)) tag = superCall r tag.

Lemma superCall_tagOr {NL : MulticallLaws NW} r tag : superCall r tag = superCall r (Some (tagOr tag)).
Proof. destruct tag; [done | apply latest_default]. Qed.

Lemma superCall_sameTag {NL : MulticallLaws NW} r tag tag' : tagOr tag = tagOr tag' ->
  superCall r tag = superCall r tag'.
Proof. intros H. by rewrite (superCall_tagOr r tag), H, <- superCall_tagOr. Qed.

Lemma answered_reads {NL : MulticallLaws NW} s p v : reads s ->
  answered (promises s) (request p) (requestTag p) v ->
  exists w, v = Some w /\
    (superCall (request p) (requestTag p) = Ok w \/
     batchableCall (request p) = true /\
     exists sender, In sender (None :: map Some (map snd multicallAddress)) /\
       superCall (sentBy sender (callOf (request p))) (requestTag p) = Ok w).
Proof.
  intros Hreads [(w & -> & Hw)|(Hb & tag' & Ht & H)]; [exists w; tauto|].
  destruct H as [(w & -> & Hw)|(a & cs & ids & raw & l & i & Ha & Hwait & Hraw & Hl & Hi & ->)].
  { exists w. split; [done|]. right. split; [done|]. exists None. split; [by left|].
    by rewrite (superCall_sameTag _ _ tag'). }
  assert (Hro : forallb readOnly cs = true).
  { apply forallb_forall. intros c Hc. apply list_elem_of_In, list_elem_of_lookup in Hc as [j Hj].
    destruct (Forall2_lookup_l _ _ _ _ _ Hwait Hj) as (id & _ & (q & Hq & -> & Hbq & _)).
    by eapply Hreads. }
  destruct (aggregate_answers a cs tag' raw Ha Hro Hraw) as (l' & Hl' & Hans).
  rewrite Hl in Hl'. apply Ok_inj in Hl' as <-.
  destruct (Forall2_lookup_l _ _ _ _ _ Hans Hi) as (w & Hw & Hcall).
  exists w. split; [done|]. right. split; [done|]. exists (Some a). split.
  - right. by apply in_map.
  - by rewrite (superCall_sameTag _ _ tag').
Qed.

(** C8: a call through the batching provider, batched or not, gives what the provider below gives
    at the same block to the same request or, for a batchable one, to the same call without its
    sender (or with the Multicall contract as its sender): a promise that is fulfilled has such an
    answer (none is missing).  So when the answer does not depend on the sender, it is the answer to
    the very request made.  What callers ask for is taken to be read-only, as a call in a batch
    runs after the calls before it. *)
Theorem batched_call_equals_call {NL : MulticallLaws NW} s id p o :
  Reachable s -> reads s -> promises s !! id = Some p -> outcome p = Some o ->
  match o with
  | Ok v => exists w, v = Some w /\
      (superCall (request p) (requestTag p) = Ok w \/
       batchableCall (request p) = true /\
       exists sender, In sender (None :: map Some (map snd multicallAddress)) /\
         superCall (sentBy sender (callOf (request p))) (requestTag p) = Ok w) /\
      (senderless (request p) -> superCall (request p) (requestTag p) = Ok w)
  | Throw _ => True
  end.
Proof.
  intros HR Hreads Hp Ho. apply reachable_inv in HR. destruct o as [v|]; [|done].
  destruct (answered_reads s p v Hreads (inv_honest _ s HR id p v Hp Ho)) as (w & -> & Hw).
  exists w. split; [done|]. split; [done|]. intros Hs.
  destruct Hw as [Hw|(_ & sender & _ & Hw)]; [done|]. by rewrite <- (Hs sender).
Qed.

(** C9: every call is settled.  However the events follow one another after the last request, they
    are at most [weight s] many; as long as a promise is pending there is one that can come within
    [batchingDelayMs]; and when the host is punctual and more than [batchingDelayMs] have passed
    since, nothing waits in a batch: each pending promise is one whose request is on its way to the
    provider below, or waits for one that is. *)
Theorem every_call_settles s es s' :
  Reachable s -> forallb quiet es = true -> run es s = Some s' ->
  (length (List.filter turn es) <= weight s)%nat /\
  (allSettled s' \/
   exists ms e s'', 0 <= ms <= batchingDelayMs /\ turn e = true /\ run [Tick ms; e] s' = Some s'') /\
  (punctualRun es s = true -> clock s + batchingDelayMs < clock s' ->
   forall id p, promises s' !! id = Some p -> outcome p = None ->
     In id (inFlight s') \/
     exists inner ids b, In (inner, (ids, b)) (awaited s') /\ In id ids /\ In inner (inFlight s')).
Proof.
  intros HR Hq Hrun. apply reachable_inv in HR. pose proof (run_inv es s s' HR Hrun) as HI.
  split; [|split].
  - pose proof (run_weight es s s' HR Hq Hrun). lia.
  - destruct (settled_dec s') as [|(id & p & Hp & Ho)]; [by left|]. right. by eapply progress.
  - intros Hpt Hlate id p Hp Ho.
    pose proof (prompt_run es _ s s' HR (prompt_init s HR) Hq Hpt Hrun) as HP.
    by apply (sent_off (clock s) s' id p).
Qed.

(** A batch never mixes blocks or callers: the calls of the batch are, in order, those of the
    promises that wait for it, all of them batchable and for its block; a timer runs just when
    there are any, for [batchingDelayMs] at most, and it is the one [_timeoutId] names. *)
Theorem batch_consistent s :
  Reachable s ->
  let b := _batched s in
  Forall2 (waiting (promises s) (batch_blockTag b)) (calls b) (callbacks b) /\
  (calls b = [] /\ timers s = [] \/
   calls b <> [] /\ exists timer due, timers s = [(timer, due)] /\ _timeoutId s = Some timer /\
     due <= clock s + batchingDelayMs).
Proof.
  intros HR b. apply reachable_inv in HR. split; [apply (inv_batch _ s HR)|].
  pose proof (inv_timed _ s HR) as Ht. unfold timed in Ht.
  destruct (timers s) as [|[tm due] [|]]; [by left| |done].
  right. destruct Ht as (? & ? & ?). split; [done|]. by exists tm, due.
Qed.

End Properties.
End BatchedProperties.

(** ** A network *)
Module BatchedRuns.
Import BatchedProperties.

(** A call of the recipient "one" is answered "1", one of the recipient "who" according to its
    sender ("m" for the Multicall contract, "0" for none, "a" for any other), any other "2"; an
    [aggregate] is encoded as the list of the answers, with "x" for a call that is an [aggregate]
    itself; nothing is answered for the block "pending".  A call with the data "0x02" is not
    read-only. *)
Definition isAggregate (r : ResolvedTransactionRequest) : bool :=
  match to r with
  | Some a => existsb (String.eqb a) (map snd multicallAddress) && batchedCall r a
  | None => false
  end.
Definition whois (sender : option string) : ascii :=
  match sender with
  | None => "0"%char
  | Some a => if existsb (String.eqb a) (map snd multicallAddress) then "m"%char else "a"%char
  end.
Definition classify (sender : option string) (c : CallRequest) : ascii :=
  if isAggregate (plain c) then "x"%char
  else match target c with
       | Some a => if String.eqb a "one" then "1"%char
                   else if String.eqb a "who" then whois sender else "2"%char
       | None => "2"%char
       end.
Definition classifyAll (cs : list CallRequest) : list ascii :=
  map (classify (multicallOf 1)) cs.
Definition chars : list ascii -> string := foldr String "".
Fixpoint unchars (s : string) : list ascii :=
  match s with EmptyString => [] | String c s' => c :: unchars s' end.
Definition payload (r : ResolvedTransactionRequest) : list ascii :=
  match data r with Some (Hex s) => drop 10 (unchars s) | _ => [] end.

#[global] Instance TestNetwork : Network := {
  superCall r tag :=
    if bool_decide (tag = Some (TagName "pending")) then Throw "no pending block"
    else if isAggregate r then
      if existsb (Ascii.eqb "x") (payload r) then Throw "reverted" else Ok (chars (payload r))
    else Ok (String (classify (BatchedProvider.from r) (callOf r)) "");
  encodeAggregate cs := "0x252dba42" +:+ chars (classifyAll cs);
  decodeAggregate raw := Ok (map (fun c => String c "") (unchars raw));
  isAddress a := String.eqb a "one";
  encodeGetEthBalance a := "0x4d2301cc" +:+ a;
}.

Lemma unchars_chars l : unchars (chars l) = l.
Proof. induction l as [|c l IH]; cbn; by rewrite ?IH. Qed.

Lemma whois_multicall m : In m (map snd multicallAddress) -> whois (Some m) = "m"%char.
Proof.
  intros Hm. unfold whois. assert (existsb (String.eqb m) (map snd multicallAddress) = true) as ->;
    [|done]. apply existsb_exists. exists m. by rewrite String.eqb_refl.
Qed.

Lemma answers_ordinary m cs tag : In m (map snd multicallAddress) ->
  tag <> Some (TagName "pending") ->
  existsb (Ascii.eqb "x") (classifyAll cs) = false ->
  Forall2 (fun c w => superCall (sentBy (Some m) c) tag = Ok w) cs
    (map (fun c => String c "") (classifyAll cs)).
Proof.
  intros Hm Ht. unfold classifyAll. induction cs as [|c cs IH]; [constructor|]. cbn [map existsb].
  intros [Hc Hcs]%orb_false_iff. constructor; [|by apply IH].
  cbn [superCall TestNetwork]. rewrite bool_decide_eq_false_2 by done.
  change (callOf (sentBy (Some m) c)) with (mkCall (target c) (callData c)).
  replace (mkCall (target c) (callData c)) with c by (by destruct c).
  change (isAggregate (sentBy (Some m) c)) with (isAggregate (plain c)).
  change (BatchedProvider.from (sentBy (Some m) c)) with (Some m).
  unfold classify in *. destruct (isAggregate (plain c)); [done|].
  destruct (target c) as [a|]; [|done]. destruct (String.eqb a "one"); [done|].
  destruct (String.eqb a "who"); [|done]. by rewrite whois_multicall.
Qed.

Lemma encode_selector cs : String.prefix "0x252dba42" ("0x252dba42" +:+ chars (classifyAll cs)) = true.
Proof. cbn. by destruct (chars _). Qed.

#[global] Instance TestEncoding : MulticallEncoding TestNetwork.
Proof. split. exact encode_selector. Qed.

Lemma test_aggregate m cs tag raw : In m (map snd multicallAddress) ->
  superCall (aggregateRequest m cs) tag = Ok raw ->
  exists l, decodeAggregate raw = Ok l /\
    Forall2 (fun c w => superCall (sentBy (Some m) c) tag = Ok w) cs l.
Proof.
  intros Hm Hraw. cbn [superCall TestNetwork] in Hraw.
  destruct (decide (tag = Some (TagName "pending"))) as [|Ht];
    [by rewrite bool_decide_eq_true_2 in Hraw|].
  rewrite bool_decide_eq_false_2 in Hraw by done.
  assert (Ha : isAggregate (aggregateRequest m cs) = true).
  { unfold isAggregate, batchedCall, aggregateRequest. cbn [to data encodeAggregate TestNetwork].
    rewrite String.eqb_refl, encode_selector. cbn [andb]. rewrite andb_true_r. apply existsb_exists. exists m.
    by rewrite String.eqb_refl. }
  rewrite Ha in Hraw.
  replace (payload (aggregateRequest m cs)) with (classifyAll cs) in Hraw
    by (cbn; by rewrite unchars_chars).
  destruct (existsb _ _) eqn:Ex; [done|]. apply Ok_inj in Hraw. subst raw. eexists.
  split; [reflexivity|]. rewrite unchars_chars. by apply answers_ordinary.
Qed.

#[global] Instance TestLaws : MulticallLaws TestNetwork := {
  readOnly c := match callData c with Some (Hex d) => negb (String.eqb d "0x02") | _ => true end;
  latest_default r := eq_refl;
  aggregate_answers m cs tag raw Hm _ := test_aggregate m cs tag raw Hm;
}.

(** Two calls are batched, a third is for another block. *)
Definition ask (a : string) : ResolvedTransactionRequest :=
  mkRequest (Some a) None None None None (Some (Hex "0x01")) None None.
Definition requests : list Event :=
  [SetChainId 1; Call (ask "one") None; Call (ask "two") (Some (TagName "latest"));
   Call (ask "one") (Some (TagNumber 7)); Resume 0; Tick 5; Resume 1; Resume 2].
Definition replies : list Event := [Answer 2; Tick 10; Fire 4; Resume 5; Answer 5].
Definition asked : t := default (init 0) (run requests (init 0)).
Definition replied : t := default (init 0) (run replies asked).

Lemma asked_run : run requests (init 0) = Some asked.
Proof. vm_compute. reflexivity. Qed.
Lemma replied_run : run replies asked = Some replied.
Proof. vm_compute. reflexivity. Qed.
Lemma asked_reachable : Reachable asked.
Proof. exists 0, requests. apply asked_run. Qed.
Lemma run_app es es' s : run (es ++ es') s = match run es s with Some s' => run es' s' | None => None end.
Proof. revert s. induction es as [|e es IH]; intros s; cbn; [done|]. destruct (step e s); [apply IH | done]. Qed.
Lemma replied_reachable : Reachable replied.
Proof. exists 0, (requests ++ replies). rewrite run_app, asked_run. apply replied_run. Qed.

Lemma replied_reads : reads replied.
Proof.
  assert (map_Forall (fun (_ : N) p => readOnly (callOf (request p)) = true) (promises replied)) as H.
  { eapply bool_decide_eq_true_1. vm_compute. reflexivity. }
  intros id p Hp _. exact (H id p Hp).
Qed.

Lemma batched_call_equals_call_witness :
  exists p, promises replied !! 1%N = Some p /\ outcome p = Some (Ok (Some "2")) /\
  superCall (request p) (requestTag p) = Ok "2".
Proof.
  destruct (promises replied !! 1%N) as [p|] eqn:Hp; [|vm_compute in Hp; discriminate Hp].
  assert (Hr : request p = ask "two" /\ outcome p = Some (Ok (Some "2"))).
  { vm_compute in Hp. apply (inj Some) in Hp. subst p. split; reflexivity. }
  destruct Hr as [Hr Ho]. exists p. split; [reflexivity|]. split; [exact Ho|].
  destruct (batched_call_equals_call replied 1%N p (Ok (Some "2")) replied_reachable replied_reads
    Hp Ho) as (w & Hw & _ & Hs).
  apply (inj Some) in Hw. subst w. apply Hs. rewrite Hr. intros sender tag. reflexivity.
Defined.

(** Why the sender must not matter: a call that names its sender is batched all the same, so one
    that asks who sends it is answered for the Multicall contract. *)
Definition asAlice : ResolvedTransactionRequest :=
  mkRequest (Some "who") (Some "alice") None None None (Some (Hex "0x01")) None None.
Definition mixed : list Event :=
  [SetChainId 1; Call asAlice None; Call (ask "two") None; Resume 0; Resume 1; Tick 10; Fire 3;
   Resume 4; Answer 4].

Lemma sender_replaced :
  exists s p, Reachable s /\ reads s /\ promises s !! 0%N = Some p /\ request p = asAlice /\
    outcome p = Some (Ok (Some "m")) /\ superCall asAlice (requestTag p) = Ok "a".
Proof.
  destruct (run mixed (init 0)) as [s|] eqn:Hs; [|vm_compute in Hs; discriminate Hs].
  exists s. vm_compute in Hs. apply (inj Some) in Hs.
  destruct (promises s !! 0%N) as [p|] eqn:Hp; [|subst s; vm_compute in Hp; discriminate Hp].
  exists p. split; [|split; [|split; [done|]]].
  - exists 0, mixed. subst s. vm_compute. reflexivity.
  - assert (map_Forall (fun (_ : N) p => readOnly (callOf (request p)) = true) (promises s)) as H.
    { eapply bool_decide_eq_true_1. subst s. vm_compute. reflexivity. }
    intros id q Hq _. exact (H id q Hq).
  - subst s. vm_compute in Hp. apply (inj Some) in Hp. subst p. repeat split.
Qed.

Lemma every_call_settles_witness :
  (length (List.filter turn replies) <= weight asked)%nat /\ weight asked = 7%nat /\
  (allSettled replied \/ exists ms e s'', 0 <= ms <= batchingDelayMs /\ turn e = true /\
    run [Tick ms; e] replied = Some s'') /\
  exists late, run [Answer 2; Tick 10; Fire 4; Resume 5; Tick 90] asked = Some late /\
    forall id p, promises late !! id = Some p -> outcome p = None ->
      In id (inFlight late) \/
      exists inner ids b, In (inner, (ids, b)) (awaited late) /\ In id ids /\
        In inner (inFlight late).
Proof.
  destruct (every_call_settles asked replies replied asked_reachable eq_refl replied_run)
    as (H1 & H2 & _).
  split; [exact H1|]. split; [vm_compute; reflexivity|]. split; [exact H2|].
  destruct (run [Answer 2; Tick 10; Fire 4; Resume 5; Tick 90] asked) as [late|] eqn:Hl;
    [|vm_compute in Hl; discriminate Hl].
  exists late. split; [reflexivity|].
  refine (proj2 (proj2 (every_call_settles asked _ late asked_reachable _ Hl)) _ _).
  - reflexivity.
  - vm_compute. reflexivity.
  - vm_compute in Hl. apply (inj Some) in Hl. subst late. vm_compute. reflexivity.
Defined.

Lemma batch_consistent_witness :
  length (calls (_batched asked)) = 2%nat /\
  Forall2 (waiting (promises asked) (batch_blockTag (_batched asked)))
    (calls (_batched asked)) (callbacks (_batched asked)).
Proof.
  split; [vm_compute; reflexivity|]. exact (proj1 (batch_consistent asked asked_reachable)).
Defined.

End BatchedRuns.
