(* ===== verification/Readable.v ===== *)
(** * Reading the protocol: [src/packages/lib-ethers/src/ReadableEthersLiquity.ts]

    The getters that put the SDK's values together from the view functions of the contracts, and
    the getter that lists Troves by collateral ratio.  The contracts, and the parts of the Ethers
    library that are asked directly, are the class [Chain]: a block tag selects the state they
    answer from.  Reads do not change anything, so a promise is a [Res]. *)

From S2P Require Import Prelude BigNumber Decimals Troves Fees Deposits.
From S2P Require Import BatchedProvider Populatable.
Import Contracts.

Local Open Scope Z_scope.

(** [EthersCallOverrides] *)
Record CallOverrides : Type := mkCallOverrides { blockTag : option BatchedProvider.BlockTag }.

Definition noCallOverrides : CallOverrides := mkCallOverrides None.

(** [{ ...overrides }] *)
Definition spreadOverrides (o : option CallOverrides) : CallOverrides := default noCallOverrides o.

(** A Trove as [troveManager.Troves] answers it. *)
Record BackendTrove : Type := mkBackendTrove {
  debt : Z;
  coll : Z;
  stake : Z;
  status : Z;
}.

(** A Trove as [multiTroveGetter] answers it. *)
Record CombinedTroveData : Type := mkCombined {
  combined_owner : string;
  combined_debt : Z;
  combined_coll : Z;
  combined_stake : Z;
  snapshotCollateral : Z;
  snapshotTHUSDDebt : Z;
}.

(** The view functions, by contract. *)
Class Chain : Type := {
  troveManager_L_Collateral : CallOverrides -> Res Z;
  troveManager_L_THUSDDebt : CallOverrides -> Res Z;
  troveManager_Troves : string -> CallOverrides -> Res BackendTrove;
  troveManager_rewardSnapshots : string -> CallOverrides -> Res (Z * Z);
  troveManager_getTroveOwnersCount : CallOverrides -> Res Z;
  troveManager_lastFeeOperationTime : CallOverrides -> Res Z;
  troveManager_baseRate : CallOverrides -> Res Z;
  troveManager_thusdToken : CallOverrides -> Res string;
  priceFeed_fetchPrice : CallOverrides -> Res Z;
  priceFeed_getMarketPrice : CallOverrides -> Res Z;
  priceFeed_redemptionRate : CallOverrides -> Res Z;
  priceFeed_deviationFactor : CallOverrides -> Res Z;
  activePool_getCollateralBalance : CallOverrides -> Res Z;
  activePool_getTHUSDDebt : CallOverrides -> Res Z;
  defaultPool_getCollateralBalance : CallOverrides -> Res Z;
  defaultPool_getTHUSDDebt : CallOverrides -> Res Z;
  stabilityPool_deposits : string -> CallOverrides -> Res Z;
  stabilityPool_getCompoundedTHUSDDeposit : string -> CallOverrides -> Res Z;
  stabilityPool_getDepositorCollateralGain : string -> CallOverrides -> Res Z;
  stabilityPool_getTotalTHUSDDeposits : CallOverrides -> Res Z;
  bamm_total : CallOverrides -> Res Z;
  bamm_stake : string -> CallOverrides -> Res Z;
  thusdToken_balanceOf : string -> CallOverrides -> Res Z;
  thusdToken_allowance : string -> string -> CallOverrides -> Res Z;
  thusdToken_isStabilityPools : string -> CallOverrides -> Res bool;
  thusdToken_isBorrowerOperations : string -> CallOverrides -> Res bool;
  thusdToken_isTroveManager : string -> CallOverrides -> Res bool;
  thusdToken_mintList : string -> CallOverrides -> Res bool;
  borrowerOperations_collateralAddress : CallOverrides -> Res string;
  erc20_symbol : CallOverrides -> Res string;
  erc20_balanceOf : string -> CallOverrides -> Res Z;
  erc20_allowance : string -> string -> CallOverrides -> Res Z;
  collSurplusPool_getCollateral : string -> CallOverrides -> Res Z;
  getMultipleSortedTroves : Z -> Z -> CallOverrides -> Res (list CombinedTroveData);
  addressOf : string -> string;
  provider_getBalance : string -> option BatchedProvider.BlockTag -> Res Z;
  provider_getBlockTimestamp : BatchedProvider.BlockTag -> Res Z;
  multicall_getCurrentBlockTimestamp : option (CallOverrides -> Res Z);
  connection_userAddress : option string;
}.

Record TroveListingParams : Type := mkListing {
  first : JsNumber;
  sortedBy : string;
  startingAt : option JsNumber;
  beforeRedistribution : option bool;
}.

Module Readable.

Definition ZERO_ADDRESS : string := "0x" +:+ Js.repeat "0" 40.

Definition ascendingCollateralRatio : string := "ascendingCollateralRatio".
Definition descendingCollateralRatio : string := "descendingCollateralRatio".
Definition validSortingOptions : list string :=
  [ascendingCollateralRatio; descendingCollateralRatio].

(** [BackendTroveStatus] *)
Definition nonExistent : Z := 0.
Definition active : Z := 1.
Definition closedByOwner : Z := 2.
Definition closedByLiquidation : Z := 3.
Definition closedByRedemption : Z := 4.

Definition userTroveStatusFrom (backendStatus : Z) : Res UserTrove.UserTroveStatus :=
  if backendStatus =? nonExistent then Ok UserTrove.nonExistent
  else if backendStatus =? active then Ok UserTrove.open
  else if backendStatus =? closedByOwner then Ok UserTrove.closedByOwner
  else if backendStatus =? closedByLiquidation then Ok UserTrove.closedByLiquidation
  else if backendStatus =? closedByRedemption then Ok UserTrove.closedByRedemption
  else Throw ("invalid backendStatus " +:+ Js.dec_string backendStatus).

(** A [Date] is its [getTime()]. *)
Definition convertToDate (timestamp : Z) : Z := timestamp * 1000.

Definition expectPositiveInt (value : option JsNumber) (key : string) : Res unit :=
  match value with
  | None => Ok tt
  | Some (JInt z) => if z <? 0 then Throw (key +:+ " must not be negative") else Ok tt
  | Some _ => Throw (key +:+ " must be an integer")
  end.

Section Getters.
Context {BN : BigNumberOps} {C : Chain}.

Definition MINUTE_DECAY_FACTOR : Decimal.t :=
  static_init (Decimal.mk 0) (Decimal.from (Decimal.ofString "0.999037758833783000")).
Definition BETA : Decimal.t := static_init (Decimal.mk 0) (Decimal.from (Decimal.ofNumber "2")).

Definition requireAddress (address : option string) : Res string :=
  match address with
  | Some a => Ok a
  | None => match connection_userAddress with
            | Some a => Ok a
            | None => Throw "A user address is required"
            end
  end.

(** [.then(decimalify)] *)
Definition decimal (r : Res Z) : Res Decimal.t := let! z := r in decimalify z.

Definition getTotalRedistributed (overrides : option CallOverrides) : Res Trove.t :=
  let! collateral := decimal (troveManager_L_Collateral (spreadOverrides overrides)) in
  let! debt := decimal (troveManager_L_THUSDDebt (spreadOverrides overrides)) in
  Ok (Trove.mk collateral debt).

Definition getTroveBeforeRedistribution (address : option string)
    (overrides : option CallOverrides) : Res TroveWithPendingRedistribution.t :=
  let! address := requireAddress address in
  let! trove := troveManager_Troves address (spreadOverrides overrides) in
  let! snapshot := troveManager_rewardSnapshots address (spreadOverrides overrides) in
  let! userStatus := userTroveStatusFrom (status trove) in
  if status trove =? active then
    let! collateral := decimalify (coll trove) in
    let! debt := decimalify (debt trove) in
    let! stake := decimalify (stake trove) in
    let! snapshotCollateral := decimalify (fst snapshot) in
    let! snapshotDebt := decimalify (snd snapshot) in
    Ok (TroveWithPendingRedistribution.new address userStatus (Some collateral) (Some debt)
          (Some stake) (Some (Trove.mk snapshotCollateral snapshotDebt)))
  else Ok (TroveWithPendingRedistribution.new address userStatus None None None None).

Definition getTrove (address : option string) (overrides : option CallOverrides) :
    Res UserTrove.t :=
  let! trove := getTroveBeforeRedistribution address overrides in
  let! totalRedistributed := getTotalRedistributed overrides in
  TroveWithPendingRedistribution.applyRedistribution trove totalRedistributed.

Definition getNumberOfTroves (overrides : option CallOverrides) : Res Z :=
  let! n := troveManager_getTroveOwnersCount (spreadOverrides overrides) in bn_toNumber n.

Definition getPrice (overrides : option CallOverrides) : Res Decimal.t :=
  decimal (priceFeed_fetchPrice (spreadOverrides overrides)).

(** [.catch(() => Decimal.ZERO)] *)
Definition getMarketPrice (overrides : option CallOverrides) : Res Decimal.t :=
  match decimal (priceFeed_getMarketPrice (spreadOverrides overrides)) with
  | Ok d => Ok d
  | Throw _ => Ok Decimal.ZERO
  end.

Definition getRedemptionRate (overrides : option CallOverrides) : Res Decimal.t :=
  let! d := decimal (priceFeed_redemptionRate (spreadOverrides overrides)) in
  Decimal.div d (Decimal.ofNumber "1000000000").

Definition getDeviationFactor (overrides : option CallOverrides) : Res Decimal.t :=
  let! d := decimal (priceFeed_deviationFactor (spreadOverrides overrides)) in
  Decimal.div d (Decimal.ofNumber "1000000000").

Definition _getActivePool (overrides : option CallOverrides) : Res Trove.t :=
  let! activeCollateral := decimal (activePool_getCollateralBalance (spreadOverrides overrides)) in
  let! activeDebt := decimal (activePool_getTHUSDDebt (spreadOverrides overrides)) in
  Ok (Trove.mk activeCollateral activeDebt).

Definition _getDefaultPool (overrides : option CallOverrides) : Res Trove.t :=
  let! liquidatedCollateral :=
    decimal (defaultPool_getCollateralBalance (spreadOverrides overrides)) in
  let! closedDebt := decimal (defaultPool_getTHUSDDebt (spreadOverrides overrides)) in
  Ok (Trove.mk liquidatedCollateral closedDebt).

Definition getTotal (overrides : option CallOverrides) : Res Trove.t :=
  let! activePool := _getActivePool overrides in
  let! defaultPool := _getDefaultPool overrides in
  Trove.add activePool defaultPool.

Definition getSymbol (overrides : option CallOverrides) : Res string :=
  let! collateralAddress := borrowerOperations_collateralAddress noCallOverrides in
  if String.eqb collateralAddress ZERO_ADDRESS then Ok "ETH"
  else erc20_symbol (spreadOverrides overrides).

Definition getCollateralAddress (overrides : option CallOverrides) : Res string :=
  borrowerOperations_collateralAddress (spreadOverrides overrides).

Definition getStableAddress (overrides : option CallOverrides) : Res string :=
  troveManager_thusdToken (spreadOverrides overrides).

(** The last two fields are new objects, [id] and [id + 1]. *)
Definition getBammDeposit (id : N) (address : option string) (overrides : option CallOverrides) :
    Res BammDeposit.t :=
  let o := spreadOverrides overrides in
  let _1e18 := bn_pow 10 18 in
  let! address := requireAddress address in
  let bamm := addressOf "bamm" in
  let! initialValue := stabilityPool_deposits address o in
  let! currentBammTHUSD := stabilityPool_getCompoundedTHUSDDeposit bamm o in
  let! bammPendingCollateral := stabilityPool_getDepositorCollateralGain bamm o in
  let! total := bamm_total o in
  let! stake := bamm_stake address o in
  let! totalThusdInSp := stabilityPool_getTotalTHUSDDeposits o in
  let isTotalGreaterThanZero := bn_gt total 0 in
  let isTotalThusdInSpGreaterThanZero := bn_gt totalThusdInSp 0 in
  let currentTHUSD :=
    if isTotalGreaterThanZero then bn_div (bn_mul stake currentBammTHUSD) total else 0 in
  let! bammShare :=
    if isTotalThusdInSpGreaterThanZero then
      let! a := Decimal.fromBigNumber currentBammTHUSD in
      let! m := Decimal.mul a (Decimal.ofNumber "100") in
      let! b := Decimal.fromBigNumber totalThusdInSp in
      Decimal.div m b
    else Decimal.from (Decimal.ofNumber "0") in
  let! poolShare :=
    if isTotalGreaterThanZero then
      let! a := Decimal.fromBigNumber stake in
      let! m := Decimal.mul bammShare a in
      let! b := Decimal.fromBigNumber total in
      Decimal.div m b
    else Decimal.from (Decimal.ofNumber "0") in
  let! balance := provider_getBalance bamm None in
  let bammCollateralBalance := bn_add balance bammPendingCollateral in
  let currentCollateral :=
    if isTotalGreaterThanZero then bn_div (bn_mul stake bammCollateralBalance) total else 0 in
  let! price := priceFeed_fetchPrice o in
  let currentUSD := bn_add currentTHUSD (bn_div (bn_mul currentCollateral price) _1e18) in
  let! bammPoolShare :=
    if isTotalGreaterThanZero then
      let! a := Decimal.fromBigNumber stake in
      let! b := Decimal.fromBigNumber total in
      Decimal.mulDiv a (Decimal.ofNumber "100") b
    else Decimal.from (Decimal.ofNumber "0") in
  let! initialValue := decimalify initialValue in
  let! currentUSD := Decimal.fromBigNumber currentUSD in
  let! currentTHUSD := Decimal.fromBigNumber currentTHUSD in
  let! currentCollateral := Decimal.fromBigNumber currentCollateral in
  let! bammCollateralBalance := Decimal.fromBigNumber bammCollateralBalance in
  let! currentBammTHUSD := Decimal.fromBigNumber currentBammTHUSD in
  Ok (BammDeposit.mk bammPoolShare poolShare initialValue currentUSD currentTHUSD currentCollateral
        (id, bammCollateralBalance) (id + 1, currentBammTHUSD)%N).

(** [currentUSD ? ... : ...] tests an object, which is always truthy. *)
Definition getWithdrawsSpShare (withdrawAmount : Decimal.Decimalish)
    (overrides : option CallOverrides) : Res string :=
  let! address := requireAddress None in
  let! stake := bamm_stake address noCallOverrides in
  let! deposit := getBammDeposit 0 (Some address) overrides in
  let! stake := decimalify stake in
  let! amount := Decimal.from withdrawAmount in
  let! m := Decimal.mul stake amount in
  let! d := Decimal.div m (BammDeposit.currentUSD deposit) in
  Decimal.toString d None.

Definition getStabilityDeposit (address : option string) (overrides : option CallOverrides) :
    Res StabilityDeposit.t :=
  let o := spreadOverrides overrides in
  let! address := requireAddress address in
  let! initialValue := stabilityPool_deposits address o in
  let! currentTHUSD := stabilityPool_getCompoundedTHUSDDeposit address o in
  let! collateralGain := stabilityPool_getDepositorCollateralGain address o in
  let! i := decimalify initialValue in
  let! c := decimalify currentTHUSD in
  let! g := decimalify collateralGain in
  StabilityDeposit.new i c g.

Definition getTHUSDInStabilityPool (overrides : option CallOverrides) : Res Decimal.t :=
  decimal (stabilityPool_getTotalTHUSDDeposits (spreadOverrides overrides)).

Definition getPCVBalance (overrides : option CallOverrides) : Res Decimal.t :=
  decimal (thusdToken_balanceOf (addressOf "pcv") (spreadOverrides overrides)).

Definition getTHUSDBalance (address : option string) (overrides : option CallOverrides) :
    Res Decimal.t :=
  let! address := requireAddress address in
  decimal (thusdToken_balanceOf address (spreadOverrides overrides)).

Definition getErc20TokenBalance (address : option string) (overrides : option CallOverrides) :
    Res Decimal.t :=
  let! address := requireAddress address in
  let! collateralAddress := borrowerOperations_collateralAddress noCallOverrides in
  if String.eqb collateralAddress ZERO_ADDRESS then decimal (provider_getBalance address None)
  else decimal (erc20_balanceOf address (spreadOverrides overrides)).

Definition largeAllowance : string :=
  "0x8888888888888888888888888888888888888888888888888888888888888888".

Definition getErc20TokenAllowance (address : option string) (overrides : option CallOverrides) :
    Res Decimal.t :=
  let! address := requireAddress address in
  let! largeAllowanceBigNumber := bn_from largeAllowance in
  let! largeAllowanceDecimal := decimalify largeAllowanceBigNumber in
  let! collateralAddress := borrowerOperations_collateralAddress noCallOverrides in
  if String.eqb collateralAddress ZERO_ADDRESS then Ok largeAllowanceDecimal
  else decimal (erc20_allowance address (addressOf "borrowerOperations")
                  (spreadOverrides overrides)).

Definition isStabilityPools (overrides : option CallOverrides) : Res bool :=
  thusdToken_isStabilityPools (addressOf "stabilityPool") (spreadOverrides overrides).
Definition isBorrowerOperations (overrides : option CallOverrides) : Res bool :=
  thusdToken_isBorrowerOperations (addressOf "borrowerOperations") (spreadOverrides overrides).
Definition isTroveManager (overrides : option CallOverrides) : Res bool :=
  thusdToken_isTroveManager (addressOf "troveManager") (spreadOverrides overrides).
Definition checkMintList (overrides : option CallOverrides) : Res bool :=
  thusdToken_mintList (addressOf "borrowerOperations") (spreadOverrides overrides).

Definition getCollateralSurplusBalance (address : option string)
    (overrides : option CallOverrides) : Res Decimal.t :=
  let! address := requireAddress address in
  decimal (collSurplusPool_getCollateral address (spreadOverrides overrides)).

(** *** Listing Troves *)

Definition mapBackendTrove (trove : CombinedTroveData) : Res TroveWithPendingRedistribution.t :=
  let! collateral := decimalify (combined_coll trove) in
  let! debt := decimalify (combined_debt trove) in
  let! stake := decimalify (combined_stake trove) in
  let! snapshotColl := decimalify (snapshotCollateral trove) in
  let! snapshotDebt := decimalify (snapshotTHUSDDebt trove) in
  Ok (TroveWithPendingRedistribution.new (combined_owner trove) UserTrove.open (Some collateral)
        (Some debt) (Some stake) (Some (Trove.mk snapshotColl snapshotDebt))).

Definition mapBackendTroves (troves : list CombinedTroveData) :
    Res (list TroveWithPendingRedistribution.t) := res_mapM mapBackendTrove troves.

(** The integer a number that passed [expectPositiveInt] is. *)
Definition integer (n : JsNumber) : Z := match n with JInt z => z | _ => 0 end.

(** The index [getTroves] asks [getMultipleSortedTroves] to start at. *)
Definition startIndex (params : TroveListingParams) : Z :=
  let startingAt := match startingAt params with Some n => integer n | None => 0 end in
  if String.eqb (sortedBy params) descendingCollateralRatio then startingAt
  else - (startingAt + 1).

(** [getTroves] as far as the list itself is concerned. *)
Definition getBackendTroves (params : TroveListingParams) (overrides : option CallOverrides) :
    Res (list TroveWithPendingRedistribution.t) :=
  let! _ := expectPositiveInt (Some (first params)) "first" in
  let! _ := expectPositiveInt (startingAt params) "startingAt" in
  if negb (existsb (String.eqb (sortedBy params)) validSortingOptions) then
    Throw ("sortedBy must be one of: " +:+
           Js.quoted ascendingCollateralRatio +:+ ", " +:+ Js.quoted descendingCollateralRatio)
  else
    let! backendTroves := getMultipleSortedTroves (startIndex params) (integer (first params))
                            (spreadOverrides overrides) in
    mapBackendTroves backendTroves.

(** The list is of [UserTrove]s, or of Troves before redistribution, which are [UserTrove]s with
    more fields. *)
Definition getTroves (params : TroveListingParams) (overrides : option CallOverrides) :
    Res (list TroveWithPendingRedistribution.t + list UserTrove.t) :=
  let! troves := getBackendTroves params overrides in
  if default false (beforeRedistribution params) then Ok (inl troves)
  else
    let! totalRedistributed := getTotalRedistributed (Some (spreadOverrides overrides)) in
    let! l := res_mapM
      (fun trove => TroveWithPendingRedistribution.applyRedistribution trove totalRedistributed)
      troves in
    Ok (inr l).

(** *** Fees *)

(** [_getBlockTimestamp] of the connection. *)
Definition _getBlockTimestamp (tag : option BatchedProvider.BlockTag) : Res Z :=
  let tag := default (BatchedProvider.TagName "latest") tag in
  match multicall_getCurrentBlockTimestamp with
  | Some getCurrentBlockTimestamp =>
      let! t := getCurrentBlockTimestamp (mkCallOverrides (Some tag)) in bn_toNumber t
  | None => provider_getBlockTimestamp tag
  end.

(** The function [_getFeesFactory] answers, of what it closes over. *)
Definition feesFactory (baseRateWithoutDecay : Decimal.t) (lastFeeOperationTime : Z)
    (blockTimestamp : Z) (recoveryMode : bool) : Res Fees.t :=
  let! time := bn_toNumber lastFeeOperationTime in
  Fees.new baseRateWithoutDecay MINUTE_DECAY_FACTOR BETA (convertToDate time)
    (convertToDate blockTimestamp) recoveryMode.

Definition _getFeesFactory (overrides : option CallOverrides) : Res (Z -> bool -> Res Fees.t) :=
  let! lastFeeOperationTime := troveManager_lastFeeOperationTime (spreadOverrides overrides) in
  let! baseRateWithoutDecay := decimal (troveManager_baseRate (spreadOverrides overrides)) in
  Ok (feesFactory baseRateWithoutDecay lastFeeOperationTime).

Definition getFees (overrides : option CallOverrides) : Res Fees.t :=
  let! createFees := _getFeesFactory overrides in
  let! total := getTotal overrides in
  let! price := getPrice overrides in
  let! blockTimestamp := _getBlockTimestamp (overrides ≫= blockTag) in
  let! critical := Trove.collateralRatioIsBelowCritical total (Decimal.ofDecimal price) in
  createFees blockTimestamp critical.

Definition getBammAllowance (overrides : option CallOverrides) : Res Decimal.t :=
  let! address := requireAddress None in
  decimal (thusdToken_allowance address (addressOf "bamm") (spreadOverrides overrides)).

(** What [PopulatableEthersLiquity] reads. *)
#[global] Instance ReadableEthersLiquity : ReadableLiquity := {
  Populatable.getNumberOfTroves := getNumberOfTroves None;
  Populatable.getPrice := getPrice None;
  Populatable.getTotal := getTotal None;
  Populatable.getTrove a := getTrove (Some a) None;
  Populatable.getFees := getFees None;
  Populatable._getFeesFactory := _getFeesFactory None;
  Populatable._getBlockTimestamp := _getBlockTimestamp None;
  Populatable.getCollateralAddress := getCollateralAddress None;
  Populatable.getStabilityDeposit a := getStabilityDeposit (Some a) None;
  Populatable.getBammDeposit a := getBammDeposit 0 (Some a) None;
  Populatable.getWithdrawsSpShare amount := getWithdrawsSpShare amount None;
}.

End Getters.
End Readable.

(** ** The contract that lists Troves: [contracts/contracts/MultiTroveGetter.sol]

    What [getTroves] asks for; the list it walks is the [SortedTroves] contract's, and the Troves
    are the [TroveManager]'s. *)
Module MultiTroveGetter.

Class SortedTroves : Type := {
  getSize : Z;
  getFirst : string;
  getLast : string;
  getNext : string -> string;
  getPrev : string -> string;
}.

Section Getter.
Context {ST : SortedTroves}.
Variable Troves : string -> BackendTrove.
Variable rewardSnapshots : string -> Z * Z.

Definition combined (owner : string) : CombinedTroveData :=
  mkCombined owner (debt (Troves owner)) (coll (Troves owner)) (stake (Troves owner))
    (fst (rewardSnapshots owner)) (snd (rewardSnapshots owner)).

(** The two loops: follow the list, and gather Troves while following it. *)
Fixpoint follow (step : string -> string) (n : nat) (currentTroveowner : string) : string :=
  match n with O => currentTroveowner | S n' => follow step n' (step currentTroveowner) end.
Fixpoint gather (step : string -> string) (n : nat) (currentTroveowner : string) :
    list CombinedTroveData :=
  match n with
  | O => []
  | S n' => combined currentTroveowner :: gather step n' (step currentTroveowner)
  end.

Definition _getMultipleSortedTrovesFromHead (_startIdx _count : Z) : list CombinedTroveData :=
  gather getNext (Z.to_nat _count) (follow getNext (Z.to_nat _startIdx) getFirst).
Definition _getMultipleSortedTrovesFromTail (_startIdx _count : Z) : list CombinedTroveData :=
  gather getPrev (Z.to_nat _count) (follow getPrev (Z.to_nat _startIdx) getLast).

Definition getMultipleSortedTroves (_startIdx _count : Z) : list CombinedTroveData :=
  let '(startIdx, descend) :=
    if 0 <=? _startIdx then (_startIdx, true) else (- (_startIdx + 1), false) in
  let sortedTrovesSize := getSize in
  if sortedTrovesSize <=? startIdx then []
  else
    let maxCount := sortedTrovesSize - startIdx in
    let _count := if maxCount <? _count then maxCount else _count in
    if descend then _getMultipleSortedTrovesFromHead startIdx _count
    else _getMultipleSortedTrovesFromTail startIdx _count.

End Getter.
End MultiTroveGetter.
