(* ===== verification/ReadableProperties.v ===== *)
(** * Properties of the getters

    The list of Troves is the page of the sorted list that was asked for, and holds for each owner
    the Trove the single getters answer; the share of a withdrawal from the B.AMM. *)

From S2P Require Import Prelude BigNumber Decimals Troves TroveProperties Fees Deposits.
From S2P Require Import BatchedProvider Populatable Readable.
Import Decimal DecimalFacts Contracts Readable.

Local Open Scope Z_scope.

(** ** Walking the sorted list *)
Module ListingFacts.
Import MultiTroveGetter.

(** The contract's doubly linked list holds the owners [l], by decreasing ratio. *)
Class SortedLaws (ST : SortedTroves) (l : list string) : Prop := {
  size_length : getSize = Z.of_nat (length l);
  first_head a : l !! 0%nat = Some a -> getFirst = a;
  last_last a : l !! pred (length l) = Some a -> getLast = a;
  next_next i a b : l !! i = Some a -> l !! S i = Some b -> getNext a = b;
  prev_prev i a b : l !! i = Some a -> l !! S i = Some b -> getPrev b = a;
}.

Section Walk.
Variable Troves : string -> BackendTrove.
Variable rewardSnapshots : string -> Z * Z.
Variable next : string -> string.
Variable l : list string.
Hypothesis Hnext : forall i a b, l !! i = Some a -> l !! S i = Some b -> next a = b.

Lemma follow_lookup n i a b : l !! i = Some a -> l !! (i + n)%nat = Some b -> follow next n a = b.
Proof.
  revert i a. induction n as [|n IH]; cbn; intros i a Ha Hb.
  - rewrite Nat.add_0_r in Hb. congruence.
  - destruct (l !! S i) as [c|] eqn:Hc.
    + rewrite (Hnext _ _ _ Ha Hc). apply (IH (S i)); [done|]. by rewrite Nat.add_succ_l, <- Nat.add_succ_r.
    + apply lookup_ge_None in Hc. apply lookup_lt_Some in Hb. lia.
Qed.

Lemma gather_slice n i a : l !! i = Some a -> (i + n <= length l)%nat ->
  gather Troves rewardSnapshots next n a = map (combined Troves rewardSnapshots) (take n (drop i l)).
Proof.
  revert i a. induction n as [|n IH]; intros i a Ha Hn; [done|].
  rewrite (drop_S _ _ _ Ha). cbn. f_equal. destruct (l !! S i) as [b|] eqn:Hb.
  - rewrite (Hnext _ _ _ Ha Hb). apply IH; [done | lia].
  - apply lookup_ge_None in Hb. assert (n = 0%nat) by lia. subst. done.
Qed.

(** What the two loops make together. *)
Lemma walk_page k n start : (k < length l)%nat -> (k + n <= length l)%nat ->
  (forall a, l !! 0%nat = Some a -> start = a) ->
  gather Troves rewardSnapshots next n (follow next k start) =
  map (combined Troves rewardSnapshots) (take n (drop k l)).
Proof.
  intros Hk Hn Hstart. destruct (l !! 0%nat) as [a|] eqn:Ha; [|apply lookup_ge_None in Ha; lia].
  rewrite (Hstart a eq_refl). destruct (lookup_lt_is_Some_2 l k Hk) as [b Hb].
  rewrite (follow_lookup k 0 a b) by done. by apply gather_slice.
Qed.

End Walk.

(** The page of the list that starts after [k] Troves and holds at most [n]. *)
Definition page (descending : bool) (k n : Z) (l : list string) : list string :=
  take (Z.to_nat n) (drop (Z.to_nat k) (if descending then l else reverse l)).

Lemma lookup_reverse_next {A} (l : list A) i a b :
  reverse l !! i = Some a -> reverse l !! S i = Some b ->
  l !! pred (length l - S i) = Some b /\ l !! S (pred (length l - S i)) = Some a.
Proof.
  intros Ha Hb. pose proof (lookup_lt_Some _ _ _ Hb) as Hlt. rewrite length_reverse in Hlt.
  apply reverse_lookup_Some in Ha as [Ha _]. apply reverse_lookup_Some in Hb as [Hb _].
  split; [rewrite <- Hb | rewrite <- Ha]; f_equal; lia.
Qed.

Lemma getMultipleSortedTroves_page {ST : SortedTroves} (l : list string) `{!SortedLaws ST l}
    Troves rewardSnapshots (descending : bool) k n :
  0 <= k -> 0 <= n ->
  getMultipleSortedTroves Troves rewardSnapshots (if descending then k else - (k + 1)) n =
  map (combined Troves rewardSnapshots) (page descending k n l).
Proof.
  intros Hk Hn. unfold getMultipleSortedTroves, page.
  assert (Hstart : (if 0 <=? (if descending then k else - (k + 1))
    then ((if descending then k else - (k + 1)), true)
    else (- ((if descending then k else - (k + 1)) + 1), false)) = (k, descending)).
  { destruct descending; [by rewrite (proj2 (Z.leb_le _ _)) by lia|].
    rewrite (proj2 (Z.leb_gt _ _)) by lia. f_equal. lia. }
  rewrite Hstart, size_length. clear Hstart.
  assert (Hlen : length (if descending then l else reverse l) = length l)
    by (destruct descending; [done | apply length_reverse]).
  destruct (Z.leb_spec (Z.of_nat (length l)) k) as [Hle|Hgt].
  { rewrite drop_ge by lia. by rewrite take_nil. }
  set (m := if _ <? n then _ else n).
  assert (Hm : take (Z.to_nat n) (drop (Z.to_nat k) (if descending then l else reverse l)) =
    take (Z.to_nat m) (drop (Z.to_nat k) (if descending then l else reverse l))).
  { unfold m. destruct (Z.ltb_spec (Z.of_nat (length l) - k) n) as [Hlt|]; [|done].
    rewrite !take_ge; [done| |]; rewrite length_drop, Hlen; lia. }
  assert (Hmle : (Z.to_nat k + Z.to_nat m <= length l)%nat)
    by (unfold m; destruct (Z.ltb_spec (Z.of_nat (length l) - k) n); lia).
  rewrite Hm. destruct descending.
  - apply walk_page; [apply next_next | lia | done | apply first_head].
  - apply walk_page; rewrite ?length_reverse; [|lia|done|].
    + intros i a b Ha Hb. destruct (lookup_reverse_next _ _ _ _ Ha Hb). by eapply prev_prev.
    + intros a Ha. apply last_last. apply reverse_lookup_Some in Ha as [Ha Hlt].
      rewrite <- Ha. f_equal. lia.
Qed.

End ListingFacts.
Import ListingFacts.

(** ** What the getters read is what the contracts say *)

(** At the block of [o], [multiTroveGetter] answers as its source does, over the Troves of
    [troveManager]; the Troves of the sorted list [l] are the active ones. *)
Record ListsTroves (C : Chain) (o : CallOverrides) (l : list string) : Prop := {
  lists_troves :
    exists (ST : MultiTroveGetter.SortedTroves) Troves rewardSnapshots, SortedLaws ST l /\
      (forall start count, getMultipleSortedTroves start count o =
        Ok (MultiTroveGetter.getMultipleSortedTroves Troves rewardSnapshots start count)) /\
      (forall a, troveManager_Troves a o = Ok (Troves a)) /\
      (forall a, troveManager_rewardSnapshots a o = Ok (rewardSnapshots a)) /\
      (forall a, In a l -> status (Troves a) = active);
}.

Module ListingProperties.
Section Properties.
Context {BN : BigNumberOps} {BNL : BigNumberLaws BN} {C : Chain}.

Lemma applyRedistribution_total t r :
  exists u, TroveWithPendingRedistribution.applyRedistribution t r = Ok u.
Proof.
  unfold TroveWithPendingRedistribution.applyRedistribution.
  rewrite TroveFacts.subtract_ok. cbn [res_bind]. rewrite TroveFacts.multiply_ok.
  cbn [res_bind]. rewrite TroveFacts.tadd_ok. by eexists.
Qed.

Lemma res_mapM_map {A B D} (f : A -> B) (g : B -> Res D) l :
  res_mapM g (map f l) = res_mapM (fun a => g (f a)) l.
Proof. induction l as [|a l IH]; cbn; [done|]. by rewrite IH. Qed.

Lemma res_mapM_ext {A B} (f g : A -> Res B) l :
  (forall a, In a l -> f a = g a) -> res_mapM f l = res_mapM g l.
Proof.
  induction l as [|a l IH]; intros H; cbn; [done|]. rewrite H by (by left).
  rewrite IH by (intros; apply H; by right). done.
Qed.

(** Two passes over a list, the second of which does not throw, are one. *)
Lemma res_mapM_fuse {A B D} (f : A -> Res B) (g : B -> Res D) l :
  (forall b, exists d, g b = Ok d) ->
  (let! bs := res_mapM f l in res_mapM g bs) = res_mapM (fun a => let! b := f a in g b) l.
Proof.
  intros Hg. induction l as [|a l IH]; cbn; [done|]. rewrite <- IH.
  destruct (f a) as [b|]; cbn; [|done]. destruct (Hg b) as [d Hd]. rewrite Hd. cbn.
  destruct (res_mapM f l); cbn; [by rewrite Hd | done].
Qed.

(** A Trove of the list is the Trove its owner's getter answers. *)
Lemma mapBackendTrove_before o a t snap :
  troveManager_Troves a o = Ok t -> troveManager_rewardSnapshots a o = Ok snap ->
  status t = active ->
  getTroveBeforeRedistribution (Some a) (Some o) =
  mapBackendTrove (mkCombined a (debt t) (coll t) (stake t) (fst snap) (snd snap)).
Proof.
  intros Ht Hs Ha. unfold getTroveBeforeRedistribution. cbn [requireAddress res_bind].
  change (spreadOverrides (Some o)) with o. rewrite Ht, Hs. cbn [res_bind]. by rewrite Ha.
Qed.

Lemma page_In descending k n l a : In a (page descending k n l) -> In a l.
Proof.
  unfold page. rewrite <- !list_elem_of_In. intros H%elem_of_take. destruct H as (i & Hi & _).
  rewrite lookup_drop in Hi. apply list_elem_of_lookup_2 in Hi. destruct descending; [done|].
  by rewrite elem_of_reverse in Hi.
Qed.

Lemma getBackendTroves_page l (k : option Z) n (descending : bool) before o :
  ListsTroves C o l -> 0 <= n -> 0 <= default 0 k ->
  getBackendTroves (mkListing (JInt n)
    (if descending then descendingCollateralRatio else ascendingCollateralRatio)
    (JInt <$> k) before) (Some o) =
  res_mapM (fun a => getTroveBeforeRedistribution (Some a) (Some o))
    (page descending (default 0 k) n l).
Proof.
  intros [(ST & Troves & snapshots & HL & Hget & Ht & Hs & Ha)] Hn Hk.
  unfold getBackendTroves. cbn [first startingAt expectPositiveInt sortedBy integer].
  rewrite (proj2 (Z.ltb_ge _ _)) by done. cbn [res_bind].
  assert (Hpos : expectPositiveInt (JInt <$> k) "startingAt" = Ok tt).
  { destruct k as [k|]; cbn in *; [|done]. by rewrite (proj2 (Z.ltb_ge _ _)). }
  rewrite Hpos. cbn [res_bind].
  assert (Hvalid : existsb (String.eqb (if descending then descendingCollateralRatio
    else ascendingCollateralRatio)) validSortingOptions = true) by (by destruct descending).
  rewrite Hvalid. cbn [negb].
  assert (Hstart : startIndex (mkListing (JInt n) (if descending then descendingCollateralRatio
    else ascendingCollateralRatio) (JInt <$> k) before) =
    if descending then default 0 k else - (default 0 k + 1)).
  { unfold startIndex. cbn [startingAt sortedBy]. destruct k, descending; done. }
  rewrite Hstart. change (spreadOverrides (Some o)) with o. rewrite Hget. cbn [res_bind].
  rewrite (getMultipleSortedTroves_page l) by done. unfold mapBackendTroves.
  rewrite res_mapM_map. apply res_mapM_ext. intros a Hin%page_In. symmetry.
  apply mapBackendTrove_before; auto.
Qed.

(** C15: listing Troves equals asking for each of them: for a valid request, [getTroves] answers
    what [getTrove] (before redistribution, [getTroveBeforeRedistribution]) answers for each owner
    on the page: the [first] owners of the list sorted as requested, after [startingAt] of them. *)
Theorem listed_troves l n (k : option Z) (descending : bool) before o r :
  ListsTroves C o l -> 0 <= n -> 0 <= default 0 k -> getTotalRedistributed (Some o) = Ok r ->
  let params := mkListing (JInt n)
    (if descending then descendingCollateralRatio else ascendingCollateralRatio)
    (JInt <$> k) before in
  let owners := page descending (default 0 k) n l in
  getTroves params (Some o) =
  if default false before
  then res_map inl (res_mapM (fun a => getTroveBeforeRedistribution (Some a) (Some o)) owners)
  else res_map inr (res_mapM (fun a => getTrove (Some a) (Some o)) owners).
Proof.
  intros HL Hn Hk Hr params owners. unfold getTroves. subst params.
  rewrite (getBackendTroves_page l) by done. fold owners. cbn [beforeRedistribution]. change (spreadOverrides (Some o)) with o.
  destruct (default false before); [done|]. rewrite Hr.
  assert (Hfuse : res_mapM (fun a => getTrove (Some a) (Some o)) owners =
    let! ts := res_mapM (fun a => getTroveBeforeRedistribution (Some a) (Some o)) owners in
    res_mapM (fun t => TroveWithPendingRedistribution.applyRedistribution t r) ts).
  { rewrite res_mapM_fuse by (intros; apply applyRedistribution_total). apply res_mapM_ext.
    intros a _. unfold getTrove. by rewrite Hr. }
  rewrite Hfuse.
  destruct (res_mapM (fun a => getTroveBeforeRedistribution (Some a) (Some o)) owners); reflexivity.
Qed.

End Properties.
End ListingProperties.

(** ** Withdrawing from the B.AMM *)
Module ShareProperties.
Section Properties.
Context {BN : BigNumberOps} {BNL : BigNumberLaws BN} {E : Ethers} {C : Chain}.

Lemma decimalify_ok z : 0 <= z -> decimalify z = Ok (dec z).
Proof.
  intros Hz. unfold decimalify, fromBigNumberString. rewrite bn_from_toHexString. cbn [res_bind].
  unfold new. rewrite bn_isNegativeE. by rewrite (proj2 (Z.ltb_ge z 0)).
Qed.

Lemma getWithdrawsSpShare_text amount a addr stake_ d :
  Decimal.from amount = Ok a -> connection_userAddress = Some addr ->
  bamm_stake addr noCallOverrides = Ok stake_ -> 0 <= stake_ ->
  getBammDeposit 0 (Some addr) None = Ok d ->
  getWithdrawsSpShare amount None =
  Decimal.toString (ddiv (dmul (dec stake_) a) (BammDeposit.currentUSD d)) None.
Proof.
  intros Ha Haddr Hst Hpos Hd. unfold getWithdrawsSpShare, requireAddress. rewrite Haddr.
  cbn [res_bind]. rewrite Hst. cbn [res_bind]. rewrite Hd. cbn [res_bind].
  rewrite decimalify_ok by done. cbn [res_bind]. rewrite Ha. cbn [res_bind].
  rewrite mul_ok. cbn [res_bind]. rewrite div_ok. reflexivity.
Qed.

(** The share of the B.AMM a withdrawal asks for is the user's stake times the amount over the
    value of his deposit, rounded down, unchanged by its way through a text; but when that value
    is zero, where the code means the share to be zero, it is infinite and no transaction can be
    prepared. *)
Theorem bamm_withdrawal amount overrides a addr stake_ d :
  Decimal.from amount = Ok a -> connection_userAddress = Some addr ->
  bamm_stake addr noCallOverrides = Ok stake_ -> 0 <= stake_ ->
  getBammDeposit 0 (Some addr) None = Ok d ->
  let value := Z.of_N (units (BammDeposit.currentUSD d)) in
  let share := stake_ * Z.of_N (units a) / 10 ^ 18 * 10 ^ 18 / value in
  (value = 0 ->
     getWithdrawsSpShare amount None = Ok "∞" /\
     exists message, Populatable.withdrawTHUSDFromBammPool amount overrides = Throw message) /\
  (0 < value -> share <> 2 ^ 256 - 1 ->
     Populatable.withdrawTHUSDFromBammPool amount overrides =
     let! raw := estimateAndPopulate "bamm" "withdraw" overrides Populatable.addGasForIssuance
                   [AHex (Decimal.hex (dec share))] in
     Ok (Populatable._wrapStabilityDepositWithdrawal raw)).
Proof.
  intros Ha Haddr Hst Hpos Hd value share.
  pose proof (getWithdrawsSpShare_text amount a addr stake_ d Ha Haddr Hst Hpos Hd) as Htext.
  rewrite toString_text in Htext. unfold Populatable.withdrawTHUSDFromBammPool.
  change (Populatable.getWithdrawsSpShare amount) with (getWithdrawsSpShare amount None).
  rewrite Htext. unfold ddiv. split.
  - intros Hv. replace (units (BammDeposit.currentUSD d)) with 0%N by lia. cbn [N.eqb].
    rewrite deqb_refl. split; [done|]. cbn [res_bind]. unfold Decimal.from.
    rewrite fromString_bad by done. cbn [res_bind]. by eexists.
  - intros Hv Hshare. rewrite (proj2 (N.eqb_neq _ 0)) by lia.
    assert (Hshare0 : 0 <= share).
    { unfold share. apply Z.div_pos; [|lia]. apply Z.mul_nonneg_nonneg; [|lia].
      apply Z.div_pos; lia. }
    assert (Hq : mk (units (dmul (dec stake_) a) * SCALE / units (BammDeposit.currentUSD d)) = dec share).
    { unfold dec. f_equal. apply N2Z.inj. rewrite Z2N.id by done. unfold dmul, dec, SCALE.
      cbn [units]. rewrite !N2Z.inj_div, !N2Z.inj_mul, N2Z.inj_div, N2Z.inj_mul, Z2N.id by done.
      reflexivity. }
    rewrite Hq. assert (Hne : deqb (dec share) INF = false).
    { apply not_true_iff_false. intros Heq%deqb_eq. apply Hshare. unfold dec, INF in Heq.
      injection Heq as Heq. apply (f_equal Z.of_N) in Heq. by rewrite Z2N.id in Heq. }
    rewrite Hne. cbn [res_bind]. unfold Decimal.from. by rewrite fromString_toString.
Qed.
End Properties.
End ShareProperties.

(** ** A chain *)
Module ReadableRuns.
Import MultiTroveGetter ListingProperties ShareProperties.
#[local] Existing Instance Z_bignumber.
#[local] Existing Instance Z_bignumber_laws.

Definition owners : list string := ["0xa"; "0xb"; "0xc"].

(** The next address in a list, the zero address after the last one. *)
Fixpoint after (l : list string) (a : string) : string :=
  match l with
  | b :: ((c :: _) as l') => if String.eqb a b then c else after l' a
  | _ => ZERO_ADDRESS
  end.

#[local] Instance ownersList : SortedTroves := {
  getSize := 3; MultiTroveGetter.getFirst := "0xa"; getLast := "0xc";
  MultiTroveGetter.getNext := after owners; MultiTroveGetter.getPrev := after (reverse owners);
}.

Lemma owners_sorted : SortedLaws ownersList owners.
Proof.
  split; [done| | | |]; cbn.
  - by intros a [= <-].
  - by intros a [= <-].
  - intros [|[|[|i]]] a b; cbn; by intros [= <-] [= <-].
  - intros [|[|[|i]]] a b; cbn; by intros [= <-] [= <-].
Qed.

Definition oneE : Z := 10 ^ 18.
Definition someTroves (a : string) : BackendTrove :=
  if String.eqb a "0xa" then mkBackendTrove (2000 * oneE) (9 * oneE) (9 * oneE) active
  else if String.eqb a "0xb" then mkBackendTrove (2000 * oneE) (5 * oneE) (4 * oneE) active
  else mkBackendTrove (2000 * oneE) (3 * oneE) (3 * oneE) active.
Definition someSnapshots (a : string) : Z * Z := if String.eqb a "0xb" then (7, 11) else (0, 0).

(** The user of the connection has no share of the B.AMM. *)
#[local] Instance someChain : Chain := {
  troveManager_L_Collateral _ := Ok (10 ^ 16); troveManager_L_THUSDDebt _ := Ok (10 ^ 18);
  troveManager_Troves a _ := Ok (someTroves a);
  troveManager_rewardSnapshots a _ := Ok (someSnapshots a);
  troveManager_getTroveOwnersCount _ := Ok 3;
  troveManager_lastFeeOperationTime _ := Ok 1600000000;
  troveManager_baseRate _ := Ok (10 ^ 16);
  troveManager_thusdToken _ := Ok "0xt";
  priceFeed_fetchPrice _ := Ok (1000 * oneE);
  priceFeed_getMarketPrice _ := Throw "reverted";
  priceFeed_redemptionRate _ := Ok oneE;
  priceFeed_deviationFactor _ := Ok oneE;
  activePool_getCollateralBalance _ := Ok (17 * oneE);
  activePool_getTHUSDDebt _ := Ok (6000 * oneE);
  defaultPool_getCollateralBalance _ := Ok oneE;
  defaultPool_getTHUSDDebt _ := Ok oneE;
  stabilityPool_deposits _ _ := Ok (500 * oneE);
  stabilityPool_getCompoundedTHUSDDeposit _ _ := Ok (400 * oneE);
  stabilityPool_getDepositorCollateralGain _ _ := Ok oneE;
  stabilityPool_getTotalTHUSDDeposits _ := Ok (1000 * oneE);
  bamm_total _ := Ok oneE;
  bamm_stake a _ := Ok (if String.eqb a "0xa" then 0 else oneE);
  thusdToken_balanceOf _ _ := Ok (70 * oneE);
  thusdToken_allowance _ _ _ := Ok oneE;
  thusdToken_isStabilityPools _ _ := Ok true;
  thusdToken_isBorrowerOperations _ _ := Ok true;
  thusdToken_isTroveManager _ _ := Ok true;
  thusdToken_mintList _ _ := Ok false;
  borrowerOperations_collateralAddress _ := Ok "0xerc";
  erc20_symbol _ := Ok "TOK";
  erc20_balanceOf _ _ := Ok (33 * oneE);
  erc20_allowance _ _ _ := Ok (44 * oneE);
  collSurplusPool_getCollateral _ _ := Ok 5;
  Readable.getMultipleSortedTroves start count _ :=
    Ok (MultiTroveGetter.getMultipleSortedTroves someTroves someSnapshots start count);
  addressOf c := "0x" +:+ c;
  provider_getBalance _ _ := Ok (2 * oneE);
  provider_getBlockTimestamp _ := Ok 1600000600;
  multicall_getCurrentBlockTimestamp := None;
  connection_userAddress := Some "0xa";
}.

Lemma someChain_lists o : ListsTroves someChain o owners.
Proof.
  split. exists ownersList, someTroves, someSnapshots. split; [apply owners_sorted|].
  do 3 (split; [done|]). intros a [<-|[<-|[<-|[]]]]; done.
Qed.

Definition block7 : CallOverrides := mkCallOverrides (Some (BatchedProvider.TagNumber 7)).

(** The two riskiest Troves after the first one. *)
Lemma listed_troves_witness :
  getTroves (mkListing (JInt 2) ascendingCollateralRatio (Some (JInt 1)) None) (Some block7) =
  res_map inr (res_mapM (fun a => getTrove (Some a) (Some block7)) ["0xb"; "0xa"]).
Proof.
  refine (listed_troves owners 2 (Some 1) false None block7
    (Trove.mk (dec (10 ^ 16)) (dec (10 ^ 18))) (someChain_lists block7) _ _ _).
  - done.
  - done.
  - vm_compute. reflexivity.
Defined.

#[local] Instance noContracts : Ethers := {|
  LogData := unit; RawTx := string;
  contractAddress c := "0x" +:+ c;
  parseLog _ _ := Throw "no log";
  estimateGas _ _ _ _ := Ok 100000;
  populateTransaction _ name _ _ := Ok name;
  Contracts.getFirst := Ok "0xa"; Contracts.getPrev _ := Ok "0xa"; Contracts.getNext _ := Ok "0xa";
  findInsertPosition _ _ _ := Ok ("0xa", "0xb");
  getApproxHint _ _ _ := Ok (0, (0, "0xa"));
  getRedemptionHints _ _ _ := Ok (("0xa", 0), 0);
  setPriceInPriceFeed := false; randomInteger := 0;
  Contracts.userAddress := Some "0xa"
|}.

Definition emptyDeposit : BammDeposit.t :=
  match getBammDeposit 0 (Some "0xa") None with
  | Ok d => d
  | Throw _ => BammDeposit.mk ZERO ZERO ZERO ZERO ZERO ZERO (0%N, ZERO) (1%N, ZERO)
  end.

Lemma bamm_withdrawal_witness :
  getWithdrawsSpShare (Decimal.ofString "5") None = Ok "∞" /\
  exists message,
    Populatable.withdrawTHUSDFromBammPool (Decimal.ofString "5") noOverrides = Throw message.
Proof.
  refine (proj1 (bamm_withdrawal (Decimal.ofString "5") noOverrides (dec (5 * 10 ^ 18)) "0xa" 0
    emptyDeposit _ _ _ _ _) _).
  - vm_compute. reflexivity.
  - reflexivity.
  - reflexivity.
  - done.
  - vm_compute. reflexivity.
  - vm_compute. reflexivity.
Defined.

End ReadableRuns.
