(* ===== verification/CachedReadable.v ===== *)
(** * Reading through a cache: [src/packages/lib-base/src/_CachedReadableLiquity.ts]

    [_CachedReadableLiquity] asks a cache first and the readable object it wraps if the cache does
    not know, and computes Troves after redistribution itself.  [Reads] is the interface of the
    getters: a readable object answers a [Res], a cache an [option]. *)

From S2P Require Import Prelude BigNumber Decimals Troves TroveProperties Fees Deposits.
From S2P Require Import BatchedProvider Populatable Readable ReadableProperties.

Local Open Scope Z_scope.

(** The getters of [ReadableLiquity] with extra parameters [X]. *)
Record Reads (F : Type -> Type) (X : Type) : Type := mkReads {
  getTotalRedistributed : X -> F Trove.t;
  getTroveBeforeRedistribution : option string -> X -> F TroveWithPendingRedistribution.t;
  getTrove : option string -> X -> F UserTrove.t;
  getNumberOfTroves : X -> F Z;
  getPrice : X -> F Decimal.t;
  getTotal : X -> F Trove.t;
  getStabilityDeposit : option string -> X -> F StabilityDeposit.t;
  getBammDeposit : option string -> X -> F BammDeposit.t;
  getSymbol : X -> F string;
  getCollateralAddress : X -> F string;
  getStableAddress : X -> F string;
  getTHUSDInStabilityPool : X -> F Decimal.t;
  getPCVBalance : X -> F Decimal.t;
  getTHUSDBalance : option string -> X -> F Decimal.t;
  getErc20TokenBalance : option string -> X -> F Decimal.t;
  getErc20TokenAllowance : option string -> X -> F Decimal.t;
  isStabilityPools : X -> F bool;
  isBorrowerOperations : X -> F bool;
  isTroveManager : X -> F bool;
  getWithdrawsSpShare : Decimal.Decimalish -> X -> F string;
  checkMintList : X -> F bool;
  getCollateralSurplusBalance : option string -> X -> F Decimal.t;
  getTroves : TroveListingParams -> X ->
    F (list TroveWithPendingRedistribution.t + list UserTrove.t)%type;
  getFees : X -> F Fees.t;
}.
Arguments mkReads {F X}.
Arguments getTotalRedistributed {F X}. Arguments getTroveBeforeRedistribution {F X}.
Arguments getTrove {F X}. Arguments getNumberOfTroves {F X}. Arguments getPrice {F X}.
Arguments getTotal {F X}. Arguments getStabilityDeposit {F X}. Arguments getBammDeposit {F X}.
Arguments getSymbol {F X}. Arguments getCollateralAddress {F X}. Arguments getStableAddress {F X}.
Arguments getTHUSDInStabilityPool {F X}. Arguments getPCVBalance {F X}.
Arguments getTHUSDBalance {F X}. Arguments getErc20TokenBalance {F X}.
Arguments getErc20TokenAllowance {F X}. Arguments isStabilityPools {F X}.
Arguments isBorrowerOperations {F X}. Arguments isTroveManager {F X}.
Arguments getWithdrawsSpShare {F X}. Arguments checkMintList {F X}.
Arguments getCollateralSurplusBalance {F X}. Arguments getTroves {F X}. Arguments getFees {F X}.

Module CachedReadable.
Section Cached.
Context {BN : BigNumberOps} {X : Type}.
Variable _readable : Reads Res X.
Variable _cache : Reads option X.

(** [cached ?? readable] *)
Definition orElse {A} (cached : option A) (read : Res A) : Res A :=
  match cached with Some a => Ok a | None => read end.

Definition getTotalRedistributed (x : X) : Res Trove.t :=
  orElse (getTotalRedistributed _cache x) (getTotalRedistributed _readable x).

Definition getTroveBeforeRedistribution (address : option string) (x : X) :
    Res TroveWithPendingRedistribution.t :=
  orElse (getTroveBeforeRedistribution _cache address x)
         (getTroveBeforeRedistribution _readable address x).

Definition getTrove (address : option string) (x : X) : Res UserTrove.t :=
  let! troveBeforeRedistribution := getTroveBeforeRedistribution address x in
  let! totalRedistributed := getTotalRedistributed x in
  TroveWithPendingRedistribution.applyRedistribution troveBeforeRedistribution totalRedistributed.

Definition getNumberOfTroves (x : X) : Res Z :=
  orElse (getNumberOfTroves _cache x) (getNumberOfTroves _readable x).
Definition getPrice (x : X) : Res Decimal.t :=
  orElse (getPrice _cache x) (getPrice _readable x).
Definition getTotal (x : X) : Res Trove.t :=
  orElse (getTotal _cache x) (getTotal _readable x).
Definition getStabilityDeposit (address : option string) (x : X) : Res StabilityDeposit.t :=
  orElse (getStabilityDeposit _cache address x) (getStabilityDeposit _readable address x).
Definition getBammDeposit (address : option string) (x : X) : Res BammDeposit.t :=
  orElse (getBammDeposit _cache address x) (getBammDeposit _readable address x).
Definition getSymbol (x : X) : Res string :=
  orElse (getSymbol _cache x) (getSymbol _readable x).
Definition getCollateralAddress (x : X) : Res string :=
  orElse (getCollateralAddress _cache x) (getCollateralAddress _readable x).
Definition getStableAddress (x : X) : Res string :=
  orElse (getStableAddress _cache x) (getStableAddress _readable x).
Definition getTHUSDInStabilityPool (x : X) : Res Decimal.t :=
  orElse (getTHUSDInStabilityPool _cache x) (getTHUSDInStabilityPool _readable x).
Definition getPCVBalance (x : X) : Res Decimal.t :=
  orElse (getPCVBalance _cache x) (getPCVBalance _readable x).
Definition getTHUSDBalance (address : option string) (x : X) : Res Decimal.t :=
  orElse (getTHUSDBalance _cache address x) (getTHUSDBalance _readable address x).
Definition getErc20TokenBalance (address : option string) (x : X) : Res Decimal.t :=
  orElse (getErc20TokenBalance _cache address x) (getErc20TokenBalance _readable address x).
Definition getErc20TokenAllowance (address : option string) (x : X) : Res Decimal.t :=
  orElse (getErc20TokenAllowance _cache address x) (getErc20TokenAllowance _readable address x).
Definition isStabilityPools (x : X) : Res bool :=
  orElse (isStabilityPools _cache x) (isStabilityPools _readable x).
Definition isBorrowerOperations (x : X) : Res bool :=
  orElse (isBorrowerOperations _cache x) (isBorrowerOperations _readable x).
Definition isTroveManager (x : X) : Res bool :=
  orElse (isTroveManager _cache x) (isTroveManager _readable x).
Definition getWithdrawsSpShare (withdrawAmount : Decimal.Decimalish) (x : X) : Res string :=
  orElse (getWithdrawsSpShare _cache withdrawAmount x)
         (getWithdrawsSpShare _readable withdrawAmount x).
Definition checkMintList (x : X) : Res bool :=
  orElse (checkMintList _cache x) (checkMintList _readable x).
Definition getCollateralSurplusBalance (address : option string) (x : X) : Res Decimal.t :=
  orElse (getCollateralSurplusBalance _cache address x)
         (getCollateralSurplusBalance _readable address x).

(** [{ beforeRedistribution: true, ...restOfParams }] *)
Definition before (params : TroveListingParams) : TroveListingParams :=
  mkListing (first params) (sortedBy params) (startingAt params) (Some true).

(** A [UserTrove] has no method [applyRedistribution]. *)
Definition getTroves (params : TroveListingParams) (x : X) :
    Res (list TroveWithPendingRedistribution.t + list UserTrove.t) :=
  let! totalRedistributed :=
    if default false (beforeRedistribution params) then Ok None
    else res_map Some (getTotalRedistributed x) in
  let! troves := orElse (getTroves _cache (before params) x)
                        (getTroves _readable (before params) x) in
  match totalRedistributed with
  | Some totalRedistributed =>
      match troves with
      | inl troves =>
          let! l := res_mapM (fun trove =>
            TroveWithPendingRedistribution.applyRedistribution trove totalRedistributed) troves in
          Ok (inr l)
      | inr [] => Ok (inr [])
      | inr _ => Throw "trove.applyRedistribution is not a function"
      end
  | None => Ok troves
  end.

Definition getFees (x : X) : Res Fees.t := orElse (getFees _cache x) (getFees _readable x).

(** The object itself. *)
Definition cached : Reads Res X :=
  mkReads getTotalRedistributed getTroveBeforeRedistribution getTrove getNumberOfTroves getPrice
    getTotal getStabilityDeposit getBammDeposit getSymbol getCollateralAddress getStableAddress
    getTHUSDInStabilityPool getPCVBalance getTHUSDBalance getErc20TokenBalance
    getErc20TokenAllowance isStabilityPools isBorrowerOperations isTroveManager
    getWithdrawsSpShare checkMintList getCollateralSurplusBalance getTroves getFees.

End Cached.
End CachedReadable.

(** ** A cache changes nothing *)
Module CachedFacts.

(** Two objects whose getters answer alike. *)
Record Related {F G : Type -> Type} {X} (R : forall A, F A -> G A -> Prop) (a : Reads F X)
    (b : Reads G X) : Prop := {
  rel_getTotalRedistributed x : R _ (getTotalRedistributed a x) (getTotalRedistributed b x);
  rel_getTroveBeforeRedistribution u x :
    R _ (getTroveBeforeRedistribution a u x) (getTroveBeforeRedistribution b u x);
  rel_getTrove u x : R _ (getTrove a u x) (getTrove b u x);
  rel_getNumberOfTroves x : R _ (getNumberOfTroves a x) (getNumberOfTroves b x);
  rel_getPrice x : R _ (getPrice a x) (getPrice b x);
  rel_getTotal x : R _ (getTotal a x) (getTotal b x);
  rel_getStabilityDeposit u x : R _ (getStabilityDeposit a u x) (getStabilityDeposit b u x);
  rel_getBammDeposit u x : R _ (getBammDeposit a u x) (getBammDeposit b u x);
  rel_getSymbol x : R _ (getSymbol a x) (getSymbol b x);
  rel_getCollateralAddress x : R _ (getCollateralAddress a x) (getCollateralAddress b x);
  rel_getStableAddress x : R _ (getStableAddress a x) (getStableAddress b x);
  rel_getTHUSDInStabilityPool x :
    R _ (getTHUSDInStabilityPool a x) (getTHUSDInStabilityPool b x);
  rel_getPCVBalance x : R _ (getPCVBalance a x) (getPCVBalance b x);
  rel_getTHUSDBalance u x : R _ (getTHUSDBalance a u x) (getTHUSDBalance b u x);
  rel_getErc20TokenBalance u x : R _ (getErc20TokenBalance a u x) (getErc20TokenBalance b u x);
  rel_getErc20TokenAllowance u x :
    R _ (getErc20TokenAllowance a u x) (getErc20TokenAllowance b u x);
  rel_isStabilityPools x : R _ (isStabilityPools a x) (isStabilityPools b x);
  rel_isBorrowerOperations x : R _ (isBorrowerOperations a x) (isBorrowerOperations b x);
  rel_isTroveManager x : R _ (isTroveManager a x) (isTroveManager b x);
  rel_getWithdrawsSpShare d x : R _ (getWithdrawsSpShare a d x) (getWithdrawsSpShare b d x);
  rel_checkMintList x : R _ (checkMintList a x) (checkMintList b x);
  rel_getCollateralSurplusBalance u x :
    R _ (getCollateralSurplusBalance a u x) (getCollateralSurplusBalance b u x);
  rel_getTroves p x : R _ (getTroves a p x) (getTroves b p x);
  rel_getFees x : R _ (getFees a x) (getFees b x);
}.

(** A cache that only says what the readable object would say. *)
Definition knows (A : Type) (cached : option A) (read : Res A) : Prop :=
  forall v, cached = Some v -> read = Ok v.
Definition Sound {X} : Reads option X -> Reads Res X -> Prop := Related knows.
(** The same answers; which error a rejection carries is left open, since the getters wait for
    several answers at once. *)
Definition sameAnswer (A : Type) (a b : Res A) : Prop :=
  match a, b with
  | Ok x, Ok y => x = y
  | Throw _, Throw _ => True
  | _, _ => False
  end.
Definition Same {X} : Reads Res X -> Reads Res X -> Prop := Related sameAnswer.

(** What a readable object promises about Troves after redistribution. *)
Class Redistributes {BN : BigNumberOps} {X} (r : Reads Res X) : Prop := {
  trove_redistributed u x : getTrove r u x =
    let! t := getTroveBeforeRedistribution r u x in
    let! total := getTotalRedistributed r x in
    TroveWithPendingRedistribution.applyRedistribution t total;
  troves_redistributed p x : getTroves r p x =
    let! t := getTroves r (CachedReadable.before p) x in
    match t with
    | inl ts =>
        if default false (beforeRedistribution p) then Ok (inl ts)
        else let! total := getTotalRedistributed r x in
             let! l := res_mapM (fun t =>
               TroveWithPendingRedistribution.applyRedistribution t total) ts in
             Ok (inr l)
    | inr _ => Throw "not before redistribution"
    end;
}.

(** The getters of [ReadableEthersLiquity], with its overrides as the extra parameter. *)
Definition readableEthers {BN : BigNumberOps} {C : Chain} : Reads Res (option CallOverrides) :=
  mkReads Readable.getTotalRedistributed Readable.getTroveBeforeRedistribution Readable.getTrove
    Readable.getNumberOfTroves Readable.getPrice Readable.getTotal Readable.getStabilityDeposit
    (Readable.getBammDeposit 0) Readable.getSymbol Readable.getCollateralAddress
    Readable.getStableAddress Readable.getTHUSDInStabilityPool Readable.getPCVBalance
    Readable.getTHUSDBalance Readable.getErc20TokenBalance Readable.getErc20TokenAllowance
    Readable.isStabilityPools Readable.isBorrowerOperations Readable.isTroveManager
    Readable.getWithdrawsSpShare Readable.checkMintList Readable.getCollateralSurplusBalance
    Readable.getTroves Readable.getFees.

#[global] Instance readableEthers_redistributes {BN : BigNumberOps} {C : Chain} :
  Redistributes readableEthers.
Proof.
  split; [done|]. intros p x. cbn [getTroves readableEthers getTotalRedistributed].
  unfold Readable.getTroves.
  change (Readable.getBackendTroves (CachedReadable.before p) x) with
    (Readable.getBackendTroves p x).
  destruct (Readable.getBackendTroves p x) as [ts|m]; [|done]. cbn [res_bind].
  change (default false (beforeRedistribution (CachedReadable.before p))) with true. cbn iota.
  cbn [res_bind]. destruct (default false (beforeRedistribution p)); [done|].
  change (Readable.getTotalRedistributed (Some (spreadOverrides x)))
    with (Readable.getTotalRedistributed x).
  done.
Qed.

Section Cache.
Context {BN : BigNumberOps} {X : Type}.

Lemma orElse_knows {A} (c : option A) (r : Res A) :
  knows A c r -> CachedReadable.orElse c r = r.
Proof. intros H. destruct c; [symmetry; by apply H | done]. Qed.

Lemma sameAnswer_refl {A} (r : Res A) : sameAnswer A r r.
Proof. by destruct r. Qed.

Lemma orElse_same {A} (c : option A) (r : Res A) :
  knows A c r -> sameAnswer A (CachedReadable.orElse c r) r.
Proof. intros H. rewrite orElse_knows by done. apply sameAnswer_refl. Qed.

(** Before redistribution a list never holds Troves after it. *)
Lemma before_inl (r : Reads Res X) `{!Redistributes r} p x l :
  getTroves r (CachedReadable.before p) x = Ok l -> exists ts, l = inl ts.
Proof.
  intros H. rewrite troves_redistributed in H.
  change (CachedReadable.before (CachedReadable.before p)) with (CachedReadable.before p) in H.
  destruct (getTroves r (CachedReadable.before p) x) as [[ts|us]|]; [|done|done].
  cbn in H. injection H as <-. by exists ts.
Qed.

Lemma getTroves_same (r : Reads Res X) (c : Reads option X) `{!Redistributes r} p x :
  Sound c r -> sameAnswer _ (CachedReadable.getTroves r c p x) (getTroves r p x).
Proof.
  intros HS. rewrite troves_redistributed. unfold CachedReadable.getTroves.
  unfold CachedReadable.getTotalRedistributed.
  rewrite (orElse_knows _ _ (rel_getTotalRedistributed _ _ _ HS x)).
  rewrite (orElse_knows _ _ (rel_getTroves _ _ _ HS _ x)).
  destruct (getTroves r (CachedReadable.before p) x) as [l|m] eqn:El.
  - destruct (before_inl r p x l El) as [ts ->]. cbn [res_bind].
    destruct (default false (beforeRedistribution p)); [done|].
    destruct (getTotalRedistributed r x) as [total|]; [|done]. cbn [res_map res_bind].
    by destruct (res_mapM _ ts).
  - destruct (default false (beforeRedistribution p)); [done|].
    by destruct (getTotalRedistributed r x).
Qed.

End Cache.
End CachedFacts.
Import CachedFacts.

Module CachedProperties.
Section Properties.
Context {BN : BigNumberOps} {X : Type}.

(** C23: a cache that is right when it answers makes no difference: every getter of the cached
    object, also the two that redistribute, answers as the getter of the object it wraps. *)
Theorem cached_same (r : Reads Res X) (c : Reads option X) :
  Redistributes r -> Sound c r -> Same (CachedReadable.cached r c) r.
Proof.
  intros HR HS.
  split; intros; cbn; unfold CachedReadable.getTotalRedistributed; try (apply orElse_same; apply HS).
  - rewrite trove_redistributed. unfold CachedReadable.getTrove,
      CachedReadable.getTroveBeforeRedistribution, CachedReadable.getTotalRedistributed.
    rewrite (orElse_knows _ _ (rel_getTotalRedistributed _ _ _ HS x)).
    rewrite (orElse_knows _ _ (rel_getTroveBeforeRedistribution _ _ _ HS u x)).
    apply sameAnswer_refl.
  - by apply getTroves_same.
Qed.

End Properties.
End CachedProperties.

Module CachedRuns.
Import CachedProperties.

#[local] Existing Instance Z_bignumber.
#[local] Existing Instance ReadableRuns.someChain.

(** A cache of the price and of what was redistributed. *)
Definition known {A} (r : Res A) : option A := match r with Ok a => Some a | Throw _ => None end.
Definition someCache : Reads option (option CallOverrides) :=
  mkReads (fun x => known (Readable.getTotalRedistributed x)) (fun _ _ => None) (fun _ _ => None)
    (fun _ => None) (fun x => known (Readable.getPrice x)) (fun _ => None) (fun _ _ => None)
    (fun _ _ => None) (fun _ => None) (fun _ => None) (fun _ => None) (fun _ => None)
    (fun _ => None) (fun _ _ => None) (fun _ _ => None) (fun _ _ => None) (fun _ => None)
    (fun _ => None) (fun _ => None) (fun _ _ => None) (fun _ => None) (fun _ _ => None)
    (fun _ _ => None) (fun _ => None).

Lemma known_knows {A} (r : Res A) : knows A (known r) r.
Proof. intros v. destruct r; [by intros [= ->] | done]. Qed.

Lemma someCache_sound : Sound someCache readableEthers.
Proof. split; intros; cbn; try (apply known_knows); by intros v. Qed.

Lemma cached_same_witness :
  Same (CachedReadable.cached readableEthers someCache) readableEthers /\
  known (Readable.getPrice None) = Some (Decimal.mk (1000 * 10 ^ 18)).
Proof.
  split; [|vm_compute; reflexivity].
  exact (cached_same readableEthers someCache readableEthers_redistributes someCache_sound).
Defined.

End CachedRuns.
