(* ===== verification/BlockPolled.v ===== *)
(** * The store that polls at every block: [src/packages/lib-ethers/src/BlockPolledLiquityStore.ts]
      and its readable object (at the end of [ReadableEthersLiquity.ts])

    [BlockPolledLiquityStore] reads the whole state when it starts and at each block after that,
    and loads or updates the [LiquityStore] with it; the answers to overlapping polls arrive in
    any order.  [_BlockPolledReadableEthersLiquity] answers from the store what concerns its
    block, and asks [ReadableEthersLiquity] otherwise. *)

From S2P Require Import Prelude BigNumber Decimals Constants Troves Fees Deposits LiquityStore.
From S2P Require Import BatchedProvider Populatable Readable.
Import LiquityStore.

Local Open Scope Z_scope.

Module BlockPolled.

Definition FeesFactory : Type := Z -> bool -> Res Fees.t.

(** [BlockPolledLiquityStoreExtraState]; a [Partial] one, under [option]. *)
Record ExtraStateOf (F : Type -> Type) : Type := mkExtra {
  blockTag : option Z;
  blockTimestamp : F Z;
  _feesFactory : F (Obj FeesFactory);
  bammAllowance : F (Obj Decimal.t);
}.
Arguments mkExtra {F}.
Arguments blockTag {F}. Arguments blockTimestamp {F}. Arguments _feesFactory {F}.
Arguments bammAllowance {F}.
Definition ExtraState : Type := ExtraStateOf (fun A => A).
Definition PartialExtraState : Type := ExtraStateOf option.

(** [stateUpdate.x ?? oldState.x] *)
Definition orOld {A} (new : option A) (old : A) : A := default old new.

Definition reduceExtra (oldState : ExtraState) (stateUpdate : PartialExtraState) : ExtraState :=
  mkExtra (F := fun A => A)
    (match blockTag stateUpdate with Some b => Some b | None => blockTag oldState end)
    (orOld (blockTimestamp stateUpdate) (blockTimestamp oldState))
    (orOld (_feesFactory stateUpdate) (_feesFactory oldState))
    (orOld (bammAllowance stateUpdate) (bammAllowance oldState)).

Definition entries (e : ExtraState) : Entries :=
  [("blockTag", match blockTag e with Some b => VNumber b | None => VUndefined end);
   ("blockTimestamp", VNumber (blockTimestamp e));
   ("_feesFactory", VFunction (fst (_feesFactory e)));
   ("bammAllowance", VDecimal (bammAllowance e))].

(** What the listeners of a store do. *)
Class Listeners (L : Type) : Type :=
  onUpdate : L -> LiquityStoreListenerParams -> list (ListenerOp L).

#[global] Instance subclass {L} `{Listeners L} : StoreSubclass ExtraState PartialExtraState L := {
  _reduceExtra := reduceExtra;
  extraEntries := entries;
  callListener := onUpdate;
}.

Section Polling.
Context {BN : BigNumberOps} {L : Type} `{Listeners L}.
Local Abbreviation St_ := (Store ExtraState L).

Section Get.
Context {C : Chain}.

(** [{ blockTag }] *)
Definition at_ (tag : option Z) : CallOverrides := mkCallOverrides (BatchedProvider.TagNumber <$> tag).

Definition noTrove : TroveWithPendingRedistribution.t :=
  TroveWithPendingRedistribution.new Readable.ZERO_ADDRESS UserTrove.nonExistent None None None None.
(** Its last two arguments are one object, the static [Decimal.ZERO]. *)
Definition noBammDeposit : BammDeposit.t :=
  BammDeposit.mk Decimal.ZERO Decimal.ZERO Decimal.ZERO Decimal.ZERO Decimal.ZERO Decimal.ZERO
    (0%N, Decimal.ZERO) (0%N, Decimal.ZERO).

Definition _getRiskiestTroveBeforeRedistribution (overrides : option CallOverrides) :
    Res TroveWithPendingRedistribution.t :=
  let! riskiestTroves := Readable.getTroves
    (mkListing (JInt 1) Readable.ascendingCollateralRatio None (Some true)) overrides in
  match riskiestTroves with
  | inl (t :: _) => Ok t
  | _ => Ok noTrove
  end.

(** The value of an answer, in an object of its own. *)
Definition read {A} (r : Res A) : St St_ (Obj A) := do! a := st_lift r in alloc a.

(** What is read of the user; zeros when there is none. *)
Definition ofUser {A} (none : Res A) (f : string -> Res A) : Res A :=
  match connection_userAddress with Some a => f a | None => none end.

Definition zero : Res Decimal.t := Ok Decimal.ZERO.

Definition _get (tag : option Z) : St St_ (LiquityStoreBaseState * ExtraState) :=
  let o := Some (at_ tag) in
  do! blockTimestamp := st_lift (Readable._getBlockTimestamp (Readable.blockTag (at_ tag))) in
  do! _feesFactory := read (Readable._getFeesFactory o) in
  do! price := read (Readable.getPrice o) in
  do! marketPrice := read (Readable.getMarketPrice o) in
  do! piRedemptionRate := read (Readable.getRedemptionRate o) in
  do! deviationFactor := read (Readable.getDeviationFactor o) in
  do! numberOfTroves := st_lift (Readable.getNumberOfTroves o) in
  do! totalRedistributed := read (Readable.getTotalRedistributed o) in
  do! total := read (Readable.getTotal o) in
  do! thusdInStabilityPool := read (Readable.getTHUSDInStabilityPool o) in
  do! pcvBalance := read zero in
  do! _riskiest := read (_getRiskiestTroveBeforeRedistribution o) in
  do! symbol := st_lift (Readable.getSymbol o) in
  do! collateralAddress := st_lift (Readable.getCollateralAddress o) in
  do! stableAddress := st_lift (Readable.getStableAddress o) in
  do! mintList := st_lift (Readable.checkMintList o) in
  do! bammAllowance := read zero in
  do! isStabilityPools := st_lift (Readable.isStabilityPools o) in
  do! isBorrowerOperations := st_lift (Readable.isBorrowerOperations o) in
  do! isTroveManager := st_lift (Readable.isTroveManager o) in
  do! accountBalance := read (ofUser zero (fun a =>
    Readable.decimal (provider_getBalance a (Readable.blockTag (at_ tag))))) in
  do! thusdBalance := read (ofUser zero (fun a => Readable.getTHUSDBalance (Some a) o)) in
  do! erc20TokenBalance := read (ofUser zero (fun a => Readable.getErc20TokenBalance (Some a) o)) in
  do! erc20TokenAllowance :=
    read (ofUser zero (fun a => Readable.getErc20TokenAllowance (Some a) o)) in
  do! collateralSurplusBalance :=
    read (ofUser zero (fun a => Readable.getCollateralSurplusBalance (Some a) o)) in
  do! troveBeforeRedistribution :=
    read (ofUser (Ok noTrove) (fun a => Readable.getTroveBeforeRedistribution (Some a) o)) in
  do! stabilityDeposit :=
    read (ofUser (StabilityDeposit.new Decimal.ZERO Decimal.ZERO Decimal.ZERO)
            (fun a => Readable.getStabilityDeposit (Some a) o)) in
  do! bammDeposit := read (Ok noBammDeposit) in
  do! _feesInNormalMode := read (snd _feesFactory blockTimestamp false) in
  st_ret
    (mkBase (fun A => A) numberOfTroves accountBalance thusdBalance erc20TokenBalance
       erc20TokenAllowance isStabilityPools isBorrowerOperations isTroveManager
       collateralSurplusBalance price marketPrice piRedemptionRate deviationFactor
       thusdInStabilityPool pcvBalance total totalRedistributed troveBeforeRedistribution symbol
       collateralAddress stableAddress stabilityDeposit bammDeposit mintList _feesInNormalMode
       _riskiest,
     mkExtra (F := fun A => A) tag blockTimestamp _feesFactory bammAllowance).

End Get.

(** A state as an update of all of its properties. *)
Definition wholeBase (b : LiquityStoreBaseState) : PartialBaseState :=
  mkBase option (Some (numberOfTroves _ b)) (Some (accountBalance _ b)) (Some (thusdBalance _ b))
    (Some (erc20TokenBalance _ b)) (Some (erc20TokenAllowance _ b)) (Some (isStabilityPools _ b))
    (Some (isBorrowerOperations _ b)) (Some (isTroveManager _ b))
    (Some (collateralSurplusBalance _ b)) (Some (price _ b)) (Some (marketPrice _ b))
    (Some (piRedemptionRate _ b)) (Some (deviationFactor _ b)) (Some (thusdInStabilityPool _ b))
    (Some (pcvBalance _ b)) (Some (total _ b)) (Some (totalRedistributed _ b))
    (Some (troveBeforeRedistribution _ b)) (Some (symbol _ b)) (Some (collateralAddress _ b))
    (Some (stableAddress _ b)) (Some (stabilityDeposit _ b)) (Some (bammDeposit _ b))
    (Some (mintList _ b)) (Some (_feesInNormalMode _ b))
    (Some (_riskiestTroveBeforeRedistribution _ b)).
Definition wholeExtra (e : ExtraState) : PartialExtraState :=
  mkExtra (F := option) (blockTag e) (Some (blockTimestamp e)) (Some (_feesFactory e))
    (Some (bammAllowance e)).

(** ** The life of a store *)

(** The store, the number of block listeners it has registered (one per [start()] that was not
    undone), and the polls that wait for an answer: the first one of a listener, of no particular
    block, and those of the blocks since. *)
Record Polled : Type := mkPolled {
  store : St_;
  listening : nat;
  polls : list (option Z);
}.

Definition newPolled : Polled := mkPolled newStore 0 [].

(** [start()], up to the first [await] of [_get], and the function it returns. *)
Definition start (p : Polled) : Polled := mkPolled (store p) (S (listening p)) (polls p ++ [None]).
Definition stop_ (p : Polled) : Polled := 
  mkPolled (stop (store p)) (pred (listening p)) (polls p).

(** The [blockListener]s, up to their [await]. *)
Definition onBlock (b : Z) (p : Polled) : Polled :=
  mkPolled (store p) (listening p) (polls p ++ repeat (Some b) (listening p)).

Definition unit_ {A} (m : St St_ A) : St St_ unit := do! _ := m in st_ret tt.

(** What a poll does with the state it got: the first one only loads. *)
Definition handle (tag : option Z) (state : LiquityStoreBaseState * ExtraState) : St St_ unit :=
  do! loaded := st_gets _loaded in
  match tag, (loaded : bool) with
  | None, true => st_ret tt
  | Some _, true =>
      unit_ (_update (Some (wholeBase (fst state))) (Some (wholeExtra (snd state))))
  | _, false => _load (fst state) (Some (snd state))
  end.

(** The [i]-th poll is answered; what it throws, nobody catches. *)
Definition answered {C : Chain} (i : nat) (p : Polled) : Polled :=
  match polls p !! i with
  | Some tag =>
      mkPolled (snd ((do! state := _get tag in handle tag state) (store p))) (listening p)
        (delete i (polls p))
  | None => p
  end.

(** The host fires the timer of a scheduled update. *)
Definition timeout (id : N) (p : Polled) : Polled :=
  mkPolled (snd (fireTimer id (store p))) (listening p) (polls p).

Inductive Event : Type :=
| Start
| Stop
| Block (b : Z)
| Answered (chain : Chain) (i : nat)
| Timeout (id : N).

Definition step (e : Event) (p : Polled) : Polled :=
  match e with
  | Start => start p
  | Stop => stop_ p
  | Block b => onBlock b p
  | Answered chain i => answered i p
  | Timeout id => if existsb (N.eqb id) (timers (store p)) then timeout id p else p
  end.

Definition run (es : list Event) : Polled := fold_left (fun p e => step e p) es newPolled.

End Polling.
Arguments Polled : clear implicits.
End BlockPolled.

(** ** Reading through the store *)
Module PolledReadable.
Import BlockPolled.

Section Getters.
Context {BN : BigNumberOps} {C : Chain} {L : Type}.
Implicit Types s : Store ExtraState L.

(** A property of [this.store.state]: [undefined] before the store is loaded. *)
Definition baseOf {A} (f : LiquityStoreBaseState -> A) s : Res (option A) := Ok (f <$> _baseState s).
Definition derivedOf {A} (f : LiquityStoreDerivedState -> A) s : Res (option A) :=
  Ok (f <$> _derivedState s).
Definition extraOf {A} (f : ExtraState -> A) s : Res (option A) := Ok (f <$> _extraState s).
Definition asked {A} (r : Res A) : Res (option A) := res_map Some r.

Definition stateBlockTag s : option Z := _extraState s ≫= BlockPolled.blockTag.

Definition _blockHit (overrides : option CallOverrides) s : bool :=
  match overrides ≫= Readable.blockTag with
  | None => true
  | Some tag => bool_decide (Some tag = BatchedProvider.TagNumber <$> stateBlockTag s)
  end.

Definition _userHit (address : option string) (overrides : option CallOverrides) s : bool :=
  _blockHit overrides s &&
  match address with None => true | Some a => bool_decide (Some a = connection_userAddress) end.

Definition hasStore (store : option string) : bool :=
  match store with None => true | Some s => String.eqb s "blockPolled" end.

Definition getTotalRedistributed overrides s : Res (option Trove.t) :=
  if _blockHit overrides s then baseOf (fun b => snd (totalRedistributed _ b)) s
  else asked (Readable.getTotalRedistributed overrides).
Definition getTroveBeforeRedistribution address overrides s :
    Res (option TroveWithPendingRedistribution.t) :=
  if _userHit address overrides s then baseOf (fun b => snd (troveBeforeRedistribution _ b)) s
  else asked (Readable.getTroveBeforeRedistribution address overrides).
Definition getTrove address overrides s : Res (option UserTrove.t) :=
  if _userHit address overrides s then derivedOf (fun d => snd (trove d)) s
  else asked (Readable.getTrove address overrides).
Definition getNumberOfTroves overrides s : Res (option Z) :=
  if _blockHit overrides s then baseOf (fun b => numberOfTroves _ b) s
  else asked (Readable.getNumberOfTroves overrides).
Definition getPrice overrides s : Res (option Decimal.t) :=
  if _blockHit overrides s then baseOf (fun b => snd (price _ b)) s
  else asked (Readable.getPrice overrides).
Definition getMarketPrice overrides s : Res (option Decimal.t) :=
  asked (Readable.getMarketPrice overrides).
Definition getRedemptionRate overrides s : Res (option Decimal.t) :=
  asked (Readable.getRedemptionRate overrides).
Definition getDeviationFactor overrides s : Res (option Decimal.t) :=
  asked (Readable.getDeviationFactor overrides).
Definition getTotal overrides s : Res (option Trove.t) :=
  if _blockHit overrides s then baseOf (fun b => snd (total _ b)) s
  else asked (Readable.getTotal overrides).
Definition getWithdrawsSpShare withdrawAmount overrides s : Res (option string) :=
  asked (Readable.getWithdrawsSpShare withdrawAmount overrides).
Definition getSymbol overrides s : Res (option string) :=
  if _blockHit overrides s then baseOf (fun b => symbol _ b) s
  else asked (Readable.getSymbol overrides).
Definition getCollateralAddress overrides s : Res (option string) :=
  if _blockHit overrides s then baseOf (fun b => collateralAddress _ b) s
  else asked (Readable.getCollateralAddress overrides).
Definition getStableAddress overrides s : Res (option string) :=
  asked (Readable.getStableAddress overrides).
Definition getStabilityDeposit address overrides s : Res (option StabilityDeposit.t) :=
  if _userHit address overrides s then baseOf (fun b => snd (stabilityDeposit _ b)) s
  else asked (Readable.getStabilityDeposit address overrides).
Definition getBammDeposit (id : N) address overrides s : Res (option BammDeposit.t) :=
  if _userHit address overrides s then baseOf (fun b => snd (bammDeposit _ b)) s
  else asked (Readable.getBammDeposit id address overrides).
Definition getTHUSDInStabilityPool overrides s : Res (option Decimal.t) :=
  if _blockHit overrides s then baseOf (fun b => snd (thusdInStabilityPool _ b)) s
  else asked (Readable.getTHUSDInStabilityPool overrides).
Definition getPCVBalance overrides s : Res (option Decimal.t) :=
  if _blockHit overrides s then baseOf (fun b => snd (pcvBalance _ b)) s
  else asked (Readable.getPCVBalance overrides).
Definition getTHUSDBalance address overrides s : Res (option Decimal.t) :=
  if _userHit address overrides s then baseOf (fun b => snd (thusdBalance _ b)) s
  else asked (Readable.getTHUSDBalance address overrides).
Definition getErc20TokenBalance address overrides s : Res (option Decimal.t) :=
  if _userHit address overrides s then baseOf (fun b => snd (erc20TokenBalance _ b)) s
  else asked (Readable.getErc20TokenBalance address overrides).
Definition getErc20TokenAllowance address overrides s : Res (option Decimal.t) :=
  if _userHit address overrides s then baseOf (fun b => snd (erc20TokenAllowance _ b)) s
  else asked (Readable.getErc20TokenAllowance address overrides).
Definition isStabilityPools overrides s : Res (option bool) :=
  if _blockHit overrides s then baseOf (fun b => LiquityStore.isStabilityPools _ b) s
  else asked (Readable.isStabilityPools overrides).
Definition isBorrowerOperations overrides s : Res (option bool) :=
  if _blockHit overrides s then baseOf (fun b => LiquityStore.isBorrowerOperations _ b) s
  else asked (Readable.isBorrowerOperations overrides).
Definition isTroveManager overrides s : Res (option bool) :=
  if _blockHit overrides s then baseOf (fun b => LiquityStore.isTroveManager _ b) s
  else asked (Readable.isTroveManager overrides).
Definition checkMintList overrides s : Res (option bool) :=
  if _blockHit overrides s then baseOf (fun b => mintList _ b) s
  else asked (Readable.checkMintList overrides).
Definition getCollateralSurplusBalance address overrides s : Res (option Decimal.t) :=
  if _userHit address overrides s then baseOf (fun b => snd (collateralSurplusBalance _ b)) s
  else asked (Readable.getCollateralSurplusBalance address overrides).
Definition _getBlockTimestamp (tag : option BatchedProvider.BlockTag) s : Res (option Z) :=
  if _blockHit (Some (mkCallOverrides tag)) s then extraOf (fun e => BlockPolled.blockTimestamp e) s
  else asked (Readable._getBlockTimestamp tag).
Definition _getFeesFactory overrides s : Res (option FeesFactory) :=
  if _blockHit overrides s then extraOf (fun e => snd (BlockPolled._feesFactory e)) s
  else asked (Readable._getFeesFactory overrides).
Definition getFees overrides s : Res (option Fees.t) :=
  if _blockHit overrides s then derivedOf (fun d => snd (fees d)) s
  else asked (Readable.getFees overrides).
Definition getTroves params overrides s :
    Res (option (list TroveWithPendingRedistribution.t + list UserTrove.t)) :=
  asked (Readable.getTroves params overrides).
Definition _getActivePool : Res (option Trove.t) := Throw "Method not implemented.".
Definition _getDefaultPool : Res (option Trove.t) := Throw "Method not implemented.".
Definition getBammAllowance overrides s : Res (option Decimal.t) :=
  if _blockHit overrides s then extraOf (fun e => snd (BlockPolled.bammAllowance e)) s
  else asked (Readable.getBammAllowance overrides).

End Getters.
End PolledReadable.
