(* ===== verification/BlockPolledProperties.v ===== *)
(** * Properties of the block-polled store

    After a poll the store answers for its block as the chain does; a store that polls never loads
    twice; the last answer to arrive wins, whatever its block. *)

From S2P Require Import Prelude BigNumber Decimals Constants Troves Fees Deposits LiquityStore.
From S2P Require Import LiquityStoreProperties BatchedProvider Populatable Readable ReadableProperties.
From S2P Require Import BlockPolled.
Import LiquityStore LiquityStoreFacts BlockPolled.

Local Open Scope Z_scope.

Module BlockPolledFacts.
Section Facts.
Context {BN : BigNumberOps} {BNL : BigNumberLaws BN} {L : Type} `{Listeners L}.
Implicit Types s : Store ExtraState L.

(** ** What a poll reads *)

Lemma st_lift_inv {S A} (r : Res A) (s s' : S) a : st_lift r s = (Ok a, s') -> r = Ok a /\ s' = s.
Proof. unfold st_lift. by intros [= -> ->]. Qed.

Lemma read_inv {A} (r : Res A) s s' o :
  read r s = (Ok o, s') -> r = Ok (snd o) /\ sameCore s s'.
Proof.
  unfold read. intros (a & s1 & H1 & H2)%st_bind_inv. apply st_lift_inv in H1 as [-> ->].
  unfold alloc, st_bind, st_gets, st_modify, st_ret in H2. injection H2 as <- <-.
  split; [done|]. unfold sameCore. cbn. repeat split. lia.
Qed.

Section OneChain.
Context {C : Chain}.

(** The state [base, extra] is what the chain says of the block [tag]. *)
Record Reads_ (tag : option Z) (base : LiquityStoreBaseState) (extra : ExtraState) : Prop := {
  reads_tag : BlockPolled.blockTag extra = tag;
  reads_timestamp :
    Readable._getBlockTimestamp (Readable.blockTag (at_ tag)) = Ok (blockTimestamp extra);
  reads_feesFactory :
    Readable._getFeesFactory (Some (at_ tag)) = Ok (snd (BlockPolled._feesFactory extra));
  reads_allowance : snd (bammAllowance extra) = Decimal.ZERO;
  reads_price : Readable.getPrice (Some (at_ tag)) = Ok (snd (price _ base));
  reads_number : Readable.getNumberOfTroves (Some (at_ tag)) = Ok (numberOfTroves _ base);
  reads_totalRedistributed :
    Readable.getTotalRedistributed (Some (at_ tag)) = Ok (snd (totalRedistributed _ base));
  reads_total : Readable.getTotal (Some (at_ tag)) = Ok (snd (total _ base));
  reads_inPool :
    Readable.getTHUSDInStabilityPool (Some (at_ tag)) = Ok (snd (thusdInStabilityPool _ base));
  reads_pcv : snd (pcvBalance _ base) = Decimal.ZERO;
  reads_bamm : snd (bammDeposit _ base) = noBammDeposit;
  reads_symbol : Readable.getSymbol (Some (at_ tag)) = Ok (symbol _ base);
  reads_collateralAddress :
    Readable.getCollateralAddress (Some (at_ tag)) = Ok (collateralAddress _ base);
  reads_mintList : Readable.checkMintList (Some (at_ tag)) = Ok (mintList _ base);
  reads_isStabilityPools :
    Readable.isStabilityPools (Some (at_ tag)) = Ok (isStabilityPools _ base);
  reads_isBorrowerOperations :
    Readable.isBorrowerOperations (Some (at_ tag)) = Ok (isBorrowerOperations _ base);
  reads_isTroveManager : Readable.isTroveManager (Some (at_ tag)) = Ok (isTroveManager _ base);
  reads_fees : snd (BlockPolled._feesFactory extra) (blockTimestamp extra) false =
    Ok (snd (_feesInNormalMode _ base));
  reads_user a : connection_userAddress = Some a ->
    Readable.getTHUSDBalance (Some a) (Some (at_ tag)) = Ok (snd (thusdBalance _ base)) /\
    Readable.getErc20TokenBalance (Some a) (Some (at_ tag)) =
      Ok (snd (erc20TokenBalance _ base)) /\
    Readable.getErc20TokenAllowance (Some a) (Some (at_ tag)) =
      Ok (snd (erc20TokenAllowance _ base)) /\
    Readable.getCollateralSurplusBalance (Some a) (Some (at_ tag)) =
      Ok (snd (collateralSurplusBalance _ base)) /\
    Readable.getTroveBeforeRedistribution (Some a) (Some (at_ tag)) =
      Ok (snd (troveBeforeRedistribution _ base)) /\
    Readable.getStabilityDeposit (Some a) (Some (at_ tag)) = Ok (snd (stabilityDeposit _ base));
}.

Lemma get_inv tag s base extra s' :
  _get tag s = (Ok (base, extra), s') -> Reads_ tag base extra /\ sameCore s s'.
Proof.
  unfold _get. intros Hget.
  repeat (apply st_bind_inv in Hget; destruct Hget as (? & ? & ? & Hget)).
  unfold st_ret in Hget. injection Hget as <- <- <-.
  repeat match goal with
  | H : read _ _ = _ |- _ => apply read_inv in H; destruct H as [? ?]
  | H : st_lift _ _ = _ |- _ => apply st_lift_inv in H; destruct H as [? ?]; subst
  end.
  split; [|eauto 40 using sameCore_trans].
  unfold zero in *.
  split; cbn; try done; try (symmetry; by apply Ok_inj).
  intros a Ha. unfold ofUser in *. rewrite Ha in *. auto 10.
Qed.

(** ** What is then in the store *)

(** The amounts of a deposit that its [equals] compares as such. *)
Definition amounts (d : BammDeposit.t) : list Decimal.t :=
  [BammDeposit.bammPoolShare d; BammDeposit.poolShare d; BammDeposit.initialTHUSD d;
   BammDeposit.currentUSD d; BammDeposit.currentTHUSD d; BammDeposit.collateralGain d].

Lemma upd_bamm p n : amounts (snd (upd sameBamm p (Some n))) = amounts (snd n).
Proof.
  unfold upd. destruct (sameBamm p n) eqn:E; [|done]. unfold sameBamm, bammEquals in E.
  rewrite !andb_true_iff, !DecimalFacts.deqb_eq in E. unfold amounts. intuition congruence.
Qed.

(** The base state [b'] has the values of [b], but for those that are only read once. *)
Definition shows (b b' : LiquityStoreBaseState) : Prop :=
  numberOfTroves _ b' = numberOfTroves _ b /\ snd (price _ b') = snd (price _ b) /\
  snd (totalRedistributed _ b') = snd (totalRedistributed _ b) /\
  snd (total _ b') = snd (total _ b) /\
  snd (thusdInStabilityPool _ b') = snd (thusdInStabilityPool _ b) /\
  snd (pcvBalance _ b') = snd (pcvBalance _ b) /\
  snd (thusdBalance _ b') = snd (thusdBalance _ b) /\
  snd (erc20TokenBalance _ b') = snd (erc20TokenBalance _ b) /\
  snd (erc20TokenAllowance _ b') = snd (erc20TokenAllowance _ b) /\
  snd (collateralSurplusBalance _ b') = snd (collateralSurplusBalance _ b) /\
  snd (troveBeforeRedistribution _ b') = snd (troveBeforeRedistribution _ b) /\
  snd (stabilityDeposit _ b') = snd (stabilityDeposit _ b) /\
  snd (_feesInNormalMode _ b') = snd (_feesInNormalMode _ b) /\
  amounts (snd (bammDeposit _ b')) = amounts (snd (bammDeposit _ b)).

Lemma shows_refl b : shows b b.
Proof. unfold shows. auto 20. Qed.

Lemma treduce_shows old b : shows b (treduce old (wholeBase b)).
Proof.
  unfold shows. split.
  - cbn. by destruct (Z.eqb_spec (numberOfTroves _ old) (numberOfTroves _ b)).
  - split_and!; first [apply (upd_value _ _) | apply upd_bamm].
Qed.

(** The store after a poll of the block [b] that read [base] and [extra]. *)
Record Shown (base : LiquityStoreBaseState) (extra : ExtraState) s : Prop := {
  shown_base : exists b', _baseState s = Some b' /\ shows base b';
  shown_derived : exists b' d, _baseState s = Some b' /\ _derivedState s = Some d /\
    deriveValues b' = Ok (derivedValues d);
  shown_extra : exists e, _extraState s = Some e /\ BlockPolled.blockTag e = BlockPolled.blockTag extra /\
    blockTimestamp e = blockTimestamp extra /\ _feesFactory e = _feesFactory extra /\
    bammAllowance e = bammAllowance extra;
}.

Definition extraOk s : Prop := _loaded s = true -> _extraState s <> None.
Definition polledOk s : Prop := storeOk s /\ extraOk s.

Lemma handle_shown b base extra s :
  polledOk s -> validBase base -> BlockPolled.blockTag extra = Some b ->
  exists s', handle (Some b) (base, extra) s = (Ok tt, s') /\ polledOk s' /\ _loaded s' = true /\
    Shown base extra s' /\ (_loaded s = false -> _baseState s' = Some base) /\
    (_loaded s = true -> exists b0, _baseState s = Some b0 /\
       _baseState s' = Some (treduce b0 (wholeBase base))) /\
    exists id, timers s' = [id].
Proof.
  intros [Hok Hx] Hv Htag. unfold handle, unit_. erewrite st_bind_Ok by reflexivity.
  cbn [fst snd]. pose proof Hok as [Hc Ht]. destruct (_loaded s) eqn:Hl.
  - unfold coreOk in Hc. destruct (_baseState s) as [b0|] eqn:Hb, (_derivedState s) as [d|] eqn:Hd;
      [|done|done|congruence].
    destruct Hc as (_ & Hvb & _).
    assert (Hv' : validBase (updated (Some (wholeBase base)) b0))
      by (apply updated_valid; [done|]; intros u [= <-] f [= <-]; exact Hv).
    destruct (deriveValues_ok _ Hv') as [v Hdv].
    assert (Hex : forall e, Some (wholeExtra extra) = Some e -> _extraState s <> None)
      by (intros; by apply Hx).
    pose proof (update_preserves s (Some (wholeBase base)) (Some (wholeExtra extra)) Hok) as Hpres.
    destruct (update_ok s b0 d (Some (wholeBase base)) (Some (wholeExtra extra)) v Hb Hd Hdv Hex)
      as (d' & s1 & called & s2 & Hup & Hn & Hd' & _ & _ & _ & H1 & H2 & H3 & _ & (id & _ & Hid) & H4).
    destruct (notify_go_core _ _ _ _ _ Hn) as (E1 & E2 & E3 & E4 & _ & E6 & _).
    rewrite Hup in Hpres. cbn [snd] in Hpres. erewrite st_bind_Ok by exact Hup.
    exists s2. split; [done|]. destruct (_extraState s) as [e0|] eqn:He; [|by destruct (Hx Hl)].
    split.
    { split; [apply Hpres; [intros u [= <-] f [= <-]; exact Hv | done]|]. intros _. rewrite E4, H4. done. }
    split; [congruence|].
    split; [|split; [done | split; [|exists id; rewrite E6; by apply Hid]]].
    2: { intros _. exists b0. by rewrite E2, H2. }
    split.
    + exists (treduce b0 (wholeBase base)). split; [by rewrite E2, H2 | apply treduce_shows].
    + exists (treduce b0 (wholeBase base)), (treduceDerived d d').
      split; [by rewrite E2, H2|]. split; [by rewrite E3, H3|]. by rewrite treduceDerived_values, Hd'.
    + exists (reduceExtra e0 (wholeExtra extra)). split; [by rewrite E4, H4|]. cbn. by rewrite Htag.
  - destruct (load_ok s base (Some extra) Hl Hv)
      as (d & s' & Hload & H1 & H2 & H3 & H4 & H5 & H6 & _ & _ & id & Hid & Hts).
    exists s'. split; [exact Hload|]. split.
    { split; [|intros _; by rewrite H6]. split; [unfold coreOk; by rewrite H1, H2, H3|].
      right. exists id. auto. }
    split; [done|]. split; [|split; [done | split; [done | exists id; by apply Hts]]]. split.
    + exists base. split; [done | apply shows_refl].
    + by exists base, d.
    + exists extra. auto.
Qed.

End OneChain.

(** ** Reading from the store *)

Lemma setRecoveryMode_new (b m be : Decimal.t) l t r f c :
  Fees.new b m be l t r = Ok f -> Fees._setRecoveryMode f c = Fees.new b m be l t c.
Proof.
  intros Hf. unfold Fees.new in Hf. rewrite !DecimalFacts.from_decimal in Hf. cbn [res_bind] in Hf.
  destruct (Decimal.lt m _) as [[]|] eqn:E; cbn in Hf; [|done|done]. apply Ok_inj in Hf. by subst f.
Qed.

Lemma feesFactory_mode base last t f c :
  Readable.feesFactory base last t false = Ok f ->
  Fees._setRecoveryMode f c = Readable.feesFactory base last t c.
Proof.
  unfold Readable.feesFactory. destruct (bn_toNumber last) as [time|]; [|done]. cbn [res_bind].
  apply setRecoveryMode_new.
Qed.

(** The derived state holds what [getTrove] and [getFees] compute. *)
Lemma deriveValues_inv b t f br rr un : deriveValues b = Ok (t, f, br, rr, un) ->
  TroveWithPendingRedistribution.applyRedistribution (snd (troveBeforeRedistribution _ b))
    (snd (totalRedistributed _ b)) = Ok t /\
  exists critical,
    Trove.collateralRatioIsBelowCritical (snd (total _ b)) (Decimal.ofDecimal (snd (price _ b))) =
      Ok critical /\
    Fees._setRecoveryMode (snd (_feesInNormalMode _ b)) critical = Ok f.
Proof.
  unfold deriveValues. intros Hd. repeat res_inv Hd. apply Ok_inj in Hd.
  simplify_eq. split; [done|]. eauto.
Qed.

(** The timestamps of the chain: before the year 4147. *)
Class Timely (C : Chain) : Prop := {
  timely_block tag t : Readable._getBlockTimestamp tag = Ok t -> t <= 2 ^ 36;
  timely_operation o z : troveManager_lastFeeOperationTime o = Ok z -> 0 <= z <= MAX_SAFE_INTEGER;
}.

Lemma feesFactory_inv {C : Chain} o f :
  Readable._getFeesFactory o = Ok f ->
  exists last base, troveManager_lastFeeOperationTime (spreadOverrides o) = Ok last /\
    f = Readable.feesFactory base last.
Proof.
  unfold Readable._getFeesFactory. intros Hf. res_inv Hf. res_inv Hf. apply Ok_inj in Hf.
  eauto.
Qed.

Lemma reads_valid {C : Chain} `{!Timely C} tag base extra : Reads_ tag base extra -> validBase base.
Proof.
  intros HR. pose proof (reads_fees _ _ _ HR) as Hf.
  destruct (feesFactory_inv _ _ (reads_feesFactory _ _ _ HR)) as (last & b & Hlast & Hfac).
  rewrite Hfac in Hf. apply timely_operation in Hlast. unfold Readable.feesFactory in Hf.
  rewrite bn_toNumber_safe in Hf by lia. cbn [res_bind] in Hf.
  pose proof (timely_block _ _ (reads_timestamp _ _ _ HR)) as Ht.
  erewrite FeesFacts.fees_new_ok in Hf by apply DecimalFacts.from_decimal.
  destruct (DecimalFacts.dltb _ _) eqn:Hlt; [|done]. apply Ok_inj in Hf. unfold validBase.
  rewrite <- Hf. split.
  - unfold FeesFacts.wf. cbn. unfold DecimalFacts.dltb in Hlt. by apply N.ltb_lt in Hlt.
  - unfold FeesFacts.minutes. cbn. unfold Readable.convertToDate.
    apply Z.div_lt_upper_bound; [lia|]. lia.
Qed.

(** ** Blocks and users that hit *)

Lemma blockHit_shown base extra b s :
  Shown base extra s -> BlockPolled.blockTag extra = Some b ->
  PolledReadable._blockHit (Some (at_ (Some b))) s = true.
Proof.
  intros [_ _ (e & He & Htag & _)] Hb. unfold PolledReadable._blockHit, PolledReadable.stateBlockTag.
  rewrite He. cbn. rewrite Htag, Hb. cbn. by rewrite bool_decide_eq_true_2.
Qed.

Lemma userHit_shown {C : Chain} base extra b a u s :
  Shown base extra s -> BlockPolled.blockTag extra = Some b -> connection_userAddress = Some a ->
  u = None \/ u = Some a -> PolledReadable._userHit u (Some (at_ (Some b))) s = true.
Proof.
  intros HS Hb Ha Hu. unfold PolledReadable._userHit.
  rewrite (blockHit_shown base extra) by done. destruct Hu as [->| ->]; [done|].
  rewrite bool_decide_eq_true_2 by done. done.
Qed.

(** The address a user's getter uses. *)
Lemma requireAddress_user {C : Chain} a u :
  connection_userAddress = Some a -> u = None \/ u = Some a ->
  Readable.requireAddress u = Readable.requireAddress (Some a).
Proof. intros Ha [->| ->]; [|done]. cbn. by rewrite Ha. Qed.

(** A property of the base state answers what was read into it. *)
Lemma base_agrees {A} (f : LiquityStoreBaseState -> A) (r : Res A) base extra s :
  Shown base extra s -> (forall b', shows base b' -> f b' = f base) -> r = Ok (f base) ->
  PolledReadable.baseOf f s = PolledReadable.asked r.
Proof.
  intros [(b' & Hb & Hs) _ _] Hf ->. unfold PolledReadable.baseOf. rewrite Hb. cbn.
  by rewrite (Hf b' Hs).
Qed.

(** The first poll loads what it read as it is. *)
Lemma first_agrees {A} (f : LiquityStoreBaseState -> A) (r : Res A) base s :
  _baseState s = Some base -> r = Ok (f base) ->
  PolledReadable.baseOf f s = PolledReadable.asked r.
Proof. intros Hb ->. unfold PolledReadable.baseOf. by rewrite Hb. Qed.

Lemma extra_agrees {A} (f : ExtraState -> A) (r : Res A) base extra s :
  Shown base extra s ->
  (forall e, blockTimestamp e = blockTimestamp extra -> _feesFactory e = _feesFactory extra ->
     bammAllowance e = bammAllowance extra -> f e = f extra) -> r = Ok (f extra) ->
  PolledReadable.extraOf f s = PolledReadable.asked r.
Proof.
  intros [_ _ (e & He & _ & H1 & H2 & H3)] Hf ->. unfold PolledReadable.extraOf. rewrite He. cbn.
  by rewrite (Hf e H1 H2 H3).
Qed.

(** The derived state answers what the getters compute. *)
Lemma derived_agrees {C : Chain} tag base extra s a :
  Reads_ tag base extra -> Shown base extra s -> connection_userAddress = Some a ->
  PolledReadable.derivedOf (fun d => snd (trove d)) s =
    PolledReadable.asked (Readable.getTrove (Some a) (Some (at_ tag))) /\
  PolledReadable.derivedOf (fun d => snd (fees d)) s =
    PolledReadable.asked (Readable.getFees (Some (at_ tag))).
Proof.
  intros HR HS Ha. pose proof HS as [(b1 & Hb1 & Hs) (b' & d & Hb & Hd & Hv) _].
  assert (b1 = b') as -> by congruence.
  destruct Hs as (_ & Hprice & Hredis & Htotal & _ & _ & _ & _ & _ & _ & Htrove & _ & Hfees & _).
  apply deriveValues_inv in Hv. destruct Hv as (Ht & critical & Hc & Hf).
  unfold PolledReadable.derivedOf. rewrite Hd. cbn [fmap option_fmap option_map]. split.
  - unfold Readable.getTrove.
    destruct (reads_user _ _ _ HR a Ha) as (_ & _ & _ & _ & Htb & _). rewrite Htb.
    cbn [res_bind]. rewrite (reads_totalRedistributed _ _ _ HR). cbn [res_bind].
    rewrite Htrove, Hredis in Ht. by rewrite Ht.
  - unfold Readable.getFees.
    destruct (feesFactory_inv _ _ (reads_feesFactory _ _ _ HR)) as (last & r & _ & Hfac).
    pose proof (reads_fees _ _ _ HR) as Hnormal. rewrite Hfac in Hnormal.
    rewrite (reads_feesFactory _ _ _ HR). cbn [res_bind]. rewrite (reads_total _ _ _ HR).
    cbn [res_bind]. rewrite (reads_price _ _ _ HR). cbn [res_bind].
    change (Some (at_ tag) ≫= Readable.blockTag) with (Readable.blockTag (at_ tag)).
    rewrite (reads_timestamp _ _ _ HR). cbn [res_bind]. rewrite Htotal, Hprice in Hc. rewrite Hc.
    cbn [res_bind]. rewrite Hfac, <- (feesFactory_mode _ _ _ _ critical Hnormal), <- Hfees.
    by rewrite Hf.
Qed.

(** ** Runs *)

(** A computation that leaves the store as it is, but for new objects. *)
Definition steady {A} (m : St (Store ExtraState L) A) : Prop := forall s, sameCore s (snd (m s)).

Lemma steady_bind {A B} (m : St (Store ExtraState L) A) (k : A -> St (Store ExtraState L) B) :
  steady m -> (forall a, steady (k a)) -> steady (st_bind m k).
Proof.
  intros Hm Hk s. specialize (Hm s). unfold st_bind. destruct (m s) as [[a|] s1]; [|done].
  eapply sameCore_trans; [exact Hm | apply Hk].
Qed.
Lemma steady_lift {A} (r : Res A) : steady (st_lift r).
Proof. intros s. apply sameCore_refl. Qed.
Lemma steady_ret {A} (a : A) : steady (st_ret a).
Proof. intros s. apply sameCore_refl. Qed.
Lemma steady_read {A} (r : Res A) : steady (read r).
Proof.
  apply steady_bind; [apply steady_lift|]. intros a s. unfold sameCore. cbn. repeat split. lia.
Qed.
Lemma steady_get {C : Chain} tag : steady (_get tag).
Proof.
  unfold _get.
  repeat (apply steady_bind; [first [apply steady_lift | apply steady_read] | intros ?]).
  apply steady_ret.
Qed.

Lemma sameCore_polled s s' : sameCore s s' -> polledOk s -> polledOk s'.
Proof.
  intros Hc [Hs He]. split; [by eapply sameCore_ok|]. unfold extraOk in *.
  destruct Hc as (Hl & _ & _ & Hx & _). by rewrite Hl, Hx.
Qed.

(** The tag of the state in the store. *)
Definition storeTag s : option Z := _extraState s ≫= BlockPolled.blockTag.

(** A poll whose reads succeed never throws: it loads an empty store, and updates a loaded one if
    it is for a block, whatever block the store is at. *)
Lemma handle_ok {C : Chain} `{!Timely C} tag base extra s :
  polledOk s -> Reads_ tag base extra ->
  exists s', handle tag (base, extra) s = (Ok tt, s') /\ polledOk s' /\ _loaded s' = true /\
    storeTag s' = match tag with
                  | Some b => Some b
                  | None => if _loaded s then storeTag s else None
                  end /\
    (tag <> None \/ _loaded s = false -> exists id, timers s' = [id]).
Proof.
  intros Hok HR. pose proof (reads_tag _ _ _ HR) as Htag. pose proof (reads_valid _ _ _ HR) as Hv.
  destruct tag as [b|].
  - destruct (handle_shown b base extra s Hok Hv Htag) as (s' & Hh & Hok' & Hl & HS & _ & _ & Hid).
    exists s'. do 3 (split; [done|]). split; [|done]. destruct HS as [_ _ (e & He & Ht & _)].
    unfold storeTag. rewrite He. cbn. by rewrite Ht.
  - unfold handle. erewrite st_bind_Ok by reflexivity. cbn [fst snd].
    destruct (_loaded s) eqn:Hl; [exists s; do 4 (split; [done|]); by intros [|]|].
    destruct (load_ok s base (Some extra) Hl Hv)
      as (d & s' & Hload & H1 & H2 & H3 & H4 & H5 & H6 & _ & _ & id & Hid & Hts).
    exists s'. split; [exact Hload|]. destruct Hok as [[Hc Ht] _]. split.
    { split; [|intros _; by rewrite H6]. split; [unfold coreOk; by rewrite H1, H2, H3|].
      right. exists id. auto. }
    split; [done|]. split; [unfold storeTag; by rewrite H6|]. intros _. exists id. by apply Hts.
Qed.

Lemma answered_ok {C : Chain} `{!Timely C} i (p : Polled L) :
  polledOk (store p) -> polledOk (store (answered i p)).
Proof.
  intros Hok. unfold answered. destruct (polls p !! i) as [tag|]; [|done]. cbn.
  pose proof (steady_get tag (store p)) as Hcore. unfold st_bind.
  destruct (_get tag (store p)) as [[[base extra]|m] s1] eqn:Hget.
  - destruct (get_inv _ _ _ _ _ Hget) as [HR _].
    pose proof (sameCore_polled _ _ Hcore Hok) as Hok1.
    by destruct (handle_ok tag base extra s1 Hok1 HR) as (s' & -> & Hok' & _).
  - by eapply sameCore_polled.
Qed.

(** An update without new values keeps the extra state. *)
Lemma silent_extra s : storeOk s -> _loaded (snd (_update None None s)) = _loaded s /\
  _extraState (snd (_update None None s)) = _extraState s.
Proof.
  intros [Hc Ht]. unfold coreOk in Hc.
  destruct (_baseState s) as [b|] eqn:Hb, (_derivedState s) as [d|] eqn:Hd; try done.
  2: { unfold _update, st_gets, st_bind. by rewrite Hb. }
  destruct Hc as (Hl & Hvb & Hdv & Hbelow).
  destruct (update_ok s b d None None _ Hb Hd Hdv)
    as (d' & s1 & called & s2 & Hup & Hn & _ & _ & _ & _ & H1 & H2 & _ & _ & _ & H4); [done|].
  rewrite Hup. cbn [snd]. destruct (notify_go_core _ _ _ _ _ Hn) as (E1 & _ & _ & E4 & _).
  rewrite E1, E4, H1, H4. by destruct (_extraState s).
Qed.

Definition timelyEvent (e : Event) : Prop := match e with Answered C _ => Timely C | _ => True end.

Lemma step_polled e (p : Polled L) :
  timelyEvent e -> polledOk (store p) -> polledOk (store (BlockPolled.step e p)).
Proof.
  intros He Hok. pose proof Hok as [Hs Hx]. destruct e; cbn [BlockPolled.step start stop_ onBlock store]; try done.
  - split; [by apply (step_ok (store p)); [apply step_stop|]|].
    unfold stop, _cancelUpdateIfScheduled. by destruct (_updateTimeoutId (store p)).
  - by apply (@answered_ok chain He).
  - destruct (existsb _ _) eqn:E; [|done]. unfold timeout. cbn [store]. apply existsb_exists in E.
    destruct E as (i & Hi & ->%N.eqb_eq). split; [eapply step_ok; [by apply step_timer | done]|].
    set (s0 := with_timers None (List.filter (fun t => negb (t =? i)%N) (timers (store p))) (store p)).
    assert (Hs0 : storeOk s0).
    { split; [apply Hs|]. left. cbn. destruct Hs as [_ [Hnil|(j & _ & Hj)]]; [by rewrite Hnil in Hi|].
      rewrite Hj in Hi |- *. destruct Hi as [->|[]]. cbn. by rewrite N.eqb_refl. }
    destruct (silent_extra s0 Hs0) as [E1 E2]. unfold extraOk.
    change (fireTimer i (store p)) with (_update None None s0). rewrite E1, E2. exact Hx.
Qed.

Lemma run_polled es : Forall timelyEvent es -> polledOk (store (BlockPolled.run (L := L) es)).
Proof.
  assert (Hinit : polledOk (store (newPolled (L := L)))) by (split; [split; [done | by left] | done]).
  unfold BlockPolled.run. revert Hinit. generalize (newPolled (L := L)).
  induction es as [|e es IH]; intros p Hp Hes; [done|]. cbn. inversion_clear Hes.
  apply IH; [by apply step_polled | done].
Qed.

End Facts.
End BlockPolledFacts.
Import BlockPolledFacts.

(** A getter that hits, of a property of the base state that [HR] says was read. *)
Tactic Notation "by_base" reference(getter) hyp(Hhit) hyp(HS) hyp(HR) :=
  unfold getter; rewrite Hhit; eapply base_agrees;
  [exact HS | let b := fresh in let Hs := fresh in intros b Hs; apply Hs | apply HR].

(** The same of a property of the user. *)
Tactic Notation "by_user" reference(getter) reference(reader) hyp(Huser) hyp(Hreq) hyp(HS)
    hyp(Hread) :=
  unfold getter; rewrite Huser; unfold reader; rewrite Hreq; eapply base_agrees;
  [exact HS | let b := fresh in let Hs := fresh in intros b Hs; apply Hs | exact Hread].

Module BlockPolledProperties.
Section Properties.
Context {BN : BigNumberOps} {BNL : BigNumberLaws BN} {L : Type} `{Listeners L}.
Context {C : Chain} `{!Timely C}.
Implicit Types s : Store ExtraState L.

Local Abbreviation agrees getter reader := (getter = PolledReadable.asked reader) (only parsing).

(** The getters of properties that no update replaces. *)
Definition readOnce (o : option CallOverrides) s s' : Prop :=
  PolledReadable.getSymbol o s' = PolledReadable.baseOf (fun b => symbol _ b) s /\
  PolledReadable.getCollateralAddress o s' = PolledReadable.baseOf (fun b => collateralAddress _ b) s /\
  PolledReadable.isStabilityPools o s' = PolledReadable.baseOf (fun b => isStabilityPools _ b) s /\
  PolledReadable.isBorrowerOperations o s' =
    PolledReadable.baseOf (fun b => isBorrowerOperations _ b) s /\
  PolledReadable.isTroveManager o s' = PolledReadable.baseOf (fun b => isTroveManager _ b) s /\
  PolledReadable.checkMintList o s' = PolledReadable.baseOf (fun b => mintList _ b) s.

(** C7: after the poll of a block, which never throws, the getters answer for that block, and for
    the user or without an address, as follows.  Price, number and totals of Troves, pool, fees,
    timestamp, the user's Trove before and after redistribution, deposit, balances, allowance and
    surplus: what [ReadableEthersLiquity] would answer from the chain.  The symbol, the address of
    the collateral and the four checks of the contracts (the mint list included): the same after
    the poll that loads the store; after any later one, what the store held before it.  The PCV
    balance, the allowance and the six amounts of the B.AMM deposit: zero, whatever the chain
    says. *)
Theorem polled_reads_are_reads s b base extra s1 a u :
  polledOk s -> _get (Some b) s = (Ok (base, extra), s1) ->
  connection_userAddress = Some a -> u = None \/ u = Some a ->
  let o := Some (at_ (Some b)) in
  exists s', handle (Some b) (base, extra) s1 = (Ok tt, s') /\
    agrees (PolledReadable.getPrice o s') (Readable.getPrice o) /\
    agrees (PolledReadable.getNumberOfTroves o s') (Readable.getNumberOfTroves o) /\
    agrees (PolledReadable.getTotalRedistributed o s') (Readable.getTotalRedistributed o) /\
    agrees (PolledReadable.getTotal o s') (Readable.getTotal o) /\
    agrees (PolledReadable.getTHUSDInStabilityPool o s') (Readable.getTHUSDInStabilityPool o) /\
    agrees (PolledReadable.getFees o s') (Readable.getFees o) /\
    agrees (PolledReadable._getFeesFactory o s') (Readable._getFeesFactory o) /\
    agrees (PolledReadable._getBlockTimestamp (o ≫= Readable.blockTag) s')
      (Readable._getBlockTimestamp (o ≫= Readable.blockTag)) /\
    agrees (PolledReadable.getTrove u o s') (Readable.getTrove u o) /\
    agrees (PolledReadable.getTroveBeforeRedistribution u o s')
      (Readable.getTroveBeforeRedistribution u o) /\
    agrees (PolledReadable.getStabilityDeposit u o s') (Readable.getStabilityDeposit u o) /\
    agrees (PolledReadable.getTHUSDBalance u o s') (Readable.getTHUSDBalance u o) /\
    agrees (PolledReadable.getErc20TokenBalance u o s') (Readable.getErc20TokenBalance u o) /\
    agrees (PolledReadable.getErc20TokenAllowance u o s') (Readable.getErc20TokenAllowance u o) /\
    agrees (PolledReadable.getCollateralSurplusBalance u o s')
      (Readable.getCollateralSurplusBalance u o) /\
    (_loaded s = false ->
       agrees (PolledReadable.getSymbol o s') (Readable.getSymbol o) /\
       agrees (PolledReadable.getCollateralAddress o s') (Readable.getCollateralAddress o) /\
       agrees (PolledReadable.isStabilityPools o s') (Readable.isStabilityPools o) /\
       agrees (PolledReadable.isBorrowerOperations o s') (Readable.isBorrowerOperations o) /\
       agrees (PolledReadable.isTroveManager o s') (Readable.isTroveManager o) /\
       agrees (PolledReadable.checkMintList o s') (Readable.checkMintList o)) /\
    (_loaded s = true -> readOnce o s s') /\
    (forall id, exists d, PolledReadable.getBammDeposit id u o s' = Ok (Some d) /\
       Forall (fun a => a = Decimal.ZERO) (amounts d)) /\
    PolledReadable.getPCVBalance o s' = Ok (Some Decimal.ZERO) /\
    PolledReadable.getBammAllowance o s' = Ok (Some Decimal.ZERO).
Proof.
  intros Hok Hget Ha Hu o. destruct (get_inv _ _ _ _ _ Hget) as [HR Hcore].
  pose proof (reads_tag _ _ _ HR) as Htag.
  assert (Hok1 : polledOk s1).
  { destruct Hok as [Hs He]. split; [by eapply sameCore_ok|]. unfold extraOk in *.
    destruct Hcore as (Hl & _ & _ & Hx & _). by rewrite Hl, Hx. }
  destruct (handle_shown b base extra s1 Hok1 (reads_valid _ _ _ HR) Htag)
    as (s' & Hh & _ & _ & HS & Hfirst & Hlater & _).
  exists s'. split; [exact Hh|]. clear Hget Hok Hok1 Hh.
  pose proof (blockHit_shown base extra b s' HS Htag) as Hhit. fold o in Hhit.
  pose proof (userHit_shown base extra b a u s' HS Htag Ha Hu) as Huser. fold o in Huser.
  pose proof (requireAddress_user a u Ha Hu) as Hreq.
  destruct (reads_user _ _ _ HR a Ha) as (Hu1 & Hu2 & Hu3 & Hu4 & Hu5 & Hu6).
  destruct (derived_agrees _ _ _ _ _ HR HS Ha) as [Htrove Hfees].
  split_and!.
  - by_base PolledReadable.getPrice Hhit HS HR.
  - by_base PolledReadable.getNumberOfTroves Hhit HS HR.
  - by_base PolledReadable.getTotalRedistributed Hhit HS HR.
  - by_base PolledReadable.getTotal Hhit HS HR.
  - by_base PolledReadable.getTHUSDInStabilityPool Hhit HS HR.
  - unfold PolledReadable.getFees. subst o. by rewrite Hhit.
  - unfold PolledReadable._getFeesFactory. subst o. rewrite Hhit.
    eapply extra_agrees; [exact HS | by intros e _ -> _ | apply HR].
  - unfold PolledReadable._getBlockTimestamp. subst o.
    change (mkCallOverrides _) with (at_ (Some b)). rewrite Hhit.
    eapply extra_agrees; [exact HS | by intros e -> _ _ | apply HR].
  - unfold PolledReadable.getTrove. subst o. rewrite Huser, Htrove.
    unfold Readable.getTrove, Readable.getTroveBeforeRedistribution. by rewrite Hreq.
  - by_user PolledReadable.getTroveBeforeRedistribution Readable.getTroveBeforeRedistribution
      Huser Hreq HS Hu5.
  - by_user PolledReadable.getStabilityDeposit Readable.getStabilityDeposit Huser Hreq HS Hu6.
  - by_user PolledReadable.getTHUSDBalance Readable.getTHUSDBalance Huser Hreq HS Hu1.
  - by_user PolledReadable.getErc20TokenBalance Readable.getErc20TokenBalance Huser Hreq HS Hu2.
  - by_user PolledReadable.getErc20TokenAllowance Readable.getErc20TokenAllowance
      Huser Hreq HS Hu3.
  - by_user PolledReadable.getCollateralSurplusBalance Readable.getCollateralSurplusBalance
      Huser Hreq HS Hu4.
  - intros Hl. assert (Hb : _baseState s' = Some base)
      by (apply Hfirst; destruct Hcore as (-> & _); done).
    split_and!; [unfold PolledReadable.getSymbol | unfold PolledReadable.getCollateralAddress
      | unfold PolledReadable.isStabilityPools | unfold PolledReadable.isBorrowerOperations
      | unfold PolledReadable.isTroveManager | unfold PolledReadable.checkMintList];
      rewrite Hhit; eapply first_agrees; try exact Hb; apply HR.
  - intros Hl. destruct Hlater as (b0 & Hb0 & Hb); [by destruct Hcore as (-> & _)|].
    assert (Hs : _baseState s = Some b0) by (by destruct Hcore as (_ & <- & _)).
    unfold readOnce, PolledReadable.getSymbol, PolledReadable.getCollateralAddress,
      PolledReadable.isStabilityPools, PolledReadable.isBorrowerOperations,
      PolledReadable.isTroveManager, PolledReadable.checkMintList, PolledReadable.baseOf.
    by rewrite Hhit, Hb, Hs.
  - intros id. unfold PolledReadable.getBammDeposit. rewrite Huser.
    destruct HS as [(b' & Hb & Hs) _ _]. unfold PolledReadable.baseOf. rewrite Hb.
    eexists. split; [reflexivity|]. destruct Hs as (_ & _ & _ & _ & _ & _ & _ & _ & _ & _ & _ & _ & _ & Hs).
    rewrite Hs, (reads_bamm _ _ _ HR). by repeat constructor.
  - unfold PolledReadable.getPCVBalance. rewrite Hhit. rewrite <- (reads_pcv _ _ _ HR).
    apply (base_agrees _ (Ok _) base extra); [done | intros b' Hs; apply Hs | done].
  - unfold PolledReadable.getBammAllowance. rewrite Hhit. rewrite <- (reads_allowance _ _ _ HR).
    apply (extra_agrees _ (Ok _) base extra); [done | by intros e _ _ -> | done].
Qed.
End Properties.

(** The last answer wins: whatever the run so far, a poll whose reads succeed is handled
    without throwing (the state is loaded at most once); the poll of a block leaves the store at
    that block, also when it already was at a later one, and schedules an update, also when the
    store was stopped meanwhile; the first poll does nothing to a loaded store. *)
Theorem last_answer_wins {BN : BigNumberOps} {BNL : BigNumberLaws BN} {L : Type} `{Listeners L}
    {C : Chain} `{!Timely C} es i tag base extra s1 :
  let p := BlockPolled.run (L := L) es in
  Forall timelyEvent es -> polls p !! i = Some tag ->
  _get tag (store p) = (Ok (base, extra), s1) ->
  handle tag (base, extra) s1 = (Ok tt, store (answered i p)) /\
  _loaded (store (answered i p)) = true /\
  storeTag (store (answered i p)) =
    match tag with
    | Some b => Some b
    | None => if _loaded (store p) then storeTag (store p) else None
    end /\
  (tag <> None \/ _loaded (store p) = false -> exists id, timers (store (answered i p)) = [id]).
Proof.
  intros p Hes Hi Hget. pose proof (run_polled (L := L) es Hes) as Hok. fold p in Hok.
  destruct (get_inv _ _ _ _ _ Hget) as [HR Hcore].
  destruct (handle_ok tag base extra s1 (sameCore_polled _ _ Hcore Hok) HR)
    as (s' & Hh & _ & Hl & Htag & Hid).
  assert (Hs' : store (answered i p) = s').
  { unfold answered. rewrite Hi. cbn [store]. rewrite (st_bind_Ok _ _ _ _ _ Hget). by rewrite Hh. }
  rewrite Hs'. split; [done|]. split; [done|].
  destruct Hcore as (El & _ & _ & Ex & _). unfold storeTag in *. rewrite El, Ex in *. done.
Qed.

End BlockPolledProperties.

Module BlockPolledRuns.
Import BlockPolledProperties.
#[local] Existing Instance Z_bignumber.
#[local] Existing Instance Z_bignumber_laws.
#[local] Existing Instance ReadableRuns.someChain.

#[local] Instance quiet : Listeners unit := fun _ _ => [].

#[local] Instance someChain_timely : Timely ReadableRuns.someChain.
Proof.
  split.
  - intros tag t Ht. unfold Readable._getBlockTimestamp in Ht. cbn in Ht. apply Ok_inj in Ht. lia.
  - intros o z [= <-]. unfold MAX_SAFE_INTEGER. lia.
Qed.

(** The store starts, two blocks come, and the second one is answered first. *)
Definition started : list Event :=
  [Start; Answered ReadableRuns.someChain 0; Block 7; Block 8; Answered ReadableRuns.someChain 1].

Local Abbreviation polling := (BlockPolled.run (L := unit) started).
Local Abbreviation reader := (store (BlockPolled.run (L := unit) started)).

Lemma reader_gets tag :
  exists base extra s1, _get (Some tag) reader = (Ok (base, extra), s1).
Proof.
  destruct (_get (Some tag) reader) as [[[base extra]|m] s1] eqn:E; [by exists base, extra, s1|].
  exfalso. apply (f_equal (fun r => res_ok (fst r))) in E. by vm_compute in E.
Qed.

Lemma started_timely : Forall timelyEvent started.
Proof.
  repeat (apply Forall_cons_2; [first [exact I | exact someChain_timely]|]). apply Forall_nil_2.
Qed.

Lemma polling_polls : polls polling !! 0%nat = Some (Some 7).
Proof. vm_compute. reflexivity. Qed.

Lemma last_answer_wins_witness :
  storeTag reader = Some 8 /\ storeTag (store (answered 0 polling)) = Some 7.
Proof.
  split; [vm_compute; reflexivity|].
  destruct (reader_gets 7) as (base & extra & s1 & Hget).
  pose proof (last_answer_wins started 0 (Some 7) base extra s1 started_timely polling_polls Hget)
    as H.
  exact (proj1 (proj2 (proj2 H))).
Defined.

Lemma polled_reads_are_reads_witness :
  exists base extra s1, _get (Some 9) reader = (Ok (base, extra), s1) /\
  exists s', handle (Some 9) (base, extra) s1 = (Ok tt, s') /\
    PolledReadable.getFees (Some (at_ (Some 9))) s' =
      PolledReadable.asked (Readable.getFees (Some (at_ (Some 9)))).
Proof.
  destruct (reader_gets 9) as (base & extra & s1 & Hget). exists base, extra, s1.
  split; [exact Hget|].
  destruct (polled_reads_are_reads reader 9 base extra s1 "0xa" None
    (run_polled started started_timely) Hget eq_refl (or_introl eq_refl))
    as (s' & Hh & _ & _ & _ & _ & _ & Hf & _).
  exists s'. exact (conj Hh Hf).
Defined.

End BlockPolledRuns.
