(* ===== verification/WebSocketProvider.v ===== *)
(** * The provider with a WebSocket: [src/packages/providers/src/WebSocketAugmentedProvider.ts]

    A provider that listens for new blocks on a WebSocket when it has one and on the provider
    below otherwise, notifies its own block listeners at most every 50 milliseconds, reconnects a
    socket that closed, and retries calls that hit a node which lags behind.  A socket and the
    host (timers, callbacks that were deferred) are part of the state; [step] is one turn of the
    event loop.  The three polling loops are [firstDone] over the attempts' outcomes. *)

From S2P Require Import Prelude.

Local Open Scope Z_scope.

Module WebSocketProvider.

(** ** State *)

(** The events the provider handles itself. *)
Inductive EventType : Type :=
| BlockEvent
| TransactionHash (hash : string).

(** What [_wrap] makes of a listener: [pass], [passOnce], [waitFor(fetchReceipt)] and
    [sequence(waitFor(fetchReceipt), passOnce)]. *)
Inductive Wrapper : Type :=
| Pass
| PassOnce
| WaitFor (hash : string)
| WaitForOnce (hash : string).

Inductive Argument : Type :=
| BlockNumber (n : Z)
| Receipt (hash : string).

(** A socket: whether [onClose] is the provider's handler, and how many times [_blockListener] is
    registered with it. *)
Record Socket : Type := mkSocket { onClose : bool; socketListeners : nat }.

Record Fetch : Type := mkFetch { fetchKey : N; fetchOnce : bool; fetchHash : string; latest : option Z }.

Record t : Type := mk {
  _wsProvider : option N;
  _wsParams : bool;
  _reconnectTimerId : option N;
  _seenBlock : Z;
  _blockListenerScheduled : bool;
  _blockListeners : list (N * Wrapper);
  (** the provider below and the host *)
  baseListeners : nat;
  sockets : list (N * Socket);
  reconnectTimers : list N;
  notifications : nat;
  fetches : list Fetch;
  deferred : list (N * Argument);
  fresh : N;
}.

Definition init : t := mk None false None 0 false [] 0 [] [] 0 [] [] 0%N.

Definition with_ws (ws : option N) (params : bool) (s : t) : t :=
  mk ws params (_reconnectTimerId s) (_seenBlock s) (_blockListenerScheduled s)
    (_blockListeners s) (baseListeners s) (sockets s) (reconnectTimers s) (notifications s)
    (fetches s) (deferred s) (fresh s).
Definition with_reconnect (id : option N) (timers : list N) (s : t) : t :=
  mk (_wsProvider s) (_wsParams s) id (_seenBlock s) (_blockListenerScheduled s)
    (_blockListeners s) (baseListeners s) (sockets s) timers (notifications s) (fetches s)
    (deferred s) (fresh s).
Definition with_seen (n : Z) (scheduled : bool) (pending : nat) (s : t) : t :=
  mk (_wsProvider s) (_wsParams s) (_reconnectTimerId s) n scheduled
    (_blockListeners s) (baseListeners s) (sockets s) (reconnectTimers s) pending (fetches s)
    (deferred s) (fresh s).
Definition with_listeners (l : list (N * Wrapper)) (s : t) : t :=
  mk (_wsProvider s) (_wsParams s) (_reconnectTimerId s) (_seenBlock s)
    (_blockListenerScheduled s) l (baseListeners s) (sockets s) (reconnectTimers s)
    (notifications s) (fetches s) (deferred s) (fresh s).
Definition with_base (n : nat) (s : t) : t :=
  mk (_wsProvider s) (_wsParams s) (_reconnectTimerId s) (_seenBlock s)
    (_blockListenerScheduled s) (_blockListeners s) n (sockets s) (reconnectTimers s)
    (notifications s) (fetches s) (deferred s) (fresh s).
Definition with_sockets (l : list (N * Socket)) (s : t) : t :=
  mk (_wsProvider s) (_wsParams s) (_reconnectTimerId s) (_seenBlock s)
    (_blockListenerScheduled s) (_blockListeners s) (baseListeners s) l (reconnectTimers s)
    (notifications s) (fetches s) (deferred s) (fresh s).
Definition with_queues (f : list Fetch) (d : list (N * Argument)) (s : t) : t :=
  mk (_wsProvider s) (_wsParams s) (_reconnectTimerId s) (_seenBlock s)
    (_blockListenerScheduled s) (_blockListeners s) (baseListeners s) (sockets s)
    (reconnectTimers s) (notifications s) f d (fresh s).
Definition next (s : t) : t :=
  mk (_wsProvider s) (_wsParams s) (_reconnectTimerId s) (_seenBlock s)
    (_blockListenerScheduled s) (_blockListeners s) (baseListeners s) (sockets s)
    (reconnectTimers s) (notifications s) (fetches s) (deferred s) (fresh s + 1).

(** ** Registering with a socket or with the provider below *)

Definition updateSocket (id : N) (f : Socket -> Socket) (l : list (N * Socket)) :
    list (N * Socket) :=
  map (fun e => if (fst e =? id)%N then (fst e, f (snd e)) else e) l.

(** [super.on("block", this._blockListener)] registers again; [off] removes one registration. *)
Definition baseOn (s : t) : t := with_base (S (baseListeners s)) s.
Definition baseOff (s : t) : t := with_base (pred (baseListeners s)) s.
Definition socketOn (id : N) (s : t) : t :=
  with_sockets (updateSocket id (fun k => mkSocket (onClose k) (S (socketListeners k))) (sockets s)) s.
Definition socketOff (id : N) (s : t) : t :=
  with_sockets (updateSocket id (fun k => mkSocket (onClose k) (pred (socketListeners k))) (sockets s)) s.

Definition _startBlockEvents (s : t) : t :=
  match _wsProvider s with Some id => socketOn id s | None => baseOn s end.
Definition _stopBlockEvents (s : t) : t :=
  match _wsProvider s with Some id => socketOff id s | None => baseOff s end.

Definition _switchover (s : t) : t :=
  match _blockListeners s with
  | [] => s
  | _ => _startBlockEvents (match _wsProvider s with Some _ => baseOff s | None => s end)
  end.

(** ** The socket's life *)

Definition openWebSocket (s : t) : t :=
  let id := fresh s in
  let s := with_sockets (sockets s ++ [(id, mkSocket true 0)]) (next s) in
  _switchover (with_ws (Some id) true s).

(** A socket that was told to close says nothing more. *)
Definition closeWebSocket (s : t) : t :=
  match _wsProvider s with
  | Some id =>
      let s := with_sockets (List.filter (fun e => negb (fst e =? id)%N) (sockets s)) s in
      let s := _switchover (with_ws None (_wsParams s) s) in
      match _reconnectTimerId s with
      | Some timer =>
          with_reconnect None (List.filter (fun i => negb (i =? timer)%N) (reconnectTimers s)) s
      | None => s
      end
  | None => s
  end.

Definition _onWebSocketClose (s : t) : t :=
  let s := closeWebSocket s in
  let timer := fresh s in
  with_reconnect (Some timer) (reconnectTimers s ++ [timer]) (next s).

(** ** Blocks and listeners *)

Definition _onBlock (blockNumber : Z) (s : t) : t :=
  if _blockListenerScheduled s then with_seen blockNumber true (notifications s) s
  else with_seen blockNumber true (S (notifications s)) s.

Definition has (key : N) (s : t) : bool := existsb (fun e => (fst e =? key)%N) (_blockListeners s).

(** [this._blockListeners.delete(key)] *)
Definition removeMe (key : N) (s : t) : t :=
  with_listeners (List.filter (fun e => negb (fst e =? key)%N) (_blockListeners s)) s.

(** [defer(f)(argument)] *)
Definition defer (key : N) (argument : Argument) (s : t) : t :=
  with_queues (fetches s) (deferred s ++ [(key, argument)]) s.

Definition fetchReceipt (f : Fetch) (s : t) : t := with_queues (fetches s ++ [f]) (deferred s) s.

(** A wrapped listener is called; a listener for blocks never without a block. *)
Definition invoke (key : N) (w : Wrapper) (block : option Z) (s : t) : t :=
  match w, block with
  | Pass, Some n => defer key (BlockNumber n) s
  | PassOnce, Some n => removeMe key (defer key (BlockNumber n) s)
  | WaitFor hash, _ => fetchReceipt (mkFetch key false hash block) s
  | WaitForOnce hash, _ => fetchReceipt (mkFetch key true hash block) s
  | _, None => s
  end.

(** The timeout of [_onBlock], over a copy of the listeners. *)
Definition notify (s : t) : t :=
  let s := with_seen (_seenBlock s) false (pred (notifications s)) s in
  fold_left (fun s e => invoke (fst e) (snd e) (Some (_seenBlock s)) s) (_blockListeners s) s.

(** A receipt (or its absence) arrives: [waitFor]'s callback. *)
Definition fetched (f : Fetch) (found : bool) (s : t) : t :=
  if found && has (fetchKey f) s then
    let s := defer (fetchKey f) (Receipt (fetchHash f)) s in
    if fetchOnce f then removeMe (fetchKey f) s else s
  else s.

Definition _addBlockListener (key : N) (w : Wrapper) (s : t) : t :=
  if has key s then s
  else
    let s := with_listeners (_blockListeners s ++ [(key, w)]) s in
    if Nat.eqb (length (_blockListeners s)) 1 then _startBlockEvents s else s.

Definition _removeBlockListener (key : N) (s : t) : t :=
  if has key s then
    let s := removeMe key s in
    if Nat.eqb (length (_blockListeners s)) 0 then _stopBlockEvents s else s
  else s.

Definition on (eventName : EventType) (listener : N) (s : t) : t :=
  match eventName with
  | TransactionHash hash =>
      _addBlockListener listener (WaitFor hash) (invoke listener (WaitFor hash) None s)
  | BlockEvent => _addBlockListener listener Pass s
  end.

Definition once (eventName : EventType) (listener : N) (s : t) : t :=
  match eventName with
  | TransactionHash hash =>
      _addBlockListener listener (WaitForOnce hash) (invoke listener (WaitForOnce hash) None s)
  | BlockEvent => _addBlockListener listener PassOnce s
  end.

Definition off (eventName : EventType) (listener : N) (s : t) : t := _removeBlockListener listener s.

(** ** The event loop *)

Inductive Event : Type :=
| Open
| Close
| SocketClosed (id : N)
| Reconnect (timer : N)
| BaseBlock (n : Z)
| SocketBlock (id : N) (n : Z)
| Notify
| Fetched (i : nat) (found : bool)
| Deliver
| On (eventName : EventType) (listener : N)
| Once (eventName : EventType) (listener : N)
| Off (eventName : EventType) (listener : N).

Definition socket (id : N) (s : t) : option Socket :=
  snd <$> find (fun e => (fst e =? id)%N) (sockets s).

Fixpoint times {A} (n : nat) (f : A -> A) (a : A) : A :=
  match n with O => a | S n' => times n' f (f a) end.

(** [None] when the event cannot happen. *)
Definition step (e : Event) (s : t) : option t :=
  match e with
  | Open => Some (openWebSocket s)
  | Close => Some (closeWebSocket s)
  | SocketClosed id =>
      match socket id s with
      | Some k =>
          let s := with_sockets (List.filter (fun e => negb (fst e =? id)%N) (sockets s)) s in
          Some (if onClose k then _onWebSocketClose s else s)
      | None => None
      end
  | Reconnect timer =>
      if existsb (fun i => (i =? timer)%N) (reconnectTimers s) then
        Some (openWebSocket (with_reconnect (_reconnectTimerId s)
                (List.filter (fun i => negb (i =? timer)%N) (reconnectTimers s)) s))
      else None
  | BaseBlock n => Some (times (baseListeners s) (_onBlock n) s)
  | SocketBlock id n =>
      match socket id s with
      | Some k => Some (times (socketListeners k) (_onBlock n) s)
      | None => None
      end
  | Notify => if Nat.eqb (notifications s) 0 then None else Some (notify s)
  | Fetched i found =>
      match fetches s !! i with
      | Some f => Some (fetched f found (with_queues (delete i (fetches s)) (deferred s) s))
      | None => None
      end
  | Deliver =>
      match deferred s with
      | [] => None
      | _ :: rest => Some (with_queues (fetches s) rest s)
      end
  | On e k => Some (on e k s)
  | Once e k => Some (once e k s)
  | Off e k => Some (off e k s)
  end.

Fixpoint run (es : list Event) (s : t) : option t :=
  match es with
  | [] => Some s
  | e :: es' => match step e s with Some s' => run es' s' | None => None end
  end.

(** ** The polling loops *)

(** [for (;;)]: the first attempt that ends the loop, and its number; [fuel] attempts are made at
    most. *)
Fixpoint firstDone {A} (attempt : nat -> option A) (fuel k : nat) : option (A * nat) :=
  match fuel with
  | O => None
  | S fuel' =>
      match attempt k with
      | Some a => Some (a, k)
      | None => firstDone attempt fuel' (S k)
      end
  end.

Definition includes (s part : string) : bool :=
  match String.index 0 part s with Some _ => true | None => false end.

(** Of the message of an error. *)
Definition isHeaderNotFoundError (message : string) : bool :=
  includes message "header not found" ||
  includes message "request is not supported because your node is running with state pruning".

(** Whether an attempt ends [_retrySeenBlock]: what [perform] gave and the block seen then. *)
Definition retryAttempt {A} (startingBlock : Z) (attempt : Res A * Z) : option (Res A) :=
  match fst attempt with
  | Ok a => Some (Ok a)
  | Throw message =>
      if negb (snd attempt =? startingBlock) || negb (isHeaderNotFoundError message)
      then Some (Throw message) else None
  end.

Definition _retrySeenBlock {A} (perform : nat -> Res A * Z) (startingBlock : Z) (fuel : nat) :
    option (Res A * nat) :=
  firstDone (fun k => retryAttempt startingBlock (perform k)) fuel 0.

Record TransactionReceipt : Type := mkReceipt { blockNumber : Z; confirmations : Z }.

(** [_blockContainsTx]: the block is asked for until it is there. *)
Definition _blockContainsTx (getBlock : nat -> option (list string)) (txHash : string) (fuel : nat) :
    option bool :=
  (fun found => existsb (String.eqb txHash) (fst found)) <$> firstDone getBlock fuel 0.

(** Whether an attempt ends [_getTransactionReceiptFromLatest]: the receipt, and whether the
    latest block holds the transaction when there is none. *)
Definition receiptAttempt (latestBlock : option Z) (receipt : option TransactionReceipt)
    (latestContains : bool) : option (option TransactionReceipt) :=
  match latestBlock, receipt with
  | None, _ => Some receipt
  | Some _, None => if latestContains then None else Some receipt
  | Some latest, Some r =>
      if latest <=? blockNumber r + confirmations r - 1 then Some receipt else None
  end.

Definition _getTransactionReceiptFromLatest (latestBlock : option Z)
    (getTransactionReceipt : nat -> option TransactionReceipt) (latestContains : nat -> bool)
    (fuel : nat) : option (option TransactionReceipt * nat) :=
  firstDone (fun k => receiptAttempt latestBlock (getTransactionReceipt k) (latestContains k)) fuel 0.

(** Whether a receipt ends [waitForTransaction]. *)
Definition confirmed (confirmations_ : option Z) (receipt : option TransactionReceipt) :
    option TransactionReceipt :=
  match receipt with
  | Some r => match confirmations_ with
              | Some c => if c <=? confirmations r then Some r else None
              | None => Some r
              end
  | None => None
  end.

(** [waitForTransaction] without a timeout: the [k]-th receipt is the one after the [k]-th block. *)
Definition waitForTransaction (confirmations_ : option Z)
    (receiptAfterBlock : nat -> option TransactionReceipt) (fuel : nat) :
    option (TransactionReceipt * nat) :=
  firstDone (fun k => confirmed confirmations_ (receiptAfterBlock k)) fuel 0.

(** [getTransaction]: the first of the answers unless it is empty, the first that is not then. *)
Definition getTransaction {A} (first : option A) (all : list (option A)) : option A :=
  match first with
  | Some tx => Some tx
  | None => default None (find (fun tx => match tx with Some _ => true | None => false end) all)
  end.

End WebSocketProvider.
