(* ===== verification/WebSocketProviderProperties.v ===== *)
(** * Properties of the provider with a WebSocket

    With block listeners the provider is registered for new blocks exactly once, at the right
    place; a burst of blocks is notified once, with the last block; the polling loops end with the
    first attempt that may end them. *)

From S2P Require Import Prelude.
From S2P Require Import WebSocketProvider.
Import WebSocketProvider.

Local Open Scope Z_scope.

Module WebSocketFacts.

(** ** One registration *)

(** Whether the provider has listeners of its own, as a number of registrations. *)
Definition wanted (s : t) : nat := match _blockListeners s with [] => 0 | _ => 1 end.

Definition permanent (w : Wrapper) : bool := match w with Pass | WaitFor _ => true | _ => false end.

(** Nothing is listened to only once, and the provider is registered where it reads blocks. *)
Record Listens (s : t) : Prop := {
  listens_permanent : Forall (fun e => permanent (snd e) = true) (_blockListeners s);
  listens_fetches : Forall (fun f => fetchOnce f = false) (fetches s);
  listens_fresh : Forall (fun e => (fst e < fresh s)%N) (sockets s);
  listens_place :
    match _wsProvider s with
    | Some id => sockets s = [(id, mkSocket true (wanted s))] /\ baseListeners s = 0%nat /\
        reconnectTimers s = []
    | None => sockets s = [] /\ baseListeners s = wanted s /\
        (reconnectTimers s = [] \/ exists timer, reconnectTimers s = [timer])
    end;
}.

(** The events of a run that opens a socket only when there is none, nor one to come, and listens
    with [on] only. *)
Definition careful (s : t) (e : Event) : bool :=
  match e with
  | Open => match _wsProvider s, reconnectTimers s with None, [] => true | _, _ => false end
  | Once _ _ => false
  | _ => true
  end.

Fixpoint carefulRun (es : list Event) (s : t) : bool :=
  match es with
  | [] => true
  | e :: es' => careful s e && match step e s with Some s' => carefulRun es' s' | None => true end
  end.

(** Registrations, wherever they are. *)
Definition registrations (s : t) : nat :=
  (baseListeners s + list_sum (map (fun e => socketListeners (snd e)) (sockets s)))%nat.

Lemma updateSocket_one id f k : updateSocket id f [(id, k)] = [(id, f k)].
Proof. unfold updateSocket. cbn. by rewrite N.eqb_refl. Qed.

Lemma start_listens s :
  Forall (fun e => permanent (snd e) = true) (_blockListeners s) ->
  Forall (fun f => fetchOnce f = false) (fetches s) ->
  Forall (fun e => (fst e < fresh s)%N) (sockets s) -> wanted s = 1%nat ->
  match _wsProvider s with
  | Some id => sockets s = [(id, mkSocket true 0)] /\ baseListeners s = 0%nat /\
      reconnectTimers s = []
  | None => sockets s = [] /\ baseListeners s = 0%nat /\
      (reconnectTimers s = [] \/ exists timer, reconnectTimers s = [timer])
  end -> Listens (_startBlockEvents s).
Proof.
  intros Hp Hf Hfr Hw Hplace. unfold _startBlockEvents.
  destruct (_wsProvider s) as [id|] eqn:Hws.
  - destruct Hplace as (Hs & Hb & Ht). split; cbn; [done|done| |].
    + rewrite Hs in *. rewrite updateSocket_one. by inversion_clear Hfr; constructor.
    + rewrite Hws, Hs, updateSocket_one. cbn. by rewrite <- Hw.
  - destruct Hplace as (Hs & Hb & Ht). split; cbn; [done|done|done|]. rewrite Hws.
    split; [done|]. split; [|done]. rewrite Hb. symmetry. exact Hw.
Qed.

Lemma seen_listens n b k s : Listens s -> Listens (with_seen n b k s).
Proof. by intros [????]. Qed.

Lemma queues_listens f d s : Listens s -> Forall (fun f => fetchOnce f = false) f ->
  Listens (with_queues f d s).
Proof. by intros [????]. Qed.

Lemma onBlocks_listens k n s : Listens s -> Listens (times k (_onBlock n) s).
Proof.
  revert s. induction k as [|k IH]; intros s H; [done|]. cbn. apply IH. unfold _onBlock.
  destruct (_blockListenerScheduled s); by apply seen_listens.
Qed.

(** Once the listeners are where they belong, or there are none. *)
Lemma switchover_listens s :
  Forall (fun e => permanent (snd e) = true) (_blockListeners s) ->
  Forall (fun f => fetchOnce f = false) (fetches s) ->
  Forall (fun e => (fst e < fresh s)%N) (sockets s) ->
  match _wsProvider s with
  | Some id => sockets s = [(id, mkSocket true 0)] /\ baseListeners s = wanted s /\
      reconnectTimers s = []
  | None => sockets s = [] /\ baseListeners s = 0%nat /\
      (reconnectTimers s = [] \/ exists timer, reconnectTimers s = [timer])
  end -> Listens (_switchover s).
Proof.
  intros Hp Hf Hfr Hplace. unfold _switchover, wanted in *.
  destruct (_blockListeners s) as [|e l] eqn:El.
  - split; [by rewrite El | done | done |]. unfold wanted. by rewrite El.
  - assert (Hw : forall n, wanted (with_base n s) = 1%nat) by (intros n; unfold wanted; cbn; by rewrite El).
    destruct (_wsProvider s) as [id|] eqn:Hws.
    + apply start_listens; cbn; rewrite ?El, ?Hws; try done; [apply (Hw (pred (baseListeners s)))|].
      destruct Hplace as (Hs & Hb & Ht). by rewrite Hb.
    + apply start_listens; rewrite ?El, ?Hws; try done. unfold wanted. by rewrite El.
Qed.

Lemma open_listens s : Listens s -> _wsProvider s = None -> reconnectTimers s = [] ->
  Listens (openWebSocket s).
Proof.
  intros [Hp Hf Hfr Hplace] Hws Ht. rewrite Hws in Hplace. destruct Hplace as (Hs & Hb & _).
  apply switchover_listens; cbn; [done|done| |].
  - rewrite Hs. constructor; [cbn; lia | constructor].
  - by rewrite Hs.
Qed.

(** The state in which the socket [id] is gone. *)
Lemma gone_listens id s : Listens s -> _wsProvider s = Some id ->
  List.filter (fun e => negb (fst e =? id)%N) (sockets s) = [].
Proof.
  intros [_ _ _ Hplace] Hws. rewrite Hws in Hplace. destruct Hplace as (-> & _). cbn.
  by rewrite N.eqb_refl.
Qed.

(** Losing the socket: what [closeWebSocket] does up to the reconnect timer. *)
Lemma lost_listens id s l : Listens s -> _wsProvider s = Some id -> l = [] ->
  Listens (_switchover (with_ws None (_wsParams s) (with_sockets l s))) /\
  reconnectTimers s = [].
Proof.
  intros [Hp Hf Hfr Hplace] Hws ->. rewrite Hws in Hplace. destruct Hplace as (Hs & Hb & Ht).
  split; [|done]. apply switchover_listens; cbn; [done|done|constructor|]. auto.
Qed.

Lemma reconnect_listens id l s : Listens s -> _wsProvider s = None ->
  (l = [] \/ exists timer, l = [timer]) -> Listens (with_reconnect id l s).
Proof.
  intros [Hp Hf Hfr Hplace] Hws Hl. rewrite Hws in Hplace. split; cbn; [done..|].
  rewrite Hws. by destruct Hplace as (? & ? & _).
Qed.

Lemma switchover_fields s :
  _wsProvider (_switchover s) = _wsProvider s /\ reconnectTimers (_switchover s) = reconnectTimers s /\
  _reconnectTimerId (_switchover s) = _reconnectTimerId s.
Proof.
  unfold _switchover. destruct (_blockListeners s); [done|]. unfold _startBlockEvents.
  by destruct (_wsProvider s) eqn:E; cbn; rewrite ?E.
Qed.

(** [closeWebSocket], also when the socket is gone already. *)
Lemma close_gone s id l : Listens s -> _wsProvider s = Some id -> (l = sockets s \/ l = []) ->
  Listens (closeWebSocket (with_sockets l s)) /\
  _wsProvider (closeWebSocket (with_sockets l s)) = None /\
  reconnectTimers (closeWebSocket (with_sockets l s)) = [].
Proof.
  intros HL Hws Hl. unfold closeWebSocket. cbn [_wsProvider with_sockets]. rewrite Hws.
  cbn [sockets with_sockets].
  assert (Hnil : List.filter (fun e => negb (fst e =? id)%N) l = [])
    by (destruct Hl as [->| ->]; [by apply gone_listens | done]).
  rewrite Hnil. destruct (lost_listens id s [] HL Hws eq_refl) as [Hlost Ht].
  change (with_ws None (_wsParams (with_sockets [] (with_sockets l s)))
    (with_sockets [] (with_sockets l s))) with (with_ws None (_wsParams s) (with_sockets [] s)).
  set (s1 := with_ws None _ _) in *. destruct (switchover_fields s1) as (E1 & E2 & E3).
  change (_wsProvider s1) with (@None N) in E1. change (reconnectTimers s1) with (reconnectTimers s) in E2.
  destruct (_reconnectTimerId (_switchover s1)) as [timer|].
  - rewrite E2, Ht. cbn. split; [apply reconnect_listens; [done|done|by left] | done].
  - by rewrite E2, Ht.
Qed.

Lemma close_listens s : Listens s -> Listens (closeWebSocket s).
Proof.
  intros HL. destruct (_wsProvider s) as [id|] eqn:Hws.
  - replace s with (with_sockets (sockets s) s) by (by destruct s). by eapply close_gone; [..|left].
  - unfold closeWebSocket. by rewrite Hws.
Qed.

Lemma closed_listens s id k : Listens s -> socket id s = Some k ->
  let s' := with_sockets (List.filter (fun e => negb (fst e =? id)%N) (sockets s)) s in
  Listens (if onClose k then _onWebSocketClose s' else s').
Proof.
  intros HL Hk. pose proof HL as [_ _ _ Hplace]. unfold socket in Hk.
  destruct (_wsProvider s) as [ws|] eqn:Hws; destruct Hplace as (Hs & _); rewrite Hs in Hk |- *;
    [|done]. cbn in Hk |- *. destruct (N.eqb_spec ws id) as [Heq|]; [|done].
  subst id. injection Hk as <-. cbn [onClose negb]. unfold _onWebSocketClose.
  destruct (close_gone s ws [] HL Hws) as (HL' & E1 & E2); [by right|].
  set (s1 := closeWebSocket _) in *. rewrite E2. cbn [app].
  destruct HL' as [Hp Hf Hfr Hp']. rewrite E1 in Hp'. split; cbn; [done|done| |].
  - eapply Forall_impl; [exact Hfr|]. cbn. lia.
  - rewrite E1. destruct Hp' as (? & ? & _). eauto.
Qed.

(** ** Listeners *)

Lemma notify_listens s : Listens s -> Listens (notify s).
Proof.
  intros HL. unfold notify. set (s0 := with_seen _ _ _ s).
  assert (H0 : Listens s0) by (by apply seen_listens).
  change (_blockListeners s0) with (_blockListeners s). clearbody s0.
  pose proof (listens_permanent s HL) as Hl. revert s0 H0 Hl. clear HL.
  induction (_blockListeners s) as [|[key w] l IH]; intros s0 H0 Hl; [done|]. cbn.
  inversion_clear Hl as [|?? Hw Hl']. apply IH; [|done]. pose proof (listens_fetches s0 H0) as Hf.
  destruct w; cbn in *; try done; apply queues_listens; try done.
  apply Forall_app; split; [done|]. by repeat constructor.
Qed.

Lemma add_listens key w s : Listens s -> permanent w = true -> Listens (_addBlockListener key w s).
Proof.
  intros [Hp Hf Hfr Hplace] Hw. unfold _addBlockListener. destruct (has key s); [done|].
  assert (Hall : Forall (fun e => permanent (snd e) = true) (_blockListeners s ++ [(key, w)]))
    by (apply Forall_app; split; [done | by repeat constructor]).
  unfold wanted in Hplace.
  cbn [_blockListeners with_listeners]. rewrite length_app. cbn [length].
  destruct (_blockListeners s) as [|e l] eqn:El; cbn [length Nat.add Nat.eqb].
  - apply start_listens; cbn; try done.
  - destruct (Nat.eqb_spec (length l + 1) 0) as [|_]; [lia|]. split; cbn; [done|done|done|exact Hplace].
Qed.

Lemma stop_listens s :
  Forall (fun f => fetchOnce f = false) (fetches s) ->
  Forall (fun e => (fst e < fresh s)%N) (sockets s) -> _blockListeners s = [] ->
  match _wsProvider s with
  | Some id => sockets s = [(id, mkSocket true 1)] /\ baseListeners s = 0%nat /\
      reconnectTimers s = []
  | None => sockets s = [] /\ baseListeners s = 1%nat /\
      (reconnectTimers s = [] \/ exists timer, reconnectTimers s = [timer])
  end -> Listens (_stopBlockEvents s).
Proof.
  intros Hf Hfr El Hplace. unfold _stopBlockEvents. destruct (_wsProvider s) as [id|] eqn:Hws.
  - destruct Hplace as (Hs & Hb & Ht). split; cbn; [by rewrite El|done| |].
    + rewrite Hs in *. rewrite updateSocket_one. by inversion_clear Hfr; constructor.
    + rewrite Hws, Hs, updateSocket_one. unfold wanted. cbn. by rewrite El.
  - destruct Hplace as (Hs & Hb & Ht). split; cbn; [by rewrite El|done|done|]. rewrite Hws, Hb.
    unfold wanted. cbn. by rewrite El.
Qed.

Lemma remove_listens key s : Listens s -> Listens (_removeBlockListener key s).
Proof.
  intros [Hp Hf Hfr Hplace]. unfold _removeBlockListener, has.
  destruct (existsb _ _) eqn:Ehas; [|done].
  set (l := List.filter (fun e => negb (fst e =? key)%N) (_blockListeners s)).
  assert (Hall : Forall (fun e => permanent (snd e) = true) l).
  { rewrite Forall_forall in *. intros e He. apply Hp. apply list_elem_of_In in He.
    apply filter_In in He. by apply list_elem_of_In, He. }
  unfold wanted in Hplace. change (_blockListeners (removeMe key s)) with l.
  destruct (_blockListeners s) as [|e0 l0] eqn:El; [done|].
  destruct (Nat.eqb_spec (length l) 0) as [H0|H0].
  - apply stop_listens; cbn; [done|done| |done]. rewrite El. fold l. by destruct l.
  - split; cbn; rewrite ?El; fold l; [done|done|done|]. unfold wanted. cbn. rewrite El. fold l.
    by destruct l.
Qed.

Lemma fetched_listens f b s : Listens s -> fetchOnce f = false -> Listens (fetched f b s).
Proof.
  intros HL Hf. unfold fetched. destruct (b && _); [|done]. rewrite Hf. apply queues_listens; [done|].
  by apply listens_fetches.
Qed.

Lemma step_listens e s s' : Listens s -> careful s e = true -> step e s = Some s' -> Listens s'.
Proof.
  intros HL Hc. destruct e; cbn [step]; try done.
  - intros [= <-]. cbn in Hc. destruct (_wsProvider s) eqn:Hws, (reconnectTimers s) eqn:Ht; try done.
    by apply open_listens.
  - intros [= <-]. by apply close_listens.
  - destruct (socket id s) eqn:Hk; [|done]. intros [= <-]. by apply closed_listens.
  - destruct (existsb _ _) eqn:Et; [|done]. intros [= <-].
    destruct (_wsProvider s) as [ws|] eqn:Hws.
    + pose proof (listens_place s HL) as Hp. rewrite Hws in Hp. destruct Hp as (_ & _ & Ht).
      by rewrite Ht in Et.
    + pose proof (listens_place s HL) as Hp. rewrite Hws in Hp.
      assert (Hnil : List.filter (fun i => negb (i =? timer)%N) (reconnectTimers s) = []).
      { destruct Hp as (_ & _ & [Ht|(t0 & Ht)]); rewrite Ht in Et |- *; [done|]. cbn in Et |- *.
        by destruct (t0 =? timer)%N. }
      rewrite Hnil. apply open_listens; [|done|done]. apply reconnect_listens; [done|done|by left].
  - intros [= <-]. by apply onBlocks_listens.
  - destruct (socket id s); [|done]. intros [= <-]. by apply onBlocks_listens.
  - destruct (Nat.eqb _ 0); [done|]. intros [= <-]. by apply notify_listens.
  - destruct (fetches s !! i) as [f|] eqn:Hf; [|done]. intros [= <-].
    pose proof (listens_fetches s HL) as Hall. apply fetched_listens.
    + apply queues_listens; [done|]. by apply Forall_delete.
    + by eapply (Forall_lookup_1 _ _ _ _ Hall).
  - destruct (deferred s) as [|d rest]; [done|]. intros [= <-]. apply queues_listens; [done|].
    by apply listens_fetches.
  - intros [= <-]. destruct eventName; cbn; [by apply add_listens|]. apply add_listens; [|done].
    apply queues_listens; [done|]. apply Forall_app. split; [by apply listens_fetches|].
    by repeat constructor.
  - intros [= <-]. by apply remove_listens.
Qed.

Lemma run_listens es s s' : Listens s -> carefulRun es s = true -> run es s = Some s' -> Listens s'.
Proof.
  revert s. induction es as [|e es IH]; cbn; intros s HL; [by intros _ [= <-]|].
  intros [Hc Hcs]%andb_true_iff. destruct (step e s) as [s1|] eqn:E; [|done].
  apply IH; [by eapply step_listens | done].
Qed.

Lemma init_listens : Listens init.
Proof. split; cbn; auto. Qed.

(** ** One registration at least *)

(** The registrations where the provider reads blocks. *)
Definition registeredHere (s : t) : nat :=
  match _wsProvider s with
  | Some id => match socket id s with Some k => socketListeners k | None => 0 end
  | None => baseListeners s
  end.

(** The sockets have identities of their own, and the one in use is there. *)
Record Sound (s : t) : Prop := {
  sound_fresh : Forall (fun e => (fst e < fresh s)%N) (sockets s);
  sound_onClose : Forall (fun e => onClose (snd e) = true) (sockets s);
  sound_ws : forall id, _wsProvider s = Some id -> is_Some (socket id s);
}.

(** Who listens to the provider is heard. *)
Definition Heard (s : t) : Prop := Sound s /\ (_blockListeners s <> [] -> (1 <= registeredHere s)%nat).

Lemma socket_update id f s :
  socket id (with_sockets (updateSocket id f (sockets s)) s) = f <$> socket id s.
Proof.
  unfold socket, updateSocket. cbn [sockets with_sockets].
  induction (sockets s) as [|[i k] l IH]; [done|]. cbn.
  destruct (N.eqb_spec i id) as [->|Hne]; cbn; [by rewrite N.eqb_refl|].
  by rewrite (proj2 (N.eqb_neq i id) Hne).
Qed.

Lemma update_forall (P : N * Socket -> Prop) id f l :
  Forall P l -> (forall k, P (id, k) -> P (id, f k)) -> Forall P (updateSocket id f l).
Proof.
  intros Hl Hf. unfold updateSocket. apply Forall_map. eapply Forall_impl; [exact Hl|].
  intros [i k] Hk. cbn in *. destruct (N.eqb_spec i id) as [->|]; [by apply Hf | done].
Qed.

Lemma sound_updated id f s : (forall k, onClose (f k) = onClose k) -> Sound s ->
  Sound (with_sockets (updateSocket id f (sockets s)) s).
Proof.
  intros Hf [Hfr Hoc Hws]. split; cbn.
  - by apply update_forall.
  - apply update_forall; [done|]. intros k. cbn. by rewrite Hf.
  - intros i Hi. change (is_Some (socket i (with_sockets (updateSocket id f (sockets s)) s))).
    destruct (decide (i = id)) as [->|Hne].
    + rewrite socket_update. apply fmap_is_Some. by apply Hws.
    + destruct (Hws i Hi) as [k Hk]. revert Hk. clear Hfr Hoc. unfold socket, updateSocket.
      cbn [sockets with_sockets]. induction (sockets s) as [|[j k'] l IH]; [done|]. cbn.
      destruct (N.eqb_spec j id) as [->|Hj]; cbn.
      * rewrite (proj2 (N.eqb_neq id i)) by congruence. intros Hk. by apply IH.
      * destruct (j =? i)%N; cbn; [by eexists | apply IH].
Qed.

Lemma start_heard s : Sound s ->
  Sound (_startBlockEvents s) /\ (1 <= registeredHere (_startBlockEvents s))%nat.
Proof.
  intros HS. unfold _startBlockEvents, registeredHere. destruct (_wsProvider s) as [id|] eqn:Hws.
  - split; [by apply sound_updated|]. cbn [_wsProvider socketOn with_sockets]. rewrite Hws.
    change (socket id (socketOn id s)) with (socket id (with_sockets (updateSocket id
      (fun k => mkSocket (onClose k) (S (socketListeners k))) (sockets s)) s)).
    rewrite socket_update. destruct (sound_ws s HS id Hws) as [k ->]. cbn. lia.
  - cbn [_wsProvider baseOn with_base baseListeners]. rewrite Hws. split; [|lia].
    destruct HS as [? ? Hs]. split; [done..|]. exact Hs.
Qed.

Lemma stop_sound s : Sound s -> Sound (_stopBlockEvents s).
Proof.
  intros HS. unfold _stopBlockEvents. destruct (_wsProvider s); [by apply sound_updated|].
  destruct HS. by split.
Qed.

Lemma switchover_heard s : Sound s -> Heard (_switchover s).
Proof.
  intros HS. unfold _switchover, Heard. destruct (_blockListeners s) as [|e l] eqn:El; [by rewrite El|].
  destruct (start_heard (match _wsProvider s with Some _ => baseOff s | None => s end)) as [H1 H2]; [|done].
  destruct (_wsProvider s) eqn:Hws; [|done]. by destruct HS.
Qed.

(** A step that leaves the registrations where they are, and adds no listener. *)
Lemma heard_same s s' : Heard s -> _wsProvider s' = _wsProvider s -> sockets s' = sockets s ->
  baseListeners s' = baseListeners s -> (fresh s <= fresh s')%N ->
  (_blockListeners s = [] -> _blockListeners s' = []) -> Heard s'.
Proof.
  intros [[Hfr Hoc Hws] Hl] E1 E2 E3 E4 E5.
  assert (Hsock : forall id, socket id s' = socket id s) by (intros id; unfold socket; by rewrite E2).
  split.
  - split; rewrite ?E1, ?E2; [|done|].
    + eapply Forall_impl; [exact Hfr|]. cbn. lia.
    + intros id Hid. rewrite Hsock. by apply Hws.
  - intros Hne. unfold registeredHere. rewrite E1, E3.
    assert (H1 : (1 <= registeredHere s)%nat) by (apply Hl; intros E; by apply Hne, E5).
    unfold registeredHere in H1. destruct (_wsProvider s) as [id|]; [|done]. by rewrite Hsock.
Qed.

Lemma open_heard s : Sound s -> Heard (openWebSocket s).
Proof.
  intros [Hfr Hoc Hws]. apply switchover_heard. split; cbn.
  - apply Forall_app. split; [|repeat constructor; cbn; lia].
    eapply Forall_impl; [exact Hfr|]. cbn. lia.
  - apply Forall_app. split; [done | by repeat constructor].
  - intros id [= <-]. unfold socket. cbn [sockets with_ws with_sockets next]. clear Hoc Hws.
    induction Hfr as [|[i k] l Hi _ IH]; cbn in *; [rewrite N.eqb_refl; by eexists|].
    rewrite (proj2 (N.eqb_neq i (fresh s))) by lia. exact IH.
Qed.

Lemma filter_forall {A} (P : A -> Prop) f l : Forall P l -> Forall P (List.filter f l).
Proof.
  intros H. rewrite Forall_forall in *. intros a Ha. apply H.
  apply list_elem_of_In in Ha. apply filter_In in Ha. apply list_elem_of_In. tauto.
Qed.

(** Closing the socket in use, also when it is gone already. *)
Lemma close_heard s : Forall (fun e => (fst e < fresh s)%N) (sockets s) ->
  Forall (fun e => onClose (snd e) = true) (sockets s) -> (_wsProvider s = None -> Heard s) ->
  Heard (closeWebSocket s) /\ fresh (closeWebSocket s) = fresh s.
Proof.
  intros Hfr Hoc HN. unfold closeWebSocket. destruct (_wsProvider s) as [id|] eqn:Hws; [|by auto].
  set (s1 := with_ws None _ _).
  assert (H1 : Heard (_switchover s1)).
  { apply switchover_heard. split; cbn; [by apply filter_forall..|done]. }
  assert (Hf : fresh (_switchover s1) = fresh s).
  { unfold _switchover. by destruct (_blockListeners s1). }
  destruct (_reconnectTimerId _); [|done]. split; [|done].
  by apply (heard_same (_switchover s1)).
Qed.

Lemma lose_heard s id k : Heard s -> socket id s = Some k ->
  let s' := with_sockets (List.filter (fun e => negb (fst e =? id)%N) (sockets s)) s in
  Heard (if onClose k then _onWebSocketClose s' else s').
Proof.
  intros [[Hfr Hoc Hws] Hl] Hk s'.
  assert (Hkc : onClose k = true).
  { unfold socket in Hk. apply fmap_Some in Hk as ([i k'] & He & ->). apply find_some in He as [He _].
    rewrite Forall_forall in Hoc. by apply (Hoc (i, k')), list_elem_of_In. }
  rewrite Hkc. unfold _onWebSocketClose.
  destruct (close_heard s') as [Hc Hf]; [by apply filter_forall..| |].
  - cbn. intros HN. split; [split; cbn; [by apply filter_forall..|by rewrite HN]|].
    intros Hne. specialize (Hl Hne). unfold registeredHere in *. cbn. by rewrite HN in *.
  - apply (heard_same (closeWebSocket s')); [done..| |done]. cbn. lia.
Qed.

Lemma removeMe_empty key s : _blockListeners s = [] -> _blockListeners (removeMe key s) = [].
Proof. intros E. cbn. by rewrite E. Qed.

Lemma invoke_heard key w b s : Heard s -> Heard (invoke key w b s).
Proof.
  intros H. destruct w, b; cbn [invoke]; try done; apply (heard_same s); try done;
    cbn; try lia; intros E; by rewrite E.
Qed.

Lemma notify_heard s : Heard s -> Heard (notify s).
Proof.
  intros H. unfold notify. set (s0 := with_seen _ _ _ s).
  assert (H0 : Heard s0) by (by apply (heard_same s)). clearbody s0. clear H.
  generalize (_blockListeners s0). intros l. revert s0 H0.
  induction l as [|[key w] l IH]; intros s0 H0; [done|]. cbn [fold_left]. by apply IH, invoke_heard.
Qed.

Lemma onBlocks_heard k n s : Heard s -> Heard (times k (_onBlock n) s).
Proof.
  revert s. induction k as [|k IH]; intros s H; [done|]. cbn. apply IH. unfold _onBlock.
  destruct (_blockListenerScheduled s); by apply (heard_same s).
Qed.

Lemma add_heard key w s : Heard s -> Heard (_addBlockListener key w s).
Proof.
  intros [HS Hl]. unfold _addBlockListener. destruct (has key s); [done|].
  set (s1 := with_listeners _ s). assert (HS1 : Sound s1) by (by destruct HS).
  destruct (Nat.eqb_spec (length (_blockListeners s1)) 1) as [_|Hn].
  - destruct (start_heard s1 HS1). by split.
  - split; [done|]. intros _. apply Hl. intros E. apply Hn. cbn. by rewrite E.
Qed.

Lemma remove_heard key s : Heard s -> Heard (_removeBlockListener key s).
Proof.
  intros H. unfold _removeBlockListener. destruct (has key s); [|done].
  assert (H1 : Heard (removeMe key s)) by (apply (heard_same s); try done; apply removeMe_empty).
  destruct (Nat.eqb_spec (length (_blockListeners (removeMe key s))) 0) as [E|_]; [|done].
  split; [apply stop_sound, H1|]. intros Hne. destruct Hne.
  apply nil_length_inv in E. unfold _stopBlockEvents. by destruct (_wsProvider _).
Qed.

Lemma fetched_heard f b s : Heard s -> Heard (fetched f b s).
Proof.
  intros H. unfold fetched. destruct (b && _); [|done].
  destruct (fetchOnce f); apply (heard_same s); try done. cbn. intros E. by rewrite E.
Qed.

Lemma step_heard e s s' : Heard s -> step e s = Some s' -> Heard s'.
Proof.
  intros H. destruct e; cbn [step].
  - intros [= <-]. apply open_heard, H.
  - intros [= <-]. by apply close_heard; [apply H..|].
  - destruct (socket id s) eqn:Hk; [|done]. intros [= <-]. by apply lose_heard.
  - destruct (existsb _ _); [|done]. intros [= <-]. apply open_heard.
    by apply (heard_same s).
  - intros [= <-]. by apply onBlocks_heard.
  - destruct (socket id s); [|done]. intros [= <-]. by apply onBlocks_heard.
  - destruct (Nat.eqb _ 0); [done|]. intros [= <-]. by apply notify_heard.
  - destruct (fetches s !! i) as [f|]; [|done]. intros [= <-]. apply fetched_heard.
    by apply (heard_same s).
  - destruct (deferred s); [done|]. intros [= <-]. by apply (heard_same s).
  - intros [= <-]. destruct eventName; cbn [on]; apply add_heard; by try apply invoke_heard.
  - intros [= <-]. destruct eventName; cbn [once]; apply add_heard; by try apply invoke_heard.
  - intros [= <-]. by apply remove_heard.
Qed.

Lemma run_heard es s s' : Heard s -> run es s = Some s' -> Heard s'.
Proof.
  revert s. induction es as [|e es IH]; cbn; intros s H; [by intros [= <-]|].
  destruct (step e s) eqn:E; [|done]. apply IH. by eapply step_heard.
Qed.

Lemma init_heard : Heard init.
Proof. split; [split; cbn; [by constructor | by constructor | by intros ? [=]] | by intros []]. Qed.

(** ** One notification *)

Record Notifies (s : t) : Prop := {
  notifies_once : notifications s = if _blockListenerScheduled s then 1%nat else 0%nat;
  notifies_keys : NoDup (map fst (_blockListeners s));
}.

(** The part of the state that only blocks and listeners change. *)
Definition notice (s : t) : nat * bool * Z * list (N * Wrapper) :=
  (notifications s, _blockListenerScheduled s, _seenBlock s, _blockListeners s).

Lemma notifies_same s s' : notice s' = notice s -> Notifies s -> Notifies s'.
Proof. intros [= H1 H2 _ H4] [Hn Hd]. split; [by rewrite H1, H2 | by rewrite H4]. Qed.

Lemma start_notice s : notice (_startBlockEvents s) = notice s.
Proof. unfold _startBlockEvents. by destruct (_wsProvider s). Qed.
Lemma stop_notice s : notice (_stopBlockEvents s) = notice s.
Proof. unfold _stopBlockEvents. by destruct (_wsProvider s). Qed.
Lemma switchover_notice s : notice (_switchover s) = notice s.
Proof.
  unfold _switchover. destruct (_blockListeners s); [done|]. rewrite start_notice.
  by destruct (_wsProvider s).
Qed.
Lemma open_notice s : notice (openWebSocket s) = notice s.
Proof. unfold openWebSocket. by rewrite switchover_notice. Qed.
Lemma close_notice s : notice (closeWebSocket s) = notice s.
Proof.
  unfold closeWebSocket. destruct (_wsProvider s); [|done]. cbv zeta.
  set (s1 := with_ws _ _ _). transitivity (notice (_switchover s1)).
  - by destruct (_reconnectTimerId (_switchover s1)).
  - by rewrite switchover_notice.
Qed.

Lemma removeMe_keys key s :
  NoDup (map fst (_blockListeners s)) -> NoDup (map fst (_blockListeners (removeMe key s))).
Proof.
  cbn. generalize (_blockListeners s) as l. induction l as [|[k w] l IH]; cbn; [done|].
  intros Hd. inversion_clear Hd as [|?? Hk Hl]. destruct (k =? key)%N; cbn; [by apply IH|].
  constructor; [|by apply IH]. intros Hin. apply Hk. apply list_elem_of_In in Hin.
  apply in_map_iff in Hin. destruct Hin as (e & <- & He). apply filter_In in He.
  apply list_elem_of_In. apply in_map. tauto.
Qed.

Lemma removeMe_notifies key s : Notifies s -> Notifies (removeMe key s).
Proof. intros [Hn Hd]. split; [done | by apply removeMe_keys]. Qed.

Lemma invoke_notifies key w b s : Notifies s -> Notifies (invoke key w b s).
Proof.
  intros H. destruct w, b; cbn; try done; try (eapply notifies_same; [|exact H]; done).
  apply removeMe_notifies. by eapply notifies_same; [|exact H].
Qed.

Lemma onBlock_notifies n s : Notifies s -> Notifies (_onBlock n s).
Proof.
  intros [Hn Hd]. unfold _onBlock. destruct (_blockListenerScheduled s); split; cbn; try done.
  by rewrite Hn.
Qed.

Lemma onBlocks_notifies k n s : Notifies s -> Notifies (times k (_onBlock n) s).
Proof. revert s. induction k as [|k IH]; intros s H; [done|]. cbn. by apply IH, onBlock_notifies. Qed.

Lemma notify_notifies s : Notifies s -> Notifies (notify s).
Proof.
  intros [Hn Hd]. unfold notify. set (s0 := with_seen _ _ _ s).
  assert (H0 : Notifies s0)
    by (split; [cbn; rewrite Hn; by destruct (_blockListenerScheduled s) | done]).
  generalize (_blockListeners s0) as l. clearbody s0. intros l. revert s0 H0.
  induction l as [|[k w] l IH]; intros s0 H0; [done|]. cbn. by apply IH, invoke_notifies.
Qed.

Lemma add_notifies key w s : Notifies s -> Notifies (_addBlockListener key w s).
Proof.
  intros [Hn Hd]. unfold _addBlockListener. destruct (has key s) eqn:Hk; [done|].
  set (s1 := with_listeners _ s).
  assert (H1 : Notifies s1).
  { split; [done|]. cbn. rewrite map_app. apply NoDup_app. split; [done|]. split; [|apply NoDup_singleton].
    intros x Hx Hx'. apply list_elem_of_singleton in Hx'. cbn in Hx'. subst x.
    apply not_true_iff_false in Hk. apply Hk. unfold has. apply existsb_exists.
    apply list_elem_of_In, in_map_iff in Hx. destruct Hx as (e & <- & He). exists e.
    by rewrite N.eqb_refl. }
  destruct (Nat.eqb _ 1); [|done]. eapply notifies_same; [apply start_notice | done].
Qed.

Lemma remove_notifies key s : Notifies s -> Notifies (_removeBlockListener key s).
Proof.
  intros H. unfold _removeBlockListener. destruct (has key s); [|done]. cbv zeta.
  destruct (Nat.eqb _ 0); [|by apply removeMe_notifies].
  eapply notifies_same; [apply stop_notice | by apply removeMe_notifies].
Qed.

Lemma step_notifies e s s' : Notifies s -> step e s = Some s' -> Notifies s'.
Proof.
  intros HN. destruct e; cbn [step].
  - intros [= <-]. eapply notifies_same; [apply open_notice | done].
  - intros [= <-]. eapply notifies_same; [apply close_notice | done].
  - destruct (socket id s) as [k|]; [|done]. intros [= <-].
    eapply notifies_same; [|exact HN]. destruct (onClose k); [|done].
    set (s1 := with_sockets _ s). change (notice s) with (notice s1).
    rewrite <- (close_notice s1). done.
  - destruct (existsb _ _); [|done]. intros [= <-]. eapply notifies_same; [apply open_notice|].
    by eapply notifies_same; [|exact HN].
  - intros [= <-]. by apply onBlocks_notifies.
  - destruct (socket id s); [|done]. intros [= <-]. by apply onBlocks_notifies.
  - destruct (Nat.eqb _ 0); [done|]. intros [= <-]. by apply notify_notifies.
  - destruct (fetches s !! i) as [f|]; [|done]. intros [= <-]. unfold fetched.
    destruct (found && _); [|by eapply notifies_same; [|exact HN]]. cbv zeta.
    destruct (fetchOnce f); [apply removeMe_notifies|]; by eapply notifies_same; [|exact HN].
  - destruct (deferred s); [done|]. intros [= <-]. by eapply notifies_same; [|exact HN].
  - intros [= <-]. destruct eventName; apply add_notifies; [done | by apply invoke_notifies].
  - intros [= <-]. destruct eventName; apply add_notifies; [done | by apply invoke_notifies].
  - intros [= <-]. by apply remove_notifies.
Qed.

Lemma run_notifies es s s' : Notifies s -> run es s = Some s' -> Notifies s'.
Proof.
  revert s. induction es as [|e es IH]; cbn; intros s HN; [by intros [= <-]|].
  destruct (step e s) as [s1|] eqn:E; [|done]. apply IH. by eapply step_notifies.
Qed.

Lemma init_notifies : Notifies init.
Proof. split; [done|]. constructor. Qed.

(** What a notification does, listener by listener. *)
Definition toldBlock (w : Wrapper) : bool := match w with Pass | PassOnce => true | _ => false end.
Definition keeps (w : Wrapper) : bool := match w with PassOnce => false | _ => true end.
Definition told (n : Z) (l : list (N * Wrapper)) : list (N * Argument) :=
  map (fun e => (fst e, BlockNumber n)) (List.filter (fun e => toldBlock (snd e)) l).
Definition kept (l : list (N * Wrapper)) : list (N * Wrapper) :=
  List.filter (fun e => keeps (snd e)) l.

Lemma filter_fresh_key k (l : list (N * Wrapper)) : ~ In k (map fst l) ->
  List.filter (fun e => negb (fst e =? k)%N) l = l.
Proof.
  induction l as [|[i w] l IH]; cbn; [done|]. intros Hk.
  rewrite (proj2 (N.eqb_neq i k)) by tauto. cbn. rewrite IH by tauto. done.
Qed.

Lemma invoke_all l before s : _blockListeners s = before ++ l -> NoDup (map fst (before ++ l)) ->
  let s' := fold_left (fun s e => invoke (fst e) (snd e) (Some (_seenBlock s)) s) l s in
  deferred s' = deferred s ++ told (_seenBlock s) l /\
  _blockListeners s' = before ++ kept l /\ _seenBlock s' = _seenBlock s.
Proof.
  revert before s. induction l as [|[k w] l IH]; intros before s Hl Hd; cbn [fold_left fst snd].
  { cbn. by rewrite !app_nil_r in *. }
  destruct (keeps w) eqn:Hk.
  - assert (Hs : _blockListeners (invoke k w (Some (_seenBlock s)) s) = (before ++ [(k, w)]) ++ l).
    { rewrite <- app_assoc. by destruct w. }
    destruct (IH (before ++ [(k, w)]) _ Hs) as (H1 & H2 & H3); [by rewrite <- app_assoc|].
    rewrite H1, H2, H3. unfold told, kept. cbn [List.filter snd]. rewrite Hk.
    rewrite <- app_assoc. destruct w; cbn; try done. by rewrite <- app_assoc.
  - destruct w; try done. clear Hk. cbn [invoke].
    assert (Hnew : ~ In k (map fst (before ++ l))).
    { rewrite map_app in Hd |- *. cbn in Hd. apply NoDup_app in Hd. destruct Hd as (_ & Hd1 & Hd2).
      inversion_clear Hd2 as [|?? Hn _]. rewrite in_app_iff. intros [Hi|Hi].
      - apply (Hd1 k); [by apply list_elem_of_In | by left].
      - by apply Hn, list_elem_of_In. }
    assert (Hs : _blockListeners (removeMe k (defer k (BlockNumber (_seenBlock s)) s)) = before ++ l).
    { cbn. rewrite Hl, List.filter_app. cbn. rewrite N.eqb_refl. cbn. rewrite map_app in Hnew.
      rewrite !filter_fresh_key by (rewrite in_app_iff in Hnew; tauto). done. }
    destruct (IH before _ Hs) as (H1 & H2 & H3).
    { rewrite !map_app in *. cbn in Hd. apply NoDup_app in Hd. destruct Hd as (Ha & Hb & Hc).
      apply NoDup_app. split; [done|]. inversion_clear Hc. split; [|done]. intros x Hx Hx'.
      apply (Hb x Hx). by right. }
    rewrite H1, H2, H3. cbn. by rewrite <- app_assoc.
Qed.

End WebSocketFacts.
Import WebSocketFacts.

Module WebSocketProperties.

(** C11: in any run, while the provider has listeners of its own it is registered for new blocks at
    least once where it reads them: with the socket if it has one, which is there, and with the
    provider below if not.  It is registered exactly once in all, and not at all without listeners,
    in a run that adds listeners with [on] only, and opens a socket by hand only when there is none
    nor one to come, whatever sockets closed and reconnected in between. *)
Theorem listens_once es s :
  run es init = Some s ->
  (_blockListeners s <> [] ->
   match _wsProvider s with
   | Some id => exists k, socket id s = Some k /\ (1 <= socketListeners k)%nat
   | None => (1 <= baseListeners s)%nat
   end) /\
  (carefulRun es init = true ->
   registrations s = (match _blockListeners s with [] => 0 | _ => 1 end)%nat /\
   match _wsProvider s with
   | Some id => baseListeners s = 0%nat /\ map fst (sockets s) = [id]
   | None => sockets s = []
   end).
Proof.
  intros Hrun. split.
  - destruct (run_heard es init s init_heard Hrun) as [HS Hl]. intros Hne. specialize (Hl Hne).
    unfold registeredHere in Hl. destruct (_wsProvider s) as [id|] eqn:Hws; [|done].
    destruct (sound_ws s HS id Hws) as [k Hk]. rewrite Hk in Hl. by exists k.
  - intros Hc. destruct (run_listens es init s init_listens Hc Hrun) as [_ _ _ Hplace].
    unfold registrations. destruct (_wsProvider s) as [id|]; destruct Hplace as (Hs & Hb & _);
      rewrite Hs, Hb; unfold wanted; destruct (_blockListeners s); done.
Qed.

(** A burst of blocks is notified once: at any time the notification of the listeners is
    scheduled at most once, and it is after a block; when it comes, each listener for blocks is
    called once with the last block seen, in the order of registration, those added with [once]
    are gone, and the others stay. *)
Theorem block_notifications es s :
  run es init = Some s ->
  notifications s = (if _blockListenerScheduled s then 1 else 0)%nat /\
  (forall n s', baseListeners s <> 0%nat -> step (BaseBlock n) s = Some s' ->
     notifications s' = 1%nat /\ _seenBlock s' = n /\ deferred s' = deferred s) /\
  (forall s', step Notify s = Some s' ->
     deferred s' = deferred s ++ told (_seenBlock s) (_blockListeners s) /\
     _blockListeners s' = kept (_blockListeners s) /\
     _seenBlock s' = _seenBlock s /\ notifications s' = 0%nat).
Proof.
  intros Hrun. pose proof (run_notifies es init s init_notifies Hrun) as HN.
  split; [by apply HN|]. split.
  - intros n s' Hb [= <-].
    assert (Hone : forall k s0, Notifies s0 -> k <> 0%nat ->
      notifications (times k (_onBlock n) s0) = 1%nat /\ _seenBlock (times k (_onBlock n) s0) = n /\
      deferred (times k (_onBlock n) s0) = deferred s0).
    { induction k as [|k IH]; intros s0 H0 Hk; [done|]. cbn.
      pose proof (onBlock_notifies n s0 H0) as H1.
      assert (E : notifications (_onBlock n s0) = 1%nat /\ _seenBlock (_onBlock n s0) = n /\
        deferred (_onBlock n s0) = deferred s0).
      { pose proof (notifies_once s0 H0) as Hn0. unfold _onBlock.
        destruct (_blockListenerScheduled s0); cbn; rewrite Hn0; done. }
      destruct k as [|k]; [exact E|]. destruct (IH (_onBlock n s0) H1) as (? & ? & E'); [done|].
      rewrite E'. tauto. }
    by apply Hone.
  - intros s' Hstep. pose proof (step_notifies Notify s s' HN Hstep) as HN'. cbn [step] in Hstep.
    destruct (Nat.eqb _ 0) eqn:E0; [done|]. injection Hstep as <-. unfold notify in *.
    set (s0 := with_seen (_seenBlock s) false (pred (notifications s)) s) in *.
    destruct (invoke_all (_blockListeners s) [] s0 eq_refl (notifies_keys s HN)) as (H1 & H2 & H3).
    change (_blockListeners s0) with (_blockListeners s) in HN' |- *.
    rewrite H1, H2, H3. do 3 (split; [done|]).
    assert (Hsame : forall l s0, notifications (fold_left (fun s e =>
      invoke (fst e) (snd e) (Some (_seenBlock s)) s) l s0) = notifications s0).
    { induction l as [|[k w] l IH]; intros s1; [done|]. cbn. rewrite IH. by destruct w. }
    rewrite Hsame. cbn. rewrite (notifies_once s HN). by destruct (_blockListenerScheduled s).
Qed.

(** ** The polling loops *)

Lemma firstDone_spec {A} (attempt : nat -> option A) fuel k a n :
  firstDone attempt fuel k = Some (a, n) <->
  (k <= n < k + fuel)%nat /\ attempt n = Some a /\ forall m, (k <= m < n)%nat -> attempt m = None.
Proof.
  revert k. induction fuel as [|fuel IH]; cbn; intros k; [split; [done | lia]|].
  destruct (attempt k) as [b|] eqn:E.
  - split.
    + intros [= <- <-]. split; [lia|]. split; [done | lia].
    + intros (Hn & Ha & Hm). destruct (decide (n = k)) as [->|]; [congruence|].
      rewrite Hm in E by lia. done.
  - rewrite IH. split; intros (Hn & Ha & Hm); (split; [|split; [done|]]).
    + lia.
    + intros m Hk. destruct (decide (m = k)) as [->|]; [done | apply Hm; lia].
    + destruct (decide (n = k)) as [->|]; [congruence | lia].
    + intros m Hk. apply Hm. lia.
Qed.

(** The polling loops end with the first attempt that settles the matter.  A call at the block
    seen last is repeated just while the node does not know that block and no newer one has come,
    and then gives that attempt's result; a receipt read after a block is returned as soon as it
    agrees with that block: it counts that block among its confirmations, or is missing and the
    block does not hold the transaction. *)
Theorem polling_loops_end :
  (forall A (perform : nat -> Res A * Z) b n,
     (forall m, (m < n)%nat ->
        exists message, perform m = (Throw message, b) /\ isHeaderNotFoundError message = true) ->
     (forall message, perform n = (Throw message, b) -> isHeaderNotFoundError message = false) ->
     forall fuel, (n < fuel)%nat -> _retrySeenBlock perform b fuel = Some (fst (perform n), n)) /\
  (forall latest receipts contains n,
     let agrees k := match receipts k with
                     | Some r => latest <= blockNumber r + confirmations r - 1
                     | None => contains k = false
                     end in
     (forall m, (m < n)%nat -> ~ agrees m) -> agrees n ->
     forall fuel, (n < fuel)%nat ->
     _getTransactionReceiptFromLatest (Some latest) receipts contains fuel = Some (receipts n, n)).
Proof.
  split.
  - intros A perform b n Hm Hn fuel Hfuel. apply firstDone_spec. split; [lia|]. split.
    + unfold retryAttempt. destruct (perform n) as [[a|message] seen] eqn:E; [done|]. cbn [fst snd].
      destruct (Z.eqb_spec seen b) as [->|]; [|done]. by rewrite (Hn message eq_refl).
    + intros m [_ Hlt]. destruct (Hm m Hlt) as (message & E & Hh). unfold retryAttempt.
      rewrite E. cbn [fst snd]. by rewrite Z.eqb_refl, Hh.
  - intros latest receipts contains n agrees Hm Hn fuel Hfuel. apply firstDone_spec. split; [lia|].
    split.
    + unfold receiptAttempt, agrees in *. destruct (receipts n); [by rewrite (proj2 (Z.leb_le _ _))|].
      by rewrite Hn.
    + intros m [_ Hlt]. specialize (Hm m Hlt). unfold receiptAttempt, agrees in *.
      destruct (receipts m).
      * by rewrite (proj2 (Z.leb_gt _ _)) by lia.
      * by destruct (contains m).
Qed.

(** ** What careless runs do *)

(** After a listener added with [once] was the last to go, the provider is still registered: with
    the next listener it is registered twice. *)
Lemma once_registers_twice :
  exists s, run [Once BlockEvent 1; BaseBlock 5; Notify; On BlockEvent 2] init = Some s /\
    registrations s = 2%nat /\ length (_blockListeners s) = 1%nat.
Proof. eexists. split; [reflexivity | done]. Qed.

(** Closing the socket while it waits to reconnect does not keep it from reconnecting, and opening
    it by hand meanwhile leaves two sockets listening. *)
Lemma close_reconnects :
  (exists s, run [Open; SocketClosed 0; Close; Reconnect 1] init = Some s /\
     _wsProvider s = Some 2%N) /\
  (exists s, run [On BlockEvent 7; Open; SocketClosed 0; Close; Open; Reconnect 1] init = Some s /\
     registrations s = 2%nat).
Proof. split; eexists; (split; [vm_compute; reflexivity | vm_compute; reflexivity]). Qed.

(** ** Runs *)

Definition someRun : list Event :=
  [On BlockEvent 1; Open; On (TransactionHash "0xt") 2; SocketBlock 0 5; SocketBlock 0 6; SocketClosed 0;
   BaseBlock 7].

Definition someState : t := default init (run someRun init).
Definition notified : t := default init (step Notify someState).

Lemma someRun_ok : run someRun init = Some someState.
Proof. vm_compute. reflexivity. Qed.
Lemma someRun_careful : carefulRun someRun init = true.
Proof. vm_compute. reflexivity. Qed.
Lemma notified_ok : step Notify someState = Some notified.
Proof. vm_compute. reflexivity. Qed.

Lemma listens_once_witness : registrations someState = 1%nat.
Proof. exact (proj1 (proj2 (listens_once someRun someState someRun_ok) someRun_careful)). Defined.

Lemma block_notifications_witness :
  deferred notified = deferred someState ++ told 7 (_blockListeners someState) /\
  told 7 (_blockListeners someState) = [(1%N, BlockNumber 7)].
Proof.
  split; [|vm_compute; reflexivity].
  pose proof (block_notifications someRun someState someRun_ok) as H.
  exact (proj1 (proj2 (proj2 H) notified notified_ok)).
Defined.

Lemma polling_loops_end_witness :
  _retrySeenBlock (fun k => (match k with 2%nat => Ok k | _ => Throw "header not found" end, 9)) 9 3 =
  Some (Ok 2%nat, 2%nat).
Proof.
  refine (proj1 polling_loops_end nat _ 9 2%nat _ _ 3%nat _).
  - intros [|[|m]] Hm; [eexists; split; reflexivity..|lia].
  - discriminate.
  - lia.
Defined.

End WebSocketProperties.
