(* ===== verification/VaultValidation.v ===== *)
(** * Validation of the changes a user edits: [validateVaultChange.tsx] and
    [validateStabilityDepositChange.tsx] of [src/packages/dev-frontend/src/components]

    What a form may submit, and what it tells its user otherwise.  A JSX element is modelled by
    the component it creates: the children of an [ErrorDescription] are evaluated with it and are
    its text; the two components that describe a valid change are given their properties and
    render when React gets to them. *)

From S2P Require Import Prelude BigNumber Decimals Constants Troves Deposits LiquityStore.

Local Open Scope Z_scope.

Module VaultValidation.
Import Trove TroveParams.

(** [COIN] of [utils/constants.ts] *)
Definition COIN : string := "LED".

Inductive Element : Type :=
| ErrorDescription (children : string)
| VaultChangeDescription (params : TroveAdjustmentParams Decimal.t) (symbol : string)
| StabilityActionDescription (version collateral : string)
    (thusdDiff collateralDiff : option Difference.t) (originalDeposit : StabilityDeposit.t)
    (change : DepositChange Decimal.t).

(** ** Vaults *)

Record VaultChangeValidationSelectedState : Type := mkSelected {
  price : Decimal.t;
  total : Trove.t;
  erc20TokenBalance : Decimal.t;
  thusdBalance : Decimal.t;
  numberOfTroves : Z;
  symbol : string;
}.

Definition selectForVaultChangeValidation (s : LiquityStore.LiquityStoreBaseState) :
    VaultChangeValidationSelectedState :=
  mkSelected (snd (LiquityStore.price _ s)) (snd (LiquityStore.total _ s))
    (snd (LiquityStore.erc20TokenBalance _ s)) (snd (LiquityStore.thusdBalance _ s))
    (LiquityStore.numberOfTroves _ s) (LiquityStore.symbol _ s).

Record VaultChangeValidationContext : Type := mkContext {
  selected : VaultChangeValidationSelectedState;
  originalVault : Trove.t;
  resultingVault : Trove.t;
  recoveryMode : bool;
  wouldTriggerRecoveryMode : bool;
}.

(** The properties of a change's parameters, whichever their type. *)
Definition creationProps {T} (p : TroveCreationParams T) : TroveAdjustmentParams T :=
  mkAdjustment (Some (depositCollateral p)) None (Some (borrowTHUSD p)) None.
Definition closureProps {T} (p : TroveClosureParams T) : TroveAdjustmentParams T :=
  mkAdjustment None (Some (closureWithdraw p)) None (closureRepay p).
Definition changeProps {T} (c : TroveChange T) : TroveAdjustmentParams T :=
  match c with
  | invalidCreation _ _ => noAdjustment
  | creation p => creationProps p
  | closure p => closureProps p
  | adjustment p _ => p
  end.

Section Operations.
Context {BN : BigNumberOps}.

Definition percentOf (ratio : Decimal.t) : Res string :=
  let! p := Percent.new ratio in Percent.toString p 0.

Definition mcrPercent : string := static_init "" (percentOf MINIMUM_COLLATERAL_RATIO).
Definition ccrPercent : string := static_init "" (percentOf CRITICAL_COLLATERAL_RATIO).

(** [x?.gt(y)], as a condition. *)
Definition exceeds (x : option Decimal.t) (y : Decimal.t) : Res bool :=
  match x with Some d => Decimal.gt d y | None => Ok false end.

Definition present {A} (x : option A) : bool := match x with Some _ => true | None => false end.

(** [x.sub(y).prettify()] *)
Definition excess (x : option Decimal.t) (y : Decimal.t) : Res string :=
  match x with
  | Some d => let! e := Decimal.sub d y in Decimal.prettify e None
  | None => Throw "Cannot read properties of undefined (reading 'sub')"
  end.

Definition error (text : string) : Res (option Element) := Ok (Some (ErrorDescription text)).

Definition validateVaultCreation (params : TroveCreationParams Decimal.t)
    (context : VaultChangeValidationContext) : Res (option Element) :=
  let s := selected context in
  let! tooLittle := Decimal.lt (borrowTHUSD params) THUSD_MINIMUM_NET_DEBT in
  if (tooLittle : bool) then
    let! minimum := Decimal.toString THUSD_MINIMUM_NET_DEBT None in
    error ("You must borrow at least " +:+ minimum +:+ " " +:+ COIN +:+ ".")
  else
    let checkBalance :=
      let! tooMuch := Decimal.gt (depositCollateral params) (erc20TokenBalance s) in
      if (tooMuch : bool) then
        let! by_ := excess (Some (depositCollateral params)) (erc20TokenBalance s) in
        error ("The amount you're trying to deposit exceeds your balance by " +:+ by_ +:+ " " +:+
               symbol s +:+ ".")
      else Ok None in
    if recoveryMode context then
      let! openable := isOpenableInRecoveryMode (resultingVault context) (price s) in
      if negb openable then
        error ("You're not allowed to open a Vault with less than " +:+ ccrPercent +:+
               " Collateral Ratio during recovery mode. " +:+
               "Please increase your Vault's Collateral Ratio.")
      else checkBalance
    else
      let! below := collateralRatioIsBelowMinimum (resultingVault context) (price s) in
      if (below : bool) then
        error ("Collateral ratio must be at least " +:+ mcrPercent +:+ ".")
      else if wouldTriggerRecoveryMode context then
        error ("You're not allowed to open a Vault that would cause the Total Collateral Ratio " +:+
               "to fall below " +:+ ccrPercent +:+
               ". Please increase your Vault's Collateral Ratio.")
      else checkBalance.

(** The conditions of an adjustment that depend on the mode ... *)
Definition validateAdjustedRatio (params : TroveAdjustmentParams Decimal.t)
    (context : VaultChangeValidationContext) : Res (option Element) :=
  let s := selected context in
  if recoveryMode context then
    if present (withdraw params) then
      error "You're not allowed to withdraw collateral during recovery mode."
    else if present (borrow params) then
      let! below := collateralRatioIsBelowCritical (resultingVault context) (price s) in
      if (below : bool) then
        error ("Your collateral ratio must be at least " +:+ ccrPercent +:+
               " to borrow during recovery mode. Please improve your collateral ratio.")
      else
        let! resulting := collateralRatio (resultingVault context) (price s) in
        let! original := collateralRatio (originalVault context) (price s) in
        let! less := Decimal.lt resulting original in
        if (less : bool) then
          error "You're not allowed to decrease your collateral ratio during recovery mode."
        else Ok None
    else Ok None
  else
    let! below := collateralRatioIsBelowMinimum (resultingVault context) (price s) in
    if (below : bool) then
      error ("Collateral ratio must be at least " +:+ mcrPercent +:+ ".")
    else if wouldTriggerRecoveryMode context then
      error ("The adjustment you're trying to make would cause the Total Collateral Ratio to " +:+
             "fall below " +:+ ccrPercent +:+ ". Please increase your Vault's Collateral Ratio.")
    else Ok None.

(** ... and those of a repayment. *)
Definition validateRepayment (params : TroveAdjustmentParams Decimal.t)
    (context : VaultChangeValidationContext) : Res (option Element) :=
  let s := selected context in
  if present (repay params) then
    let! tooLittle := Decimal.lt (debt (resultingVault context)) THUSD_MINIMUM_DEBT in
    if (tooLittle : bool) then
      let! minimum := Decimal.toString THUSD_MINIMUM_DEBT None in
      error ("Total debt must be at least " +:+ minimum +:+ " " +:+ COIN +:+ ".")
    else
      let! tooMuch := exceeds (repay params) (thusdBalance s) in
      if (tooMuch : bool) then
        let! by_ := excess (repay params) (thusdBalance s) in
        error ("The amount you're trying to repay exceeds your balance by " +:+ by_ +:+ " " +:+
               COIN +:+ ".")
      else Ok None
  else Ok None.

(** The rest of a function after a conditional [return]. *)
Definition orElse (check rest : Res (option Element)) : Res (option Element) :=
  let! e := check in
  match e with Some _ => Ok e | None => rest end.

Definition validateVaultAdjustment (params : TroveAdjustmentParams Decimal.t)
    (context : VaultChangeValidationContext) : Res (option Element) :=
  let s := selected context in
  orElse (validateAdjustedRatio params context)
    (orElse (validateRepayment params context)
      (let! tooMuch := exceeds (deposit params) (erc20TokenBalance s) in
       if (tooMuch : bool) then
         let! by_ := excess (deposit params) (erc20TokenBalance s) in
         error ("The amount you're trying to deposit exceeds your balance by " +:+ by_ +:+ " .")
       else Ok None)).

Definition validateVaultClosure (params : TroveClosureParams Decimal.t)
    (context : VaultChangeValidationContext) : Res (option Element) :=
  let s := selected context in
  if numberOfTroves s =? 1 then
    error ("You're not allowed to close your Vault when there are no other Vaults in the " +:+
           "system.")
  else if recoveryMode context then
    error "You're not allowed to close your Vault during recovery mode."
  else
    let! tooMuch := exceeds (closureRepay params) (thusdBalance s) in
    if (tooMuch : bool) then
      let! by_ := excess (closureRepay params) (thusdBalance s) in
      error ("You need " +:+ by_ +:+ " " +:+ COIN +:+ " more to close your Vault.")
    else if wouldTriggerRecoveryMode context then
      error ("You're not allowed to close a Vault if it would cause the Total " +:+
             "Collateralization Ratio to fall below " +:+ ccrPercent +:+
             ". Please wait until the Total Collateral Ratio increases.")
    else Ok None.

(** [undefined] and [null] are both [None]. *)
Definition validateVaultChange (originalVault adjustedVault : Trove.t)
    (borrowingRate : Decimal.t) (selectedState : VaultChangeValidationSelectedState) :
    Res (option (TroveChange Decimal.t) * option Element) :=
  let! change := whatChanged originalVault adjustedVault (Some (borrowingRate : Decimal.Decimalish)) in
  match change with
  | None => Ok (None, None)
  | Some change =>
      let! resultingVault :=
        apply originalVault (Some change) (Some (borrowingRate : Decimal.Decimalish)) in
      let! recoveryMode :=
        collateralRatioIsBelowCritical (total selectedState) (price selectedState) in
      let! without := subtract (total selectedState) originalVault in
      let! after := add without resultingVault in
      let! wouldTriggerRecoveryMode :=
        collateralRatioIsBelowCritical after (price selectedState) in
      let context := mkContext selectedState originalVault resultingVault recoveryMode
                       wouldTriggerRecoveryMode in
      let validated (errorDescription : Res (option Element)) :=
        let! e := errorDescription in
        match e with
        | Some e => Ok (None, Some e)
        | None => Ok (Some change,
                      Some (VaultChangeDescription (changeProps change) (symbol selectedState)))
        end in
      match change with
      | invalidCreation _ _ =>
          let! minimum := Decimal.toString THUSD_MINIMUM_DEBT None in
          Ok (None, Some (ErrorDescription
                ("Total debt must be at least " +:+ minimum +:+ " " +:+ COIN +:+ ".")))
      | creation params => validated (validateVaultCreation params context)
      | closure params => validated (validateVaultClosure params context)
      | adjustment params _ => validated (validateVaultAdjustment params context)
      end
  end.

(** The text [VaultChangeDescription] renders. *)
Definition amount (d : Decimal.t) (precision : option Z) (unit_ : string) : Res string :=
  let! p := Decimal.prettify d precision in Ok (p +:+ " " +:+ unit_).

Definition renderVaultChange (params : TroveAdjustmentParams Decimal.t) (symbol : string) :
    Res string :=
  let collateral d := amount d (Some 6) symbol in
  let coin d := amount d None COIN in
  let two (before between_ : string) (x y : Res string) :=
    let! x := x in let! y := y in Ok (before +:+ x +:+ between_ +:+ y +:+ ".") in
  let one (before : string) (x : Res string) :=
    let! x := x in Ok (before +:+ x +:+ ".") in
  match deposit params, withdraw params, borrow params, repay params with
  | Some d, _, Some b, _ => two "You will deposit " " and receive " (collateral d) (coin b)
  | _, Some w, _, Some r => two "You will pay " " and receive " (coin r) (collateral w)
  | Some d, _, _, Some r => two "You will deposit " " and pay " (collateral d) (coin r)
  | _, Some w, Some b, _ => two "You will receive " " and " (collateral w) (coin b)
  | Some d, _, _, _ => one "You will deposit " (collateral d)
  | _, Some w, _, _ => one "You will receive " (collateral w)
  | _, _, Some b, _ => one "You will receive " (coin b)
  | _, _, _, Some r => one "You will pay " (coin r)
  | _, _, _, _ => Throw "Cannot read properties of undefined (reading 'prettify')"
  end.

(** ** Stability deposits *)

(** [x == 0] for an object: the text of [x], read as a number, is zero.  The texts of Decimals
    that are zero as numbers are those without any other digit (the smallest positive one,
    10^-18, is far above what a double rounds to zero). *)
Fixpoint onlyZeros (s : string) : bool :=
  match s with
  | EmptyString => true
  | String c s' => (Ascii.eqb c "0" || Ascii.eqb c ".") && onlyZeros s'
  end.

Definition looselyZero (d : Decimal.t) : Res bool :=
  let! s := Decimal.toString d None in Ok (onlyZeros s).

Record StabilityDepositChangeValidationContext : Type := mkDepositContext {
  balance : Decimal.t;
  haveUndercollateralizedTroves : bool;
}.

Definition selectForStabilityDepositChangeValidation (s : LiquityStore.LiquityStoreBaseState)
    (d : LiquityStore.LiquityStoreDerivedState) : StabilityDepositChangeValidationContext :=
  mkDepositContext (snd (LiquityStore.thusdBalance _ s))
    (LiquityStore.haveUndercollateralizedTroves d).

Definition validateStabilityDepositChange (version collateral : string)
    (originalDeposit : StabilityDeposit.t) (editedTHUSD : Decimal.t)
    (context : StabilityDepositChangeValidationContext)
    (thusdDiff collateralDiff : option Difference.t) :
    Res (option (DepositChange Decimal.t) * option Element) :=
  let! change := StabilityDeposit.whatChanged originalDeposit editedTHUSD in
  let valid change := Ok (Some change, Some (StabilityActionDescription version collateral
                            thusdDiff collateralDiff originalDeposit change)) in
  match change with
  | None => Ok (None, None)
  | Some (depositTHUSD d) =>
      let! none := looselyZero (balance context) in
      if (none : bool) then
        Ok (None, Some (ErrorDescription ("You must first have a " +:+ COIN +:+
              " balance to deposit into the stability pool.")))
      else valid (depositTHUSD d)
  | Some (withdrawTHUSD w all) =>
      if haveUndercollateralizedTroves context then
        Ok (None, Some (ErrorDescription ("You're not allowed to withdraw " +:+ COIN +:+
              " from your Stability Deposit when there are undercollateralized Vaults. " +:+
              "Please liquidate those Vaults or try again later.")))
      else valid (withdrawTHUSD w all)
  end.

End Operations.
End VaultValidation.
