(* ===== verification/VaultValidationProperties.v ===== *)
(** * What the validated changes guarantee

    The validation of an edited Vault never throws (closing one below the reserve apart), decides
    a declarative condition, and what it lets through is safe for the whole system. *)

From S2P Require Import Prelude BigNumber Decimals Constants Troves TroveProperties Deposits VaultValidation.

Local Open Scope Z_scope.

Module VaultValidationProperties.
Import Decimal DecimalFacts Trove TroveParams TroveFacts TroveProperties.
Import VaultValidation.

(** ** The conditions, in exact arithmetic *)

Definition MCR : N := 11 * 10 ^ 17.
Definition CCR : N := 15 * 10 ^ 17.

(** A Trove with debt whose collateral is worth less than [limit] times its debt. *)
Definition below (limit : N) (v : Trove.t) (p : Decimal.t) : bool :=
  negb (units (debt v) =? 0)%N &&
  (units (Trove.collateral v) * units p <? limit * units (debt v))%N.

(** The ratio as a number of units; that of a Trove without debt is infinite. *)
Definition ratio (v : Trove.t) (p : Decimal.t) : N :=
  units (dmulDiv (Trove.collateral v) p (debt v)).

(** The whole system once [a] has become [t]. *)
Definition after (total a t : Trove.t) : Trove.t := tadd (tsubtract total a) t.

Definition atMost (x : option Decimal.t) (limit : Decimal.t) : bool :=
  match x with Some d => dleb d limit | None => true end.

Definition healthy (s : VaultChangeValidationSelectedState) (a t : Trove.t) : bool :=
  negb (below MCR t (price s)) && negb (below CCR (after (total s) a t) (price s)).

(** What may be submitted: [t] is what [c] turns the Vault [a] into. *)
Definition permitted (s : VaultChangeValidationSelectedState) (a t : Trove.t)
    (c : TroveChange Decimal.t) : bool :=
  let recovery := below CCR (total s) (price s) in
  match c with
  | invalidCreation _ _ => false
  | creation p =>
      (1800 * SCALE <=? units (borrowTHUSD p))%N &&
      (if recovery then negb (below CCR t (price s)) else healthy s a t) &&
      dleb (depositCollateral p) (erc20TokenBalance s)
  | closure p =>
      negb (numberOfTroves s =? 1) && negb recovery &&
      negb (below CCR (after (total s) a t) (price s)) &&
      atMost (closureRepay p) (thusdBalance s)
  | adjustment p _ =>
      (if recovery
       then negb (present (withdraw p)) &&
            (negb (present (borrow p)) ||
             (negb (below CCR t (price s)) && (ratio a (price s) <=? ratio t (price s))%N))
       else healthy s a t) &&
      (negb (present (repay p)) || (2000 * SCALE <=? units (debt t))%N) &&
      atMost (repay p) (thusdBalance s) && atMost (deposit p) (erc20TokenBalance s)
  end.

(** ** The total ratio *)

(** Replacing a part [ca/da] of the total by [ct/dt], which is not worth less, keeps the total's
    ratio up to one unit: when the debt does not grow, or when the new part has the critical
    ratio and not less than the old one (in rounded ratios). *)
Lemma part_replaced (C D ca da ct dt p : N) :
  (ca <= C -> da <= D -> ca <= ct -> D <> 0 -> C * p < CCR * D ->
   dt <= da \/ (da < dt /\ CCR * dt <= ct * p /\
     ((da <> 0 /\ ca * p / da <= ct * p / dt) \/ (da = 0 /\ (2 ^ 256 - 1) * dt <= ct * p)
      \/ (ca = 0 /\ da = 0))) ->
   D - da + dt = 0 \/ C * p / D <= (C - ca + ct) * p / (D - da + dt) + 1)%N.
Proof.
  intros Hca Hda Hct HD Hrec Hcase.
  destruct (N.eqb_spec (D - da + dt) 0) as [E|E]; [by left|right].
  assert (C * p / D * D <= C * p)%N as Hq
    by (rewrite N.mul_comm; apply N.Div0.mul_div_le).
  assert (C * p / D < CCR)%N as Hq' by (apply N.Div0.div_lt_upper_bound; lia).
  set (q := (C * p / D)%N) in *. clearbody q.
  cut ((q - 1) * (D - da + dt) <= (C - ca + ct) * p)%N.
  { intros H. assert (q - 1 <= (C - ca + ct) * p / (D - da + dt))%N; [|lia].
    apply N.div_le_lower_bound; lia. }
  assert (exists w x k, C = ca + w /\ ct = ca + x /\ D = da + k)%N as (w & x & k & -> & -> & ->)
    by (exists (C - ca)%N, (ct - ca)%N, (D - da)%N; lia).
  replace (ca + w - ca + (ca + x))%N with (ca + w + x)%N by lia.
  replace (da + k - da + dt)%N with (k + dt)%N by lia.
  destruct q as [|q0] using N.peano_ind; [lia|]. clear IHq0.
  replace (N.succ q0 - 1)%N with q0 by lia. rewrite <- N.add_1_r in *.
  rewrite N.mul_add_distr_r. clear Hca Hda Hct E HD.
  destruct Hcase as [Hd|(Hd & Hcrit & [(Hda0 & Hr)|[(-> & Hinf)|(-> & ->)] ])].
  - assert (q0 * (k + dt) <= q0 * (da + k))%N by (apply N.mul_le_mono_l; lia). nia.
  - assert (ca * p < (ca * p / da + 1) * da)%N as Hfa.
    { pose proof (N.div_mod (ca * p) da Hda0). pose proof (N.mod_lt (ca * p) da Hda0). nia. }
    assert (ca * p / da * dt <= (ca + x) * p)%N as Hft.
    { transitivity ((ca + x) * p / dt * dt)%N; [nia|]. rewrite N.mul_comm. apply N.Div0.mul_div_le. }
    set (f := (ca * p / da)%N) in *. clearbody f. clear Hr Hrec.
    destruct (N.le_gt_cases (q0 + 1) f); nia.
  - assert (x * p + k + dt >= (q0 + 1) * dt)%N; [|nia].
    unfold CCR in *. destruct (N.le_gt_cases (15 * 10 ^ 17 * dt) k); nia.
  - nia.
Qed.

Section Properties.
Context {BN : BigNumberOps} {BNL : BigNumberLaws BN}.

(** ** The texts shown *)

Lemma toString_total d p : 0 <= p -> exists s, Decimal.toString d (Some p) = Ok s.
Proof.
  intros Hp. unfold Decimal.toString. rewrite infinite_ok. cbn [res_bind].
  destruct (deqb d INF); [by eexists|]. unfold _toStringWithPrecision.
  rewrite (proj2 (Z.ltb_ge _ _)) by done. destruct (p =? 0); by eexists.
Qed.

Lemma split_cons sep s : exists x l, Js.split sep s = x :: l.
Proof.
  destruct s as [|c s]; [by do 2 eexists|]. cbn. destruct (Ascii.eqb c sep); [by do 2 eexists|].
  destruct (Js.split sep s); by do 2 eexists.
Qed.

Lemma prettify_total d : exists s, Decimal.prettify d None = Ok s.
Proof.
  unfold Decimal.prettify. destruct (toString_total d 2) as [s ->]; [done|]. cbn [res_bind].
  destruct (split_cons "." s) as (x & l & ->). destruct l; by eexists.
Qed.

Lemma automatic_total d : exists s, Decimal.toString d None = Ok s.
Proof.
  unfold Decimal.toString. rewrite infinite_ok. cbn [res_bind]. destruct (deqb d INF); by eexists.
Qed.

Lemma percentOf_ok n :
  (n < units INF)%N ->
  percentOf (Decimal.mk n) =
    Ok ((if (units (Decimal.mk (n * 100)) =? units INF)%N then "∞"
         else Js.dec_string ((Z.of_N (n * 100) + 5 * 10 ^ 17) / Z.of_N SCALE) +:+ "%")).
Proof.
  intros Hn. unfold percentOf, Percent.new, Percent.toString.
  cbn [Percent.infinite Percent.Decimal_percentable Percent.mul Percent.absoluteValue
       Percent.toString_].
  assert (from (ofNumber "100") = Ok (Decimal.mk (100 * SCALE))) as H100
    by (unfold from; rewrite fromString_independent; by vm_compute).
  rewrite infinite_ok. cbn [res_bind].
  replace (deqb (Decimal.mk n) INF) with false by (symmetry; apply N.eqb_neq; cbn [units]; lia).
  rewrite (mul_from _ _ _ H100). cbn [res_bind Percent._percent].
  replace (dmul (Decimal.mk n) (Decimal.mk (100 * SCALE))) with (Decimal.mk (n * 100))
    by (apply t_eq; unfold dmul; cbn [units]; rewrite N.mul_assoc, N.div_mul by done; done).
  unfold Decimal.toString. rewrite infinite_ok. cbn [res_bind]. unfold deqb.
  destruct (_ =? _)%N; [by cbn|]. cbn [res_bind]. unfold _toStringWithPrecision. cbn [Z.ltb].
  change (0 <? 0) with false. change (0 =? 0) with true. cbn iota. cbn [res_bind].
  change (0 <? Z.of_nat PRECISION) with true. cbn iota. unfold _roundUp, getDigits.
  change (Z.of_nat PRECISION - 1 - 0) with 17.
  rewrite bn_mulE, bn_addE, bn_powE by lia. rewrite DIGITS_val. unfold _bigNumber, TEN_BN.
  cbn [units]. replace (10 ^ 17 * 5) with (5 * 10 ^ 17) by lia.
  rewrite bn_divE by (unfold SCALE; lia). rewrite bn_toString_nonneg; [done|].
  apply Z.div_pos; unfold SCALE; lia.
Qed.

Lemma percents : mcrPercent = "110%" /\ ccrPercent = "150%".
Proof.
  unfold mcrPercent, ccrPercent.
  rewrite MINIMUM_COLLATERAL_RATIO_val, CRITICAL_COLLATERAL_RATIO_val, !percentOf_ok by done.
  by vm_compute.
Qed.

(** ** The ratios *)

Lemma below_ok limit v p :
  (limit < units INF)%N -> dltb (dmulDiv (Trove.collateral v) p (debt v)) (Decimal.mk limit) = below limit v p.
Proof.
  intros Hl. apply eq_true_iff_eq. rewrite ratio_below by done. unfold below.
  rewrite andb_true_iff, negb_true_iff, N.eqb_neq, N.ltb_lt. done.
Qed.

Lemma belowMinimum_ok v (p : Decimal.t) :
  collateralRatioIsBelowMinimum v p = Ok (below MCR v p).
Proof.
  unfold collateralRatioIsBelowMinimum. rewrite collateralRatio_ok. cbn [res_bind].
  by rewrite MINIMUM_COLLATERAL_RATIO_val, lt_ok, below_ok.
Qed.

Lemma belowCritical_ok v (p : Decimal.t) :
  collateralRatioIsBelowCritical v p = Ok (below CCR v p).
Proof.
  unfold collateralRatioIsBelowCritical. rewrite collateralRatio_ok. cbn [res_bind].
  by rewrite CRITICAL_COLLATERAL_RATIO_val, lt_ok, below_ok.
Qed.

Lemma openable_ok v (p : Decimal.t) :
  isOpenableInRecoveryMode v p = Ok (negb (below CCR v p)).
Proof.
  unfold isOpenableInRecoveryMode. rewrite collateralRatio_ok. cbn [res_bind].
  rewrite CRITICAL_COLLATERAL_RATIO_val, gte_ok, <- below_ok by done. f_equal.
  unfold dleb, dltb. by rewrite N.leb_antisym.
Qed.

(** ** What each check decides *)

(** The check answers no error exactly when [b] holds. *)
Definition decides (r : Res (option Element)) (b : bool) : Prop :=
  match r with
  | Ok None => b = true
  | Ok (Some (ErrorDescription _)) => b = false
  | _ => False
  end.

Lemma decides_else r1 b1 r2 b2 :
  decides r1 b1 -> decides r2 b2 -> decides (orElse r1 r2) (b1 && b2).
Proof. destruct r1 as [ [ [ ]|]|]; cbn; try done; by intros ->. Qed.

Lemma decides_if (c : bool) r1 r2 b1 b2 :
  (c = true -> decides r1 b1) -> (c = false -> decides r2 b2) ->
  decides (if c then r1 else r2) (if c then b1 else b2).
Proof. destruct c; auto. Qed.

Lemma decides_error text : decides (error text) false.
Proof. done. Qed.

Lemma decides_bind {A} (r : Res A) f b :
  (exists a, r = Ok a) -> (forall a, decides (f a) b) -> decides (res_bind r f) b.
Proof. intros [a ->] H. apply H. Qed.

Lemma excess_total x y : atMost x y = false -> exists s, excess x y = Ok s.
Proof.
  destruct x as [d|]; [|done]. unfold atMost, excess, dleb. intros H%N.leb_gt.
  rewrite sub_ok by lia. apply prettify_total.
Qed.

Lemma exceeds_ok x y : exceeds x y = Ok (negb (atMost x y)).
Proof.
  destruct x as [d|]; [|done]. unfold exceeds, atMost. rewrite gt_ok. f_equal. unfold dltb, dleb.
  by rewrite N.leb_antisym, negb_involutive.
Qed.

(** [x.gt(y)] and the error that says by how much. *)
Lemma decides_excess x y f :
  decides (let! tooMuch := exceeds x y in
           if (tooMuch : bool) then let! by_ := excess x y in error (f by_) else Ok None)
          (atMost x y).
Proof.
  rewrite exceeds_ok. cbn [res_bind]. destruct (atMost x y) eqn:E; [done|].
  apply decides_bind; [by apply excess_total|done].
Qed.

Lemma decides_minimum (d m : Decimal.t) f r b :
  decides r b ->
  decides (let! tooLittle := lt d m in
           if (tooLittle : bool) then let! s := Decimal.toString m None in error (f s) else r)
          (dleb m d && b).
Proof.
  intros Hr. rewrite lt_ok. cbn [res_bind]. unfold dltb, dleb. rewrite N.leb_antisym.
  destruct (units d <? units m)%N; [|done]. apply decides_bind; [apply automatic_total|done].
Qed.

Lemma dleb_ratio a t (p : Decimal.t) :
  dltb (dmulDiv (Trove.collateral t) p (debt t)) (dmulDiv (Trove.collateral a) p (debt a)) =
    negb (ratio a p <=? ratio t p)%N.
Proof. unfold dltb, ratio. by rewrite N.leb_antisym, negb_involutive. Qed.

Section Checks.
Context (s : VaultChangeValidationSelectedState) (a t : Trove.t).

Let context : VaultChangeValidationContext :=
  mkContext s a t (below CCR (total s) (price s)) (below CCR (after (total s) a t) (price s)).

Lemma creation_decides p :
  decides (validateVaultCreation p context) (permitted s a t (creation p)).
Proof.
  unfold validateVaultCreation, permitted. rewrite <- !andb_assoc.
  replace (1800 * SCALE <=? units (borrowTHUSD p))%N with
    (dleb THUSD_MINIMUM_NET_DEBT (borrowTHUSD p)) by by rewrite THUSD_MINIMUM_NET_DEBT_val.
  apply decides_minimum. cbn [selected recoveryMode resultingVault wouldTriggerRecoveryMode context].
  pose proof (decides_excess (Some (depositCollateral p)) (erc20TokenBalance s)) as Hbalance.
  unfold exceeds, atMost in Hbalance.
  destruct (below CCR (total s) (price s)).
  - rewrite openable_ok. cbn [res_bind]. rewrite negb_involutive.
    destruct (below CCR t (price s)); [apply decides_error|]. apply Hbalance.
  - rewrite belowMinimum_ok. cbn [res_bind]. unfold healthy.
    destruct (below MCR t (price s)); [apply decides_error|].
    destruct (below CCR (after _ _ _) _); [apply decides_error|]. apply Hbalance.
Qed.

Lemma closure_decides p :
  decides (validateVaultClosure p context) (permitted s a t (closure p)).
Proof.
  unfold validateVaultClosure, permitted. cbn [selected recoveryMode wouldTriggerRecoveryMode context].
  destruct (numberOfTroves s =? 1); [apply decides_error|].
  destruct (below CCR (total s) (price s)); [apply decides_error|]. cbn [andb negb].
  rewrite exceeds_ok. cbn [res_bind]. destruct (atMost _ _) eqn:E; cbn [negb].
  - rewrite andb_true_r. by destruct (below CCR (after _ _ _) _).
  - rewrite andb_false_r. apply decides_bind; [by apply excess_total|done].
Qed.

Lemma ratio_decides p :
  decides (validateAdjustedRatio p context)
    (if below CCR (total s) (price s)
     then negb (present (withdraw p)) &&
          (negb (present (borrow p)) ||
           (negb (below CCR t (price s)) && (ratio a (price s) <=? ratio t (price s))%N))
     else healthy s a t).
Proof.
  unfold validateAdjustedRatio.
  cbn [selected recoveryMode resultingVault originalVault wouldTriggerRecoveryMode context].
  destruct (below CCR (total s) (price s)).
  - destruct (present (withdraw p)); [apply decides_error|].
    destruct (present (borrow p)); [|done]. rewrite belowCritical_ok. cbn [res_bind negb andb orb].
    destruct (below CCR t (price s)); [apply decides_error|]. rewrite !collateralRatio_ok.
    cbn [res_bind]. rewrite lt_ok, dleb_ratio. cbn [res_bind].
    by destruct (_ <=? _)%N.
  - rewrite belowMinimum_ok. cbn [res_bind]. unfold healthy.
    destruct (below MCR t (price s)); [apply decides_error|].
    by destruct (below CCR (after _ _ _) _).
Qed.

Lemma repayment_decides p :
  decides (validateRepayment p context)
    ((negb (present (repay p)) || (2000 * SCALE <=? units (debt t))%N) &&
     atMost (repay p) (thusdBalance s)).
Proof.
  unfold validateRepayment. cbn [selected resultingVault context].
  destruct (repay p) as [r|] eqn:Er; cbn [present negb orb]; [|done].
  replace (2000 * SCALE <=? units (debt t))%N with (dleb THUSD_MINIMUM_DEBT (debt t))
    by by rewrite THUSD_MINIMUM_DEBT_val.
  apply decides_minimum, decides_excess.
Qed.

Lemma adjustment_decides p z :
  decides (validateVaultAdjustment p context) (permitted s a t (adjustment p z)).
Proof.
  unfold validateVaultAdjustment, permitted. rewrite <- (andb_assoc _ _ (atMost (repay p) _)).
  rewrite <- andb_assoc. apply decides_else; [apply ratio_decides|].
  apply decides_else; [apply repayment_decides|].
  apply (decides_excess (deposit p) (erc20TokenBalance s)).
Qed.

End Checks.

(** ** The two validations *)

Lemma validated_outcome checked allowed (c : TroveChange Decimal.t) symbol :
  decides checked allowed ->
  exists valid description,
    (let! e := checked in
     match e with
     | Some e => Ok (None, Some e)
     | None => Ok (Some c, Some (VaultChangeDescription (changeProps c) symbol))
     end) = Ok (valid, description) /\
    if allowed : bool
    then valid = Some c /\ description = Some (VaultChangeDescription (changeProps c) symbol)
    else valid = None /\ exists text, description = Some (ErrorDescription text).
Proof.
  destruct checked as [ [ [ ]|]|]; cbn; try done; intros ->; do 2 eexists; split; try done.
  split; [done|by eexists].
Qed.

Lemma validation_outcome (a b : Trove.t) (r : Decimal.t) (s : VaultChangeValidationSelectedState) :
  (units r < SCALE)%N ->
  match validateVaultChange a b r s with
  | Throw _ => isEmpty a = false /\ isEmpty b = true /\ (units (debt a) < 200 * SCALE)%N
  | Ok (valid, description) =>
      exists c, whatChanged a b (Some (r : Decimalish)) = Ok c /\
      match c with
      | None => a = b /\ valid = None /\ description = None
      | Some c =>
          exists t, apply a (Some c) (Some (r : Decimalish)) = Ok t /\
            if permitted s a t c
            then valid = Some c /\
                 description = Some (VaultChangeDescription (changeProps c) (symbol s))
            else valid = None /\ exists text, description = Some (ErrorDescription text)
      end
  end.
Proof.
  intros Hr. unfold validateVaultChange.
  pose proof (whatChanged_applies a b r r (from_decimal r) Hr) as H.
  destruct (whatChanged a b (Some (r : Decimalish))) as [ [c|]|m]; cbn [res_bind].
  3: exact H.
  2: { exists None. destruct H as [H _]. split; [done|]. by split; [apply H|]. }
  destruct H as (_ & t & Ht & _). rewrite Ht. cbn [res_bind].
  rewrite belowCritical_ok, subtract_ok. cbn [res_bind]. rewrite tadd_ok. cbn [res_bind].
  rewrite belowCritical_ok. cbn [res_bind]. fold (after (total s) a t).
  destruct c as [v e|p|p|p z].
  - destruct (automatic_total THUSD_MINIMUM_DEBT) as [m ->]. cbn [res_bind].
    eexists; split; [done|]. exists t. split; [done|]. split; [done|by eexists].
  - destruct (validated_outcome _ _ (creation p) (symbol s) (creation_decides s a t p))
      as (v & d & -> & H). eexists; split; [done|]. by exists t.
  - destruct (validated_outcome _ _ (closure p) (symbol s) (closure_decides s a t p))
      as (v & d & -> & H). eexists; split; [done|]. by exists t.
  - destruct (validated_outcome _ _ (adjustment p z) (symbol s) (adjustment_decides s a t p z))
      as (v & d & -> & H). eexists; split; [done|]. by exists t.
Qed.

(** C3: editing a Vault [a] towards [b]: the validation throws exactly when that closes a Vault
    below the liquidation reserve; otherwise it answers nothing when nothing changed, the change
    and its description when the change is permitted, and an error when it is not. *)
Theorem validation_decides (a b : Trove.t) (r : Decimal.t) (s : VaultChangeValidationSelectedState) :
  (units r < SCALE)%N ->
  match validateVaultChange a b r s with
  | Throw _ => isEmpty a = false /\ isEmpty b = true /\ (units (debt a) < 200 * SCALE)%N
  | Ok (valid, description) =>
      exists c, whatChanged a b (Some (r : Decimalish)) = Ok c /\
      match c with
      | None => a = b /\ valid = None /\ description = None
      | Some c =>
          exists t, apply a (Some c) (Some (r : Decimalish)) = Ok t /\
            if permitted s a t c
            then valid = Some c /\
                 description = Some (VaultChangeDescription (changeProps c) (symbol s))
            else valid = None /\ exists text, description = Some (ErrorDescription text)
      end
  end.
Proof. apply validation_outcome. Qed.

(** What an adjustment's parameters say about the two Vaults. *)
Lemma adjustment_shape r a b p z :
  twhatChanged r a b = Some (adjustment p z) ->
  isEmpty b = false /\
  (withdraw p = None -> units (Trove.collateral a) <= units (Trove.collateral b))%N /\
  (borrow p = None -> units (debt b) <= units (debt a))%N /\
  (forall m, atMost (deposit p) m = true ->
     units (Trove.collateral b) <= units (Trove.collateral a) + units m)%N /\
  (forall m, atMost (repay p) m = true -> units (debt a) <= units (debt b) + units m)%N.
Proof.
  unfold twhatChanged. destruct (deqb _ _ && deqb _ _); [done|]. destruct (isEmpty a).
  { by destruct (_ <? _)%N. }
  destruct (isEmpty b); [done|]. intros H. split; [done|]. revert H.
  unfold tdebtChange, tcollateralChange, spread, atMost, dleb, dltb, deqb.
  destruct (N.eqb_spec (units (Trove.collateral a)) (units (Trove.collateral b)));
    [|destruct (N.eqb_spec (units (debt a)) (units (debt b)))];
    destruct (N.ltb_spec (units (debt a)) (units (debt b)));
    destruct (N.ltb_spec (units (Trove.collateral a)) (units (Trove.collateral b)));
    intros [= <- <-];
    cbn [withdraw borrow deposit repay units dsub dunapplyFee];
    (split; [|split; [|split] ]); try done; intros; rewrite ?N.leb_le in *; simplify_eq; lia.
Qed.

Lemma creation_shape r a b q :
  twhatChanged r a b = Some (creation q) ->
  isEmpty a = true /\ depositCollateral q = Trove.collateral b /\
  (200 * SCALE <= units (debt b))%N.
Proof.
  unfold twhatChanged. destruct (deqb _ _ && deqb _ _); [done|]. destruct (isEmpty a).
  - destruct (N.ltb_spec (units (debt b)) (200 * SCALE)); [done|]. by intros [= <-].
  - destruct (isEmpty b); [done|]. by destruct (deqb (Trove.collateral a) (Trove.collateral b)), (deqb (debt a) (debt b)).
Qed.

Lemma closure_shape r a b q :
  twhatChanged r a b = Some (closure q) ->
  isEmpty b = true /\
  forall m, atMost (closureRepay q) m = true -> (units (debt a) <= 200 * SCALE + units m)%N.
Proof.
  unfold twhatChanged. destruct (deqb _ _ && deqb _ _); [done|]. destruct (isEmpty a).
  { by destruct (_ <? _)%N. }
  destruct (isEmpty b); [|by destruct (deqb (Trove.collateral a) (Trove.collateral b)), (deqb (debt a) (debt b))]. intros [= <-].
  split; [done|]. intros m. cbn [closureRepay]. rewrite nonZero_ok. cbn [dsub units].
  destruct (N.eqb_spec (units (debt a) - 200 * SCALE) 0); cbn [atMost].
  - lia.
  - unfold dleb. cbn [dsub units]. intros H%N.leb_le. lia.
Qed.

Lemma isEmpty_spec v :
  isEmpty v = true <-> units (Trove.collateral v) = 0%N /\ units (debt v) = 0%N.
Proof. rewrite isEmpty_ok, andb_true_iff, !N.eqb_eq. done. Qed.

Lemma nonempty v : units (debt v) <> 0%N -> isEmpty v = false.
Proof. intros H. apply not_true_is_false. by intros [_ ?]%isEmpty_spec. Qed.

Lemma below_false limit v p :
  below limit v p = false <->
  (units (debt v) = 0 \/ limit * units (debt v) <= units (Trove.collateral v) * units p)%N.
Proof.
  unfold below. rewrite andb_false_iff, negb_false_iff, N.eqb_eq, N.ltb_ge. done.
Qed.

Lemma below_true limit v p :
  below limit v p = true <->
  (units (debt v) <> 0 /\ units (Trove.collateral v) * units p < limit * units (debt v))%N.
Proof. unfold below. by rewrite andb_true_iff, negb_true_iff, N.eqb_neq, N.ltb_lt. Qed.

Lemma ratio_some v p :
  units (debt v) <> 0%N ->
  ratio v p = (units (Trove.collateral v) * units p / units (debt v))%N.
Proof. intros H. unfold ratio, dmulDiv. by destruct (N.eqb_spec (units (debt v)) 0). Qed.

Lemma ratio_none v p : units (debt v) = 0%N -> ratio v p = (2 ^ 256 - 1)%N.
Proof. intros H. unfold ratio, dmulDiv. by destruct (N.eqb_spec (units (debt v)) 0). Qed.

Lemma accepted a b (r : Decimal.t) s c d :
  (units r < SCALE)%N -> validateVaultChange a b r s = Ok (Some c, d) ->
  exists t, apply a (Some c) (Some (r : Decimalish)) = Ok t /\ permitted s a t c = true /\
    twhatChanged r a b = Some c /\ Trove.collateral t = Trove.collateral b /\
    (units (debt b) <= units (debt t) <= units (debt b) + 1)%N /\
    ((units (debt b) <= units (debt a))%N -> t = b).
Proof.
  intros Hr Hv. pose proof (validation_outcome a b r s Hr) as H. rewrite Hv in H.
  destruct H as (c' & Hc & H). pose proof (whatChanged_applies a b r r (from_decimal r) Hr) as Ha.
  rewrite Hc in Ha. rewrite (whatChanged_ok _ _ _ _ (from_decimal r)) in Hc.
  destruct (badClosure a b); [done|]. apply Ok_inj in Hc. destruct c' as [c'|]; [|by destruct H as (_ & ? & _)].
  destruct H as (t & Ht & H). destruct (permitted s a t c') eqn:Hp.
  - destruct H as [ [= ->] _]. destruct Ha as (_ & t' & Ht' & Ha). rewrite Ht in Ht'.
    apply Ok_inj in Ht' as <-. exists t. by destruct Ha as (? & ? & ?).
  - by destruct H as [? _].
Qed.

(** The ratio of the whole system under a permitted change in recovery mode. *)
Lemma recovery_total r a b t p z s :
  twhatChanged r a b = Some (adjustment p z) -> permitted s a t (adjustment p z) = true ->
  Trove.collateral t = Trove.collateral b ->
  ((units (debt b) <= units (debt a))%N -> t = b) ->
  (units (Trove.collateral a) <= units (Trove.collateral (total s)))%N ->
  (units (debt a) <= units (debt (total s)))%N ->
  below CCR (total s) (price s) = true ->
  (units (Trove.collateral a) <= units (Trove.collateral t))%N /\
  (units (debt a) < units (debt t) -> below CCR t (price s) = false)%N /\
  (ratio (total s) (price s) <= ratio (after (total s) a t) (price s) + 1)%N.
Proof.
  intros Hp Hperm Hc Hd Hca Hda Hrec.
  destruct (adjustment_shape _ _ _ _ _ Hp) as (_ & Hw & Hb & _).
  unfold permitted in Hperm. rewrite Hrec in Hperm. rewrite !andb_true_iff in Hperm.
  destruct Hperm as [ [ [ [Hnow Hborrow] _] _] _].
  destruct (withdraw p); [done|]. specialize (Hw eq_refl). rewrite <- Hc in Hw. split; [done|].
  assert (units (debt a) < units (debt t) ->
    below CCR t (price s) = false /\ ratio a (price s) <= ratio t (price s))%N as Hmore.
  { intros Hlt. destruct (borrow p); cbn [present negb orb] in Hborrow.
    - bool_to_prop. done.
    - specialize (Hb eq_refl). rewrite (Hd Hb) in Hlt. lia. }
  split; [by intros; apply Hmore|].
  apply below_true in Hrec as [HD Hrec].
  rewrite (ratio_some (total s)) by done.
  destruct (N.eqb_spec (units (debt (after (total s) a t))) 0) as [E|E].
  { rewrite (ratio_none _ _ E). 
    assert (units (Trove.collateral (total s)) * units (price s) / units (debt (total s)) < CCR)%N
      by (apply N.Div0.div_lt_upper_bound; lia). unfold CCR in *. lia. }
  rewrite (ratio_some _ _ E). unfold after in *. cbn [tadd tsubtract dadd dsub units Trove.collateral debt] in *.
  edestruct (part_replaced _ _ _ _ _ (units (debt t)) _ Hca Hda Hw HD Hrec) as [H|H]; [|lia|exact H].
  destruct (N.le_gt_cases (units (debt t)) (units (debt a))); [by left|right].
  split; [done|]. destruct Hmore as [Hcrit Hr]; [done|]. apply below_false in Hcrit.
  split; [lia|]. destruct (N.eqb_spec (units (debt a)) 0) as [Ea|Ea].
  - right; left. rewrite (ratio_none _ _ Ea), ratio_some in Hr by lia. split; [done|].
    rewrite N.mul_comm. etransitivity; [apply N.mul_le_mono_l, Hr|]. apply N.Div0.mul_div_le.
  - left. rewrite !ratio_some in Hr by lia. done.
Qed.

Lemma ratio_monotone v w (p : Decimal.t) :
  below CCR v p = true -> below CCR w p = false -> (ratio v p <= ratio w p + 1)%N.
Proof.
  intros [Hv Hlt]%below_true Hw%below_false. rewrite (ratio_some _ _ Hv).
  assert (units (Trove.collateral v) * units p / units (debt v) < CCR)%N
    by (apply N.Div0.div_lt_upper_bound; lia).
  destruct (N.eqb_spec (units (debt w)) 0) as [E|E].
  - rewrite (ratio_none _ _ E). unfold CCR in *. lia.
  - rewrite (ratio_some _ _ E).
    assert (CCR <= units (Trove.collateral w) * units p / units (debt w))%N
      by (apply N.div_le_lower_bound; lia). lia.
Qed.

(** A new Vault with the critical ratio. *)
Lemma opened_total s a t :
  isEmpty a = true -> below CCR (total s) (price s) = true -> below CCR t (price s) = false ->
  (ratio (total s) (price s) <= ratio (after (total s) a t) (price s) + 1)%N.
Proof.
  intros [Ha1 Ha2]%isEmpty_spec Hrec Ht%below_false.
  pose proof Hrec as [HD Hlt]%below_true. rewrite (ratio_some _ _ HD).
  destruct (N.eqb_spec (units (debt (after (total s) a t))) 0) as [E|E].
  { cbn in E. lia. }
  rewrite (ratio_some _ _ E). unfold after in *.
  cbn [tadd tsubtract dadd dsub units Trove.collateral debt] in *. rewrite Ha1, Ha2 in *.
  destruct (N.eqb_spec (units (debt t)) 0) as [Et|Et].
  - rewrite Et in *. rewrite !N.sub_0_r, N.add_0_r in *.
    etransitivity; [apply N.Div0.div_le_mono, N.mul_le_mono_r, N.le_add_r|]. apply N.le_add_r.
  - edestruct (part_replaced _ _ 0 0 (units (Trove.collateral t)) (units (debt t)) (units (price s))
      (N.le_0_l _) (N.le_0_l _) (N.le_0_l _) HD Hlt) as [H|H]; [|lia|exact H].
    right. repeat split; lia.
Qed.

(** C2: an accepted change leads to the Vault aimed at (up to one unit of debt) and is paid for by
    the user's balances.  Outside recovery mode it leaves the system outside recovery mode and the
    Vault, unless closed, at the minimum ratio.  In recovery mode it neither closes the Vault nor
    takes collateral out of it, adds debt only at the critical ratio, and keeps the total
    collateral ratio up to one unit in its last place. *)
Theorem accepted_change_is_safe (a b : Trove.t) (r : Decimal.t)
    (s : VaultChangeValidationSelectedState) c description t :
  (units r < SCALE)%N ->
  (units (Trove.collateral a) <= units (Trove.collateral (total s)))%N ->
  (units (debt a) <= units (debt (total s)))%N ->
  validateVaultChange a b r s = Ok (Some c, description) ->
  apply a (Some c) (Some (r : Decimalish)) = Ok t ->
  let p := price s in
  Trove.collateral t = Trove.collateral b /\
  (units (debt b) <= units (debt t) <= units (debt b) + 1)%N /\
  (units (Trove.collateral t) <= units (Trove.collateral a) + units (erc20TokenBalance s))%N /\
  (units (debt a) <= units (debt t) + units (thusdBalance s) +
                     (if isEmpty t then 200 * SCALE else 0))%N /\
  if below CCR (total s) p
  then isEmpty t = false /\
       (units (Trove.collateral a) <= units (Trove.collateral t))%N /\
       (units (debt a) < units (debt t) -> below CCR t p = false)%N /\
       (ratio (total s) p <= ratio (after (total s) a t) p + 1)%N
  else (isEmpty t = false -> below MCR t p = false) /\
       below CCR (after (total s) a t) p = false.
Proof.
  intros Hr Hca Hda Hv Ht p. destruct (accepted _ _ _ _ _ _ Hr Hv) as (t' & Ht' & Hp & Hc & Hct & Hdt & Hb).
  rewrite Ht in Ht'. apply Ok_inj in Ht' as <-. split; [done|]. split; [done|]. subst p.
  destruct c as [v e|q|q|q z]; [done| | |].
  - destruct (creation_shape _ _ _ _ Hc) as (Ea & Hq & Hdb). pose proof Ea as [Ha1 Ha2]%isEmpty_spec.
    assert (isEmpty t = false) as Et by (apply nonempty; unfold SCALE in *; lia).
    unfold permitted, healthy, dleb in Hp. rewrite Et, Hct, <- Hq, Ha1, Ha2.
    destruct (below CCR (total s) (price s)) eqn:Erec; bool_to_prop; repeat split; try lia; try done.
    by apply opened_total.
  - destruct (closure_shape _ _ _ _ Hc) as (Eb & Hq). pose proof Eb as [Hb1 Hb2]%isEmpty_spec.
    rewrite Hb in * by lia. unfold permitted in Hp. rewrite Eb.
    destruct (below CCR (total s) (price s)) eqn:Erec; bool_to_prop; [done|].
    rewrite Hb1, Hb2. specialize (Hq (thusdBalance s) ltac:(done)). repeat split; try lia; done.
  - destruct (adjustment_shape _ _ _ _ _ Hc) as (Eb & _ & _ & Hdep & Hrep).
    assert (isEmpty t = false) as Et.
    { apply not_true_is_false. intros [H1 H2]%isEmpty_spec. rewrite Hct in H1.
      apply not_true_iff_false in Eb. apply Eb, isEmpty_spec. lia. }
    rewrite Et, Hct. pose proof Hp as Hp'. unfold permitted in Hp'. rewrite !andb_true_iff in Hp'.
    destruct Hp' as [ [ [Hmode _] Hrepay%Hrep] Hdeposit%Hdep]. split; [lia|]. split; [lia|].
    destruct (below CCR (total s) (price s)) eqn:Erec.
    + destruct (recovery_total _ _ _ _ _ _ _ Hc Hp Hct Hb Hca Hda Erec) as (H1 & H2 & H3).
      rewrite Hct in H1. done.
    + unfold healthy in Hmode. by bool_to_prop.
Qed.

(** ** Stability deposits *)

Lemma onlyZeros_app s t : onlyZeros (s +:+ t) = onlyZeros s && onlyZeros t.
Proof. induction s as [|c s IH]; cbn; [done|]. by rewrite IH, andb_assoc. Qed.

Lemma onlyZeros_value s : Js.all_digits s = true -> onlyZeros s = (Js.dec_value s =? 0).
Proof.
  induction s as [|c s IH]; [done|]. intros H. pose proof H as H'. cbn in H.
  apply andb_true_iff in H as [Hc Hs].
  change (String c s) with (String c "" +:+ s). rewrite JsFacts.dec_value_app by done.
  pose proof (JsFacts.dec_value_nonneg _ Hs). pose proof (JsFacts.digit_value_bounds _ Hc).
  change (Js.dec_value (String c "")) with (Js.digit_value c).
  rewrite onlyZeros_app, IH by done. cbn [onlyZeros]. rewrite andb_true_r.
  replace (Ascii.eqb c "0" || Ascii.eqb c ".") with (Js.digit_value c =? 0).
  - destruct (Z.eqb_spec (Js.digit_value c) 0) as [E|E].
    + rewrite E. cbn [andb]. by rewrite Z.mul_0_l.
    + symmetry. apply Z.eqb_neq. assert (0 < 10 ^ Z.of_nat (String.length s)) by lia. nia.
  - destruct (Ascii.eqb_spec c "0") as [->|E0]; [done|]. destruct (Ascii.eqb_spec c ".") as [->|E1]; [done|].
    apply Z.eqb_neq. intros E. by apply E0, JsFacts.digit_value_zero.
Qed.

Lemma looselyZero_ok d : looselyZero d = Ok (units d =? 0)%N.
Proof.
  unfold looselyZero. rewrite toString_text. cbn [res_bind]. f_equal.
  destruct (deqb d INF) eqn:Einf; [by apply deqb_eq in Einf as ->|].
  unfold _toStringWithAutomaticPrecision, _bigNumber. destruct (div_mod_units (units d)) as [-> ->].
  rewrite bn_isZeroE, !bn_toString_nonneg by apply N2Z.is_nonneg.
  destruct (JsFacts.dec_string_spec (Z.of_N (units d / SCALE)) (N2Z.is_nonneg _)) as [Hc Hcv].
  destruct (JsFacts.dec_string_spec (Z.of_N (units d mod SCALE)) (N2Z.is_nonneg _)) as [Hm Hmv].
  pose proof (N.div_mod (units d) SCALE ltac:(done)) as Hdm.
  apply eq_true_iff_eq. rewrite N.eqb_eq.
  destruct (Z.eqb_spec (Z.of_N (units d mod SCALE)) 0) as [E|E].
  - rewrite (onlyZeros_value _ Hc), Hcv, Z.eqb_eq. unfold SCALE in *. lia.
  - rewrite !onlyZeros_app. 
    assert (onlyZeros (Js.trim_zeros (Js.padStart PRECISION "0"
      (Js.dec_string (Z.of_N (units d mod SCALE))))) = false) as ->.
    { set (m := Js.padStart _ _ _).
      assert (onlyZeros m = false) as Hz.
      { subst m. rewrite onlyZeros_value by (by apply JsFacts.all_digits_padStart).
        rewrite JsFacts.padStart_value, Hmv by done. by apply Z.eqb_neq. }
      rewrite (JsFacts.trim_zeros_pad m), onlyZeros_app in Hz.
      rewrite (onlyZeros_value (Js.repeat _ _)), JsFacts.dec_value_zeros in Hz
        by apply JsFacts.all_digits_zeros. by rewrite andb_true_r in Hz. }
    rewrite !andb_false_r. split; [done|]. intros H. rewrite H in E. done.
Qed.

(** A changed deposit is accepted unless it needs a balance and there is none at all, or takes
    money out while there are undercollateralized Vaults; how much the balance is does not matter. *)
Lemma deposit_validation v c (o : StabilityDeposit.t) (edited : Decimal.t) context td cd :
  exists change description,
    validateStabilityDepositChange v c o edited context td cd = Ok (change, description) /\
    let current := StabilityDeposit.currentTHUSD o in
    (change = None <->
      edited = current \/
      (dltb current edited = true /\ units (balance context) = 0%N) \/
      (dltb edited current = true /\ haveUndercollateralizedTroves context = true)) /\
    (forall x, change = Some x ->
      StabilityDeposit.apply o (Some (DepositFacts.changeish x)) = Ok edited).
Proof.
  unfold validateStabilityDepositChange.
  rewrite (DepositFacts.stability_whatChanged_ok _ _ _ (from_decimal edited)). cbn [res_bind].
  pose proof (DepositFacts.stability_apply_change o edited) as Ha. revert Ha.
  unfold DepositFacts.change, dltb. set (current := StabilityDeposit.currentTHUSD o).
  assert (edited = current <-> units edited = units current) as He
    by (split; [by intros ->|apply t_eq]).
  cbv zeta. setoid_rewrite He. setoid_rewrite N.ltb_lt. destruct (N.ltb_spec (units edited) (units current));
    [|destruct (N.ltb_spec (units current) (units edited))]; intros Ha.
  - destruct (haveUndercollateralizedTroves context); do 2 eexists; (split; [done|]); cbv zeta.
    + split; [split; [lia|done]|done].
    + split; [split; [done|lia]|by intros x [= <-] ].
  - rewrite looselyZero_ok. cbn [res_bind].
    destruct (N.eqb_spec (units (balance context)) 0); do 2 eexists; (split; [done|]); cbv zeta.
    + split; [split; [lia|done]|done].
    + split; [split; [done|lia]|by intros x [= <-] ].
  - do 2 eexists; split; [done|]. cbv zeta. split; [split; [lia|done]|done].
Qed.


End Properties.

(** ** Witnesses *)

Definition aSelectedState : VaultChangeValidationSelectedState :=
  mkSelected (Decimal.mk (1000 * SCALE))
    (Trove.mk (Decimal.mk (100 * SCALE)) (Decimal.mk (40000 * SCALE)))
    (Decimal.mk (5 * SCALE)) (Decimal.mk (300 * SCALE)) 3 "TBTC".

(** The same with a price at which the system is in recovery mode. *)
Definition aRecoveryState : VaultChangeValidationSelectedState :=
  mkSelected (Decimal.mk (590 * SCALE)) (total aSelectedState) (erc20TokenBalance aSelectedState)
    (thusdBalance aSelectedState) 3 "TBTC".

Definition accepts (r : Res (option (TroveChange Decimal.t) * option Element)) : bool :=
  match r with Ok (Some _, _) => true | _ => false end.

Lemma validation_decides_witness :
  exists c, @validateVaultChange Z_bignumber aTrove anotherTrove aRate aSelectedState =
    Ok (Some c, Some (VaultChangeDescription (changeProps c) "TBTC")).
Proof.
  pose proof (@validation_decides Z_bignumber Z_bignumber_laws aTrove anotherTrove aRate
    aSelectedState eq_refl) as H.
  assert (accepts (@validateVaultChange Z_bignumber aTrove anotherTrove aRate aSelectedState) = true)
    as Hok by (vm_compute; reflexivity).
  destruct (validateVaultChange aTrove anotherTrove aRate aSelectedState) as [ [ [c|] d]|]; try discriminate.
  exists c. destruct H as (c' & _ & H). destruct c' as [c'|]; [|by destruct H as (_ & ? & _)].
  destruct H as (t & _ & H). destruct (permitted _ _ _ _); [|by destruct H].
  destruct H as [ [= ->] ->]. reflexivity.
Defined.

Lemma accepted_change_is_safe_witness :
  exists c t, @apply Z_bignumber aTrove (Some c) (Some (ofDecimal aRate)) = Ok t /\
    below CCR (total aRecoveryState) (price aRecoveryState) = true /\
    (ratio (total aRecoveryState) (price aRecoveryState) <=
     ratio (after (total aRecoveryState) aTrove t) (price aRecoveryState) + 1)%N.
Proof.
  destruct (@validateVaultChange Z_bignumber aTrove anotherTrove aRate aRecoveryState)
    as [ [ [c|] d]|] eqn:Hv.
  2,3: exfalso; revert Hv; vm_compute; discriminate.
  assert (Hb : below CCR (total aRecoveryState) (price aRecoveryState) = true)
    by (vm_compute; reflexivity).
  assert (H1 : (units (Trove.collateral aTrove) <=
    units (Trove.collateral (total aRecoveryState)))%N) by (vm_compute; discriminate).
  assert (H2 : (units (debt aTrove) <= units (debt (total aRecoveryState)))%N)
    by (vm_compute; discriminate).
  assert (H3 : (units aRate < SCALE)%N) by (vm_compute; reflexivity).
  destruct (@accepted Z_bignumber Z_bignumber_laws _ _ _ _ _ _ H3 Hv) as (t & Ht & _).
  pose proof (@accepted_change_is_safe Z_bignumber Z_bignumber_laws aTrove anotherTrove aRate
    aRecoveryState c d t H3 H1 H2 Hv Ht) as H.
  cbv zeta in H. rewrite Hb in H. destruct H as (_ & _ & _ & _ & _ & _ & _ & H).
  exists c, t. exact (conj Ht (conj Hb H)).
Defined.

End VaultValidationProperties.
