(* ===== verification/VaultManager.v ===== *)
(** * Editing a Vault or a stability deposit while the store moves

    The reducers of [VaultManager.tsx] and [StabilityDepositManager.tsx] (of
    [src/packages/dev-frontend/src/components]), the helpers of [Adjusting.tsx] that carry an edit
    over to a new Vault, and [useStableVaultChange.ts].  A reducer keeps what the user edits apart
    from the original in the store and is told of every update of the store. *)

From S2P Require Import Prelude BigNumber Decimals Constants Troves Deposits LiquityStore VaultValidation.

Local Open Scope Z_scope.

Module VaultManager.
Import Trove TroveParams.

Record VaultManagerState : Type := mkState {
  original : UserTrove.t;
  edited : Trove.t;
  changePending : bool;
  debtDirty : bool;
  addedMinimumDebt : bool;
}.

Inductive VaultManagerAction : Type :=
| updateStore (params : LiquityStore.LiquityStoreListenerParams)
| startChange
| finishChange
| revert
| addMinimumDebt
| removeMinimumDebt
| setCollateral (newValue : Decimal.Decimalish)
| setDebt (newValue : Decimal.Decimalish).

(** [new Vault(trove.collateral, trove.debt)] *)
Definition copy (trove : UserTrove.t) : Trove.t :=
  Trove.mk (Trove.collateral (UserTrove.super trove)) (Trove.debt (UserTrove.super trove)).

Definition init (d : LiquityStore.LiquityStoreDerivedState) : VaultManagerState :=
  let trove := snd (LiquityStore.trove d) in
  mkState trove (copy trove) false false false.

(** The update of the properties of a state. *)
Definition with_pending (b : bool) (s : VaultManagerState) : VaultManagerState :=
  mkState (original s) (edited s) b (debtDirty s) (addedMinimumDebt s).
Definition with_edited (t : Trove.t) (s : VaultManagerState) : VaultManagerState :=
  mkState (original s) t (changePending s) (debtDirty s) (addedMinimumDebt s).
Definition with_original (t : UserTrove.t) (s : VaultManagerState) : VaultManagerState :=
  mkState t (edited s) (changePending s) (debtDirty s) (addedMinimumDebt s).
Definition with_minimum (b : bool) (s : VaultManagerState) : VaultManagerState :=
  mkState (original s) (edited s) (changePending s) (debtDirty s) b.

Definition reduceFinish (s : VaultManagerState) : VaultManagerState := with_pending false s.
Definition reduceRevert (s : VaultManagerState) : VaultManagerState :=
  mkState (original s) (copy (original s)) (changePending s) false false.

(** [newState.trove] and the truth of [stateChange.troveBeforeRedistribution]: objects are true. *)
Definition troveOf (params : LiquityStore.LiquityStoreListenerParams) : Res UserTrove.t :=
  match LiquityStore.property (LiquityStore.newState params) "trove" with
  | Some (LiquityStore.VUserTrove o) => Ok (snd o)
  | _ => Throw "TypeError"
  end.
Definition isCommitted (params : LiquityStore.LiquityStoreListenerParams) : bool :=
  match LiquityStore.property (LiquityStore.stateChange params) "troveBeforeRedistribution" with
  | Some (LiquityStore.VPendingTrove _) => true
  | _ => false
  end.

Section Operations.
Context {BN : BigNumberOps}.

Definition zeroRate : Decimal.Decimalish := Decimal.ofNumber "0".

Definition reduceAddMinimum (s : VaultManagerState) : Res VaultManagerState :=
  let! e := Trove.setDebt (edited s) THUSD_MINIMUM_DEBT in
  Ok (with_minimum true (with_edited e s)).
Definition reduceRemoveMinimum (s : VaultManagerState) : Res VaultManagerState :=
  let! e := Trove.setDebt (edited s) (Decimal.ofNumber "0") in
  Ok (with_minimum false (with_edited e s)).

Definition reduce (state : VaultManagerState) (action : VaultManagerAction) :
    Res VaultManagerState :=
  match action with
  | startChange => Ok (with_pending true state)
  | finishChange => Ok (reduceFinish state)
  | setCollateral newValue =>
      let! newCollateral := Decimal.from newValue in
      let! e := Trove.setCollateral (edited state) newCollateral in
      let newState := with_edited e state in
      if negb (debtDirty state) then
        if isEmpty (edited state) && negb (Decimal.isZero newCollateral)
        then reduceAddMinimum newState
        else if addedMinimumDebt state && Decimal.isZero newCollateral
        then reduceRemoveMinimum newState
        else Ok newState
      else Ok newState
  | setDebt newValue =>
      let! e := Trove.setDebt (edited state) newValue in
      Ok (mkState (original state) e (changePending state) true (addedMinimumDebt state))
  | addMinimumDebt => reduceAddMinimum state
  | removeMinimumDebt => reduceRemoveMinimum state
  | revert => Ok (reduceRevert state)
  | updateStore params =>
      let! trove := troveOf params in
      let newState := with_original trove state in
      if changePending state && isCommitted params then Ok (reduceFinish (reduceRevert newState))
      else
        let! change :=
          whatChanged (UserTrove.super (original state)) (edited state) (Some zeroRate) in
        let reverts :=
          match change with
          | Some (creation _) => negb (isEmpty (UserTrove.super trove))
          | Some (closure _) => isEmpty (UserTrove.super trove)
          | _ => false
          end in
        if reverts then Ok (reduceRevert newState)
        else
          let! e := apply (UserTrove.super trove) change (Some zeroRate) in
          Ok (with_edited e newState)
  end.

(** [feeFrom] of [VaultManager.tsx] and [Adjusting.tsx]: the fee of what the edit borrows. *)
Definition feeFrom (original edited : Trove.t) (borrowingRate : Decimal.t) : Res Decimal.t :=
  let! change := whatChanged original edited (Some (borrowingRate : Decimal.Decimalish)) in
  match change with
  | None | Some (invalidCreation _ _) => Ok Decimal.ZERO
  | Some c => match borrow (VaultValidation.changeProps c) with
              | Some b => Decimal.mul b borrowingRate
              | None => Ok Decimal.ZERO
              end
  end.

(** The highest rate a transaction accepts. *)
Definition maxBorrowingRate (borrowingRate : Decimal.t) : Res Decimal.t :=
  Decimal.add borrowingRate (Decimal.ofNumber "0.005").

(** ** [Adjusting.tsx]: an edit carried over to a new amount *)

(** [applyUnsavedCollateralChanges] and [applyUnsavedNetDebtChanges], of the amount they read. *)
Definition applyUnsaved (unsavedChanges : Difference.t) (amount : Decimal.t) : Res Decimal.t :=
  match Difference.absoluteValue unsavedChanges with
  | None => Ok amount
  | Some d =>
      match Difference.positive unsavedChanges with
      | Some _ => Decimal.add amount d
      | None =>
          match Difference.negative unsavedChanges with
          | Some _ => let! less := Decimal.lt d amount in
                      if (less : bool) then Decimal.sub amount d else Ok amount
          | None => Ok amount
          end
      end
  end.

Definition applyUnsavedCollateralChanges (unsavedChanges : Difference.t) (vault : Trove.t) :
    Res Decimal.t := applyUnsaved unsavedChanges (Trove.collateral vault).
Definition applyUnsavedNetDebtChanges (unsavedChanges : Difference.t) (vault : Trove.t) :
    Res Decimal.t :=
  let! n := netDebt vault in applyUnsaved unsavedChanges n.

(** The effect that runs when the store's Vault is [trove] and was [previous]: the edited
    collateral and net debt. *)
Definition adjustEffect (previous trove : Trove.t) (collateralAmount netDebtAmount : Decimal.t) :
    Res (Decimal.t * Decimal.t) :=
  let! sameCollateral := Decimal.eq (Trove.collateral previous) (Trove.collateral trove) in
  let! nextCollateral :=
    if (sameCollateral : bool) then Ok collateralAmount
    else let! d := Difference.between (Some (collateralAmount : Decimal.Decimalish))
                     (Some (Trove.collateral previous : Decimal.Decimalish)) in
         applyUnsavedCollateralChanges d trove in
  let! previousNet := netDebt previous in
  let! net := netDebt trove in
  let! sameNet := Decimal.eq previousNet net in
  let! nextNetDebt :=
    if (sameNet : bool) then Ok netDebtAmount
    else let! d := Difference.between (Some (netDebtAmount : Decimal.Decimalish))
                     (Some (previousNet : Decimal.Decimalish)) in
         applyUnsavedNetDebtChanges d trove in
  Ok (nextCollateral, nextNetDebt).

(** ** [useStableVaultChange.ts] *)

Definition paramsEq (a b : option Decimal.t) : Res bool :=
  match a, b with
  | Some a, Some b => Decimal.eq a b
  | None, None => Ok true
  | _, _ => Ok false
  end.

Definition sameType {T} (a b : TroveChange T) : bool :=
  match a, b with
  | invalidCreation _ _, invalidCreation _ _ | creation _, creation _
  | closure _, closure _ | adjustment _ _, adjustment _ _ => true
  | _, _ => false
  end.

Definition equals (a b : TroveChange Decimal.t) : Res bool :=
  let p := VaultValidation.changeProps a in
  let q := VaultValidation.changeProps b in
  let both (x : bool) (y : Res bool) := if x then y else Ok false in
  let! e1 := both (sameType a b) (paramsEq (borrow p) (borrow q)) in
  let! e2 := both e1 (paramsEq (repay p) (repay q)) in
  let! e3 := both e2 (paramsEq (deposit p) (deposit q)) in
  both e3 (paramsEq (withdraw p) (withdraw q)).

(** The effect: the change kept when [vaultChange] is the current one. *)
Definition stableEffect (stableVaultChange vaultChange : option (TroveChange Decimal.t)) :
    Res (option (TroveChange Decimal.t)) :=
  match stableVaultChange, vaultChange with
  | None, Some _ | Some _, None => Ok vaultChange
  | Some a, Some b => let! e := equals a b in
                      Ok (if (e : bool) then stableVaultChange else vaultChange)
  | None, None => Ok stableVaultChange
  end.

End Operations.
End VaultManager.

(** ** [StabilityDepositManager.tsx] *)
Module StabilityDepositManager.

Record StabilityDepositManagerState : Type := mkState {
  originalDeposit : StabilityDeposit.t;
  editedUSD : Decimal.t;
  changePending : bool;
}.

Inductive StabilityDepositManagerAction : Type :=
| updateStore (params : LiquityStore.LiquityStoreListenerParams)
| startChange
| finishChange
| revert
| setDeposit (newValue : Decimal.Decimalish).

Definition init (s : LiquityStore.LiquityStoreBaseState) : StabilityDepositManagerState :=
  let d := snd (LiquityStore.stabilityDeposit _ s) in
  mkState d (StabilityDeposit.currentTHUSD d) false.

Definition reduceFinish (s : StabilityDepositManagerState) : StabilityDepositManagerState :=
  mkState (originalDeposit s) (editedUSD s) false.
Definition reduceRevert (s : StabilityDepositManagerState) : StabilityDepositManagerState :=
  mkState (originalDeposit s) (StabilityDeposit.currentTHUSD (originalDeposit s))
    (changePending s).

(** [stateChange.stabilityDeposit] *)
Definition updatedDepositOf (params : LiquityStore.LiquityStoreListenerParams) :
    option StabilityDeposit.t :=
  match LiquityStore.property (LiquityStore.stateChange params) "stabilityDeposit" with
  | Some (LiquityStore.VStabilityDeposit o) => Some (snd o)
  | _ => None
  end.

Section Operations.
Context {BN : BigNumberOps}.

(** A part of the deposit went down. *)
Definition isCommitted (updatedDeposit originalDeposit : StabilityDeposit.t) : Res bool :=
  let! i := Decimal.lt (StabilityDeposit.initialTHUSD updatedDeposit)
              (StabilityDeposit.initialTHUSD originalDeposit) in
  let! c := if (i : bool) then Ok true
            else Decimal.lt (StabilityDeposit.currentTHUSD updatedDeposit)
                   (StabilityDeposit.currentTHUSD originalDeposit) in
  if (c : bool) then Ok true
  else Decimal.lt (StabilityDeposit.collateralGain updatedDeposit)
         (StabilityDeposit.collateralGain originalDeposit).

Definition reduce (state : StabilityDepositManagerState)
    (action : StabilityDepositManagerAction) : Res StabilityDepositManagerState :=
  match action with
  | startChange => Ok (mkState (originalDeposit state) (editedUSD state) true)
  | finishChange => Ok (reduceFinish state)
  | setDeposit newValue =>
      let! d := Decimal.from newValue in
      Ok (mkState (originalDeposit state) d (changePending state))
  | revert => Ok (reduceRevert state)
  | updateStore params =>
      match updatedDepositOf params with
      | None => Ok state
      | Some updatedDeposit =>
          let newState := mkState updatedDeposit (editedUSD state) (changePending state) in
          let! changeCommitted := isCommitted updatedDeposit (originalDeposit state) in
          if changePending state && changeCommitted
          then Ok (reduceFinish (reduceRevert newState))
          else
            let! change := StabilityDeposit.whatChanged (originalDeposit state) (editedUSD state) in
            let! e := StabilityDeposit.apply updatedDeposit
                        (DepositFacts.changeish <$> change) in
            Ok (mkState updatedDeposit e (changePending state))
      end
  end.

End Operations.
End StabilityDepositManager.
