(* ===== verification/VaultManagerProperties.v ===== *)
(** * What becomes of an edit when the store is updated

    The reducers carry an edit over to the new original amount by amount; until the user touches
    the debt, the form that opens a Vault proposes the minimum debt exactly while there is
    collateral. *)

From S2P Require Import Prelude BigNumber Decimals Constants Troves TroveProperties Fees Deposits LiquityStore VaultValidation VaultManager.

Local Open Scope Z_scope.

Module VaultManagerProperties.
Import Decimal DecimalFacts Trove TroveParams TroveFacts TroveProperties.

(** ** Carrying an edit over *)

(** The amount edited from [o] to [e], when the original has become [t]. *)
Definition rebase (o e t : Decimal.t) : Decimal.t :=
  if deqb e o then t
  else if (units e =? 0)%N then Decimal.mk 0
  else Decimal.mk (units t + units e - units o).

Definition vacant (t : Trove.t) : bool :=
  (units (collateral t) =? 0)%N && (units (debt t) =? 0)%N.

Definition rebased (o e t : Trove.t) : Trove.t :=
  if negb (vacant o) && vacant e then tempty
  else Trove.mk (rebase (collateral o) (collateral e) (collateral t))
                (rebase (debt o) (debt e) (debt t)).

(** The edit opens a Vault that has been opened meanwhile, or closes one that is closed. *)
Definition overtaken (o e t : Trove.t) : bool :=
  (vacant o && (200 * SCALE <=? units (debt e))%N && negb (vacant t)) ||
  (negb (vacant o) && vacant e && vacant t).

(** The edits [whatChanged] or [apply] cannot handle: one below the liquidation reserve of a Vault
    opened meanwhile, and the closure of a Vault below it. *)
Definition stuck (o e t : Trove.t) : bool :=
  (vacant o && negb (vacant e) && (units (debt e) <? 200 * SCALE)%N && negb (vacant t)) ||
  (negb (vacant o) && vacant e && (units (debt o) <? 200 * SCALE)%N).

#[global] Instance adjustment_eq_dec : EqDecision (TroveAdjustmentParams Decimal.t).
Proof. solve_decision. Defined.

Section Properties.
Context {BN : BigNumberOps} {BNL : BigNumberLaws BN}.

Lemma vacant_ok t : isEmpty t = vacant t.
Proof. apply isEmpty_ok. Qed.

Lemma vacant_eq t : vacant t = true -> t = tempty.
Proof. rewrite <- vacant_ok. apply isEmpty_inv. Qed.

Definition free : Decimal.t := Decimal.mk 0.

Lemma free_from : from VaultManager.zeroRate = Ok free.
Proof. unfold VaultManager.zeroRate, from. rewrite fromString_independent. by vm_compute. Qed.

Lemma unapply_free d : dunapplyFee free d = d.
Proof.
  apply t_eq. unfold dunapplyFee, onePlus, free. cbn [units]. rewrite N.add_0_r.
  symmetry. apply N.div_unique with (SCALE - 1)%N; unfold SCALE; lia.
Qed.

Lemma apply_free d : dapplyFee free d = d.
Proof.
  apply t_eq. unfold dapplyFee, onePlus, free. cbn [units]. rewrite N.add_0_r. by apply N.div_mul.
Qed.

Lemma rebase_units o e t :
  units (rebase o e t) =
    if (units o =? units e)%N then units t
    else if (units e =? 0)%N then 0%N else (units t + units e - units o)%N.
Proof. unfold rebase, deqb. rewrite N.eqb_sym. by repeat destruct (_ =? _)%N. Qed.

Lemma adjustment_rebased o e t p z :
  twhatChanged free o e = Some (adjustment p z) ->
  vacant o = false /\ vacant e = false /\ tadjust free t p z = rebased o e t.
Proof.
  unfold twhatChanged. rewrite !vacant_ok. intros H.
  destruct (deqb (collateral o) (collateral e) && deqb (debt o) (debt e)) eqn:Es; [done|].
  destruct (vacant o) eqn:Eo; [by destruct (_ <? _)%N|]. destruct (vacant e) eqn:Ee; [done|].
  split; [done|]. split; [done|]. unfold rebased. rewrite Eo, Ee. cbn [negb andb].
  revert H. unfold tdebtChange, tcollateralChange, spread, dltb. rewrite !unapply_free.
  rewrite zeroDebt_ok, zeroCollateral_ok. unfold vacant in Ee. unfold deqb in *.
  pose proof (rebase_units (collateral o) (collateral e) (collateral t)) as Hc.
  pose proof (rebase_units (debt o) (debt e) (debt t)) as Hd. revert Hc Hd.
  destruct (N.eqb_spec (units (collateral o)) (units (collateral e))) as [E1|E1],
           (N.eqb_spec (units (debt o)) (units (debt e))) as [E2|E2]; try done;
    destruct (N.eqb_spec (units (collateral e)) 0), (N.eqb_spec (units (debt e)) 0); try done;
    destruct (N.ltb_spec (units (debt o)) (units (debt e)));
    destruct (N.ltb_spec (units (collateral o)) (units (collateral e)));
    intros Hc Hd [= <- <-]; unfold tadjust, increase, decrease;
    cbn [deposit withdraw borrow repay orZero]; rewrite ?apply_free; apply trove_eq;
    cbn [tsubtract tadd dadd dsub units collateral debt]; lia.
Qed.

Lemma rebased_same o t : rebased o o t = t.
Proof.
  unfold rebased. destruct (vacant o); cbn [negb andb]; unfold rebase;
    rewrite ?deqb_refl; by destruct t.
Qed.

Lemma vacant_debt t : vacant t = true -> units (debt t) = 0%N.
Proof. unfold vacant. intros H. by bool_to_prop. Qed.

Lemma same_ok (o e : Trove.t) :
  deqb (collateral o) (collateral e) && deqb (debt o) (debt e) = true <-> o = e.
Proof.
  rewrite andb_true_iff, !deqb_eq. split; [|by intros ->]. destruct o, e; cbn. by intros [-> ->].
Qed.

Lemma rebased_new e : rebased tempty e tempty = e.
Proof.
  unfold rebased. cbn [vacant tempty collateral debt units negb andb].
  change (vacant tempty) with true. cbn [negb andb]. destruct e as [ [c] [d] ].
  unfold rebase, deqb. cbn [collateral debt units].
  destruct (N.eqb_spec c 0) as [->|_], (N.eqb_spec d 0) as [->|_]; f_equal; try done;
    apply t_eq; cbn [units]; lia.
Qed.

(** The change the edit makes, by what becomes of it. *)
Lemma change_applied o e t :
  match whatChanged o e (Some VaultManager.zeroRate) with
  | Throw _ => stuck o e t = true
  | Ok c =>
      let reverts := match c with
                     | Some (creation _) => negb (vacant t)
                     | Some (closure _) => vacant t
                     | _ => false
                     end in
      reverts = negb (stuck o e t) && overtaken o e t /\
      (reverts = false ->
       match apply t c (Some VaultManager.zeroRate) with
       | Throw _ => stuck o e t = true
       | Ok x => stuck o e t = false /\ x = rebased o e t
       end)
  end.
Proof.
  rewrite (whatChanged_ok _ _ _ _ free_from). unfold badClosure. rewrite !vacant_ok.
  unfold stuck, overtaken.
  destruct (deqb (collateral o) (collateral e) && deqb (debt o) (debt e)) eqn:Es.
  { apply same_ok in Es as ->. rewrite (proj2 (twhatChanged_none _ _ _) eq_refl). cbn [andb negb].
    destruct (vacant e) eqn:Ee; cbn [negb andb orb].
    - rewrite (vacant_debt _ Ee). split; [by destruct (vacant t)|].
      intros _. by rewrite rebased_same.
    - split; [done|]. intros _. by rewrite rebased_same. }
  destruct (vacant o) eqn:Eo; cbn [negb andb orb].
  - assert (vacant e = false) as Ee.
    { apply not_true_is_false. intros He%vacant_eq. apply vacant_eq in Eo.
      apply not_true_iff_false in Es. apply Es, same_ok. congruence. }
    unfold twhatChanged. rewrite Es, vacant_ok, Eo, Ee. cbn [negb andb orb].
    rewrite N.leb_antisym.
    destruct (N.ltb_spec (units (debt e)) (200 * SCALE)) as [Hd|Hd]; cbn [negb andb orb].
    + rewrite !orb_false_r. split; [by rewrite andb_false_r|]. intros _. unfold apply.
      rewrite vacant_ok. destruct (vacant t) eqn:Et; cbn [negb]; [|done].
      split; [done|]. rewrite (vacant_eq _ Eo), (vacant_eq _ Et). by rewrite rebased_new.
    + split; [by rewrite !orb_false_r|]. intros Et%negb_false_iff.
      rewrite (vacant_eq _ Et), (vacant_eq _ Eo), rebased_new, <- empty_val.
      rewrite (apply_creation_ok _ _ _ free_from). cbn [depositCollateral borrowTHUSD].
      rewrite unapply_free, apply_free. split; [done|].
      destruct e as [ce [de] ]. f_equal. apply t_eq. cbn [dadd dsub units debt] in *. lia.
  - destruct (vacant e) eqn:Ee; cbn [negb andb orb].
    + destruct (N.ltb_spec (units (debt o)) (200 * SCALE)) as [Hd|Hd]; [done|].
      unfold twhatChanged. rewrite Es, !vacant_ok, Eo, Ee. split; [done|]. intros Et.
      unfold apply. rewrite vacant_ok, Et, empty_val. split; [done|]. unfold rebased. by rewrite Eo, Ee.
    + destruct (twhatChanged free o e) as [c|] eqn:Ec.
      2: { apply twhatChanged_none in Ec as ->. by rewrite (proj2 (same_ok _ _) eq_refl) in Es. }
      assert (exists p z, c = adjustment p z) as (p & z & ->).
      { revert Ec. unfold twhatChanged. rewrite Es, !vacant_ok, Eo, Ee. intros [= <-].
        destruct (deqb (collateral o) _); [|destruct (deqb (debt o) (debt e))]; by do 2 eexists. }
      split; [done|]. intros _. rewrite (apply_adjustment_ok _ _ _ _ _ free_from).
      split; [done|]. by apply (adjustment_rebased _ _ _ _ _ Ec).
Qed.

Lemma update_outcome (s : VaultManager.VaultManagerState) params (u : UserTrove.t) :
  VaultManager.troveOf params = Ok u ->
  let o := UserTrove.super (VaultManager.original s) in
  let e := VaultManager.edited s in
  let t := UserTrove.super u in
  let pending := VaultManager.changePending s in
  let next := VaultManager.reduce s (VaultManager.updateStore params) in
  if pending && VaultManager.isCommitted params
  then next = Ok (VaultManager.mkState u t false false false)
  else if stuck o e t then exists m, next = Throw m
  else if overtaken o e t then next = Ok (VaultManager.mkState u t pending false false)
  else next = Ok (VaultManager.mkState u (rebased o e t) pending (VaultManager.debtDirty s)
                    (VaultManager.addedMinimumDebt s)).
Proof.
  intros Hu. cbv zeta. unfold VaultManager.reduce. rewrite Hu. cbn [res_bind].
  assert (VaultManager.copy u = UserTrove.super u) as Hcopy by (by destruct u as [ [] ]).
  destruct (_ && _); [by rewrite <- Hcopy|].
  pose proof (change_applied (UserTrove.super (VaultManager.original s)) (VaultManager.edited s)
    (UserTrove.super u)) as H.
  destruct (whatChanged _ _ _) as [c|m]; cbn [res_bind]; [|rewrite H; by eexists].
  rewrite vacant_ok. cbv zeta in H. destruct H as [Hrev H]. rewrite Hrev in H |- *.
  destruct (stuck _ _ _); cbn [negb andb] in *.
  - specialize (H eq_refl). destruct (apply _ _ _); [by destruct H|]. by eexists.
  - destruct (overtaken _ _ _); [by rewrite <- Hcopy|]. specialize (H eq_refl).
    destruct (apply _ _ _) as [x|]; [|done]. by destruct H as [_ ->].
Qed.

(** C21: an update of the store while a Vault is edited.  Once the transaction that was pending has
    changed the Vault, the edit starts again from the new one.  Otherwise an edit that opens
    (closes) a Vault which has been opened (closed) meanwhile is dropped, and any other is carried
    over amount by amount: an amount that was not edited follows the store, one set to zero stays
    zero, one moved by some difference is moved by the same difference.  Only two edits throw. *)
Theorem update_rebases_edit (s : VaultManager.VaultManagerState) params (u : UserTrove.t) :
  VaultManager.troveOf params = Ok u ->
  let o := UserTrove.super (VaultManager.original s) in
  let e := VaultManager.edited s in
  let t := UserTrove.super u in
  let pending := VaultManager.changePending s in
  let next := VaultManager.reduce s (VaultManager.updateStore params) in
  if pending && VaultManager.isCommitted params
  then next = Ok (VaultManager.mkState u t false false false)
  else if stuck o e t then exists m, next = Throw m
  else if overtaken o e t then next = Ok (VaultManager.mkState u t pending false false)
  else next = Ok (VaultManager.mkState u (rebased o e t) pending (VaultManager.debtDirty s)
                    (VaultManager.addedMinimumDebt s)).
Proof. apply update_outcome. Qed.

(** ** The minimum debt of a Vault being opened *)

(** What happens in the form before the user edits the debt, while there is no Vault. *)
Definition opening (a : VaultManager.VaultManagerAction) : Prop :=
  match a with
  | VaultManager.setCollateral _ | VaultManager.startChange | VaultManager.finishChange
  | VaultManager.revert => True
  | VaultManager.updateStore params =>
      exists u, VaultManager.troveOf params = Ok u /\ vacant (UserTrove.super u) = true
  | _ => False
  end.

Definition suggested (t : Trove.t) : N :=
  if (units (collateral t) =? 0)%N then 0%N else (2000 * SCALE)%N.

Definition suggesting (s : VaultManager.VaultManagerState) : Prop :=
  vacant (UserTrove.super (VaultManager.original s)) = true /\
  VaultManager.debtDirty s = false /\
  units (debt (VaultManager.edited s)) = suggested (VaultManager.edited s) /\
  VaultManager.addedMinimumDebt s =
    negb (units (collateral (VaultManager.edited s)) =? 0)%N.

Lemma suggesting_original u pending :
  vacant (UserTrove.super u) = true ->
  suggesting (VaultManager.mkState u (UserTrove.super u) pending false false).
Proof.
  intros Hu. unfold suggesting, suggested. cbn. rewrite (vacant_eq _ Hu). done.
Qed.

Lemma suggested_vacant t : units (debt t) = suggested t -> vacant t = (units (collateral t) =? 0)%N.
Proof.
  unfold suggested, vacant. intros ->. by destruct (units (collateral t) =? 0)%N.
Qed.

Lemma setDebt_ok t x d : from x = Ok d -> setDebt t x = Ok (Trove.mk (collateral t) d).
Proof. unfold setDebt. by intros ->. Qed.

Lemma suggesting_step s a s' :
  suggesting s -> opening a -> VaultManager.reduce s a = Ok s' -> suggesting s'.
Proof.
  intros (Ho & Hdirty & Hdebt & Hadded) Ha Hr. destruct a as [params| | | | | |x|x]; try done.
  - destruct Ha as (u & Hu & Hv). pose proof (update_outcome s params u Hu) as H. cbv zeta in H.
    rewrite Hr in H. destruct (_ && _); [apply Ok_inj in H as ->; by apply suggesting_original|].
    destruct (stuck _ _ _); [by destruct H|].
    destruct (overtaken _ _ _); apply Ok_inj in H as ->; [by apply suggesting_original|].
    rewrite (vacant_eq _ Ho), (vacant_eq _ Hv), rebased_new. done.
  - apply Ok_inj in Hr as <-. done.
  - apply Ok_inj in Hr as <-. done.
  - apply Ok_inj in Hr as <-. unfold VaultManager.reduceRevert.
    replace (VaultManager.copy (VaultManager.original s))
      with (UserTrove.super (VaultManager.original s)) by by destruct (VaultManager.original s) as [ [] ].
    by apply suggesting_original.
  - unfold VaultManager.reduce in Hr. apply res_bind_inv in Hr as (c & Hc & Hr).
    unfold Trove.setCollateral in Hr. rewrite from_decimal in Hr. cbn [res_bind] in Hr.
    rewrite Hdirty, vacant_ok, isZero_ok, (suggested_vacant _ Hdebt), Hadded in Hr.
    cbn [negb] in Hr. unfold suggested in Hdebt. unfold VaultManager.reduceAddMinimum,
      VaultManager.reduceRemoveMinimum in Hr.
    assert (from (ofNumber "0") = Ok (Decimal.mk 0)) as H0
      by (unfold from; rewrite fromString_independent; by vm_compute).
    rewrite (setDebt_ok _ _ _ (from_decimal _)), (setDebt_ok _ _ _ H0) in Hr. cbn [res_bind] in Hr.
    rewrite THUSD_MINIMUM_DEBT_val in Hr. unfold suggesting, suggested.
    destruct (N.eqb_spec (units (collateral (VaultManager.edited s))) 0) as [E1|E1],
             (N.eqb_spec (units c) 0) as [E2|E2]; cbn [negb andb] in Hr;
      apply Ok_inj in Hr as <-; cbn; rewrite ?E2, ?Hadded, ?Hdebt; try done.
    all: rewrite (proj2 (N.eqb_neq _ _) E2); done.
Qed.

(** As long as the user has not edited the debt and there is no Vault, the form that opens one
    proposes the minimum debt exactly while there is collateral, and no debt without; store
    updates, failed transactions and starting again do not change that. *)
Theorem minimum_debt_suggested (d : LiquityStore.LiquityStoreDerivedState) actions s :
  vacant (UserTrove.super (snd (LiquityStore.trove d))) = true ->
  Forall opening actions ->
  res_foldM VaultManager.reduce (VaultManager.init d) actions = Ok s ->
  units (debt (VaultManager.edited s)) =
    (if (units (collateral (VaultManager.edited s)) =? 0)%N then 0 else 2000 * SCALE)%N.
Proof.
  intros Hv Hl Hr. cut (suggesting s); [by intros (_ & _ & ? & _)|].
  assert (suggesting (VaultManager.init d)) as Hinit.
  { unfold VaultManager.init. destruct (snd (LiquityStore.trove d)) as [ [c b] o st] eqn:E.
    by apply (suggesting_original (UserTrove.mk (Trove.mk c b) o st)). }
  revert Hinit Hr. generalize (VaultManager.init d) as s0. induction Hl as [|a l Ha Hl IH]; cbn.
  - by intros s0 Hs [= <-].
  - intros s0 Hs Hr. apply res_bind_inv in Hr as (s1 & Hs1 & Hr).
    apply (IH s1); [|done]. by apply (suggesting_step s0 a).
Qed.

(** ** Stability deposits *)

Lemma deposit_rebased (o u : StabilityDeposit.t) (e : Decimal.t) :
  StabilityDeposit.apply u
    (DepositFacts.changeish <$> DepositFacts.change (StabilityDeposit.currentTHUSD o) e) =
    Ok (rebase (StabilityDeposit.currentTHUSD o) e (StabilityDeposit.currentTHUSD u)).
Proof.
  set (co := StabilityDeposit.currentTHUSD o). set (cu := StabilityDeposit.currentTHUSD u).
  pose proof (rebase_units co e cu) as Hr. unfold DepositFacts.change, dltb.
  destruct (N.eqb_spec (units co) (units e)) as [E|E] in Hr.
  - rewrite E, N.ltb_irrefl. cbn. f_equal. by apply t_eq.
  - destruct (N.ltb_spec (units e) (units co)) as [Hlt|Hge].
    + destruct (N.eqb_spec (units e) 0) as [E0|E0]; unfold StabilityDeposit.apply;
        cbn [fmap option_fmap option_map DepositFacts.changeish].
      * cbn [res_bind]. rewrite ZERO_val. f_equal. by apply t_eq.
      * fold cu. rewrite lte_ok. cbn [res_bind]. unfold dleb. cbn [dsub units].
        destruct (N.leb_spec (units cu) (units co - units e)).
        -- rewrite ZERO_val. f_equal. apply t_eq. cbn [units]. lia.
        -- rewrite sub_ok by (cbn [dsub units]; lia). f_equal. apply t_eq. cbn [dsub units]. lia.
    + rewrite (proj2 (N.ltb_lt _ _)) by lia. unfold StabilityDeposit.apply.
      cbn [fmap option_fmap option_map DepositFacts.changeish]. fold cu. rewrite add_ok. f_equal.
      apply t_eq. cbn [dadd dsub units]. destruct (N.eqb_spec (units e) 0); lia.
Qed.

(** An update of the store while a deposit is edited; the deposit has changed in the expected
    direction when any of its three parts went down. *)
Lemma update_rebases_deposit (s : StabilityDepositManager.StabilityDepositManagerState) params :
  let o := StabilityDepositManager.originalDeposit s in
  let next := StabilityDepositManager.reduce s (StabilityDepositManager.updateStore params) in
  match StabilityDepositManager.updatedDepositOf params with
  | None => next = Ok s
  | Some u =>
      let less f := dltb (f u) (f o) in
      let committed := less StabilityDeposit.initialTHUSD || less StabilityDeposit.currentTHUSD
                         || less StabilityDeposit.collateralGain in
      next = Ok (if StabilityDepositManager.changePending s && committed
                 then StabilityDepositManager.mkState u (StabilityDeposit.currentTHUSD u) false
                 else StabilityDepositManager.mkState u
                        (rebase (StabilityDeposit.currentTHUSD o)
                           (StabilityDepositManager.editedUSD s) (StabilityDeposit.currentTHUSD u))
                        (StabilityDepositManager.changePending s))
  end.
Proof.
  cbv zeta. unfold StabilityDepositManager.reduce.
  destruct (StabilityDepositManager.updatedDepositOf params) as [u|]; [|done].
  set (o := StabilityDepositManager.originalDeposit s).
  assert (StabilityDepositManager.isCommitted u o =
    Ok (dltb (StabilityDeposit.initialTHUSD u) (StabilityDeposit.initialTHUSD o) ||
        dltb (StabilityDeposit.currentTHUSD u) (StabilityDeposit.currentTHUSD o) ||
        dltb (StabilityDeposit.collateralGain u) (StabilityDeposit.collateralGain o))) as ->.
  { unfold StabilityDepositManager.isCommitted. rewrite !lt_ok. cbn [res_bind].
    destruct (dltb _ _); cbn [res_bind orb]; [done|]. by destruct (dltb _ _). }
  cbn [res_bind]. destruct (_ && _); [done|].
  rewrite (DepositFacts.stability_whatChanged_ok _ _ _ (from_decimal _)). cbn [res_bind].
  by rewrite deposit_rebased.
Qed.

(** ** The form that adjusts a Vault *)

Ltac unfold_unsaved :=
  unfold VaultManager.applyUnsaved, Difference.absoluteValue, Difference.positive,
    Difference.negative;
  cbn [Difference._number Difference.magnitude fmap option_fmap option_map].

(** The amount the form's effect carries over: unlike [rebase], a reduction that would not leave
    anything of the new amount is forgotten. *)
Lemma applyUnsaved_ok (edited previous amount : Decimal.t) :
  edited <> INF -> previous <> INF ->
  exists d next, Difference.between (Some (edited : Decimalish)) (Some (previous : Decimalish)) = Ok d /\
    VaultManager.applyUnsaved d amount = Ok next /\
    units next = if (units amount + units edited <=? units previous)%N then units amount
                 else (units amount + units edited - units previous)%N.
Proof.
  intros He Hp. unfold Difference.between. rewrite !from_decimal. cbn [res_bind].
  rewrite !infinite_ok. cbn [res_bind].
  assert (forall x, x <> INF -> deqb x INF = false) as Hinf
    by (intros x Hx; apply not_true_is_false; by intros ?%deqb_eq).
  rewrite !Hinf by done. cbn [res_bind]. rewrite !gt_ok. cbn [res_bind]. unfold dltb.
  destruct (N.ltb_spec (units previous) (units edited)) as [H1|H1].
  - rewrite sub_ok by lia. cbn [res_bind]. do 2 eexists. split; [done|].
    unfold_unsaved. rewrite add_ok. split; [done|]. cbn [dadd dsub units].
    destruct (N.leb_spec (units amount + units edited) (units previous)); lia.
  - destruct (N.ltb_spec (units edited) (units previous)) as [H2|H2].
    + rewrite sub_ok by lia. cbn [res_bind].
      destruct (N.leb_spec (units amount + units edited) (units previous)); do 2 eexists;
        (split; [done|]); unfold_unsaved; rewrite lt_ok; cbn [res_bind]; unfold dltb;
        cbn [dsub units].
      * rewrite (proj2 (N.ltb_ge _ _)) by lia. done.
      * rewrite (proj2 (N.ltb_lt _ _)) by lia. rewrite sub_ok by (cbn [dsub units]; lia).
        split; [done|]. cbn [dsub units]. lia.
    + do 2 eexists. split; [done|]. unfold_unsaved. split; [done|].
      destruct (N.leb_spec (units amount + units edited) (units previous)); lia.
Qed.

(** ** Keeping a change until it really changes *)

Lemma paramsEq_ok x y : VaultManager.paramsEq x y = Ok (bool_decide (x = y)).
Proof.
  destruct x as [x|], y as [y|]; cbn [VaultManager.paramsEq]; try done. rewrite eq_ok. f_equal.
  apply eq_true_iff_eq. rewrite deqb_eq, bool_decide_eq_true. split; [by intros ->|by intros [= ->] ].
Qed.

(** [equals] compares the type and the amounts of two changes. *)
Lemma change_equals_ok a b :
  VaultManager.equals a b =
    Ok (VaultManager.sameType a b &&
        bool_decide (VaultValidation.changeProps a = VaultValidation.changeProps b)).
Proof.
  unfold VaultManager.equals. rewrite !paramsEq_ok.
  destruct (VaultValidation.changeProps a) as [d w b0 r] eqn:Ea,
           (VaultValidation.changeProps b) as [d' w' b' r'] eqn:Eb.
  cbn [deposit withdraw borrow repay].
  destruct (VaultManager.sameType a b); cbn [res_bind andb]; [|done].
  repeat case_bool_decide; cbn [res_bind]; simplify_eq; done.
Qed.

End Properties.

(** ** Witnesses *)

Definition aUserTrove (t : Trove.t) : UserTrove.t := UserTrove.mk t "0x1" UserTrove.open.
Definition anUpdate (t : Trove.t) : LiquityStore.LiquityStoreListenerParams :=
  LiquityStore.mkParams [("trove", LiquityStore.VUserTrove (0%N, aUserTrove t))] [] [].
Definition anEdit : VaultManager.VaultManagerState :=
  VaultManager.mkState (aUserTrove aTrove) anotherTrove false true false.
(** The Vault after a redistribution. *)
Definition redistributed : Trove.t :=
  Trove.mk (Decimal.mk (11 * SCALE)) (Decimal.mk (2600 * SCALE)).

Lemma update_rebases_edit_witness :
  @VaultManager.reduce Z_bignumber anEdit (VaultManager.updateStore (anUpdate redistributed)) =
    Ok (VaultManager.mkState (aUserTrove redistributed)
          (Trove.mk (Decimal.mk (13 * SCALE)) (Decimal.mk (2901 * SCALE))) false true false).
Proof.
  pose proof (@update_rebases_edit Z_bignumber Z_bignumber_laws anEdit (anUpdate redistributed)
    (aUserTrove redistributed) eq_refl) as H.
  cbv zeta in H. exact H.
Defined.

Definition anEmptyDerivedState : LiquityStore.LiquityStoreDerivedState :=
  LiquityStore.mkDerived (0%N, aUserTrove tempty)
    (1%N, Fees.mk aRate aRate aRate 0 0 false) (2%N, aRate) (3%N, aRate) false.

Definition someActions : list VaultManager.VaultManagerAction :=
  [VaultManager.setCollateral (ofString "1.5"); VaultManager.startChange;
   VaultManager.updateStore (anUpdate tempty); VaultManager.finishChange].

Lemma someActions_opening : Forall opening someActions.
Proof.
  do 2 (constructor; [exact I|]). constructor; [|by repeat constructor].
  exists (aUserTrove tempty). split; reflexivity.
Qed.

Lemma anEmptyDerivedState_vacant :
  vacant (UserTrove.super (snd (LiquityStore.trove anEmptyDerivedState))) = true.
Proof. reflexivity. Qed.

Definition hasCollateral (r : Res VaultManager.VaultManagerState) : bool :=
  match r with
  | Ok s => negb (units (collateral (VaultManager.edited s)) =? 0)%N
  | Throw _ => false
  end.

Lemma minimum_debt_suggested_witness :
  exists s, @res_foldM _ _ (@VaultManager.reduce Z_bignumber) (VaultManager.init anEmptyDerivedState)
      someActions = Ok s /\
    units (debt (VaultManager.edited s)) = (2000 * SCALE)%N.
Proof.
  assert (hasCollateral (@res_foldM _ _ (@VaultManager.reduce Z_bignumber)
    (VaultManager.init anEmptyDerivedState) someActions) = true) as Hc
    by (vm_compute; reflexivity).
  destruct (@res_foldM _ _ (@VaultManager.reduce Z_bignumber)
    (VaultManager.init anEmptyDerivedState) someActions) as [s|m] eqn:E; [|discriminate].
  pose proof (@minimum_debt_suggested Z_bignumber Z_bignumber_laws anEmptyDerivedState
    someActions s anEmptyDerivedState_vacant someActions_opening E) as H.
  cbn [hasCollateral] in Hc. apply negb_true_iff in Hc. rewrite Hc in H.
  exists s. split; [reflexivity|exact H].
Defined.

End VaultManagerProperties.
