(* ===== verification/Views.v ===== *)
(** * Which panel is shown for each Vault and each deposit

    [VaultViewProvider.tsx] and [StabilityViewProvider.tsx] of
    [src/packages/dev-frontend/src/components]: two state machines, and the React component that
    runs one copy of its machine per store.  The two components are the same code over two
    machines, which are the instances of a class here. *)

From S2P Require Import Prelude BigNumber Decimals Troves Deposits.

(** ** The machines *)

(** [E] are the events and [T] what a store's selection tells of the user. *)
Class ViewMachine (V E T : Type) : Type := {
  transitions : V -> E -> option V;
  getInitialView : T -> V;
  (** The event the component dispatches for a store when it is mounted. *)
  mountEvent : T -> option E;
}.

(** [transitions[view][event] ?? view] *)
Definition transition {V E T} `{ViewMachine V E T} (view : V) (event : E) : V :=
  match transitions view event with Some nextView => nextView | None => view end.

Module VaultView.

Inductive VaultView : Type := NONE | LIQUIDATED | REDEEMED | OPENING | ADJUSTING | CLOSING | ACTIVE.

Inductive VaultEvent : Type :=
| OPEN_VAULT_PRESSED
| ADJUST_VAULT_PRESSED
| CLOSE_VAULT_PRESSED
| CANCEL_ADJUST_VAULT_PRESSED
| VAULT_CLOSED
| VAULT_LIQUIDATED
| VAULT_REDEEMED
| VAULT_ADJUSTED
| VAULT_SURPLUS_COLLATERAL_CLAIMED
| VAULT_OPENED.

Definition transitions (view : VaultView) (event : VaultEvent) : option VaultView :=
  match view, event with
  | NONE, OPEN_VAULT_PRESSED => Some OPENING
  | NONE, VAULT_OPENED => Some ACTIVE
  | (LIQUIDATED | REDEEMED), OPEN_VAULT_PRESSED => Some OPENING
  | (LIQUIDATED | REDEEMED), VAULT_SURPLUS_COLLATERAL_CLAIMED => Some NONE
  | (LIQUIDATED | REDEEMED), VAULT_OPENED => Some ACTIVE
  | OPENING, CANCEL_ADJUST_VAULT_PRESSED => Some NONE
  | OPENING, VAULT_OPENED => Some ACTIVE
  | (ADJUSTING | CLOSING), CANCEL_ADJUST_VAULT_PRESSED => Some ACTIVE
  | (ADJUSTING | CLOSING), VAULT_ADJUSTED => Some ACTIVE
  | (ADJUSTING | CLOSING), VAULT_CLOSED => Some NONE
  | (ADJUSTING | CLOSING), VAULT_LIQUIDATED => Some LIQUIDATED
  | (ADJUSTING | CLOSING), VAULT_REDEEMED => Some REDEEMED
  | ACTIVE, ADJUST_VAULT_PRESSED => Some ADJUSTING
  | ACTIVE, CLOSE_VAULT_PRESSED => Some CLOSING
  | ACTIVE, VAULT_CLOSED => Some NONE
  | ACTIVE, VAULT_LIQUIDATED => Some LIQUIDATED
  | ACTIVE, VAULT_REDEEMED => Some REDEEMED
  | _, _ => None
  end.

Definition vaultStatusEvents (status : UserTrove.UserTroveStatus) : option VaultEvent :=
  match status with
  | UserTrove.open => Some VAULT_OPENED
  | UserTrove.closedByOwner => Some VAULT_CLOSED
  | UserTrove.closedByLiquidation => Some VAULT_LIQUIDATED
  | UserTrove.closedByRedemption => Some VAULT_REDEEMED
  | UserTrove.nonExistent => None
  end.

Definition getInitialView (vaultStatus : UserTrove.UserTroveStatus) : VaultView :=
  match vaultStatus with
  | UserTrove.closedByLiquidation => LIQUIDATED
  | UserTrove.closedByRedemption => REDEEMED
  | UserTrove.open => ACTIVE
  | _ => NONE
  end.

#[global] Instance machine : ViewMachine VaultView VaultEvent UserTrove.t := {|
  Views.transitions := transitions;
  Views.getInitialView t := getInitialView (UserTrove.status t);
  mountEvent t := vaultStatusEvents (UserTrove.status t);
|}.

End VaultView.

Module StabilityView.

Inductive StabilityView : Type := NONE | DEPOSITING | ACTIVE | ADJUSTING.

Inductive StabilityEvent : Type :=
| DEPOSIT_PRESSED
| ADJUST_DEPOSIT_PRESSED
| CANCEL_PRESSED
| DEPOSIT_CONFIRMED
| REWARDS_CLAIMED
| DEPOSIT_EMPTIED.

Definition transitions (view : StabilityView) (event : StabilityEvent) : option StabilityView :=
  match view, event with
  | NONE, DEPOSIT_PRESSED => Some DEPOSITING
  | DEPOSITING, CANCEL_PRESSED => Some NONE
  | DEPOSITING, DEPOSIT_CONFIRMED => Some ACTIVE
  | ACTIVE, REWARDS_CLAIMED => Some ACTIVE
  | ACTIVE, ADJUST_DEPOSIT_PRESSED => Some ADJUSTING
  | ACTIVE, DEPOSIT_EMPTIED => Some NONE
  | ADJUSTING, CANCEL_PRESSED => Some ACTIVE
  | ADJUSTING, DEPOSIT_CONFIRMED => Some ACTIVE
  | ADJUSTING, DEPOSIT_EMPTIED => Some NONE
  | _, _ => None
  end.

Section Operations.
Context {BN : BigNumberOps}.

Definition getInitialView (stabilityDeposit : StabilityDeposit.t) : StabilityView :=
  if StabilityDeposit.isEmpty stabilityDeposit then NONE else ACTIVE.

#[global] Instance machine : ViewMachine StabilityView StabilityEvent StabilityDeposit.t := {|
  Views.transitions := transitions;
  Views.getInitialView := getInitialView;
  mountEvent d := if StabilityDeposit.isEmpty d then Some DEPOSIT_EMPTIED else None;
|}.

End Operations.
End StabilityView.

(** ** The component *)
Module ViewProvider.

(** What is kept per store. *)
Record Status (V : Type) : Type := mkStatus {
  version : string;
  collateral : string;
  initialView : V;
}.
Arguments mkStatus {V} _ _ _.
Arguments version {V} _.
Arguments collateral {V} _.
Arguments initialView {V} _.

(** An element of [useThresholdSelector(select)]. *)
Record Selected (T : Type) : Type := mkSelected {
  storeVersion : string;
  storeCollateral : string;
  store : T;
}.
Arguments mkSelected {T} _ _ _.
Arguments storeVersion {T} _.
Arguments storeCollateral {T} _.
Arguments store {T} _.

(** An update given to [setViews], which React applies when it renders next. *)
Inductive Update (V E : Type) : Type :=
| SetTo (views : list (Status V))
| Move (event : E) (version collateral : string).
Arguments SetTo {V E} _.
Arguments Move {V E} _ _ _.

(** The state of the component: the rendered [views], the queued updates, [viewsRef.current]. *)
Record t (V E : Type) : Type := mk {
  views : list (Status V);
  queue : list (Update V E);
  viewsRef : list (Status V);
}.
Arguments mk {V E} _ _ _.
Arguments views {V E} _.
Arguments queue {V E} _.
Arguments viewsRef {V E} _.

Section Operations.
Context {V E T : Type} {VM : ViewMachine V E T}.

Definition isOf (version_ collateral_ : string) (view : Status V) : bool :=
  String.eqb (version view) version_ && String.eqb (collateral view) collateral_.

(** [prev.findIndex(...)], [None] for -1. *)
Fixpoint findIndex (p : Status V -> bool) (l : list (Status V)) : option nat :=
  match l with
  | [] => None
  | x :: l' => if p x then Some 0%nat else S <$> findIndex p l'
  end.

(** The function given to [setViews]: [prev[index]] is read before [index] is looked at. *)
Definition moved (event : E) (version_ collateral_ : string) (prev : list (Status V)) :
    Res (list (Status V)) :=
  let index := findIndex (isOf version_ collateral_) prev in
  match index ≫= fun i => prev !! i with
  | None => Throw "TypeError"
  | Some current =>
      let nextView := transition (initialView current) event in
      match index with
      | Some i => Ok (take i prev ++ [mkStatus (version current) (collateral current) nextView] ++
                      drop (i + 1) prev)
      | None => Ok (prev ++ [mkStatus version_ collateral_ nextView])
      end
  end.

Definition applyUpdate (prev : list (Status V)) (u : Update V E) : Res (list (Status V)) :=
  match u with
  | SetTo views => Ok views
  | Move event version_ collateral_ => moved event version_ collateral_ prev
  end.

Definition setViews (u : Update V E) (p : t V E) : t V E :=
  mk (views p) (queue p ++ [u]) (viewsRef p).

Definition dispatchEvent (event : E) (version_ collateral_ : string) (p : t V E) : Res (t V E) :=
  match viewsRef p with
  | [] => Ok p
  | _ => match List.find (isOf version_ collateral_) (viewsRef p) with
         | None => Throw "TypeError"
         | Some _ => Ok (setViews (Move event version_ collateral_) p)
         end
  end.

(** The effect that depends on [views]: [viewsRef.current = views]. *)
Definition syncRef (p : t V E) : t V E := mk (views p) (queue p) (views p).

(** React renders: the queued updates are applied in order, and the effect that depends on
    [views] runs. *)
Definition render (p : t V E) : Res (t V E) :=
  let! vs := res_foldM applyUpdate (views p) (queue p) in
  Ok (syncRef (mk vs [] (viewsRef p))).

Definition initialStatus (s : Selected T) : Status V :=
  mkStatus (storeVersion s) (storeCollateral s) (getInitialView (store s)).

(** The three effects after the first render: setting the first views ... *)
Definition initialize (stores : list (Selected T)) (p : t V E) : t V E :=
  setViews (SetTo (map initialStatus stores)) p.

(** ... (then [viewsRef] is set) and dispatching the event of each store's status. *)
Definition dispatchStatuses (stores : list (Selected T)) (p : t V E) : Res (t V E) :=
  res_foldM (fun p s => match mountEvent (store s) with
                        | Some e => dispatchEvent e (storeVersion s) (storeCollateral s) p
                        | None => Ok p
                        end) p stores.

Definition mounted (stores : list (Selected T)) : Res (t V E) :=
  dispatchStatuses stores (syncRef (initialize stores (mk [] [] []))).

(** What happens to the component afterwards. *)
Inductive Step : Type :=
| Render
| Dispatch (event : E) (version_ collateral_ : string).

Definition step (p : t V E) (s : Step) : Res (t V E) :=
  match s with
  | Render => render p
  | Dispatch event version_ collateral_ => dispatchEvent event version_ collateral_ p
  end.

Definition run (stores : list (Selected T)) (steps : list Step) : Res (t V E) :=
  let! p := mounted stores in res_foldM step p steps.

End Operations.
Arguments Step : clear implicits.
End ViewProvider.
