(* ===== verification/ViewsProperties.v ===== *)
(** * Which panel is shown: the events of each store drive its own machine

    The component of [Views.v] refines one independent run of the view machine per store. *)

From S2P Require Import Prelude BigNumber Decimals Troves Deposits Views.

Module ViewsProperties.
Import ViewProvider.

Section Properties.
Context {V E T : Type} {VM : ViewMachine V E T}.

Local Abbreviation Step := (Step E).

(** ** The specification: one machine per store *)

(** The events dispatched for a store, in order. *)
Fixpoint eventsOf (version_ collateral_ : string) (steps : list Step) : list E :=
  match steps with
  | [] => []
  | Dispatch e v c :: steps' =>
      if String.eqb version_ v && String.eqb collateral_ c
      then e :: eventsOf version_ collateral_ steps'
      else eventsOf version_ collateral_ steps'
  | Render :: steps' => eventsOf version_ collateral_ steps'
  end.

(** What happens once the component has rendered its first views. *)
Fixpoint afterFirstRender (steps : list Step) : list Step :=
  match steps with
  | [] => []
  | Render :: steps' => steps'
  | _ :: steps' => afterFirstRender steps'
  end.

Definition key (s : Selected T) : string * string := (storeVersion s, storeCollateral s).

Definition viewAfter (steps : list Step) (s : Selected T) : Status V :=
  mkStatus (storeVersion s) (storeCollateral s)
    (fold_left transition (eventsOf (storeVersion s) (storeCollateral s) steps)
       (getInitialView (store s))).

Lemma eventsOf_app v c l1 l2 : eventsOf v c (l1 ++ l2) = eventsOf v c l1 ++ eventsOf v c l2.
Proof.
  induction l1 as [|[|e v' c'] l1 IH]; cbn; try done. by destruct (_ && _); cbn; rewrite IH.
Qed.

Lemma isOf_view v c steps s :
  isOf v c (viewAfter steps s) = bool_decide (key s = (v, c)).
Proof.
  unfold isOf, viewAfter, key. cbn. destruct (String.eqb_spec (storeVersion s) v) as [->|Hv].
  - destruct (String.eqb_spec (storeCollateral s) c) as [->|Hc]; cbn.
    + by rewrite bool_decide_eq_true_2.
    + rewrite bool_decide_eq_false_2; [done|]. by intros [=].
  - rewrite bool_decide_eq_false_2; [done|]. by intros [=].
Qed.

(** An event of another store. *)
Lemma viewAfter_other steps e v c s :
  key s <> (v, c) -> viewAfter (steps ++ [Dispatch e v c]) s = viewAfter steps s.
Proof.
  intros H. unfold viewAfter. rewrite eventsOf_app. cbn.
  destruct (String.eqb_spec (storeVersion s) v) as [Ev|]; cbn; [|by rewrite app_nil_r].
  destruct (String.eqb_spec (storeCollateral s) c) as [Ec|]; [|by rewrite app_nil_r].
  destruct H. unfold key. congruence.
Qed.

Lemma viewAfter_same steps e s :
  viewAfter (steps ++ [Dispatch e (storeVersion s) (storeCollateral s)]) s =
    mkStatus (storeVersion s) (storeCollateral s)
      (transition (initialView (viewAfter steps s)) e).
Proof.
  unfold viewAfter. rewrite eventsOf_app. cbn. rewrite !String.eqb_refl. cbn.
  by rewrite fold_left_app.
Qed.

(** ** The component *)

Lemma findIndex_none p (l : list (Status V)) :
  Forall (fun x => p x = false) l -> findIndex p l = None.
Proof. induction 1 as [|x l Hx _ IH]; cbn; [done|]. by rewrite Hx, IH. Qed.

Lemma findIndex_app p (l1 : list (Status V)) x l2 :
  Forall (fun x => p x = false) l1 -> p x = true -> findIndex p (l1 ++ x :: l2) = Some (length l1).
Proof.
  induction 1 as [|y l1 Hy _ IH]; cbn; intros Hx; [by rewrite Hx|]. by rewrite Hy, (IH Hx).
Qed.

Section Stores.
Context (stores : list (Selected T)) (Hnodup : NoDup (map key stores)).

Definition expected (steps : list Step) : list (Status V) := map (viewAfter steps) stores.

Lemma others_false v c steps l :
  (v, c) ∉ map key l -> Forall (fun x => isOf v c x = false) (map (viewAfter steps) l).
Proof.
  intros H. apply Forall_map, Forall_forall. intros s Hs. rewrite isOf_view.
  apply bool_decide_eq_false_2. intros Hk. apply H. rewrite <- Hk.
  by apply list_elem_of_fmap_2.
Qed.

Lemma others_same v c e steps l :
  (v, c) ∉ map key l ->
  map (viewAfter (steps ++ [Dispatch e v c])) l = map (viewAfter steps) l.
Proof.
  intros H. apply map_ext_in. intros s Hs%list_elem_of_In. apply viewAfter_other.
  intros Hk. apply H. rewrite <- Hk. by apply list_elem_of_fmap_2.
Qed.

Lemma known_split v c :
  (v, c) ∈ map key stores ->
  exists l1 s l2, stores = l1 ++ s :: l2 /\ key s = (v, c) /\
    ((v, c) ∉ map key l1) /\ ((v, c) ∉ map key l2).
Proof.
  intros H. apply list_elem_of_fmap in H as (s & Hk & Hs).
  apply list_elem_of_split in Hs as (l1 & l2 & ->). exists l1, s, l2. split; [done|].
  split; [done|]. rewrite fmap_app, fmap_cons, <- Hk in Hnodup.
  apply NoDup_app in Hnodup as (_ & Hdis & Hn2). apply NoDup_cons in Hn2 as [Hn2 _].
  split; [|done]. intros Hin. apply (Hdis (v, c) Hin). by left.
Qed.

Lemma moved_known steps e v c :
  (v, c) ∈ map key stores ->
  moved e v c (expected steps) = Ok (expected (steps ++ [Dispatch e v c])).
Proof.
  intros (l1 & s & l2 & Hs & Hk & H1 & H2)%known_split. unfold expected, moved.
  rewrite Hs, !map_app. clear Hs. cbn [map].
  assert (isOf v c (viewAfter steps s) = true) as Hs
    by (rewrite isOf_view; by apply bool_decide_eq_true_2).
  rewrite (findIndex_app _ _ _ _ (others_false _ _ _ _ H1) Hs). cbn [mbind option_bind].
  rewrite list_lookup_middle by done. cbn zeta beta iota.
  rewrite take_app_length. rewrite drop_app_ge by lia.
  replace (length (map (viewAfter steps) l1) + 1 - length (map (viewAfter steps) l1))%nat
    with 1%nat by lia.
  rewrite (others_same _ _ _ _ _ H1), (others_same _ _ _ _ _ H2). cbn [drop].
  unfold key in Hk. injection Hk as <- <-. by rewrite viewAfter_same.
Qed.

Lemma dispatch_unknown steps e v c :
  (v, c) ∉ map key stores -> moved e v c (expected steps) = Throw "TypeError".
Proof.
  intros H. unfold moved, expected. by rewrite (findIndex_none _ _ (others_false v c steps stores H)).
Qed.

Lemma find_known steps v c :
  match List.find (isOf v c) (expected steps) with
  | Some _ => (v, c) ∈ map key stores
  | None => (v, c) ∉ map key stores
  end.
Proof.
  destruct (List.find _ _) as [x|] eqn:E'.
  - apply find_some in E' as [Hin Hx]. apply in_map_iff in Hin as (s & <- & Hs).
    rewrite isOf_view in Hx. apply bool_decide_eq_true in Hx. rewrite <- Hx.
    apply list_elem_of_fmap_2. by apply list_elem_of_In.
  - intros Hin. apply list_elem_of_fmap in Hin as (s & Hk & Hs).
    pose proof (find_none _ _ E' (viewAfter steps s)
      (in_map _ _ _ (proj1 (list_elem_of_In _ _) Hs))) as Hf.
    rewrite isOf_view, bool_decide_eq_true_2 in Hf; done.
Qed.

(** ** Runs *)

Definition known (s : Step) : Prop :=
  match s with Render => True | Dispatch _ v c => (v, c) ∈ map key stores end.

Definition moves (steps : list Step) : list (Update V E) :=
  omap (fun s => match s with Render => None | Dispatch e v c => Some (Move e v c) end) steps.

(** After the steps [done ++ todo] since the first render: [todo] waits for the next one. *)
Definition follows (steps : list Step) (p : t V E) : Prop :=
  exists done todo, steps = done ++ todo /\ Forall known todo /\
    p = mk (expected done) (moves todo) (expected done).

Lemma moves_applied todo : forall done,
  Forall known todo ->
  res_foldM applyUpdate (expected done) (moves todo) = Ok (expected (done ++ todo)).
Proof.
  induction todo as [|[|e v c] todo IH]; intros d H.
  - by rewrite app_nil_r.
  - cbn. apply Forall_cons in H as [_ H]. rewrite (IH _ H). f_equal. unfold expected.
    apply map_ext. intros s. unfold viewAfter. by rewrite !eventsOf_app.
  - apply Forall_cons in H as [Hk H]. cbn. rewrite (moved_known _ _ _ _ Hk). cbn [res_bind].
    rewrite (IH _ H). by rewrite <- app_assoc.
Qed.

Lemma expected_render steps : expected (steps ++ [Render]) = expected steps.
Proof.
  apply map_ext. intros s. unfold viewAfter. by rewrite eventsOf_app, app_nil_r.
Qed.

Lemma follows_step steps p s :
  stores <> [] -> follows steps p ->
  match step p s with
  | Ok p' => known s /\ follows (steps ++ [s]) p'
  | Throw _ => ~ known s
  end.
Proof.
  intros Hne (d & todo & -> & Htodo & ->). destruct s as [|e v c]; cbn [step known].
  - unfold render. cbn [views queue]. rewrite (moves_applied _ _ Htodo). cbn [res_bind].
    split; [done|]. exists ((d ++ todo) ++ [Render]), []. rewrite app_nil_r, expected_render.
    split; [done|]. split; [constructor|]. done.
  - unfold dispatchEvent. cbn [viewsRef]. pose proof (find_known d v c) as Hf.
    destruct (expected d) as [|x l] eqn:Ed.
    { unfold expected in Ed. apply map_eq_nil in Ed. done. }
    rewrite <- Ed in *. destruct (List.find _ _); [|done].
    split; [done|]. exists d, (todo ++ [Dispatch e v c]). rewrite app_assoc. split; [done|].
    split; [by apply Forall_app; repeat constructor|]. unfold setViews. cbn. unfold moves.
    by rewrite omap_app.
Qed.

Lemma follows_steps steps : forall past p,
  stores <> [] -> follows past p ->
  match res_foldM step p steps with
  | Ok p' => Forall known steps /\ follows (past ++ steps) p'
  | Throw _ => ~ Forall known steps
  end.
Proof.
  induction steps as [|s steps IH]; intros past p Hne Hp; cbn [res_foldM].
  - rewrite app_nil_r. by split.
  - pose proof (follows_step past p s Hne Hp) as H.
    destruct (step p s) as [p'|m]; cbn [res_bind].
    + destruct H as [Hs Hp']. specialize (IH _ _ Hne Hp'). rewrite <- app_assoc in IH.
      destruct (res_foldM step p' steps); [by destruct IH; split; [constructor|]|].
      intros [_ ?]%Forall_cons. by apply IH.
    + intros [? _]%Forall_cons. by apply H.
Qed.

(** Before the first views are rendered, [viewsRef.current] is empty and every event is dropped. *)
Definition unrendered : t V E := mk [] [SetTo (map initialStatus stores)] [].

Lemma mounted_ok : mounted stores = Ok unrendered.
Proof.
  assert (forall l, dispatchStatuses l unrendered = Ok unrendered) as H; [|apply H].
  induction l as [|s l IH]; cbn; [done|]. by destruct (mountEvent (store s)).
Qed.

Lemma res_foldM_app {A B} (f : B -> A -> Res B) l1 l2 b :
  res_foldM f b (l1 ++ l2) = let! b' := res_foldM f b l1 in res_foldM f b' l2.
Proof.
  revert b. induction l1 as [|a l1 IH]; cbn; intros b; [done|].
  destruct (f b a); cbn [res_bind]; [apply IH|done].
Qed.

Lemma rendered steps p :
  follows steps p -> render p = Ok (mk (expected steps) [] (expected steps)).
Proof.
  intros (d & todo & -> & H & ->). unfold render. cbn [views queue].
  by rewrite (moves_applied _ _ H).
Qed.

Lemma run_outcome steps :
  stores <> [] ->
  match res_foldM step unrendered (steps ++ [Render]) with
  | Ok p => Forall known (afterFirstRender steps) /\ views p = expected (afterFirstRender steps)
  | Throw _ => ~ Forall known (afterFirstRender steps)
  end.
Proof.
  intros Hne. induction steps as [|[|e v c] steps IH].
  - cbn. by split.
  - cbn [app res_foldM step afterFirstRender]. change (render unrendered) with
      (Ok (mk (expected []) [] (expected [])) : Res (t V E)). cbn [res_bind].
    rewrite res_foldM_app.
    pose proof (follows_steps steps [] (mk (expected []) [] (expected [])) Hne) as H.
    destruct (res_foldM step _ steps) as [p|m]; cbn [res_bind].
    + destruct H as [Hk Hp]; [exists [], []; by repeat split; constructor|]. cbn.
      rewrite (rendered _ _ Hp). cbn. by split.
    + apply H. by exists [], []; repeat split; constructor.
  - cbn [app res_foldM step afterFirstRender].
    change (dispatchEvent e v c unrendered) with (Ok unrendered : Res (t V E)).
    cbn [res_bind]. apply IH.
Qed.

End Stores.

(** For stores that differ in version or collateral: whatever is dispatched, once the component
    has rendered every store's view is its own state machine run from the view of its status on the
    events dispatched for it, in order; only the events before the first views are rendered are
    lost, those the component itself dispatches when it is mounted among them.  The component
    throws exactly when, after that, an event names none of the stores. *)
Theorem views_follow_events (stores : list (Selected T)) (steps : list Step) :
  stores <> [] -> NoDup (map key stores) ->
  let effective := afterFirstRender steps in
  match run stores (steps ++ [Render]) with
  | Ok p =>
      views p = map (fun s =>
        mkStatus (storeVersion s) (storeCollateral s)
          (fold_left transition (eventsOf (storeVersion s) (storeCollateral s) effective)
             (getInitialView (store s)))) stores
  | Throw _ =>
      exists e v c, In (Dispatch e v c) effective /\ ~ In (v, c) (map key stores)
  end /\
  ((exists e v c, In (Dispatch e v c) effective /\ ~ In (v, c) (map key stores)) ->
   exists m, run stores (steps ++ [Render]) = Throw m).
Proof.
  intros Hne Hnodup effective. unfold run. rewrite mounted_ok. cbn [res_bind].
  pose proof (run_outcome stores Hnodup steps Hne) as H. fold effective in H.
  assert (~ Forall (known stores) effective <->
    exists e v c, In (Dispatch e v c) effective /\ ~ In (v, c) (map key stores)) as Hk.
  { split.
    - intros Hnot. apply not_Forall_Exists in Hnot; [|intros [|? ? ?]; unfold known; apply _].
      apply Exists_exists in Hnot as ([|e v c] & Hin & Hn); [by destruct Hn|].
      exists e, v, c. by rewrite <- !list_elem_of_In.
    - intros (e & v & c & Hin%list_elem_of_In & Hn) Hall. rewrite <- list_elem_of_In in Hn.
      by apply (proj1 (Forall_forall _ _) Hall) in Hin. }
  destruct (res_foldM step (unrendered stores) (steps ++ [Render])) as [p|m].
  - destruct H as [H1 H2]. split; [exact H2|]. intros Hex%Hk. by destruct Hex.
  - split; [by apply Hk|]. by eexists.
Qed.

End Properties.

(** ** The machine of a Vault *)

Definition hasVault (v : VaultView.VaultView) : bool :=
  match v with
  | VaultView.ADJUSTING | VaultView.CLOSING | VaultView.ACTIVE => true
  | _ => false
  end.

(** The event of a status leads to its view whenever it says something new, from any view. *)
Lemma status_event_settles view status event :
  VaultView.vaultStatusEvents status = Some event ->
  transition view event =
    if bool_decide (hasVault view = hasVault (VaultView.getInitialView status)) then view
    else VaultView.getInitialView status.
Proof. by destruct status, view; intros [= <-]. Qed.

(** ** Witness *)

Definition someStores : list (Selected UserTrove.t) :=
  let t status := UserTrove.mk (Trove.mk (Decimal.mk 0) (Decimal.mk 0)) "0x1" status in
  [mkSelected "v1" "tbtc" (t UserTrove.open); mkSelected "v1" "eth" (t UserTrove.nonExistent)].

Definition someSteps : list (Step VaultView.VaultEvent) :=
  [Dispatch VaultView.VAULT_LIQUIDATED "v1" "tbtc"; Render;
   Dispatch VaultView.ADJUST_VAULT_PRESSED "v1" "tbtc";
   Dispatch VaultView.OPEN_VAULT_PRESSED "v1" "eth"].

Lemma views_follow_events_witness :
  exists p, run someStores (someSteps ++ [Render]) = Ok p /\
    views p = [mkStatus "v1" "tbtc" VaultView.ADJUSTING; mkStatus "v1" "eth" VaultView.OPENING].
Proof.
  assert (someStores <> []) as H1 by discriminate.
  assert (NoDup (map key someStores)) as H2 by (by apply (bool_decide_unpack _)).
  destruct (views_follow_events someStores someSteps H1 H2) as [H _].
  destruct (run someStores (someSteps ++ [Render])) as [p|m] eqn:E; [|discriminate].
  exists p. split; [reflexivity|exact H].
Defined.

End ViewsProperties.
