(* ===== verification/Transactions.v ===== *)
(** * A transaction on its way: [src/packages/dev-frontend/src/components/Transaction.tsx]

    The state all buttons share, the function that sends a transaction, and the monitor that waits
    for its receipt.  The wallet, the chain and the clock are events; between two events React has
    rendered and run the monitor's effects, including the renders their own updates cause. *)

From S2P Require Import Prelude WebSocketProvider.

Module Transactions.

Inductive TransactionState : Type :=
| idle (version collateral : string)
| failed (id error version collateral : string)
| waitingForApproval (id version collateral : string)
| cancelled (id version collateral : string)
| waitingForConfirmation (id : string) (tx : N) (version collateral : string)
| confirmed (id version collateral : string)
| confirmedOneShot (id version collateral : string).

#[global] Instance TransactionState_eq_dec : EqDecision TransactionState.
Proof. solve_decision. Defined.

Inductive StateType : Type :=
| Tidle | Tfailed | TwaitingForApproval | Tcancelled | TwaitingForConfirmation | Tconfirmed
| TconfirmedOneShot.

#[global] Instance StateType_eq_dec : EqDecision StateType.
Proof. solve_decision. Defined.

Definition typeOf (s : TransactionState) : StateType :=
  match s with
  | idle _ _ => Tidle
  | failed _ _ _ _ => Tfailed
  | waitingForApproval _ _ _ => TwaitingForApproval
  | cancelled _ _ _ => Tcancelled
  | waitingForConfirmation _ _ _ _ => TwaitingForConfirmation
  | confirmed _ _ _ => Tconfirmed
  | confirmedOneShot _ _ _ => TconfirmedOneShot
  end.

Definition versionOf (s : TransactionState) : string :=
  match s with
  | idle v _ | failed _ _ v _ | waitingForApproval _ v _ | cancelled _ v _
  | waitingForConfirmation _ _ v _ | confirmed _ v _ | confirmedOneShot _ v _ => v
  end.

Definition collateralOf (s : TransactionState) : string :=
  match s with
  | idle _ c | failed _ _ _ c | waitingForApproval _ _ c | cancelled _ _ c
  | waitingForConfirmation _ _ _ c | confirmed _ _ c | confirmedOneShot _ _ c => c
  end.

Definition idOf (s : TransactionState) : option string :=
  match s with
  | idle _ _ => None
  | failed id _ _ _ | waitingForApproval id _ _ | cancelled id _ _
  | waitingForConfirmation id _ _ _ | confirmed id _ _ | confirmedOneShot id _ _ => Some id
  end.

Definition txOf (s : TransactionState) : option N :=
  match s with waitingForConfirmation _ tx _ _ => Some tx | _ => None end.

(** [x !== "" ? x : undefined] *)
Definition orUndefined (s : string) : option string :=
  if String.eqb s "" then None else Some s.

(** [checkTransactionCollateral] of [utils/checkTransactionCollateral.tsx], and
    [useMyTransactionState]: a component sees the state only when it is its own. *)
Definition checkTransactionCollateral (s : TransactionState) (version collateral : string) : bool :=
  String.eqb (versionOf s) version && String.eqb (collateralOf s) collateral.

Definition useMyTransactionState (matches : string -> bool) (version collateral : string)
    (s : TransactionState) : TransactionState :=
  let mine := match idOf s with Some id => matches id | None => false end in
  if checkTransactionCollateral s version collateral && mine then s
  else idle (versionOf s) (collateralOf s).

(** ** [Transaction]: when the button is disabled *)

Definition failureReasons (requires : list (bool * string)) (s : TransactionState)
    (version collateral : string) : list string :=
  map snd (List.filter (fun r => negb (fst r)) requires) ++
  match s with
  | waitingForApproval _ _ _ | waitingForConfirmation _ _ _ _ =>
      if checkTransactionCollateral s version collateral
      then ["You must wait for confirmation"] else []
  | _ => []
  end.

(** ** The monitor's effects *)

(** What [tx.waitForReceipt()] settles to. *)
Inductive ReceiptAnswer : Type :=
| Succeeded
| Reverted
| CancelledError
| OtherError.

(** One run of the effect that waits for a receipt: its closure, its two flags, and whether it
    asks for the reason of a failure by now. *)
Record Monitor : Type := mkMonitor {
  m_id : string;
  m_tx : N;
  m_version : string;
  m_collateral : string;
  m_cancelled : bool;
  m_finished : bool;
  m_askingReason : bool;
}.

(** One run of the timer's effect. *)
Record Timer : Type := mkTimer {
  t_version : string;
  t_collateral : string;
  t_cancelled : bool;
}.

(** The dependencies of the two effects. *)
Definition Deps1 : Type := N * option string * option N * option string * option string.
Definition Deps2 : Type :=
  StateType * string * string * option string * option string * option string.

Definition deps1 (provider : N) (s : TransactionState) : Deps1 :=
  (provider, idOf s, txOf s, orUndefined (versionOf s), orUndefined (collateralOf s)).
Definition deps2 (s : TransactionState) : Deps2 :=
  (typeOf s, collateralOf s, versionOf s, idOf s, orUndefined (versionOf s),
   orUndefined (collateralOf s)).

(** [state] is the shared state; [liveMonitor] and [liveTimer] are the runs whose cleanup is due;
    the other monitors and timers of the maps have been cleaned up but still run; [sends] are the
    transactions the wallet has not answered. *)
Record t : Type := mk {
  provider : N;
  state : TransactionState;
  liveMonitor : option N;
  liveTimer : option N;
  monitors : gmap N Monitor;
  timers : gmap N Timer;
  sends : gmap N (string * string * string);
  fresh : N;
}.

Definition init : t := mk 0 (idle "" "") None None ∅ ∅ ∅ 0.

Definition cancelMonitor (m : Monitor) : Monitor :=
  mkMonitor (m_id m) (m_tx m) (m_version m) (m_collateral m) true (m_finished m)
    (m_askingReason m).
Definition cancelTimer (x : Timer) : Timer := mkTimer (t_version x) (t_collateral x) true.

(** The cleanup of the first effect: the state it sets, if any. *)
Definition cleanup1 (a : t) : option TransactionState * t :=
  match liveMonitor a with
  | None => (None, a)
  | Some mid =>
      match monitors a !! mid with
      | Some m =>
          if m_finished m
          then (None, mk (provider a) (state a) None (liveTimer a) (monitors a) (timers a) (sends a)
                        (fresh a))
          else (Some (idle (m_version m) (m_collateral m)),
                mk (provider a) (state a) None (liveTimer a)
                  (<[mid := cancelMonitor m]> (monitors a)) (timers a) (sends a) (fresh a))
      | None => (None, a)
      end
  end.

Definition cleanup2 (a : t) : t :=
  match liveTimer a with
  | None => a
  | Some tid => mk (provider a) (state a) (liveMonitor a) None (monitors a)
                  (alter cancelTimer tid (timers a)) (sends a) (fresh a)
  end.

Definition effect1 (a : t) : t :=
  let s := state a in
  match idOf s, txOf s, orUndefined (versionOf s), orUndefined (collateralOf s) with
  | Some id, Some tx, Some v, Some c =>
      if String.eqb id "" then a
      else mk (provider a) s (Some (fresh a)) (liveTimer a)
             (<[fresh a := mkMonitor id tx v c false false false]> (monitors a)) (timers a)
             (sends a) (fresh a + 1)
  | _, _, _, _ => a
  end.

(** The second effect: the state it sets, if any, or its timer. *)
Definition effect2 (a : t) : option TransactionState * t :=
  let s := state a in
  let v := orUndefined (versionOf s) in
  let c := orUndefined (collateralOf s) in
  match typeOf s, idOf s, v, c with
  | TconfirmedOneShot, Some id, Some v, Some c =>
      if String.eqb id "" then (None, a) else (Some (confirmed id v c), a)
  | (Tconfirmed | Tfailed | Tcancelled), _, Some v, Some c =>
      (None, mk (provider a) s (liveMonitor a) (Some (fresh a)) (monitors a)
               (<[fresh a := mkTimer v c false]> (timers a)) (sends a) (fresh a + 1))
  | _, _, _, _ => (None, a)
  end.

(** A render with a new state: the effects whose dependencies changed are cleaned up, then run.
    The answer is the last state they set. *)
Definition commit (provider_ : N) (new : TransactionState) (a : t) :
    option TransactionState * t :=
  let changed1 := negb (bool_decide (deps1 (provider a) (state a) = deps1 provider_ new)) in
  let changed2 := negb (bool_decide (deps2 (state a) = deps2 new)) in
  let '(q1, a) := if changed1 then cleanup1 a else (None, a) in
  let a := if changed2 then cleanup2 a else a in
  let a := mk provider_ new (liveMonitor a) (liveTimer a) (monitors a) (timers a) (sends a)
             (fresh a) in
  let a := if changed1 then effect1 a else a in
  let '(q2, a) := if changed2 then effect2 a else (None, a) in
  (match q2 with Some s => Some s | None => q1 end, a).

(** [setTransactionState], with the renders the effects cause in turn; three are enough
    ([settles]). *)
Fixpoint settle (fuel : nat) (provider_ : N) (new : TransactionState) (a : t) : option t :=
  match fuel with
  | O => None
  | S fuel' =>
      match commit provider_ new a with
      | (Some next, a) => settle fuel' provider_ next a
      | (None, a) => Some a
      end
  end.

Definition setTransactionState (new : TransactionState) (a : t) : option t :=
  settle 3 (provider a) new a.

(** ** The events *)

Inductive Event : Type :=
| Click (id version collateral : string)
| Sent (sid tx : N)
| SendFailed (sid : N) (message : option string)
| ReceiptAnswered (mid : N) (answer : ReceiptAnswer)
| ReasonAnswered (mid : N) (reason : option string)
| TimerFired (tid : N)
| ProviderChanged (provider_ : N).

Definition with_sends (x : gmap N (string * string * string)) (n : N) (a : t) : t :=
  mk (provider a) (state a) (liveMonitor a) (liveTimer a) (monitors a) (timers a) x n.
Definition with_monitors (x : gmap N Monitor) (a : t) : t :=
  mk (provider a) (state a) (liveMonitor a) (liveTimer a) x (timers a) (sends a) (fresh a).

(** [sendTransaction] up to [await send()]. *)
Definition sendTransaction (id version collateral : string) (a : t) : option t :=
  setTransactionState (waitingForApproval id version collateral)
    (with_sends (<[fresh a := (id, version, collateral)]> (sends a)) (fresh a + 1) a).

(** [hasMessage(error) && error.message.includes(...)] *)
Definition denied (message : option string) : bool :=
  match message with
  | Some m => WebSocketProvider.includes m "User denied transaction signature"
  | None => false
  end.

Definition sent (sid tx : N) (a : t) : option t :=
  '(id, version, collateral) ← sends a !! sid;
  setTransactionState (waitingForConfirmation id tx version collateral)
    (with_sends (delete sid (sends a)) (fresh a) a).

Definition sendFailed (sid : N) (message : option string) (a : t) : option t :=
  '(id, version, collateral) ← sends a !! sid;
  setTransactionState
    (if denied message then cancelled id version collateral
     else failed id "Failed to send transaction (try again)" version collateral)
    (with_sends (delete sid (sends a)) (fresh a) a).

Definition finish (asking : bool) (m : Monitor) : Monitor :=
  mkMonitor (m_id m) (m_tx m) (m_version m) (m_collateral m) (m_cancelled m) true asking.

(** [waitForConfirmation] after [await tx.waitForReceipt()]. *)
Definition receiptAnswered (mid : N) (answer : ReceiptAnswer) (a : t) : option t :=
  m ← monitors a !! mid;
  if m_finished m then None
  else if m_cancelled m then Some (with_monitors (delete mid (monitors a)) a)
  else
    let finished := with_monitors (<[mid := finish false m]> (monitors a)) a in
    match answer with
    | Succeeded =>
        setTransactionState (confirmedOneShot (m_id m) (m_version m) (m_collateral m)) finished
    | Reverted => Some (with_monitors (<[mid := finish true m]> (monitors a)) a)
    | CancelledError =>
        setTransactionState (cancelled (m_id m) (m_version m) (m_collateral m)) finished
    | OtherError =>
        setTransactionState (failed (m_id m) "Failed" (m_version m) (m_collateral m)) finished
    end.

(** ... and after [await tryToGetRevertReason(...)]; an empty reason is none. *)
Definition reasonAnswered (mid : N) (reason : option string) (a : t) : option t :=
  m ← monitors a !! mid;
  if negb (m_askingReason m) then None
  else
    let done := with_monitors (<[mid := finish false m]> (monitors a)) a in
    if m_cancelled m then Some done
    else
      let error := match reason with
                   | Some r => if String.eqb r "" then "Failed" else "Reverted: " +:+ r
                   | None => "Failed"
                   end in
      setTransactionState (failed (m_id m) error (m_version m) (m_collateral m)) done.

(** The host forgets a timer once its callback has returned. *)
Definition forgetTimer (tid : N) (a : t) : t :=
  mk (provider a) (state a) (liveMonitor a) (liveTimer a) (monitors a) (delete tid (timers a))
    (sends a) (fresh a).

Definition timerFired (tid : N) (a : t) : option t :=
  x ← timers a !! tid;
  if t_cancelled x then Some (forgetTimer tid a)
  else forgetTimer tid <$> setTransactionState (idle (t_version x) (t_collateral x)) a.

(** An event that cannot happen answers [None]. *)
Definition step (e : Event) (a : t) : option t :=
  match e with
  | Click id v c => sendTransaction id v c a
  | Sent sid tx => sent sid tx a
  | SendFailed sid message => sendFailed sid message a
  | ReceiptAnswered mid answer => receiptAnswered mid answer a
  | ReasonAnswered mid reason => reasonAnswered mid reason a
  | TimerFired tid => timerFired tid a
  | ProviderChanged p => settle 3 p (state a) a
  end.

Fixpoint run (es : list Event) (a : t) : option t :=
  match es with
  | [] => Some a
  | e :: es' => a' ← step e a; run es' a'
  end.

End Transactions.

(** ** The component [Transaction]: the button as it is rendered *)
Module TransactionButton.
Import Transactions.

Inductive ShowFailure : Type := asTooltip | asChildText.

(** Whether the trigger is disabled, the text put in place of its children, whether a click sends
    the transaction, and the tooltip. *)
Record Button : Type := mkButton {
  disabled : bool;
  childText : option string;
  onClick : bool;
  tooltip : option string;
}.

(** An empty tooltip is none. *)
Definition Transaction (tooltip_ : option string) (showFailure : option ShowFailure)
    (requires : list (bool * string)) (s : TransactionState) (version collateral : string)
    (triggerDisabled : bool) : Button :=
  let tooltip_ := tooltip_ ≫= orUndefined in
  match failureReasons requires s version collateral with
  | [] => mkButton triggerDisabled None true tooltip_
  | reason :: _ =>
      match default (match tooltip_ with Some _ => asTooltip | None => asChildText end) showFailure with
      | asChildText => mkButton true (Some reason) false tooltip_
      | asTooltip => mkButton true None false (orUndefined reason)
      end
  end.

End TransactionButton.
