(* ===== verification/TransactionsProperties.v ===== *)
(** * Every transaction on its way comes to an end

    An invariant of the shared state and of the runs of the monitor's effects, and from it that
    some event is always due that brings the state nearer to idle again. *)

From S2P Require Import Prelude WebSocketProvider Transactions.

Module TransactionsProperties.
Import Transactions.

(** ** The invariant *)

Definition nonempty (s : string) : bool := negb (String.eqb s "").

(** The version and collateral of a state that ends with a timer. *)
Definition ended (s : TransactionState) : option (string * string) :=
  match s with
  | failed _ _ v c | cancelled _ v c | confirmed _ v c =>
      if nonempty v && nonempty c then Some (v, c) else None
  | _ => None
  end.

(** The transaction that has to be monitored. *)
Definition awaited (s : TransactionState) : option (string * N * string * string) :=
  match s with
  | waitingForConfirmation id tx v c =>
      if nonempty id && nonempty v && nonempty c then Some (id, tx, v, c) else None
  | _ => None
  end.

Definition closure (m : Monitor) : string * N * string * string :=
  (m_id m, m_tx m, m_version m, m_collateral m).

Record sound (a : t) : Prop := {
  sound_monitors mid m : monitors a !! mid = Some m ->
    (mid < fresh a)%N /\ nonempty (m_id m) && nonempty (m_version m) && nonempty (m_collateral m);
  sound_timers tid x : timers a !! tid = Some x -> (tid < fresh a)%N;
  sound_sends sid x : sends a !! sid = Some x -> (sid < fresh a)%N;
  sound_live : match awaited (state a) with
               | Some w => exists mid m, liveMonitor a = Some mid /\ monitors a !! mid = Some m /\
                             closure m = w /\ m_cancelled m = false
               | None => liveMonitor a = None
               end;
  sound_timer : match ended (state a) with
                | Some (v, c) => exists tid, liveTimer a = Some tid /\
                                   timers a !! tid = Some (mkTimer v c false)
                | None => liveTimer a = None
                end;
}.

(** The live monitor waits, for the receipt or for a reason. *)
Definition waiting (a : t) : Prop :=
  forall mid m, liveMonitor a = Some mid -> monitors a !! mid = Some m ->
    m_finished m = m_askingReason m.

(** The live monitor has not finished: its cleanup makes the state idle. *)
Definition busy (a : t) : option TransactionState :=
  match liveMonitor a with
  | Some mid => match monitors a !! mid with
                | Some m => if m_finished m then None
                            else Some (idle (m_version m) (m_collateral m))
                | None => None
                end
  | None => None
  end.

(** What the second effect sets at once. *)
Definition promoted (s : TransactionState) : option TransactionState :=
  match s with
  | confirmedOneShot id v c =>
      if nonempty id && nonempty v && nonempty c then Some (confirmed id v c) else None
  | _ => None
  end.

Definition changed1 (p : N) (new : TransactionState) (a : t) : bool :=
  negb (bool_decide (deps1 (provider a) (state a) = deps1 p new)).

Lemma orUndefined_inj s s' : orUndefined s = orUndefined s' -> s = s'.
Proof.
  unfold orUndefined. destruct (String.eqb_spec s "") as [->|], (String.eqb_spec s' "") as [->|];
    by intros [=].
Qed.

Lemma awaited_deps p p' s s' : deps1 p s = deps1 p' s' -> awaited s = awaited s'.
Proof.
  unfold deps1. intros [= _ Hid Htx Hv%orUndefined_inj Hc%orUndefined_inj].
  destruct s, s'; cbn in *; simplify_eq; done.
Qed.

Lemma ended_deps s s' : deps2 s = deps2 s' -> ended s = ended s' /\ promoted s = promoted s'.
Proof.
  unfold deps2. intros [= Ht Hc Hv Hid _ _]. destruct s, s'; cbn in *; simplify_eq; done.
Qed.

(** ** The effects *)

Lemma cleanup1_spec a :
  sound a ->
  exists ms,
    cleanup1 a = (busy a, mk (provider a) (state a) None (liveTimer a) ms (timers a) (sends a)
                            (fresh a)) /\
    forall mid m, ms !! mid = Some m ->
      exists m0, monitors a !! mid = Some m0 /\ closure m = closure m0.
Proof.
  intros Hs. pose proof (sound_live a Hs) as Hl. unfold cleanup1, busy.
  destruct (liveMonitor a) as [mid|] eqn:El.
  - destruct (awaited (state a)); [|done]. destruct Hl as (mid' & m & [= <-] & Hm & _).
    rewrite Hm. destruct (m_finished m); eexists; (split; [done|]).
    + intros i x Hx. by exists x.
    + intros i x Hx. destruct (decide (i = mid)) as [->|Hne].
      * rewrite lookup_insert_eq in Hx. injection Hx as <-. by exists m.
      * rewrite lookup_insert_ne in Hx by done. by exists x.
  - exists (monitors a). split; [by destruct a; cbn in *; subst|]. intros i x Hx. by exists x.
Qed.

Lemma cleanup2_spec a :
  (forall tid x, timers a !! tid = Some x -> (tid < fresh a)%N) ->
  exists ts,
    cleanup2 a = mk (provider a) (state a) (liveMonitor a) None (monitors a) ts (sends a) (fresh a) /\
    forall tid x, ts !! tid = Some x -> (tid < fresh a)%N.
Proof.
  intros Hs. unfold cleanup2. destruct (liveTimer a) as [tid|] eqn:El.
  - eexists. split; [done|]. intros i x Hx.
    destruct (decide (i = tid)) as [->|Hne]; rewrite ?lookup_alter_eq, ?lookup_alter_ne in Hx by done.
    + destruct (timers a !! tid) eqn:Et; [|done]. by apply (Hs _ _ Et).
    + by apply (Hs _ _ Hx).
  - exists (timers a). split; [by destruct a; cbn in *; subst|exact Hs].
Qed.

Lemma effect1_spec a :
  effect1 a =
    match awaited (state a) with
    | Some (id, tx, v, c) =>
        mk (provider a) (state a) (Some (fresh a)) (liveTimer a)
          (<[fresh a := mkMonitor id tx v c false false false]> (monitors a)) (timers a) (sends a)
          (fresh a + 1)
    | None => a
    end.
Proof.
  unfold effect1, awaited, orUndefined, nonempty. destruct (state a); cbn; try done;
    try by repeat destruct (String.eqb _ _).
Qed.

Lemma effect2_spec a :
  effect2 a =
    (promoted (state a),
     match ended (state a) with
     | Some (v, c) => mk (provider a) (state a) (liveMonitor a) (Some (fresh a)) (monitors a)
                        (<[fresh a := mkTimer v c false]> (timers a)) (sends a) (fresh a + 1)
     | None => a
     end).
Proof.
  unfold effect2, ended, promoted, orUndefined, nonempty. destruct (state a); cbn; try done;
    by repeat destruct (String.eqb _ _).
Qed.

(** Keeping the first effect when its dependencies are the same ... *)
Definition kept1 (p : N) (new : TransactionState) (a a' : t) : Prop :=
  changed1 p new a = false /\ liveMonitor a' = liveMonitor a /\ monitors a' = monitors a.

(** ... and running it again. *)
Definition rerun1 (new : TransactionState) (a' : t) : Prop :=
  match awaited new with
  | Some (id, tx, v, c) =>
      exists mid, liveMonitor a' = Some mid /\
        monitors a' !! mid = Some (mkMonitor id tx v c false false false)
  | None => liveMonitor a' = None
  end.

Lemma effects_sound p new a ms ts (lm lt : option N) :
  sound a ->
  (forall mid m, ms !! mid = Some m -> (mid < fresh a)%N /\
     nonempty (m_id m) && nonempty (m_version m) && nonempty (m_collateral m)) ->
  (forall tid x, ts !! tid = Some x -> (tid < fresh a)%N) ->
  forall (c1 c2 : bool),
  (if c1 then lm = None
   else match awaited new with
        | Some w => exists mid m, lm = Some mid /\ ms !! mid = Some m /\ closure m = w /\
                      m_cancelled m = false
        | None => lm = None
        end) ->
  (if c2 then lt = None
   else match ended new with
        | Some (v, c) => exists tid, lt = Some tid /\ ts !! tid = Some (mkTimer v c false)
        | None => lt = None
        end) ->
  let a0 := mk p new lm lt ms ts (sends a) (fresh a) in
  let a1 := if c1 then effect1 a0 else a0 in
  let r := if c2 then effect2 a1 else (None, a1) in
  sound (snd r) /\ state (snd r) = new /\ provider (snd r) = p /\ sends (snd r) = sends a /\
  fst r = (if c2 then promoted new else None) /\
  (if c1 then rerun1 new (snd r) else liveMonitor (snd r) = lm /\ monitors (snd r) = ms).
Proof.
  intros Hs Hms Hts c1 c2 Hlm Hlt. cbv zeta.
  assert (exists n lm' ms', (if c1 then effect1 (mk p new lm lt ms ts (sends a) (fresh a))
            else mk p new lm lt ms ts (sends a) (fresh a)) = mk p new lm' lt ms' ts (sends a) n /\
          (fresh a <= n)%N /\
          (forall mid m, ms' !! mid = Some m -> (mid < n)%N /\
             nonempty (m_id m) && nonempty (m_version m) && nonempty (m_collateral m)) /\
          match awaited new with
          | Some w => exists mid m, lm' = Some mid /\ ms' !! mid = Some m /\ closure m = w /\
                        m_cancelled m = false
          | None => lm' = None
          end /\
          (if c1 then match awaited new with
                      | Some (id, tx, v, c) => exists mid, lm' = Some mid /\
                          ms' !! mid = Some (mkMonitor id tx v c false false false)
                      | None => lm' = None
                      end
           else lm' = lm /\ ms' = ms))
    as (n & lm' & ms' & -> & Hn & Hms' & Hlive & Hre).
  { destruct c1.
    - rewrite effect1_spec. cbn [state]. destruct (awaited new) as [ [ [ [id tx] v] c]|] eqn:Ea.
      + do 3 eexists. split; [done|]. cbn [provider liveTimer monitors timers sends fresh].
        split; [lia|]. split; [|split].
        * intros i m Hm. destruct (decide (i = fresh a)) as [->|Hne].
          -- rewrite lookup_insert_eq in Hm. injection Hm as <-. cbn. split; [lia|].
             unfold awaited in Ea. destruct new; try done.
             destruct (_ && _) eqn:E; [|done]. injection Ea as <- <- <- <-. by rewrite E.
          -- rewrite lookup_insert_ne in Hm by done. destruct (Hms _ _ Hm) as [? ?].
             split; [lia|done].
        * eexists _, _. split; [done|]. rewrite lookup_insert_eq. by repeat split.
        * eexists. split; [done|]. by rewrite lookup_insert_eq.
      + do 3 eexists. split; [done|]. split; [lia|]. split; [exact Hms|]. by split.
    - do 3 eexists. split; [done|]. split; [lia|]. split; [exact Hms|]. by split. }
  destruct c2.
  - rewrite effect2_spec. cbn [fst snd state]. destruct (ended new) as [ [v c]|] eqn:Ee.
    + cbn [state provider liveMonitor liveTimer monitors timers sends fresh]. split.
      { constructor; cbn [state provider liveMonitor liveTimer monitors timers sends fresh].
        - intros i m Hm. destruct (Hms' _ _ Hm) as [? ?]. split; [lia|done].
        - intros i x Hx. destruct (decide (i = n)) as [->|Hne]; [lia|].
          rewrite lookup_insert_ne in Hx by done. apply Hts in Hx. lia.
        - intros i x Hx. apply (sound_sends a Hs) in Hx. lia.
        - done.
        - rewrite Ee. exists n. by rewrite lookup_insert_eq. }
      split; [done|]. split; [done|]. split; [done|]. split; [done|]. by destruct c1.
    + split.
      { constructor; cbn [state provider liveMonitor liveTimer monitors timers sends fresh]; try done.
        - intros i x Hx. apply Hts in Hx. lia.
        - intros i x Hx. apply (sound_sends a Hs) in Hx. lia.
        - by rewrite Ee. }
      split; [done|]. split; [done|]. split; [done|]. split; [done|]. by destruct c1.
  - cbn [fst snd]. split.
    { constructor; cbn [state provider liveMonitor liveTimer monitors timers sends fresh]; try done.
      - intros i x Hx. apply Hts in Hx. lia.
      - intros i x Hx. apply (sound_sends a Hs) in Hx. lia. }
    split; [done|]. split; [done|]. split; [done|]. split; [done|]. by destruct c1.
Qed.

(** ** A render *)

Lemma commit_ok p new a :
  sound a ->
  exists a', snd (commit p new a) = a' /\ sound a' /\ state a' = new /\ provider a' = p /\
    sends a' = sends a /\
    (if changed1 p new a then rerun1 new a' else liveMonitor a' = liveMonitor a /\ monitors a' = monitors a) /\
    fst (commit p new a) =
      match (if bool_decide (deps2 (state a) = deps2 new) then None else promoted new) with
      | Some s => Some s
      | None => if changed1 p new a then busy a else None
      end.
Proof.
  intros Hs. eexists. split; [reflexivity|]. unfold commit. fold (changed1 p new a).
  pose proof (sound_live a Hs) as Hl. pose proof (sound_timer a Hs) as Ht.
  destruct (changed1 p new a) eqn:E1.
  - destruct (cleanup1_spec a Hs) as (ms & -> & Hms). cbn zeta beta iota.
    set (a1 := mk (provider a) (state a) None (liveTimer a) ms (timers a) (sends a) (fresh a)).
    assert (forall mid m, ms !! mid = Some m -> (mid < fresh a)%N /\
      nonempty (m_id m) && nonempty (m_version m) && nonempty (m_collateral m)) as Hms'.
    { intros mid m Hm. destruct (Hms mid m Hm) as (m0 & Hm0 & Hc).
      destruct (sound_monitors a Hs _ _ Hm0) as [Hlt Hne]. unfold closure in Hc.
      injection Hc as -> _ -> ->. done. }
    case_bool_decide as E2; cbn [negb].
    + pose proof (effects_sound p new a ms (timers a) None (liveTimer a) Hs Hms'
        (fun i x => sound_timers a Hs i x) true false eq_refl) as H. cbn [fst snd] in H.
      destruct H as (H1 & H2 & H3 & H4 & _ & H5); [|done].
      destruct (ended_deps _ _ E2) as [<- _]. exact Ht.
    + destruct (cleanup2_spec a1 (sound_timers a Hs)) as (ts & -> & Hts).
      pose proof (effects_sound p new a ms ts None None Hs Hms' Hts true true eq_refl eq_refl) as H.
      cbv iota zeta in H.
      subst a1. cbn [provider state liveMonitor liveTimer monitors timers sends fresh].
      destruct (effect2 (effect1 (mk p new None None ms ts (sends a) (fresh a)))) as [q a2].
      cbn [fst snd] in *.
      destruct H as (H1 & H2 & H3 & H4 & -> & H5). repeat (split; [done|]). by destruct (promoted new).
  - assert (match awaited new with
            | Some w => exists mid m, liveMonitor a = Some mid /\ monitors a !! mid = Some m /\
                          closure m = w /\ m_cancelled m = false
            | None => liveMonitor a = None
            end) as Hl'.
    { apply negb_false_iff, bool_decide_eq_true in E1. by rewrite <- (awaited_deps _ _ _ _ E1). }
    cbn zeta beta iota. case_bool_decide as E2; cbn [negb].
    + pose proof (effects_sound p new a (monitors a) (timers a) (liveMonitor a) (liveTimer a) Hs
        (sound_monitors a Hs) (sound_timers a Hs) false false Hl') as H. cbn [fst snd] in H.
      destruct H as (H1 & H2 & H3 & H4 & _ & H5); [|done].
      destruct (ended_deps _ _ E2) as [<- _]. exact Ht.
    + destruct (cleanup2_spec a (sound_timers a Hs)) as (ts & -> & Hts).
      pose proof (effects_sound p new a (monitors a) ts (liveMonitor a) None Hs
        (sound_monitors a Hs) Hts false true Hl' eq_refl) as H.
      cbv iota zeta in H.
      cbn [provider state liveMonitor liveTimer monitors timers sends fresh].
      destruct (effect2 (mk p new (liveMonitor a) None (monitors a) ts (sends a) (fresh a)))
        as [q a2].
      cbn [fst snd] in *.
      destruct H as (H1 & H2 & H3 & H4 & -> & H5). repeat (split; [done|]). by destruct (promoted new).
Qed.

(** The state the renders come to rest in. *)
Definition final (new : TransactionState) : TransactionState := default new (promoted new).

Lemma promoted_final new : promoted (final new) = None.
Proof. unfold final. destruct new; cbn; try done. by destruct (_ && _) eqn:E; cbn; rewrite ?E. Qed.

Lemma promoted_deps p new s :
  promoted new = Some s -> deps1 p new = deps1 p s /\ promoted s = None.
Proof. destruct new; cbn; try done. destruct (_ && _); [|done]. by intros [= <-]. Qed.

Lemma busy_idle a s : busy a = Some s -> exists v c, s = idle v c.
Proof.
  unfold busy. destruct (liveMonitor a); [|done]. destruct (_ !! _); [|done].
  destruct (m_finished _); [done|]. intros [= <-]. by do 2 eexists.
Qed.

Lemma commit_waiting p new a a' :
  sound a' -> state a' = new -> waiting a \/ awaited new = None ->
  (if changed1 p new a then rerun1 new a'
   else liveMonitor a' = liveMonitor a /\ monitors a' = monitors a) ->
  waiting a'.
Proof.
  intros Hs Hst Hw Hre mid m Hl Hm. pose proof (sound_live a' Hs) as Hlive. rewrite Hst in Hlive.
  destruct Hw as [Hw|Hw]; [|rewrite Hw in Hlive; congruence].
  destruct (changed1 p new a).
  - unfold rerun1 in Hre. destruct (awaited new) as [ [ [ [id tx] v] c]|]; [|congruence].
    destruct Hre as (mid' & Hl' & Hm'). rewrite Hl in Hl'. injection Hl' as <-.
    rewrite Hm in Hm'. by injection Hm' as ->.
  - destruct Hre as [El Em]. rewrite El in Hl. rewrite Em in Hm. by apply (Hw mid).
Qed.

(** Three renders are enough. *)
Lemma settle_ok p new a :
  sound a -> promoted (state a) = None -> waiting a \/ awaited new = None ->
  exists a', settle 3 p new a = Some a' /\ sound a' /\ waiting a' /\ promoted (state a') = None /\
    sends a' = sends a /\
    (changed1 p new a = false \/ busy a = None -> state a' = final new /\
       (changed1 p new a = false -> promoted new = None ->
        liveMonitor a' = liveMonitor a /\ monitors a' = monitors a)) /\
    (state a' = final new \/ exists v c, state a' = idle v c).
Proof.
  intros Hs Hp Hw. cbn [settle].
  destruct (commit_ok p new a Hs) as (a1 & E1 & Hs1 & Hst1 & Hp1 & Hse1 & Hre1 & Hq).
  pose proof (commit_waiting _ _ _ _ Hs1 Hst1 Hw Hre1) as Hw1.
  destruct (commit p new a) as [q a1']. cbn [fst snd] in *. subst a1'.
  assert ((if bool_decide (deps2 (state a) = deps2 new) then None else promoted new) = promoted new)
    as Hprom.
  { case_bool_decide as E2; [|done]. destruct (ended_deps _ _ E2) as [_ E]. by rewrite <- E, Hp. }
  rewrite Hprom in Hq. unfold final. destruct (promoted new) as [s|] eqn:Epr.
  - subst q. destruct (promoted_deps p _ _ Epr) as [Hd Hps].
    destruct (commit_ok p s a1 Hs1) as (a2 & E2 & Hs2 & Hst2 & Hp2 & Hse2 & Hre2 & Hq2).
    assert (changed1 p s a1 = false) as Hc.
    { unfold changed1. rewrite Hp1, Hst1, Hd. by rewrite bool_decide_eq_true_2. }
    pose proof (commit_waiting _ _ _ _ Hs2 Hst2 (or_introl Hw1) Hre2) as Hw2.
    destruct (commit p s a1) as [q2 a2']. cbn [fst snd] in *. subst a2'.
    rewrite Hps, Hc in Hq2. assert (q2 = None) as -> by (rewrite Hq2; by case_bool_decide).
    exists a2. rewrite Hst2. cbn [default]. split; [done|]. split; [done|]. split; [done|].
    split; [done|]. split; [congruence|]. split; [|by left]. intros _. by split.
  - destruct q as [s|].
    + destruct (changed1 p new a) eqn:Ec; [|done]. symmetry in Hq.
      destruct (busy_idle _ _ Hq) as (v & c & ->).
      destruct (commit_ok p (idle v c) a1 Hs1) as (a2 & E2 & Hs2 & Hst2 & Hp2 & Hse2 & Hre2 & Hq2).
      pose proof (commit_waiting _ _ _ _ Hs2 Hst2 (or_introl Hw1) Hre2) as Hw2.
      destruct (commit p (idle v c) a1) as [q2 a2']. cbn [fst snd promoted] in *. subst a2'.
      destruct q2 as [s2|].
      * destruct (changed1 p (idle v c) a1) eqn:Ec2; [|by case_bool_decide].
        assert (busy a1 = Some s2) as Hb2 by (rewrite Hq2; by case_bool_decide).
        destruct (busy_idle _ _ Hb2) as (v2 & c2 & ->).
        destruct (commit_ok p (idle v2 c2) a2 Hs2) as (a3 & E3 & Hs3 & Hst3 & Hp3 & Hse3 & Hre3 & Hq3).
        pose proof (commit_waiting _ _ _ _ Hs3 Hst3 (or_introl Hw2) Hre3) as Hw3.
        destruct (commit p (idle v2 c2) a2) as [q3 a3']. cbn [fst snd promoted] in *. subst a3'.
        cbn in Hre2. assert (busy a2 = None) as Hb by (unfold busy; by rewrite Hre2).
        rewrite Hb in Hq3. assert (q3 = None) as ->
          by (rewrite Hq3; case_bool_decide; by destruct (changed1 p (idle v2 c2) a2)).
        exists a3. rewrite Hst3. split; [done|]. split; [done|]. split; [done|]. split; [done|].
        split; [congruence|]. split; [|right; by do 2 eexists]. intros [?|?]; congruence.
      * exists a2. rewrite Hst2. split; [done|]. split; [done|]. split; [done|]. split; [done|].
        split; [congruence|]. split; [|right; by do 2 eexists]. intros [?|?]; congruence.
    + exists a1. rewrite Hst1, Epr. cbn [default]. split; [done|]. split; [done|].
      split; [done|]. split; [done|]. split; [done|]. split; [|by left].
      intros _. split; [done|]. intros Hc _. by rewrite Hc in Hre1.
Qed.

(** ** Reachable states *)

Definition inv (a : t) : Prop :=
  sound a /\ waiting a /\ promoted (state a) = None /\
  forall id v c, state a = waitingForApproval id v c ->
    exists sid, sends a !! sid = Some (id, v, c).

Lemma sound_with_sends x n a :
  sound a -> (fresh a <= n)%N -> (forall sid y, x !! sid = Some y -> (sid < n)%N) ->
  sound (with_sends x n a).
Proof.
  intros [H1 H2 _ H4 H5] Hn Hx. constructor; cbn; try done.
  - intros mid m Hm. destruct (H1 _ _ Hm). split; [lia|done].
  - intros tid y Hy. apply H2 in Hy. lia.
Qed.

Lemma sound_finish mid m asking a :
  sound a -> monitors a !! mid = Some m ->
  sound (with_monitors (<[mid := finish asking m]> (monitors a)) a).
Proof.
  intros [H1 H2 H3 H4 H5] Hm. constructor; cbn; try done.
  - intros i x Hx. destruct (decide (i = mid)) as [->|Hne].
    + rewrite lookup_insert_eq in Hx. injection Hx as <-. by apply (H1 mid m).
    + rewrite lookup_insert_ne in Hx by done. by apply H1.
  - destruct (awaited (state a)) as [w|]; [|done].
    destruct H4 as (i & x & Hi & Hx & Hw & Hc). exists i. destruct (decide (i = mid)) as [->|Hne].
    + exists (finish asking m). rewrite lookup_insert_eq. rewrite Hm in Hx. by injection Hx as ->.
    + exists x. by rewrite lookup_insert_ne.
Qed.

Lemma sound_forget_monitor mid m a :
  inv a -> monitors a !! mid = Some m -> m_cancelled m = true ->
  inv (with_monitors (delete mid (monitors a)) a).
Proof.
  intros ([H1 H2 H3 H4 H5] & Hw & Hp & Ha) Hm Hc. split; [|split; [|by split] ].
  - constructor; cbn; try done.
    + intros i x [_ Hx]%lookup_delete_Some. by apply (H1 i x).
    + destruct (awaited (state a)) as [w|]; [|done].
      destruct H4 as (i & x & Hi & Hx & ? & ?). exists i, x. split; [done|].
      rewrite lookup_delete_ne; [done|]. intros ->. congruence.
  - intros i x Hi Hx. cbn in Hi, Hx. apply lookup_delete_Some in Hx as [_ Hx]. by apply (Hw i).
Qed.

Lemma sound_forget_timer tid a :
  sound a -> (forall x, timers a !! tid = Some x -> t_cancelled x = true \/ ended (state a) = None) ->
  sound (forgetTimer tid a).
Proof.
  intros [H1 H2 H3 H4 H5] Hx. constructor; cbn; try done.
  - intros i x [_ Hi]%lookup_delete_Some. by apply (H2 i x).
  - destruct (ended (state a)) as [ [v c]|]; [|done]. destruct H5 as (i & Hi & Ht). exists i.
    split; [done|]. rewrite lookup_delete_ne; [done|]. intros ->.
    destruct (Hx _ Ht) as [H|H]; [|done]. by cbn in H.
Qed.

(** What setting a state comes to. *)
Lemma set_inv p new a :
  sound a -> promoted (state a) = None -> waiting a \/ awaited new = None ->
  (forall id v c, new = waitingForApproval id v c -> exists sid, sends a !! sid = Some (id, v, c)) ->
  exists a', settle 3 p new a = Some a' /\ inv a' /\
    (busy a = None -> state a' = final new) /\
    (state a' = final new \/ exists v c, state a' = idle v c).
Proof.
  intros Hs Hp Hw Ha. destruct (settle_ok p new a Hs Hp Hw)
    as (a' & E & Hs' & Hw' & Hp' & Hse & Hfin & Hor).
  exists a'. split; [done|]. split; [|split; [|done] ].
  - split; [done|]. split; [done|]. split; [done|]. intros id v c Hst. rewrite Hse.
    apply Ha. destruct Hor as [Hor|(v' & c' & Hor)]; [|congruence]. rewrite Hst in Hor.
    unfold final in Hor. destruct (promoted new) as [x|] eqn:Ex; cbn in Hor; [|done].
    destruct new; try done. cbn in Ex. destruct (_ && _); congruence.
  - intros Hb. by apply Hfin; right.
Qed.

Lemma inv_of_init : inv init.
Proof. split; [by constructor|]. split; [by intros mid m H|]. by split. Qed.

(** Setting a state after the shared state's surroundings have changed. *)
Lemma set_state_inv new a x :
  sound a -> promoted (state a) = None -> waiting a \/ awaited new = None ->
  (forall id v c, new = waitingForApproval id v c -> exists sid, sends a !! sid = Some (id, v, c)) ->
  setTransactionState new a = Some x -> inv x.
Proof.
  intros Hs Hp Hw Ha Hx. destruct (set_inv (provider a) new a Hs Hp Hw Ha) as (y & E & Hy & _).
  unfold setTransactionState in Hx. rewrite E in Hx. by injection Hx as <-.
Qed.

Lemma sends_fresh_insert id v c a :
  sound a ->
  sound (with_sends (<[fresh a := (id, v, c)]> (sends a)) (fresh a + 1) a).
Proof.
  intros Hs. apply sound_with_sends; [done|lia|]. intros i y Hy.
  destruct (decide (i = fresh a)) as [->|Hne]; [lia|].
  rewrite lookup_insert_ne in Hy by done. apply (sound_sends a Hs) in Hy. lia.
Qed.

Lemma sends_delete sid a : sound a -> sound (with_sends (delete sid (sends a)) (fresh a) a).
Proof.
  intros Hs. apply sound_with_sends; [done|lia|]. intros i y [_ Hy]%lookup_delete_Some.
  by apply (sound_sends a Hs) in Hy.
Qed.

Lemma inv_receipt mid answer a a' :
  inv a -> receiptAnswered mid answer a = Some a' -> inv a'.
Proof.
  intros Hinv Hstep. pose proof Hinv as (Hs & Hw & Hp & Ha). unfold receiptAnswered in Hstep.
  destruct (monitors a !! mid) as [m|] eqn:Em; [|done]. cbn [mbind option_bind] in Hstep.
  destruct (m_finished m) eqn:Ef; [done|].
  destruct (m_cancelled m) eqn:Ec.
  { injection Hstep as <-. by apply sound_forget_monitor with m. }
  pose proof (sound_finish mid m false a Hs Em) as Hsf.
  destruct answer; try (apply set_state_inv in Hstep; [done|done|done|by right|done]).
  injection Hstep as <-. split; [by apply sound_finish|]. split; [|by split].
  intros i x Hi Hx. cbn in Hi, Hx. destruct (decide (i = mid)) as [->|Hne].
  - rewrite lookup_insert_eq in Hx. by injection Hx as <-.
  - rewrite lookup_insert_ne in Hx by done. by apply (Hw i).
Qed.

Lemma inv_reason mid reason a a' :
  inv a -> reasonAnswered mid reason a = Some a' -> inv a'.
Proof.
  intros Hinv Hstep. pose proof Hinv as (Hs & Hw & Hp & Ha). unfold reasonAnswered in Hstep.
  destruct (monitors a !! mid) as [m|] eqn:Em; [|done]. cbn [mbind option_bind] in Hstep.
  destruct (m_askingReason m) eqn:Eask; [|done]. cbn [negb] in Hstep.
  pose proof (sound_finish mid m false a Hs Em) as Hsf.
  destruct (m_cancelled m) eqn:Ec; [|by apply set_state_inv in Hstep; [done|done|done|right|]].
  injection Hstep as <-. split; [done|]. split; [|by split].
  intros i x Hi Hx. cbn in Hi, Hx. destruct (decide (i = mid)) as [->|Hne].
  - pose proof (sound_live a Hs) as Hl. destruct (awaited (state a)); [|congruence].
    destruct Hl as (i & y & Hi' & Hy & _ & Hcy). congruence.
  - rewrite lookup_insert_ne in Hx by done. by apply (Hw i).
Qed.

Lemma inv_timer tid a a' : inv a -> timerFired tid a = Some a' -> inv a'.
Proof.
  intros Hinv Hstep. pose proof Hinv as (Hs & Hw & Hp & Ha). unfold timerFired in Hstep.
  destruct (timers a !! tid) as [x|] eqn:Et; [|done]. cbn [mbind option_bind] in Hstep.
  destruct (t_cancelled x) eqn:Ec.
  - injection Hstep as <-. split; [|by split]. apply sound_forget_timer; [done|].
    intros y Hy. left. congruence.
  - destruct (set_inv (provider a) (idle (t_version x) (t_collateral x)) a Hs Hp (or_introl Hw))
      as (y & E & (Hsy & Hwy & Hpy & Hay) & _ & Hor); [done|].
    unfold setTransactionState in Hstep. rewrite E in Hstep. injection Hstep as <-.
    split; [|by split]. apply sound_forget_timer; [done|]. intros z _. right.
    destruct Hor as [->|(v & c & ->)]; done.
Qed.

(** An event that cannot happen answers [None]; any other keeps the invariant, whatever it is. *)
Lemma inv_step e a a' : inv a -> step e a = Some a' -> inv a'.
Proof.
  intros Hinv Hstep. pose proof Hinv as (Hs & Hw & Hp & Ha).
  destruct e as [id v c|sid tx|sid message|mid answer|mid reason|tid|p]; unfold step in Hstep.
  - unfold sendTransaction in Hstep. apply set_state_inv in Hstep; [done| |done|by right|].
    + by apply sends_fresh_insert.
    + intros ? ? ? [= -> -> ->]. exists (fresh a). cbn. by rewrite lookup_insert_eq.
  - unfold sent in Hstep. destruct (sends a !! sid) as [ [ [id v] c]|]; [|done].
    cbn [mbind option_bind] in Hstep. apply set_state_inv in Hstep; [done| |done|by left|done].
    by apply sends_delete.
  - unfold sendFailed in Hstep. destruct (sends a !! sid) as [ [ [id v] c]|]; [|done].
    cbn [mbind option_bind] in Hstep. apply set_state_inv in Hstep; [done| |done| |].
    + by apply sends_delete.
    + right. by destruct (denied message).
    + intros ? ? ?. by destruct (denied message).
  - by apply (inv_receipt mid answer a).
  - by apply (inv_reason mid reason a).
  - by apply (inv_timer tid a).
  - destruct (set_inv p (state a) a Hs Hp (or_introl Hw) Ha) as (x & E & Hx & _).
    rewrite E in Hstep. by injection Hstep as <-.
Qed.

Lemma inv_run es : forall a a', inv a -> run es a = Some a' -> inv a'.
Proof.
  induction es as [|e es IH]; intros a a' Ha Hr; cbn [run] in Hr; [by injection Hr as <-|].
  destruct (step e a) as [a1|] eqn:E; [|done]. cbn [mbind option_bind] in Hr.
  apply (IH a1); [|done]. by apply (inv_step e a).
Qed.

(** ** Progress *)

Lemma set_final new a :
  sound a -> promoted (state a) = None -> waiting a \/ awaited new = None ->
  (forall id v c, new = waitingForApproval id v c -> exists sid, sends a !! sid = Some (id, v, c)) ->
  busy a = None ->
  exists a', setTransactionState new a = Some a' /\ state a' = final new.
Proof.
  intros Hs Hp Hw Ha Hb. destruct (set_inv (provider a) new a Hs Hp Hw Ha) as (x & E & _ & Hx & _).
  exists x. split; [exact E|by apply Hx].
Qed.

Lemma awaited_none_busy a : sound a -> awaited (state a) = None -> busy a = None.
Proof. intros Hs Hn. pose proof (sound_live a Hs) as H. rewrite Hn in H. unfold busy. by rewrite H. Qed.

Lemma finished_busy mid m asking a :
  liveMonitor a = Some mid -> busy (with_monitors (<[mid := finish asking m]> (monitors a)) a) = None.
Proof. intros H. unfold busy. cbn. rewrite H. by rewrite lookup_insert_eq. Qed.

(** What the form shows once the receipt is in. *)
Definition outcome (id version collateral : string) (answer : ReceiptAnswer)
    (current : TransactionState) : TransactionState :=
  match answer with
  | Succeeded => confirmed id version collateral
  | Reverted => current
  | CancelledError => cancelled id version collateral
  | OtherError => failed id "Failed" version collateral
  end.

Lemma progress_receipt a id tx v c :
  inv a -> state a = waitingForConfirmation id tx v c ->
  nonempty id && nonempty v && nonempty c = true ->
  exists mid, liveMonitor a = Some mid /\
    ((forall answer, exists a', step (ReceiptAnswered mid answer) a = Some a' /\
        state a' = outcome id v c answer (state a)) \/
     (forall reason, exists a', step (ReasonAnswered mid reason) a = Some a' /\
        exists error, state a' = failed id error v c)).
Proof.
  intros (Hs & Hw & Hp & Ha) Hst Hne. pose proof (sound_live a Hs) as Hl.
  rewrite Hst in Hl. cbn [awaited] in Hl. rewrite Hne in Hl.
  destruct Hl as (mid & m & Hmid & Hm & Hc & Hcan). exists mid. split; [done|].
  unfold closure in Hc. injection Hc as Hid Htx Hv Hcoll.
  pose proof (Hw mid m Hmid Hm) as Hfin.
  pose proof (sound_finish mid m false a Hs Hm) as Hsf.
  pose proof (finished_busy mid m false a Hmid) as Hb.
  destruct (m_askingReason m) eqn:Eask.
  - right. intros reason. unfold step, reasonAnswered. rewrite Hm. cbn [mbind option_bind].
    rewrite Eask, Hcan. cbn [negb]. rewrite Hid, Hv, Hcoll.
    match goal with |- context [setTransactionState (failed _ ?e _ _)] =>
      destruct (set_final (failed id e v c) _ Hsf Hp (or_intror eq_refl) ltac:(done) Hb)
        as (a' & E & Ha') end.
    exists a'. split; [exact E|]. eexists. exact Ha'.
  - left. intros answer. unfold step, receiptAnswered. rewrite Hm. cbn [mbind option_bind].
    rewrite Hfin, Hcan, Hid, Hv, Hcoll. destruct answer; cbn [outcome].
    + destruct (set_final (confirmedOneShot id v c) _ Hsf Hp (or_intror eq_refl) ltac:(done) Hb)
        as (a' & E & Ha').
      exists a'. split; [exact E|]. rewrite Ha'. unfold final, promoted. by rewrite Hne.
    + eexists. split; [done|]. done.
    + destruct (set_final (cancelled id v c) _ Hsf Hp (or_intror eq_refl) ltac:(done) Hb)
        as (a' & E & Ha'). exists a'. split; [exact E|exact Ha'].
    + destruct (set_final (failed id "Failed" v c) _ Hsf Hp (or_intror eq_refl) ltac:(done) Hb)
        as (a' & E & Ha'). exists a'. split; [exact E|exact Ha'].
Qed.

Lemma progress_timer a v c :
  inv a -> ended (state a) = Some (v, c) ->
  exists tid, liveTimer a = Some tid /\
    exists a', step (TimerFired tid) a = Some a' /\ state a' = idle v c.
Proof.
  intros (Hs & Hw & Hp & Ha) He. pose proof (sound_timer a Hs) as Ht. rewrite He in Ht.
  destruct Ht as (tid & Htid & Hx). exists tid. split; [done|].
  assert (awaited (state a) = None) as Hn by by destruct (state a).
  destruct (set_final (idle v c) a Hs Hp (or_introl Hw) ltac:(done) (awaited_none_busy a Hs Hn))
    as (a' & E & Ha').
  exists (forgetTimer tid a'). unfold step, timerFired. rewrite Hx. cbn [mbind option_bind t_cancelled].
  cbn [t_version t_collateral]. rewrite E. done.
Qed.

(** C10: whatever the wallet, the chain and the clock did before: a transaction that waits for the
    wallet is among those it has to answer, and either answer moves the form on; one that waits for
    confirmation has a monitor whose receipt (or reason of failure) gives exactly the outcome it
    tells; and a form that shows an outcome has a timer that makes it idle again. *)
Theorem transaction_progress (es : list Event) (a : t) :
  run es init = Some a ->
  match state a with
  | idle _ _ => True
  | waitingForApproval id v c =>
      exists sid,
        (forall tx, exists a', step (Sent sid tx) a = Some a' /\
           state a' = waitingForConfirmation id tx v c) /\
        (forall message, exists a', step (SendFailed sid message) a = Some a' /\
           state a' = if denied message then cancelled id v c
                      else failed id "Failed to send transaction (try again)" v c)
  | waitingForConfirmation id tx v c =>
      nonempty id && nonempty v && nonempty c = true ->
      exists mid, liveMonitor a = Some mid /\
        ((forall answer, exists a', step (ReceiptAnswered mid answer) a = Some a' /\
            state a' = outcome id v c answer (state a)) \/
         (forall reason, exists a', step (ReasonAnswered mid reason) a = Some a' /\
            exists error, state a' = failed id error v c))
  | failed _ _ v c | cancelled _ v c | confirmed _ v c =>
      nonempty v && nonempty c = true ->
      exists tid, liveTimer a = Some tid /\
        exists a', step (TimerFired tid) a = Some a' /\ state a' = idle v c
  | confirmedOneShot id v c => nonempty id && nonempty v && nonempty c = false
  end.
Proof.
  intros Hr. pose proof (inv_run es init a inv_of_init Hr) as Hinv.
  pose proof Hinv as (Hs & Hw & Hp & Ha).
  destruct (state a) as [v c|id e v c|id v c|id v c|id tx v c|id v c|id v c] eqn:Est; [done|..].
  2: { destruct (Ha _ _ _ eq_refl) as [sid Hsid]. exists sid.
       assert (busy a = None) as Hb by (apply awaited_none_busy; [done|by rewrite Est]).
       pose proof (sends_delete sid a Hs) as Hsd.
       assert (forall new, (forall id v c, new <> waitingForApproval id v c) ->
         exists a', setTransactionState new (with_sends (delete sid (sends a)) (fresh a) a) = Some a' /\
           state a' = final new) as Hset.
       { intros new Hnew. apply set_final; [done|cbn; by rewrite Est|by left| |done].
         intros ? ? ? E. by apply Hnew in E. }
       split.
       - intros tx. unfold step, sent. rewrite Hsid. cbn [mbind option_bind]. by apply Hset.
       - intros message. unfold step, sendFailed. rewrite Hsid. cbn [mbind option_bind].
         destruct (denied message); by apply Hset. }
  3: { intros Hne. rewrite <- Est. by apply (progress_receipt a id tx v c). }
  4: { cbn in Hp. by destruct (_ && _). }
  all: intros Hne; apply progress_timer; [done|]; rewrite Est; cbn; by rewrite Hne.
Qed.

(** ** What is not guaranteed *)

Definition stateAfter (es : list Event) : option (TransactionState * option N) :=
  a ← run es init; Some (state a, liveMonitor a).

(** Two transactions for different collaterals, both before the wallet: the answer for the second
    stops the monitor of the first, whose cleanup makes the state idle, which stops the second
    monitor in turn. *)
Lemma second_send_unmonitored :
  stateAfter [Click "vault-closure" "v1" "tbtc"; Click "vault-closure" "v1" "eth"; Sent 0 7; Sent 1 8] =
    Some (idle "v1" "eth", None).
Proof. vm_compute. reflexivity. Qed.

(** A monitor that has been cleaned up while it asks for the reason of a failure still sets the
    state, whatever that is by then. *)
Lemma stale_failure :
  stateAfter [Click "vault-closure" "v1" "tbtc"; Sent 0 7; ReceiptAnswered 1 Reverted;
              Click "vault-closure" "v1" "eth"; ReasonAnswered 1 None] =
    Some (failed "vault-closure" "Failed" "v1" "tbtc", None).
Proof. vm_compute. reflexivity. Qed.

(** ** Witness *)

Definition someEvents : list Event := [Click "vault-closure" "v1" "tbtc"; Sent 0 7].

Lemma transaction_progress_witness :
  exists a mid, run someEvents init = Some a /\ liveMonitor a = Some mid /\
    exists a', step (ReceiptAnswered mid Succeeded) a = Some a' /\
      state a' = confirmed "vault-closure" "v1" "tbtc".
Proof.
  destruct (run someEvents init) as [a|] eqn:E; [|vm_compute in E; discriminate].
  assert (state a = waitingForConfirmation "vault-closure" 7 "v1" "tbtc" /\
          match liveMonitor a ≫= fun mid => monitors a !! mid with
          | Some m => m_askingReason m = false
          | None => False
          end) as [Hst Hask] by (vm_compute in E; injection E as <-; vm_compute; by split).
  pose proof (transaction_progress someEvents a E) as H. rewrite Hst in H.
  destruct (H eq_refl) as (mid & Hmid & [Hr|Hr]).
  - exists a, mid. split; [reflexivity|]. split; [exact Hmid|].
    destruct (Hr Succeeded) as (a' & H1 & H2). by exists a'.
  - exfalso. destruct (Hr None) as (a' & H1 & _). revert H1. unfold step, reasonAnswered.
    rewrite Hmid in Hask. cbn [mbind option_bind] in Hask.
    destruct (monitors a !! mid) as [m|]; [|done]. cbn [mbind option_bind]. by rewrite Hask.
Defined.

End TransactionsProperties.
