(* ===== verification/EthersLiquity.v ===== *)
(** * The classes of the SDK a client uses: [src/packages/lib-ethers/src/EthersLiquity.ts] and
    [SendableEthersLiquity.ts], over the interfaces of [lib-base/src/TransactableLiquity.ts],
    [SendableLiquity.ts] and [PopulatableLiquity.ts]

    An operation of [EthersLiquity] prepares a transaction ([PopulatableEthersLiquity]), sends it
    ([SendableEthersLiquity]) and waits until it has succeeded.  [Call] lists the operations of the
    interface [TransactableLiquity]; the theorem says how each of them ends. *)

From S2P Require Import Prelude BigNumber Decimals Troves Fees Deposits.
From S2P Require Import Populatable PopulatableProperties.
Import Contracts Sent Populatable.

Local Open Scope Z_scope.

(** ** The details the operations answer: [TransactableLiquity.ts] *)

Definition TroveCreationDetails : Type :=
  _TroveChangeWithFees (TroveParams.TroveCreationParams Decimal.t).
Definition TroveAdjustmentDetails : Type :=
  _TroveChangeWithFees (TroveParams.TroveAdjustmentParams Decimal.t).
(** the collateral withdrawn and the debt repaid *)
Definition TroveClosureDetails : Type := option Decimal.t * option Decimal.t.
Definition StabilityDepositChangeDetails : Type :=
  StabilityPoolGainsWithdrawalDetails * StabilityChange.
Definition CollateralGainTransferDetails : Type :=
  StabilityPoolGainsWithdrawalDetails * option Trove.t.

(** The operations of [TransactableLiquity], with their arguments, by what they answer. *)
Inductive Call : Type -> Type :=
| OpenTrove (params : TroveParams.RawParams) (limit : BorrowingLimit)
    (overrides : Overrides) : Call TroveCreationDetails
| CloseTrove (overrides : Overrides) : Call TroveClosureDetails
| AdjustTrove (params : TroveParams.RawParams) (limit : BorrowingLimit)
    (overrides : Overrides) : Call TroveAdjustmentDetails
| DepositCollateral (amount : Decimal.Decimalish)
    (overrides : Overrides) : Call TroveAdjustmentDetails
| WithdrawCollateral (amount : Decimal.Decimalish)
    (overrides : Overrides) : Call TroveAdjustmentDetails
| BorrowTHUSD (amount : Decimal.Decimalish) (maxBorrowingRate : option Decimal.Decimalish)
    (overrides : Overrides) : Call TroveAdjustmentDetails
| RepayTHUSD (amount : Decimal.Decimalish) (overrides : Overrides) : Call TroveAdjustmentDetails
| SetPrice (price : Decimal.Decimalish) (overrides : Overrides) : Call unit
| Liquidate (address : string + list string) (overrides : Overrides) : Call LiquidationDetails
| LiquidateUpTo (maximumNumber : Z) (overrides : Overrides) : Call LiquidationDetails
| DepositTHUSDInBammPool (amount : Decimal.Decimalish)
    (overrides : Overrides) : Call StabilityDepositChangeDetails
| WithdrawTHUSDFromBammPool (amount : Decimal.Decimalish)
    (overrides : Overrides) : Call StabilityDepositChangeDetails
| WithdrawGainsFromBammPool (overrides : Overrides) : Call StabilityPoolGainsWithdrawalDetails
| DepositTHUSDInStabilityPool (amount : Decimal.Decimalish)
    (overrides : Overrides) : Call StabilityDepositChangeDetails
| WithdrawTHUSDFromStabilityPool (amount : Decimal.Decimalish)
    (overrides : Overrides) : Call StabilityDepositChangeDetails
| WithdrawGainsFromStabilityPool (overrides : Overrides) : Call StabilityPoolGainsWithdrawalDetails
| BammUnlock (overrides : Overrides) : Call unit
| TransferCollateralGainToTrove (overrides : Overrides) : Call CollateralGainTransferDetails
| TransferBammCollateralGainToTrove (overrides : Overrides) : Call CollateralGainTransferDetails
| SendTHUSD (toAddress : string) (amount : Decimal.Decimalish) (overrides : Overrides) : Call unit
| RedeemTHUSD (amount : Decimal.Decimalish) (maxRedemptionRate : option Decimal.Decimalish)
    (overrides : Overrides) : Call (option RedemptionDetails)
| ApproveErc20 (allowance : option Decimal.Decimalish) (overrides : Overrides) : Call unit
| MintErc20 (toAddress : string) (amount : Decimal.Decimalish) (overrides : Overrides) : Call unit
| ClaimCollateralSurplus (overrides : Overrides) : Call unit.

(** ** [SendableEthersLiquity.ts] *)
Module SendableEthersLiquity.
Section Sendable.
Context {BN : BigNumberOps} {E : Ethers} {R : ReadableLiquity} {W : Wallet E}.

(** [SentEthersLiquityTransaction]: the response of the network with the parser of its receipt. *)
Definition SentTransaction (T : Type) : Type := TransactionResponse * (RawReceipt E -> Res T).

Definition sendTransaction {T} (tx : Populated T) : Res (SentTransaction T) := send tx.

Definition openTrove (params : TroveParams.RawParams) (limit : BorrowingLimit)
    (overrides : Overrides) :
    Res (SentTransaction TroveCreationDetails) :=
  let! tx := Populatable.openTrove params limit overrides in sendTransaction tx.
Definition closeTrove (overrides : Overrides) :
    Res (SentTransaction TroveClosureDetails) :=
  let! tx := Populatable.closeTrove overrides in sendTransaction tx.
Definition adjustTrove (params : TroveParams.RawParams) (limit : BorrowingLimit)
    (overrides : Overrides) :
    Res (SentTransaction TroveAdjustmentDetails) :=
  let! tx := Populatable.adjustTrove params limit overrides in sendTransaction tx.
Definition depositCollateral (amount : Decimal.Decimalish) (overrides : Overrides) :
    Res (SentTransaction TroveAdjustmentDetails) :=
  let! tx := Populatable.depositCollateral amount overrides in sendTransaction tx.
Definition withdrawCollateral (amount : Decimal.Decimalish) (overrides : Overrides) :
    Res (SentTransaction TroveAdjustmentDetails) :=
  let! tx := Populatable.withdrawCollateral amount overrides in sendTransaction tx.
Definition borrowTHUSD (amount : Decimal.Decimalish) (maxBorrowingRate : option Decimal.Decimalish)
    (overrides : Overrides) :
    Res (SentTransaction TroveAdjustmentDetails) :=
  let! tx := Populatable.borrowTHUSD amount maxBorrowingRate overrides in sendTransaction tx.
Definition repayTHUSD (amount : Decimal.Decimalish) (overrides : Overrides) :
    Res (SentTransaction TroveAdjustmentDetails) :=
  let! tx := Populatable.repayTHUSD amount overrides in sendTransaction tx.
Definition setPrice (price : Decimal.Decimalish) (overrides : Overrides) :
    Res (SentTransaction unit) :=
  let! tx := Populatable.setPrice price overrides in sendTransaction tx.
Definition liquidate (address : string + list string) (overrides : Overrides) :
    Res (SentTransaction LiquidationDetails) :=
  let! tx := Populatable.liquidate address overrides in sendTransaction tx.
Definition liquidateUpTo (maximumNumber : Z) (overrides : Overrides) :
    Res (SentTransaction LiquidationDetails) :=
  let! tx := Populatable.liquidateUpTo maximumNumber overrides in sendTransaction tx.
Definition depositTHUSDInBammPool (amount : Decimal.Decimalish) (overrides : Overrides) :
    Res (SentTransaction StabilityDepositChangeDetails) :=
  let! tx := Populatable.depositTHUSDInBammPool amount overrides in sendTransaction tx.
Definition withdrawTHUSDFromBammPool (amount : Decimal.Decimalish) (overrides : Overrides) :
    Res (SentTransaction StabilityDepositChangeDetails) :=
  let! tx := Populatable.withdrawTHUSDFromBammPool amount overrides in sendTransaction tx.
Definition withdrawGainsFromBammPool (overrides : Overrides) :
    Res (SentTransaction StabilityPoolGainsWithdrawalDetails) :=
  let! tx := Populatable.withdrawGainsFromBammPool overrides in sendTransaction tx.
Definition depositTHUSDInStabilityPool (amount : Decimal.Decimalish) (overrides : Overrides) :
    Res (SentTransaction StabilityDepositChangeDetails) :=
  let! tx := Populatable.depositTHUSDInStabilityPool amount overrides in sendTransaction tx.
Definition withdrawTHUSDFromStabilityPool (amount : Decimal.Decimalish) (overrides : Overrides) :
    Res (SentTransaction StabilityDepositChangeDetails) :=
  let! tx := Populatable.withdrawTHUSDFromStabilityPool amount overrides in sendTransaction tx.
Definition withdrawGainsFromStabilityPool (overrides : Overrides) :
    Res (SentTransaction StabilityPoolGainsWithdrawalDetails) :=
  let! tx := Populatable.withdrawGainsFromStabilityPool overrides in sendTransaction tx.
Definition bammUnlock (overrides : Overrides) :
    Res (SentTransaction unit) :=
  let! tx := Populatable.bammUnlock overrides in sendTransaction tx.
Definition transferCollateralGainToTrove (overrides : Overrides) :
    Res (SentTransaction CollateralGainTransferDetails) :=
  let! tx := Populatable.transferCollateralGainToTrove overrides in sendTransaction tx.
Definition transferBammCollateralGainToTrove (overrides : Overrides) :
    Res (SentTransaction CollateralGainTransferDetails) :=
  let! tx := Populatable.transferBammCollateralGainToTrove overrides in sendTransaction tx.
Definition sendTHUSD (toAddress : string) (amount : Decimal.Decimalish) (overrides : Overrides) :
    Res (SentTransaction unit) :=
  let! tx := Populatable.sendTHUSD toAddress amount overrides in sendTransaction tx.
Definition redeemTHUSD (amount : Decimal.Decimalish) (maxRedemptionRate : option Decimal.Decimalish)
    (overrides : Overrides) :
    Res (SentTransaction (option RedemptionDetails)) :=
  let! tx := Populatable.redeemTHUSD amount maxRedemptionRate overrides in
  sendTransaction (redemption tx).
Definition approveErc20 (allowance : option Decimal.Decimalish) (overrides : Overrides) :
    Res (SentTransaction unit) :=
  let! tx := Populatable.approveErc20 allowance overrides in sendTransaction tx.
Definition mintErc20 (toAddress : string) (amount : Decimal.Decimalish) (overrides : Overrides) :
    Res (SentTransaction unit) :=
  let! tx := Populatable.mintErc20 toAddress amount overrides in sendTransaction tx.
Definition claimCollateralSurplus (overrides : Overrides) :
    Res (SentTransaction unit) :=
  let! tx := Populatable.claimCollateralSurplus overrides in sendTransaction tx.

End Sendable.
End SendableEthersLiquity.

(** ** [EthersLiquity.ts] *)
Module EthersLiquity.

(** What a call ends with: the details, [EthersTransactionFailedError] with the receipt, an error of
    waiting (a cancellation, or the raw error thrown on), or another error. *)
Inductive Completion {E : Ethers} (T : Type) : Type :=
| Completed (details : T)
| EthersTransactionFailedError (message : string) (failedReceipt : LiquityReceipt T)
| EthersTransactionCancelledError (message : string) (rawReplacementReceipt : option (RawReceipt E))
    (rawError : JsError E)
| RejectedRaw (rawError : JsError E)
| Rejected (message : string).
Arguments Completed {E T} _.
Arguments EthersTransactionFailedError {E T} _ _.
Arguments EthersTransactionCancelledError {E T} _ _ _.
Arguments RejectedRaw {E T} _.
Arguments Rejected {E T} _.

Section EthersLiquity.
Context {BN : BigNumberOps} {E : Ethers} {R : ReadableLiquity} {W : Wallet E}.

Definition waitForSuccess {T} (tx : SendableEthersLiquity.SentTransaction T) : Completion T :=
  match waitForReceipt tx with
  | Returned (_successfulReceipt _ details) => Completed details
  | Returned receipt => EthersTransactionFailedError "Transaction failed" receipt
  | TransactionCancelled m r e => EthersTransactionCancelledError m r e
  | Rethrown e => RejectedRaw e
  | Failed m => Rejected m
  end.

(** [promise.then(f)] *)
Definition then_ {S T} (promise : Res S) (f : S -> Completion T) : Completion T :=
  match promise with
  | Ok a => f a
  | Throw m => Rejected m
  end.

Definition openTrove (params : TroveParams.RawParams) (limit : BorrowingLimit)
    (overrides : Overrides) :
    Completion TroveCreationDetails :=
  then_ (SendableEthersLiquity.openTrove params limit overrides) waitForSuccess.
Definition closeTrove (overrides : Overrides) :
    Completion TroveClosureDetails :=
  then_ (SendableEthersLiquity.closeTrove overrides) waitForSuccess.
Definition adjustTrove (params : TroveParams.RawParams) (limit : BorrowingLimit)
    (overrides : Overrides) :
    Completion TroveAdjustmentDetails :=
  then_ (SendableEthersLiquity.adjustTrove params limit overrides) waitForSuccess.
Definition depositCollateral (amount : Decimal.Decimalish) (overrides : Overrides) :
    Completion TroveAdjustmentDetails :=
  then_ (SendableEthersLiquity.depositCollateral amount overrides) waitForSuccess.
Definition withdrawCollateral (amount : Decimal.Decimalish) (overrides : Overrides) :
    Completion TroveAdjustmentDetails :=
  then_ (SendableEthersLiquity.withdrawCollateral amount overrides) waitForSuccess.
Definition borrowTHUSD (amount : Decimal.Decimalish) (maxBorrowingRate : option Decimal.Decimalish)
    (overrides : Overrides) :
    Completion TroveAdjustmentDetails :=
  then_ (SendableEthersLiquity.borrowTHUSD amount maxBorrowingRate overrides) waitForSuccess.
Definition repayTHUSD (amount : Decimal.Decimalish) (overrides : Overrides) :
    Completion TroveAdjustmentDetails :=
  then_ (SendableEthersLiquity.repayTHUSD amount overrides) waitForSuccess.
Definition setPrice (price : Decimal.Decimalish) (overrides : Overrides) :
    Completion unit :=
  then_ (SendableEthersLiquity.setPrice price overrides) waitForSuccess.
Definition liquidate (address : string + list string) (overrides : Overrides) :
    Completion LiquidationDetails :=
  then_ (SendableEthersLiquity.liquidate address overrides) waitForSuccess.
Definition liquidateUpTo (maximumNumber : Z) (overrides : Overrides) :
    Completion LiquidationDetails :=
  then_ (SendableEthersLiquity.liquidateUpTo maximumNumber overrides) waitForSuccess.
Definition depositTHUSDInBammPool (amount : Decimal.Decimalish) (overrides : Overrides) :
    Completion StabilityDepositChangeDetails :=
  then_ (SendableEthersLiquity.depositTHUSDInBammPool amount overrides) waitForSuccess.
Definition withdrawTHUSDFromBammPool (amount : Decimal.Decimalish) (overrides : Overrides) :
    Completion StabilityDepositChangeDetails :=
  then_ (SendableEthersLiquity.withdrawTHUSDFromBammPool amount overrides) waitForSuccess.
Definition withdrawGainsFromBammPool (overrides : Overrides) :
    Completion StabilityPoolGainsWithdrawalDetails :=
  then_ (SendableEthersLiquity.withdrawGainsFromBammPool overrides) waitForSuccess.
Definition depositTHUSDInStabilityPool (amount : Decimal.Decimalish) (overrides : Overrides) :
    Completion StabilityDepositChangeDetails :=
  then_ (SendableEthersLiquity.depositTHUSDInStabilityPool amount overrides) waitForSuccess.
Definition withdrawTHUSDFromStabilityPool (amount : Decimal.Decimalish) (overrides : Overrides) :
    Completion StabilityDepositChangeDetails :=
  then_ (SendableEthersLiquity.withdrawTHUSDFromStabilityPool amount overrides) waitForSuccess.
Definition withdrawGainsFromStabilityPool (overrides : Overrides) :
    Completion StabilityPoolGainsWithdrawalDetails :=
  then_ (SendableEthersLiquity.withdrawGainsFromStabilityPool overrides) waitForSuccess.
Definition bammUnlock (overrides : Overrides) :
    Completion unit :=
  then_ (SendableEthersLiquity.bammUnlock overrides) waitForSuccess.
Definition transferCollateralGainToTrove (overrides : Overrides) :
    Completion CollateralGainTransferDetails :=
  then_ (SendableEthersLiquity.transferCollateralGainToTrove overrides) waitForSuccess.
Definition transferBammCollateralGainToTrove (overrides : Overrides) :
    Completion CollateralGainTransferDetails :=
  then_ (SendableEthersLiquity.transferBammCollateralGainToTrove overrides) waitForSuccess.
Definition sendTHUSD (toAddress : string) (amount : Decimal.Decimalish) (overrides : Overrides) :
    Completion unit :=
  then_ (SendableEthersLiquity.sendTHUSD toAddress amount overrides) waitForSuccess.
Definition redeemTHUSD (amount : Decimal.Decimalish) (maxRedemptionRate : option Decimal.Decimalish)
    (overrides : Overrides) :
    Completion (option RedemptionDetails) :=
  then_ (SendableEthersLiquity.redeemTHUSD amount maxRedemptionRate overrides) waitForSuccess.
Definition approveErc20 (allowance : option Decimal.Decimalish) (overrides : Overrides) :
    Completion unit :=
  then_ (SendableEthersLiquity.approveErc20 allowance overrides) waitForSuccess.
Definition mintErc20 (toAddress : string) (amount : Decimal.Decimalish) (overrides : Overrides) :
    Completion unit :=
  then_ (SendableEthersLiquity.mintErc20 toAddress amount overrides) waitForSuccess.
Definition claimCollateralSurplus (overrides : Overrides) :
    Completion unit :=
  then_ (SendableEthersLiquity.claimCollateralSurplus overrides) waitForSuccess.

(** An operation by name, on the facade and on the class that prepares it. *)
Definition perform {T} (c : Call T) : Completion T :=
  match c with
  | OpenTrove params limit overrides => openTrove params limit overrides
  | CloseTrove overrides => closeTrove overrides
  | AdjustTrove params limit overrides => adjustTrove params limit overrides
  | DepositCollateral amount overrides => depositCollateral amount overrides
  | WithdrawCollateral amount overrides => withdrawCollateral amount overrides
  | BorrowTHUSD amount maxBorrowingRate overrides => borrowTHUSD amount maxBorrowingRate overrides
  | RepayTHUSD amount overrides => repayTHUSD amount overrides
  | SetPrice price overrides => setPrice price overrides
  | Liquidate address overrides => liquidate address overrides
  | LiquidateUpTo maximumNumber overrides => liquidateUpTo maximumNumber overrides
  | DepositTHUSDInBammPool amount overrides => depositTHUSDInBammPool amount overrides
  | WithdrawTHUSDFromBammPool amount overrides => withdrawTHUSDFromBammPool amount overrides
  | WithdrawGainsFromBammPool overrides => withdrawGainsFromBammPool overrides
  | DepositTHUSDInStabilityPool amount overrides => depositTHUSDInStabilityPool amount overrides
  | WithdrawTHUSDFromStabilityPool amount overrides =>
      withdrawTHUSDFromStabilityPool amount overrides
  | WithdrawGainsFromStabilityPool overrides => withdrawGainsFromStabilityPool overrides
  | BammUnlock overrides => bammUnlock overrides
  | TransferCollateralGainToTrove overrides => transferCollateralGainToTrove overrides
  | TransferBammCollateralGainToTrove overrides => transferBammCollateralGainToTrove overrides
  | SendTHUSD toAddress amount overrides => sendTHUSD toAddress amount overrides
  | RedeemTHUSD amount maxRedemptionRate overrides => redeemTHUSD amount maxRedemptionRate overrides
  | ApproveErc20 allowance overrides => approveErc20 allowance overrides
  | MintErc20 toAddress amount overrides => mintErc20 toAddress amount overrides
  | ClaimCollateralSurplus overrides => claimCollateralSurplus overrides
  end.

Definition populate {T} (c : Call T) : Res (Populated T) :=
  match c with
  | OpenTrove params limit overrides => Populatable.openTrove params limit overrides
  | CloseTrove overrides => Populatable.closeTrove overrides
  | AdjustTrove params limit overrides => Populatable.adjustTrove params limit overrides
  | DepositCollateral amount overrides => Populatable.depositCollateral amount overrides
  | WithdrawCollateral amount overrides => Populatable.withdrawCollateral amount overrides
  | BorrowTHUSD amount maxBorrowingRate overrides =>
      Populatable.borrowTHUSD amount maxBorrowingRate overrides
  | RepayTHUSD amount overrides => Populatable.repayTHUSD amount overrides
  | SetPrice price overrides => Populatable.setPrice price overrides
  | Liquidate address overrides => Populatable.liquidate address overrides
  | LiquidateUpTo maximumNumber overrides => Populatable.liquidateUpTo maximumNumber overrides
  | DepositTHUSDInBammPool amount overrides => Populatable.depositTHUSDInBammPool amount overrides
  | WithdrawTHUSDFromBammPool amount overrides =>
      Populatable.withdrawTHUSDFromBammPool amount overrides
  | WithdrawGainsFromBammPool overrides => Populatable.withdrawGainsFromBammPool overrides
  | DepositTHUSDInStabilityPool amount overrides =>
      Populatable.depositTHUSDInStabilityPool amount overrides
  | WithdrawTHUSDFromStabilityPool amount overrides =>
      Populatable.withdrawTHUSDFromStabilityPool amount overrides
  | WithdrawGainsFromStabilityPool overrides => Populatable.withdrawGainsFromStabilityPool overrides
  | BammUnlock overrides => Populatable.bammUnlock overrides
  | TransferCollateralGainToTrove overrides => Populatable.transferCollateralGainToTrove overrides
  | TransferBammCollateralGainToTrove overrides =>
      Populatable.transferBammCollateralGainToTrove overrides
  | SendTHUSD toAddress amount overrides => Populatable.sendTHUSD toAddress amount overrides
  | RedeemTHUSD amount maxRedemptionRate overrides =>
      
      let! r := Populatable.redeemTHUSD amount maxRedemptionRate overrides in Ok (redemption r)
  | ApproveErc20 allowance overrides => Populatable.approveErc20 allowance overrides
  | MintErc20 toAddress amount overrides => Populatable.mintErc20 toAddress amount overrides
  | ClaimCollateralSurplus overrides => Populatable.claimCollateralSurplus overrides
  end.

End EthersLiquity.
End EthersLiquity.

(** ** How calls end *)
Module EthersLiquityProperties.
Import SendableEthersLiquity EthersLiquity ReceiptProperties.

Section Calls.
Context {BN : BigNumberOps} {E : Ethers} {R : ReadableLiquity} {W : Wallet E}.

(** Every operation of the facade prepares its transaction, sends it and waits. *)
Lemma perform_spec {T} (c : Call T) :
  perform c = then_ (let! tx := populate c in send tx) waitForSuccess.
Proof.
  destruct c; try reflexivity.
  unfold perform, EthersLiquity.redeemTHUSD, SendableEthersLiquity.redeemTHUSD, populate.
  by destruct (Populatable.redeemTHUSD amount maxRedemptionRate overrides).
Qed.

(** Equivalences between equations of constructors. *)
Local Ltac iffs :=
  split_and!; intros; try split; intros;
  repeat (destruct_and? || match goal with H : exists _, _ |- _ => destruct H end);
  simplify_eq; eauto 10; try congruence.

(** What is answered of the receipt the chain settled on. *)
Definition read {T} (parse_ : RawReceipt E -> Res T) (o : option (RawReceipt E)) : Completion T :=
  match o with
  | Some r =>
      if status r then match parse_ r with Ok d => Completed d | Throw m => Rejected m end
      else EthersTransactionFailedError "Transaction failed" (_failedReceipt r)
  | None => Rejected "AssertionError"
  end.

Lemma read_spec {T} (parse_ : RawReceipt E -> Res T) o :
  (forall d, read parse_ o = Completed d <->
     exists r, o = Some r /\ status r = true /\ parse_ r = Ok d) /\
  (forall m rc, read parse_ o = EthersTransactionFailedError m rc <->
     m = "Transaction failed" /\
     exists r, o = Some r /\ status r = false /\ rc = _failedReceipt r) /\
  (forall m x e, read parse_ o <> EthersTransactionCancelledError m x e) /\
  (forall e, read parse_ o <> RejectedRaw e).
Proof.
  unfold read. destruct o as [r|]; [destruct (status r) eqn:Es; [destruct (parse_ r) eqn:Ep|]|];
    iffs.
Qed.

Lemma waitForSuccess_cases {T} (tx : SentTransaction T) :
  waitForSuccess tx =
    match wait (fst tx) None with
    | inr e =>
        if cancellation e then
          if propIs (reason e) TRANSACTION_REPRICED then Rejected "AssertionError"
          else EthersTransactionCancelledError ("Transaction " +:+ default "undefined" (reason e))
                 (receipt e) e
        else if foreign e then RejectedRaw e else read (snd tx) (settled (inr e))
    | inl o => read (snd tx) o
    end.
Proof.
  unfold waitForSuccess. rewrite waitForReceipt_cases.
  unfold throwCancelled, tell, _receiptFrom, read.
  destruct (wait (fst tx) None) as [o|e].
  - destruct o as [r|]; [|done]. destruct (status r); [|done]. by destruct (snd tx r).
  - destruct (cancellation e); [by destruct (propIs _ _)|]. destruct (foreign e); [done|].
    destruct (settled (inr e)) as [r|]; [|done]. destruct (status r); [|done].
    by destruct (snd tx r).
Qed.

(** The transaction of a call, accepted by the wallet. *)
Definition accepted {T} (c : Call T) (response : TransactionResponse)
    (parse_ : RawReceipt E -> Res T) : Prop :=
  exists tx sign, populate c = Ok tx /\ parse tx = parse_ /\ signer = Some sign /\
    sign (rawPopulatedTransaction tx) = Ok response.

Lemma sent_accepted {T} (c : Call T) response parse_ :
  (let! tx := populate c in send tx) = Ok (response, parse_) <-> accepted c response parse_.
Proof.
  unfold accepted, send. split.
  - intros H. res_inv H. destruct signer as [sign|]; [|done]. res_inv H. simplify_eq. eauto 10.
  - intros (tx & sign & -> & <- & -> & Hs). cbn. by rewrite Hs.
Qed.

(** The cases of an accepted transaction do not depend on how it was accepted. *)
Lemma perform_accepted {T} (c : Call T) response parse_ :
  accepted c response parse_ -> perform c = waitForSuccess (response, parse_).
Proof. intros H%sent_accepted. by rewrite perform_spec, H. Qed.

Lemma perform_cases {T} (c : Call T) :
  (exists response parse_, accepted c response parse_) \/ exists m, perform c = Rejected m.
Proof.
  rewrite perform_spec. destruct (let! tx := populate c in send tx) as [ [resp q]|m] eqn:Hs.
  - left. exists resp, q. by apply sent_accepted.
  - right. by exists m.
Qed.

Lemma cancellation_not_foreign (e : JsError E) : cancellation e = true -> foreign e = false.
Proof.
  unfold cancellation, foreign. destruct (isError e), (isTransactionFailedError e),
    (isTransactionReplacedError e); cbn; done.
Qed.

(** Other than by an error of its own, a call ends as waiting for its transaction does. *)
Lemma perform_iff {T} (c : Call T) (x : Completion T) (P : TransactionResponse -> _ -> Prop) :
  (forall m, x <> Rejected m) ->
  (forall response parse_, waitForSuccess (response, parse_) = x <-> P response parse_) ->
  perform c = x <-> exists response parse_, accepted c response parse_ /\ P response parse_.
Proof.
  intros Hx HP. split.
  - intros H. destruct (perform_cases c) as [(resp & q & Ha)|[m Hm] ];
      [|by destruct (Hx m); congruence].
    exists resp, q. split; [done|]. apply HP. by rewrite <- (perform_accepted _ _ _ Ha).
  - intros (resp & q & Ha & H%HP). by rewrite (perform_accepted _ _ _ Ha).
Qed.

(** How waiting ends, by what the chain settled on or by the error. *)
Lemma waited {T} response (parse_ : RawReceipt E -> Res T) :
  let s := settled (wait response None) in
  let x := waitForSuccess (response, parse_) in
  (forall d, x = Completed d <-> exists r, s = Some r /\ status r = true /\ parse_ r = Ok d) /\
  (forall m rc, x = EthersTransactionFailedError m rc <->
     m = "Transaction failed" /\
     exists r, s = Some r /\ status r = false /\ rc = _failedReceipt r) /\
  (forall m o e, x = EthersTransactionCancelledError m o e <->
     m = "Transaction " +:+ default "undefined" (reason e) /\ o = receipt e /\
     wait response None = inr e /\ cancellation e = true /\
     propIs (reason e) TRANSACTION_REPRICED = false) /\
  (forall e, x = RejectedRaw e <-> wait response None = inr e /\ foreign e = true).
Proof.
  cbv zeta. rewrite waitForSuccess_cases. cbn [fst snd].
  destruct (wait response None) as [o|e0].
  { destruct (read_spec parse_ o) as (H1 & H2 & H3 & H4). cbn [settled].
    do 2 (split; [done|]). clear H1 H2. iffs; naive_solver. }
  destruct (read_spec parse_ (settled (inr e0))) as (H1 & H2 & H3 & H4).
  pose proof (unsettled e0) as Hu. pose proof (cancellation_not_foreign e0) as Hcf.
  destruct (cancellation e0) eqn:Hc; [rewrite Hu by auto|destruct (foreign e0) eqn:Hf].
  - specialize (Hcf eq_refl). destruct (propIs (reason e0) TRANSACTION_REPRICED) eqn:Hr; iffs.
  - rewrite Hu by auto. clear Hcf. iffs.
  - do 2 (split; [done|]). clear H1 H2. iffs; naive_solver.
Qed.

(** C25: an operation of [EthersLiquity] answers its details exactly when its transaction was
    prepared and accepted by the wallet, the chain settled on a successful receipt (the
    transaction's own or that of a replacement which is not a cancellation), and the details are
    what the parser prepared with the transaction reads from that receipt; it throws
    [EthersTransactionFailedError] exactly when the receipt settled on is a failed one, the
    cancellation error exactly when the transaction was cancelled or replaced by another, and
    throws errors that say nothing of its fate on; an error while preparing is thrown as it is,
    and without a signer no operation completes. *)
Theorem calls_complete {T} (c : Call T) :
  (forall d, perform c = Completed d <-> exists response parse_ r,
     accepted c response parse_ /\ settled (wait response None) = Some r /\ status r = true /\
     parse_ r = Ok d) /\
  (forall m rc, perform c = EthersTransactionFailedError m rc <->
     m = "Transaction failed" /\ exists response parse_ r, accepted c response parse_ /\
     settled (wait response None) = Some r /\ status r = false /\ rc = _failedReceipt r) /\
  (forall m o e, perform c = EthersTransactionCancelledError m o e <->
     m = "Transaction " +:+ default "undefined" (reason e) /\ o = receipt e /\
     exists response parse_, accepted c response parse_ /\ wait response None = inr e /\
     cancellation e = true /\ propIs (reason e) TRANSACTION_REPRICED = false) /\
  (forall e, perform c = RejectedRaw e <-> exists response parse_, accepted c response parse_ /\
     wait response None = inr e /\ foreign e = true) /\
  (forall m, populate c = Throw m -> perform c = Rejected m) /\
  (signer = None -> exists m, perform c = Rejected m).
Proof.
  split; [|split; [|split; [|split; [|split] ] ] ].
  - intros d. rewrite perform_iff; [|done|intros resp q; apply waited]. naive_solver.
  - intros m rc. rewrite perform_iff; [|done|intros resp q; apply waited]. naive_solver.
  - intros m o e. rewrite perform_iff; [|done|intros resp q; apply waited]. naive_solver.
  - intros e. rewrite perform_iff; [|done|intros resp q; apply waited]. naive_solver.
  - intros m Hm. by rewrite perform_spec, Hm.
  - intros Hs. rewrite perform_spec. destruct (populate c) as [tx|m]; [|by exists m].
    unfold send. cbn [res_bind]. rewrite Hs. by eexists.
Qed.

End Calls.
End EthersLiquityProperties.
