(* ===== verification/Connection.v ===== *)
(** * Connecting to a deployment: [src/packages/lib-ethers/src/EthersLiquityConnection.ts]

    With [_connectToContracts] of [contracts.ts], [_Multicall.ts], the [connect] and [_from] of the
    two classes that hold a connection, and the part of the frontend that connects to every
    deployment of a network ([dev-frontend/src/hooks/ThresholdContext.tsx]).  Signers, providers
    and contract objects are Ethers', the class [Network]; deployment files are loaded by dynamic
    imports, whose arrival is an event. *)

From S2P Require Import Prelude.

Local Open Scope Z_scope.

Class Network : Type := {
  Signer : Type;
  Provider : Type;
  Contract : Type;
  signer_provider : Signer -> option Provider;
  signer_getAddress : Signer -> Res string;
  getNetwork : Provider -> Res Z;
  (** [new Contract(address, abi, signerOrProvider)], the abi by the name of its file *)
  newContract : string -> string -> Signer + Provider -> Res Contract;
}.

Module Connection.

(** ** Data *)

(** [_LiquityDeploymentJSON], as a file may have it: the addresses may be missing, or empty. *)
Record _LiquityDeploymentJSON : Type := mkDeployment {
  chainId : Z;
  addresses : option (JsObject.t string);
  version : string;
  deploymentDate : Z;
  startBlock : Z;
  _priceFeedIsTestnet : bool;
  _isDev : bool;
}.

(** [EthersLiquityConnectionOptionalParams] *)
Record OptionalParams : Type := mkOptional {
  userAddress : option string;
  useStore : option string;
}.

(** [_Versions] and [CollateralsVersionedDeployments] *)
Definition _Versions : Type := JsObject.t _LiquityDeploymentJSON.
Definition CollateralsVersionedDeployments : Type := JsObject.t _Versions.

(** [_InternalEthersLiquityConnection] *)
Record t `{Network} : Type := mkConnection {
  deploymentCollateral : string;
  deploymentVersion : string;
  provider : Provider;
  signer : option Signer;
  _contracts : JsObject.t Contract;
  _multicall : option Contract;
  deployment : _LiquityDeploymentJSON;
  options : OptionalParams;
}.

Definition noOptions : OptionalParams := mkOptional None None.

Definition validStoreOptions : list string := ["blockPolled"].
Definition DEFAULT_COLLATERAL_FOR_TESTING : string := "tst".
Definition DEFAULT_VERSION_FOR_TESTING : string := "v1".

(** ** Contracts: [contracts.ts], [_Multicall.ts] *)

(** The object [getAbi] answers, each interface by the name of its file. *)
Definition getAbi (priceFeedIsTestnet : bool) : JsObject.t string :=
  [("activePool", "ActivePool"); ("borrowerOperations", "BorrowerOperations");
   ("troveManager", "TroveManager"); ("thusdToken", "THUSDToken"); ("defaultPool", "DefaultPool");
   ("hintHelpers", "HintHelpers"); ("pcv", "PCV"); ("multiTroveGetter", "MultiTroveGetter");
   ("priceFeed", if priceFeedIsTestnet then "PriceFeedTestnet" else "PriceFeed");
   ("sortedTroves", "SortedTroves"); ("stabilityPool", "StabilityPool"); ("bamm", "BAMM");
   ("bLens", "BLens"); ("chainlink", "ChainlinkTestnet"); ("gasPool", "GasPool");
   ("collSurplusPool", "CollSurplusPool"); ("erc20", "ERC20Test");
   ("piCalculator", "PIScaledPerSecondCalculator")].

Definition multicallAddress : list (Z * string) :=
  [(1, "0xeefba1e63905ef1d7acba5a8513c70307c1ce441");
   (3, "0x53c43764255c17bd724f74c4ef150724ac50a3ed");
   (4, "0x42ad527de7d4e9d9d011ac45b31d8551f8fe9821");
   (5, "0x77dca2c955b15e9de4dbbcf1246b4b85b651e50e");
   (42, "0x2cc8688c5f75e365aaeeb4ea8d6a480405a48d2a")].

Section Connection.
Context {N : Network}.

(** [mapLiquityContracts(contracts, f)] *)
Definition mapLiquityContracts {T U} (contracts : option (JsObject.t T))
    (f : T -> string -> Res U) : Res (JsObject.t U) :=
  match contracts with
  | None => Throw "Contracts object cannot be null or undefined"
  | Some contracts =>
      let! entries := res_mapM (fun '(key, t) => let! u := f t key in Ok (key, u)) contracts in
      Ok (JsObject.fromEntries entries)
  end.

Definition _connectToContracts (signerOrProvider : Signer + Provider)
    (d : _LiquityDeploymentJSON) : Res (JsObject.t Contract) :=
  match addresses d with
  | None => Throw "Addresses object cannot be null or undefined"
  | Some addresses =>
      let abi := getAbi (_priceFeedIsTestnet d) in
      mapLiquityContracts (Some addresses) (fun address key =>
        if String.eqb address "" then
          Throw ("Address for " +:+ key +:+ " cannot be null or undefined")
        else
          match JsObject.get key abi with
          | None => Throw ("ABI for " +:+ key +:+ " cannot be null or undefined")
          | Some abi => newContract address abi signerOrProvider
          end)
  end.

Definition hasMulticall (chainId : Z) : bool :=
  existsb (fun p => fst p =? chainId) multicallAddress.

Definition _connectToMulticall (signerOrProvider : Signer + Provider) (chainId : Z) :
    Res (option Contract) :=
  if hasMulticall chainId then
    match find (fun p => fst p =? chainId) multicallAddress with
    | Some (_, address) =>
        let! c := newContract address "multicallAbi" signerOrProvider in Ok (Some c)
    | None => Ok None
    end
  else Ok None.

(** ** Connections *)

Definition connectionFrom (deploymentCollateral deploymentVersion : string) (provider : Provider)
    (signer : option Signer) (_contracts : JsObject.t Contract) (_multicall : option Contract)
    (deployment : _LiquityDeploymentJSON) (optionalParams : option OptionalParams) : Res t :=
  match optionalParams ≫= useStore with
  | Some store =>
      if existsb (String.eqb store) validStoreOptions then
        Ok (mkConnection _ deploymentCollateral deploymentVersion provider signer _contracts
              _multicall deployment (default noOptions optionalParams))
      else Throw ("Invalid useStore value " +:+ store)
  | None =>
      Ok (mkConnection _ deploymentCollateral deploymentVersion provider signer _contracts
            _multicall deployment (default noOptions optionalParams))
  end.

Definition _requireSigner (connection : t) : Res Signer :=
  match signer connection with
  | Some s => Ok s
  | None => Throw "Must be connected through a Signer"
  end.

Definition _usingStore (connection : t) : bool :=
  match useStore (options connection) with Some _ => true | None => false end.

Definition getProviderAndSigner (signerOrProvider : Signer + Provider) :
    Res (Provider * option Signer) :=
  match signerOrProvider with
  | inl s => match signer_provider s with
             | Some p => Ok (p, Some s)
             | None => Throw "Signer must have a Provider"
             end
  | inr p => Ok (p, None)
  end.

Definition _connectToDeployment (collateral version : string) (deployment : _LiquityDeploymentJSON)
    (signerOrProvider : Signer + Provider) (optionalParams : option OptionalParams) : Res t :=
  let! '(provider, signer) := getProviderAndSigner signerOrProvider in
  let! contracts := _connectToContracts signerOrProvider deployment in
  connectionFrom collateral version provider signer contracts None deployment optionalParams.

(** [signer ?? provider] *)
Definition signerOr (signer : option Signer) (provider : Provider) : Signer + Provider :=
  match signer with Some s => inl s | None => inr provider end.

Definition _connectByChainId (collateral version : string) (deployment : _LiquityDeploymentJSON)
    (provider : Provider) (signer : option Signer) (chainId : Z)
    (optionalParams : option OptionalParams) : Res t :=
  let! contracts := _connectToContracts (signerOr signer provider) deployment in
  let! multicall := _connectToMulticall (signerOr signer provider) chainId in
  connectionFrom collateral version provider signer contracts multicall deployment optionalParams.

Definition _connect (collateral version : string) (deployment : _LiquityDeploymentJSON)
    (provider : Provider) (signer : option Signer) (optionalParams : option OptionalParams) :
    Res t :=
  let! optionalParams :=
    match signer with
    | Some s =>
        match optionalParams ≫= userAddress with
        | Some _ => Throw "Can't override userAddress when connecting through Signer"
        | None =>
            let! a := signer_getAddress s in
            Ok (Some (mkOptional (Some a) (optionalParams ≫= useStore)))
        end
    | None => Ok optionalParams
    end in
  let! chainId := getNetwork provider in
  _connectByChainId collateral version deployment provider signer chainId optionalParams.

End Connection.

(** ** Deployment files: [getCollateralsDeployments] *)

(** A folder of [collaterals.json]. *)
#[warnings="-register-all"]
Inductive FolderInfo : Type :=
| folder (path name : string) (subfolders : option (list FolderInfo)).
Definition folder_path (f : FolderInfo) : string := let 'folder p _ _ := f in p.
Definition folder_name (f : FolderInfo) : string := let 'folder _ n _ := f in n.
Definition folder_subfolders (f : FolderInfo) : option (list FolderInfo) :=
  let 'folder _ _ s := f in s.

(** [deployments/collaterals/collaterals.json] *)
Definition deployments : FolderInfo :=
  let leaf p n := folder p n None in
  folder "deployments/default" "default" (Some [
    folder "deployments/default/eth" "eth" (Some [
      leaf "deployments/default/eth/v1" "v1"; leaf "deployments/default/eth/v2" "v2"]);
    folder "deployments/default/tbtc" "tbtc" (Some [leaf "deployments/default/tbtc/v1" "v1"]);
    folder "deployments/default/usd" "usd" (Some [leaf "deployments/default/usd/v0" "v0"])]).

(** A file that is imported: its collateral, its version and its path. *)
Record Import : Type := mkImport {
  import_collateral : string;
  import_version : string;
  import_path : string;
}.

(** [if (network == homestead) network = mainnet] *)
Definition fileNetwork (network : string) : string :=
  if String.eqb network "homestead" then "mainnet" else network.

Definition importsOf (network : string) (collateral : FolderInfo) : Res (list Import) :=
  match folder_subfolders collateral with
  | None => Throw "TypeError: Cannot read properties of undefined (reading 'map')"
  | Some versions =>
      Ok (map (fun version => mkImport (folder_name collateral) (folder_name version)
        ("@liquity/lib-ethers/" +:+ folder_path version +:+ "/" +:+ network +:+ ".json")) versions)
  end.

(** The imports the loop starts; it waits for none of them, as the promises of its callbacks do not
    depend on them. *)
Definition startedImports (deployments : FolderInfo) (network : string) : Res (list Import) :=
  match folder_subfolders deployments with
  | None => Throw "TypeError: Cannot read properties of undefined (reading 'length')"
  | Some collaterals =>
      let! imports := res_mapM (importsOf (fileNetwork network)) collaterals in
      Ok (concat imports)
  end.

(** The callback of an import that arrived with a deployment, or failed (and is only logged):
    the version is added to those of its collateral. *)
Definition arrive (versionedDeployments : CollateralsVersionedDeployments)
    (arrival : Import * option _LiquityDeploymentJSON) : CollateralsVersionedDeployments :=
  match arrival with
  | (i, Some deployment) =>
      let versions := default [] (JsObject.get (import_collateral i) versionedDeployments) in
      JsObject.set (import_collateral i) (JsObject.set (import_version i) deployment versions)
        versionedDeployments
  | (_, None) => versionedDeployments
  end.

(** The object [getCollateralsDeployments] answers, after the arrivals there have been. *)
Definition getCollateralsDeployments (arrivals : list (Import * option _LiquityDeploymentJSON)) :
    CollateralsVersionedDeployments := fold_left arrive arrivals [].

(** ** [EthersLiquity] and [ReadableEthersLiquity]: [_from], [connect] and [hasStore] *)

Section Classes.
Context {N : Network}.

(** An object of either class: its connection, and whether it is of the variant with a store. *)
Record Liquity : Type := mkLiquity { connection : t; withStore : bool }.

(** [EthersLiquity._from] and [ReadableEthersLiquity._from] *)
Definition EthersLiquity_from (connection : t) : Liquity :=
  mkLiquity connection (_usingStore connection).
Definition ReadableEthersLiquity_from (connection : t) : Liquity :=
  mkLiquity connection (match useStore (options connection) with
                        | Some store => String.eqb store "blockPolled"
                        | None => false
                        end).

Definition hasStore (liquity : Liquity) (store : option string) : bool :=
  if withStore liquity then
    match store with
    | None => true
    | Some s => match useStore (options (connection liquity)) with
                | Some s' => String.eqb s s'
                | None => false
                end
    end
  else false.

(** [versionedDeployments.v1.deployment ?? panic(new UnsupportedNetworkError(chainId))] *)
Definition importedDeployment (versionedDeployments : CollateralsVersionedDeployments)
    (chainId : Z) : Res _LiquityDeploymentJSON :=
  match JsObject.get "v1" versionedDeployments with
  | None => Throw "TypeError: Cannot read properties of undefined (reading 'deployment')"
  | Some v1 =>
      match JsObject.get "deployment" v1 with
      | Some d => Ok d
      | None => Throw ("Unsupported network (chainId = " +:+ Js.dec_string chainId +:+ ")")
      end
  end.

(** [connect] of either class; [arrivals] are those before the answer of
    [getCollateralsDeployments] is read, for the network it is asked for. *)
Definition connect (_from : t -> Liquity)
    (arrivals : string -> list (Import * option _LiquityDeploymentJSON))
    (signerOrProvider : Signer + Provider) (optionalParams : option OptionalParams) : Res Liquity :=
  let! '(provider, signer) := getProviderAndSigner signerOrProvider in
  let! chainId := getNetwork provider in
  let network := if chainId =? 1 then "mainnet" else "goerli" in
  let! _ := startedImports deployments network in
  let! d := importedDeployment (getCollateralsDeployments (arrivals network)) chainId in
  let! connection := _connect DEFAULT_COLLATERAL_FOR_TESTING DEFAULT_VERSION_FOR_TESTING d provider
                       signer optionalParams in
  Ok (_from connection).

End Classes.

(** ** The frontend's connections: [ThresholdContext.tsx] *)

Record Version : Type := mkVersion {
  collateral_ : string;
  version_ : string;
  deployment_ : _LiquityDeploymentJSON;
}.

Definition supportedNetworks : JsObject.t string := [("11155111", "sepolia")].

(** [iterateVersions(collaterals)]: the two [for ... in] loops. *)
Definition iterateVersions (collaterals : CollateralsVersionedDeployments) : list Version :=
  concat (map (fun '(collateral, versions) =>
    map (fun '(version, deployment) => mkVersion collateral version deployment) versions)
    collaterals).

Definition wsParams (network infuraApiKey : string) : string * string :=
  ("wss://" +:+ (if String.eqb network "homestead" then "mainnet" else network) +:+
   ".infura.io/ws/v3/" +:+ infuraApiKey, network).

(** Which socket [ThresholdProvider] opens once it is connected, if any: its url and network.
    [networkName] is that of Ethers' [getNetwork(chainId)]. *)
Definition socketOf (networkName : string) (infuraApiKey : option string) (isDev : bool)
    (hostname : string) (chainId : Z) : option (string * (string + Z)) :=
  let key := default "" infuraApiKey in
  if negb (String.eqb networkName "") &&
     existsb (String.eqb networkName) (map fst supportedNetworks) && negb (String.eqb key "")
  then let '(url, network) := wsParams networkName key in Some (url, inl network)
  else if isDev then Some ("ws://" +:+ hostname +:+ ":8546", inr chainId)
  else None.

Section Frontend.
Context {N : Network}.
(** [provider.getSigner(account)] *)
Variable getSigner : Provider -> string -> Signer.

Definition getConnections (versionsArray : list Version) (provider : Provider) (account : string)
    (chainId : Z) : Res (list t) :=
  res_mapM (fun v =>
    _connectByChainId (collateral_ v) (version_ v) (deployment_ v) provider
      (Some (getSigner provider account)) chainId
      (Some (mkOptional (Some account) (Some "blockPolled")))) versionsArray.

End Frontend.
End Connection.

Module ConnectionProperties.
Import Connection.

(** ** Deployments *)

(** What an arrival makes of the versions of a collateral. *)
Lemma get_arrive vd i d c :
  JsObject.get c (arrive vd (i, Some d)) =
    if String.eqb (import_collateral i) c
    then Some (JsObject.set (import_version i) d (default [] (JsObject.get c vd)))
    else JsObject.get c vd.
Proof.
  unfold arrive. rewrite JsObject.get_set.
  by destruct (String.eqb_spec (import_collateral i) c) as [->|].
Qed.

(** The deployment recorded for a version. *)
Definition lookup (vd : CollateralsVersionedDeployments) (c v : string) :
    option _LiquityDeploymentJSON := JsObject.get c vd ≫= JsObject.get v.

Definition identity (i : Import) : string * string := (import_collateral i, import_version i).

Lemma lookup_arrive vd i d c v :
  lookup (arrive vd (i, Some d)) c v =
    if bool_decide (identity i = (c, v)) then Some d else lookup vd c v.
Proof.
  unfold lookup. rewrite get_arrive. unfold identity.
  destruct (String.eqb_spec (import_collateral i) c) as [->|Hc]; simpl.
  - rewrite JsObject.get_set. destruct (String.eqb_spec (import_version i) v) as [->|Hv].
    + by rewrite bool_decide_true.
    + rewrite bool_decide_false by congruence. by destruct (JsObject.get c vd).
  - rewrite bool_decide_false by congruence. done.
Qed.

(** Keys occur once, for collaterals and for the versions of each. *)
Definition wf (vd : CollateralsVersionedDeployments) : Prop :=
  NoDup (map fst vd) /\ forall c vs, In (c, vs) vd -> NoDup (map fst vs).

Lemma wf_arrive vd a : wf vd -> wf (arrive vd a).
Proof.
  intros [H1 H2]. destruct a as [i [d|] ]; [|done]. split.
  - by apply JsObject.keys_set.
  - intros c vs Hin. apply JsObject.get_In in Hin; [|by apply JsObject.keys_set].
    change (JsObject.get c (arrive vd (i, Some d)) = Some vs) in Hin. rewrite get_arrive in Hin.
    destruct (String.eqb_spec (import_collateral i) c) as [<-|].
    + injection Hin as <-. apply JsObject.keys_set.
      destruct (JsObject.get (import_collateral i) vd) as [vs|] eqn:E; [|apply NoDup_nil_2].
      simpl. eapply H2. by apply JsObject.get_In.
    + by apply (H2 c vs), JsObject.get_In.
Qed.

Lemma wf_collected arrivals : wf (getCollateralsDeployments arrivals).
Proof.
  unfold getCollateralsDeployments. assert (wf []) as H.
  { split; [apply NoDup_nil_2|]. by intros c vs []. }
  revert H. generalize (@nil (string * _Versions)). induction arrivals as [|a l IH]; [done|].
  intros vd H. simpl. by apply IH, wf_arrive.
Qed.

Lemma in_iterateVersions vd c v d :
  wf vd -> In (mkVersion c v d) (iterateVersions vd) <-> lookup vd c v = Some d.
Proof.
  intros [H1 H2]. unfold iterateVersions, lookup. rewrite in_concat. split.
  - intros (l & ([c' vs] & <- & Hc)%in_map_iff & ([v' d'] & [= -> -> ->] & Hv)%in_map_iff).
    pose proof (H2 _ _ Hc). apply JsObject.get_In in Hc; [|done].
    etrans; [exact (f_equal (fun o => o ≫= JsObject.get v) Hc)|]. by apply JsObject.get_In.
  - destruct (JsObject.get c vd) as [vs|] eqn:E; [|done]. simpl. intros Hv.
    apply JsObject.get_In in E; [|done]. apply JsObject.get_In in Hv; [|by eapply H2].
    eexists. split; [apply in_map_iff; exists (c, vs); split; [reflexivity|done]|].
    apply in_map_iff. by exists (v, d).
Qed.

Lemma collected_app l a :
  getCollateralsDeployments (l ++ [a]) = arrive (getCollateralsDeployments l) a.
Proof. unfold getCollateralsDeployments. by rewrite fold_left_app. Qed.

Lemma lookup_collected arrivals c v d :
  NoDup (map (fun a => identity (fst a)) arrivals) ->
  lookup (getCollateralsDeployments arrivals) c v = Some d <->
  exists i, In (i, Some d) arrivals /\ identity i = (c, v).
Proof.
  induction arrivals as [|[i o] l IH] using rev_ind; intros Hnd; [naive_solver|].
  rewrite map_app in Hnd. apply NoDup_app in Hnd as (Hl & Hd & _). specialize (IH Hl).
  rewrite collected_app. setoid_rewrite in_app_iff. cbn [In].
  assert (forall j x, In (j, x) l -> identity j <> identity i) as Hfresh.
  { intros j x Hj Heq. eapply (Hd (identity j)); [|by rewrite Heq; left].
    by apply list_elem_of_In, (in_map (fun a => identity (fst a)) _ (j, x)). }
  destruct o as [d'|]; [|cbn [arrive]; rewrite IH; naive_solver].
  rewrite lookup_arrive. case_bool_decide as Hi; [|rewrite IH; naive_solver].
  split; [intros [= ->]; eauto|]. intros (j & [Hj|[ [= -> ->]|[] ] ] & Hc); [|done].
  exfalso. eapply Hfresh; [exact Hj|]. by rewrite Hc, Hi.
Qed.

(** The versions of a collection are listed once each. *)
Lemma versions_once vd :
  wf vd -> NoDup (map (fun v => (collateral_ v, version_ v)) (iterateVersions vd)).
Proof.
  unfold iterateVersions. intros [H1 H2]. induction vd as [|[c vs] vd IH]; [apply NoDup_nil_2|].
  cbn [map concat fst] in *. apply NoDup_cons in H1 as [Hc H1]. rewrite map_app.
  apply NoDup_app. split; [|split].
  - specialize (H2 c vs (or_introl eq_refl)). clear -H2. induction vs as [|[v d] vs IH];
      cbn [map fst] in *; [apply NoDup_nil_2|]. apply NoDup_cons in H2 as [Hv H2].
    apply NoDup_cons. split; [|by apply IH]. intros Hin. apply Hv.
    apply list_elem_of_In in Hin. apply list_elem_of_In.
    apply in_map_iff in Hin as ([c' v'' d'] & Heq & ([v' d''] & E & Hin)%in_map_iff).
    simplify_eq/=. by apply (in_map fst) in Hin.
  - intros [c' v] Hin1%list_elem_of_In Hin2%list_elem_of_In. apply Hc, list_elem_of_In.
    apply in_map_iff in Hin1 as (x & Heq1 & ([v1 d1] & <- & _)%in_map_iff).
    apply in_map_iff in Hin2 as (y & Heq2 & (l & Hl & Hy)%in_concat).
    apply in_map_iff in Hl as ([c2 vs2] & <- & Hvs2).
    apply in_map_iff in Hy as ([v2 d2] & <- & _). simplify_eq/=.
    by apply (in_map fst) in Hvs2.
  - apply IH; [done|]. intros c' vs' Hin. eapply H2. by right.
Qed.

(** ** Connecting *)

Section Connecting.
Context {N : Network}.

(** A deployment whose addresses are all there and of contracts the library knows. *)
Definition usable (d : _LiquityDeploymentJSON) : bool :=
  match addresses d with
  | None => false
  | Some a => forallb (fun '(key, address) =>
      negb (String.eqb address "") && JsObject.has key (getAbi (_priceFeedIsTestnet d))) a
  end.

Lemma fromEntries_get {A} (l : list (string * A)) key :
  NoDup (map fst l) -> JsObject.get key (JsObject.fromEntries l) = JsObject.get key l.
Proof.
  unfold JsObject.fromEntries, JsObject.spread.
  induction l as [|[k a] l IH] using rev_ind; intros Hnd; [done|].
  rewrite map_app in Hnd. apply NoDup_app in Hnd as (Hl & Hd & _).
  rewrite fold_left_app. cbn [fold_left fst snd]. rewrite JsObject.get_set, IH by done.
  assert (~ In k (map fst l)) as Hk.
  { intros Hin. apply list_elem_of_In in Hin. apply (Hd k Hin). by left. }
  clear -Hk. induction l as [|[k' b] l IH]; cbn [JsObject.get app].
  { by destruct (String.eqb_spec k key) as [->|]. }
  cbn [map fst In] in Hk. destruct (String.eqb_spec k' key) as [->|].
  - destruct (String.eqb_spec k key) as [->|]; [tauto|done].
  - apply IH. tauto.
Qed.

(** Connecting creates, for each address, the contract at that address with its interface. *)
Lemma contracts_connected s d cs :
  _connectToContracts s d = Ok cs ->
  usable d = true /\ exists addrs, addresses d = Some addrs /\
    (NoDup (map fst addrs) -> forall key address, In (key, address) addrs ->
       exists abi c, JsObject.get key (getAbi (_priceFeedIsTestnet d)) = Some abi /\
         newContract address abi s = Ok c /\ JsObject.get key cs = Some c).
Proof.
  unfold _connectToContracts, mapLiquityContracts, usable.
  destruct (addresses d) as [addrs|]; [|done]. intros H. res_inv H. injection H as <-.
  match goal with H : res_mapM ?f addrs = Ok ?l |- _ => rename l into es; rename H into Hm end.
  assert (map fst es = map fst addrs /\ forallb (fun '(key, address) =>
      negb (String.eqb address "") &&
      JsObject.has key (getAbi (_priceFeedIsTestnet d))) addrs = true /\
    forall key address, In (key, address) addrs -> exists abi c,
      JsObject.get key (getAbi (_priceFeedIsTestnet d)) = Some abi /\
      newContract address abi s = Ok c /\ In (key, c) es) as (Hk & Hu & Hes).
  { revert es Hm. induction addrs as [|[key address] addrs IH]; cbn [res_mapM]; intros es Hm.
    { injection Hm as <-. naive_solver. }
    res_inv Hm. res_inv Hm. injection Hm as <-.
    match goal with H : res_bind _ _ = Ok ?y |- _ => rename H into Hf; rename y into y0 end.
    res_inv Hf. injection Hf as <-. destruct (String.eqb_spec address "") as [|Ha]; [done|].
    destruct (JsObject.get key (getAbi _)) as [abi|] eqn:Eabi; [|done].
    edestruct IH as (IH1 & IH2 & IH3); [eassumption|]. cbn [map fst forallb].
    split; [by f_equal|]. split.
    - destruct (String.eqb_spec address ""); [done|]. cbn [negb andb].
      assert (JsObject.has key (getAbi (_priceFeedIsTestnet d)) = true) as -> by
        (apply JsObject.has_get; by eexists). done.
    - intros k a [ [= <- <-]|Hin]; [exists abi; eexists; split; [done|]; split; [done|by left]|].
      destruct (IH3 _ _ Hin) as (abi' & c & ? & ? & ?). exists abi', c.
      split; [done|]. split; [done|by right]. }
  split; [done|]. exists addrs. split; [done|]. intros Hnd key address Hin.
  destruct (Hes _ _ Hin) as (abi & c & ? & ? & Hc). exists abi, c. do 2 (split; [done|]).
  rewrite fromEntries_get by (by rewrite Hk). apply JsObject.get_In; [by rewrite Hk|done].
Qed.

Variable getSigner : Provider -> string -> Signer.

(** The connection the frontend wants for a deployment. *)
Definition connected (provider_ : Provider) (account : string) (v : Version) (c : t) : Prop :=
  deploymentCollateral c = collateral_ v /\ deploymentVersion c = version_ v /\
  deployment c = deployment_ v /\ provider c = provider_ /\
  signer c = Some (getSigner provider_ account) /\
  options c = mkOptional (Some account) (Some "blockPolled") /\
  hasStore (EthersLiquity_from c) (Some "blockPolled") = true /\
  exists addrs, addresses (deployment_ v) = Some addrs /\
    (NoDup (map fst addrs) -> forall key address, In (key, address) addrs ->
       exists abi k, JsObject.get key (getAbi (_priceFeedIsTestnet (deployment_ v))) = Some abi /\
         newContract address abi (inl (getSigner provider_ account)) = Ok k /\
         JsObject.get key (_contracts c) = Some k).

Lemma connected_by provider_ account chain v c :
  _connectByChainId (collateral_ v) (version_ v) (deployment_ v) provider_
    (Some (getSigner provider_ account)) chain
    (Some (mkOptional (Some account) (Some "blockPolled"))) = Ok c ->
  usable (deployment_ v) = true /\ connected provider_ account v c.
Proof.
  unfold _connectByChainId. intros H. apply res_bind_inv in H as (ks & Hks & H).
  apply res_bind_inv in H as (m & _ & H). cbn in H. injection H as <-.
  apply contracts_connected in Hks as (Hu & Ha). split; [done|].
  unfold connected. cbn. repeat (split; [done|]). exact Ha.
Qed.

(** C26: when the frontend connects to what has been loaded, every deployment file that arrived, in
    whatever order the files did, is listed exactly once under its collateral and its version; if
    connecting succeeds there is one connection per listed deployment, of the account, through its
    signer, with a store, and with each contract at its address behind the interface of that
    name; a single deployment with a missing or unknown address makes all of it fail. *)
Theorem frontend_connections arrivals provider_ account chain :
  NoDup (map (fun a => identity (fst a)) arrivals) ->
  let versions := iterateVersions (getCollateralsDeployments arrivals) in
  (forall c v d, In (mkVersion c v d) versions <->
     exists i, In (i, Some d) arrivals /\ identity i = (c, v)) /\
  NoDup (map (fun v => (collateral_ v, version_ v)) versions) /\
  (forall cs, getConnections getSigner versions provider_ account chain = Ok cs ->
     Forall2 (connected provider_ account) versions cs) /\
  (forall v, In v versions -> usable (deployment_ v) = false ->
     exists m, getConnections getSigner versions provider_ account chain = Throw m).
Proof.
  intros Hnd versions. split; [|split; [|split] ].
  - intros c v d. unfold versions. rewrite in_iterateVersions by apply wf_collected.
    by apply lookup_collected.
  - apply versions_once, wf_collected.
  - intros cs H%res_mapM_Forall2. eapply Forall2_impl; [exact H|]. intros v c Hc.
    by apply connected_by in Hc as [_ Hc].
  - intros v Hv Hu. destruct (_connectByChainId (collateral_ v) (version_ v) (deployment_ v)
      provider_ (Some (getSigner provider_ account)) chain
      (Some (mkOptional (Some account) (Some "blockPolled")))) as [c|m] eqn:E.
    { apply connected_by in E as [E _]. congruence. }
    eapply res_mapM_Throw; [exact Hv|exact E].
Qed.

(** No collateral is called v1. *)
Lemma started network :
  exists imports, startedImports deployments network = Ok imports /\
    forall i, In i imports -> import_collateral i <> "v1".
Proof.
  eexists. split; [reflexivity|]. simpl.
  intros i [<-|[<-|[<-|[<-|[] ] ] ] ]; discriminate.
Qed.

Lemma not_loaded arrivals c :
  (forall i d, In (i, d) arrivals -> import_collateral i <> c) ->
  JsObject.get c (getCollateralsDeployments arrivals) = None.
Proof.
  induction arrivals as [|[i [d|] ] l IH] using rev_ind; intros H; [done| |].
  - rewrite collected_app, get_arrive. setoid_rewrite in_app_iff in H.
    destruct (String.eqb_spec (import_collateral i) c) as [E|_].
    + destruct (H i (Some d)); [right; by left|done].
    + apply IH. intros i' d' Hin. apply (H i' d'). by left.
  - rewrite collected_app. apply IH. intros i' d' Hin. apply (H i' d'). apply in_app_iff. by left.
Qed.

(** [connect] of [EthersLiquity] and of [ReadableEthersLiquity] never succeeds, whatever has
    arrived of the deployment files of the repository: the deployments are kept by collateral, but
    it looks for one under the name of a version; on a provider that knows its network the error
    is that of reading a property of undefined. *)
Theorem connect_rejects _from arrivals signerOrProvider options :
  (forall network imports i d, startedImports deployments network = Ok imports ->
     In (i, d) (arrivals network) -> In i imports) ->
  exists m, connect _from arrivals signerOrProvider options = Throw m /\
    forall p s chain, getProviderAndSigner signerOrProvider = Ok (p, s) ->
      getNetwork p = Ok chain ->
      m = "TypeError: Cannot read properties of undefined (reading 'deployment')".
Proof.
  intros Harr. unfold connect.
  destruct (getProviderAndSigner signerOrProvider) as [ [p s]|m]; [|exists m; by split].
  cbn [res_bind]. destruct (getNetwork p) as [chain|m] eqn:Hn.
  2: { exists m. split; [done|]. intros p' s' chain [= <- <-]. congruence. }
  cbn [res_bind]. set (network := if chain =? 1 then _ else _).
  destruct (started network) as (imports & Hi & Hnames). rewrite Hi. cbn [res_bind].
  assert (JsObject.get "v1" (getCollateralsDeployments (arrivals network)) = None) as Hnone.
  { apply not_loaded. intros i d Hin. eapply Hnames, Harr; [exact Hi|exact Hin]. }
  unfold importedDeployment. rewrite Hnone. cbn [res_bind]. eexists. by split.
Qed.

End Connecting.

(** The networks are looked up among the keys, which are chain identifiers: no name of a network
    is among them, so that no socket is opened to a network the frontend supports. *)
Lemma no_socket networkName key hostname chain :
  networkName <> "11155111" -> socketOf networkName key false hostname chain = None.
Proof.
  intros H. unfold socketOf. cbn. destruct (String.eqb_spec networkName "11155111"); [done|].
  by rewrite andb_false_r.
Qed.

(** ** A network *)

#[local] Instance network : Network := {|
  Signer := string;
  Provider := unit;
  Contract := string * string;
  signer_provider _ := Some tt;
  signer_getAddress a := Ok a;
  getNetwork _ := Ok 5;
  newContract address abi _ := Ok (address, abi);
|}.

Definition signerOf : @Provider network -> string -> @Signer network := fun _ account => account.

Definition aDeployment : _LiquityDeploymentJSON :=
  mkDeployment 5 (Some [("troveManager", "0x1"); ("erc20", "0x2")]) "c0ffee" 0 1 false false.
Definition arrived : list (Import * option _LiquityDeploymentJSON) :=
  [(mkImport "tbtc" "v1" "@liquity/lib-ethers/deployments/default/tbtc/v1/goerli.json",
    Some aDeployment);
   (mkImport "eth" "v2" "@liquity/lib-ethers/deployments/default/eth/v2/goerli.json",
    Some aDeployment);
   (mkImport "eth" "v1" "@liquity/lib-ethers/deployments/default/eth/v1/goerli.json", None)].

Lemma frontend_connections_witness :
  exists cs,
    getConnections signerOf (iterateVersions (getCollateralsDeployments arrived))
      tt "0xuser" 5 = Ok cs /\
    Forall2 (connected signerOf tt "0xuser")
      [mkVersion "tbtc" "v1" aDeployment; mkVersion "eth" "v2" aDeployment] cs.
Proof.
  assert (NoDup (map (fun a => identity (fst a)) arrived)) as Hnd.
  { exact (bool_decide_unpack (NoDup (map (fun a => identity (fst a)) arrived)) I). }
  eexists. split; [vm_compute; reflexivity|].
  apply (frontend_connections signerOf arrived tt "0xuser" 5 Hnd). reflexivity.
Defined.

Lemma connect_rejects_witness :
  connect EthersLiquity_from (fun network => if String.eqb network "goerli" then arrived else [])
    (inr tt) None =
  Throw "TypeError: Cannot read properties of undefined (reading 'deployment')".
Proof.
  assert (forall network imports i d, startedImports deployments network = Ok imports ->
    In (i, d) (if String.eqb network "goerli" then arrived else []) -> In i imports) as Harr.
  { intros n imports i d H Hin. destruct (String.eqb_spec n "goerli") as [->|]; [|done].
    injection H as <-. simpl in *. naive_solver. }
  destruct (connect_rejects EthersLiquity_from _ (inr tt : @Signer network + @Provider network) None
    Harr) as (m & H & Hm).
  rewrite H. f_equal. by eapply Hm.
Defined.

End ConnectionProperties.
