(* ===== verification/SubgraphClient.v ===== *)
(** * The client of the subgraph: [src/packages/lib-subgraph/src]

    The queries, what the client makes of their answers, and the methods it does not implement.
    The Apollo client and the graph node behind it are not part of the repository: the client is a
    function from queries to answers, and [serves] says what the node answers from a database.
    [Announced] is an abstract indexer, over the integers the contracts announce; the theorems
    show that what a client reads is what the events announced. *)

From Stdlib Require Import QArith Qround Qfield Sorting.Sorted.
From S2P Require Import Prelude BigNumber Decimals Troves TroveProperties Readable Subgraph SubgraphProperties.
Import Subgraph SubgraphFrame SubgraphFacts.

Local Open Scope Z_scope.

(** ** Answers of the node: [lib-subgraph/types] *)

Record SystemStateFields : Type := mkSystemStateFields {
  f_price : option string;
  f_totalCollateral : string;
  f_totalDebt : string;
  f_tokensInStabilityPool : string;
}.

Record GlobalFields : Type := mkGlobalFields {
  f_numberOfOpenTroves : Z;
  f_rawTotalRedistributedCollateral : string;
  f_rawTotalRedistributedDebt : string;
  f_currentSystemState : option SystemStateFields;
}.

Record TroveRawFields : Type := mkTroveRawFields {
  f_owner : string;
  f_status : TroveStatus;
  f_rawCollateral : string;
  f_rawDebt : string;
  f_rawStake : string;
  f_rawSnapshotOfTotalRedistributedCollateral : string;
  f_rawSnapshotOfTotalRedistributedDebt : string;
}.

Inductive OrderDirection : Type := asc | desc.

Record TrovesVariables : Type := mkTrovesVariables {
  v_first : JsNumber;
  v_startingAt : JsNumber;
  v_orderDirection : OrderDirection;
}.

(** A query document, by its variables and the data of its answer; of [user] the query asks for its
    Trove only. *)
Inductive DocumentNode : Type -> Type -> Type :=
| queryGlobal : DocumentNode unit (option GlobalFields)
| queryTroveWithoutRewards : DocumentNode string (option (option TroveRawFields))
| queryTroves : DocumentNode TrovesVariables (list TroveRawFields)
| queryBlockNumberDummy : DocumentNode Z unit.

(** What a request is answered. *)
Definition ApolloClient : Type := forall V U, DocumentNode V U -> V -> Res U.

(** ** [Query.ts] *)
Module Query.

Record t (T U V : Type) : Type := mk {
  query : DocumentNode V U;
  mapResult : U -> V -> Res T;
}.
Arguments mk {T U V}.
Arguments query {T U V}.
Arguments mapResult {T U V}.

Definition get {T U V} (this : t T U V) (client : ApolloClient) (variables : V) : Res T :=
  let! result := client V U (query this) variables in
  mapResult this result variables.

(** The values [onChanged] is called with, for the results of the polls while subscribed; a result
    that cannot be mapped is reported as an error, and the subscription goes on. *)
Definition watch {T U V} (this : t T U V) (results : list U) (variables : V) : list T :=
  omap (fun result => match mapResult this result variables with
                      | Ok value => Some value
                      | Throw _ => None
                      end) results.

End Query.

(** ** [SubgraphLiquity.ts] *)
Module SubgraphLiquity.

Section Client.
Context {BN : BigNumberOps}.

(** [getAddress] of [@ethersproject/address]: the checksummed form. *)
Context (getAddress : string -> Res string).

Definition toLowerCase_char (c : ascii) : ascii :=
  let n := Ascii.N_of_ascii c in
  if ((65 <=? n) && (n <=? 90))%N then Ascii.ascii_of_N (n + 32) else c.
(** On the letters of ASCII. *)
Fixpoint toLowerCase (s : string) : string :=
  match s with EmptyString => EmptyString | String c s' => String (toLowerCase_char c) (toLowerCase s') end.

Definition normalizeAddress (address : option string) : Res string :=
  match address with
  | None => Throw "An address is required"
  | Some a => Ok (toLowerCase a)
  end.

Definition decimalify (bigNumberString : string) : Res Decimal.t :=
  Decimal.fromBigNumberString bigNumberString.

Definition numberOfTroves : Query.t Z (option GlobalFields) unit :=
  Query.mk queryGlobal (fun global _ =>
    Ok (match global with Some g => f_numberOfOpenTroves g | None => 0 end)).

Definition totalRedistributed : Query.t Trove.t (option GlobalFields) unit :=
  Query.mk queryGlobal (fun global _ =>
    match global with
    | Some g =>
        let! c := decimalify (f_rawTotalRedistributedCollateral g) in
        let! d := decimalify (f_rawTotalRedistributedDebt g) in
        Ok (Trove.mk c d)
    | None => Ok Trove.empty
    end).

Definition currentState (global : option GlobalFields) : option SystemStateFields :=
  match global with Some g => f_currentSystemState g | None => None end.

Definition price : Query.t Decimal.t (option GlobalFields) unit :=
  Query.mk queryGlobal (fun global _ =>
    match currentState global with
    | Some s => match f_price s with
                | Some p => Decimal.from (Decimal.ofString p)
                | None => Decimal.from (Decimal.ofNumber "200")
                end
    | None => Decimal.from (Decimal.ofNumber "200")
    end).

Definition total : Query.t Trove.t (option GlobalFields) unit :=
  Query.mk queryGlobal (fun global _ =>
    match currentState global with
    | Some s =>
        let! c := Decimal.from (Decimal.ofString (f_totalCollateral s)) in
        let! d := Decimal.from (Decimal.ofString (f_totalDebt s)) in
        Ok (Trove.mk c d)
    | None => Ok Trove.empty
    end).

Definition tokensInStabilityPool : Query.t Decimal.t (option GlobalFields) unit :=
  Query.mk queryGlobal (fun global _ =>
    match currentState global with
    | Some s => Decimal.from (Decimal.ofString (f_tokensInStabilityPool s))
    | None => Decimal.from (Decimal.ofNumber "0")
    end).

(** The status of the SDK that has the name of the subgraph's. *)
Definition userStatus (s : TroveStatus) : UserTrove.UserTroveStatus :=
  match s with
  | open => UserTrove.open
  | closedByOwner => UserTrove.closedByOwner
  | closedByLiquidation => UserTrove.closedByLiquidation
  | closedByRedemption => UserTrove.closedByRedemption
  end.

Definition troveFromRawFields (fields : TroveRawFields) : Res TroveWithPendingRedistribution.t :=
  let! owner := getAddress (f_owner fields) in
  let! collateral := decimalify (f_rawCollateral fields) in
  let! debt := decimalify (f_rawDebt fields) in
  let! stake := decimalify (f_rawStake fields) in
  let! snapshotCollateral := decimalify (f_rawSnapshotOfTotalRedistributedCollateral fields) in
  let! snapshotDebt := decimalify (f_rawSnapshotOfTotalRedistributedDebt fields) in
  Ok (TroveWithPendingRedistribution.new owner (userStatus (f_status fields)) (Some collateral)
        (Some debt) (Some stake) (Some (Trove.mk snapshotCollateral snapshotDebt))).

Definition troveBeforeRedistribution :
    Query.t TroveWithPendingRedistribution.t (option (option TroveRawFields)) string :=
  Query.mk queryTroveWithoutRewards (fun user address =>
    match user with
    | Some (Some trove) => troveFromRawFields trove
    | _ => Ok (TroveWithPendingRedistribution.new address UserTrove.nonExistent None None None None)
    end).

Definition troves : Query.t (list TroveWithPendingRedistribution.t) (list TroveRawFields)
    TrovesVariables :=
  Query.mk queryTroves (fun troves _ => res_mapM troveFromRawFields troves).

Definition blockNumberDummy : Query.t unit unit Z :=
  Query.mk queryBlockNumberDummy (fun _ _ => Ok tt).

(** *** The class; a getter that sends two requests takes the client as it answers each of them *)

Definition getTotalRedistributed (client : ApolloClient) : Res Trove.t :=
  Query.get totalRedistributed client tt.
Definition watchTotalRedistributed (results : list (option GlobalFields)) : list Trove.t :=
  Query.watch totalRedistributed results tt.

Definition getTroveBeforeRedistribution (client : ApolloClient) (address : option string) :
    Res TroveWithPendingRedistribution.t :=
  let! address := normalizeAddress address in
  Query.get troveBeforeRedistribution client address.
Definition watchTroveWithoutRewards (results : list (option (option TroveRawFields)))
    (address : option string) : Res (list TroveWithPendingRedistribution.t) :=
  let! address := normalizeAddress address in
  Ok (Query.watch troveBeforeRedistribution results address).

Definition getTrove (client client' : ApolloClient) (address : option string) : Res UserTrove.t :=
  let! trove := getTroveBeforeRedistribution client address in
  let! totalRedistributed := getTotalRedistributed client' in
  TroveWithPendingRedistribution.applyRedistribution trove totalRedistributed.

Definition getNumberOfTroves (client : ApolloClient) : Res Z := Query.get numberOfTroves client tt.
Definition watchNumberOfTroves (results : list (option GlobalFields)) : list Z :=
  Query.watch numberOfTroves results tt.
Definition getPrice (client : ApolloClient) : Res Decimal.t := Query.get price client tt.
Definition watchPrice (results : list (option GlobalFields)) : list Decimal.t :=
  Query.watch price results tt.
Definition getTotal (client : ApolloClient) : Res Trove.t := Query.get total client tt.
Definition watchTotal (results : list (option GlobalFields)) : list Trove.t :=
  Query.watch total results tt.
Definition getTHUSDInStabilityPool (client : ApolloClient) : Res Decimal.t :=
  Query.get tokensInStabilityPool client tt.
Definition watchTHUSDInStabilityPool (results : list (option GlobalFields)) : list Decimal.t :=
  Query.watch tokensInStabilityPool results tt.

Definition orderDirection (sortedBy : string) : OrderDirection :=
  if String.eqb sortedBy "ascendingCollateralRatio" then asc else desc.

Definition trovesVariables (params : TroveListingParams) : TrovesVariables :=
  mkTrovesVariables (first params) (default (JInt 0) (startingAt params))
    (orderDirection (sortedBy params)).

Definition getTroves (client client' : ApolloClient) (params : TroveListingParams) :
    Res (list TroveWithPendingRedistribution.t + list UserTrove.t) :=
  if default false (beforeRedistribution params) then
    let! _troves := Query.get troves client' (trovesVariables params) in Ok (inl _troves)
  else
    let! totalRedistributed := getTotalRedistributed client in
    let! _troves := Query.get troves client' (trovesVariables params) in
    let! l := res_mapM
      (fun trove => TroveWithPendingRedistribution.applyRedistribution trove totalRedistributed)
      _troves in
    Ok (inr l).

(** [attempt k] is the client at the [k]-th attempt; answers the number of attempts. *)
Fixpoint waitForBlock (fuel : nat) (attempt : nat -> ApolloClient) (blockNumber : Z) (k : nat) :
    option nat :=
  match fuel with
  | O => None
  | S fuel' =>
      match Query.get blockNumberDummy (attempt k) blockNumber with
      | Throw _ => waitForBlock fuel' attempt blockNumber (S k)
      | Ok _ => Some (S k)
      end
  end.

End Client.

(** *** What is not implemented *)
Definition notImplemented : string := "Method not implemented.".

Definition getSymbol : Res string := Throw notImplemented.
Definition getCollateralAddress : Res string := Throw notImplemented.
Definition getStableAddress : Res string := Throw notImplemented.
Definition getStabilityDeposit (address : option string) : Res unit := Throw notImplemented.
Definition getBammDeposit (address : option string) : Res unit := Throw notImplemented.
Definition watchStabilityDeposit (address : option string) : Res unit := Throw notImplemented.
Definition getTHUSDBalance (address : option string) : Res Decimal.t := Throw notImplemented.
Definition getPCVBalance : Res Decimal.t := Throw notImplemented.
Definition getErc20TokenBalance (address : option string) : Res Decimal.t := Throw notImplemented.
Definition getErc20TokenAllowance (address : option string) : Res Decimal.t := Throw notImplemented.
Definition isStabilityPools : Res bool := Throw notImplemented.
Definition isBorrowerOperations : Res bool := Throw notImplemented.
Definition isTroveManager : Res bool := Throw notImplemented.
Definition checkMintList : Res bool := Throw notImplemented.
Definition watchTHUSDBalance (address : option string) : Res unit := Throw notImplemented.
Definition getCollateralSurplusBalance (address : option string) : Res Decimal.t :=
  Throw notImplemented.
Definition getFees : Res unit := Throw notImplemented.
Definition getWithdrawsSpShare : Res string := Throw notImplemented.

End SubgraphLiquity.

(** ** What the node answers from a database *)

(** The text of a decimal in an answer. *)
Class GraphNode (G : GraphTs) : Type := { bd_toString : BigDecimal -> string }.

(** Decimals have 34 significant digits: integers below 10^34 scale to different decimals, whose
    texts are numerals of their values. *)
Class GraphNodeLaws (G : GraphTs) {N : GraphNode G} {BN : BigNumberOps} : Prop := {
  scale_inj a b : 0 <= a < 10 ^ 34 -> 0 <= b < 10 ^ 34 ->
    bd_eq (divDecimal a (fromString "1000000000000000000"))
      (divDecimal b (fromString "1000000000000000000")) = true <-> a = b;
  scale_text z : 0 <= z < 10 ^ 34 ->
    Decimal.from (Decimal.ofString (bd_toString (divDecimal z (fromString "1000000000000000000")))) =
    Ok (Decimal.mk (Z.to_N z));
}.

Module Node.
Section Node.
Context {G : GraphTs} {N : GraphNode G}.

Definition systemStateFields (x : SystemState) : SystemStateFields :=
  mkSystemStateFields (bd_toString <$> ss_price x) (bd_toString (totalCollateral x))
    (bd_toString (totalDebt x)) (bd_toString (tokensInStabilityPool x)).

(** The current system state of a database. *)
Definition currentStateOf (s : DB) : option SystemState :=
  currentSystemState (globalOf s) ≫= fun id => systemStates s !! id.

Definition globalFields (s : DB) : option GlobalFields :=
  (fun g => mkGlobalFields (numberOfOpenTroves (troveNumbers g))
     (i32_toString (rawTotalRedistributedCollateral g)) (i32_toString (rawTotalRedistributedDebt g))
     (systemStateFields <$> currentStateOf s)) <$> globals s.

Definition troveFields (t : Trove) : option TroveRawFields :=
  (fun r => mkTroveRawFields (trove_owner t) (status t) (i32_toString (rawCollateral r))
     (i32_toString (rawDebt r)) (i32_toString (rawStake r))
     (i32_toString (rawSnapshotOfTotalRedistributedCollateral r))
     (i32_toString (rawSnapshotOfTotalRedistributedDebt r))) <$> raw t.

Definition userFields (s : DB) (address : string) : option (option TroveRawFields) :=
  (fun u => user_trove u ≫= fun id => troves s !! id ≫= troveFields) <$> users s !! address.

Definition sortKey (t : Trove) : option Z := raw t ≫= collateralRatioSortKey.

(** [a] may come before [b]. *)
Definition before (d : OrderDirection) (a b : Trove) : Prop :=
  forall ka kb, sortKey a = Some ka -> sortKey b = Some kb ->
    match d with asc => ka <= kb | desc => kb <= ka end.

(** The node answers from [s]; a page of Troves is one of a sorted list of the open ones. *)
Record serves (client : ApolloClient) (s : DB) : Prop := {
  serves_global : client _ _ queryGlobal tt = Ok (globalFields s);
  serves_trove address :
    client _ _ queryTroveWithoutRewards address = Ok (userFields s address);
  serves_troves d : exists sorted,
    Permutation sorted (List.filter (fun t => TroveStatus_eqb (status t) open)
      (map snd (map_to_list (troves s)))) /\
    StronglySorted (before d) sorted /\
    forall first skip, 0 <= first <= 1000 -> 0 <= skip <= 5000 ->
      client _ _ queryTroves (mkTrovesVariables (JInt first) (JInt skip) d) =
        Ok (omap troveFields (take (Z.to_nat first) (drop (Z.to_nat skip) sorted)));
}.

End Node.
End Node.

(** ** The abstract indexer *)
Module Announced.

Record t : Type := mk {
  price : option Z;
  totals : Z * Z;
  troves : gmap string (TroveStatus * RawTrove);
}.

Definition init : t := mk None (0, 0) ∅.

(** What is recorded of an announced Trove; a share of later redistributions is measured from the
    totals of the moment. *)
Definition record (totals : Z * Z) (coll debt stake : Z) : RawTrove :=
  if stake =? 0 then mkRaw coll debt 0 0 0 None
  else mkRaw coll debt stake (fst totals) (snd totals)
         (Some (Z.quot (debt * 10 ^ 18) stake - snd totals)).

(** An announcement that changes neither collateral nor debt is not recorded. *)
Definition same (coll debt : Z) (o : option (TroveStatus * RawTrove)) : bool :=
  match o with
  | Some (_, r) => (coll =? rawCollateral r) && (debt =? rawDebt r)
  | None => (coll =? 0) && (debt =? 0)
  end.

Definition update (closed : TroveStatus) (b : string) (coll debt stake : Z) (a : t) : t :=
  if same coll debt (troves a !! b) then a
  else mk (price a) (totals a)
         (<[b := (if coll =? 0 then closed else open, record (totals a) coll debt stake)]> (troves a)).

(** Collateral and debt with their shares of the redistributions so far. *)
Definition accrued (totals : Z * Z) (r : RawTrove) : Z * Z :=
  (rawCollateral r +
     Z.quot ((fst totals - rawSnapshotOfTotalRedistributedCollateral r) * rawStake r) (10 ^ 18),
   rawDebt r +
     Z.quot ((snd totals - rawSnapshotOfTotalRedistributedDebt r) * rawStake r) (10 ^ 18)).

Definition closedBy (op : TroveManagerOperation) : TroveStatus :=
  match op with
  | applyPendingRewards => closedByOwner
  | liquidateInNormalMode | liquidateInRecoveryMode => closedByLiquidation
  | redeemCollateral => closedByRedemption
  end.

Definition step (e : ContractEvent) (a : t) : t :=
  match e with
  | EvBorrowerTroveUpdated b coll debt stake _ => update closedByOwner b coll debt stake a
  | EvTroveUpdated b coll debt stake op => update (closedBy op) b coll debt stake a
  | EvTroveLiquidated b =>
      match troves a !! b with
      | Some (_, r) =>
          let '(coll, debt) := accrued (totals a) r in update closedByOwner b coll debt 0 a
      | None => a
      end
  | EvLTermsUpdated c d => mk (price a) (c, d) (troves a)
  | EvLastGoodPrice p => mk (Some p) (totals a) (troves a)
  | _ => a
  end.

Definition small (z : Z) : Prop := 0 <= z < 10 ^ 34.

(** The amounts the contracts announce are not negative, and below the precision of decimals; what
    is redistributed only grows. *)
Definition sane (a : t) (e : ContractEvent) : Prop :=
  match e with
  | EvBorrowerTroveUpdated _ coll debt stake _ | EvTroveUpdated _ coll debt stake _ =>
      small coll /\ small debt /\ 0 <= stake
  | EvTroveLiquidated b =>
      forall st r, troves a !! b = Some (st, r) ->
      small (fst (accrued (totals a) r)) /\ small (snd (accrued (totals a) r))
  | EvLTermsUpdated c d => fst (totals a) <= c /\ snd (totals a) <= d
  | EvLastGoodPrice p => small p
  | _ => True
  end.

(** Events announced, and the database the indexer has then. *)
Inductive ran {G : GraphTs} : t -> DB -> Prop :=
| ran_nil : ran init emptyDB
| ran_step a s event e s' :
    ran a s -> sane a e -> handle event e s = (Ok tt, s') -> ran (step e a) s'.

End Announced.

(** ** What the handlers do to what the client reads *)
Module ReadFrames.
Import Node.

Section Views.
Context {G : GraphTs}.

Definition totalsOf (s : DB) : Z * Z :=
  (rawTotalRedistributedCollateral (globalOf s), rawTotalRedistributedDebt (globalOf s)).
Definition priceOf (s : DB) : option BigDecimal := currentStateOf s ≫= ss_price.
Definition links (s : DB) : gmap string string := omap user_trove (users s).

(** The Troves, the totals of redistributions, the price, and whose Trove is whose. *)
Definition readView (s : DB) := (troves s, totalsOf s, priceOf s, links s).

Lemma links_saveUser id x s :
  links s !! id = user_trove x -> links (saveUser id x s) = links s.
Proof.
  intros H. unfold links in *. cbn. destruct (user_trove x) as [i|] eqn:E.
  - rewrite (omap_insert_Some _ _ _ _ i E). by apply insert_id.
  - rewrite omap_insert_None by done. by apply delete_id.
Qed.

Lemma read_saveUser id x s :
  links s !! id = user_trove x -> readView (saveUser id x s) = readView s.
Proof. intros H. unfold readView. by rewrite links_saveUser. Qed.

Lemma read_modifyGlobal f :
  (forall g, totalsOf (saveGlobal (f g) emptyDB) = totalsOf (saveGlobal g emptyDB)) ->
  (forall g, currentSystemState (f g) = currentSystemState g) -> frame readView (modifyGlobal f).
Proof.
  intros H1 H2 s. specialize (H1 (globalOf s)). specialize (H2 (globalOf s)). cbn in *.
  unfold readView, totalsOf, priceOf, currentStateOf in *. cbn in *. by rewrite H1, H2.
Qed.
Lemma read_increaseCounter key : frame readView (increaseCounter key).
Proof. by intros s. Qed.
Lemma read_swap v : frame readView (swapTmpDepositUpdate v).
Proof. by intros s. Qed.

Lemma getUser_read u s x s' :
  getUser u s = (Ok x, s') -> readView s' = readView s /\ links s' !! u = user_trove x.
Proof.
  unfold getUser. intros (o & s1 & [= <- <-] & H)%st_bind_inv.
  destruct (users s !! u) as [y|] eqn:E.
  - injection H as <- <-. split; [done|]. unfold links. by rewrite lookup_omap, E.
  - injection H as <- <-. assert (links s !! u = None) as Hl
      by (unfold links; by rewrite lookup_omap, E).
    rewrite read_saveUser by done. split; [done|]. by rewrite links_saveUser.
Qed.
Lemma read_getUser u : frame readView (getUser u).
Proof.
  intros s. destruct (getUser u s) as [ [x|m] s'] eqn:E; [by apply getUser_read in E as [? _]|].
  exfalso. unfold getUser, loadBy, st_bind, st_gets in E. by destruct (users s !! u).
Qed.

(** The price after a change of system state is that of the new state. *)
Lemma bump_sets x s :
  readView (snd (bumpSystemState x s)) = (troves s, totalsOf s, ss_price x, links s).
Proof.
  unfold readView, totalsOf, priceOf, currentStateOf. cbn. by rewrite lookup_insert_eq.
Qed.
Lemma bump_read x s : ss_price x = priceOf s -> readView (snd (bumpSystemState x s)) = readView s.
Proof. intros H. by rewrite bump_sets, H. Qed.

Lemma getCurrent_read s :
  exists p s', getCurrentSystemState s = (Ok p, s') /\ readView s' = readView s /\
    ss_price (snd p) = priceOf s.
Proof.
  unfold getCurrentSystemState, getGlobal, loadBy, st_bind, st_gets, st_ret.
  destruct (currentSystemState (globalOf s)) as [id|] eqn:E.
  - destruct (systemStates s !! id) as [x|] eqn:E'; do 2 eexists.
    + split; [reflexivity|]. split; [done|]. unfold priceOf, currentStateOf. by rewrite E; cbn; rewrite E'.
    + split; [reflexivity|]. unfold readView, priceOf, currentStateOf. cbn.
      rewrite lookup_insert_eq, E. cbn. by rewrite E'.
  - do 2 eexists. split; [reflexivity|]. unfold readView, priceOf, currentStateOf. cbn.
    by rewrite lookup_insert_eq, E.
Qed.

Lemma currentState_save id x s :
  currentSystemState (globalOf s) = Some id -> currentStateOf (saveSystemState id x s) = Some x.
Proof.
  intros H. unfold currentStateOf. change (globalOf (saveSystemState id x s)) with (globalOf s).
  rewrite H. cbn. apply lookup_insert_eq.
Qed.

Lemma getCurrent_id s p s' :
  getCurrentSystemState s = (Ok p, s') -> currentSystemState (globalOf s') = Some (fst p).
Proof.
  unfold getCurrentSystemState, getGlobal, loadBy, st_bind, st_gets, st_ret.
  destruct (currentSystemState (globalOf s)) as [id|] eqn:E; [destruct (systemStates s !! id)|];
    intros [= <- <-]; done.
Qed.

(** A step that is given the current system state, and may rely on its price. *)
Lemma read_withState {A} (k : string * SystemState -> St DB A) :
  (forall p s, ss_price (snd p) = priceOf s -> readView (snd (k p s)) = readView s) ->
  frame readView (st_bind getCurrentSystemState k).
Proof.
  intros H s. destruct (getCurrent_read s) as (p & s' & H1 & H2 & H3).
  rewrite (st_bind_Ok _ _ _ _ _ H1), <- H2. apply H. rewrite H3. unfold readView in H2. congruence.
Qed.

End Views.

Create HintDb read.
#[export] Hint Constants Opaque : read.
#[export] Hint Resolve read_increaseCounter read_swap read_getUser : read.

(** Runs through a handler, each step by a rule or by a lemma of the database. *)
Ltac read_steps :=
  repeat first
    [ solve [eauto 2 with read nocore]
    | simple apply frame_bind; [|intros ?]
    | apply frame_ret | apply frame_throw | apply frame_gets | apply frame_lift
    | simple apply read_modifyGlobal; by intros []
    | apply frame_modify; intros ?; reflexivity
    | match goal with
      | |- frame _ (let '(_, _) := ?p in _) => destruct p
      | |- frame _ (match ?x with _ => _ end) => destruct x
      end ].

Section Helpers.
Context {G : GraphTs}.

Lemma read_getTransaction e : frame readView (getTransaction e).
Proof. unfold getTransaction, loadBy, getTransactionSequenceNumber. read_steps. Qed.
Lemma read_getCurrentSystemState : frame readView getCurrentSystemState.
Proof. intros s. destruct (getCurrent_read s) as (p & s' & -> & H & _). exact H. Qed.

End Helpers.
#[export] Hint Resolve read_getTransaction read_getCurrentSystemState : read.

Section Changes.
Context {G : GraphTs}.

Lemma read_getCurrentPrice : frame readView getCurrentPrice.
Proof. unfold getCurrentPrice. read_steps. Qed.
Lemma read_beginChange e : frame readView (beginChange e).
Proof. unfold beginChange, getChangeSequenceNumber. read_steps. Qed.
Lemma read_finishChange b : frame readView (finishChange b).
Proof. unfold finishChange. read_steps. Qed.
Lemma read_byDeposit op c : frame readView (updateSystemStateByStabilityDepositChange op c).
Proof.
  apply read_withState. intros [id x] s H. cbv zeta. apply bump_read. by case (_ || _).
Qed.
Lemma read_byCollSurplus c : frame readView (updateSystemStateByCollSurplusChange c).
Proof. apply read_withState. intros [id x] s H. by apply bump_read. Qed.

(** The totals after a change of a Trove keep the price. *)
Lemma totalsAfter_price tc x s r s' :
  totalsAfter tc x s = (r, s') -> s' = s /\ forall y, r = Ok y -> ss_price y = ss_price x.
Proof.
  unfold totalsAfter. cbv zeta. case (_ || _).
  { intros [= <- <-]. split; [done|]. by intros y [= <-]. }
  case (isLiquidation _); [|intros [= <- <-]; split; [done|]; by intros y [= <-] ].
  assert (forall (o : bool) z a b, ss_price z = ss_price x ->
    (if o then st_ret (tryToOffsetWithTokensFromStabilityPool z a b) else st_ret z) s = (r, s') ->
    s' = s /\ forall y, r = Ok y -> ss_price y = ss_price x) as H.
  { intros [] z a b Hz [= <- <-]; (split; [done|]); intros y [= <-]; [|done].
    unfold tryToOffsetWithTokensFromStabilityPool. case (bd_le _ _); [done|]. by case (bd_lt _ _). }
  case (negb _); cbn; [by apply (H true)|]. destruct (collateralRatioBefore tc); cbn; [by apply H|].
  intros [= <- <-]. split; [done|]. by intros y [=].
Qed.

Lemma read_byTrove tc : frame readView (updateSystemStateByTroveChange tc).
Proof.
  apply read_withState. intros [id x] s H. unfold st_bind.
  destruct (totalsAfter tc x s) as [r s'] eqn:E. apply totalsAfter_price in E as [-> Hp].
  destruct r as [y|m]; [|done]. specialize (Hp y eq_refl). cbn in H.
  destruct (ss_price y) as [p|] eqn:Ey; [|done]. apply bump_read. cbn. congruence.
Qed.

Lemma read_getCurrentLiquidation e : frame readView (getCurrentLiquidation e).
Proof.
  unfold getCurrentLiquidation, getGlobal, loadBy, getLiquidationSequenceNumber,
    setCurrentLiquidation. read_steps.
Qed.
Lemma read_getCurrentRedemption e : frame readView (getCurrentRedemption e).
Proof.
  unfold getCurrentRedemption, getGlobal, loadBy, getRedemptionSequenceNumber,
    setCurrentRedemption. read_steps.
Qed.
Lemma read_setTroveStatus a b : frame readView (setTroveStatus a b).
Proof.
  unfold setTroveStatus. apply frame_bind; [|intros ?; apply frame_ret].
  case (TroveStatus_eqb b a); [apply frame_ret|].
  destruct b, a; first [apply frame_ret | apply read_modifyGlobal; by intros [] ].
Qed.

End Changes.
#[export] Hint Resolve read_getCurrentPrice read_beginChange read_finishChange read_byDeposit
  read_byCollSurplus read_byTrove read_getCurrentLiquidation read_getCurrentRedemption
  read_setTroveStatus : read.

Section Handlers.
Context {G : GraphTs}.

(** A frame where a user's link is known. *)
Definition linked {A} (u : string) (l : option string) (e : St DB A) : Prop :=
  forall s, links s !! u = l -> readView (snd (e s)) = readView s.

Lemma linked_frame {A} u l (e : St DB A) : frame readView e -> linked u l e.
Proof. intros H s _. apply H. Qed.
Lemma linked_bind {A B} u l (e : St DB A) (k : A -> St DB B) :
  frame readView e -> (forall a, linked u l (k a)) -> linked u l (st_bind e k).
Proof.
  intros He Hk s Hl. unfold st_bind. pose proof (He s) as H. destruct (e s) as [ [a|m] s']; [|done].
  cbn in H. rewrite <- H. apply Hk. unfold readView in H. congruence.
Qed.
Lemma linked_save u x l : user_trove x = l -> linked u l (st_modify (saveUser u x)).
Proof. intros <- s Hl. by apply read_saveUser. Qed.

(** A step that is given a user, and may rely on its link. *)
Lemma read_withUser {A} u (k : User -> St DB A) :
  (forall x, linked u (user_trove x) (k x)) -> frame readView (st_bind (getUser u) k).
Proof.
  intros H s. unfold st_bind. pose proof (read_getUser u s) as Hf.
  destruct (getUser u s) as [ [x|m] s1] eqn:Hu; [|done].
  apply getUser_read in Hu as [Hv Hl]. rewrite <- Hv. by apply H.
Qed.

Lemma read_updateUserClaimColl e u c : frame readView (updateUserClaimColl e u c).
Proof.
  apply read_withUser. intros x. cbv zeta. case (bd_eq _ _); [apply linked_frame, frame_ret|].
  do 4 (apply linked_bind; [read_steps|intros ?]). by apply linked_save.
Qed.

Lemma read_finishCurrentLiquidation e a b c d :
  frame readView (finishCurrentLiquidation e a b c d).
Proof. unfold finishCurrentLiquidation, setCurrentLiquidation. read_steps. Qed.
Lemma read_finishCurrentRedemption e a b c d : frame readView (finishCurrentRedemption e a b c d).
Proof. unfold finishCurrentRedemption. cbv zeta. read_steps. Qed.
Lemma read_borrowingFee f : frame readView (handleTHUSDBorrowingFeePaid f).
Proof.
  unfold handleTHUSDBorrowingFeePaid, setBorrowingFeeOfLastTroveChange,
    getLastChangeSequenceNumber, getGlobal, loadBy, increaseTotalBorrowingFeesPaid. read_steps.
Qed.
Lemma read_updateAllowance e o sp v : frame readView (updateAllowance e o sp v).
Proof. unfold updateAllowance, getTokenAllowance, loadBy. cbv zeta. read_steps. Qed.
Lemma read_changeBalance t o f : frame readView (changeBalance t o f).
Proof. unfold changeBalance, getTokenBalance, loadBy. read_steps. Qed.
Lemma read_getToken t : frame readView (getToken t).
Proof. unfold getToken, createToken, loadBy. cbv zeta. read_steps. Qed.
Lemma read_getDeposit u : frame readView (getStabilityDeposit u).
Proof.
  unfold getStabilityDeposit. apply frame_bind; [apply frame_gets|intros [d|] ]; [apply frame_ret|].
  apply read_withUser. intros x s Hl. cbn. by apply read_saveUser.
Qed.
Lemma read_byOperation e u d op n g :
  frame readView (updateStabilityDepositByOperation e u d op n g).
Proof. unfold updateStabilityDepositByOperation. cbv zeta. read_steps. Qed.

End Handlers.
#[export] Hint Resolve read_updateUserClaimColl read_finishCurrentLiquidation
  read_finishCurrentRedemption read_borrowingFee read_updateAllowance read_changeBalance
  read_getToken read_getDeposit read_byOperation : read.

Section Deposits.
Context {G : GraphTs}.

Lemma read_updateDeposit e u n : frame readView (updateStabilityDeposit e u n).
Proof. unfold updateStabilityDeposit. cbv zeta. read_steps. Qed.
Lemma read_withdrawGain e u c l :
  frame readView (withdrawCollateralGainFromStabilityDeposit e u c l).
Proof. unfold withdrawCollateralGainFromStabilityDeposit. cbv zeta. read_steps. Qed.

End Deposits.
#[export] Hint Resolve read_updateDeposit read_withdrawGain : read.

(** The events that change what a client reads. *)
Definition isRead (e : ContractEvent) : bool :=
  match e with
  | EvBorrowerTroveUpdated _ _ _ _ _ | EvTroveUpdated _ _ _ _ _ | EvTroveLiquidated _
  | EvLTermsUpdated _ _ | EvLastGoodPrice _ => true
  | _ => false
  end.

Lemma read_handle {G : GraphTs} event e : isRead e = false -> frame readView (handle event e).
Proof.
  intros H. destruct e; cbn [handle]; try discriminate H;
    unfold handleLiquidation, handleRedemption, handleUserDepositChanged,
      handleCollateralGainWithdrawn, handleCollSurplusBalanceUpdated, handleTokenTransfer,
      updateBalance, handleTokenApproval; cbv zeta; read_steps.
Qed.

End ReadFrames.

(** ** The indexer refines the abstract one *)
Module ClientFacts.
Import Node ReadFrames.

Section Simulation.
Context {G : GraphTs}.

Lemma read_bind_inv {A B} (e : St DB A) (k : A -> St DB B) s b s'' :
  frame readView e -> st_bind e k s = (Ok b, s'') ->
  exists a s', readView s' = readView s /\ k a s' = (Ok b, s'').
Proof.
  intros He H. apply (frame_bind_inv readView) in H as (a & s' & _ & HV & H); [|done]. eauto.
Qed.

Lemma getTrove_read u s t s' :
  getTrove u s = (Ok t, s') ->
  (troves s !! u = Some t /\ s' = s) \/
  (troves s !! u = None /\ t = mkTrove u open DECIMAL_ZERO DECIMAL_ZERO None /\
   readView s' = (troves s, totalsOf s, priceOf s, <[u := u]> (links s))).
Proof.
  unfold getTrove. intros (o & s1 & [= <- <-] & H)%st_bind_inv.
  destruct (troves s !! u) as [x|] eqn:E; [injection H as <- <-; by left|]. right.
  apply st_bind_inv in H as (x & s1 & Hu & H). apply getUser_read in Hu as [Hv _].
  cbn in H. injection H as <- <-. split; [done|]. split; [done|].
  transitivity (troves s1, totalsOf s1, priceOf s1, <[u := u]> (links s1));
    [|unfold readView in Hv; congruence].
  unfold readView, links. cbn. by rewrite (omap_insert_Some _ _ _ _ u).
Qed.

Lemma setTroveStatus_ret before after s st s' :
  setTroveStatus before after s = (Ok st, s') -> st = after.
Proof. unfold setTroveStatus. by intros (u & s1 & _ & [= <- _])%st_bind_inv. Qed.

Lemma updateTrove_read event op b coll debt' stake s s' :
  updateTrove event op b coll debt' stake s = (Ok tt, s') ->
  exists t s1, getTrove b s = (Ok t, s1) /\
    (if bd_eq (decimalize coll) (collateral t) && bd_eq (decimalize debt') (debt t) then s' = s1
     else exists s2, readView s2 = readView s1 /\
       s' = saveTrove b (mkTrove (trove_owner t) (statusAfter op coll) (decimalize coll)
              (decimalize debt') (Some (rawAfter (globalOf s) coll debt' stake))) s2).
Proof.
  unfold updateTrove. cbv zeta.
  intros (g & s0 & [= <- <-] & H)%st_bind_inv. apply st_bind_inv in H as (t & s1 & H1 & H).
  exists t, s1. split; [exact H1|]. destruct (_ && _); [by injection H as <-|].
  do 7 (apply read_bind_inv in H as (? & ? & ? & H); [|read_steps]).
  apply st_bind_inv in H as (st & s3 & Hst & H). injection H as <-.
  pose proof (setTroveStatus_ret _ _ _ _ _ Hst) as ->.
  apply (frame_run readView) in Hst; [|apply read_setTroveStatus].
  exists s3. split; [congruence|done].
Qed.

(** The database's Trove for a recorded one. *)
Definition troveOf (b : string) (x : TroveStatus * RawTrove) : Trove :=
  mkTrove b (fst x) (decimalize (rawCollateral (snd x))) (decimalize (rawDebt (snd x)))
    (Some (snd x)).

(** What holds of the fields recorded. *)
Definition recordOk (totals : Z * Z) (r : RawTrove) : Prop :=
  Announced.small (rawCollateral r) /\ Announced.small (rawDebt r) /\ 0 <= rawStake r /\
  0 <= rawSnapshotOfTotalRedistributedCollateral r <= fst totals /\
  0 <= rawSnapshotOfTotalRedistributedDebt r <= snd totals /\
  forall key, collateralRatioSortKey r = Some key -> rawStake r <> 0 /\
    key = Z.quot (rawDebt r * 10 ^ 18) (rawStake r) - rawSnapshotOfTotalRedistributedDebt r.

Record sim (a : Announced.t) (v : gmap string Trove * (Z * Z) * option BigDecimal *
    gmap string string) : Prop := {
  sim_troves b : v.1.1.1 !! b = troveOf b <$> Announced.troves a !! b;
  sim_totals : v.1.1.2 = Announced.totals a;
  sim_price : v.1.2 = decimalize <$> Announced.price a;
  sim_links b i : v.2 !! b = Some i -> i = b;
  sim_linked b : is_Some (Announced.troves a !! b) -> v.2 !! b = Some b;
  sim_records b st r : Announced.troves a !! b = Some (st, r) ->
    recordOk (Announced.totals a) r;
  sim_nonneg : 0 <= fst (Announced.totals a) /\ 0 <= snd (Announced.totals a);
  sim_small : forall p, Announced.price a = Some p -> Announced.small p;
}.

Lemma sim_init : sim Announced.init (readView emptyDB).
Proof.
  constructor; cbn; try done; try (by intros b [x Hx]); intros b; rewrite lookup_empty; try done.
Qed.

Lemma record_ok totals coll debt stake :
  Announced.small coll -> Announced.small debt -> 0 <= stake -> 0 <= fst totals ->
  0 <= snd totals -> recordOk totals (Announced.record totals coll debt stake).
Proof.
  intros Hc Hd Hs H1 H2. unfold Announced.record, recordOk.
  destruct (Z.eqb_spec stake 0) as [->|Hne]; cbn.
  - do 2 (split; [done|]). do 3 (split; [lia|]). by intros key [=].
  - do 3 (split; [done|]). do 2 (split; [lia|]). by intros key [= <-].
Qed.

Lemma rawAfter_record s coll debt stake :
  rawAfter (globalOf s) coll debt stake = Announced.record (totalsOf s) coll debt stake.
Proof. unfold rawAfter, Announced.record. by destruct (Z.eqb_spec stake 0) as [->|_]. Qed.

Context {N : GraphNode G} {BN : BigNumberOps} {L : GraphTsLaws G} {NL : GraphNodeLaws G}.

(** Whether an announcement is recorded, decimals compared. *)
Lemma same_decimals a s b coll debt' t s1 :
  sim a (readView s) -> Announced.small coll -> Announced.small debt' ->
  getTrove b s = (Ok t, s1) ->
  bd_eq (decimalize coll) (collateral t) && bd_eq (decimalize debt') (debt t) =
  Announced.same coll debt' (Announced.troves a !! b).
Proof.
  intros Hs Hc Hd Ht. pose proof (sim_troves _ _ Hs b) as Hb. cbn in Hb.
  apply getTrove_read in Ht as [ [Ht ->]|(Ht & -> & _)]; rewrite Ht in Hb.
  - destruct (Announced.troves a !! b) as [ [st r]|] eqn:E; [|done]. injection Hb as ->. cbn.
    destruct (sim_records _ _ Hs b st r E) as (Hrc & Hrd & _).
    apply eq_true_iff_eq. rewrite !andb_true_iff, !Z.eqb_eq. unfold decimalize, DECIMAL_SCALING_FACTOR.
    by rewrite !scale_inj.
  - destruct (Announced.troves a !! b) as [x|]; [done|]. cbn. apply eq_true_iff_eq.
    rewrite !andb_true_iff, !Z.eqb_eq. unfold decimalize, DECIMAL_SCALING_FACTOR, DECIMAL_ZERO.
    by rewrite !divDecimal_zero.
Qed.

(** Looking up a Trove at most links its owner. *)
Lemma sim_getTrove a s b t s1 :
  sim a (readView s) -> getTrove b s = (Ok t, s1) ->
  sim a (readView s1) /\ trove_owner t = b /\ links s1 !! b = Some b.
Proof.
  intros Hs Ht. pose proof (sim_troves _ _ Hs b) as Hb. cbn in Hb.
  apply getTrove_read in Ht as [ [Ht ->]|(Ht & -> & HV)]; rewrite Ht in Hb.
  - destruct (Announced.troves a !! b) as [x|] eqn:E; [|done]. injection Hb as ->.
    split; [done|]. split; [done|]. apply (sim_linked _ _ Hs). by rewrite E.
  - split; [|split; [done|] ].
    + rewrite HV. destruct Hs as [H0 H1 H2 H3 H4 H5 H6 H7]. constructor; cbn in *; try done.
      * intros b' i [ [<- <-]|[_ Hi] ]%lookup_insert_Some; [done|]. by apply H3.
      * intros b' Hb'. destruct (decide (b = b')) as [<-|Hne];
          [apply lookup_insert_eq|rewrite lookup_insert_ne by done; by apply H4].
    + pose proof (f_equal snd HV) as Hlk. cbn in Hlk. rewrite Hlk. apply lookup_insert_eq.
Qed.

Lemma sim_update a s event op closed b coll debt' stake s' :
  sim a (readView s) -> Announced.small coll -> Announced.small debt' -> 0 <= stake ->
  (forall c, statusAfter op c = if c =? 0 then closed else open) ->
  updateTrove event op b coll debt' stake s = (Ok tt, s') ->
  sim (Announced.update closed b coll debt' stake a) (readView s').
Proof.
  intros Hs Hc Hd Hst Hop H. apply updateTrove_read in H as (t & s1 & Ht & H).
  rewrite (same_decimals a s b coll debt' t s1 Hs Hc Hd Ht) in H. unfold Announced.update.
  destruct (sim_getTrove a s b t s1 Hs Ht) as (Hs1 & Ho & Hl).
  destruct (Announced.same _ _ _); [by subst s'|]. destruct H as (s2 & HV & ->).
  rewrite <- HV in Hs1. rewrite rawAfter_record, Ho, Hop.
  pose proof (sim_totals _ _ Hs) as Htot. cbn in Htot. rewrite Htot.
  destruct Hs1 as [Htr H1 H2 H3 H4 H5 H6 H7]. constructor; cbn in *; try done.
  - intros b'. destruct (decide (b = b')) as [<-|Hne].
    + rewrite !lookup_insert_eq. cbn. unfold troveOf, Announced.record. cbn.
      by destruct (stake =? 0).
    + by rewrite !lookup_insert_ne.
  - intros b' [x [ [<- _]|[_ Hx] ]%lookup_insert_Some]; [|by apply H4].
    pose proof (f_equal snd HV) as Hlk. cbn in Hlk.
    change (links s2 !! b = Some b). by rewrite Hlk.
  - intros b' st r [ [_ [= _ <-] ]|[_ Hx] ]%lookup_insert_Some; [|by eapply H5].
    destruct H6. by apply record_ok.
Qed.

(** What setting the price does. *)
Lemma updatePrice_read event p s s' :
  updatePrice event p s = (Ok tt, s') ->
  exists q, readView s' = (troves s, totalsOf s, Some q, links s) /\
    (q = decimalize p \/ (priceOf s = Some q /\ bd_eq (decimalize p) q = true)).
Proof.
  unfold updatePrice. cbv zeta. intros H. destruct (getCurrent_read s) as ([id x] & s1 & H1 & HV & Hp).
  pose proof (getCurrent_id s (id, x) s1 H1) as Hid. cbn in Hp, Hid.
  rewrite (st_bind_Ok _ _ _ _ _ H1) in H. destruct (ss_price x) as [old|] eqn:E.
  - destruct (bd_eq (decimalize p) old) eqn:Eq; cbn in H.
    + injection H as <-. exists old. split; [rewrite HV; unfold readView; by rewrite <- Hp|].
      right. by rewrite <- Hp.
    + apply read_bind_inv in H as (begun & s2 & HV2 & H); [|read_steps].
      apply st_bind_inv in H as (u & s3 & Hb & H).
      apply read_bind_inv in H as (c & s4 & HV4 & H); [|read_steps]. injection H as <-.
      exists (decimalize p). split; [|by left].
      change (readView s4 = (troves s, totalsOf s, Some (decimalize p), links s)). rewrite HV4.
      pose proof (bump_sets (setPrice (decimalize p) x) s2) as Hbs. rewrite Hb in Hbs. cbn in Hbs.
      rewrite Hbs. unfold readView in HV, HV2. congruence.
  - injection H as <-. exists (decimalize p). split; [|by left].
    transitivity (troves s1, totalsOf s1, Some (decimalize p), links s1);
      [|unfold readView in HV; congruence].
    unfold readView, priceOf. by rewrite currentState_save.
Qed.

Lemma sim_step a s event e s' :
  sim a (readView s) -> Announced.sane a e -> handle event e s = (Ok tt, s') ->
  sim (Announced.step e a) (readView s').
Proof.
  intros Hs Hw H. destruct (isRead e) eqn:He.
  2: { rewrite (frame_run readView _ _ _ _ (read_handle event e He) H). by destruct e. }
  destruct e; try discriminate He; cbn [handle] in H; cbn in Hw; cbn [Announced.step].
  - destruct Hw as (Hc & Hd & Hst). eapply sim_update; [done..| |exact H].
    intros c. unfold statusAfter. by destruct (c =? 0), operation.
  - destruct Hw as (Hc & Hd & Hst). eapply sim_update; [done..| |exact H].
    intros c. unfold statusAfter. by destruct (c =? 0), _operation.
  - apply st_bind_inv in H as (g & s1 & [= <- <-] & H).
    apply st_bind_inv in H as (t & s1 & Ht & H). pose proof (sim_troves _ _ Hs _borrower) as Hb.
    cbn in Hb. apply getTrove_read in Ht as [ [Ht ->]|(_ & -> & _)]; [|discriminate H].
    rewrite Ht in Hb.
    destruct (Announced.troves a !! _borrower) as [ [st r]|] eqn:E; [|done]. injection Hb as ->.
    cbn [raw troveOf snd] in H. pose proof (sim_totals _ _ Hs) as Htot. cbn in Htot.
    destruct (Hw st r eq_refl) as [Hc Hd]. unfold Announced.accrued in *. cbn in Hc, Hd.
    rewrite <- Htot in *. eapply sim_update; [done|exact Hc|exact Hd|done| |exact H].
    intros c. unfold statusAfter. by destruct (c =? 0).
  - injection H as <-. destruct Hs as [H0 H1 H2 H3 H4 H5 H6 H7]. constructor; cbn in *; try done.
    + intros b st r Hb. destruct (H5 b st r Hb) as (? & ? & ? & ? & ? & ?).
      do 3 (split; [done|]). cbn. do 2 (split; [lia|]). done.
    + lia.
  - apply updatePrice_read in H as (q & HV & Hq). rewrite HV.
    destruct Hs as [H0 H1 H2 H3 H4 H5 H6 H7]. constructor; cbn in *; try done.
    + f_equal. destruct Hq as [->|[Hq Heq]]; [done|]. rewrite H2 in Hq.
      destruct (Announced.price a) as [old|]; [|done]. injection Hq as <-.
      apply scale_inj in Heq as ->; [done|done|by apply H7].
    + by intros p [= <-].
Qed.

Lemma ran_sim a s : Announced.ran a s -> sim a (readView s).
Proof.
  intros H. induction H as [|a s event e s' _ IH Hw H]; [apply sim_init|]. by eapply sim_step.
Qed.

End Simulation.

Section Client.
Context {G : GraphTs} {N : GraphNode G} {BN : BigNumberOps} {BNL : BigNumberLaws BN}
  {L : GraphTsLaws G} {NL : GraphNodeLaws G}.
Context (getAddress : string -> Res string).
Import Decimal DecimalFacts SubgraphLiquity.

Lemma decimalified_number z : 0 <= z -> decimalify (i32_toString z) = Ok (dec z).
Proof.
  intros Hz. unfold decimalify, fromBigNumberString, i32_toString.
  rewrite (proj2 (Z.ltb_ge z 0)) by done. destruct (JsFacts.dec_string_spec z Hz) as [Hd Hv].
  rewrite bn_from_digits, Hv by (done || apply JsFacts.dec_string_nonempty). by apply new_ok.
Qed.

(** A recorded Trove as the client makes it. *)
Definition readTrove (owner : string) (st : TroveStatus) (r : RawTrove) :
    TroveWithPendingRedistribution.t :=
  TroveWithPendingRedistribution.new owner (userStatus st) (Some (dec (rawCollateral r)))
    (Some (dec (rawDebt r))) (Some (dec (rawStake r)))
    (Some (Trove.mk (dec (rawSnapshotOfTotalRedistributedCollateral r))
                    (dec (rawSnapshotOfTotalRedistributedDebt r)))).

Lemma troveFromRawFields_ok totals b st r :
  recordOk totals r ->
  (exists f, troveFields (troveOf b (st, r)) = Some f /\
     troveFromRawFields getAddress f =
       let! owner := getAddress b in Ok (readTrove owner st r)).
Proof.
  intros (Hc & Hd & Hs & H1 & H2 & _). eexists. split; [reflexivity|].
  unfold troveFromRawFields. cbn. destruct (getAddress b) as [owner|m]; [|done]. cbn.
  rewrite !decimalified_number by (done || apply Hc || apply Hd || lia). reflexivity.
Qed.

Lemma userFields_ok a s b :
  sim a (readView s) ->
  match Announced.troves a !! b with
  | Some x => userFields s b = Some (troveFields (troveOf b x))
  | None => userFields s b = None \/ userFields s b = Some None
  end.
Proof.
  intros Hs. pose proof (sim_troves _ _ Hs b) as Hb. cbn in Hb. unfold userFields.
  pose proof (sim_linked _ _ Hs b) as Hl. pose proof (sim_links _ _ Hs b) as Hl'.
  cbn in Hl, Hl'. unfold links in Hl, Hl'. rewrite lookup_omap in Hl, Hl'.
  destruct (Announced.troves a !! b) as [x|] eqn:E.
  - specialize (Hl (ex_intro _ x eq_refl)). destruct (users s !! b) as [u|]; [|done]. cbn in *.
    rewrite Hl. cbn. by rewrite Hb.
  - destruct (users s !! b) as [u|]; [|by left]. right. cbn in *. f_equal.
    destruct (user_trove u) as [i|]; [|done]. cbn. by rewrite (Hl' i eq_refl), Hb.
Qed.

(** [waitForBlock] ends with the first attempt that is answered. *)
Lemma waitForBlock_ends fuel attempt n k :
  waitForBlock fuel attempt n k =
    match List.find (fun i => res_ok (attempt i Z unit queryBlockNumberDummy n)) (seq k fuel) with
    | Some i => Some (S i)
    | None => None
    end.
Proof.
  revert k; induction fuel as [|fuel IH]; intros k; [done|].
  cbn [waitForBlock seq List.find]. unfold Query.get. cbn [Query.query blockNumberDummy].
  destruct (attempt k Z unit queryBlockNumberDummy n); cbn; [done|apply IH].
Qed.

Lemma totals_ok a s client :
  sim a (readView s) -> serves client s ->
  getTotalRedistributed client =
    Ok (Trove.mk (dec (fst (Announced.totals a))) (dec (snd (Announced.totals a)))).
Proof.
  intros Hs Hc. unfold getTotalRedistributed, Query.get. cbn [Query.query totalRedistributed].
  rewrite (serves_global _ _ Hc). cbn [res_bind Query.mapResult]. unfold globalFields.
  pose proof (sim_totals _ _ Hs) as Ht. cbn in Ht. pose proof (sim_nonneg _ _ Hs) as [H1 H2].
  unfold totalsOf, globalOf in Ht. destruct (globals s) as [g|]; cbn in *.
  - rewrite <- Ht in *. cbn in *. by rewrite !decimalified_number.
  - rewrite <- Ht. cbn. unfold Trove.empty. by rewrite ZERO_val.
Qed.

Lemma price_ok a s client :
  sim a (readView s) -> serves client s ->
  getPrice client = Ok (dec (default (200 * 10 ^ 18) (Announced.price a))).
Proof.
  intros Hs Hc. unfold getPrice, Query.get. cbn [Query.query price].
  rewrite (serves_global _ _ Hc). cbn [res_bind Query.mapResult]. unfold globalFields.
  assert (from (ofNumber "200") = Ok (dec (200 * 10 ^ 18))) as H200
    by (rewrite from_number; vm_compute; reflexivity).
  pose proof (sim_price _ _ Hs) as Hp. cbn in Hp. unfold priceOf in Hp.
  destruct (globals s) as [g|] eqn:Eg; cbn.
  2: { unfold currentStateOf, globalOf in Hp. rewrite Eg in Hp. cbn in Hp.
       by destruct (Announced.price a). }
  destruct (currentStateOf s) as [x|]; cbn in *; [|by destruct (Announced.price a)].
  rewrite Hp. destruct (Announced.price a) as [p|] eqn:Ep; [|done]. cbn.
  apply scale_text. by apply (sim_small _ _ Hs).
Qed.

Lemma share_dec c t snap stake_ :
  0 <= c -> 0 <= snap <= t -> 0 <= stake_ ->
  dadd (dec c) (dmul (dsub (dec t) (dec snap)) (dec stake_)) =
  dec (c + Z.quot ((t - snap) * stake_) (10 ^ 18)).
Proof.
  intros Hc Ht Hs. rewrite Z.quot_div_nonneg by nia.
  unfold dadd, dmul, dsub, dec. cbn [units]. f_equal. apply N2Z.inj.
  assert (0 <= (t - snap) * stake_ / 10 ^ 18) by (apply Z.div_pos; nia).
  rewrite N2Z.inj_add, N2Z.inj_div, N2Z.inj_mul, N2Z.inj_sub, !Z2N.id by lia.
  unfold SCALE. reflexivity.
Qed.

(** The share of a Trove that does not exist. *)
Lemma nonexistent_share b totals :
  TroveWithPendingRedistribution.applyRedistribution
    (TroveWithPendingRedistribution.new b UserTrove.nonExistent None None None None) totals =
  Ok (UserTrove.mk Trove.empty b UserTrove.nonExistent).
Proof.
  unfold TroveWithPendingRedistribution.applyRedistribution.
  rewrite TroveFacts.subtract_ok. cbn [res_bind]. rewrite TroveFacts.multiply_ok. cbn [res_bind].
  rewrite TroveFacts.tadd_ok. cbn. rewrite ZERO_val. unfold Trove.empty. rewrite ZERO_val.
  unfold TroveFacts.tadd, TroveFacts.tmultiply, dadd, dmul. cbn -[N.mul N.div].
  rewrite !N.mul_0_r. reflexivity.
Qed.

(** Applying redistributions gives what the contracts call the entire collateral and debt. *)
Lemma readTrove_accrued totals owner st r :
  recordOk totals r ->
  TroveWithPendingRedistribution.applyRedistribution (readTrove owner st r)
    (Trove.mk (dec (fst totals)) (dec (snd totals))) =
  Ok (UserTrove.mk (Trove.mk (dec (fst (Announced.accrued totals r)))
                      (dec (snd (Announced.accrued totals r)))) owner (userStatus st)).
Proof.
  intros (Hc & Hd & Hs & H1 & H2 & _). unfold TroveWithPendingRedistribution.applyRedistribution.
  rewrite TroveFacts.subtract_ok. cbn [res_bind]. rewrite TroveFacts.multiply_ok. cbn [res_bind].
  rewrite TroveFacts.tadd_ok. cbn [res_bind]. do 2 f_equal. unfold Announced.accrued. cbn [fst snd].
  rewrite <- !share_dec by (done || apply Hc || apply Hd). reflexivity.
Qed.

(** C29: a client reads what the events announced: whatever events the indexer has handled (of sane
    amounts), the total redistributed and the price are the last announced (a price of 200 before
    the first), and the Trove of an address, in whatever letter case, has the collateral, debt,
    stake and snapshot last recorded of it in the abstract indexer, or does not exist if none was;
    with pending redistributions it has the collateral and debt they have accrued to. *)
Theorem client_reads_announced a s client address :
  Announced.ran a s -> serves client s ->
  let b := toLowerCase address in
  getTotalRedistributed client =
    Ok (Trove.mk (dec (fst (Announced.totals a))) (dec (snd (Announced.totals a)))) /\
  getPrice client = Ok (dec (default (200 * 10 ^ 18) (Announced.price a))) /\
  match Announced.troves a !! b with
  | Some (st, r) =>
      getTroveBeforeRedistribution getAddress client (Some address) =
        (let! owner := getAddress b in Ok (readTrove owner st r)) /\
      getTrove getAddress client client (Some address) =
        (let! owner := getAddress b in
         Ok (UserTrove.mk (Trove.mk (dec (fst (Announced.accrued (Announced.totals a) r)))
                             (dec (snd (Announced.accrued (Announced.totals a) r))))
               owner (userStatus st)))
  | None =>
      getTroveBeforeRedistribution getAddress client (Some address) =
        Ok (TroveWithPendingRedistribution.new b UserTrove.nonExistent None None None None) /\
      getTrove getAddress client client (Some address) =
        Ok (UserTrove.mk Trove.empty b UserTrove.nonExistent)
  end.
Proof.
  intros Hs%ran_sim Hc b. split; [by apply (totals_ok a s)|]. split; [by apply (price_ok a s)|].
  unfold getTrove. rewrite (totals_ok a s client Hs Hc).
  assert (getTroveBeforeRedistribution getAddress client (Some address) =
    Query.mapResult (troveBeforeRedistribution getAddress) (userFields s b) b) as ->.
  { unfold getTroveBeforeRedistribution, Query.get. cbn [normalizeAddress res_bind Query.query
      troveBeforeRedistribution]. by rewrite (serves_trove _ _ Hc). }
  pose proof (userFields_ok a s b Hs) as Hu. cbn [Query.mapResult troveBeforeRedistribution].
  destruct (Announced.troves a !! b) as [ [st r]|] eqn:E.
  - pose proof (sim_records _ _ Hs b st r E) as Hr.
    destruct (troveFromRawFields_ok _ b st r Hr) as (f & Hf & Hf').
    rewrite Hu, Hf, Hf'. split; [done|]. destruct (getAddress b) as [owner|m]; [|done].
    cbn [res_bind]. by apply readTrove_accrued.
  - assert (forall P : option (option TroveRawFields) -> Prop,
      P None -> P (Some None) -> P (userFields s b)) as HP
      by (intros P HN HS; by destruct Hu as [->| ->]).
    apply HP; cbn [res_bind]; (split; [done|apply nonexistent_share]).
Qed.

(** *** Listings *)

(** Collateral and debt with their shares, per 10^18. *)
Definition collNow (totals : Z * Z) (r : RawTrove) : Z :=
  rawCollateral r * 10 ^ 18 + (fst totals - rawSnapshotOfTotalRedistributedCollateral r) * rawStake r.
Definition debtNow (totals : Z * Z) (r : RawTrove) : Z :=
  rawDebt r * 10 ^ 18 + (snd totals - rawSnapshotOfTotalRedistributedDebt r) * rawStake r.

(** Two Troves of the same collateral per stake, the first of a ratio not below the second's, up to
    a unit of debt per stake. *)
Definition ratioNotBelow (totals : Z * Z) (r r' : RawTrove) : Prop :=
  rawStake r <> 0 -> rawStake r' <> 0 -> 0 < collNow totals r' ->
  collNow totals r * rawStake r' = collNow totals r' * rawStake r ->
  collNow totals r' * debtNow totals r < collNow totals r * (debtNow totals r' + rawStake r').

Lemma sortKey_orders totals r r' key key' :
  recordOk totals r -> recordOk totals r' ->
  collateralRatioSortKey r = Some key -> collateralRatioSortKey r' = Some key' -> key <= key' ->
  ratioNotBelow totals r r'.
Proof.
  intros (_ & [Hd _] & Hs & _ & H1 & Hk) (_ & [Hd' _] & Hs' & _ & H2 & Hk') E E' Hle Hn Hn' Hc Heq.
  apply Hk in E as [_ ->]. apply Hk' in E' as [_ ->]. unfold debtNow.
  rewrite !Z.quot_div_nonneg in Hle by lia.
  pose proof (Z.mul_succ_div_gt (rawDebt r * 10 ^ 18) (rawStake r) ltac:(lia)) as Hq.
  pose proof (Z.mul_div_le (rawDebt r' * 10 ^ 18) (rawStake r') ltac:(lia)) as Hq'.
  set (q := rawDebt r * 10 ^ 18 / rawStake r) in *. set (q' := rawDebt r' * 10 ^ 18 / rawStake r') in *.
  set (x := snd totals - rawSnapshotOfTotalRedistributedDebt r) in *.
  set (x' := snd totals - rawSnapshotOfTotalRedistributedDebt r') in *.
  assert (q + x <= q' + x') as Hle' by lia.
  assert (rawDebt r * 10 ^ 18 + x * rawStake r < (q' + x' + 1) * rawStake r) as A by nia.
  assert ((q' + x' + 1) * rawStake r' <= rawDebt r' * 10 ^ 18 + x' * rawStake r' + rawStake r') as B
    by nia.
  set (d := rawDebt r * 10 ^ 18 + x * rawStake r) in *.
  set (d' := rawDebt r' * 10 ^ 18 + x' * rawStake r' + rawStake r') in *.
  assert (d * rawStake r' < d' * rawStake r) as C by nia.
  apply (Z.mul_lt_mono_pos_r (rawStake r')); [lia|].
  apply (Z.mul_lt_mono_pos_l _ _ _ Hc) in C. apply (f_equal (Z.mul d')) in Heq. lia.
Qed.

Lemma Permutation_filter {A} (f : A -> bool) l l' :
  Permutation l l' -> Permutation (List.filter f l) (List.filter f l').
Proof. induction 1; cbn; repeat case_match; eauto using Permutation. Qed.
Lemma StronglySorted_lookup {A} (R : A -> A -> Prop) l i j a b :
  StronglySorted R l -> (i < j)%nat -> l !! i = Some a -> l !! j = Some b -> R a b.
Proof.
  intros H. revert i j. induction H as [|x l _ IH Hx]; intros i [|j] Hij Ha Hb; [done|done|lia|].
  destruct i as [|i]; [|eapply IH; [|exact Ha|exact Hb]; lia].
  injection Ha as <-. by eapply Forall_lookup in Hx.
Qed.
Lemma StronglySorted_map_inv {A B} (R : B -> B -> Prop) (f : A -> B) l :
  StronglySorted R (map f l) -> StronglySorted (fun a b => R (f a) (f b)) l.
Proof.
  induction l as [|x l IH]; intros H; [constructor|]. inversion H as [|? ? H1 H2]; subst.
  constructor; [by apply IH|]. by rewrite Forall_map in H2.
Qed.

Definition entryTrove (e : string * (TroveStatus * RawTrove)) : Trove := troveOf (fst e) (snd e).
Definition isOpen (e : string * (TroveStatus * RawTrove)) : bool :=
  TroveStatus_eqb (fst (snd e)) open.

(** The open Troves of the database are those recorded. *)
Lemma open_entries a s :
  sim a (readView s) ->
  Permutation (List.filter (fun t => TroveStatus_eqb (status t) open)
                 (map snd (map_to_list (Subgraph.troves s))))
    (map entryTrove (List.filter isOpen (map_to_list (Announced.troves a)))).
Proof.
  intros Hs.
  assert (Permutation (map_to_list (Subgraph.troves s))
            (map (fun e => (fst e, entryTrove e)) (map_to_list (Announced.troves a)))) as HP.
  { apply NoDup_Permutation; [apply NoDup_map_to_list| |].
    - apply NoDup_fmap_2_strong; [|apply NoDup_map_to_list].
      intros [b x] [b' x'] Hx Hx' [= <- E]. apply elem_of_map_to_list in Hx, Hx'. congruence.
    - intros [b t]. rewrite elem_of_map_to_list, list_elem_of_fmap.
      pose proof (sim_troves _ _ Hs b) as Hb. cbn in Hb. rewrite Hb. split.
      + intros (x & Hx & ->)%fmap_Some. exists (b, x). split; [done|].
        by apply elem_of_map_to_list.
      + intros ([b' x] & [= <- ->] & Hx%elem_of_map_to_list). by rewrite Hx. }
  apply (Permutation_map snd) in HP. rewrite map_map in HP. cbn [snd] in HP.
  etransitivity; [exact (Permutation_filter _ _ _ HP)|].
  clear HP. induction (map_to_list (Announced.troves a)) as [|e l IH]; [done|]. cbn.
  change (TroveStatus_eqb (fst (snd e)) open) with (isOpen e).
  destruct (isOpen e); cbn; [by rewrite IH|exact IH].
Qed.

Definition troveListing (n k : Z) (sortedBy : string) (before : option bool) : TroveListingParams :=
  mkListing (JInt n) sortedBy (Some (JInt k)) before.

Definition readEntry (e : string * (TroveStatus * RawTrove)) : Res TroveWithPendingRedistribution.t :=
  let! owner := getAddress (fst e) in Ok (readTrove owner (fst (snd e)) (snd (snd e))).
Definition readAccrued (totals : Z * Z) (e : string * (TroveStatus * RawTrove)) : Res UserTrove.t :=
  let! owner := getAddress (fst e) in
  Ok (UserTrove.mk (Trove.mk (dec (fst (Announced.accrued totals (snd (snd e)))))
                      (dec (snd (Announced.accrued totals (snd (snd e)))))) owner
        (userStatus (fst (snd e)))).

(** Answers of the node to queries for pages. *)
Lemma page_answered totals page :
  Forall (fun e => recordOk totals (snd (snd e))) page ->
  res_mapM (troveFromRawFields getAddress) (omap troveFields (map entryTrove page)) =
    res_mapM readEntry page.
Proof.
  induction 1 as [|e page He _ IH]; [done|].
  destruct e as [b [st r]]. destruct (troveFromRawFields_ok totals b st r He) as (f & Hf & Hf').
  cbn in *. injection Hf as <-. cbn in *. rewrite Hf'. unfold readEntry at 1. cbn. destruct (getAddress b); [|done]. cbn.
  by rewrite IH.
Qed.

Lemma page_accrued totals page :
  Forall (fun e => recordOk totals (snd (snd e))) page ->
  (let! l := res_mapM readEntry page in
   res_mapM (fun trove => TroveWithPendingRedistribution.applyRedistribution trove
     (Trove.mk (dec (fst totals)) (dec (snd totals)))) l) = res_mapM (readAccrued totals) page.
Proof.
  induction 1 as [|e page He _ IH]; [done|]. cbn. rewrite <- IH.
  unfold readEntry at 1, readAccrued. destruct (getAddress (fst e)) as [owner|m]; [|done]. cbn.
  destruct (res_mapM readEntry page) as [l|m]; [|done]. cbn.
  by rewrite readTrove_accrued.
Qed.

(** The records of a page of recorded Troves. *)
Lemma records_ok a s l :
  sim a (readView s) ->
  Permutation l (List.filter isOpen (map_to_list (Announced.troves a))) ->
  Forall (fun e => recordOk (Announced.totals a) (snd (snd e))) l.
Proof.
  intros Hs HP. apply Forall_forall. intros [b [st r]] He%list_elem_of_In.
  eapply Permutation_in in He; [|exact HP]. apply filter_In in He as [He _].
  apply list_elem_of_In, elem_of_map_to_list in He. by eapply (sim_records _ _ Hs).
Qed.

(** Listing Troves through the subgraph: a page is one of a list of every recorded open Trove,
    the same for all pages, and its Troves are as [getTrove] or [getTroveBeforeRedistribution]
    reads them; but asked for Troves of ascending collateral ratio the client answers them
    descending, and asked for descending ones ascending, because it sorts by the key, which grows
    with the debt per stake: of two Troves of the same collateral per stake the one that comes
    first by "ascendingCollateralRatio" does not have the lower ratio (up to one unit of debt per
    stake). *)
Theorem listing_reversed a s client sortedBy :
  Announced.ran a s -> serves client s ->
  exists sorted,
    Permutation sorted (List.filter isOpen (map_to_list (Announced.troves a))) /\
    (forall i j e e', (i < j)%nat -> sorted !! i = Some e -> sorted !! j = Some e' ->
       is_Some (collateralRatioSortKey (snd (snd e))) ->
       is_Some (collateralRatioSortKey (snd (snd e'))) ->
       if String.eqb sortedBy Readable.ascendingCollateralRatio
       then ratioNotBelow (Announced.totals a) (snd (snd e)) (snd (snd e'))
       else ratioNotBelow (Announced.totals a) (snd (snd e')) (snd (snd e))) /\
    forall n k, 0 <= n <= 1000 -> 0 <= k <= 5000 ->
      let page := take (Z.to_nat n) (drop (Z.to_nat k) sorted) in
      getTroves getAddress client client (troveListing n k sortedBy (Some true)) =
        (let! l := res_mapM readEntry page in Ok (inl l)) /\
      getTroves getAddress client client (troveListing n k sortedBy None) =
        (let! l := res_mapM (readAccrued (Announced.totals a)) page in Ok (inr l)).
Proof.
  intros Hs%ran_sim Hc.
  destruct (serves_troves _ _ Hc (orderDirection sortedBy)) as (l & HP & Hsort & Hpage).
  pose proof (open_entries a s Hs) as HP'. rewrite HP' in HP.
  apply Permutation_map_inv in HP as (sorted & -> & HP). symmetry in HP.
  pose proof (records_ok a s sorted Hs HP) as Hrec.
  exists sorted. split; [done|]. split.
  - intros i j e e' Hij He He' [key Hkey] [key' Hkey'].
    apply StronglySorted_map_inv in Hsort.
    pose proof (StronglySorted_lookup _ _ i j e e' Hsort Hij He He' key key') as Hk.
    unfold orderDirection, Readable.ascendingCollateralRatio in *.
    pose proof (proj1 (Forall_lookup _ _) Hrec i e He) as Hr.
    pose proof (proj1 (Forall_lookup _ _) Hrec j e' He') as Hr'. cbn in Hr, Hr'.
    destruct (String.eqb sortedBy _); [eapply (sortKey_orders _ _ _ key key')|
      eapply (sortKey_orders _ _ _ key' key)]; eauto.
  - intros n k Hn Hk page.
    assert (Query.get (troves getAddress) client (trovesVariables (troveListing n k sortedBy None)) =
      res_mapM readEntry page) as Hq.
    { unfold Query.get. cbn [Query.query troves]. unfold trovesVariables, troveListing.
      cbn [first startingAt default from_option id Readable.sortedBy].
      rewrite (Hpage n k Hn Hk). cbn [res_bind Query.mapResult troves].
      rewrite <- fmap_drop, <- fmap_take. 
      eapply page_answered. by apply Forall_take, Forall_drop. }
    unfold getTroves. cbn [default beforeRedistribution troveListing]. split; [by rewrite <- Hq|].
    rewrite (totals_ok a s client Hs Hc). cbn [res_bind].
    rewrite Hq. rewrite <- page_accrued by (by apply Forall_take, Forall_drop).
    by destruct (res_mapM readEntry page).
Qed.

End Client.
End ClientFacts.

(** ** A concrete run, with rational numbers for decimals *)
Module ClientRuns.
Import SubgraphRuns Node ClientFacts SubgraphLiquity.
#[local] Existing Instance rationals.
#[local] Existing Instance rationals_laws.
#[local] Existing Instance Z_bignumber.
#[local] Existing Instance Z_bignumber_laws.

(** Prints the units, with the exponent that makes them. *)
#[local] Instance node : GraphNode rationals := {|
  bd_toString q := Js.dec_string (Qfloor (q * inject_Z (10 ^ 18))) +:+ "e-18" |}.

Lemma scaled_units z : Qfloor (Qred (inject_Z z / inject_Z (10 ^ 18)) * inject_Z (10 ^ 18)) = z.
Proof.
  rewrite <- (Qfloor_Z z) at 2. apply Qfloor_comp. rewrite Qred_correct.
  field. unfold Qeq. cbn. lia.
Qed.

#[local] Instance node_laws : GraphNodeLaws rationals (BN := Z_bignumber).
Proof.
  split.
  - intros a b _ _. cbn [divDecimal fromString bd_eq rationals]. unfold parse.
    cbn [String.eqb Ascii.eqb Bool.eqb]. rewrite Qeq_bool_iff, !Qred_correct.
    change (inject_Z (10 ^ 18)) with (1000000000000000000 # 1)%Q.
    unfold Qeq, Qdiv, Qmult, Qinv, inject_Z. cbn [Qnum Qden]. lia.
  - intros z Hz. cbn [bd_toString node divDecimal fromString rationals]. unfold parse.
    cbn [String.eqb Ascii.eqb Bool.eqb]. rewrite scaled_units.
    destruct (JsFacts.dec_string_spec z ltac:(lia)) as [Hd Hv].
    change "e-18" with ("" +:+ String "e" ("-" +:+ "18")). unfold Decimal.from.
    rewrite DecimalFacts.fromString_exp by (auto; done).
    rewrite JsFacts.str_app_nil_r, (proj2 (String.eqb_neq _ "")) by apply JsFacts.dec_string_nonempty.
    unfold DecimalFacts.exp_value, DecimalFacts.plain_value, DecimalFacts.dec. cbn [String.eqb Ascii.eqb Bool.eqb].
    rewrite Hv. do 3 f_equal. change (Js.dec_value "18") with 18.
    rewrite Z.add_0_r. by apply Z.div_mul.
Qed.

(** Two Troves, of the same collateral and stake. *)
Definition coin : Z := 10 ^ 18.
Definition events : list ContractEvent :=
  [EvLastGoodPrice (2000 * coin);
   EvBorrowerTroveUpdated "0xa" (10 * coin) (5000 * coin) (10 * coin) openTrove;
   EvBorrowerTroveUpdated "0xb" (10 * coin) (4000 * coin) (10 * coin) openTrove;
   EvLTermsUpdated coin (2 * coin)].
Definition recorded : Announced.t := fold_left (fun a e => Announced.step e a) events Announced.init.
Definition database : DB := fold_left (fun s e => after e s) events emptyDB.

Lemma ran_after a s e :
  Announced.ran a s -> Announced.sane a e -> fst (handle ev e s) = Ok tt ->
  Announced.ran (Announced.step e a) (after e s).
Proof.
  intros Hs Hw H. apply (Announced.ran_step a s ev); [done|done|]. unfold after.
  destruct (handle ev e s) as [r s']. cbn in H. by rewrite H.
Qed.

Lemma ran_recorded : Announced.ran recorded database.
Proof.
  unfold recorded, database, events. cbn [fold_left].
  do 4 (apply ran_after; [|vm_compute; intuition congruence|vm_compute; reflexivity]).
  apply Announced.ran_nil.
Qed.

Definition entry (address : string) (debt key : Z) : string * (TroveStatus * RawTrove) :=
  (address, (open, mkRaw (10 * coin) (debt * coin) (10 * coin) 0 0 (Some (key * coin)))).
Definition sortedTroves (d : OrderDirection) : list Trove :=
  map entryTrove
    match d with
    | asc => [entry "0xb" 4000 400; entry "0xa" 5000 500]
    | desc => [entry "0xa" 5000 500; entry "0xb" 4000 400]
    end.

Definition int (n : JsNumber) : nat := match n with JInt z => Z.to_nat z | _ => O end.

(** A node that answers from the database. *)
Definition client : ApolloClient := fun V U document =>
  match document in DocumentNode V U return V -> Res U with
  | queryGlobal => fun _ => Ok (globalFields database)
  | queryTroveWithoutRewards => fun address => Ok (userFields database address)
  | queryTroves => fun v =>
      Ok (omap troveFields (take (int (v_first v)) (drop (int (v_startingAt v))
            (sortedTroves (v_orderDirection v)))))
  | queryBlockNumberDummy => fun _ => Ok tt
  end.

Lemma client_serves : serves client database.
Proof.
  constructor; [done|done|]. intros d. exists (sortedTroves d). split; [|split; [|done] ].
  - refine (Permutation_trans _ (Permutation_sym (open_entries recorded database
      (ran_sim (BN := Z_bignumber) recorded database ran_recorded)))).
    assert (List.filter isOpen (map_to_list (Announced.troves recorded)) =
      [entry "0xa" 5000 500; entry "0xb" 4000 400]) as -> by (vm_compute; reflexivity).
    destruct d; [apply perm_swap|apply Permutation_refl].
  - destruct d; repeat constructor; intros ka kb [= <-] [= <-]; unfold coin; lia.
Qed.

(** The price, one of the Troves in capitals, and one that does not exist. *)
Lemma client_reads_announced_witness :
  getPrice client = Ok (DecimalFacts.dec (2000 * coin)) /\
  getTrove Ok client client (Some "0xA") =
    Ok (UserTrove.mk (Trove.mk (DecimalFacts.dec (20 * coin)) (DecimalFacts.dec (5020 * coin)))
          "0xa" UserTrove.open) /\
  getTrove Ok client client (Some "0xc") =
    Ok (UserTrove.mk Trove.empty "0xc" UserTrove.nonExistent).
Proof.
  pose proof (client_reads_announced Ok recorded database client "0xA" ran_recorded client_serves)
    as (_ & Hp & Ha).
  pose proof (client_reads_announced Ok recorded database client "0xc" ran_recorded client_serves)
    as (_ & _ & Hc).
  split; [exact Hp|]. split; [exact (proj2 Ha)|exact (proj2 Hc)].
Defined.

(** Asked for ascending ratios, the client answers a list of both Troves. *)
Lemma listing_reversed_witness :
  exists sorted, Permutation sorted [entry "0xa" 5000 500; entry "0xb" 4000 400] /\
    getTroves Ok client client (troveListing 10 0 "ascendingCollateralRatio" (Some true)) =
      (let! l := res_mapM (readEntry Ok) (take 10 (drop 0 sorted)) in Ok (inl l)).
Proof.
  destruct (listing_reversed Ok recorded database client "ascendingCollateralRatio" ran_recorded
    client_serves) as (sorted & HP & _ & H).
  exists sorted. split; [|exact (proj1 (H 10 0 ltac:(lia) ltac:(lia)))].
  refine (Permutation_trans HP _).
  assert (List.filter isOpen (map_to_list (Announced.troves recorded)) =
    [entry "0xa" 5000 500; entry "0xb" 4000 400]) as -> by (vm_compute; reflexivity).
  apply Permutation_refl.
Defined.

(** What it answers: the Trove of ratio 20/4020 before that of 20/5020. *)
Example ascending_is_descending :
  (let! l := getTroves Ok client client
               (troveListing 10 0 "ascendingCollateralRatio" (Some true)) in
   Ok (match l with inl troves => map (fun t => UserTrove.ownerAddress
         (TroveWithPendingRedistribution.super t)) troves | inr _ => [] end)) =
  Ok ["0xb"; "0xa"].
Proof. vm_compute. reflexivity. Qed.

End ClientRuns.
