(* ===== verification/Observable.v ===== *)
(** * Watching the protocol: [src/packages/lib-ethers/src/ObservableEthersLiquity.ts]

    Each subscription registers listeners for events of the contracts; a listener waits until no
    event came for a while, then reads the value at the latest block seen.  The contracts emit
    events and time passes; [contract.on] of the Ethers library calls a listener for every log its
    filter matches, which is what [dispatch] does with the registrations. *)

From Stdlib Require Import Sorting.Sorted.
From S2P Require Import Prelude BigNumber Decimals Troves Deposits BatchedProvider Populatable Readable ReadableProperties.

Local Open Scope Z_scope.

Module Observable.

(** ** Events, filters and listeners *)

Inductive Contract : Type :=
| troveManager | borrowerOperations | activePool | stabilityPool | thusdToken.
Definition Contract_eqb (a b : Contract) : bool :=
  match a, b with
  | troveManager, troveManager | borrowerOperations, borrowerOperations | activePool, activePool
  | stabilityPool, stabilityPool | thusdToken, thusdToken => true
  | _, _ => false
  end.

Inductive EventArgs : Type :=
| CollateralSent (toAddress : string) (amount : Z)
| TroveUpdated (borrower : string)
| UserDepositChanged (depositor : string)
| Transfer (from to : string).

Record Event : Type := mkEvent {
  emitter : Contract;
  args : EventArgs;
  blockNumber : option Z;
}.

(** [contract.filters]; an absent topic matches anything. *)
Inductive Filter : Type :=
| FCollateralSent
| FTroveUpdated (borrower : option string)
| FUserDepositChanged (depositor : option string)
| FTransfer (from to : option string).

Definition topic (o : option string) (value : string) : bool :=
  match o with None => true | Some t => String.eqb t value end.

Definition matches (filter : Filter) (a : EventArgs) : bool :=
  match filter, a with
  | FCollateralSent, CollateralSent _ _ => true
  | FTroveUpdated o, TroveUpdated b => topic o b
  | FUserDepositChanged o, UserDepositChanged d => topic o d
  | FTransfer f t, Transfer from to => topic f from && topic t to
  | _, _ => false
  end.

(** The debounced listener itself, or the one that calls it when collateral was sent to an
    address. *)
Inductive Listener : Type := debounced | whenSentTo (toAddress : string).

Definition accepts (l : Listener) (a : EventArgs) : bool :=
  match l, a with
  | debounced, _ => true
  | whenSentTo pool, CollateralSent toAddress _ => String.eqb toAddress pool
  | whenSentTo _, _ => false
  end.

Record Registration : Type := mkRegistration {
  contract : Contract;
  filter : Filter;
  listener : Listener;
}.

(** ** [debounce] *)

Definition debouncingDelayMs : Z := 50.

(** [timeoutId] is the time its timer is due. *)
Record Debounce : Type := mkDebounce { timeoutId : option Z; latestBlock : Z }.

Definition debounce : Debounce := mkDebounce None 0.

Definition newerBlock (b : option Z) (latest : Z) : Z :=
  match b with
  | Some n => if latest <? n then n else latest
  | None => latest
  end.

(** The function [debounce] answers, called with an event. *)
Definition debounceCall (now : Z) (event : Event) (d : Debounce) : Debounce :=
  mkDebounce (Some (now + debouncingDelayMs)) (newerBlock (blockNumber event) (latestBlock d)).

(** The timer, when it is due: the block [listener] is called with, and when. *)
Definition debounceTimer (now : Z) (d : Debounce) : Debounce * list (Z * Z) :=
  match timeoutId d with
  | Some due => if due <=? now then (mkDebounce None (latestBlock d), [(due, latestBlock d)])
                else (d, [])
  | None => (d, [])
  end.

(** ** Subscriptions *)

Inductive Read : Type :=
| RTotalRedistributed
| RTroveBeforeRedistribution (address : string)
| RNumberOfTroves
| RTotal
| RStabilityDeposit (address : string)
| RTHUSDInStabilityPool
| RTHUSDBalance (address : string).

Record Subscription : Type := mkSubscription {
  registrations : list Registration;
  state : Debounce;
  read : Read;
}.

Section Watch.
Context {BN : BigNumberOps} {E : Contracts.Ethers} {C : Chain}.

Definition watchTotalRedistributed : Subscription :=
  mkSubscription
    [mkRegistration activePool FCollateralSent (whenSentTo (addressOf "defaultPool"))]
    debounce RTotalRedistributed.

Definition watchTroveWithoutRewards (address : option string) : Res Subscription :=
  let! address := Readable.requireAddress address in
  Ok (mkSubscription
        [mkRegistration troveManager (FTroveUpdated (Some address)) debounced;
         mkRegistration borrowerOperations (FTroveUpdated (Some address)) debounced]
        debounce (RTroveBeforeRedistribution address)).

Definition watchNumberOfTroves : Subscription :=
  mkSubscription [mkRegistration troveManager (FTroveUpdated None) debounced] debounce
    RNumberOfTroves.

Definition watchPrice : Res Subscription := Throw "Method not implemented.".

Definition watchTotal : Subscription :=
  mkSubscription [mkRegistration troveManager (FTroveUpdated None) debounced] debounce RTotal.

Definition watchStabilityDeposit (address : option string) : Res Subscription :=
  let! address := Readable.requireAddress address in
  Ok (mkSubscription
        [mkRegistration stabilityPool (FUserDepositChanged (Some address)) debounced;
         mkRegistration activePool FCollateralSent (whenSentTo (addressOf "stabilityPool"))]
        debounce (RStabilityDeposit address)).

Definition watchTHUSDInStabilityPool : Subscription :=
  mkSubscription
    [mkRegistration thusdToken (FTransfer (Some (addressOf "stabilityPool")) None) debounced;
     mkRegistration thusdToken (FTransfer None (Some (addressOf "stabilityPool"))) debounced]
    debounce RTHUSDInStabilityPool.

Definition watchTHUSDBalance (address : option string) : Res Subscription :=
  let! address := Readable.requireAddress address in
  Ok (mkSubscription
        [mkRegistration thusdToken (FTransfer (Some address) None) debounced;
         mkRegistration thusdToken (FTransfer None (Some address)) debounced]
        debounce (RTHUSDBalance address)).

(** The value [onChanged] is called with, when the read does not throw. *)
Inductive Value : Type :=
| VTrove (t : Trove.t)
| VTroveWithPendingRedistribution (t : TroveWithPendingRedistribution.t)
| VNumber (n : Z)
| VStabilityDeposit (d : StabilityDeposit.t)
| VDecimal (d : Decimal.t).

Definition performRead (r : Read) (blockTag : Z) : Res Value :=
  let o := Some (mkCallOverrides (Some (BatchedProvider.TagNumber blockTag))) in
  match r with
  | RTotalRedistributed => res_map VTrove (Readable.getTotalRedistributed o)
  | RTroveBeforeRedistribution a =>
      res_map VTroveWithPendingRedistribution (Readable.getTroveBeforeRedistribution (Some a) o)
  | RNumberOfTroves => res_map VNumber (Readable.getNumberOfTroves o)
  | RTotal => res_map VTrove (Readable.getTotal o)
  | RStabilityDeposit a => res_map VStabilityDeposit (Readable.getStabilityDeposit (Some a) o)
  | RTHUSDInStabilityPool => res_map VDecimal (Readable.getTHUSDInStabilityPool o)
  | RTHUSDBalance a => res_map VDecimal (Readable.getTHUSDBalance (Some a) o)
  end.

End Watch.

(** ** Running: events, and the call of the function that ends the subscription *)

Inductive Input : Type := Emit (event : Event) | Unwatch.

Definition hit (event : Event) (r : Registration) : bool :=
  Contract_eqb (contract r) (emitter event) && matches (filter r) (args event) &&
  accepts (listener r) (args event).

(** A log, handed to each listener it is for. *)
Definition dispatch (now : Z) (event : Event) (s : Subscription) : Subscription :=
  mkSubscription (registrations s)
    (fold_left (fun d r => if hit event r then debounceCall now event d else d) (registrations s)
       (state s)) (read s).

Definition receive (now : Z) (i : Input) (s : Subscription) : Subscription :=
  match i with
  | Emit event => dispatch now event s
  | Unwatch => mkSubscription [] (state s) (read s)
  end.

(** A timer that is due runs before what comes at that time; the reads, with their times. *)
Definition step (now : Z) (i : Input) (s : Subscription) : Subscription * list (Z * Z) :=
  let '(d, reads) := debounceTimer now (state s) in
  (receive now i (mkSubscription (registrations s) d (read s)), reads).

(** The reads of a run, with the one a pending timer makes at the end. *)
Fixpoint run (inputs : list (Z * Input)) (s : Subscription) : list (Z * Z) :=
  match inputs with
  | [] => match timeoutId (state s) with Some due => [(due, latestBlock (state s))] | None => [] end
  | (now, i) :: inputs' => let '(s', reads) := step now i s in reads ++ run inputs' s'
  end.

(** The values [onChanged] is called with; a read that throws is not handled, and calls nothing. *)
Definition onChangedCalls {BN : BigNumberOps} {E : Contracts.Ethers} {C : Chain}
    (inputs : list (Z * Input)) (s : Subscription) : list Value :=
  omap (fun '(_, blockTag) => match performRead (read s) blockTag with
                              | Ok value => Some value
                              | Throw _ => None
                              end) (run inputs s).

End Observable.

Module ObservableProperties.
Import Observable.

(** ** The reference: bursts of events *)

(** The times and blocks a subscription's listener is called with, up to its end. *)
Fixpoint hits (regs : list Registration) (inputs : list (Z * Input)) : list (Z * option Z) :=
  match inputs with
  | [] => []
  | (now, Emit event) :: inputs' =>
      map (fun _ => (now, blockNumber event)) (List.filter (hit event) regs) ++ hits regs inputs'
  | (_, Unwatch) :: _ => []
  end.

(** One read per burst, once nothing came for the delay, at the newest block so far. *)
Fixpoint bursts (latest : Z) (l : list (Z * option Z)) : list (Z * Z) :=
  match l with
  | [] => []
  | (t, b) :: l' =>
      let latest := newerBlock b latest in
      let read := (t + debouncingDelayMs, latest) in
      match l' with
      | (t', _) :: _ => if t' <? t + debouncingDelayMs then bursts latest l' else read :: bursts latest l'
      | [] => [read]
      end
  end.

(** Time does not go back. *)
Fixpoint chronological {A} (from : Z) (l : list (Z * A)) : Prop :=
  match l with [] => True | (t, _) :: l' => from <= t /\ chronological t l' end.

(** The reads when a timer is pending. *)
Definition pending (due latest : Z) (l : list (Z * option Z)) : list (Z * Z) :=
  match l with
  | (t, _) :: _ => if t <? due then bursts latest l else (due, latest) :: bursts latest l
  | [] => [(due, latest)]
  end.

Lemma bursts_cons latest t b l :
  bursts latest ((t, b) :: l) = pending (t + debouncingDelayMs) (newerBlock b latest) l.
Proof. by destruct l as [|[t' b'] l]. Qed.

Lemma newerBlock_idem b latest : newerBlock b (newerBlock b latest) = newerBlock b latest.
Proof.
  destruct b as [n|]; [|done]. cbn. destruct (Z.ltb_spec latest n); [|].
  - by rewrite Z.ltb_irrefl.
  - by rewrite (proj2 (Z.ltb_ge latest n)).
Qed.
Lemma newerBlock_le b latest : latest <= newerBlock b latest.
Proof. destruct b as [n|]; cbn; [|lia]. destruct (Z.ltb_spec latest n); lia. Qed.

(** Calls at one time are as one. *)
Lemma bursts_repeat latest now b regs (f : Registration -> bool) l :
  List.filter f regs <> [] ->
  bursts latest (map (fun _ => (now, b)) (List.filter f regs) ++ l) =
    pending (now + debouncingDelayMs) (newerBlock b latest) l.
Proof.
  generalize (List.filter f regs). intros rs Hrs. revert latest. induction rs as [|r rs IH]; [done|].
  intros latest. cbn [map app]. rewrite bursts_cons. destruct rs as [|r' rs]; [done|].
  specialize (IH ltac:(done) (newerBlock b latest)). cbn [map app] in *. unfold pending at 1.
  rewrite (proj2 (Z.ltb_lt now _)) by (unfold debouncingDelayMs; lia).
  rewrite IH. by rewrite newerBlock_idem.
Qed.

Lemma dispatch_state now event regs d :
  fold_left (fun d r => if hit event r then debounceCall now event d else d) regs d =
  match List.filter (hit event) regs with
  | [] => d
  | _ => debounceCall now event d
  end.
Proof.
  revert d. induction regs as [|r regs IH]; intros d; [done|]. cbn. rewrite IH.
  destruct (hit event r); [|done]. destruct (List.filter (hit event) regs); [done|].
  unfold debounceCall. cbn. by rewrite newerBlock_idem.
Qed.

Lemma hits_chronological regs now inputs :
  chronological now inputs -> chronological now (hits regs inputs).
Proof.
  revert now; induction inputs as [|[t [event|]] inputs IH]; intros now; [done| |done].
  intros [Ht Hi]. cbn. specialize (IH t Hi).
  assert (forall n, n <= t -> chronological n (map (fun _ => (t, blockNumber event))
    (List.filter (hit event) regs) ++ hits regs inputs)) as H; [|by apply H].
  induction (List.filter (hit event) regs) as [|r rs IHr]; intros n Hn; cbn.
  - destruct (hits regs inputs) as [|[t' b'] l]; [done|]. destruct IH as [H1 H2]. split; [lia|done].
  - split; [done|]. by apply IHr.
Qed.

Lemma pending_late due latest now l :
  due <= now -> chronological now l -> pending due latest l = (due, latest) :: bursts latest l.
Proof.
  intros Hd Hl. destruct l as [|[t b] l]; [done|]. destruct Hl as [Ht _]. unfold pending.
  by rewrite (proj2 (Z.ltb_ge t due)) by lia.
Qed.

(** What is left of a run. *)
Definition reads (d : Debounce) (l : list (Z * option Z)) : list (Z * Z) :=
  match timeoutId d with
  | None => bursts (latestBlock d) l
  | Some due => pending due (latestBlock d) l
  end.

Lemma timer_reads now d l :
  chronological now l ->
  let '(d', rs) := debounceTimer now d in
  reads d l = rs ++ reads d' l /\ (forall due, timeoutId d' = Some due -> now < due).
Proof.
  intros Hl. unfold debounceTimer, reads. destruct (timeoutId d) as [due|] eqn:E.
  - destruct (Z.leb_spec due now) as [Hle|Hlt].
    + split; [|by intros ? [=]]. by apply (pending_late due (latestBlock d) now).
    + rewrite E. split; [done|]. by intros ? [= <-].
  - rewrite E. by split.
Qed.

Lemma dispatch_reads now event regs d l :
  (forall due, timeoutId d = Some due -> now < due) ->
  reads d (map (fun _ => (now, blockNumber event)) (List.filter (hit event) regs) ++ l) =
  reads (fold_left (fun d r => if hit event r then debounceCall now event d else d) regs d) l.
Proof.
  intros Hd. rewrite dispatch_state.
  destruct (List.filter (hit event) regs) as [|r rs] eqn:E; [done|]. rewrite <- E.
  assert (bursts (latestBlock d)
      (map (fun _ => (now, blockNumber event)) (List.filter (hit event) regs) ++ l) =
    reads (debounceCall now event d) l) as Hb by (by rewrite bursts_repeat by (by rewrite E)).
  rewrite <- Hb. unfold reads. destruct (timeoutId d) as [due|]; [|done].
  rewrite E. cbn [map app]. unfold pending at 1.
  by rewrite (proj2 (Z.ltb_lt now due)) by (by apply Hd).
Qed.

Lemma hits_nil inputs : hits [] inputs = [].
Proof. by induction inputs as [|[t [e|]] inputs IH]. Qed.

Lemma run_reads inputs now s :
  chronological now inputs -> run inputs s = reads (state s) (hits (registrations s) inputs).
Proof.
  revert now s. induction inputs as [|[t i] inputs IH]; intros now s H.
  - cbn. unfold reads. by destruct (timeoutId (state s)).
  - destruct H as [_ H]. cbn [run]. unfold step.
    pose proof (timer_reads t (state s) (hits (registrations s) ((t, i) :: inputs))) as Ht.
    destruct (debounceTimer t (state s)) as [d rs]. destruct Ht as [-> Hd].
    { apply hits_chronological. by split; [lia|]. }
    f_equal. rewrite (IH t) by done. destruct i as [event|]; cbn.
    + symmetry. by apply dispatch_reads.
    + by rewrite hits_nil.
Qed.

(** ** What bursts cover *)

(** Reads in order: the delay apart, of blocks that do not go back. *)
Definition inOrder (r r' : Z * Z) : Prop := fst r + debouncingDelayMs <= fst r' /\ snd r <= snd r'.

Lemma bursts_spaced latest now l :
  chronological now l ->
  match bursts latest l with
  | [] => l = []
  | (t, b) :: _ => now + debouncingDelayMs <= t /\ latest <= b
  end /\ Sorted inOrder (bursts latest l).
Proof.
  revert latest now. induction l as [|[t b] l IH]; intros latest now H; [by split; [|constructor]|].
  destruct H as [Ht H]. pose proof (newerBlock_le b latest). rewrite bursts_cons. unfold pending.
  destruct l as [|[t' b'] l]; [split; [cbn; lia|repeat constructor]|].
  destruct H as [Ht' H].
  destruct (IH (newerBlock b latest) t' (conj (Z.le_refl t') H)) as [IH1 IH2].
  destruct (Z.ltb_spec t' (t + debouncingDelayMs)).
  - split; [|done]. destruct (bursts _ _) as [|[t'' b''] ?]; [done|]. lia.
  - split; [lia|]. constructor; [done|]. destruct (bursts _ _) as [|[t'' b''] ?]; constructor.
    unfold inOrder. cbn. lia.
Qed.

Lemma bursts_cover latest now l t b :
  chronological now l -> In (t, b) l ->
  exists t' b', In (t', b') (bursts latest l) /\ t + debouncingDelayMs <= t' /\
    newerBlock b latest <= b'.
Proof.
  revert latest now. induction l as [|[t0 b0] l IH]; intros latest now H Hin; [done|].
  destruct H as [_ H]. rewrite bursts_cons. unfold pending.
  pose proof (newerBlock_le b0 latest) as Hb0.
  assert (forall x, newerBlock b x <= newerBlock b (newerBlock b0 x)) as Hb.
  { intros x. pose proof (newerBlock_le b0 x). destruct b as [n|]; [|done]. cbn.
    destruct (Z.ltb_spec x n), (Z.ltb_spec (newerBlock b0 x) n); lia. }
  destruct Hin as [[= -> ->]|Hin].
  - destruct l as [|[t' b'] l]; [do 2 eexists; split; [by left|lia]|].
    destruct H as [Ht' H].
    destruct (bursts_spaced (newerBlock b latest) t' ((t', b') :: l) (conj (Z.le_refl t') H)) as [Hf _].
    destruct (Z.ltb_spec t' (t + debouncingDelayMs)); [|do 2 eexists; split; [by left|lia]].
    destruct (bursts _ _) as [|[t'' b''] rs]; [done|]. do 2 eexists. split; [by left|]. lia.
  - destruct (IH (newerBlock b0 latest) t0 H Hin) as (t' & b' & H1 & H2 & H3).
    specialize (Hb latest). exists t', b'. destruct l as [|[t1 b1] l]; [done|].
    split; [|lia]. destruct (t1 <? t0 + debouncingDelayMs); [done|by right].
Qed.

(** ** What each subscription listens to *)

Section Subscriptions.
Context {BN : BigNumberOps} {E : Contracts.Ethers} {C : Chain}.

(** The subscriptions. *)
Inductive subscribed : Subscription -> Prop :=
| sub_total_redistributed : subscribed watchTotalRedistributed
| sub_trove a s : watchTroveWithoutRewards a = Ok s -> subscribed s
| sub_number : subscribed watchNumberOfTroves
| sub_total : subscribed watchTotal
| sub_deposit a s : watchStabilityDeposit a = Ok s -> subscribed s
| sub_pool : subscribed watchTHUSDInStabilityPool
| sub_balance a s : watchTHUSDBalance a = Ok s -> subscribed s.

(** The events with which the contracts announce a change of a value: a Trove's is announced by
    [TroveManager] (a liquidation, a redemption, applied rewards) or by [BorrowerOperations] (it is
    opened, adjusted or closed), and with it that of the number of Troves and of their total. *)
Definition announces (r : Read) (event : Event) : bool :=
  let of_trove := match emitter event with troveManager | borrowerOperations => true | _ => false end in
  let of_ c := Contract_eqb (emitter event) c in
  match r, args event with
  | RTotalRedistributed, CollateralSent to _ =>
      of_ activePool && String.eqb to (addressOf "defaultPool")
  | RTroveBeforeRedistribution a, TroveUpdated b => of_trove && String.eqb a b
  | (RNumberOfTroves | RTotal), TroveUpdated _ => of_trove
  | RStabilityDeposit a, UserDepositChanged d => of_ stabilityPool && String.eqb a d
  | RStabilityDeposit _, CollateralSent to _ =>
      of_ activePool && String.eqb to (addressOf "stabilityPool")
  | RTHUSDInStabilityPool, Transfer from to =>
      of_ thusdToken && existsb (String.eqb (addressOf "stabilityPool")) [from; to]
  | RTHUSDBalance a, Transfer from to => of_ thusdToken && existsb (String.eqb a) [from; to]
  | _, _ => false
  end.

(** The exception: what [BorrowerOperations] announces is not listened to for these two. *)
Definition unheard (r : Read) (event : Event) : bool :=
  match r, emitter event with
  | (RNumberOfTroves | RTotal), borrowerOperations => true
  | _, _ => false
  end.

(** The events after which a value is read again. *)
Definition relevant (r : Read) (event : Event) : bool :=
  match r, emitter event, args event with
  | RTotalRedistributed, activePool, CollateralSent to _ => String.eqb to (addressOf "defaultPool")
  | RTroveBeforeRedistribution a, (troveManager | borrowerOperations), TroveUpdated b =>
      String.eqb a b
  | (RNumberOfTroves | RTotal), troveManager, TroveUpdated _ => true
  | RStabilityDeposit a, stabilityPool, UserDepositChanged d => String.eqb a d
  | RStabilityDeposit _, activePool, CollateralSent to _ =>
      String.eqb to (addressOf "stabilityPool")
  | RTHUSDInStabilityPool, thusdToken, Transfer from to =>
      String.eqb (addressOf "stabilityPool") from || String.eqb (addressOf "stabilityPool") to
  | RTHUSDBalance a, thusdToken, Transfer from to => String.eqb a from || String.eqb a to
  | _, _, _ => false
  end.

Lemma relevant_announced r event : relevant r event = announces r event && negb (unheard r event).
Proof.
  destruct event as [em ar bn], r, em, ar; cbn; rewrite ?andb_true_r, ?orb_false_r; done.
Qed.

Lemma subscribed_fresh s : subscribed s -> state s = debounce.
Proof.
  unfold watchTroveWithoutRewards, watchStabilityDeposit, watchTHUSDBalance.
  intros Hs. destruct Hs as [|a s H| | |a s H| |a s H]; try done; res_inv H; by injection H as <-.
Qed.

Lemma subscribed_hits s event :
  subscribed s -> existsb (hit event) (registrations s) = relevant (read s) event.
Proof.
  unfold watchTroveWithoutRewards, watchStabilityDeposit, watchTHUSDBalance.
  intros Hs. destruct event as [em ar bn].
  destruct Hs as [|a s H| | |a s H| |a s H]; try (res_inv H; injection H as <-);
    destruct em, ar; unfold hit; cbn; rewrite ?orb_false_r, ?andb_true_r; reflexivity.
Qed.

Lemma hits_relevant s inputs :
  subscribed s -> (forall t, ~ In (t, Unwatch) inputs) -> forall t event,
  In (t, Emit event) inputs -> relevant (read s) event = true ->
  In (t, blockNumber event) (hits (registrations s) inputs).
Proof.
  intros Hs Hu t event Hin Hr. rewrite <- (subscribed_hits s event Hs) in Hr.
  apply existsb_exists in Hr as (r & Hr & Hh).
  induction inputs as [|[t' i] inputs IH]; [done|].
  assert (forall t, ~ In (t, Unwatch) inputs) as Hu' by (intros x Hx; apply (Hu x); by right).
  destruct Hin as [[= -> ->]|Hin]; cbn.
  - apply in_or_app. left. apply in_map_iff. exists r. split; [done|]. by apply filter_In.
  - destruct i as [e|]; [|by destruct (Hu t'); left]. apply in_or_app. right. by apply IH.
Qed.

Lemma hits_irrelevant s inputs :
  subscribed s ->
  (forall t event, In (t, Emit event) inputs -> relevant (read s) event = false) ->
  hits (registrations s) inputs = [].
Proof.
  intros Hs H. induction inputs as [|[t' [e|]] inputs IH]; [done| |done]. cbn.
  rewrite IH by (intros t event Hin; apply (H t); by right).
  specialize (H t' e ltac:(by left)). rewrite <- (subscribed_hits s e Hs) in H.
  clear IH. induction (registrations s) as [|r rs IHr]; [done|]. cbn in *. apply orb_false_iff in H as [-> H].
  by apply IHr.
Qed.

Lemma reads_run s inputs now :
  subscribed s -> chronological now inputs ->
  run inputs s = bursts 0 (hits (registrations s) inputs).
Proof.
  intros Hs H. rewrite (run_reads inputs now s H). by rewrite (subscribed_fresh s Hs).
Qed.

(** C30: what a subscription reads: whatever events come while it is watched, it makes one read per
    burst, 50 ms after the burst's last event and at the newest block so far; the reads are at
    least 50 ms apart, of blocks that do not go back.  Every event with which the contracts announce
    a change of the value is followed by a read at its block or a later one, with whose value
    [onChanged] is called, but for those of [BorrowerOperations] when it is the number of Troves or
    their total: Troves opened, adjusted and closed are not heard there.  Without an event that is
    heard there is no read. *)
Theorem relevant_events_are_read s inputs now :
  subscribed s -> chronological now inputs -> (forall t, ~ In (t, Unwatch) inputs) ->
  run inputs s = bursts 0 (hits (registrations s) inputs) /\
  Sorted inOrder (run inputs s) /\
  (forall t event n, In (t, Emit event) inputs -> announces (read s) event = true ->
     unheard (read s) event = false -> blockNumber event = Some n ->
     exists t' b, In (t', b) (run inputs s) /\ t + debouncingDelayMs <= t' /\ n <= b /\
       forall value, performRead (read s) b = Ok value -> In value (onChangedCalls inputs s)) /\
  ((forall t event, In (t, Emit event) inputs ->
      announces (read s) event = false \/ unheard (read s) event = true) -> run inputs s = []).
Proof.
  intros Hs Hc Hu. unfold onChangedCalls. rewrite (reads_run s inputs now Hs Hc).
  pose proof (hits_chronological (registrations s) now inputs Hc) as Hh.
  split; [done|]. split; [by apply (bursts_spaced 0 now)|]. split.
  - intros t event n Hin Ha Hun Hn.
    assert (Hr : relevant (read s) event = true) by (by rewrite relevant_announced, Ha, Hun).
    apply (hits_relevant s inputs Hs Hu t event Hin) in Hr.
    destruct (bursts_cover 0 now _ _ _ Hh Hr) as (t' & b & H1 & H2 & H3). exists t', b.
    split; [done|]. split; [done|]. rewrite Hn in H3. cbn in H3.
    split; [destruct (Z.ltb_spec 0 n); lia|]. intros value Hv. apply list_elem_of_In.
    apply list_elem_of_omap. exists (t', b). split; [by apply list_elem_of_In|]. by rewrite Hv.
  - intros H. rewrite (hits_irrelevant s inputs Hs); [done|]. intros t event Hin.
    rewrite relevant_announced. destruct (H t event Hin) as [->| ->]; [done|]. apply andb_false_r.
Qed.

(** Ending a subscription keeps the timer: a read is made, and [onChanged] called, afterwards. *)
Lemma read_after_unwatch t t' n :
  0 < n -> t <= t' ->
  run [(t, Emit (mkEvent troveManager (TroveUpdated "0xa") (Some n))); (t', Unwatch)]
    watchNumberOfTroves = [(t + debouncingDelayMs, n)].
Proof.
  intros Hn Ht. rewrite (reads_run _ _ t sub_number) by (cbn; lia). cbn.
  by rewrite (proj2 (Z.ltb_lt 0 n)).
Qed.

(** A Trove opened, adjusted or closed does not have the number of Troves or the total read. *)
Lemma openings_missed s t b n :
  s = watchNumberOfTroves \/ s = watchTotal ->
  run [(t, Emit (mkEvent borrowerOperations (TroveUpdated b) n))] s = [].
Proof. by intros [-> | ->]. Qed.

End Subscriptions.

End ObservableProperties.

(** A transfer every 20 ms, then one after a while; the block of the last is behind. *)
Module ObservableRuns.
Import Observable ObservableProperties.
#[local] Existing Instance ReadableRuns.someChain.
#[local] Existing Instance ReadableRuns.noContracts.
#[local] Existing Instance Z_bignumber.

Definition transfer (n : Z) : Input := Emit (mkEvent thusdToken (Transfer "0xa" "0xb") (Some n)).
Definition someInputs : list (Z * Input) :=
  [(0, transfer 7); (20, transfer 8); (40, transfer 9); (200, transfer 8)].

Lemma balance_watched :
  watchTHUSDBalance (Some "0xb") = Ok (mkSubscription
    [mkRegistration thusdToken (FTransfer (Some "0xb") None) debounced;
     mkRegistration thusdToken (FTransfer None (Some "0xb")) debounced] debounce
    (RTHUSDBalance "0xb")).
Proof. reflexivity. Qed.

Lemma relevant_events_are_read_witness :
  exists s, watchTHUSDBalance (Some "0xb") = Ok s /\ run someInputs s = [(90, 9); (250, 9)].
Proof.
  eexists. split; [exact balance_watched|].
  rewrite (proj1 (relevant_events_are_read _ someInputs 0 (sub_balance _ _ balance_watched)
    ltac:(cbn; lia) ltac:(cbn; intros t Ht; unfold transfer in Ht; intuition congruence))).
  reflexivity.
Defined.

End ObservableRuns.
