(* ===== verification/ParseLogs.v ===== *)
(** * The text of a receipt's logs: [src/packages/lib-ethers/src/parseLogs.ts]

    Logs are parsed with the interface of the contract at their address and printed one a line.
    The contracts and the parser are the class [Ethers] of [Populatable]. *)

From S2P Require Import Prelude BigNumber Decimals Populatable.
Import Contracts.

Local Open Scope Z_scope.

Module ParseLogs.
Section ParseLogs.
Context {BN : BigNumberOps} {E : Ethers}.

(** What a property inherited from [Object.prototype] prints as. *)
Context (inherited : string -> option string).

(** The contracts, by name: the keys of [_LiquityContracts]. *)
Definition ContractLookup : Type := list string.

(** [interfaceLookup] holds for each address the contract whose interface it is. *)
Definition interfaceLookupFrom (contracts : ContractLookup) : JsObject.t string :=
  JsObject.fromEntries (map (fun name => (contractAddress name, name)) contracts).
Definition nameLookupFrom (contracts : ContractLookup) : JsObject.t string :=
  JsObject.fromEntries (map (fun name => (contractAddress name, name)) contracts).

Record ParsedLog : Type := mkParsedLog { address : string; logDescription : LogDescription }.

(** An address is no property of [Object.prototype]. *)
Definition tryToParseLog (log : Log) (interfaceLookup : JsObject.t string) : option ParsedLog :=
  match JsObject.get (fst log) interfaceLookup with
  | Some contract =>
      match parseLog contract log with
      | Ok description => Some (mkParsedLog (fst log) description)
      | Throw _ => None
      end
  | None => None
  end.

Definition parseLogs (logs : list Log) (interfaceLookup : JsObject.t string) :
    list ParsedLog * list Log :=
  fold_left (fun '(parsedLogs, unparsedLogs) log =>
    match tryToParseLog log interfaceLookup with
    | Some parsedLog => (parsedLogs ++ [parsedLog], unparsedLogs)
    | None => (parsedLogs, unparsedLogs ++ [log])
    end) logs ([], []).

Definition VERY_BIG : Z := bn_pow 10 9.
Definition AddressZero : string := "0x" +:+ Js.repeat "0" 40.

Definition prettify (arg : LogValue) (nameLookup : JsObject.t string) : Res string :=
  match arg with
  | VBigNumber z =>
      if bn_gte z VERY_BIG then
        let! d := Decimal.fromBigNumberString (bn_toHexString z) in
        let! s := Decimal.toString d None in
        Ok (s +:+ "e18")
      else Ok (bn_toString z)
  | VString s =>
      if String.eqb s AddressZero then Ok "address(0)"
      else match JsObject.get s nameLookup with
           | Some name => Ok name
           | None => Ok (default s (inherited s))
           end
  end.

Definition startsWithDigit (key : string) : bool :=
  match key with String c _ => Js.is_digit c | EmptyString => false end.

Definition logDescriptionToString (description : LogDescription) (nameLookup : JsObject.t string) :
    Res string :=
  let! prettyEntries := res_mapM (fun '(key, value) =>
      let! pretty := prettify value nameLookup in Ok (key +:+ ": " +:+ pretty))
    (List.filter (fun '(key, _) => negb (startsWithDigit key)) (args description)) in
  Ok (name description +:+ "({ " +:+ Js.join ", " prettyEntries +:+ " })").

Definition newline : string := String (Ascii.ascii_of_nat 10) EmptyString.

(** What [logsToString] reads of a receipt. *)
Record TransactionReceipt : Type := mkReceipt {
  receipt_from : string;
  transactionHash : string;
  receipt_logs : list Log;
}.

(** A line: the contract is the last one of the log's address. *)
Definition logLine (contractNameLookup nameLookup : JsObject.t string) (log : ParsedLog) :
    Res string :=
  let! text := logDescriptionToString (logDescription log) nameLookup in
  Ok ("  " +:+ default "undefined" (JsObject.get (address log) contractNameLookup) +:+ "." +:+ text).

Definition logsToString (receipt : TransactionReceipt) (contracts : ContractLookup) : Res string :=
  let interfaceLookup := interfaceLookupFrom contracts in
  let contractNameLookup := nameLookupFrom contracts in
  let nameLookup := JsObject.spread [(receipt_from receipt, "user")] contractNameLookup in
  let '(parsedLogs, unparsedLogs) := parseLogs (receipt_logs receipt) interfaceLookup in
  match parsedLogs with
  | [] => Ok ("No logs were parsed in tx " +:+ transactionHash receipt)
  | _ =>
      let! lines := res_mapM (logLine contractNameLookup nameLookup) parsedLogs in
      Ok ("Logs of tx " +:+ transactionHash receipt +:+ ":" +:+ newline +:+ Js.join newline lines)
  end.

End ParseLogs.
End ParseLogs.

(** ** Properties *)
Module ParseLogsProperties.
Import ParseLogs.
Section Properties.
Context {BN : BigNumberOps} {BNL : BigNumberLaws BN} {E : Ethers} (inherited : string -> option string).

(** Every log is parsed or not, in order. *)
Lemma parseLogs_partition logs lookup :
  parseLogs logs lookup =
    (omap (fun log => tryToParseLog log lookup) logs,
     List.filter (fun log => match tryToParseLog log lookup with Some _ => false | None => true end) logs).
Proof.
  unfold parseLogs.
  assert (forall ps us, fold_left (fun '(ps, us) log =>
      match tryToParseLog log lookup with
      | Some p => (ps ++ [p], us) | None => (ps, us ++ [log]) end) logs (ps, us) =
    (ps ++ omap (fun log => tryToParseLog log lookup) logs,
     us ++ List.filter (fun log => match tryToParseLog log lookup with
                                   | Some _ => false | None => true end) logs)) as H.
  { induction logs as [|log logs IH]; intros ps us; cbn; [by rewrite !app_nil_r|].
    destruct (tryToParseLog log lookup); rewrite IH; by rewrite <- app_assoc. }
  apply H.
Qed.

(** A large amount prints as its value over 10^18, which reads back exactly. *)
Lemma prettify_number z lookup :
  0 <= z < 2 ^ 256 - 1 ->
  exists text, prettify inherited (VBigNumber z) lookup = Ok text /\
    ((z < 10 ^ 9 /\ text = Js.dec_string z) \/
     (10 ^ 9 <= z /\ exists s, text = s +:+ "e18" /\
        Decimal.from (Decimal.ofString s) = Ok (DecimalFacts.dec z))).
Proof.
  intros Hz. unfold prettify, VERY_BIG. rewrite bn_powE by lia. rewrite bn_gteE.
  destruct (Z.leb_spec (10 ^ 9) z) as [Hle|Hlt].
  - unfold Decimal.fromBigNumberString. rewrite bn_from_toHexString. cbn [res_bind].
    rewrite DecimalFacts.new_ok by lia. cbn [res_bind].
    rewrite DecimalFacts.toString_text.
    assert (DecimalFacts.deqb (DecimalFacts.dec z) DecimalFacts.INF = false) as ->.
    { apply not_true_iff_false. intros H%DecimalFacts.deqb_eq. apply (f_equal Decimal.units) in H.
      apply (f_equal Z.of_N) in H. rewrite DecimalFacts.units_dec in H by lia.
      unfold DecimalFacts.INF in H. cbn [Decimal.units] in H. lia. }
    cbn [res_bind]. eexists. split; [reflexivity|]. right. split; [done|]. eexists. split; [done|].
    apply DecimalFacts.fromString_toString.
  - eexists. split; [reflexivity|]. left. split; [done|]. apply bn_toString_nonneg; lia.
Qed.

End Properties.
End ParseLogsProperties.
