(* ===== verification/ReactStore.v ===== *)
(** * The store in React components: [src/packages/lib-react/src] and the hook
      [src/packages/dev-frontend/src/hooks/AsyncValue.ts]

    [ThresholdStoreProvider] starts the block-polled stores and hands them on when all are loaded;
    [useThresholdReducer] and [useThresholdSelector] subscribe components to them;
    [useAsyncValue] shows a value that is fetched and watched.  React itself is not part of the
    repository: a component is modelled by what its hooks hold, and by the renders, effects and
    clean-ups React runs, which are the steps of the runs below. *)

From S2P Require Import Prelude BigNumber LiquityStore LiquityStoreProperties Readable ReadableProperties BlockPolled BlockPolledProperties.

(** ** [utils/equals.ts] *)
Module Equals.
Section Equals.
(** A JavaScript value that is no object, or (what [Object.is] tells of one) an object's identity;
    [objectIs] compares two. *)
Context {V : Type} (objectIs : V -> V -> bool).

Inductive Any : Type := Plain (v : V) | Object (id : V) (o : JsObject.t V).

Definition shallowEquals (a b : JsObject.t V) : bool :=
  (length a =? length b)%nat &&
  forallb (fun '(key, v) => match JsObject.get key b with
                            | Some w => objectIs v w
                            | None => false
                            end) a.

Definition identity (a : Any) : V := match a with Plain v => v | Object id _ => id end.

Definition equals (a b : Any) : bool :=
  match a, b with
  | Object _ oa, Object _ ob => shallowEquals oa ob
  | _, _ => objectIs (identity a) (identity b)
  end.

End Equals.
End Equals.

(** ** [hooks/AsyncValue.ts] *)
Module AsyncValue.
Section AsyncValue.
Context {T : Type} (reduceValues : option (T -> T -> T)).

(** The state shown, [previousValue], [mounted], and whether the value is being watched. *)
Record Hook : Type := mkHook {
  callState : option T;
  previousValue : option T;
  mounted : bool;
  watching : bool;
}.

(** The effect. *)
Definition mount (watchValue : bool) : Hook := mkHook None None true watchValue.

(** [fetchValue], once the promise is fulfilled. *)
Definition fetched (value : T) (h : Hook) : Hook :=
  match mounted h, previousValue h with
  | true, None => mkHook (Some value) (Some value) true (watching h)
  | _, _ => h
  end.

Definition onValueChanged (value : T) (h : Hook) : Hook :=
  if mounted h then
    let value := match previousValue h, reduceValues with
                 | Some p, Some f => f p value
                 | _, _ => value
                 end in
    mkHook (Some value) (Some value) true (watching h)
  else h.

(** The clean-up. *)
Definition unmount (h : Hook) : Hook := mkHook (callState h) (previousValue h) false false.

Inductive Event : Type := Fetched (value : T) | Changed (value : T) | Unmount.

Definition step (h : Hook) (e : Event) : Hook :=
  match e with
  | Fetched v => fetched v h
  | Changed v => onValueChanged v h
  | Unmount => unmount h
  end.

End AsyncValue.
Arguments Hook : clear implicits.
Arguments Event : clear implicits.

(** [useAsyncStore] *)
Definition allLoaded {T} (store : list (string * option T)) : bool :=
  forallb (fun '(_, s) => match s with Some _ => true | None => false end) store.
Definition useAsyncStore {T} (store : list (string * option T)) : option (JsObject.t T) :=
  if allLoaded store then
    Some (JsObject.fromEntries (omap (fun '(property, s) => (fun v => (property, v)) <$> s) store))
  else None.

End AsyncValue.

(** ** [ThresholdStoreProvider] *)
Module StoreProvider.
Section Provider.
Context {BN : BigNumberOps} {L : Type} `{BlockPolled.Listeners L}.

Record VersionedCollateral : Type := mkVersioned { collateral : string; version : string }.

(** A store, with its [onLoaded]: the function the effect set, or none. *)
Record ThresholdStore : Type := mkThresholdStore {
  name : VersionedCollateral;
  store : BlockPolled.Polled L;
  onLoaded : bool;
}.

(** What React holds: the stores of the props, [loadedStore], and whether it is mounted. *)
Record Provider : Type := mkProvider {
  thresholdStores : list ThresholdStore;
  loadedStore : list VersionedCollateral;
}.

(** The effect: for each store, its callback and [start()]. *)
Definition startStore (s : ThresholdStore) : ThresholdStore :=
  mkThresholdStore (name s) (BlockPolled.start (store s)) true.
Definition effect (p : Provider) : Provider :=
  mkProvider (map startStore (thresholdStores p)) (loadedStore p).

(** The clean-up; [start()] is called once more, to get the function that stops. *)
Definition stopStore (s : ThresholdStore) : ThresholdStore :=
  mkThresholdStore (name s) (BlockPolled.stop_ (BlockPolled.start (store s))) false.
Definition cleanup (p : Provider) : Provider :=
  match thresholdStores p with
  | [] => p
  | _ => mkProvider (map stopStore (thresholdStores p)) []
  end.

(** Something happens to the [i]-th store; [_load] calls [onLoaded]. *)
Definition storeEvent (i : nat) (e : BlockPolled.Event) (p : Provider) : Provider :=
  match thresholdStores p !! i with
  | Some s =>
      let store' := BlockPolled.step e (store s) in
      let fires := onLoaded s && negb (LiquityStore._loaded (BlockPolled.store (store s))) &&
                   LiquityStore._loaded (BlockPolled.store store') in
      mkProvider (<[i := mkThresholdStore (name s) store' (onLoaded s)]> (thresholdStores p))
        (if fires then loadedStore p ++ [name s] else loadedStore p)
  | None => p
  end.

(** The stores the children get, or [None] for the loader. *)
Definition render (p : Provider) : option (list VersionedCollateral) :=
  if (length (loadedStore p) =? length (thresholdStores p))%nat then Some (loadedStore p) else None.

Definition initial (stores : list ThresholdStore) : Provider := mkProvider stores [].

Definition run (events : list (nat * BlockPolled.Event)) (p : Provider) : Provider :=
  fold_left (fun p '(i, e) => storeEvent i e p) events p.

End Provider.
End StoreProvider.

(** ** [useThresholdStore], [useThresholdReducer], [useThresholdSelector] *)
Module StoreHooks.
Section Hooks.
(** The state of a store, a reducer's state and what it is told. *)
Context {State S Params Action : Type}.

(** A loaded store of the context: its name, its identity and its present state. *)
Record LoadedStore : Type := mkLoadedStore {
  collateral : string;
  version : string;
  storeId : N;
  storeState : State;
}.

Definition useThresholdStore (context : option (list LoadedStore)) : Res (list LoadedStore) :=
  match context with
  | Some stores => Ok stores
  | None => Throw "You must provide a ThresholdStore via ThresholdStoreProvider"
  end.

Inductive Dispatched : Type := ofAction (a : Action) | updateStore (params : Params).

Context (reduce : S -> Dispatched -> S) (init : State -> S) (equals : S -> S -> bool).

(** The refs of [useThresholdReducer], and the store its effect is subscribed to. *)
Record Reducer : Type := mkReducer {
  current : S;
  oldStore : N;
  subscription : option N;
}.

Definition findStore (stores : list LoadedStore) (version_ collateral_ : string) :
    Res LoadedStore :=
  match List.find (fun s => String.eqb (version s) version_ &&
                            String.eqb (collateral s) collateral_) stores with
  | Some s => Ok s
  | None => Throw "Cannot read properties of undefined"
  end.

(** The first render, and a later one. *)
Definition firstRender (store : LoadedStore) : Reducer :=
  mkReducer (init (storeState store)) (storeId store) None.
Definition laterRender (store : LoadedStore) (r : Reducer) : Reducer :=
  if (oldStore r =? storeId store)%N then r
  else mkReducer (init (storeState store)) (storeId store) (subscription r).

Definition useThresholdReducer (context : option (list LoadedStore)) (version_ collateral_ : string)
    (r : option Reducer) : Res Reducer :=
  let! stores := useThresholdStore context in
  let! store := findStore stores version_ collateral_ in
  Ok (match r with None => firstRender store | Some r => laterRender store r end).

(** The effect of a render subscribes, after the clean-up of the one before; unmounting only
    cleans up. *)
Definition subscribeEffect (r : Reducer) : Reducer :=
  mkReducer (current r) (oldStore r) (Some (oldStore r)).
Definition unsubscribe (r : Reducer) : Reducer := mkReducer (current r) (oldStore r) None.

Definition dispatch (action : Dispatched) (r : Reducer) : Reducer :=
  let newState := reduce (current r) action in
  if equals newState (current r) then r
  else mkReducer newState (oldStore r) (subscription r).

(** A store notifies its listeners. *)
Definition notified (id : N) (params : Params) (r : Reducer) : Reducer :=
  match subscription r with
  | Some id' => if (id' =? id)%N then dispatch (updateStore params) r else r
  | None => r
  end.

(** [useThresholdSelector]: [isMounted], and the subscriptions its effects made, which nothing
    ends. *)
Record Selector : Type := mkSelector { isMounted : bool; subscriptions : list N }.

Definition selectorMount : Selector := mkSelector true [].
(** The effect of a render that saw [seen] as [isMounted]. *)
Definition selectorEffect (seen : bool) (stores : list LoadedStore) (s : Selector) : Selector :=
  if seen then mkSelector (isMounted s) (subscriptions s ++ map storeId stores) else s.
(** The clean-up: [setIsMounted(false)]. *)
Definition selectorCleanup (s : Selector) : Selector := mkSelector false (subscriptions s).

(** A render with other stores, and what React does then. *)
Definition selectorRender (stores : list LoadedStore) (s : Selector) : Selector :=
  selectorEffect (isMounted s) stores (selectorCleanup s).

(** Whether an update of a store has the component render again. *)
Definition hears (s : Selector) (id : N) : bool := existsb (N.eqb id) (subscriptions s).

End Hooks.
Arguments LoadedStore : clear implicits.
Arguments Reducer : clear implicits.
Arguments Dispatched : clear implicits.

(** Updates of the subscribed store are reduced, in order; others are not. *)
Lemma reducer_follows {S Params Action} (reduce : S -> Dispatched Params Action -> S)
    (equals : S -> S -> bool) (r : Reducer S) updates :
  (forall a b, equals a b = true -> a = b) ->
  current (fold_left (fun r '(id, p) => notified reduce equals id p r) updates (subscribeEffect r)) =
  fold_left (fun s '(id, p) => reduce s (updateStore p))
    (List.filter (fun '(id, _) => (oldStore r =? id)%N) updates) (current r).
Proof.
  intros He.
  assert (forall x, subscription x = Some (oldStore r) ->
    current (fold_left (fun r '(id, p) => notified reduce equals id p r) updates x) =
    fold_left (fun s '(id, p) => reduce s (updateStore p))
      (List.filter (fun '(id, _) => (oldStore r =? id)%N) updates) (current x)) as H;
    [|by apply (H (subscribeEffect r))].
  induction updates as [|[id p] updates IH]; intros x Hx; [done|]. cbn. unfold notified at 2.
  rewrite Hx. destruct (oldStore r =? id)%N; [|by apply IH]. unfold dispatch. cbn.
  destruct (equals (reduce (current x) (updateStore p)) (current x)) eqn:E.
  - rewrite IH by done. by rewrite (He _ _ E).
  - by rewrite IH.
Qed.

(** A component stays subscribed when it is unmounted; and from the second time its stores change
    on it is not subscribed to the new ones. *)
Lemma selector_leaks {State} (stores : list (LoadedStore State)) id :
  hears (selectorEffect true stores selectorMount) id =
  hears (selectorCleanup (selectorEffect true stores selectorMount)) id.
Proof. done. Qed.

Lemma selector_deaf {State} (stores1 stores2 stores3 : list (LoadedStore State)) id :
  ~ In id (map storeId stores1) -> ~ In id (map storeId stores2) ->
  hears (selectorRender stores3 (selectorRender stores2 (selectorEffect true stores1 selectorMount)))
    id = false.
Proof.
  intros H1 H2. unfold hears. cbn. apply not_true_iff_false. intros (x & Hx & ->%N.eqb_eq)%existsb_exists.
  by apply in_app_or in Hx as [?|?].
Qed.

End StoreHooks.

Module ProviderProperties.
Import LiquityStore StoreProvider.

(** ** A loaded store stays loaded *)
Section Loaded.
Context {BN : BigNumberOps} {L : Type} `{BlockPolled.Listeners L}.

Definition keeps {A} (m : St (Store BlockPolled.ExtraState L) A) : Prop :=
  forall s, _loaded s = true -> _loaded (snd (m s)) = true.

Lemma keeps_bind {A B} (m : St (Store BlockPolled.ExtraState L) A) (k : A -> St _ B) :
  keeps m -> (forall a, keeps (k a)) -> keeps (st_bind m k).
Proof.
  intros Hm Hk s Hs. specialize (Hm s Hs). unfold st_bind. destruct (m s) as [ [a|e] s1]; [|done].
  by apply Hk.
Qed.
Lemma keeps_same {A} (m : St (Store BlockPolled.ExtraState L) A) :
  (forall s, _loaded (snd (m s)) = _loaded s) -> keeps m.
Proof. intros Hm s Hs. by rewrite Hm. Qed.

Ltac keeps_steps :=
  repeat first
    [ apply keeps_bind; [|intros ?]
    | apply keeps_same; intros ?; reflexivity
    | match goal with |- keeps (match ?x with _ => _ end) => destruct x end ].

Lemma keeps_get {C : Chain} tag : keeps (BlockPolled._get tag).
Proof. unfold BlockPolled._get, BlockPolled.read, alloc. keeps_steps. Qed.

Lemma keeps_loaded : keeps (st_modify with_loaded).
Proof. by intros s. Qed.
Lemma keeps_schedule : keeps (st_modify _scheduleUpdate).
Proof.
  intros s Hs. cbn. unfold _cancelUpdateIfScheduled. by destruct (_updateTimeoutId s).
Qed.
Lemma keeps_notify {A} params (a : list N -> A) :
  keeps (do! s := st_get in
         let '(called, s') := _notify params s in
         do! _ := st_put s' in st_ret (a called)).
Proof.
  intros s Hs. cbn. destruct (_notify params s) as [called s'] eqn:E. cbn.
  apply LiquityStoreFacts.notify_go_core in E. destruct E as (-> & _). exact Hs.
Qed.
Lemma keeps_derive b : keeps (_derive b).
Proof. unfold _derive, alloc. keeps_steps. Qed.

Lemma keeps_load b e : keeps (_load b e).
Proof.
  unfold _load.
  repeat first
    [ apply keeps_derive | apply keeps_loaded | apply keeps_schedule
    | apply keeps_same; intros ?; reflexivity
    | apply keeps_bind; [|intros ?] ].
Qed.

Lemma keeps_update b e : keeps (_update b e).
Proof.
  unfold _update, updateBase, updateExtra.
  repeat first
    [ apply keeps_notify | apply keeps_derive | apply keeps_schedule
    | apply keeps_bind; [|intros ?]
    | apply keeps_same; intros ?; reflexivity
    | match goal with |- keeps (match ?x with _ => _ end) => destruct x end ].
Qed.

Lemma keeps_handle tag x : keeps (BlockPolled.handle tag x).
Proof.
  unfold BlockPolled.handle, BlockPolled.unit_.
  repeat first
    [ apply keeps_load | apply keeps_update | apply keeps_bind; [|intros ?]
    | apply keeps_same; intros ?; reflexivity
    | match goal with |- keeps (match ?x with _ => _ end) => destruct x end ].
Qed.

Definition loaded (p : BlockPolled.Polled L) : bool := _loaded (BlockPolled.store p).

Lemma step_keeps_loaded e (p : BlockPolled.Polled L) :
  loaded p = true -> loaded (BlockPolled.step e p) = true.
Proof.
  unfold loaded. destruct e as [| |b|chain i|id]; cbn [BlockPolled.step]; intros Hp; try done.
 
  - cbn. unfold stop, _cancelUpdateIfScheduled. by destruct (_updateTimeoutId _).
  - unfold BlockPolled.answered. destruct (BlockPolled.polls p !! i) as [tag|]; [|done].
    apply (keeps_bind _ _ (keeps_get tag) (keeps_handle tag)). exact Hp.
  - destruct (existsb _ _); [|done]. by apply (keeps_update None None (with_timers None _ _)).
Qed.

End Loaded.

(** ** What the provider shows *)
Section Provider.
Context {BN : BigNumberOps} {L : Type} `{BlockPolled.Listeners L}.

Definition isLoaded (s : ThresholdStore (L := L)) : bool := loaded (store s).

(** The stores in [loadedStore] are those that are loaded. *)
Definition shown (p : Provider (L := L)) : Prop :=
  Forall (fun s => onLoaded s = true) (thresholdStores p) /\
  Permutation (loadedStore p) (map name (List.filter isLoaded (thresholdStores p))).

Lemma filter_middle {A} (f : A -> bool) (l1 l2 : list A) x :
  List.filter f (l1 ++ x :: l2) = List.filter f l1 ++ (if f x then [x] else []) ++ List.filter f l2.
Proof. rewrite List.filter_app. cbn. by destruct (f x). Qed.

Lemma shown_event i e p : shown p -> shown (storeEvent i e p).
Proof.
  intros [Ho HP]. unfold storeEvent. destruct (thresholdStores p !! i) as [s|] eqn:Hs; [|done].
  pose proof (step_keeps_loaded e (store s)) as Hk. unfold loaded in Hk.
  rewrite (proj1 (Forall_lookup _ _) Ho i s Hs). cbn [andb]. split.
  - by apply Forall_insert.
  - pose proof (take_drop_middle _ _ _ Hs) as Heq. cbn [thresholdStores loadedStore].
    rewrite insert_take_drop by (by eapply lookup_lt_Some).
    rewrite <- Heq in HP. rewrite filter_middle in HP |- *.
    rewrite !map_app in HP |- *. unfold isLoaded, loaded in HP |- *. cbn [store].
    destruct (_loaded (BlockPolled.store (store s))) eqn:El.
    + rewrite Hk by done. exact HP.
    + destruct (_loaded (BlockPolled.store (BlockPolled.step e (store s)))); cbn in HP |- *; [|exact HP].
      rewrite HP. rewrite <- Permutation_cons_append. apply Permutation_middle.
Qed.

Lemma shown_run events p : shown p -> shown (run events p).
Proof.
  revert p; induction events as [|[i e] events IH]; intros p Hp; [done|]. apply IH.
  by apply shown_event.
Qed.

Lemma all_filter {A} (f : A -> bool) l :
  length (List.filter f l) = length l <-> Forall (fun x => f x = true) l.
Proof.
  induction l as [|x l IH]; [by split|]. cbn. rewrite Forall_cons. destruct (f x) eqn:E; cbn.
  - rewrite <- IH. split; [by intros [=]|]. by intros [_ ->].
  - split; [|by intros [? _]]. intros Hl. pose proof (List.filter_length_le f l). lia.
Qed.

(** Stores that are loaded before the effect runs never call [onLoaded]. *)
Definition stale (p : Provider (L := L)) : Prop :=
  Forall (fun s => isLoaded s = true) (thresholdStores p) /\ loadedStore p = [].

Lemma stale_run events p :
  stale p -> stale (run events p) /\ length (thresholdStores (run events p)) = length (thresholdStores p).
Proof.
  revert p; induction events as [|[i e] events IH]; intros p Hp; [done|].
  assert (stale (storeEvent i e p) /\
    length (thresholdStores (storeEvent i e p)) = length (thresholdStores p)) as [H1 H2].
  { destruct Hp as [Hl Hn]. unfold storeEvent.
    destruct (thresholdStores p !! i) as [s|] eqn:Hs; [|done]. cbn.
    pose proof (proj1 (Forall_lookup _ _) Hl i s Hs) as Hsl. cbn in Hsl.
    pose proof (step_keeps_loaded e (store s) Hsl) as Hk. unfold isLoaded, loaded in Hsl.
    rewrite Hsl, andb_false_r. cbn. split; [|apply length_insert]. split; [|done].
    by apply Forall_insert. }
  destruct (IH _ H1) as [H3 H4]. split; [done|].
  rewrite <- H2. exact H4.
Qed.

Lemma run_length events (p : Provider (L := L)) :
  length (thresholdStores (run events p)) = length (thresholdStores p).
Proof.
  revert p; induction events as [|[i e] events IH]; intros p; [done|].
  change (run ((i, e) :: events) p) with (run events (storeEvent i e p)). rewrite IH.
  unfold storeEvent. destruct (thresholdStores p !! i); [|done]. cbn. apply length_insert.
Qed.

(** C31: the provider of the stores: it hands the stores on exactly when every one is loaded, each
    once; but when it is unmounted no store is stopped: every store still listens to blocks and
    polls at each of them, as it did before; and mounted again with stores that are loaded it
    shows the loader, whatever happens. *)
Theorem provider_shows_loaded stores events :
  Forall (fun s => isLoaded s = false) stores ->
  let p := run events (effect (initial stores)) in
  Permutation (loadedStore p) (map name (List.filter isLoaded (thresholdStores p))) /\
  render p = (if forallb isLoaded (thresholdStores p) then Some (loadedStore p) else None) /\
  map (fun s => BlockPolled.listening (store s)) (thresholdStores (cleanup p)) =
    map (fun s => BlockPolled.listening (store s)) (thresholdStores p) /\
  (forall later, stores <> [] -> forallb isLoaded (thresholdStores p) = true ->
     render (run later (effect (cleanup p))) = None).
Proof.
  intros Hfresh p.
  assert (shown p) as [_ HP].
  { apply shown_run. unfold effect, initial. split; cbn.
    - apply Forall_map, Forall_forall. done.
    - replace (List.filter isLoaded (map startStore stores)) with (@nil (ThresholdStore (L := L)));
        [done|]. induction Hfresh as [|s l Hs _ IH]; [done|]. cbn. unfold isLoaded at 1. cbn.
      unfold isLoaded, loaded in Hs. unfold loaded. cbn. by rewrite Hs. }
  split; [exact HP|]. split; [|split].
  - unfold render. apply Permutation_length in HP. rewrite length_map in HP. rewrite HP.
    pose proof (all_filter isLoaded (thresholdStores p)) as Ha.
    destruct (Nat.eqb_spec (length (List.filter isLoaded (thresholdStores p)))
      (length (thresholdStores p))) as [E|E].
    + apply Ha in E. assert (forallb isLoaded (thresholdStores p) = true) as ->; [|done].
      apply forallb_forall. intros x Hx. by eapply Forall_forall in E; [|apply list_elem_of_In].
    + destruct (forallb isLoaded (thresholdStores p)) eqn:Ef; [|done]. destruct E. apply Ha.
      apply Forall_forall. intros x Hx%list_elem_of_In. rewrite forallb_forall in Ef. by apply Ef.
  - unfold cleanup. destruct (thresholdStores p) as [|s l] eqn:E; [by rewrite E|].
    cbn [thresholdStores].
    rewrite map_map. apply map_ext. done.
  - intros later Hne Hall.
    assert (length (thresholdStores p) = length stores) as Hlen
      by (unfold p; rewrite run_length; cbn; by rewrite length_map).
    destruct (stale_run later (effect (cleanup p))) as [ [_ Hn] Hl].
    { unfold cleanup. destruct (thresholdStores p) as [|s l] eqn:E; [by destruct stores|].
      split; [|done]. cbn -[map]. rewrite map_map. apply Forall_map, Forall_forall.
      intros x Hx%list_elem_of_In. rewrite forallb_forall in Hall. specialize (Hall x Hx).
      unfold isLoaded, loaded in *. cbn. unfold stop, _cancelUpdateIfScheduled.
      by destruct (_updateTimeoutId _). }
    unfold render. rewrite Hn, Hl. unfold cleanup. 
    destruct (thresholdStores p) as [|s l]; [by destruct stores|]. done.
Qed.

End Provider.
End ProviderProperties.

(** ** Properties of [equals] *)
Module EqualsProperties.
Import Equals.
Section Properties.
Context {V : Type} (objectIs : V -> V -> bool).
Context (objectIs_eq : forall v w, objectIs v w = true <-> v = w).

(** Keys are listed once. *)
Definition keysOnce (o : JsObject.t V) : Prop := NoDup (map fst o).

Lemma get_map_fst key (o : JsObject.t V) : is_Some (JsObject.get key o) <-> In key (map fst o).
Proof.
  induction o as [|[k v] o IH]; cbn; [by split; [intros [? [=]]|]|].
  destruct (String.eqb_spec k key) as [->|Hne].
  - split; [by left|by eexists].
  - rewrite IH. split; [by right|intros [|]; [done|done] ].
Qed.

Lemma forallb_get a b :
  forallb (fun '(key, v) => match JsObject.get key b with Some w => objectIs v w | None => false end) a
    = true <->
  forall key v, In (key, v) a -> JsObject.get key b = Some v.
Proof.
  rewrite forallb_forall. split.
  - intros H key v Hin. specialize (H _ Hin). cbn in H. destruct (JsObject.get key b) as [w|]; [|done].
    by apply objectIs_eq in H as ->.
  - intros H [key v] Hin. rewrite (H key v Hin). by apply objectIs_eq.
Qed.

(** Shallow equality is equality of the properties. *)
Lemma shallowEquals_spec a b :
  keysOnce a -> keysOnce b ->
  shallowEquals objectIs a b = true <-> forall key, JsObject.get key a = JsObject.get key b.
Proof.
  intros Ha Hb. unfold shallowEquals. rewrite andb_true_iff, Nat.eqb_eq, forallb_get. split.
  - intros [Hlen H] key. destruct (JsObject.get key a) as [v|] eqn:Ea.
    { symmetry. apply H. by apply JsObject.get_In. }
    destruct (JsObject.get key b) as [w|] eqn:Eb; [exfalso|done].
    assert (In key (map fst b)) as Hin by (apply get_map_fst; by eexists).
    assert (incl (map fst a) (map fst b)) as Hincl.
    { intros k [ [k' v] [<- Hv] ]%in_map_iff. apply get_map_fst. eexists. by apply H. }
    assert (incl (map fst b) (map fst a)) as Hincl'.
    { apply NoDup_length_incl; [by apply NoDup_ListNoDup|rewrite !length_map; lia|done]. }
    apply Hincl', get_map_fst in Hin as [x Hx]. by rewrite Ea in Hx.
  - intros H. split.
    + rewrite <- (length_map fst a), <- (length_map fst b). apply Nat.le_antisymm;
        (apply NoDup_incl_length; [by apply NoDup_ListNoDup|]); intros k Hk;
        apply get_map_fst; apply get_map_fst in Hk; by rewrite ?H in *; rewrite <- ?H in *.
    + intros key v Hin. rewrite <- H. by apply JsObject.get_In.
Qed.

End Properties.
End EqualsProperties.

(** ** Properties of [useAsyncValue] *)
Module AsyncValueProperties.
Import AsyncValue.
Section Properties.
Context {T : Type} (reduceValues : option (T -> T -> T)).

(** What is told to the hook while it is mounted. *)
Fixpoint whileMounted (events : list (Event T)) : list (Event T) :=
  match events with
  | [] => []
  | Unmount :: _ => []
  | e :: events' => e :: whileMounted events'
  end.

(** The value shown after an event, from the one before: a fetched value counts only as the first,
    and a change is reduced with the value before. *)
Definition shownAfter (shown : option T) (e : Event T) : option T :=
  match e, shown with
  | Fetched v, None => Some v
  | Fetched _, Some w => Some w
  | Changed v, Some w => Some (match reduceValues with Some f => f w v | None => v end)
  | Changed v, None => Some v
  | Unmount, w => w
  end.

Lemma unmounted_run events (h : Hook T) :
  mounted h = false -> callState (fold_left (step reduceValues) events h) = callState h.
Proof.
  revert h; induction events as [|e events IH]; intros h Hm; [done|].
  destruct e; cbn; rewrite IH; unfold fetched, onValueChanged; by rewrite ?Hm.
Qed.

(** The hook shows the value of the events that came while it was mounted, and nothing changes it
    afterwards. *)
Lemma async_value watch events :
  callState (fold_left (step reduceValues) events (mount watch)) =
  fold_left shownAfter (whileMounted events) None.
Proof.
  assert (forall h, mounted h = true -> callState h = previousValue h ->
    callState (fold_left (step reduceValues) events h) =
    fold_left shownAfter (whileMounted events) (callState h)) as H; [|by apply H].
  induction events as [|e events IH]; intros h Hm Hp; [done|]. destruct e; cbn.
  - unfold fetched. rewrite Hm, Hp. destruct (previousValue h) as [w|] eqn:E; [|by rewrite IH].
    rewrite <- Hp. apply IH; congruence.
  - unfold onValueChanged. rewrite Hm, Hp. rewrite IH by done. cbn.
    by destruct (previousValue h), reduceValues.
  - by apply (unmounted_run events (unmount h)).
Qed.

End Properties.
End AsyncValueProperties.

(** ** A provider of two stores *)
Module ProviderRuns.
Import StoreProvider ProviderProperties.
#[local] Existing Instance Z_bignumber.
#[local] Existing Instance BlockPolledRuns.quiet.

Definition stores : list (ThresholdStore (L := unit)) :=
  [mkThresholdStore (mkVersioned "eth" "v1") BlockPolled.newPolled false;
   mkThresholdStore (mkVersioned "tbtc" "v1") BlockPolled.newPolled false].

(** The second store's first poll is answered, then the first one's. *)
Definition loading : list (nat * BlockPolled.Event) :=
  [(1%nat, BlockPolled.Answered ReadableRuns.someChain 0);
   (0%nat, BlockPolled.Answered ReadableRuns.someChain 0)].

Definition provided := run loading (effect (initial stores)).

Lemma provider_shows_loaded_witness :
  render provided = Some [mkVersioned "tbtc" "v1"; mkVersioned "eth" "v1"] /\
  map (fun s => BlockPolled.listening (store s)) (thresholdStores (cleanup provided)) = [1; 1]%nat /\
  render (effect (cleanup provided)) = None.
Proof.
  destruct (provider_shows_loaded stores loading) as (_ & Hr & Hl & Hn).
  { repeat constructor. }
  fold provided in Hr, Hl, Hn.
  assert (forallb isLoaded (thresholdStores provided) = true) as Ha by (vm_compute; reflexivity).
  split; [rewrite Hr, Ha; vm_compute; reflexivity|].
  split; [rewrite Hl; vm_compute; reflexivity|].
  apply (Hn []); [discriminate|exact Ha].
Defined.

End ProviderRuns.
