(* ===== verification/Deploy.v ===== *)
(** * Deploying the contracts: [src/packages/lib-ethers/utils/deploy.ts]

    With [deployLiquity] and the task "deploy" of [hardhat.config.ts], and [utils/fsScripts.ts],
    which lists the folders of deployments that [getCollateralsDeployments] ([Connection]) reads.
    The chain is Ethers', the class [DeployChain]: what it answers may depend on everything that
    was asked of it before. *)

From S2P Require Import Prelude BigNumber Decimals Connection.
Import Connection.

Local Open Scope Z_scope.

(** [Overrides]: its properties, [None] for one that is undefined. *)
Definition Overrides : Type := JsObject.t (option Z).

Inductive Arg : Type :=
| AString (s : string)
| ANumber (z : Z)
| AArray (l : list Z)
| AOverrides (o : Overrides).

(** What is asked of the chain: a contract, by its name, or a call of a method. *)
Inductive Request : Type :=
| Deploy (contractName : string) (args : list Arg)
| Call (address method : string) (args : list Arg).

Class DeployChain `{Network} : Type := {
  (** [contract.address] *)
  contractAddress : Contract -> string;
  (** [name in contract] *)
  contractHas : string -> Contract -> bool;
  (** the address of a deployed contract and the block of its receipt *)
  deployAnswer : list Request -> Signer -> Request -> Res (string * Z);
  getChainId : list Request -> Signer -> Res Z;
  getTransactionCount : list Request -> Provider -> string -> Res Z;
  (** the promise of a call, and of its receipt *)
  callAnswer : list Request -> Signer -> Request -> Res unit;
  waitAnswer : list Request -> Signer -> Request -> Res unit;
  (** which of the promises that are rejected is the first to be *)
  rejectedFirst : list string -> string;
}.

(** What the scripts change: the requests, and the object of overrides they are given. *)
Record World : Type := mkWorld {
  requests : list Request;
  overrides : option Overrides;
}.

Module Deployment.
Section Deployment.
Context {N : Network} {C : DeployChain}.

Definition ask (r : Request) : St World unit :=
  st_modify (fun w => mkWorld (requests w ++ [r]) (overrides w)).

Definition deployContractAndGetBlockNumber (deployer : Signer) (contractName : string)
    (args : list Arg) : St World (string * Z) :=
  do! before := st_gets requests in
  do! _ := ask (Deploy contractName args) in
  st_lift (deployAnswer before deployer (Deploy contractName args)).

Definition deployContract (deployer : Signer) (contractName : string) (args : list Arg) :
    St World string :=
  do! r := deployContractAndGetBlockNumber deployer contractName args in st_ret (fst r).

(** [{ ...overrides }] *)
Definition copyOverrides : St World Arg :=
  st_gets (fun w => AOverrides (JsObject.spread [] (default [] (overrides w)))).

(** [deployContract(deployer, getContractFactory, contractName, ...args, { ...overrides })] *)
Definition deployWithOverrides (deployer : Signer) (contractName : string) (args : list Arg) :
    St World string :=
  do! o := copyOverrides in deployContract deployer contractName (args ++ [o]).

Definition zeroAddress : string := "0x0000000000000000000000000000000000000000".

Definition deployContracts (deployer : Signer) (collateralAddress : option string) (delay : Z)
    (stablecoinAddress : string) (priceFeedIsTestnet : bool) : St World (JsObject.t string * Z) :=
  do! o := copyOverrides in
  do! '(activePoolAddress, startBlock) :=
    deployContractAndGetBlockNumber deployer "ActivePool" [o] in
  do! piCalculator := deployContract deployer "PIScaledPerSecondCalculator"
    [AString "2664026470344"; AString "197304"; AString "999999711200000000000000000";
     AString "3600"; AString "1000000000000000000";
     AString "1000000000000000000000000000000000000000000000";
     AString "-999999999999999999999999999"; AArray [0; 0; 0; 0; 0]] in
  do! borrowerOperations := deployWithOverrides deployer "BorrowerOperations" [] in
  do! troveManager := deployWithOverrides deployer "TroveManager" [] in
  do! collSurplusPool := deployWithOverrides deployer "CollSurplusPool" [] in
  do! defaultPool := deployWithOverrides deployer "DefaultPool" [] in
  do! hintHelpers := deployWithOverrides deployer "HintHelpers" [] in
  do! priceFeed := deployWithOverrides deployer
    (if priceFeedIsTestnet then "PriceFeedTestnet" else "PriceFeed") [] in
  do! sortedTroves := deployWithOverrides deployer "SortedTroves" [] in
  do! stabilityPool := deployWithOverrides deployer "StabilityPool" [] in
  do! bLens := deployWithOverrides deployer "BLens" [] in
  do! gasPool := deployWithOverrides deployer "GasPool" [] in
  do! erc20 := match collateralAddress with
               | Some a => st_ret a
               | None => deployWithOverrides deployer "ERC20Test" []
               end in
  do! thusdToken :=
    if negb (String.eqb stablecoinAddress "") then st_ret stablecoinAddress
    else deployWithOverrides deployer "THUSDToken"
           [AString troveManager; AString stabilityPool; AString borrowerOperations; ANumber delay] in
  do! multiTroveGetter := deployWithOverrides deployer "MultiTroveGetter"
    [AString troveManager; AString sortedTroves] in
  st_ret
    ([("activePool", activePoolAddress); ("borrowerOperations", borrowerOperations);
      ("troveManager", troveManager); ("collSurplusPool", collSurplusPool);
      ("defaultPool", defaultPool); ("hintHelpers", hintHelpers); ("pcv", zeroAddress);
      ("priceFeed", priceFeed); ("sortedTroves", sortedTroves); ("stabilityPool", stabilityPool);
      ("bLens", bLens); ("gasPool", gasPool); ("erc20", erc20); ("bamm", zeroAddress);
      ("thusdToken", thusdToken); ("chainlink", zeroAddress); ("piCalculator", piCalculator);
      ("multiTroveGetter", multiTroveGetter)], startBlock).

Definition deployTellorCaller (deployer : Signer) (tellorAddress : string) : St World string :=
  deployWithOverrides deployer "TellorCaller" [AString tellorAddress].

(** [IOracleReqs], of the network "sepolia". *)
Record IOracleReqs : Type := mkOracleReqs { led : string; uniV3Reader : string }.

(** An argument of a connection: the address of a contract, or a value. *)
Inductive ArgExpr : Type := AddressOf (contract : string) | Value (a : Arg).

(** A function of [connections]: the contract, the method and its arguments. *)
Record Connect : Type := mkConnect { target : string; method : string; arguments : list ArgExpr }.

Definition connections (oracleReqAddresses : IOracleReqs) : list Connect :=
  [mkConnect "sortedTroves" "setParams"
     [Value (ANumber 1000000); AddressOf "troveManager"; AddressOf "borrowerOperations"];
   mkConnect "piCalculator" "setSeedProposer" [AddressOf "priceFeed"];
   mkConnect "troveManager" "setAddresses"
     (map AddressOf ["borrowerOperations"; "activePool"; "defaultPool"; "stabilityPool"; "gasPool";
                     "collSurplusPool"; "priceFeed"; "thusdToken"; "sortedTroves"; "pcv"]);
   mkConnect "borrowerOperations" "setAddresses"
     (map AddressOf ["troveManager"; "activePool"; "defaultPool"; "stabilityPool"; "gasPool";
                     "collSurplusPool"; "priceFeed"; "sortedTroves"; "thusdToken"; "pcv"; "erc20"]);
   mkConnect "stabilityPool" "setAddresses"
     (map AddressOf ["borrowerOperations"; "troveManager"; "activePool"; "thusdToken";
                     "sortedTroves"; "priceFeed"; "erc20"]);
   mkConnect "activePool" "setAddresses"
     (map AddressOf ["borrowerOperations"; "troveManager"; "stabilityPool"; "defaultPool";
                     "collSurplusPool"; "erc20"]);
   mkConnect "defaultPool" "setAddresses" (map AddressOf ["troveManager"; "activePool"; "erc20"]);
   mkConnect "collSurplusPool" "setAddresses"
     (map AddressOf ["borrowerOperations"; "troveManager"; "activePool"; "erc20"]);
   mkConnect "hintHelpers" "setAddresses" (map AddressOf ["sortedTroves"; "troveManager"]);
   mkConnect "priceFeed" "setAddresses"
     [Value (AString (led oracleReqAddresses)); AddressOf "piCalculator";
      Value (AString (uniV3Reader oracleReqAddresses))] ].

(** [contract.address], of a contract that may be missing. *)
Definition addressOf (contracts : JsObject.t Contract) (contract : string) : Res string :=
  match JsObject.get contract contracts with
  | Some c => Ok (contractAddress c)
  | None => Throw "TypeError: Cannot read properties of undefined"
  end.

Definition evaluate (contracts : JsObject.t Contract) (e : ArgExpr) : Res Arg :=
  match e with
  | AddressOf c => let! a := addressOf contracts c in Ok (AString a)
  | Value a => Ok a
  end.

(** A method is called; its promise is the request and what comes of it. *)
Definition callMethod (deployer : Signer) (r : Request) : St World (Res unit) :=
  do! before := st_gets requests in
  do! _ := ask r in
  st_ret (callAnswer before deployer r).

(** [connect(nonce)] *)
Definition connect (contracts : JsObject.t Contract) (deployer : Signer) (c : Connect) (nonce : Z) :
    St World (Request * Res unit) :=
  do! to := st_lift (addressOf contracts (target c)) in
  do! args := st_lift (res_mapM (evaluate contracts) (arguments c)) in
  do! w := st_get in
  let o := JsObject.set "nonce" (Some nonce) (JsObject.spread [] (default [] (overrides w))) in
  let r := Call to (method c) (args ++ [AOverrides o]) in
  do! promise := callMethod deployer r in
  st_ret (r, promise).

(** [connections.map((connect, i) => connect(txCount + i))] *)
Fixpoint connectAll (contracts : JsObject.t Contract) (deployer : Signer) (l : list Connect)
    (nonce : Z) : St World (list (Request * Res unit)) :=
  match l with
  | [] => st_ret []
  | c :: l' =>
      do! p := connect contracts deployer c nonce in
      do! ps := connectAll contracts deployer l' (nonce + 1) in
      st_ret (p :: ps)
  end.

(** [await Promise.all(promises)], for what the promises come to. *)
Definition promiseAll (results : list (Res unit)) : Res unit :=
  match omap (fun r => match r with Throw m => Some m | Ok _ => None end) results with
  | [] => Ok tt
  | failures => Throw (rejectedFirst failures)
  end.

(** [overrides!.gasLimit = 600000] *)
Definition setGasLimit : St World unit :=
  fun w => match overrides w with
           | Some o => (Ok tt, mkWorld (requests w) (Some (JsObject.set "gasLimit" (Some 600000) o)))
           | None => (Throw "TypeError: Cannot set properties of undefined (setting 'gasLimit')", w)
           end.

Definition connectContracts (contracts : JsObject.t Contract) (oracleReqAddresses : IOracleReqs)
    (deployer : Signer) : St World unit :=
  match signer_provider deployer with
  | None => st_throw "Signer must have a provider."
  | Some provider =>
      do! _ := setGasLimit in
      do! before := st_gets requests in
      do! txCount := st_lift (let! a := signer_getAddress deployer in
                              getTransactionCount before provider a) in
      do! txs := connectAll contracts deployer (connections oracleReqAddresses) txCount in
      do! _ := st_lift (promiseAll (map snd txs)) in
      do! after := st_gets requests in
      st_lift (promiseAll (map (fun tx => waitAnswer after deployer (fst tx)) txs))
  end.

(** [now] is the time of [new Date()]; whatever [_priceFeedIsTestnet] is, it is set to false. *)
Definition deployAndSetupContracts (deployer : Signer) (oracleReqAddresses : IOracleReqs)
    (collateralAddress : option string) (delay : Z) (stablecoinAddress : string)
    (_priceFeedIsTestnet _isDev : bool) (now : Z) : St World _LiquityDeploymentJSON :=
  match signer_provider deployer with
  | None => st_throw "Signer must have a provider."
  | Some _ =>
      do! before := st_gets requests in
      do! chainId := st_lift (getChainId before deployer) in
      do! '(addresses, startBlock) :=
        deployContracts deployer collateralAddress delay stablecoinAddress false in
      let deployment := mkDeployment chainId (Some addresses) "unknown" now startBlock false _isDev in
      do! contracts := st_lift (_connectToContracts (inl deployer) deployment) in
      do! _ := connectContracts contracts oracleReqAddresses deployer in
      st_ret deployment
  end.

(** ** [hardhat.config.ts] *)

Definition oracleReqAddresses : IOracleReqs :=
  mkOracleReqs "0x637Da92c06a9c1c9Fc0Ae3700aCe13fE8e1d74E7"
    "0x1780a629518ECC50ae25B99A02Aed0fcdEa1F56A".

(** [env.deployLiquity]; [contractsVersion] is the one the module has read. *)
Definition deployLiquity (contractsVersion networkName : string) (deployer : Signer)
    (collateralAddress : option string) (delay : option Z) (stablecoinAddress : option string)
    (useRealPriceFeed : option bool) (now : Z) : St World _LiquityDeploymentJSON :=
  do! d := deployAndSetupContracts deployer oracleReqAddresses collateralAddress
    (default (90 * 24 * 60 * 60) delay) (default "" stablecoinAddress)
    (negb (default false useRealPriceFeed)) (String.eqb networkName "dev") now in
  st_ret (mkDeployment (chainId d) (addresses d) contractsVersion (deploymentDate d) (startBlock d)
            (Connection._priceFeedIsTestnet d) (Connection._isDev d)).

Record IOracles : Type := mkOracles { chainlink : string; tellor : string }.

Definition oracleAddresses : JsObject.t (JsObject.t IOracles) :=
  [("mainnet",
    [("btc", mkOracles "0xF4030086522a5bEEa4988F8cA5B36dbC97BeE88c"
                       "0x88dF592F8eb5D7Bd38bFeF7dEb0fBc02cf3778a0");
     ("eth", mkOracles "0x5f4eC3Df9cbd43714FE2740f5E3616155c5b8419"
                       "0x88dF592F8eb5D7Bd38bFeF7dEb0fBc02cf3778a0");
     ("thusd", mkOracles "0x3D7aE7E594f2f2091Ad8798313450130d0Aba3a0"
                         "0x88dF592F8eb5D7Bd38bFeF7dEb0fBc02cf3778a0")]);
   ("goerli",
    [("btc", mkOracles "0xA39434A63A52E749F02807ae27335515BA4b07F7"
                       "0x20374E579832859f180536A69093A126Db1c8aE9");
     ("eth", mkOracles "0xD4a33860578De61DBAbDc8BFdb98FD742fA7028e"
                       "0x20374E579832859f180536A69093A126Db1c8aE9")]);
   ("sepolia",
    [("btc", mkOracles "0x1b44F3514812d835EB1BDB0acB33d3fA3351Ee43"
                       "0x20374E579832859f180536A69093A126Db1c8aE9");
     ("eth", mkOracles "0x694AA1769357215DE4FAC081bf1f309aDC325306"
                       "0x20374E579832859f180536A69093A126Db1c8aE9");
     ("usd", mkOracles "0x694AA1769357215DE4FAC081bf1f309aDC325306"
                       "0x20374E579832859f180536A69093A126Db1c8aE9")])].

Definition hasOracles (network : string) : bool := JsObject.has network oracleAddresses.

(** [oracleAddresses[network][collateralSymbol]], whose property is read next. *)
Definition oraclesOf (network : string) (collateralSymbol : option string) : Res IOracles :=
  match JsObject.get network oracleAddresses ≫= JsObject.get (default "undefined" collateralSymbol) with
  | Some o => Ok o
  | None => Throw "TypeError: Cannot read properties of undefined"
  end.

(** ** Files: [utils/fsScripts.ts] and the end of the task "deploy" *)

(** What a file may hold. *)
Inductive Contents : Type :=
| DeploymentFile (d : _LiquityDeploymentJSON)
| FoldersFile (f : FolderInfo)
| OtherFile.

(** What is below a folder, in the order of [readdir]. *)
#[warnings="-register-all"]
Inductive Entry : Type :=
| File (c : Contents)
| Directory (contents : list (string * Entry)).
Definition Directory_ : Type := JsObject.t Entry.

(** [path.join(...segments)], as the names on the way. *)
Definition joinName (names : list string) (name : string) : list string :=
  if String.eqb name "" || String.eqb name "." then names
  else if String.eqb name ".." then
    match last names with
    | Some l => if String.eqb l ".." then names ++ [name] else removelast names
    | None => [name]
    end
  else names ++ [name].
Definition pathJoin (segments : list string) : list string :=
  fold_left joinName (concat (map (Js.split "/") segments)) [].

(** [mkdir(path, { recursive: true })] *)
Fixpoint mkdir (names : list string) (d : Directory_) : Res Directory_ :=
  match names with
  | [] => Ok d
  | n :: names' =>
      match JsObject.get n d with
      | Some (File _) => Throw "EEXIST"
      | Some (Directory sub) => let! sub' := mkdir names' sub in Ok (JsObject.set n (Directory sub') d)
      | None => let! sub' := mkdir names' [] in Ok (JsObject.set n (Directory sub') d)
      end
  end.

(** [writeFile(path, contents)] *)
Fixpoint writeFile (names : list string) (c : Contents) (d : Directory_) : Res Directory_ :=
  match names with
  | [] => Throw "EISDIR"
  | n :: names' =>
      match names', JsObject.get n d with
      | [], Some (Directory _) => Throw "EISDIR"
      | [], _ => Ok (JsObject.set n (File c) d)
      | _, Some (Directory sub) =>
          let! sub' := writeFile names' c sub in Ok (JsObject.set n (Directory sub') d)
      | _, Some (File _) => Throw "ENOTDIR"
      | _, None => Throw "ENOENT"
      end
  end.

(** What is at a path. *)
Fixpoint lookupPath (names : list string) (d : Directory_) : option Entry :=
  match names with
  | [] => Some (Directory d)
  | n :: names' =>
      match JsObject.get n d, names' with
      | Some e, [] => Some e
      | Some (Directory sub), _ => lookupPath names' sub
      | _, _ => None
      end
  end.

(** [path.posix.basename(path)] of a path that does not end in a slash. *)
Definition basename (path : string) : string := List.last (Js.split "/" path) "".

(** [getFolderInfo(folderPath)], of an entry: [None] for what is no folder. *)
Fixpoint folderInfo (folderPath : string) (e : Entry) : option FolderInfo :=
  match e with
  | File _ => None
  | Directory contents =>
      let subfolders := (fix go (items : list (string * Entry)) :=
        match items with
        | [] => []
        | (name, item) :: items' =>
            match folderInfo (folderPath +:+ "/" +:+ name) item with
            | Some f => f :: go items'
            | None => go items'
            end
        end) contents in
      Some (folder folderPath (basename folderPath)
              (match subfolders with [] => None | _ => Some subfolders end))
  end.

Definition getFolderInfo (names : list string) (d : Directory_) : Res FolderInfo :=
  match lookupPath names d with
  | Some e => match folderInfo (Js.join "/" names) e with
              | Some f => Ok f
              | None => Throw "ENOTDIR"
              end
  | None => Throw "ENOENT"
  end.

(** The [try] block of the task; what was written before an error stays written. *)
Definition saveDeployment (channel : string) (collateralSymbol : option string)
    (contractsVersion networkName : string) (deployment : _LiquityDeploymentJSON) :
    St Directory_ unit :=
  let update (f : Directory_ -> Res Directory_) : St Directory_ unit :=
    do! d := st_get in do! d' := st_lift (f d) in st_put d' in
  match collateralSymbol with
  | None => st_throw "TypeError: The path argument must be of type string"
  | Some symbol =>
      let folder := ["deployments"; channel; symbol; contractsVersion] in
      do! _ := update (mkdir (pathJoin folder)) in
      do! _ := update (writeFile (pathJoin (folder ++ [networkName +:+ ".json"]))
                         (DeploymentFile deployment)) in
      do! d := st_get in
      do! info := st_lift (getFolderInfo (pathJoin ["deployments"; channel]) d) in
      do! _ := update (mkdir (pathJoin ["deployments"; "collaterals"])) in
      update (writeFile (pathJoin ["deployments"; "collaterals"; "collaterals.json"])
                (FoldersFile info))
  end.

(** The object of overrides the task makes: [gasPrice && Decimal.from(gasPrice).div(...).hex]. *)
Definition taskOverrides {BN : BigNumberOps} (gasPrice : option string) : Res Overrides :=
  match gasPrice with
  | None => Ok [("gasPrice", None)]
  | Some g =>
      if String.eqb g "0" then Ok [("gasPrice", Some 0)]
      else
        let! p := Decimal.from (Decimal.ofNumber g) in
        let! q := Decimal.div p (Decimal.ofNumber "1000000000") in
        Ok [("gasPrice", Some (Decimal._bigNumber q))]
  end.

Record DeployParams : Type := mkDeployParams {
  channel : string;
  collateralSymbol : option string;
  collateralAddress : option string;
  contractsVersion_ : string;
  delay_ : Z;
  stablecoinAddress_ : string;
  gasPrice : option string;
  useRealPriceFeed_ : option bool;
}.

(** The price feed is told its oracles. *)
Definition hookUpPriceFeed (deployer : Signer) (networkName : string)
    (collateralSymbol : option string) (contracts : JsObject.t Contract) : St World unit :=
  do! oracles := st_lift (oraclesOf networkName collateralSymbol) in
  do! tellorCallerAddress := deployTellorCaller deployer (tellor oracles) in
  do! to := st_lift (addressOf contracts "priceFeed") in
  do! w := st_get in
  let r := Call to "setAddresses"
             [AString (chainlink oracles); AString tellorCallerAddress;
              AOverrides (default [] (overrides w))] in
  do! promise := callMethod deployer r in
  do! _ := st_lift promise in
  do! after := st_gets requests in
  st_lift (waitAnswer after deployer r).

(** The task up to its files; [contractsVersion] is the one the module has read. *)
Definition deployTask {BN : BigNumberOps} (contractsVersion networkName : string)
    (deployer : Signer) (p : DeployParams) (now : Z) : St World _LiquityDeploymentJSON :=
  do! o := st_lift (taskOverrides (gasPrice p)) in
  do! _ := st_modify (fun w => mkWorld (requests w) (Some o)) in
  let useRealPriceFeed := default (String.eqb networkName "mainnet") (useRealPriceFeed_ p) in
  if useRealPriceFeed && negb (hasOracles networkName) then
    st_throw ("PriceFeed not supported on " +:+ networkName)
  else
    do! deployment := deployLiquity contractsVersion networkName deployer (collateralAddress p)
      (Some (delay_ p)) (Some (stablecoinAddress_ p)) (Some useRealPriceFeed) now in
    do! _ :=
      if useRealPriceFeed then
        do! contracts := st_lift (_connectToContracts (inl deployer) deployment) in
        do! isTestnet := st_lift (match JsObject.get "priceFeed" contracts with
                                  | Some c => Ok (contractHas "setPrice" c)
                                  | None => Throw "TypeError"
                                  end) in
        do! _ := st_lift (assert_ (negb isTestnet)) in
        if hasOracles networkName
        then hookUpPriceFeed deployer networkName (collateralSymbol p) contracts
        else st_ret tt
      else st_ret tt in
    st_ret deployment.

(** The task: what the chain was asked, and the files afterwards. *)
Definition deployAndSave {BN : BigNumberOps} (contractsVersion networkName : string)
    (deployer : Signer) (p : DeployParams) (now : Z) (files : Directory_) (w : World) :
    Res Directory_ * World :=
  match deployTask contractsVersion networkName deployer p now w with
  | (Ok deployment, w') =>
      (Ok (snd (saveDeployment (channel p) (collateralSymbol p) (contractsVersion_ p) networkName
                  deployment files)), w')
  | (Throw m, w') => (Throw m, w')
  end.

End Deployment.
End Deployment.
