(* ===== verification/DeployProperties.v ===== *)
(** * Properties of the deployment of the contracts ([Deploy]) *)

From S2P Require Import Prelude BigNumber Decimals Connection Deploy.
Import Connection Deployment.

Local Open Scope Z_scope.

(** ** What the contracts expect *)
Module Contracts.

(** The contracts that are told of the others (their keys in a deployment), the function that tells
    them and its parameters, from [src/packages/contracts/contracts] and [rai]. *)
Definition setters : list (string * string * list string) :=
  [("sortedTroves", "setParams", ["_size"; "_troveManagerAddress"; "_borrowerOperationsAddress"]);
   ("piCalculator", "setSeedProposer", ["addr"]);
   ("troveManager", "setAddresses",
    ["_borrowerOperationsAddress"; "_activePoolAddress"; "_defaultPoolAddress";
     "_stabilityPoolAddress"; "_gasPoolAddress"; "_collSurplusPoolAddress"; "_priceFeedAddress";
     "_thusdTokenAddress"; "_sortedTrovesAddress"; "_pcvAddress"]);
   ("borrowerOperations", "setAddresses",
    ["_troveManagerAddress"; "_activePoolAddress"; "_defaultPoolAddress"; "_stabilityPoolAddress";
     "_gasPoolAddress"; "_collSurplusPoolAddress"; "_priceFeedAddress"; "_sortedTrovesAddress";
     "_thusdTokenAddress"; "_pcvAddress"; "_collateralAddress"]);
   ("stabilityPool", "setAddresses",
    ["_borrowerOperationsAddress"; "_troveManagerAddress"; "_activePoolAddress";
     "_thusdTokenAddress"; "_sortedTrovesAddress"; "_priceFeedAddress"; "_collateralAddress"]);
   ("activePool", "setAddresses",
    ["_borrowerOperationsAddress"; "_troveManagerAddress"; "_stabilityPoolAddress";
     "_defaultPoolAddress"; "_collSurplusPoolAddress"; "_collateralAddress"]);
   ("defaultPool", "setAddresses",
    ["_troveManagerAddress"; "_activePoolAddress"; "_collateralAddress"]);
   ("collSurplusPool", "setAddresses",
    ["_borrowerOperationsAddress"; "_troveManagerAddress"; "_activePoolAddress";
     "_collateralAddress"]);
   ("hintHelpers", "setAddresses", ["_sortedTrovesAddress"; "_troveManagerAddress"]);
   ("priceFeed", "setAddresses", ["_ledAddress"; "_pidCalculatorAddress"; "_uniV3ReaderAddress"])].

(** The contract a parameter is the address of. *)
Definition role : JsObject.t string :=
  [("_borrowerOperationsAddress", "borrowerOperations"); ("_troveManagerAddress", "troveManager");
   ("_activePoolAddress", "activePool"); ("_defaultPoolAddress", "defaultPool");
   ("_stabilityPoolAddress", "stabilityPool"); ("_gasPoolAddress", "gasPool");
   ("_collSurplusPoolAddress", "collSurplusPool"); ("_priceFeedAddress", "priceFeed");
   ("_thusdTokenAddress", "thusdToken"); ("_sortedTrovesAddress", "sortedTroves");
   ("_pcvAddress", "pcv"); ("_collateralAddress", "erc20"); ("addr", "priceFeed");
   ("_pidCalculatorAddress", "piCalculator")].

(** What a parameter is given: the address of its role in the deployment, or the size of the list
    and the two oracles that exist already. *)
Definition argument (oracles : IOracleReqs) (addresses : JsObject.t string) (param : string) : Arg :=
  match JsObject.get param role with
  | Some key => AString (default "" (JsObject.get key addresses))
  | None =>
      if String.eqb param "_size" then ANumber 1000000
      else AString (if String.eqb param "_ledAddress" then led oracles else uniV3Reader oracles)
  end.

(** The transaction that tells a contract, with its place in the sequence. *)
Definition tell (oracles : IOracleReqs) (addresses : JsObject.t string) (o : Overrides) (nonce : Z)
    (setter : string * string * list string) : Request :=
  let '(key, method, params) := setter in
  Call (default "" (JsObject.get key addresses)) method
    (map (argument oracles addresses) params ++ [AOverrides (JsObject.set "nonce" (Some nonce) o)]).

End Contracts.

Module DeployProperties.
Import Contracts.
Section Properties.
Context {N : Network} {C : DeployChain}.

Definition isDeploy (r : Request) : bool := match r with Deploy _ _ => true | Call _ _ _ => false end.

(** ** Deploying *)

(** A computation that asks for deployments only. *)
Definition grows (w w' : World) : Prop :=
  overrides w' = overrides w /\
  exists ds, requests w' = requests w ++ ds /\ Forall (fun r => isDeploy r = true) ds.

#[local] Instance grows_preorder : PreOrder grows.
Proof.
  split.
  - intros w. split; [done|]. exists []. by rewrite app_nil_r.
  - intros w1 w2 w3 [H1 (d1 & E1 & F1)] [H2 (d2 & E2 & F2)]. split; [congruence|].
    exists (d1 ++ d2). rewrite E2, E1, <- app_assoc. split; [done|]. by apply Forall_app.
Qed.

Definition deploysOnly {A} (m : St World A) : Prop := forall w, grows w (snd (m w)).

Lemma deploysOnly_bind {A B} (m : St World A) (k : A -> St World B) :
  deploysOnly m -> (forall a, deploysOnly (k a)) -> deploysOnly (st_bind m k).
Proof.
  intros Hm Hk w. unfold st_bind. specialize (Hm w). destruct (m w) as [ [a|e] w']; [|exact Hm].
  etrans; [exact Hm|apply Hk].
Qed.
Lemma deploysOnly_pure {A} (m : St World A) : (forall w, snd (m w) = w) -> deploysOnly m.
Proof. intros H w. by rewrite H. Qed.

Lemma deploysOnly_deploy s name args : deploysOnly (deployContractAndGetBlockNumber s name args).
Proof.
  intros w. split; [done|]. exists [Deploy name args]. split; [done|]. by repeat constructor.
Qed.

Ltac deploys_only :=
  repeat first
    [ apply deploysOnly_deploy
    | apply deploysOnly_bind; [|intros ?]
    | apply deploysOnly_pure; intros ?; reflexivity
    | match goal with |- deploysOnly (match ?x with _ => _ end) => destruct x end ].

Lemma deploysOnly_with s name args : deploysOnly (deployWithOverrides s name args).
Proof. unfold deployWithOverrides, copyOverrides, deployContract. deploys_only. Qed.

Lemma deploysOnly_contracts s ca delay sa feed : deploysOnly (deployContracts s ca delay sa feed).
Proof.
  unfold deployContracts, deployContract, copyOverrides.
  repeat first [apply deploysOnly_with | progress deploys_only].
Qed.

(** The chain deployed the contract called [name] at [a], among the requests [rs]. *)
Definition createdBy (s : Signer) (rs : list Request) (name a : string) : Prop :=
  exists before after args b,
    rs = before ++ Deploy name args :: after /\ deployAnswer before s (Deploy name args) = Ok (a, b).

Definition created (s : Signer) (w : World) (made : list (string * string)) : Prop :=
  Forall (fun '(name, a) => createdBy s (requests w) name a) made.

Lemma created_grows s w w' made : grows w w' -> created s w made -> created s w' made.
Proof.
  intros [_ (ds & E & _)] H. eapply Forall_impl; [exact H|].
  intros [name a] (before & after & args & b & E' & Ha). exists before, (after ++ ds), args, b.
  split; [|done]. rewrite E, E'. by rewrite <- app_assoc.
Qed.

Lemma created_block s name args made a b w w' :
  deployContractAndGetBlockNumber s name args w = (Ok (a, b), w') ->
  created s w made -> created s w' ((name, a) :: made).
Proof.
  intros H Hm. pose proof (deploysOnly_deploy s name args w) as Hg. rewrite H in Hg. constructor.
  - apply st_bind_inv in H as (before & w1 & [= <- <-] & H). cbn in H. injection H as Ha <-.
    exists (requests w), [], args, b. by split.
  - by eapply created_grows.
Qed.

Lemma created_deploy s name args made a w w' :
  deployContract s name args w = (Ok a, w') ->
  created s w made -> created s w' ((name, a) :: made).
Proof.
  intros H. apply st_bind_inv in H as ([a' b] & w1 & H & [= <- <-]). by eapply created_block.
Qed.

Lemma created_with s name args made a w w' :
  deployWithOverrides s name args w = (Ok a, w') ->
  created s w made -> created s w' ((name, a) :: made).
Proof.
  intros H. apply st_bind_inv in H as (o & w1 & [= <- <-] & H). by eapply created_deploy.
Qed.

(** The contracts of a deployment that are not deployed, with their addresses: three stay at the zero
    address, the collateral and the token may be given. *)
Definition undeployed (collateralAddress : option string) (stablecoinAddress : string) :
    JsObject.t string :=
  [("pcv", zeroAddress); ("bamm", zeroAddress); ("chainlink", zeroAddress)] ++
  match collateralAddress with Some a => [("erc20", a)] | None => [] end ++
  (if String.eqb stablecoinAddress "" then [] else [("thusdToken", stablecoinAddress)]).

(** The address [a] of a contract is the one it was left at or given, or that of the contract
    deployed as [library] calls its interface. *)
Definition comesFrom (s : Signer) (rs : list Request) (library fixed : JsObject.t string)
    (key a : string) : Prop :=
  match JsObject.get key fixed with
  | Some a' => a = a'
  | None => exists name, JsObject.get key library = Some name /\ createdBy s rs name a
  end.

(** Takes the next deployment of a run apart. *)
Ltac next_deployed H Hm :=
  apply st_bind_inv in H as (? & ? & Hd & H);
  first [eapply created_with in Hd; [|exact Hm] | eapply created_deploy in Hd; [|exact Hm] ];
  clear Hm; rename Hd into Hm.

Lemma created_collateral s ca made a w w' :
  (match ca with Some a => st_ret a | None => deployWithOverrides s "ERC20Test" [] end) w =
    (Ok a, w') ->
  created s w made ->
  exists made', created s w' (made' ++ made) /\
    match ca with Some c => a = c | None => In ("ERC20Test", a) made' end.
Proof.
  destruct ca as [c|]; intros H Hm; [injection H as <- <-; by exists []|].
  eapply created_with in H; [|done]. exists [("ERC20Test", a)]. split; [done|]. by left.
Qed.

Lemma created_token s sa args made a w w' :
  (if negb (String.eqb sa "") then st_ret sa else deployWithOverrides s "THUSDToken" args) w =
    (Ok a, w') ->
  created s w made ->
  exists made', created s w' (made' ++ made) /\
    if String.eqb sa "" then In ("THUSDToken", a) made' else a = sa.
Proof.
  destruct (String.eqb sa ""); intros H Hm; [|injection H as <- <-; by exists []].
  eapply created_with in H; [|done]. exists [("THUSDToken", a)]. split; [done|]. by left.
Qed.

Definition keys : list string :=
  ["activePool"; "borrowerOperations"; "troveManager"; "collSurplusPool"; "defaultPool";
   "hintHelpers"; "pcv"; "priceFeed"; "sortedTroves"; "stabilityPool"; "bLens"; "gasPool"; "erc20";
   "bamm"; "thusdToken"; "chainlink"; "piCalculator"; "multiTroveGetter"].

Lemma deployContracts_created s ca delay sa addresses b w w' :
  deployContracts s ca delay sa false w = (Ok (addresses, b), w') ->
  map fst addresses = keys /\
  (forall key a, In (key, a) addresses ->
     comesFrom s (requests w') (getAbi false) (undeployed ca sa) key a).
Proof.
  intros H. unfold deployContracts in H.
  apply st_bind_inv in H as (o & w1 & [= <- <-] & H).
  apply st_bind_inv in H as ([ap b'] & w2 & Hm & H).
  eapply created_block in Hm; [|by apply Forall_nil].
  do 11 next_deployed H Hm.
  apply st_bind_inv in H as (erc20 & w3 & Hd & H).
  eapply created_collateral in Hd as (m1 & Hd & Hca); [|exact Hm]. clear Hm. rename Hd into Hm.
  apply st_bind_inv in H as (token & w4 & Hd & H).
  eapply created_token in Hd as (m2 & Hd & Hsa); [|exact Hm]. clear Hm. rename Hd into Hm.
  next_deployed H Hm. injection H as <- <- ->. split; [reflexivity|].
  unfold created in Hm. rewrite Forall_forall in Hm.
  intros key a Hin. cbn [In] in Hin.
  repeat match type of Hin with
    | _ \/ _ => destruct Hin as [ [= <- <-]|Hin]
    | False => destruct Hin
    end;
  unfold comesFrom, undeployed; destruct ca, (String.eqb sa ""); cbn; try congruence;
  (eexists; split; [reflexivity|]; apply (Hm (_, _)), list_elem_of_In;
   cbn [In]; rewrite !in_app_iff; cbn [In]);
  tauto.
Qed.

(** ** Connecting *)

Context (contract_at : forall address abi s c,
  newContract address abi s = Ok c -> contractAddress c = address).

Lemma keys_once : NoDup keys.
Proof. by apply (bool_decide_unpack _). Qed.

Lemma addressOf_connected s d addrs cs key a :
  _connectToContracts (inl s) d = Ok cs -> addresses d = Some addrs -> map fst addrs = keys ->
  In (key, a) addrs -> addressOf cs key = Ok a.
Proof.
  intros H Ha Hk Hin. apply ConnectionProperties.contracts_connected in H as (_ & addrs' & Ha' & H).
  rewrite Ha in Ha'. injection Ha' as <-. destruct (H ltac:(rewrite Hk; apply keys_once) key a Hin)
    as (abi & c & _ & Hc & Hcs). unfold addressOf. rewrite Hcs. f_equal. by eapply contract_at.
Qed.

(** Every contract a connection mentions is one of the deployment. *)
Definition mentioned (e : ArgExpr) : bool :=
  match e with AddressOf k => existsb (String.eqb k) keys | Value _ => true end.
Definition known (c : Connect) : bool :=
  existsb (String.eqb (target c)) keys && forallb mentioned (arguments c).

Definition valueOf (addrs : JsObject.t string) (e : ArgExpr) : Arg :=
  match e with AddressOf k => AString (default "" (JsObject.get k addrs)) | Value a => a end.
Definition requestOf (addrs : JsObject.t string) (o : Overrides) (c : Connect) (nonce : Z) : Request :=
  Call (default "" (JsObject.get (target c) addrs)) (method c)
    (map (valueOf addrs) (arguments c) ++ [AOverrides (JsObject.set "nonce" (Some nonce) o)]).

Section Connect.
Context (s : Signer) (addrs : JsObject.t string) (cs : JsObject.t Contract).
Context (Hkeys : map fst addrs = keys).
Context (Haddr : forall key a, In (key, a) addrs -> addressOf cs key = Ok a).

Lemma addressOf_known key :
  existsb (String.eqb key) keys = true ->
  addressOf cs key = Ok (default "" (JsObject.get key addrs)).
Proof.
  intros (k & Hin & ->%String.eqb_eq)%existsb_exists. rewrite <- Hkeys in Hin.
  apply in_map_iff in Hin as ([k' a] & <- & Hin). cbn [fst]. rewrite (Haddr _ _ Hin).
  apply JsObject.get_In in Hin; [|rewrite Hkeys; apply keys_once]. cbn. by rewrite Hin.
Qed.

Lemma connect_spec c nonce w :
  known c = true ->
  let o := JsObject.spread [] (default [] (overrides w)) in
  let r := requestOf addrs o c nonce in
  connect cs s c nonce w =
    (Ok (r, callAnswer (requests w) s r), mkWorld (requests w ++ [r]) (overrides w)).
Proof.
  intros [Ht Ha]%andb_true_iff o r. unfold connect, st_bind, st_lift.
  rewrite (addressOf_known _ Ht).
  rewrite (res_mapM_Ok (valueOf addrs)); [reflexivity|].
  intros e He. rewrite forallb_forall in Ha. specialize (Ha e He). destruct e as [k|a]; [|done].
  cbn [evaluate mentioned valueOf] in *. by rewrite (addressOf_known _ Ha).
Qed.

Lemma connectAll_spec l nonce w :
  forallb known l = true ->
  exists ps, let rs := imap (fun i c => requestOf addrs
                 (JsObject.spread [] (default [] (overrides w))) c (nonce + Z.of_nat i)) l in
  map fst ps = rs /\
  connectAll cs s l nonce w = (Ok ps, mkWorld (requests w ++ rs) (overrides w)) /\
  ((forall pre r, callAnswer pre s r = Ok tt) -> Forall (fun p => snd p = Ok tt) ps).
Proof.
  revert nonce w; induction l as [|c l IH]; intros nonce w Hk.
  { exists []. cbn. rewrite app_nil_r. by destruct w. }
  apply andb_true_iff in Hk as [Hc Hl].
  set (o := JsObject.spread [] (default [] (overrides w))).
  set (r := requestOf addrs o c nonce).
  destruct (IH (nonce + 1) (mkWorld (requests w ++ [r]) (overrides w)) Hl) as (ps & H1 & H2 & H3).
  cbn [overrides requests] in H1, H2.
  exists ((r, callAnswer (requests w) s r) :: ps). rewrite imap_cons. cbn zeta.
  assert (imap ((fun i c => requestOf addrs o c (nonce + Z.of_nat i)) ∘ S) l = map fst ps) as Heq.
  { rewrite H1. apply imap_ext. intros i x _. cbn. f_equal. lia. }
  change (Z.of_nat 0) with 0. rewrite Z.add_0_r. fold r. fold o in H1, H2. rewrite Heq.
  split; [done|]. split.
  - cbn [connectAll]. rewrite (st_bind_Ok _ _ _ _ _ (connect_spec c nonce w Hc)). fold o r.
    rewrite (st_bind_Ok _ _ _ _ _ H2). unfold st_ret. rewrite H1, <- app_assoc. done.
  - intros Hok. constructor; [apply Hok|by apply H3].
Qed.

End Connect.

Lemma connections_known oracles : forallb known (connections oracles) = true.
Proof. reflexivity. Qed.

(** The connections are what the contracts expect. *)
Lemma connections_tell addrs oracles o txCount :
  imap (fun i c => requestOf addrs o c (txCount + Z.of_nat i)) (connections oracles) =
  imap (fun i => tell oracles addrs o (txCount + Z.of_nat i)) setters.
Proof. reflexivity. Qed.

Lemma promiseAll_ok {A} (f : A -> Res unit) l :
  Forall (fun x => f x = Ok tt) l -> promiseAll (map f l) = Ok tt.
Proof.
  intros H. unfold promiseAll.
  assert (omap (fun r : Res unit => match r with Throw m => Some m | Ok _ => None end) (map f l) = [])
    as ->; [|done].
  induction H as [|x l Hx _ IH]; [done|]. cbn. by rewrite Hx.
Qed.

Lemma connectContracts_inv cs oracles s addrs w w' :
  map fst addrs = keys -> (forall key a, In (key, a) addrs -> addressOf cs key = Ok a) ->
  connectContracts cs oracles s w = (Ok tt, w') ->
  exists o txCount, overrides w = Some o /\
    let o' := JsObject.set "gasLimit" (Some 600000) o in
    w' = mkWorld (requests w ++ imap (fun i =>
           tell oracles addrs (JsObject.spread [] o') (txCount + Z.of_nat i)) setters) (Some o').
Proof.
  intros Hk Ha H. unfold connectContracts in H. destruct (signer_provider s) as [p|]; [|done].
  apply st_bind_inv in H as ([] & w1 & H1 & H). unfold setGasLimit in H1.
  destruct (overrides w) as [o|]; [|done]. injection H1 as <-. exists o.
  apply st_bind_inv in H as (before & w2 & [= <- <-] & H).
  apply st_bind_inv in H as (txCount & w3 & H2 & H). injection H2 as _ <-.
  exists txCount. split; [done|]. cbn zeta.
  destruct (connectAll_spec s addrs cs Hk Ha (connections oracles) txCount
    (mkWorld (requests w) (Some (JsObject.set "gasLimit" (Some 600000) o)))
    (connections_known oracles)) as (ps & H1 & H2 & _).
  rewrite (st_bind_Ok _ _ _ _ _ H2) in H. apply st_bind_inv in H as (? & w4 & Hw & H).
  apply pair_equal_spec in Hw as [_ <-]. apply st_bind_inv in H as (? & w5 & Hw & H).
  apply pair_equal_spec in Hw as [_ <-]. apply pair_equal_spec in H as [_ <-].
  cbn [requests overrides default]. by rewrite connections_tell.
Qed.

(** A signer and a chain that answer. *)
Record Reliable (s : Signer) : Prop := mkReliable {
  reliable_provider : is_Some (signer_provider s);
  reliable_address : exists a, signer_getAddress s = Ok a;
  reliable_chainId : forall pre, exists c, getChainId pre s = Ok c;
  reliable_txCount : forall pre p a, exists n, getTransactionCount pre p a = Ok n;
  reliable_deploy : forall pre r, exists a b, deployAnswer pre s r = Ok (a, b) /\ a <> "";
  reliable_call : forall pre r, callAnswer pre s r = Ok tt;
  reliable_wait : forall pre r, waitAnswer pre s r = Ok tt;
  reliable_contract : forall a abi, exists c, newContract a abi (inl s) = Ok c;
}.

Section Reliable.
Context (s : Signer) (Hs : Reliable s).

Lemma reliable_block name args w :
  exists a b w', deployContractAndGetBlockNumber s name args w = (Ok (a, b), w') /\ a <> "".
Proof.
  destruct (reliable_deploy s Hs (requests w) (Deploy name args)) as (a & b & Ha & Hne).
  exists a, b. eexists. split; [|done]. unfold deployContractAndGetBlockNumber, st_bind. cbn.
  by rewrite Ha.
Qed.

Lemma reliable_one name args w :
  exists a w', deployContract s name args w = (Ok a, w') /\ a <> "".
Proof.
  destruct (reliable_block name args w) as (a & b & w' & H & Hne). exists a, w'. split; [|done].
  unfold deployContract. by rewrite (st_bind_Ok _ _ _ _ _ H).
Qed.

Lemma reliable_with name args w :
  exists a w', deployWithOverrides s name args w = (Ok a, w') /\ a <> "".
Proof. apply reliable_one. Qed.

Ltac next_reliable :=
  match goal with
  | |- exists _ _ _, st_bind ?m _ ?w = _ /\ _ =>
      let H := fresh in
      assert (exists a w', m w = (Ok a, w') /\ a <> "") as (? & ? & H & ?);
      [first [apply reliable_with | apply reliable_one] | rewrite (st_bind_Ok _ _ _ _ _ H); clear H]
  end.

Lemma reliable_contracts ca delay sa w :
  ca <> Some "" ->
  exists addrs b w', deployContracts s ca delay sa false w = (Ok (addrs, b), w') /\
    Forall (fun p => snd p <> "") addrs.
Proof.
  intros Hca. unfold deployContracts.
  rewrite (st_bind_Ok copyOverrides _ _ _ _ eq_refl).
  edestruct reliable_block as (a & b & w' & H & Hne). rewrite (st_bind_Ok _ _ _ _ _ H). clear H.
  do 11 next_reliable.
  match goal with |- exists _ _ _, st_bind ?m _ ?w = _ /\ _ =>
    assert (exists a w', m w = (Ok a, w') /\ a <> "") as (erc20 & w1 & H & Hn) end.
  { destruct ca as [c|]; [|apply reliable_with]. do 2 eexists. split; [done|congruence]. }
  rewrite (st_bind_Ok _ _ _ _ _ H). clear H.
  match goal with |- exists _ _ _, st_bind ?m _ ?w = _ /\ _ =>
    assert (exists a w', m w = (Ok a, w') /\ a <> "") as (token & w2 & H & Hn') end.
  { destruct (String.eqb_spec sa ""); [apply reliable_with|]. do 2 eexists. by split. }
  rewrite (st_bind_Ok _ _ _ _ _ H). clear H.
  next_reliable. do 3 eexists. split; [reflexivity|]. repeat (apply Forall_cons; split; [done|]).
  apply Forall_nil_2.
Qed.

Lemma reliable_connected addrs d :
  addresses d = Some addrs -> _priceFeedIsTestnet d = false -> map fst addrs = keys ->
  Forall (fun p => snd p <> "") addrs -> exists cs, _connectToContracts (inl s) d = Ok cs.
Proof.
  intros Ha Hp Hk Hne. unfold _connectToContracts. rewrite Ha, Hp. unfold mapLiquityContracts.
  assert (Forall (fun k => existsb (String.eqb k) keys = true) (map fst addrs)) as Hin.
  { rewrite Hk. by repeat constructor. } clear Ha Hk.
  match goal with |- context [res_mapM ?f addrs] => assert (exists es, res_mapM f addrs = Ok es)
    as (es & ->) end; [|by eexists].
  induction addrs as [|[k a] addrs IH]; [by eexists|].
  apply Forall_cons in Hne as [Hn Hne]. apply Forall_cons in Hin as [Hi Hin].
  destruct (IH Hne Hin) as (es & Hes). cbn [res_mapM]. cbn [snd fst] in Hn, Hi.
  destruct (String.eqb_spec a ""); [done|].
  assert (is_Some (JsObject.get k (getAbi false))) as (abi & ->).
  { apply existsb_exists in Hi as (k' & Hk' & ->%String.eqb_eq). unfold keys in Hk'. cbn [In] in Hk'.
    repeat destruct Hk' as [<-|Hk']; [..|destruct Hk']; by eexists. }
  destruct (reliable_contract s Hs a abi) as (c & ->). cbn [res_bind]. rewrite Hes. by eexists.
Qed.

End Reliable.

Lemma setup_wired s oracles ca delay sa feed dev now w d w' :
  deployAndSetupContracts s oracles ca delay sa feed dev now w = (Ok d, w') ->
  exists addrs deployed o txCount, addresses d = Some addrs /\ map fst addrs = keys /\
  _priceFeedIsTestnet d = false /\
  (forall key a, In (key, a) addrs ->
     comesFrom s (requests w') (getAbi (_priceFeedIsTestnet d)) (undeployed ca sa) key a) /\
  Forall (fun r => isDeploy r = true) deployed /\ overrides w = Some o /\
  let o' := JsObject.set "gasLimit" (Some 600000) o in
  w' = mkWorld (requests w ++ deployed ++
         imap (fun i => tell oracles addrs (JsObject.spread [] o') (txCount + Z.of_nat i)) setters)
         (Some o').
Proof.
  intros H. unfold deployAndSetupContracts in H.
  destruct (signer_provider s) as [p|] eqn:Ep; [|done].
  apply st_bind_inv in H as (pre & w1 & [= <- <-] & H).
  apply st_bind_inv in H as (chain & w2 & Hw & H). apply pair_equal_spec in Hw as [_ <-].
  apply st_bind_inv in H as ([addrs b] & w3 & Hd & H).
  pose proof (deploysOnly_contracts s ca delay sa false w) as [Ho (ds & Hds & Hall)].
  rewrite Hd in Ho, Hds. cbn [snd] in Ho, Hds. apply deployContracts_created in Hd as [Hk Hc].
  apply st_bind_inv in H as (cs & w4 & Hcs & H). apply pair_equal_spec in Hcs as [Hcs <-].
  apply st_bind_inv in H as ([] & w5 & Hw & H).
  apply pair_equal_spec in H as [ [= <-] <-].
  eapply connectContracts_inv in Hw as (o & txCount & Hov & ->); [|done|].
  2: { intros key a. by eapply addressOf_connected. }
  exists addrs, ds, o, txCount. cbn [addresses _priceFeedIsTestnet]. split; [done|]. split; [done|].
  split; [done|]. split; [|split; [done|]; split; [congruence|]; by rewrite Hds, <- app_assoc].
  intros key a Hin. specialize (Hc key a Hin). unfold comesFrom in *. cbn [_priceFeedIsTestnet].
  destruct (JsObject.get key (undeployed ca sa)); [done|].
  destruct Hc as (name & Hname & before & after & args & b' & E & Hd).
  exists name. split; [done|]. cbn [requests]. rewrite E, <- app_assoc. by repeat eexists.
Qed.

Lemma reliable_connect s oracles addrs cs o w :
  Reliable s -> map fst addrs = keys -> (forall key a, In (key, a) addrs -> addressOf cs key = Ok a) ->
  overrides w = Some o -> exists w', connectContracts cs oracles s w = (Ok tt, w').
Proof.
  intros Hs Hk Ha Ho. unfold connectContracts. destruct (reliable_provider s Hs) as [p ->].
  unfold setGasLimit. rewrite (st_bind_Ok _ _ w tt _) by (rewrite Ho; reflexivity).
  rewrite (st_bind_Ok (st_gets requests) _ _ _ _ eq_refl).
  destruct (reliable_address s Hs) as [a Hsa]. rewrite Hsa. cbn [res_bind requests].
  destruct (reliable_txCount s Hs (requests w) p a) as [n ->].
  rewrite (st_bind_Ok (st_lift (Ok n)) _ _ n _ eq_refl).
  destruct (connectAll_spec s addrs cs Hk Ha (connections oracles) n
    (mkWorld (requests w) (Some (JsObject.set "gasLimit" (Some 600000) o)))
    (connections_known oracles)) as (ps & _ & Hps & Hok).
  rewrite (st_bind_Ok _ _ _ _ _ Hps).
  rewrite (promiseAll_ok snd) by (apply Hok; intros; by apply reliable_call).
  rewrite (st_bind_Ok (st_lift (Ok tt)) _ _ tt _ eq_refl).
  rewrite (st_bind_Ok (st_gets requests) _ _ _ _ eq_refl). eexists.
  rewrite promiseAll_ok; [reflexivity|]. apply Forall_forall. intros x _. by apply reliable_wait.
Qed.

Lemma setup_succeeds s oracles ca delay sa feed dev now w o :
  Reliable s -> ca <> Some "" -> overrides w = Some o ->
  exists d w', deployAndSetupContracts s oracles ca delay sa feed dev now w = (Ok d, w').
Proof.
  intros Hs Hca Eo. unfold deployAndSetupContracts. destruct (reliable_provider s Hs) as [p ->].
  rewrite (st_bind_Ok (st_gets requests) _ _ _ _ eq_refl).
  destruct (reliable_chainId s Hs (requests w)) as [c ->].
  rewrite (st_bind_Ok (st_lift (Ok c)) _ _ c _ eq_refl).
  destruct (reliable_contracts s Hs ca delay sa w Hca) as (addrs & b & w1 & Hd & Hne).
  rewrite (st_bind_Ok _ _ _ _ _ Hd).
  pose proof (deploysOnly_contracts s ca delay sa false w) as [Ho _]. rewrite Hd in Ho.
  apply deployContracts_created in Hd as [Hk _]. cbn [snd] in Ho. rewrite Eo in Ho.
  destruct (reliable_connected s Hs addrs (mkDeployment c (Some addrs) "unknown" now b false dev)
    eq_refl eq_refl Hk Hne) as [cs Hcs].
  rewrite Hcs. rewrite (st_bind_Ok (st_lift (Ok cs)) _ _ cs _ eq_refl).
  destruct (reliable_connect s oracles addrs cs o w1 Hs Hk) as [w2 Hw2]; [|done|].
  { intros key a. by eapply addressOf_connected. }
  rewrite (st_bind_Ok _ _ _ _ _ Hw2). by do 2 eexists.
Qed.

Lemma setup_needs_overrides s oracles ca delay sa feed dev now w :
  overrides w = None ->
  exists m w', deployAndSetupContracts s oracles ca delay sa feed dev now w = (Throw m, w') /\ grows w w'.
Proof.
  intros Hov. unfold deployAndSetupContracts.
  destruct (signer_provider s) as [p|] eqn:Ep; [|eexists _, _; by split].
  rewrite (st_bind_Ok (st_gets requests) _ _ _ _ eq_refl). unfold st_bind at 1. cbn [st_lift].
  destruct (getChainId (requests w) s) as [c|m]; [|eexists _, _; by split]. unfold st_bind at 1.
  pose proof (deploysOnly_contracts s ca delay sa false w) as Hg.
  destruct (deployContracts s ca delay sa false w) as [ [ [addrs b]|m] w1]; [|eexists _, _; by split].
  unfold st_bind at 1. unfold st_lift.
  destruct (_connectToContracts _ _) as [cs|m]; [|eexists _, _; by split].
  unfold st_bind, connectContracts. rewrite Ep. unfold st_bind, setGasLimit.
  destruct Hg as [Ho Hg]. cbn [snd] in Ho, Hg. rewrite Ho, Hov. eexists _, _. by split.
Qed.

(** C32: deploying and connecting the contracts.  When it succeeds, every contract of the library has
    an address: the PCV, the B.AMM and the Chainlink feed the zero address, the collateral and the
    token the ones given, if any, and every other that of a contract deployed here as the one whose
    interface the library uses for it.  Each of the ten contracts that are told of others is told exactly once, and every parameter
    of its function receives the address of that role in this deployment (the zero address, so, for
    the PCV), in transactions of
    consecutive numbers, with the overrides of the caller and a limit of gas, which the caller's
    object keeps.  It succeeds with a chain that answers; without overrides it throws, after the
    contracts were deployed and before any is connected. *)
Theorem deployment_wired s oracles ca delay sa feed dev now w :
  let run := deployAndSetupContracts s oracles ca delay sa feed dev now w in
  (forall d w', run = (Ok d, w') ->
     exists addrs deployed o txCount, addresses d = Some addrs /\ map fst addrs = keys /\
       _priceFeedIsTestnet d = false /\
       (forall key a, In (key, a) addrs ->
          comesFrom s (requests w') (getAbi (_priceFeedIsTestnet d)) (undeployed ca sa) key a) /\
       Forall (fun r => isDeploy r = true) deployed /\ overrides w = Some o /\
       let o' := JsObject.set "gasLimit" (Some 600000) o in
       w' = mkWorld (requests w ++ deployed ++
              imap (fun i => tell oracles addrs (JsObject.spread [] o') (txCount + Z.of_nat i)) setters)
              (Some o')) /\
  (Reliable s -> ca <> Some "" -> overrides w <> None -> exists d w', run = (Ok d, w')) /\
  (overrides w = None -> exists m w', run = (Throw m, w') /\ grows w w').
Proof.
  intros run. subst run. split; [|split].
  - intros d w' H. eapply setup_wired, H.
  - intros Hs Hca Hov. destruct (overrides w) as [o|] eqn:Eo; [|done]. by eapply setup_succeeds.
  - apply setup_needs_overrides.
Qed.

(** ** The task with the real price feed *)

(** With the real price feed the task cannot succeed: once everything is deployed and connected it
    calls [setAddresses] of the price feed with two addresses and the overrides, where the
    contract has three addresses; Ethers does not take an object for one. *)
Lemma real_feed_fails `{BN : BigNumberOps} s contractsVersion network p now w :
  (forall pre to c a b o, newContract to "PriceFeed" (inl s) = Ok c ->
     callAnswer pre s (Call to "setAddresses" [AString a; AString b; AOverrides o]) <> Ok tt) ->
  default (String.eqb network "mainnet") (useRealPriceFeed_ p) = true ->
  exists m w', deployTask contractsVersion network s p now w = (Throw m, w').
Proof.
  intros Hrej Hreal. destruct (deployTask contractsVersion network s p now w) as [ [d|m] w'] eqn:H;
    [exfalso|by eexists _, _].
  unfold deployTask in H. apply st_bind_inv in H as (o & w1 & _ & H).
  apply st_bind_inv in H as ([] & w2 & _ & H). rewrite Hreal in H.
  destruct (hasOracles network); [|done]. cbn [andb negb] in H.
  apply st_bind_inv in H as (d' & w3 & Hd & H). apply st_bind_inv in H as ([] & w4 & Hf & _).
  apply st_bind_inv in Hd as (d0 & w0 & Hd & Hd'). apply pair_equal_spec in Hd' as [ [= <-] _].
  apply setup_wired in Hd as (addrs & _ & _ & _ & Ha & Hk & Hpf & _).
  apply st_bind_inv in Hf as (cs & w5 & Hcs & Hf). apply pair_equal_spec in Hcs as [Hcs <-].
  apply st_bind_inv in Hf as (t & w6 & _ & Hf). apply st_bind_inv in Hf as ([] & w7 & _ & Hf).
  unfold hookUpPriceFeed in Hf. apply st_bind_inv in Hf as (or & w8 & _ & Hf).
  apply st_bind_inv in Hf as (caller & w9 & _ & Hf). apply st_bind_inv in Hf as (to & w10 & Hto & Hf).
  apply pair_equal_spec in Hto as [Hto _]. apply st_bind_inv in Hf as (w11 & w12 & _ & Hf).
  apply st_bind_inv in Hf as (promise & w13 & Hp & Hf). apply st_bind_inv in Hf as ([] & w14 & Hok & _).
  apply pair_equal_spec in Hok as [Hok _]. unfold callMethod, st_bind in Hp. cbn in Hp.
  apply pair_equal_spec in Hp as [Hp _]. injection Hp as <-.
  apply ConnectionProperties.contracts_connected in Hcs as (_ & addrs' & Ha' & Hcs).
  cbn [addresses] in Ha'. rewrite Ha in Ha'. injection Ha' as <-.
  assert (exists a, In ("priceFeed", a) addrs) as [a Hin].
  { assert (In "priceFeed" (map fst addrs)) as Hin by (rewrite Hk; cbn; tauto).
    apply in_map_iff in Hin as ([k a] & <- & Hin). by exists a. }
  destruct (Hcs ltac:(rewrite Hk; apply keys_once) _ _ Hin) as (abi & c & Habi & Hc & Hget).
  unfold addressOf in Hto. rewrite Hget in Hto. injection Hto as <-.
  cbn [_priceFeedIsTestnet] in Habi. rewrite Hpf in Habi. injection Habi as <-.
  rewrite (contract_at _ _ _ _ Hc) in Hok. by apply (Hrej _ _ _ _ _ _ Hc) in Hok.
Qed.

End Properties.
End DeployProperties.

(** ** The files of deployments *)
Module FileProperties.

(** Names that are just that. *)
Definition plain (name : string) : Prop :=
  name <> "" /\ name <> "." /\ name <> ".." /\ Js.includes "/" name = false.

(** A folder whose names occur once. *)
#[warnings="-register-all"]
Inductive wf : Entry -> Prop :=
| wf_file c : wf (File c)
| wf_directory l :
    NoDup (map fst l) -> Forall (fun p => Js.includes "/" (fst p) = false /\ wf (snd p)) l ->
    wf (Directory l).

Lemma wf_names l : wf (Directory l) -> NoDup (map fst l).
Proof. by inversion 1. Qed.
Lemma wf_In l n e : wf (Directory l) -> In (n, e) l -> Js.includes "/" n = false /\ wf e.
Proof.
  inversion 1 as [|l' _ Hf]; subst. intros Hin. rewrite Forall_forall in Hf.
  by apply (Hf (n, e)), list_elem_of_In.
Qed.
Lemma wf_get l n e : wf (Directory l) -> JsObject.get n l = Some e -> wf e.
Proof.
  intros Hw Hg. eapply wf_In; [exact Hw|]. apply JsObject.get_In; [by apply wf_names|done].
Qed.
Lemma Forall_set {A} (P : string * A -> Prop) k a (l : JsObject.t A) :
  Forall P l -> P (k, a) -> Forall P (JsObject.set k a l).
Proof.
  intros Hl Hk. induction Hl as [|[k' b] l Hb Hl IH]; cbn; [by constructor|].
  destruct (String.eqb_spec k' k) as [->|]; by constructor.
Qed.
Lemma wf_set l n e :
  wf (Directory l) -> Js.includes "/" n = false -> wf e -> wf (Directory (JsObject.set n e l)).
Proof.
  intros Hw Hn He. inversion Hw as [|l' Hnd Hf]; subst. constructor; [by apply JsObject.keys_set|].
  by apply Forall_set.
Qed.

Lemma plain_names : plain "deployments" /\ plain "collaterals" /\ plain "collaterals.json".
Proof. by repeat split. Qed.

Lemma split_plain n : Js.includes "/" n = false -> Js.split "/" n = [n].
Proof. apply JsFacts.split_no_sep. Qed.

Lemma pathJoin_plain l : Forall plain l -> pathJoin l = l.
Proof.
  intros H. unfold pathJoin.
  assert (forall acc, fold_left joinName (concat (map (Js.split "/") l)) acc = acc ++ l) as E; [|apply E].
  induction H as [|n l (H1 & H2 & H3 & H4) _ IH]; intros acc; cbn [map concat fold_left].
  { by rewrite app_nil_r. }
  rewrite split_plain by done. cbn [app fold_left]. rewrite IH. unfold joinName.
  destruct (String.eqb_spec n ""); [done|]. destruct (String.eqb_spec n "."); [done|].
  destruct (String.eqb_spec n ".."); [done|]. cbn. by rewrite <- app_assoc.
Qed.

Lemma basename_join p n : Js.includes "/" n = false -> basename (p +:+ "/" +:+ n) = n.
Proof.
  intros Hn. unfold basename.
  assert (exists w ws, Js.split "/" (p +:+ "/" +:+ n) = (w :: ws) ++ [n]) as (w & ws & ->);
    [|by rewrite last_last].
  induction p as [|c p IH].
  - exists "", []. cbn. by rewrite split_plain.
  - destruct IH as (w & ws & IH). change (String c p +:+ ?t) with (String c (p +:+ t)).
    cbn [Js.split]. destruct (Ascii.eqb c "/").
    + rewrite IH. by exists "", (w :: ws).
    + rewrite IH. by exists (String c w), ws.
Qed.

(** ** Writing *)

Lemma mkdir_wf names d d' :
  Forall (fun n => Js.includes "/" n = false) names -> wf (Directory d) -> mkdir names d = Ok d' ->
  wf (Directory d').
Proof.
  intros Hn; revert d d'; induction Hn as [|n names Hn Hns IH]; intros d d' Hw H; cbn in H.
  { by injection H as <-. }
  assert (wf (Directory [])) as Hempty by (constructor; [apply NoDup_nil_2|constructor]).
  destruct (JsObject.get n d) as [ [c|sub]|] eqn:E; [done| |]; res_inv H; injection H as <-.
  - apply wf_set; [done|done|]. eapply IH; [|eassumption]. eapply wf_get; [exact Hw|exact E].
  - apply wf_set; [done|done|]. eapply IH; [exact Hempty|eassumption].
Qed.

Lemma writeFile_wf names c d d' :
  Forall (fun n => Js.includes "/" n = false) names -> wf (Directory d) ->
  writeFile names c d = Ok d' -> wf (Directory d').
Proof.
  intros Hn; revert d d'; induction Hn as [|n names Hn Hns IH]; intros d d' Hw H; cbn in H; [done|].
  destruct names as [|n' names]; cbv iota in H.
  - destruct (JsObject.get n d) as [ [c'|sub]|] eqn:E; try done; injection H as <-;
      (apply wf_set; [done|done|constructor]).
  - destruct (JsObject.get n d) as [ [c'|sub]|] eqn:E; try done. res_inv H. injection H as <-.
    apply wf_set; [done|done|]. eapply IH; [|eassumption]. eapply wf_get; [exact Hw|exact E].
Qed.

Lemma lookupPath_cons n n' names d :
  lookupPath (n :: n' :: names) d =
  match JsObject.get n d with Some (Directory sub) => lookupPath (n' :: names) sub | _ => None end.
Proof. cbn. by destruct (JsObject.get n d) as [ [c|sub]|]. Qed.
Lemma lookupPath_one n d : lookupPath [n] d = JsObject.get n d.
Proof. cbn. by destruct (JsObject.get n d) as [ [c|sub]|]. Qed.

(** Making folders leaves the files that there are. *)
Lemma mkdir_keeps names d d' p c :
  mkdir names d = Ok d' -> lookupPath p d = Some (File c) -> lookupPath p d' = Some (File c).
Proof.
  revert d d' p; induction names as [|n names IH]; intros d d' p H Hp; cbn in H.
  { by injection H as <-. }
  destruct p as [|m [|m' p] ]; [done| |].
  - rewrite lookupPath_one in Hp |- *.
    destruct (JsObject.get n d) as [ [c'|sub]|] eqn:E; [done| |]; res_inv H; injection H as <-;
      (rewrite JsObject.get_set; destruct (String.eqb_spec n m) as [->|]; [congruence|done]).
  - rewrite lookupPath_cons in Hp |- *.
    destruct (JsObject.get n d) as [ [c'|sub]|] eqn:E; [done| |]; res_inv H; injection H as <-;
      (rewrite JsObject.get_set; destruct (String.eqb_spec n m) as [->|]; [|done]); rewrite E in Hp;
      first [done|by eapply IH].
Qed.

(** A file that is written is there, and the others stay. *)
Lemma writeFile_there names c d d' :
  writeFile names c d = Ok d' -> lookupPath names d' = Some (File c).
Proof.
  revert d d'; induction names as [|n names IH]; intros d d' H; cbn [writeFile] in H; [done|].
  destruct names as [|n' names].
  - rewrite lookupPath_one. destruct (JsObject.get n d) as [ [c'|sub]|]; try done;
      injection H as <-; by rewrite JsObject.get_set_eq.
  - rewrite lookupPath_cons. destruct (JsObject.get n d) as [ [c'|sub]|]; try done.
    res_inv H. injection H as <-. rewrite JsObject.get_set_eq. by eapply IH.
Qed.

(** Neither making folders nor writing files removes a folder. *)
Lemma mkdir_folders names d d' p l :
  mkdir names d = Ok d' -> lookupPath p d = Some (Directory l) ->
  exists l', lookupPath p d' = Some (Directory l').
Proof.
  revert d d' p; induction names as [|n names IH]; intros d d' p H Hp; cbn in H.
  { injection H as <-. by exists l. }
  destruct p as [|m [|m' p] ]; [by eexists| |].
  - rewrite lookupPath_one in Hp |- *.
    destruct (JsObject.get n d) as [ [c'|sub]|] eqn:E; [done| |]; res_inv H; injection H as <-;
      (rewrite JsObject.get_set; destruct (String.eqb_spec n m); by eexists).
  - rewrite lookupPath_cons in Hp |- *.
    destruct (JsObject.get n d) as [ [c'|sub]|] eqn:E; [done| |]; res_inv H; injection H as <-;
      (rewrite JsObject.get_set; destruct (String.eqb_spec n m) as [->|]; [|by eexists]);
      rewrite E in Hp; first [done|by eapply IH].
Qed.
Lemma writeFile_folders names c d d' p l :
  writeFile names c d = Ok d' -> lookupPath p d = Some (Directory l) ->
  exists l', lookupPath p d' = Some (Directory l').
Proof.
  revert d d' p; induction names as [|n names IH]; intros d d' p H Hp; cbn [writeFile] in H; [done|].
  destruct p as [|m p]; [by eexists|]. destruct names as [|n' names].
  - assert (d' = JsObject.set n (File c) d /\ forall sub, JsObject.get n d <> Some (Directory sub))
      as [-> Hnd] by (destruct (JsObject.get n d) as [ [?|?]|]; try done; by injection H as <-).
    destruct p as [|m' p]; rewrite ?lookupPath_one, ?lookupPath_cons in Hp |- *; rewrite JsObject.get_set;
      (destruct (String.eqb_spec n m) as [->|]; [|by eexists]).
    + by destruct (Hnd l).
    + destruct (JsObject.get m d) as [ [?|sub]|]; [done| |done]. by destruct (Hnd sub).
  - destruct (JsObject.get n d) as [ [?|sub]|] eqn:E; try done. res_inv H. injection H as <-.
    destruct p as [|m' p]; rewrite ?lookupPath_one, ?lookupPath_cons in Hp |- *; rewrite JsObject.get_set;
      (destruct (String.eqb_spec n m) as [->|]; [|by eexists]); [by eexists|].
    rewrite E in Hp. by eapply IH.
Qed.

Lemma writeFile_keeps names c d d' p c' :
  writeFile names c d = Ok d' -> lookupPath p d = Some (File c') -> p <> names ->
  lookupPath p d' = Some (File c').
Proof.
  revert d d' p; induction names as [|n names IH]; intros d d' p H Hp Hne; cbn [writeFile] in H; [done|].
  destruct p as [|m p]; [done|]. destruct names as [|n' names].
  - assert (d' = JsObject.set n (File c) d) as ->
      by (destruct (JsObject.get n d) as [ [?|?]|]; try done; by injection H as <-).
    assert (forall sub, JsObject.get n d <> Some (Directory sub)) as Hnd
      by (intros sub E; by rewrite E in H).
    destruct p as [|m' p].
    + rewrite lookupPath_one in Hp |- *. rewrite JsObject.get_set_ne; [done|congruence].
    + rewrite lookupPath_cons in Hp |- *. rewrite JsObject.get_set.
      destruct (String.eqb_spec n m) as [->|]; [|done].
      destruct (JsObject.get m d) as [ [?|sub]|]; [done| |done]. by destruct (Hnd sub).
  - destruct (JsObject.get n d) as [ [?|sub]|] eqn:E; try done. res_inv H. injection H as <-.
    destruct p as [|m' p].
    + rewrite lookupPath_one in Hp |- *. rewrite JsObject.get_set.
      destruct (String.eqb_spec n m) as [->|]; [congruence|done].
    + rewrite lookupPath_cons in Hp |- *. rewrite JsObject.get_set.
      destruct (String.eqb_spec n m) as [->|]; [|done]. rewrite E in Hp. eapply IH; [done|done|].
      congruence.
Qed.

(** ** Listing *)

(** The folders of a folder. *)
Definition directories (l : list (string * Entry)) : list (string * list (string * Entry)) :=
  omap (fun '(n, e) => match e with Directory c => Some (n, c) | File _ => None end) l.

Lemma In_directories l n c : In (n, c) (directories l) <-> In (n, Directory c) l.
Proof.
  induction l as [|[m [f|c'] ] l IH]; [done| |]; cbn; rewrite IH; naive_solver.
Qed.

Lemma directories_once l : NoDup (map fst l) -> NoDup (map fst (directories l)).
Proof.
  induction l as [|[m [f|c'] ] l IH]; cbn; [done| |]; intros [Hm Hl]%NoDup_cons; [by apply IH|].
  apply NoDup_cons. split; [|by apply IH]. intros Hin%list_elem_of_In.
  apply in_map_iff in Hin as ([m' c] & <- & Hin). apply In_directories in Hin.
  apply Hm, list_elem_of_In. by apply (in_map fst) in Hin.
Qed.

Definition folderOf (path : string) (contents : list (string * Entry)) : FolderInfo :=
  default (folder "" "" None) (folderInfo path (Directory contents)).

Lemma folderOf_eq path l :
  folderOf path l = folder path (basename path)
    (match map (fun '(n, c) => folderOf (path +:+ "/" +:+ n) c) (directories l) with
     | [] => None | fs => Some fs end).
Proof.
  unfold folderOf at 1. cbn [folderInfo]. cbv zeta. unfold default, id.
  match goal with |- folder _ _ (match ?f l with _ => _ end) = _ =>
    assert (f l = map (fun '(n, c) => folderOf (path +:+ "/" +:+ n) c) (directories l)) as ->; [|by destruct (map _ (directories l))] end.
  induction l as [|[n [f|c] ] l IH]; [done|exact IH|].
  cbn [directories omap list_omap map]. f_equal. exact IH.
Qed.

Lemma folderInfo_directory path l : folderInfo path (Directory l) = Some (folderOf path l).
Proof. done. Qed.

Lemma folder_path_of p l : folder_path (folderOf p l) = p.
Proof. by rewrite folderOf_eq. Qed.
Lemma folder_name_of p n l :
  Js.includes "/" n = false -> folder_name (folderOf (p +:+ "/" +:+ n) l) = n.
Proof. intros H. rewrite folderOf_eq. by apply basename_join. Qed.

Definition importOf (p network : string) (c v : string) : Import :=
  mkImport c v ("@liquity/lib-ethers/" +:+ (p +:+ "/" +:+ c +:+ "/" +:+ v) +:+ "/" +:+ network +:+ ".json").

(** The imports of a listed folder of deployments: its folders' folders. *)
Lemma imports_of_folder p l network imports :
  wf (Directory l) -> startedImports (folderOf p l) network = Ok imports ->
  imports = concat (map (fun '(c, vs) =>
    map (fun '(v, _) => importOf p (fileNetwork network) c v) (directories vs)) (directories l)).
Proof.
  intros Hw H. unfold startedImports in H. rewrite folderOf_eq in H. cbn [folder_subfolders] in H.
  destruct (map _ (directories l)) as [|f fs] eqn:Ef; [done|]. rewrite <- Ef in H. clear Ef f fs.
  res_inv H. injection H as <-. match goal with H : res_mapM _ _ = Ok ?x |- _ => rename x into xs;
    rename H into Hm end.
  assert (forall c vs, In (c, vs) (directories l) ->
    Js.includes "/" c = false /\ wf (Directory vs)) as Hd.
  { intros c vs Hin%In_directories. by eapply wf_In. }
  f_equal. revert xs Hm. induction (directories l) as [|[c vs] ds IH]; intros xs Hm; cbn [map res_mapM] in Hm.
  { by injection Hm as <-. }
  res_inv Hm. res_inv Hm. injection Hm as <-. cbn [map]. f_equal; [|apply IH; [|done] ].
  2: { intros c' vs' Hin. apply Hd. by right. }
  destruct (Hd c vs ltac:(by left)) as [Hc Hvs].
  match goal with H : importsOf _ _ = Ok _ |- _ => rename H into Hi end.
  unfold importsOf in Hi. rewrite folder_name_of in Hi by done. rewrite folderOf_eq in Hi.
  cbn [folder_subfolders] in Hi.
  destruct (map _ (directories vs)) as [|f fs] eqn:Ef; [done|]. rewrite <- Ef in Hi. apply Ok_inj in Hi as <-.
  rewrite map_map. apply map_ext_in. intros [v e] Hin%In_directories. cbv beta iota.
  rewrite folder_path_of, folder_name_of by (by eapply wf_In). unfold importOf.
  by rewrite !JsFacts.str_app_assoc.
Qed.

Lemma concat_map_once {A B C} (f : A * B -> list C) (g : C -> A * string) (l : list (A * B)) :
  NoDup (map fst l) ->
  (forall p x, In p l -> In x (f p) -> fst (g x) = fst p) ->
  (forall p, In p l -> NoDup (map g (f p))) ->
  NoDup (map g (concat (map f l))).
Proof.
  induction l as [|p l IH]; intros Hl Hf Hg; [apply NoDup_nil_2|]. cbn in Hl |- *.
  apply NoDup_cons in Hl as [Hp Hl]. rewrite map_app. apply NoDup_app.
  split; [apply Hg; by left|]. split; [|apply IH; [done|..]; intros; [eapply Hf|apply Hg]; eauto; by right].
  intros y Hy%list_elem_of_In Hy'%list_elem_of_In. apply in_map_iff in Hy as (x & <- & Hx).
  apply in_map_iff in Hy' as (x' & Hxx & Hx'). apply in_concat in Hx' as (xs & Hxs & Hx').
  apply in_map_iff in Hxs as (p' & <- & Hp'). apply Hp, list_elem_of_In.
  rewrite <- (Hf p x (or_introl eq_refl) Hx), <- Hxx, (Hf p' x' (or_intror Hp') Hx').
  by apply in_map.
Qed.

Lemma imports_once p l network :
  wf (Directory l) ->
  NoDup (map ConnectionProperties.identity (concat (map (fun '(c, vs) =>
    map (fun '(v, _) => importOf p network c v) (directories vs)) (directories l)))).
Proof.
  intros Hw. apply concat_map_once.
  - by apply directories_once, wf_names.
  - intros [c vs] x _ ([v e] & <- & _)%in_map_iff. done.
  - intros [c vs] Hin%In_directories. apply wf_In in Hin as [_ Hvs]; [|done].
    rewrite map_map. rewrite (map_ext _ (fun x => (c, fst x))) by (by intros [v e]).
    rewrite <- (map_map fst). apply NoDup_fmap_2; [congruence|].
    by apply directories_once, wf_names.
Qed.

(** ** A deployment that is saved *)

Lemma lookupPath_app p q d l :
  lookupPath p d = Some (Directory l) -> lookupPath (p ++ q) d = lookupPath q l.
Proof.
  revert d; induction p as [|n p IH]; intros d H; [by injection H as <-|].
  destruct p as [|n' p].
  - rewrite lookupPath_one in H. cbn [app]. destruct q as [|m q]; [by rewrite lookupPath_one|].
    rewrite lookupPath_cons, H. done.
  - cbn [app]. rewrite lookupPath_cons in H |- *.
    destruct (JsObject.get n d) as [ [c|sub]|]; try done. by apply IH.
Qed.

Lemma wf_lookup p d e : wf (Directory d) -> lookupPath p d = Some e -> wf e.
Proof.
  revert d; induction p as [|n p IH]; intros d Hw H; [by injection H as <-|].
  destruct p as [|n' p].
  - rewrite lookupPath_one in H. by eapply wf_get.
  - rewrite lookupPath_cons in H. destruct (JsObject.get n d) as [ [c|sub]|] eqn:E; try done.
    eapply IH; [|exact H]. by eapply wf_get.
Qed.

(** The file of a path that is imported. *)
Definition loaded (files : Directory_) (i : Import) : option _LiquityDeploymentJSON :=
  match Js.split "/" (import_path i) with
  | _ :: _ :: names =>
      match lookupPath names files with Some (File (DeploymentFile d)) => Some d | _ => None end
  | _ => None
  end.

Lemma split_join names :
  Forall (fun n => Js.includes "/" n = false) names -> names <> [] ->
  Js.split "/" (Js.join "/" names) = names.
Proof.
  induction names as [|n names IH]; [done|]. intros [Hn Hns]%Forall_cons _.
  destruct names as [|n' names]; [by apply split_plain|].
  change (Js.join "/" (n :: n' :: names)) with (n +:+ String "/" (Js.join "/" (n' :: names))).
  rewrite JsFacts.split_one_sep by done. by rewrite IH.
Qed.

Lemma import_path_join channel network c v :
  import_path (importOf (Js.join "/" ["deployments"; channel]) network c v) =
    Js.join "/" ["@liquity"; "lib-ethers"; "deployments"; channel; c; v; network +:+ ".json"].
Proof.
  unfold importOf. cbn [import_path]. cbn [Js.join]. by rewrite !JsFacts.str_app_assoc.
Qed.

Ltac all_plain := cbn [app]; repeat (apply Forall_cons; split; [assumption|]); apply Forall_nil_2.
Ltac slashless :=
  repeat (apply Forall_cons; split; [first [assumption | reflexivity | match goal with
    H : plain ?n |- Js.includes "/" ?n = false => exact (proj2 (proj2 (proj2 H))) end]|]);
  apply Forall_nil_2.

Lemma update_inv {A} (f : A -> Res A) d d' x :
  (do! a := st_get in do! b := st_lift (f a) in st_put b) d = (Ok x, d') -> f d = Ok d'.
Proof.
  unfold st_bind, st_get, st_lift, st_put. destruct (f d); [|done]. intros H.
  by apply pair_equal_spec in H as [_ ->].
Qed.

Lemma listed_folder channel d info :
  wf (Directory d) -> getFolderInfo ["deployments"; channel] d = Ok info ->
  exists l, lookupPath ["deployments"; channel] d = Some (Directory l) /\
    info = folderOf (Js.join "/" ["deployments"; channel]) l /\ wf (Directory l).
Proof.
  intros Hw. unfold getFolderInfo.
  destruct (lookupPath ["deployments"; channel] d) as [ [c|l]|] eqn:E; [done| |done].
  rewrite folderInfo_directory. intros H. apply Ok_inj in H as <-. exists l. split; [done|].
  split; [done|]. by eapply wf_lookup.
Qed.

Lemma In_import p network l c v file :
  is_Some (lookupPath [c; v; file] l) ->
  In (importOf p network c v) (concat (map (fun '(c, vs) =>
    map (fun '(v, _) => importOf p network c v) (directories vs)) (directories l))).
Proof.
  rewrite lookupPath_cons. intros [e H].
  destruct (JsObject.get c l) as [ [?|vs]|] eqn:Ec; try done. rewrite lookupPath_cons in H.
  destruct (JsObject.get v vs) as [ [?|es]|] eqn:Ev; try done.
  assert (forall (l : JsObject.t Entry) k a, JsObject.get k l = Some a -> In (k, a) l) as Hin.
  { clear. intros l k a. induction l as [|[k' b] l IH]; [done|]. cbn.
    destruct (String.eqb_spec k' k) as [->|]; [intros [= ->]; by left|right; by apply IH]. }
  apply in_concat. eexists. split.
  - apply in_map_iff. exists (c, vs). split; [reflexivity|]. apply In_directories. by apply Hin.
  - apply in_map_iff. exists (v, es). split; [reflexivity|]. apply In_directories. by apply Hin.
Qed.

(** Deeper than what is made or written, everything is as it was. *)
Lemma mkdir_below names d d' p :
  mkdir names d = Ok d' -> (length names < length p)%nat -> lookupPath p d' = lookupPath p d.
Proof.
  revert d d' p; induction names as [|n names IH]; intros d d' p H Hlen; cbn in H.
  { by injection H as <-. }
  destruct p as [|m [|m' p] ]; cbn [length] in Hlen; [lia..|]. rewrite !lookupPath_cons.
  destruct (JsObject.get n d) as [ [c'|sub]|] eqn:E; [done| |]; res_inv H; injection H as <-;
    (rewrite JsObject.get_set; destruct (String.eqb_spec n m) as [->|]; [|done]); rewrite E;
    (erewrite IH by first [eassumption | cbn [length]; lia]); [done|]. by destruct p.
Qed.

Lemma writeFile_below names c d d' p :
  writeFile names c d = Ok d' -> (length names < length p)%nat -> lookupPath p d' = lookupPath p d.
Proof.
  revert d d' p; induction names as [|n names IH]; intros d d' p H Hlen; cbn [writeFile] in H; [done|].
  destruct p as [|m [|m' p] ]; cbn [length] in Hlen; [lia..|]. rewrite !lookupPath_cons.
  destruct names as [|n' names].
  - destruct (JsObject.get n d) as [ [?|?]|] eqn:E; try done; injection H as <-;
      (rewrite JsObject.get_set; destruct (String.eqb_spec n m) as [->|]; [by rewrite E|done]).
  - destruct (JsObject.get n d) as [ [?|sub]|] eqn:E; try done. res_inv H. injection H as <-.
    rewrite JsObject.get_set. destruct (String.eqb_spec n m) as [->|]; [|done]. rewrite E.
    eapply IH; [eassumption|]. cbn [length] in *. lia.
Qed.

(** The folders' folders that are imported. *)
Lemma imports_folders p l network c v :
  wf (Directory l) ->
  In (c, v) (map ConnectionProperties.identity (concat (map (fun '(c, vs) =>
    map (fun '(v, _) => importOf p network c v) (directories vs)) (directories l)))) <->
  exists es, lookupPath [c; v] l = Some (Directory es).
Proof.
  intros Hw. split.
  - intros (i & Hi & Hin)%in_map_iff. apply in_concat in Hin as (xs & Hxs & Hin).
    apply in_map_iff in Hxs as ([c' vs] & <- & Hc). apply in_map_iff in Hin as ([v' es] & <- & Hv).
    cbn in Hi. injection Hi as -> ->. apply In_directories in Hc, Hv.
    assert (wf (Directory vs)) as Hvs by (by eapply wf_In). apply wf_names in Hw, Hvs.
    exists es. rewrite lookupPath_cons, (proj1 (JsObject.get_In _ _ _ Hw) Hc), lookupPath_one.
    by apply JsObject.get_In.
  - intros [es H]. apply (in_map ConnectionProperties.identity _ (importOf p network c v)).
    rewrite lookupPath_cons in H. destruct (JsObject.get c l) as [ [?|vs]|] eqn:Ec; try done.
    rewrite lookupPath_one in H. apply in_concat. eexists. split.
    + apply in_map_iff. exists (c, vs). split; [reflexivity|]. apply In_directories.
      apply JsObject.get_In; [by apply wf_names|done].
    + apply in_map_iff. exists (v, es). split; [reflexivity|]. apply In_directories.
      apply JsObject.get_In; [|done]. apply wf_names. by eapply wf_get.
Qed.

Lemma imports_are p l network i :
  wf (Directory l) -> In i (concat (map (fun '(c, vs) =>
    map (fun '(v, _) => importOf p network c v) (directories vs)) (directories l))) ->
  exists c v, i = importOf p network c v /\ Js.includes "/" c = false /\ Js.includes "/" v = false.
Proof.
  intros Hw (xs & Hxs & Hin)%in_concat.
  apply in_map_iff in Hxs as ([c vs] & <- & Hc). apply in_map_iff in Hin as ([v es] & <- & Hv).
  apply In_directories in Hc, Hv. apply wf_In in Hc as [Hc Hvs]; [|done].
  apply wf_In in Hv as [Hv _]; [|done]. by exists c, v.
Qed.

(** The imports start when there are folders of versions in every folder. *)
Lemma imports_start p l network :
  directories l <> [] -> (forall c vs, In (c, vs) (directories l) -> directories vs <> []) ->
  exists imports, startedImports (folderOf p l) network = Ok imports.
Proof.
  intros Hl Hvs. unfold startedImports. rewrite folderOf_eq. cbn [folder_subfolders].
  destruct (map _ (directories l)) as [|f fs] eqn:Ef; [by destruct (directories l)|].
  rewrite <- Ef. clear Ef f fs Hl.
  match goal with |- context [res_mapM ?g ?xs] => assert (exists ys, res_mapM g xs = Ok ys) as [ys ->] end;
    [|by eexists].
  induction (directories l) as [|[c vs] ds IH]; [by eexists|]. cbn [map res_mapM].
  destruct IH as [ys ->]; [intros c' vs' Hin; apply (Hvs c'); by right|].
  unfold importsOf. rewrite folderOf_eq. cbn [folder_subfolders].
  specialize (Hvs c vs ltac:(by left)). destruct (map _ (directories vs)) eqn:Ef; [by destruct (directories vs)|].
  by eexists.
Qed.

(** What the imports of a channel's folder come to. *)
Lemma found_in_folder channel network files l arrivals symbol version deployment :
  wf (Directory l) -> plain channel -> Js.includes "/" network = false ->
  (forall q, (1 < length q)%nat -> lookupPath ("deployments" :: channel :: q) files = lookupPath q l) ->
  let imports := concat (map (fun '(c, vs) =>
    map (fun '(v, _) => importOf (Js.join "/" ["deployments"; channel]) network c v) (directories vs))
    (directories l)) in
  Permutation arrivals (map (fun i => (i, loaded files i)) imports) ->
  lookupPath ["deployments"; channel; symbol; version; network +:+ ".json"] files =
    Some (File (DeploymentFile deployment)) ->
  NoDup (map ConnectionProperties.identity imports) /\
  (forall c v, In (c, v) (map ConnectionProperties.identity imports) <->
     exists l, lookupPath ["deployments"; channel; c; v] files = Some (Directory l)) /\
  (forall c v d, ConnectionProperties.lookup (getCollateralsDeployments arrivals) c v = Some d <->
     lookupPath ["deployments"; channel; c; v; network +:+ ".json"] files =
       Some (File (DeploymentFile d))) /\
  ConnectionProperties.lookup (getCollateralsDeployments arrivals) symbol version = Some deployment.
Proof.
  intros Hwl Hch Hnet Hbelow imports Harr Hown.
  assert (NoDup (map ConnectionProperties.identity imports)) as Hnd by (by apply imports_once).
  assert (forall c v, In (c, v) (map ConnectionProperties.identity imports) <->
     exists l, lookupPath ["deployments"; channel; c; v] files = Some (Directory l)) as Hall.
  { intros c v. rewrite Hbelow by (cbn; lia). by apply imports_folders. }
  assert (Js.includes "/" (network +:+ ".json") = false) as Hfile
    by (by rewrite JsFacts.includes_app, Hnet).
  assert (forall i c v d, In i imports -> ConnectionProperties.identity i = (c, v) ->
    loaded files i = Some d <-> lookupPath ["deployments"; channel; c; v; network +:+ ".json"] files =
      Some (File (DeploymentFile d))) as Hload.
  { intros i c v d Hin Hid.
    apply (imports_are (Js.join "/" ["deployments"; channel])) in Hin as (c' & v' & -> & Hc & Hv); [|done].
    cbn in Hid. injection Hid as -> ->. unfold loaded.
    rewrite import_path_join, split_join by (slashless || done).
    destruct (lookupPath ["deployments"; channel; c; v; network +:+ ".json"] files) as [ [ [] | ]|];
      split; intros [=]; congruence. }
  assert (forall c v d, ConnectionProperties.lookup (getCollateralsDeployments arrivals) c v = Some d <->
     lookupPath ["deployments"; channel; c; v; network +:+ ".json"] files =
       Some (File (DeploymentFile d))) as Hfound.
  { intros c v d. rewrite ConnectionProperties.lookup_collected by (by rewrite Harr, map_map).
    split.
    - intros (i & Hi & Hid). rewrite Harr in Hi. apply in_map_iff in Hi as (j & Hj & Hin).
      injection Hj as -> Hd. by apply (Hload i c v d Hin Hid).
    - intros Hf. assert (In (c, v) (map ConnectionProperties.identity imports)) as Hin.
      { apply Hall. rewrite Hbelow in Hf |- * by (cbn; lia). rewrite lookupPath_cons in Hf |- *.
        destruct (JsObject.get c l) as [ [?|vs]|]; try done. rewrite lookupPath_cons in Hf.
        rewrite lookupPath_one. destruct (JsObject.get v vs) as [ [?|es]|]; try done. by exists es. }
      apply in_map_iff in Hin as (i & Hid & Hin). exists i. split; [|done]. rewrite Harr.
      apply in_map_iff. exists i. split; [|done]. f_equal. by apply (Hload i c v d Hin Hid). }
  split; [done|]. split; [done|]. split; [done|]. by apply Hfound.
Qed.

(** C33: a deployment that is saved is found.  When the files of the task "deploy" are written, the
    listing it leaves makes [getCollateralsDeployments] import exactly the folders of versions of
    the channel, each once; it can read the listing if no folder of a collateral is without
    versions.  Whatever the order in which the imports arrive,
    it lists under each collateral and version exactly the deployment of that file of the network,
    the saved one among them; the files of other deployments are left as they are. *)
Theorem saved_deployment_found channel symbol version network deployment files files' :
  wf (Directory files) -> plain channel -> plain symbol -> plain version ->
  Js.includes "/" network = false ->
  saveDeployment channel (Some symbol) version network deployment files = (Ok tt, files') ->
  let listing := ["deployments"; "collaterals"; "collaterals.json"] in
  exists info, lookupPath listing files' = Some (File (FoldersFile info)) /\
  (forall p c, lookupPath p files = Some (File c) -> p <> listing ->
     p <> ["deployments"; channel; symbol; version; network +:+ ".json"] ->
     lookupPath p files' = Some (File c)) /\
  ((forall c l, lookupPath ["deployments"; channel; c] files' = Some (Directory l) ->
      exists v l', lookupPath ["deployments"; channel; c; v] files' = Some (Directory l')) ->
   forall name, exists imports, startedImports info name = Ok imports) /\
  forall name imports arrivals, fileNetwork name = network -> startedImports info name = Ok imports ->
    Permutation arrivals (map (fun i => (i, loaded files' i)) imports) ->
    NoDup (map ConnectionProperties.identity imports) /\
    (forall c v, In (c, v) (map ConnectionProperties.identity imports) <->
       exists l, lookupPath ["deployments"; channel; c; v] files' = Some (Directory l)) /\
    (forall c v d, ConnectionProperties.lookup (getCollateralsDeployments arrivals) c v = Some d <->
       lookupPath ["deployments"; channel; c; v; network +:+ ".json"] files' =
         Some (File (DeploymentFile d))) /\
    ConnectionProperties.lookup (getCollateralsDeployments arrivals) symbol version = Some deployment.
Proof.
  intros Hw Hch Hsy Hve Hnet H listing.
  assert (plain (network +:+ ".json")) as Hfile.
  { repeat split; [by destruct network|by destruct network as [|? [|? ?] ]|by destruct network as [|? [|? [|? ?] ] ]|].
    by rewrite JsFacts.includes_app, Hnet. }
  destruct plain_names as (Hd & Hcs & Hcj). unfold saveDeployment in H.
  rewrite !pathJoin_plain in H by all_plain.
  apply st_bind_inv in H as ([] & f1 & H1 & H). apply update_inv in H1.
  apply st_bind_inv in H as ([] & f2 & H2 & H). apply update_inv in H2. cbn [app] in H2.
  apply st_bind_inv in H as (? & ? & Hg & H). apply pair_equal_spec in Hg as [Hg <-].
  apply Ok_inj in Hg as <-.
  apply st_bind_inv in H as (info & ? & Hi & H). apply pair_equal_spec in Hi as [Hi <-].
  apply st_bind_inv in H as ([] & f3 & H3 & H). apply update_inv in H3, H. rename H into H4.
  assert (lookupPath ["deployments"; channel; symbol; version; network +:+ ".json"] files' =
    Some (File (DeploymentFile deployment))) as Hown.
  { eapply writeFile_keeps; [exact H4| |discriminate]. eapply mkdir_keeps; [exact H3|].
    by eapply writeFile_there. }
  exists info. split; [by eapply writeFile_there|]. split.
  { intros p c Hp Hp1 Hp2. eapply writeFile_keeps; [exact H4| |done]. eapply mkdir_keeps; [exact H3|].
    eapply writeFile_keeps; [exact H2| |done]. by eapply mkdir_keeps. }
  assert (wf (Directory f2)) as Hw2.
  { eapply writeFile_wf; [|by eapply mkdir_wf; [|exact Hw|exact H1]; slashless|exact H2]; slashless. }
  destruct (listed_folder channel f2 info Hw2 Hi) as (l & Hl & -> & Hwl).
  assert (forall q, (1 < length q)%nat ->
    lookupPath ("deployments" :: channel :: q) files' = lookupPath q l) as Hbelow.
  { intros q Hq. rewrite (writeFile_below _ _ _ _ _ H4) by (cbn; lia).
    rewrite (mkdir_below _ _ _ _ H3) by (cbn; lia). by rewrite <- (lookupPath_app _ q _ _ Hl). }
  split; [|intros name imports arrivals Hname Hs Harr; apply imports_of_folder in Hs as ->; [|done];
    rewrite Hname in *; eapply found_in_folder; [done..|exact Harr|done] ].
  intros Hver name. apply imports_start.
  - pose proof Hown as He. rewrite Hbelow, lookupPath_cons in He by (cbn; lia). destruct (JsObject.get symbol l) as [ [?|vs]|] eqn:E; try done.
    intros Hnil. assert (In (symbol, vs) (directories l)) as Hin; [|by rewrite Hnil in Hin].
    apply In_directories, JsObject.get_In; [by apply wf_names|done].
  - intros c vs Hin%In_directories Hnil.
    assert (lookupPath ["deployments"; channel; c] f2 = Some (Directory vs)) as Hc.
    { etrans; [exact (lookupPath_app _ [c] _ _ Hl)|]. rewrite lookupPath_one.
      apply JsObject.get_In; [by apply wf_names|done]. }
    destruct (mkdir_folders _ _ _ _ _ H3 Hc) as [l3 Hc3].
    destruct (writeFile_folders _ _ _ _ _ _ H4 Hc3) as [l4 Hc4].
    destruct (Hver c l4 Hc4) as (v & es & Hv). rewrite Hbelow in Hv by (cbn; lia).
    rewrite lookupPath_cons, (proj1 (JsObject.get_In _ _ _ (wf_names _ Hwl)) Hin), lookupPath_one in Hv.
    assert (In (v, es) (directories vs)) as Hin'; [|by rewrite Hnil in Hin'].
    apply In_directories, JsObject.get_In; [|done]. apply wf_names. by eapply wf_In.
Qed.
End FileProperties.

(** ** Runs *)
Module DeployRuns.
Import DeployProperties.
#[local] Existing Instance Z_bignumber.

(** Contracts are their addresses, the i-th thing asked of the chain is at the i-th address. *)
#[local] Instance names : Network :=
  Build_Network unit unit string (fun _ => Some tt) (fun _ => Ok "0xdeployer") (fun _ => Ok 5)
    (fun address _ _ => Ok address).
#[local] Instance chain : DeployChain :=
  Build_DeployChain names (fun c => c) (fun _ _ => false)
    (fun before _ _ => Ok ("0x" +:+ Js.dec_string (Z.of_nat (length before)), 100))
    (fun _ _ => Ok 5) (fun _ _ _ => Ok 7) (fun _ _ _ => Ok tt) (fun _ _ _ => Ok tt)
    (fun l => default "" (head l)).

Definition start : World := mkWorld [] (Some [("gasPrice", Some 20)]).

Lemma deployment_wired_witness :
  exists d w', deployAndSetupContracts tt (mkOracleReqs "0xled" "0xreader") None 90 "" true true 0 start
    = (Ok d, w') /\
    overrides w' = Some [("gasPrice", Some 20); ("gasLimit", Some 600000)] /\
    length (requests w') = 25%nat.
Proof.
  assert (forall address abi s c, newContract address abi s = Ok c -> contractAddress c = address) as Hc
    by (intros a abi s c H; by injection H).
  destruct (deployment_wired Hc tt (mkOracleReqs "0xled" "0xreader") None 90 "" true true 0 start)
    as (H1 & H2 & _).
  destruct H2 as (d & w' & H).
  - constructor; cbn; intros; try (by eexists); try done.
    exists ("0x" +:+ Js.dec_string (Z.of_nat (length pre))), 100. by split.
  - discriminate.
  - discriminate.
  - exists d, w'. split; [exact H|].
    destruct (H1 d w' H) as (addrs & deployed & o & txCount & _ & _ & _ & _ & _ & Ho & ->).
    injection Ho as <-. split; [reflexivity|].
    assert (length (requests (snd (deployAndSetupContracts tt (mkOracleReqs "0xled" "0xreader") None 90
      "" true true 0 start))) = 25%nat) as Hl by (vm_compute; reflexivity).
    rewrite H in Hl. exact Hl.
Defined.

(** The task "deploy" for a second version of a collateral. *)
Definition v1 : _LiquityDeploymentJSON := mkDeployment 5 (Some []) "one" 0 0 false false.
Definition v2 : _LiquityDeploymentJSON := mkDeployment 5 (Some []) "two" 0 0 false false.
Definition disk : list (string * Entry) :=
  [("deployments", Directory [("default", Directory [("eth", Directory [("v1",
    Directory [("goerli.json", File (DeploymentFile v1))])])])])].

Lemma saved_deployment_found_witness :
  exists files', saveDeployment "default" (Some "eth") "v2" "goerli" v2 disk = (Ok tt, files') /\
  exists info imports, lookupPath ["deployments"; "collaterals"; "collaterals.json"] files' =
      Some (File (FoldersFile info)) /\
    startedImports info "goerli" = Ok imports /\ length imports = 2%nat /\
    ConnectionProperties.lookup (getCollateralsDeployments
      (map (fun i => (i, FileProperties.loaded files' i)) imports)) "eth" "v2" = Some v2.
Proof.
  destruct (saveDeployment "default" (Some "eth") "v2" "goerli" v2 disk) as [r files'] eqn:E.
  assert (r = Ok tt) as -> by (apply (f_equal fst) in E; cbn [fst] in E; rewrite <- E; vm_compute; reflexivity).
  exists files'. split; [reflexivity|].
  destruct (FileProperties.saved_deployment_found "default" "eth" "v2" "goerli" v2 disk files')
    as (info & Hl & _ & _ & H); [|done|done|done|done|exact E|].
  { repeat (constructor; cbn); set_solver. }
  exists info. apply (f_equal snd) in E. cbn [snd] in E. subst files'.
  vm_compute in Hl. injection Hl as <-. eexists. split; [vm_compute; reflexivity|].
  split; [vm_compute; reflexivity|]. split; [reflexivity|].
  eapply (H "goerli"); [reflexivity|vm_compute; reflexivity|reflexivity].
Defined.

End DeployRuns.
