(* ===== verification/Panels.v ===== *)
(** * Panels of the frontend: [src/packages/dev-frontend/src/components]

    The list of risky Vaults with its pages and its buttons to liquidate ([RiskyVaults.tsx]), the
    form that liquidates many ([LiquidationManager.tsx]), the leaderboard ([Leaderboard.tsx]), the
    form that redeems ([Redemption/]) and the rows of collaterals ([PageRow.tsx]).  A component is
    what its hooks hold; an effect runs after the render that changed what it depends on. *)

From S2P Require Import Prelude BigNumber Decimals LiquityMath Constants Troves TroveProperties Fees Transactions SubgraphClient.

Local Open Scope Z_scope.

(** ** Whether the contract liquidates a Trove *)
Module Liquidation.
Import LiquityMath.

Definition MCR : Z := 1100000000000000000.
Definition CCR : Z := 1500000000000000000.
Definition _100pct : Z := 1000000000000000000.

Definition _checkRecoveryMode (entireSystemColl entireSystemDebt price : Z) : option bool :=
  tcr ← _computeCR entireSystemColl entireSystemDebt price;
  Some (tcr <? CCR).

(** [_liquidateRecoveryMode]: whether the Trove is closed. *)
Definition _liquidateRecoveryMode (owners debt icr pool tcr : Z) : bool :=
  if owners <=? 1 then false
  else if icr <=? _100pct then true
  else if (_100pct <? icr) && (icr <? MCR) then true
  else (MCR <=? icr) && (icr <? tcr) && (debt <=? pool).

(** [liquidate(borrower)] of an active Trove, up to [require(totals.totalDebtInSequence > 0)]:
    whether it is liquidated; [mintList] tells if the borrower operations may mint. *)
Definition liquidate (owners entireSystemColl entireSystemDebt coll debt price pool : Z)
    (mintList : bool) : option bool :=
  recoveryModeAtStart ← _checkRecoveryMode entireSystemColl entireSystemDebt price;
  icr ← _computeCR coll debt price;
  if (recoveryModeAtStart : bool) then
    if (MCR <=? icr) && (pool =? 0) then Some false
    else
      tcr ← _computeCR entireSystemColl entireSystemDebt price;
      Some (_liquidateRecoveryMode owners debt icr pool tcr)
  else if icr <? MCR then
    if mintList && (owners <=? 1) then None else Some true
  else Some false.

End Liquidation.

(** ** Pages *)
Module Paging.

Definition pageSize : Z := 10.

(** [Math.ceil(n / pageSize) || 1] *)
Definition numberOfPages (n : Z) : Z :=
  let c := (n + pageSize - 1) / pageSize in if c =? 0 then 1 else c.
Definition clampedPage (page n : Z) : Z := Z.min page (numberOfPages n - 1).

Definition nextPage (page n : Z) : Z :=
  if clampedPage page n <? numberOfPages n - 1 then clampedPage page n + 1 else page.
Definition previousPage (page n : Z) : Z :=
  if 0 <? clampedPage page n then clampedPage page n - 1 else page.

(** [first-last of n], over the table. *)
Definition range (page n : Z) : Z * Z :=
  (clampedPage page n * pageSize + 1, Z.min ((clampedPage page n + 1) * pageSize) n).

End Paging.

(** ** Risky Vaults *)
Module RiskyVaults.
Import Paging.
Section RiskyVaults.
Context {BN : BigNumberOps}.

Definition COIN : string := "LED".

Definition liquidatableInNormalMode (vault : UserTrove.t) (price : Decimal.t) :
    Res (bool * string) :=
  let! b := Trove.collateralRatioIsBelowMinimum (UserTrove.super vault) price in
  Ok (b, "Collateral ratio not low enough").

Definition liquidatableInRecoveryMode (vault : UserTrove.t)
    (price totalCollateralRatio thusdInStabilityPool : Decimal.t) : Res (bool * string) :=
  let! collateralRatio := Trove.collateralRatio (UserTrove.super vault) price in
  let! atLeast := Decimal.gte collateralRatio MINIMUM_COLLATERAL_RATIO in
  let! below := (if (atLeast : bool) then Decimal.lt collateralRatio totalCollateralRatio
                 else Ok false) in
  if (below : bool) then
    let! b := Decimal.lte (Trove.debt (UserTrove.super vault)) thusdInStabilityPool in
    Ok (b, "There's not enough " +:+ COIN +:+ " in the Stability pool to cover the debt")
  else liquidatableInNormalMode vault price.

(** What [select] takes of a store. *)
Record Selected : Type := mkSelected {
  numberOfTroves : Z;
  price : Decimal.t;
  recoveryMode : bool;
  totalCollateralRatio : Decimal.t;
  thusdInStabilityPool : Decimal.t;
  blockTag : option Z;
  symbol : string;
}.

Definition select (numberOfTroves : Z) (price : Decimal.t) (total : Trove.t)
    (thusdInStabilityPool : Decimal.t) (blockTag : option Z) (symbol : string) : Res Selected :=
  let! recoveryMode := Trove.collateralRatioIsBelowCritical total price in
  let! totalCollateralRatio := Trove.collateralRatio total price in
  Ok (mkSelected numberOfTroves price recoveryMode totalCollateralRatio thusdInStabilityPool
        blockTag symbol).

(** The requirement of a row's button. *)
Definition requires (s : Selected) (vault : UserTrove.t) : Res (bool * string) :=
  if recoveryMode s then
    liquidatableInRecoveryMode vault (price s) (totalCollateralRatio s) (thusdInStabilityPool s)
  else liquidatableInNormalMode vault (price s).

(** The row's button, with the transaction state all buttons share. *)
Definition button (s : Selected) (vault : UserTrove.t) (transaction : Transactions.TransactionState)
    (version collateral : string) : Res TransactionButton.Button :=
  let! r := requires s vault in
  Ok (TransactionButton.Transaction (Some "Liquidate") None [r] transaction version collateral false).

(** The colour of its ratio. *)
Definition color (collateralRatio : Decimal.t) : Res string :=
  let! healthy := Decimal.gt collateralRatio CRITICAL_COLLATERAL_RATIO in
  if (healthy : bool) then Ok "success"
  else
    let! fair := Decimal.gt collateralRatio (Decimal.ofNumber "1.2") in
    Ok (if (fair : bool) then "warning" else "danger").

Record Row : Type := mkRow {
  id : string;
  ratio : string;
  ratioColor : string;
  liquidates : TransactionButton.Button;
}.

(** The rows: a Vault that is empty has none. *)
Definition row (s : Selected) (transaction : Transactions.TransactionState)
    (version collateral : string) (vault : UserTrove.t) : Res (option Row) :=
  if Trove.isEmpty (UserTrove.super vault) then Ok None
  else
    let! collateralRatio := Trove.collateralRatio (UserTrove.super vault) (price s) in
    let! c := color collateralRatio in
    let! percent := Percent.new collateralRatio in
    let! text := Percent.prettify percent in
    let! r := button s vault transaction version collateral in
    Ok (Some (mkRow ("liquidate-" +:+ UserTrove.ownerAddress vault) text c r)).

Definition rows (s : Selected) (transaction : Transactions.TransactionState)
    (version collateral : string) (vaults : list UserTrove.t) : Res (list Row) :=
  let! l := res_mapM (row s transaction version collateral) vaults in Ok (omap (fun r => r) l).

End RiskyVaults.

(** What React holds: [page], [vaults], the number of calls of [setReload]; the last values of
    what each effect depends on; and the pages asked for, each with the value of the context whose
    store is asked (a number per value) and its block. *)
Record Panel : Type := mkPanel {
  page : Z;
  reload : nat;
  vaults : option (list UserTrove.t);
  pageDeps : option (Z * Z);
  fetchDeps : option (N * Z * nat);
  reloadDeps : option Z;
  fetches : list (N * Z * option Z);
}.

Definition mounted : Panel := mkPanel 0 0 None None None None [].

(** The three effects of a render with [n] Vaults at a block, and with a value of the context; they
    are given the values of the render. *)
Definition pageEffect (n : Z) (rendered p : Panel) : Panel :=
  let c := clampedPage (page rendered) n in
  let deps := Some (page rendered, c) in
  if bool_decide (pageDeps p = deps) then p
  else mkPanel (if page rendered =? c then page p else c) (reload p) (vaults p) deps (fetchDeps p)
         (reloadDeps p) (fetches p).
Definition fetchEffect (n : Z) (threshold : N) (blockTag : option Z) (rendered p : Panel) : Panel :=
  let c := clampedPage (page rendered) n in
  let deps := Some (threshold, c, reload rendered) in
  if bool_decide (fetchDeps p = deps) then p
  else mkPanel (page p) (reload p) (vaults p) (pageDeps p) deps (reloadDeps p)
         (fetches p ++ [(threshold, c * pageSize, blockTag)]).
Definition reloadEffect (n : Z) (rendered p : Panel) : Panel :=
  if bool_decide (reloadDeps p = Some n) then p
  else mkPanel (page p) (S (reload p)) (vaults p) (pageDeps p) (fetchDeps p) (Some n) (fetches p).

(** A render with its effects. *)
Definition commit (n : Z) (threshold : N) (blockTag : option Z) (p : Panel) : Panel :=
  reloadEffect n p (fetchEffect n threshold blockTag p (pageEffect n p p)).

(** Renders until no effect sets the state. *)
Fixpoint settle (fuel : nat) (n : Z) (threshold : N) (blockTag : option Z) (p : Panel) : Panel :=
  match fuel with
  | O => p
  | S fuel' =>
      let p' := commit n threshold blockTag p in
      if (page p' =? page p) && (reload p' =? reload p)%nat then p'
      else settle fuel' n threshold blockTag p'
  end.

Inductive Event : Type :=
| Next
| Previous
| StoreChanged (n : Z) (blockTag : option Z)
| ThresholdChanged (threshold : N)
| Fetched (vaults : list UserTrove.t).

(** The panel with what the store last told it and the value of the context. *)
Record State : Type := mkState {
  panel : Panel;
  number : Z;
  block : option Z;
  threshold : N;
}.

Definition with_page (page_ : Z) (p : Panel) : Panel :=
  mkPanel page_ (reload p) (vaults p) (pageDeps p) (fetchDeps p) (reloadDeps p) (fetches p).
Definition with_vaults (v : list UserTrove.t) (p : Panel) : Panel :=
  mkPanel (page p) (reload p) (Some v) (pageDeps p) (fetchDeps p) (reloadDeps p) (fetches p).

Definition with_panel (p : Panel) (s : State) : State :=
  mkState p (number s) (block s) (threshold s).

Definition handle (s : State) (e : Event) : State :=
  match e with
  | Next => with_panel (with_page (nextPage (page (panel s)) (number s)) (panel s)) s
  | Previous => with_panel (with_page (previousPage (page (panel s)) (number s)) (panel s)) s
  | StoreChanged n b => mkState (panel s) n b (threshold s)
  | ThresholdChanged th => mkState (panel s) (number s) (block s) th
  | Fetched v => with_panel (with_vaults v (panel s)) s
  end.

(** An event, and the renders it causes: [settle 3] is enough. *)
Definition rendered (s : State) : State :=
  with_panel (settle 3 (number s) (threshold s) (block s) (panel s)) s.
Definition step (s : State) (e : Event) : State := rendered (handle s e).

Definition start (n : Z) (blockTag : option Z) (threshold : N) : State :=
  rendered (mkState mounted n blockTag threshold).

End RiskyVaults.

(** ** The form that liquidates many *)
Module LiquidationManager.

(** [parseInt(text, 10)]: the digits after blanks and a sign; [None] for NaN. *)
Fixpoint skipBlanks (s : string) : string :=
  match s with String " " s' => skipBlanks s' | _ => s end.
Definition digits (s : string) : string := Js.prefix (Js.digit_run s) s.
Definition parseInt (text : string) : option Z :=
  let s := skipBlanks text in
  let sign := if Js.startsWith "-" s then -1 else 1 in
  let s := if Js.startsWith "-" s || Js.startsWith "+" s then Js.tail1 s else s in
  match digits s with
  | EmptyString => None
  | d => Some (sign * Js.dec_value d)
  end.

(** What is handed to [send.liquidateUpTo]. *)
Definition send (numberOfVaultsToLiquidate : string) : Res (option Z) :=
  if String.eqb numberOfVaultsToLiquidate "" then Throw "Invalid number"
  else Ok (parseInt numberOfVaultsToLiquidate).

End LiquidationManager.

(** ** The leaderboard *)
Module Leaderboard.
Import Paging.

(** The set of addresses left out. *)
Definition blacklistedAddresses : list string :=
  ["0x0000ce08fa224696a819877070bf378e8b131acf"; "0x62509301068f77fed07c2d17609a8730385d24ed";
   "0x24EcD23096fCF03A15ee8a6FE63F24345Cc4BA46"].

(** What the server answers for an account, and the row made of it. *)
Record LeaderboardReturnItem : Type := mkItem {
  address : string;
  usdassets : string;
  ledassets : string;
  leddebt : string;
  netvalue : string;
  avatarurl : string;
  username : string;
}.
Record LeaderboardRow : Type := mkLeaderboardRow {
  row_address : string;
  row_avatarurl : string;
  row_username : string;
  row_usdassets : Decimal.t;
  row_ledassets : Decimal.t;
  row_leddebt : Decimal.t;
  row_netvalue : Decimal.t;
}.

Section Leaderboard.
Context {BN : BigNumberOps}.
(** [Array.prototype.sort], with a comparison that may throw. *)
Context (sort : forall A, (A -> A -> Res Z) -> list A -> Res (list A)).

Definition parseNumberString (numstr : string) : Res Decimal.t :=
  let! n := Decimal.from (Decimal.ofString numstr) in
  let! ten := Decimal.from (Decimal.ofNumber "10") in
  let! wei := Decimal.pow ten (JInt 18) in
  Decimal.div n (Decimal.ofDecimal wei).

Definition parseRow (row : LeaderboardReturnItem) : Res LeaderboardRow :=
  let! usd := parseNumberString (usdassets row) in
  let! led := parseNumberString (ledassets row) in
  let! debt := parseNumberString (leddebt row) in
  let! net := parseNumberString (netvalue row) in
  Ok (mkLeaderboardRow (address row) (avatarurl row) (username row) usd led debt net).

Definition blacklisted (r : LeaderboardRow) : bool :=
  existsb (String.eqb (SubgraphLiquity.toLowerCase (row_address r))) blacklistedAddresses.

Definition compare (a b : LeaderboardRow) : Res Z :=
  let! greater := Decimal.gt (row_netvalue a) (Decimal.ofDecimal (row_netvalue b)) in
  Ok (if (greater : bool) then -1 else 1).

Definition parsedRows (result : list LeaderboardReturnItem) : Res (list LeaderboardRow) :=
  let! rows := res_mapM parseRow result in
  sort _ compare (List.filter (fun r => negb (blacklisted r)) rows).

(** The state: [data], [pageData], [page]. *)
Record Board : Type := mkBoard {
  data : list LeaderboardRow;
  pageData : list LeaderboardRow;
  page : Z;
}.
Definition emptyBoard : Board := mkBoard [] [] 0.

(** [data.slice(drop, end)] of the clamped page. *)
Definition slicePage (data : list LeaderboardRow) (page : Z) : list LeaderboardRow :=
  let n := Z.of_nat (length data) in
  let drop_ := clampedPage page n * pageSize in
  let end_ := Z.min ((clampedPage page n + 1) * pageSize) n in
  take (Z.to_nat (end_ - drop_)) (drop (Z.to_nat drop_) data).

(** The effects of a change of [page] or [data]; the page itself is clamped only when it changes. *)
Definition rendered (pageChanged : bool) (b : Board) : Board :=
  let c := clampedPage (page b) (Z.of_nat (length (data b))) in
  let page' := if pageChanged && negb (page b =? c) then c else page b in
  mkBoard (data b) (slicePage (data b) page') page'.

Inductive Event : Type :=
| Next
| Previous
| Fetched (result : list LeaderboardReturnItem).

(** An answer that cannot be read is only logged. *)
Definition step (b : Board) (e : Event) : Board :=
  let n := Z.of_nat (length (data b)) in
  match e with
  | Next => let p := nextPage (page b) n in
            if p =? page b then b else rendered true (mkBoard (data b) (pageData b) p)
  | Previous => let p := previousPage (page b) n in
                if p =? page b then b else rendered true (mkBoard (data b) (pageData b) p)
  | Fetched result =>
      match parsedRows result with
      | Ok rows => rendered false (mkBoard rows (pageData b) (page b))
      | Throw _ => b
      end
  end.

End Leaderboard.
End Leaderboard.

(** ** What the contract requires of a redemption *)
Module RedemptionContract.
Import LiquityMath.

(** [IPriceFeed.Status] *)
Inductive Status : Type := active | stale | disabled.

#[global] Instance Status_eq_dec : EqDecision Status.
Proof. solve_decision. Defined.

Definition require (b : bool) (message : string) : Res unit := if b then Ok tt else Throw message.

Definition _requireValidMaxFeePercentage (_maxFeePercentage : Z) : Res unit :=
  require ((TroveManager.REDEMPTION_FEE_FLOOR <=? _maxFeePercentage) &&
           (_maxFeePercentage <=? DECIMAL_PRECISION))
    "Max fee percentage must be between 0.5% and 100%".

Definition _requirePriceFeedInactive (status : Status) : Res unit :=
  require (match status with stale | disabled => true | active => false end)
    "TroveManager: Redemptions are only allowed if the price feed is stale or disabled".

Definition _requireTCRoverMCR (entireSystemColl entireSystemDebt _price : Z) : Res unit :=
  match _computeCR entireSystemColl entireSystemDebt _price with
  | Some tcr => require (Liquidation.MCR <=? tcr) "TroveManager: Cannot redeem when TCR < MCR"
  | None => Throw "Panic"
  end.

Definition _requireAmountGreaterThanZero (_amount : Z) : Res unit :=
  require (0 <? _amount) "TroveManager: Amount must be greater than zero".

Definition _requireTHUSDBalanceCoversRedemption (balance _amount : Z) : Res unit :=
  require (_amount <=? balance)
    "TroveManager: Requested redemption amount must be <= user's THUSD token balance".

(** The requirements at the start of [redeemCollateral], in their order. *)
Definition redeemCollateral_requires (_THUSDamount _maxFeePercentage : Z) (status : Status)
    (price entireSystemColl entireSystemDebt balance : Z) : Res unit :=
  let! _ := _requireValidMaxFeePercentage _maxFeePercentage in
  let! _ := _requirePriceFeedInactive status in
  let! _ := _requireTCRoverMCR entireSystemColl entireSystemDebt price in
  let! _ := _requireAmountGreaterThanZero _THUSDamount in
  _requireTHUSDBalanceCoversRedemption balance _THUSDamount.

End RedemptionContract.

(** ** Redemption *)
Module Redemption.
Import Transactions.Transactions.
Section Redemption.
Context {BN : BigNumberOps}.

(** What [select] takes of a store. *)
Record Selected : Type := mkSelected {
  price : Decimal.t;
  fees : Fees.t;
  total : Trove.t;
  thusdBalance : Decimal.t;
  symbol : string;
  isTroveManager : bool;
}.

(** The state of [RedemptionManager]. *)
Record Form : Type := mkForm { thusdAmount : Decimal.t; changePending : bool }.
Definition initial : Form := mkForm Decimal.ZERO false.

Definition transactionId : string := "redemption".

(** [setEditedAmount] *)
Definition setEditedAmount (amount : string) (f : Form) : Res Form :=
  let! a := Decimal.from (Decimal.ofString amount) in Ok (mkForm a (changePending f)).

(** The effect, for a transaction of this panel. *)
Definition onTransaction (isCollateralChecked : bool) (type : StateType) (f : Form) : Form :=
  if isCollateralChecked then
    match type with
    | TwaitingForApproval | TwaitingForConfirmation => mkForm (thusdAmount f) true
    | Tfailed | Tcancelled => mkForm (thusdAmount f) false
    | Tconfirmed | TconfirmedOneShot => mkForm Decimal.ZERO false
    | Tidle => f
    end
  else f.

(** The figures of a render. *)
Record Figures : Type := mkFigures {
  dirty : bool;
  ethAmount : Decimal.t;
  redemptionRate : Decimal.t;
  ethFee : Decimal.t;
  maxRedemptionRate : Decimal.t;
}.

Definition figures (s : Selected) (f : Form) : Res Figures :=
  let dirty := negb (Decimal.isZero (thusdAmount f)) in
  let! ethAmount := Decimal.div (thusdAmount f) (Decimal.ofDecimal (price s)) in
  let! fraction := Decimal.div (thusdAmount f) (Decimal.ofDecimal (Trove.debt (total s))) in
  let! redemptionRate := Fees.redemptionRate (fees s) (Some (Decimal.ofDecimal fraction)) None in
  let! ethFee := Decimal.mul ethAmount (Decimal.ofDecimal redemptionRate) in
  let! maxRedemptionRate := Decimal.add redemptionRate (Decimal.ofNumber "0.001") in
  Ok (mkFigures dirty ethAmount redemptionRate ethFee maxRedemptionRate).

(** What the form says, with the amounts it names. *)
Inductive Description : Type :=
| BelowMinimum
| ExceedsBalance (by_ : Decimal.t)
| WillReceive (amount : Decimal.t).

Definition describe (s : Selected) (f : Form) (g : Figures) : Res (bool * Description) :=
  let! below := Trove.collateralRatioIsBelowMinimum (total s) (price s) in
  if (below : bool) then Ok (false, BelowMinimum)
  else
    let! exceeds := Decimal.gt (thusdAmount f) (Decimal.ofDecimal (thusdBalance s)) in
    if (exceeds : bool) then
      let! d := Decimal.sub (thusdAmount f) (Decimal.ofDecimal (thusdBalance s)) in
      Ok (false, ExceedsBalance d)
    else
      let! received := Decimal.sub (ethAmount g) (Decimal.ofDecimal (ethFee g)) in
      Ok (true, WillReceive received).

(** A render: the description if there is one, and what the button sends unless it is disabled. *)
Record Rendered : Type := mkRendered {
  shown : option Description;
  sends : option (Decimal.t * Decimal.t);
}.

Definition render (s : Selected) (f : Form) : Res Rendered :=
  let! g := figures s f in
  let! '(canRedeem, description) := describe s f g in
  let disabled := negb (dirty g) || negb canRedeem || negb (isTroveManager s) in
  Ok (mkRendered (if dirty g || negb canRedeem then Some description else None)
        (if disabled then None else Some (thusdAmount f, maxRedemptionRate g))).

End Redemption.
End Redemption.

(** ** The rows of collaterals *)
Module PageRow.

Record CollateralStore : Type := mkCollateralStore {
  version : string;
  collateral : string;
  mintList : bool;
}.

(** The two lists the effect makes when the component is mounted: approved, and not. *)
Definition lists (stores : list CollateralStore) :
    list (string * string) * list (string * string) :=
  fold_left (fun '(approved, notApproved) s =>
    if mintList s then (approved ++ [(version s, collateral s)], notApproved)
    else (approved, notApproved ++ [(version s, collateral s)])) stores ([], []).

(** Whether the statistics fill the second half of the row. *)
Definition showsStatistics (approved : list (string * string)) (isWidthFull : bool) : bool :=
  (length approved <=? 1)%nat && negb isWidthFull.

End PageRow.
