(* ===== verification/PanelsProperties.v ===== *)
(** * Properties of the frontend's panels ([Panels]) *)

From S2P Require Import Prelude BigNumber Decimals LiquityMath Constants Troves TroveProperties Fees Transactions Populatable PopulatableProperties SubgraphClient Panels.

Local Open Scope Z_scope.

(** ** Liquidations *)
Module LiquidationProperties.
Import Decimal DecimalFacts Trove TroveFacts LiquityMathFacts.
Section Properties.
Context {BN : BigNumberOps} {BNL : BigNumberLaws BN}.

(** Amounts whose product with the price the contracts can compute. *)
Definition fits (a : Trove.t) (price : Decimal.t) : Prop :=
  _bigNumber (collateral a) * _bigNumber price <= LiquityMath.UINT256_MAX.

Lemma computeCR_ok a price :
  fits a price ->
  LiquityMath._computeCR (_bigNumber (collateral a)) (_bigNumber (debt a)) (_bigNumber price) =
    Some (_bigNumber (dmulDiv (collateral a) price (debt a))).
Proof.
  intros H. unfold fits in H. unfold LiquityMath._computeCR. rewrite mulDiv_agrees.
  assert (0 <= _bigNumber (collateral a) * _bigNumber price) by (unfold _bigNumber; lia).
  destruct (0 <? _bigNumber (debt a)); [|done]. by rewrite checked_ok by lia.
Qed.

Lemma dltb_Z a b : dltb a b = (_bigNumber a <? _bigNumber b).
Proof. unfold dltb, _bigNumber. by rewrite ltb_of_N. Qed.
Lemma dleb_Z a b : dleb a b = (_bigNumber a <=? _bigNumber b).
Proof. unfold dleb, _bigNumber. by rewrite leb_of_N. Qed.

(** The requirement of the button refines the contract. *)
Lemma requirement_decides n price total pool blockTag symbol vault owners mintList :
  (0 < units (debt (UserTrove.super vault)))%N -> 1 < owners ->
  fits total price -> fits (UserTrove.super vault) price ->
  exists s b reason, RiskyVaults.select n price total pool blockTag symbol = Ok s /\
    RiskyVaults.requires s vault = Ok (b, reason) /\
    Liquidation.liquidate owners (_bigNumber (collateral total)) (_bigNumber (debt total))
      (_bigNumber (collateral (UserTrove.super vault))) (_bigNumber (debt (UserTrove.super vault)))
      (_bigNumber price) (_bigNumber pool) mintList = Some b /\
    (b = false -> reason = "Collateral ratio not low enough" \/
       (reason = "There's not enough LED in the Stability pool to cover the debt" /\
        (units pool < units (debt (UserTrove.super vault)))%N)) /\
    reason <> "".
Proof.
  intros Hd Ho Ht Hv. unfold RiskyVaults.select, collateralRatioIsBelowCritical.
  rewrite collateralRatio_ok. cbn [res_bind]. rewrite lt_ok. cbn [res_bind].
  set (tcr := dmulDiv (collateral total) price (debt total)).
  exists (RiskyVaults.mkSelected n price (dltb tcr CRITICAL_COLLATERAL_RATIO) tcr pool blockTag symbol).
  set (v := UserTrove.super vault) in *.
  unfold RiskyVaults.requires, RiskyVaults.liquidatableInRecoveryMode,
    RiskyVaults.liquidatableInNormalMode, collateralRatioIsBelowMinimum. cbn [RiskyVaults.recoveryMode
    RiskyVaults.price RiskyVaults.totalCollateralRatio RiskyVaults.thusdInStabilityPool].
  fold v. rewrite collateralRatio_ok. cbn [res_bind]. rewrite gte_ok, !lt_ok, lte_ok. cbn [res_bind].
  unfold Liquidation.liquidate, Liquidation._checkRecoveryMode. rewrite !computeCR_ok by done.
  cbn [mbind option_bind]. fold tcr. set (icr := dmulDiv (collateral v) price (debt v)).
  rewrite CRITICAL_COLLATERAL_RATIO_val, MINIMUM_COLLATERAL_RATIO_val, !dltb_Z, !dleb_Z.
  change (_bigNumber (Decimal.mk (15 * 10 ^ 17))) with Liquidation.CCR.
  change (_bigNumber (Decimal.mk (11 * 10 ^ 17))) with Liquidation.MCR.
  unfold Liquidation._liquidateRecoveryMode.
  assert (0 < _bigNumber (debt v)) as Hd' by (unfold _bigNumber; lia).
  assert (Liquidation._100pct < Liquidation.MCR) as Hm by done.
  assert ((_bigNumber (debt v) <=? _bigNumber pool) = false -> (units pool < units (debt v))%N) as Hp
    by (intros ?%Z.leb_gt; unfold _bigNumber in *; lia).
  assert (0 <= _bigNumber pool) by (unfold _bigNumber; lia).
  assert ((owners <=? 1) = false) as -> by (by apply Z.leb_gt). rewrite andb_false_r.
  destruct (Z.ltb_spec (_bigNumber tcr) Liquidation.CCR) as [Hr|Hr];
  destruct (Z.leb_spec Liquidation.MCR (_bigNumber icr)) as [Hi|Hi];
  destruct (Z.ltb_spec (_bigNumber icr) Liquidation.MCR); try lia;
  destruct (Z.ltb_spec (_bigNumber icr) (_bigNumber tcr));
  destruct (Z.leb_spec (_bigNumber icr) Liquidation._100pct);
  destruct (Z.ltb_spec Liquidation._100pct (_bigNumber icr)); try lia;
  destruct (Z.eqb_spec (_bigNumber pool) 0);
  destruct (Z.leb_spec (_bigNumber (debt v)) (_bigNumber pool)); try lia;
  cbn [res_bind andb]; do 2 eexists; (split; [done|]); (split; [done|]); (split; [done|]);
  (split; [|discriminate]); intros Hb;
  first [discriminate Hb | by left | right; by split; [|apply Hp] ].
Qed.

(** A transaction of this collateral waits for the wallet or for its receipt. *)
Definition waiting (s : Transactions.TransactionState) (version collateral : string) : Prop :=
  (exists id, s = Transactions.waitingForApproval id version collateral) \/
  (exists id tx, s = Transactions.waitingForConfirmation id tx version collateral).

(** The reasons of a button with one requirement. *)
Lemma reasons_are b reason s version collateral :
  exists more, Transactions.failureReasons [(b, reason)] s version collateral =
    (if (b : bool) then [] else [reason]) ++ more /\
    ((more = [] /\ ~ waiting s version collateral) \/
     (more = ["You must wait for confirmation"] /\ waiting s version collateral)).
Proof.
  unfold Transactions.failureReasons. eexists. split; [destruct b; reflexivity|].
  destruct s as [v c|id e v c|id v c|id v c|id tx v c|id v c|id v c];
    try (left; split; [done|]; intros [ (? & ?)|(? & ? & ?)]; discriminate);
    unfold Transactions.checkTransactionCollateral; cbn [Transactions.versionOf Transactions.collateralOf];
    destruct (String.eqb_spec v version) as [->|]; cbn [andb];
    try (left; split; [done|]; intros [ (? & [=])|(? & ? & [=])]; done);
    destruct (String.eqb_spec c collateral) as [->|]; cbn [andb];
    try (left; split; [done|]; intros [ (? & [=])|(? & ? & [=])]; done);
    right; (split; [done|]); [left; by eexists|right; by do 2 eexists].
Qed.

(** A button with a tooltip and one requirement: enabled, and sending on a click, exactly if the
    requirement holds and no transaction waits; the tooltip names the first reason. *)
Lemma button_with_tooltip b reason s version collateral text :
  text <> "" -> reason <> "" ->
  let d := TransactionButton.Transaction (Some text) None [(b, reason)] s version collateral false in
  TransactionButton.disabled d = negb (TransactionButton.onClick d) /\
  TransactionButton.childText d = None /\
  (TransactionButton.onClick d = true <-> b = true /\ ~ waiting s version collateral) /\
  (TransactionButton.onClick d = true -> TransactionButton.tooltip d = Some text) /\
  (b = false -> TransactionButton.tooltip d = Some reason) /\
  (b = true -> waiting s version collateral ->
   TransactionButton.tooltip d = Some "You must wait for confirmation").
Proof.
  intros Ht Hr d. subst d. unfold TransactionButton.Transaction.
  destruct (reasons_are b reason s version collateral) as (more & -> & Hm).
  assert (forall t, t <> "" -> Transactions.orUndefined t = Some t) as Ho.
  { intros t H. unfold Transactions.orUndefined. by destruct (String.eqb_spec t ""). }
  cbn [mbind option_bind]. rewrite (Ho text Ht).
  destruct b, Hm as [ [-> Hw]|[-> Hw] ]; cbn [app default]; rewrite ?(Ho reason Hr);
    cbn; repeat split; try done; tauto.
Qed.

(** C34: the button that liquidates a Vault: with more than one Vault in the system, on the state of
    a block, it is enabled, and sends the liquidation when clicked, exactly when the contract, at
    that state, liquidates the Vault, in normal mode and in recovery mode, and no transaction of
    this collateral waits for the wallet or its receipt.  When the contract would not, the tooltip
    names the reason, the ratio or a pool smaller than the debt; when only a transaction is in the
    way, it says so. *)
Theorem liquidation_button_decides n price total pool blockTag symbol vault owners mintList
    transaction version coll :
  (0 < units (debt (UserTrove.super vault)))%N -> 1 < owners ->
  fits total price -> fits (UserTrove.super vault) price ->
  exists s d liquidates, RiskyVaults.select n price total pool blockTag symbol = Ok s /\
    RiskyVaults.button s vault transaction version coll = Ok d /\
    Liquidation.liquidate owners (_bigNumber (collateral total)) (_bigNumber (debt total))
      (_bigNumber (collateral (UserTrove.super vault))) (_bigNumber (debt (UserTrove.super vault)))
      (_bigNumber price) (_bigNumber pool) mintList = Some liquidates /\
    TransactionButton.disabled d = negb (TransactionButton.onClick d) /\
    TransactionButton.childText d = None /\
    (TransactionButton.onClick d = true <-> liquidates = true /\ ~ waiting transaction version coll) /\
    (TransactionButton.onClick d = true -> TransactionButton.tooltip d = Some "Liquidate") /\
    (liquidates = false ->
       TransactionButton.tooltip d = Some "Collateral ratio not low enough" \/
       (TransactionButton.tooltip d =
          Some "There's not enough LED in the Stability pool to cover the debt" /\
        (units pool < units (debt (UserTrove.super vault)))%N)) /\
    (liquidates = true -> waiting transaction version coll ->
       TransactionButton.tooltip d = Some "You must wait for confirmation").
Proof.
  intros Hd Ho Ht Hv.
  destruct (requirement_decides n price total pool blockTag symbol vault owners mintList Hd Ho Ht Hv)
    as (s & b & reason & Hs & Hr & Hl & Hreason & Hne).
  exists s. eexists. exists b. split; [exact Hs|]. unfold RiskyVaults.button. rewrite Hr.
  split; [reflexivity|]. split; [exact Hl|].
  destruct (button_with_tooltip b reason transaction version coll "Liquidate" ltac:(done) Hne)
    as (H1 & H2 & H3 & H4 & H5 & H6).
  do 4 (split; [assumption|]). split; [|exact H6]. intros Hb. rewrite (H5 Hb).
  destruct (Hreason Hb) as [->|[-> Hp] ]; [by left|by right].
Qed.

End Properties.
End LiquidationProperties.

(** ** Pages *)
Module PagingProperties.
Import Paging RiskyVaults.

Lemma pages_positive n : 0 <= n -> 1 <= numberOfPages n.
Proof.
  intros Hn. unfold numberOfPages, pageSize.
  assert (0 <= (n + 10 - 1) / 10) by (apply Z.div_pos; lia). destruct (Z.eqb_spec ((n + 10 - 1) / 10) 0); lia.
Qed.
Lemma pages_cover n : 0 <= n -> n <= numberOfPages n * pageSize.
Proof.
  intros Hn. unfold numberOfPages, pageSize.
  pose proof (Z.div_mod (n + 10 - 1) 10 ltac:(lia)). pose proof (Z.mod_pos_bound (n + 10 - 1) 10).
  destruct (Z.eqb_spec ((n + 10 - 1) / 10) 0); lia.
Qed.
Lemma last_page_used n : 0 < n -> (numberOfPages n - 1) * pageSize < n.
Proof.
  intros Hn. unfold numberOfPages, pageSize.
  pose proof (Z.div_mod (n + 10 - 1) 10 ltac:(lia)). pose proof (Z.mod_pos_bound (n + 10 - 1) 10).
  destruct (Z.eqb_spec ((n + 10 - 1) / 10) 0); lia.
Qed.
Lemma clamped_clamped page n : clampedPage (clampedPage page n) n = clampedPage page n.
Proof. unfold clampedPage. lia. Qed.

(** A panel at rest for [n] Vaults and a value of the context: its page is one of theirs, and it is
    the one asked for last, of the store of that value. *)
Definition rests (n : Z) (th : N) (p : Panel) : Prop :=
  0 <= page p /\ page p = clampedPage (page p) n /\ pageDeps p = Some (page p, page p) /\
  fetchDeps p = Some (th, page p, reload p) /\ reloadDeps p = Some n /\
  exists b, last (fetches p) = Some (th, page p * pageSize, b).

(** Before a render: the page may have been changed, and so may the number of Vaults. *)
Definition disturbed (p : Panel) : Prop :=
  0 <= page p /\ (forall c, pageDeps p = Some (page p, c) -> c = page p) /\
  match fetchDeps p with
  | Some (th, a, r) => exists b, last (fetches p) = Some (th, a * pageSize, b)
  | None => True
  end.

Lemma rests_disturbed n th p : rests n th p -> disturbed p.
Proof.
  intros (H0 & _ & Hd & Hf & _ & Hl). split; [done|]. rewrite Hd, Hf. split; [|done].
  by intros c [= <-].
Qed.

Lemma commit_eq n th b p :
  disturbed p ->
  let c := clampedPage (page p) n in
  commit n th b p = mkPanel c (if bool_decide (reloadDeps p = Some n) then reload p else S (reload p))
    (vaults p) (Some (page p, c)) (Some (th, c, reload p)) (Some n)
    (if bool_decide (fetchDeps p = Some (th, c, reload p)) then fetches p
     else fetches p ++ [(th, c * pageSize, b)]).
Proof.
  intros (H0 & Hd & Hf) c. unfold commit, pageEffect, fetchEffect, reloadEffect. fold c.
  assert (page (if bool_decide (pageDeps p = Some (page p, c)) then p
    else mkPanel (if page p =? c then page p else c) (reload p) (vaults p) (Some (page p, c))
           (fetchDeps p) (reloadDeps p) (fetches p)) = c) as Hp.
  { case_bool_decide as E; [by rewrite (Hd _ E)|]. cbn. by destruct (Z.eqb_spec (page p) c). }
  destruct p as [pg rl vs pd fd rd fs]. cbn [page reload vaults pageDeps fetchDeps reloadDeps fetches] in *.
  repeat (case_bool_decide;
    cbn [page reload vaults pageDeps fetchDeps reloadDeps fetches] in * ); f_equal; congruence.
Qed.

(** The renders after an event: at rest, and asked for the page at the block if the page or the
    number of Vaults is another one. *)
Lemma settle_rests n th b p :
  0 <= n -> disturbed p ->
  rests n th (settle 3 n th b p) /\ page (settle 3 n th b p) = clampedPage (page p) n /\
  vaults (settle 3 n th b p) = vaults p /\
  (fetchDeps p <> Some (th, clampedPage (page p) n, reload p) \/ reloadDeps p <> Some n ->
   last (fetches (settle 3 n th b p)) = Some (th, clampedPage (page p) n * pageSize, b)).
Proof.
  intros Hn Hp. assert (0 <= clampedPage (page p) n) as Hc.
  { destruct Hp as [H0 _]. pose proof (pages_positive n Hn). unfold clampedPage. lia. }
  pose proof (clamped_clamped (page p) n) as Hcc.
  assert (exists b', last (fetches (commit n th b p)) = Some (th, clampedPage (page p) n * pageSize, b') /\
    (fetchDeps p <> Some (th, clampedPage (page p) n, reload p) -> b' = b)) as (b' & Hl & Hb).
  { rewrite commit_eq by done. cbn [fetches]. case_bool_decide as E.
    - destruct Hp as (_ & _ & Hf). rewrite E in Hf. destruct Hf as [b' Hf]. by exists b'.
    - exists b. by rewrite last_snoc. }
  pose proof (commit_eq n th b p Hp) as E1. cbn zeta in E1.
  cbn [settle]. rewrite E1 in Hl |- *. cbn [page reload fetches] in *.
  set (c := clampedPage (page p) n) in *.
  destruct (Z.eqb_spec c (page p)) as [Ec|Ec]; cbn [andb];
    [destruct (Nat.eqb_spec (if bool_decide (reloadDeps p = Some n) then reload p else S (reload p))
      (reload p)) as [Er|Er]|].
  1: { split; [|split; [done|]; split; [done|] ].
    - repeat split; cbn; first [done | congruence | by exists b'].
    - case_bool_decide as Hrd; [|lia]. intros [H|H]; [|done]. cbn. by rewrite Hl, (Hb H). }
  all: rewrite commit_eq by (split; [done|]; split; [cbn; congruence|by exists b']).
  all: cbn [page reload vaults pageDeps fetchDeps reloadDeps fetches]; rewrite Hcc.
  all: rewrite (bool_decide_true (Some n = Some n)) by done; rewrite Z.eqb_refl, Nat.eqb_refl; cbn [andb].
  all: set (fs := if bool_decide (fetchDeps p = Some (th, c, reload p)) then _ else _) in *.
  all: set (r1 := if bool_decide (reloadDeps p = Some n) then _ else _) in *.
  all: split; [|split; [done|]; split; [done|] ]; cbn [page reload vaults pageDeps fetchDeps reloadDeps fetches].
  1, 3: split; [done|]; split; [cbn; by rewrite Hcc|]; do 3 (split; [done|]); cbn [fetches page];
    case_bool_decide; [by exists b'|exists b; by rewrite last_snoc].
  all: intros H; case_bool_decide as E; [|by rewrite last_snoc].
  all: injection E as E; unfold r1 in E; case_bool_decide as Erd; [|lia].
  all: destruct H as [H|H]; [|done]; by rewrite Hl, (Hb H).
Qed.
Definition valid (e : Event) : Prop := match e with StoreChanged n _ => 0 <= n | _ => True end.

(** The states between events. *)
Definition resting (s : State) : Prop := 0 <= number s /\ rests (number s) (threshold s) (panel s).

Lemma resting_rendered s : 0 <= number s -> disturbed (panel s) -> resting (rendered s).
Proof. intros Hn Hd. split; [done|]. by apply settle_rests. Qed.

Lemma disturbed_page p page_ n th :
  rests n th p -> 0 <= page_ -> disturbed (with_page page_ p).
Proof.
  intros Hr Hp. pose proof Hr as (_ & _ & Hd & _). apply rests_disturbed in Hr as (_ & _ & Hf).
  split; [done|]. split; [|exact Hf]. cbn [with_page pageDeps page]. rewrite Hd. by intros c [= -> <-].
Qed.

Lemma next_value p n : 0 <= n -> 0 <= p -> p = clampedPage p n ->
  nextPage p n = Z.min (p + 1) (numberOfPages n - 1) /\ previousPage p n = Z.max (p - 1) 0.
Proof.
  intros Hn H0 Hc. unfold nextPage, previousPage. rewrite <- Hc. unfold clampedPage in Hc.
  destruct (Z.ltb_spec p (numberOfPages n - 1)), (Z.ltb_spec 0 p); lia.
Qed.

Lemma resting_handle s e : resting s -> valid e ->
  0 <= number (handle s e) /\ disturbed (panel (handle s e)).
Proof.
  intros [Hn Hr] Hv. pose proof Hr as (H0 & Hc & _). destruct (next_value _ _ Hn H0 Hc) as [E1 E2].
  destruct e as [| |n b|th|v]; cbn [handle with_panel number panel].
  - split; [done|]. eapply disturbed_page; [done|]. rewrite E1. pose proof (pages_positive _ Hn). lia.
  - split; [done|]. eapply disturbed_page; [done|]. rewrite E2. lia.
  - split; [exact Hv|by eapply rests_disturbed].
  - split; [done|by eapply rests_disturbed].
  - split; [done|]. by eapply rests_disturbed.
Qed.

Lemma resting_step s e : resting s -> valid e -> resting (step s e).
Proof. intros Hs Hv. destruct (resting_handle s e Hs Hv) as [H1 H2]. by apply resting_rendered. Qed.

Lemma resting_run n b th events :
  0 <= n -> Forall valid events -> resting (fold_left step events (start n b th)).
Proof.
  intros Hn Hv. assert (resting (start n b th)) as H.
  { apply resting_rendered; [done|]. split; [done|]. split; [done|done]. }
  revert H. generalize (start n b th). induction Hv as [|e events He _ IH]; intros s Hs; [done|].
  by apply IH, resting_step.
Qed.

(** C35: the pages of the list of risky Vaults.  Whatever the clicks, the store's updates and the
    answers, three renders settle the panel: its page is one of those there are, the range over
    the table is not empty and of at most ten Vaults, and what was asked for last is that page, of
    the store of the context; whenever the number of Vaults changes the page is asked for again at
    the block of the change, and whenever the context does, at the block of the store; the buttons
    move by one page and stop at the ends; answers do not move the page. *)
Theorem risky_vaults_pages n b th events :
  0 <= n -> Forall valid events ->
  let s := fold_left step events (start n b th) in
  let p := panel s in
  0 <= page p < numberOfPages (number s) /\ commit (number s) (threshold s) (block s) p = p /\
  (exists b', last (fetches p) = Some (threshold s, page p * pageSize, b')) /\
  (0 < number s -> let '(first, last_) := range (page p) (number s) in
     1 <= first <= last_ /\ last_ <= number s /\ last_ < first + pageSize) /\
  (forall n' b', 0 <= n' -> n' <> number s ->
     let p' := panel (step s (StoreChanged n' b')) in
     page p' = clampedPage (page p) n' /\
     last (fetches p') = Some (threshold s, page p' * pageSize, b')) /\
  (forall th', th' <> threshold s ->
     let p' := panel (step s (ThresholdChanged th')) in
     page p' = page p /\ last (fetches p') = Some (th', page p * pageSize, block s)) /\
  page (panel (step s Next)) = Z.min (page p + 1) (numberOfPages (number s) - 1) /\
  page (panel (step s Previous)) = Z.max (page p - 1) 0 /\
  (forall v, page (panel (step s (Fetched v))) = page p).
Proof.
  intros H0 Hv s p. destruct (resting_run n b th events H0 Hv) as [Hn Hr]. fold s in Hn, Hr. fold p in Hr.
  pose proof Hr as (Hp & Hc & Hpd & Hfd & Hrd & Hl). pose proof (pages_positive _ Hn) as H1.
  destruct (next_value _ _ Hn Hp Hc) as [E1 E2].
  assert (forall e, valid e -> page (panel (step s e)) =
    clampedPage (page (panel (handle s e))) (number (handle s e))) as Hpage.
  { intros e He. destruct (resting_handle s e (conj Hn Hr) He). by apply settle_rests. }
  split; [unfold clampedPage in Hc; lia|]. split.
  { rewrite commit_eq by (by eapply rests_disturbed). rewrite <- Hc, Hfd, Hrd, !bool_decide_true by done.
    destruct p as [pg rl vs pd fd rd fs]. cbn in *. by rewrite Hpd, Hfd, Hrd. }
  split; [exact Hl|]. split; [|split; [|split; [|split; [|split] ] ] ].
  - intros Hpos. unfold range. rewrite <- Hc. unfold clampedPage in Hc.
    pose proof (last_page_used _ Hpos). unfold pageSize in *. lia.
  - intros n' b' Hn' Hne p'. destruct (resting_handle s (StoreChanged n' b') (conj Hn Hr) Hn') as [G1 G2].
    destruct (settle_rests n' (threshold s) b' p Hn' G2) as (_ & E & _ & F). split; [exact E|].
    change (last (fetches (settle 3 n' (threshold s) b' p)) =
      Some (threshold s, page (settle 3 n' (threshold s) b' p) * pageSize, b')).
    rewrite E. apply F. right. rewrite Hrd. congruence.
  - intros th' Hne p'. destruct (resting_handle s (ThresholdChanged th') (conj Hn Hr) I) as [G1 G2].
    destruct (settle_rests (number s) th' (block s) p Hn G2) as (_ & E & _ & F).
    rewrite <- Hc in E, F. split; [exact E|]. apply F. left. rewrite Hfd. congruence.
  - rewrite Hpage by done. cbn [handle with_panel panel number with_page page]. fold p. rewrite E1.
    unfold clampedPage. lia.
  - rewrite Hpage by done. cbn [handle with_panel panel number with_page page]. fold p. rewrite E2.
    unfold clampedPage in *. lia.
  - intros v. rewrite Hpage by done. cbn [handle with_panel panel number with_vaults page]. fold p. done.
Qed.

(** The Vaults shown are those of the last answer, also if it is for another page than the one
    that was asked for last. *)
Lemma late_answer_shown s v : resting s ->
  vaults (panel (step s (Fetched v))) = Some v /\ page (panel (step s (Fetched v))) = page (panel s).
Proof.
  intros Hs. destruct (resting_handle s (Fetched v) Hs I) as [H1 H2].
  destruct (settle_rests _ (threshold s) (block s) _ H1 H2) as (_ & E & F & _). split; [exact F|].
  destruct Hs as (_ & _ & Hc & _). symmetry. etrans; [exact Hc|]. symmetry. exact E.
Qed.

End PagingProperties.

(** ** Redemptions *)
Module RedemptionProperties.
Import Decimal DecimalFacts Trove TroveFacts FeesFacts Redemption.
Section Properties.
Context {BN : BigNumberOps} {BNL : BigNumberLaws BN}.





End Properties.
End RedemptionProperties.

(** ** The leaderboard *)
Module LeaderboardProperties.
Import Leaderboard SubgraphLiquity.

(** A text without capitals. *)
Fixpoint noCapitals (s : string) : bool :=
  match s with
  | EmptyString => true
  | String c s' => let n := Ascii.N_of_ascii c in negb ((65 <=? n) && (n <=? 90))%N && noCapitals s'
  end.

Lemma lower_noCapitals s : noCapitals (toLowerCase s) = true.
Proof.
  induction s as [|c s IH]; [done|]. cbn [toLowerCase noCapitals]. rewrite IH, andb_true_r.
  unfold toLowerCase_char. cbv zeta.
  destruct ((65 <=? Ascii.N_of_ascii c) && (Ascii.N_of_ascii c <=? 90))%N eqn:E; [|by rewrite E].
  set (n := Ascii.N_of_ascii c) in *.
  apply andb_true_iff in E as [H1%N.leb_le H2%N.leb_le].
  rewrite Ascii.N_ascii_embedding by lia. destruct (N.leb_spec (n + 32) 90); [lia|].
  by rewrite andb_false_r.
Qed.

(** The last of the addresses that are left out never is: it is written with capitals, and
    compared with an address without. *)
Lemma third_address_listed (r : LeaderboardRow) :
  toLowerCase (row_address r) = toLowerCase "0x24EcD23096fCF03A15ee8a6FE63F24345Cc4BA46" ->
  blacklisted r = false.
Proof. unfold blacklisted. intros ->. by vm_compute. Qed.

(** No text is the last address once it is in lower case. *)
Lemma third_address_never s : toLowerCase s <> "0x24EcD23096fCF03A15ee8a6FE63F24345Cc4BA46".
Proof. intros H. pose proof (lower_noCapitals s) as Hl. rewrite H in Hl. discriminate. Qed.

(** An answer shows the rows that are not left out, in the order of the sort. *)
Lemma board_fetched {BN : BigNumberOps} sort b result rows :
  parsedRows sort result = Ok rows ->
  data (step sort b (Fetched result)) = rows /\
  pageData (step sort b (Fetched result)) = slicePage rows (page b).
Proof. intros H. cbn. by rewrite H. Qed.

(** The first page shows the first ten rows. *)
Lemma first_page rows : slicePage rows 0 = take 10 rows.
Proof.
  unfold slicePage. set (n := Z.of_nat (length rows)).
  assert (Paging.clampedPage 0 n = 0) as ->.
  { pose proof (PagingProperties.pages_positive n ltac:(lia)). unfold Paging.clampedPage. lia. }
  unfold Paging.pageSize. change (Z.to_nat (0 * 10)) with 0%nat. rewrite drop_0.
  destruct (Z.le_gt_cases n 10).
  - rewrite !take_ge; [done|lia|lia].
  - f_equal. lia.
Qed.

End LeaderboardProperties.

(** ** Rows of collaterals *)
Module PageRowProperties.
Import PageRow.

(** Every store is in exactly one of the lists, in order. *)
Lemma lists_partition stores :
  lists stores =
    (map (fun s => (version s, collateral s)) (List.filter mintList stores),
     map (fun s => (version s, collateral s)) (List.filter (fun s => negb (mintList s)) stores)).
Proof.
  unfold lists.
  assert (forall a n, fold_left (fun '(approved, notApproved) s =>
      if mintList s then (approved ++ [(version s, collateral s)], notApproved)
      else (approved, notApproved ++ [(version s, collateral s)])) stores (a, n) =
    (a ++ map (fun s => (version s, collateral s)) (List.filter mintList stores),
     n ++ map (fun s => (version s, collateral s)) (List.filter (fun s => negb (mintList s)) stores)))
    as H; [|apply H].
  induction stores as [|s stores IH]; intros a n; cbn; [by rewrite !app_nil_r|].
  destruct (mintList s); rewrite IH; cbn; by rewrite <- app_assoc.
Qed.

End PageRowProperties.

(** ** Runs *)
Module PanelsRuns.
Import Decimal.
#[local] Existing Instance Z_bignumber.
#[local] Existing Instance Z_bignumber_laws.

Definition units (n : N) : Decimal.t := Decimal.mk (n * 10 ^ 18).

(** In recovery mode, a Vault between the minimum and the total ratio: the pool is too small, or
    large enough while another transaction waits. *)
Lemma liquidation_button_decides_witness :
  let vault := UserTrove.mk (Trove.mk (units 12) (units 10)) "0x1" UserTrove.open in
  let total := Trove.mk (units 140) (units 100) in
  let waits := Transactions.waitingForApproval "trove" "v1" "eth" in
  exists s d s' d',
    RiskyVaults.select 3 (units 1) total (units 5) None "ETH" = Ok s /\
    RiskyVaults.button s vault waits "v1" "eth" = Ok d /\
    RiskyVaults.select 3 (units 1) total (units 50) None "ETH" = Ok s' /\
    RiskyVaults.button s' vault waits "v1" "eth" = Ok d' /\
    TransactionButton.tooltip d = Some "There's not enough LED in the Stability pool to cover the debt" /\
    TransactionButton.tooltip d' = Some "You must wait for confirmation" /\
    TransactionButton.onClick d' = false.
Proof.
  intros vault total waits.
  destruct (LiquidationProperties.liquidation_button_decides 3 (units 1) total (units 5) None "ETH"
    vault 3 true waits "v1" "eth") as (s & d & b & Hs & Hd & _);
    [reflexivity|lia|vm_compute; discriminate|vm_compute; discriminate|].
  destruct (LiquidationProperties.liquidation_button_decides 3 (units 1) total (units 50) None "ETH"
    vault 3 true waits "v1" "eth") as (s' & d' & b' & Hs' & Hd' & Hb' & _ & _ & Hc & _ & _ & Hw);
    [reflexivity|lia|vm_compute; discriminate|vm_compute; discriminate|].
  exists s, d, s', d'. do 4 (split; [assumption|]).
  assert (b' = true) as -> by (vm_compute in Hb'; congruence).
  assert (LiquidationProperties.waiting waits "v1" "eth") as H by (left; by eexists).
  split; [|split; [exact (Hw eq_refl H)|] ].
  - vm_compute in Hs. injection Hs as <-. vm_compute in Hd. injection Hd as <-. reflexivity.
  - destruct (TransactionButton.onClick d'); [|reflexivity].
    destruct (proj1 Hc eq_refl) as [_ Hn]. destruct (Hn H).
Defined.

Lemma risky_vaults_pages_witness :
  let s := fold_left RiskyVaults.step
    [RiskyVaults.Next; RiskyVaults.Next; RiskyVaults.StoreChanged 8 (Some 7);
     RiskyVaults.ThresholdChanged 1] (RiskyVaults.start 25 (Some 6) 0) in
  RiskyVaults.page (RiskyVaults.panel s) = 0 /\
  RiskyVaults.fetches (RiskyVaults.panel s) =
    [(0%N, 0, Some 6); (0%N, 0, Some 6); (0%N, 10, Some 6); (0%N, 20, Some 6); (0%N, 0, Some 7);
     (0%N, 0, Some 7); (1%N, 0, Some 7)] /\
  exists b', last (RiskyVaults.fetches (RiskyVaults.panel s)) =
    Some (1%N, RiskyVaults.page (RiskyVaults.panel s) * Paging.pageSize, b').
Proof.
  intros s. destruct (PagingProperties.risky_vaults_pages 25 (Some 6) 0
    [RiskyVaults.Next; RiskyVaults.Next; RiskyVaults.StoreChanged 8 (Some 7);
     RiskyVaults.ThresholdChanged 1]) as (_ & _ & H & _).
  - lia.
  - repeat constructor. cbn. lia.
  - split; [vm_compute; reflexivity|]. split; [vm_compute; reflexivity|exact H].
Defined.


End PanelsRuns.
