(* ===== verification/VaultForms.v ===== *)
(** * The forms that open, adjust and close a Vault

    The components of [dev-frontend/src/components/Vault/] around [VaultValidation] and
    [VaultManager]: what they compute when they render, which button they offer and the call it
    makes, and for [Opening.tsx] the whole component, its hooks, effects and the renders these
    cause.  The gas estimation of [ExpensiveVaultChangeWarning.tsx] is a component of its own, with
    timers and answers that may come late. *)

From S2P Require Import Prelude BigNumber Decimals Constants Troves Fees Deposits LiquityStore WebSocketProvider Populatable EthersLiquity VaultValidation VaultManager Views Transactions.

Local Open Scope Z_scope.

(** ** [ExpensiveVaultChangeWarning.tsx] *)
Module GasEstimation.
Import Trove TroveParams.

Inductive GasEstimationState : Type :=
| idle
| inProgress
| complete (gasHeadroom : option Z).

(** One run of the effect: the change and the rate of its closure, and whether its timer has fired
    (it waits for [populate]) and whether its cleanup has run since. *)
Record Estimate : Type := mkEstimate {
  e_change : TroveChange Decimal.t;
  e_maxBorrowingRate : Decimal.t;
  e_asking : bool;
  e_cancelled : bool;
}.

(** [live] is the run whose cleanup is due. *)
Record t : Type := mk {
  estimates : gmap N Estimate;
  live : option N;
  fresh : N;
}.

Definition init : t := mk ∅ None 0.

(** The effect: the state it sets, whatever that was. *)
Definition effect (vaultChange : option (TroveChange Decimal.t)) (maxBorrowingRate : Decimal.t)
    (w : t) : GasEstimationState * t :=
  match vaultChange with
  | None | Some (closure _) => (idle, w)
  | Some c => (inProgress,
               mk (<[fresh w := mkEstimate c maxBorrowingRate false false]> (estimates w))
                 (Some (fresh w)) (fresh w + 1))
  end.

(** [clearTimeout] and [cancelled = true]. *)
Definition cleanup (w : t) : t :=
  match live w with
  | None => w
  | Some n =>
      mk (partial_alter (fun x => match x with
                                  | Some e => if e_asking e
                                              then Some (mkEstimate (e_change e)
                                                           (e_maxBorrowingRate e) true true)
                                              else None
                                  | None => None
                                  end) n (estimates w)) None (fresh w)
  end.

(** The timer of a run has fired: it asks for the transaction. *)
Definition timerFired (n : N) (w : t) : t :=
  mk (alter (fun e => mkEstimate (e_change e) (e_maxBorrowingRate e) true (e_cancelled e)) n
        (estimates w)) (live w) (fresh w).

(** What a run asks of [populate]. *)
Definition asks (e : Estimate) : option (sigT Call) :=
  let limit := Populatable.optionalParams (Some (Decimal.ofDecimal (e_maxBorrowingRate e))) (Some 60) in
  match e_change e with
  | creation params => Some (existT _ (OpenTrove (rawCreation (creationish params)) limit Contracts.noOverrides))
  | adjustment params _ =>
      Some (existT _ (AdjustTrove (rawAdjustment (adjustmentish params)) limit Contracts.noOverrides))
  | _ => None
  end.

(** [populate] has answered a run, or has failed ([None]): the state it sets, if any. *)
Definition answered (n : N) (answer : option (option Z)) (w : t) : option GasEstimationState * t :=
  match estimates w !! n with
  | Some e =>
      if e_asking e then
        (match answer with
         | Some gasHeadroom => if e_cancelled e then None else Some (complete gasHeadroom)
         | None => None
         end, mk (delete n (estimates w)) (live w) (fresh w))
      else (None, w)
  | None => (None, w)
  end.

(** The warning shown: [true] when it is about opening a Vault. *)
Definition warns (vaultChange : option (TroveChange Decimal.t)) (s : GasEstimationState) :
    option bool :=
  match vaultChange, s with
  | Some c, complete (Some gasHeadroom) =>
      if 200000 <=? gasHeadroom
      then Some match c with creation _ => true | _ => false end
      else None
  | _, _ => None
  end.

End GasEstimation.

(** ** What the forms share: [useValidationState.tsx], [VaultAction.tsx], the buttons *)
Module VaultForms.
Import Trove TroveParams.

Section Operations.
Context {BN : BigNumberOps}.

(** [hasApproved] and [amountToApprove]. *)
Definition useValidationState (erc20TokenAllowance : Decimal.t)
    (stableVaultChange : option (TroveChange Decimal.t)) : Res (bool * option Decimal.t) :=
  match stableVaultChange with
  | Some c =>
      match deposit (VaultValidation.changeProps c) with
      | Some collateralBN =>
          let! hasApproved :=
            if Decimal.isZero erc20TokenAllowance then Ok false
            else Decimal.gte erc20TokenAllowance (Decimal.ofDecimal collateralBN) in
          let! zero := Decimal.from (Decimal.ofNumber "0") in
          Ok (hasApproved, Some (if (hasApproved : bool) then zero else collateralBN))
      | None => Ok (false, None)
      end
  | None => Ok (false, None)
  end.

(** The call [VaultAction] sends.  The type of its change excludes [invalidCreation]. *)
Definition vaultAction (change : TroveChange Decimal.t) (maxBorrowingRate : Decimal.t) :
    option (sigT Call) :=
  let limit := Populatable.optionalParams (Some (Decimal.ofDecimal maxBorrowingRate)) (Some 60) in
  match change with
  | creation params =>
      Some (existT _ (OpenTrove (rawCreation (creationish params)) limit Contracts.noOverrides))
  | closure _ => Some (existT _ (CloseTrove Contracts.noOverrides))
  | adjustment params _ =>
      Some (existT _ (AdjustTrove (rawAdjustment (adjustmentish params)) limit
                        Contracts.noOverrides))
  | invalidCreation _ _ => None
  end.

(** The main button of a form. *)
Inductive Button : Type :=
| Approve (amount : Decimal.t)
| Waiting
| Confirm (change : TroveChange Decimal.t) (maxBorrowingRate : Decimal.t)
| Disabled.

(** What pressing the button sends. *)
Definition sends (b : Button) : option (sigT Call) :=
  match b with
  | Approve amount =>
      Some (existT _ (ApproveErc20 (Some (Decimal.ofDecimal amount)) Contracts.noOverrides))
  | Confirm change maxBorrowingRate => vaultAction change maxBorrowingRate
  | Waiting | Disabled => None
  end.

(** The condition under which [useStableVaultChange] keeps the new change. *)
Definition stableMoves (stableVaultChange vaultChange : option (TroveChange Decimal.t)) :
    Res bool :=
  match stableVaultChange, vaultChange with
  | None, Some _ | Some _, None => Ok true
  | Some a, Some b => let! e := VaultManager.equals a b in Ok (negb e)
  | None, None => Ok false
  end.

(** [transactionState.type === "waitingForApproval" || ... "waitingForConfirmation"] *)
Definition isPending (type : Transactions.StateType) : bool :=
  match type with
  | Transactions.TwaitingForApproval | Transactions.TwaitingForConfirmation => true
  | _ => false
  end.
Definition isConfirmed (type : Transactions.StateType) : bool :=
  match type with Transactions.TconfirmedOneShot | Transactions.Tconfirmed => true | _ => false end.

(** ** [CollateralRatio.tsx] *)

Inductive Color : Type := success | warning | danger | muted.

Definition ratioColor (value : option Decimal.t) : Res Color :=
  match value with
  | None => Ok muted
  | Some value =>
      let! above := Decimal.gt value (Decimal.ofDecimal CRITICAL_COLLATERAL_RATIO) in
      if (above : bool) then Ok success
      else
        let! risky := Decimal.gt value (Decimal.ofNumber "1.2") in
        if (risky : bool) then Ok warning
        else
          let! low := Decimal.lte value (Decimal.ofNumber "1.2") in
          Ok (if (low : bool) then danger else muted)
  end.

(** [change?.positive?.absoluteValue?.gt(10)] *)
Definition exceedsTen (d : option Difference.t) : Res bool :=
  match d with
  | Some d => match Difference.absoluteValue d with
              | Some x => Decimal.gt x (Decimal.ofNumber "10")
              | None => Ok false
              end
  | None => Ok false
  end.

(** The amount in parentheses. *)
Definition pendingRatio (change : option Difference.t) : Res (option string) :=
  match change with
  | None => Ok None
  | Some change =>
      let! up := exceedsTen (Difference.positive change) in
      if (up : bool) then Ok (Some "++")
      else
        let! down := exceedsTen (Difference.negative change) in
        if (down : bool) then Ok (Some "--")
        else
          let! pct := Percent.new change in
          let! nonZeroish := Percent.nonZeroish pct 2 in
          match nonZeroish with
          | Some pct => let! s := Percent.prettify pct in Ok (Some s)
          | None => Ok None
          end
  end.

(** The icon and the text of [PendingAmount] ([Editor.tsx]). *)
Inductive Icon : Type := angle_double_up | angle_double_down | angle_up | angle_down.

Definition pendingAmount (value : string) : option Icon * string :=
  if String.eqb value "++" then (Some angle_double_up, "")
  else if String.eqb value "--" then (Some angle_double_down, "")
  else match value with
       | String "+"%char rest => (Some angle_up, rest)
       | String "-"%char rest => (Some angle_down, rest)
       | _ => (None, value)
       end.

(** Whether the advice to stay above 150% is shown. *)
Definition advises (value : option Decimal.t) : Res bool :=
  match value with
  | Some value => Decimal.lt value (Decimal.ofNumber "1.5")
  | None => Ok false
  end.

End Operations.

(** An editable row: what typing a text does to the form, and whether the input is marked. *)
Definition typed {F} (set : Decimal.t -> F -> F) (amount : Res Decimal.t) (f : F) : F * bool :=
  match amount with
  | Ok d => (set d f, false)
  | Throw _ => (f, true)
  end.

End VaultForms.

(** ** [Opening.tsx] *)
Module Opening.
Import Trove TroveParams VaultForms.

(** What [selector] takes of the store of the component's version and collateral, with the
    allowance that [useValidationState] takes. *)
Record Selected : Type := mkSelected {
  fees : Fees.t;
  price : Decimal.t;
  erc20TokenBalance : Decimal.t;
  erc20TokenAllowance : Decimal.t;
  validationContext : VaultValidation.VaultChangeValidationSelectedState;
  symbol : string;
}.

Definition selector (b : LiquityStore.LiquityStoreBaseState)
    (d : LiquityStore.LiquityStoreDerivedState) : Selected :=
  mkSelected (snd (LiquityStore.fees d)) (snd (LiquityStore.price _ b))
    (snd (LiquityStore.erc20TokenBalance _ b)) (snd (LiquityStore.erc20TokenAllowance _ b))
    (VaultValidation.selectForVaultChangeValidation b) (LiquityStore.symbol _ b).

Definition TRANSACTION_ID : string := "vault-creation".
Definition APPROVE_TRANSACTION_ID : string := "vault-approve".

(** What the user edits; [isMounted] is the state of that name. *)
Record Form : Type := mkForm {
  collateralAmount : Decimal.t;
  borrowAmount : Decimal.t;
  isMounted : bool;
}.

(** The renders' inputs: the store and the component's transaction state. *)
Record Inputs : Type := mkInputs {
  selected : Selected;
  isCollateralChecked : bool;
  transactionType : Transactions.StateType;
}.

(** [useMyTransactionState] and [checkTransactionCollateral]. *)
Definition inputs (s : Selected) (version collateral : string)
    (x : Transactions.TransactionState) : Inputs :=
  let mine := Transactions.useMyTransactionState (String.eqb TRANSACTION_ID) version collateral x in
  mkInputs s (Transactions.checkTransactionCollateral mine version collateral)
    (Transactions.typeOf mine).

Section Opening.
Context {BN : BigNumberOps}.

Definition EMPTY_VAULT : Trove.t := Trove.mk Decimal.ZERO Decimal.ZERO.
Definition initial : Form := mkForm Decimal.ZERO Decimal.ZERO true.

Record Figures : Type := mkFigures {
  borrowingRate : Decimal.t;
  maxBorrowingRate : Decimal.t;
  fee : Decimal.t;
  totalDebt : Decimal.t;
  isDirty : bool;
  trove : Trove.t;
  collateralMaxedOut : bool;
  collateralRatio : option Decimal.t;
}.

Definition figures (s : Selected) (f : Form) : Res Figures :=
  let! borrowingRate := Fees.borrowingRate (fees s) None in
  let! maxBorrowingRate := VaultManager.maxBorrowingRate borrowingRate in
  let! fee := Decimal.mul (borrowAmount f) (Decimal.ofDecimal borrowingRate) in
  let! withReserve := Decimal.add (borrowAmount f) (Decimal.ofDecimal THUSD_LIQUIDATION_RESERVE) in
  let! totalDebt := Decimal.add withReserve (Decimal.ofDecimal fee) in
  let isDirty := negb (Decimal.isZero (collateralAmount f)) || negb (Decimal.isZero (borrowAmount f)) in
  let trove := if isDirty then Trove.mk (collateralAmount f) totalDebt else EMPTY_VAULT in
  let! collateralMaxedOut := Decimal.eq (collateralAmount f) (Decimal.ofDecimal (erc20TokenBalance s)) in
  let! collateralRatio :=
    if negb (Decimal.isZero (collateralAmount f)) && negb (Decimal.isZero (borrowAmount f))
    then let! r := Trove.collateralRatio trove (Decimal.ofDecimal (price s)) in Ok (Some r)
    else Ok None in
  Ok (mkFigures borrowingRate maxBorrowingRate fee totalDebt isDirty trove collateralMaxedOut
        collateralRatio).

Record Rendered : Type := mkRendered {
  shown : Figures;
  vaultChange : option (TroveChange Decimal.t);
  description : option VaultValidation.Element;
  hasApproved : bool;
  amountToApprove : option Decimal.t;
  button : Button;
  overlay : bool;
}.

Definition mainButton (hasApproved : bool) (amountToApprove : option Decimal.t)
    (gas : GasEstimation.GasEstimationState) (stableVaultChange : option (TroveChange Decimal.t))
    (maxBorrowingRate : Decimal.t) : Button :=
  match hasApproved, amountToApprove with
  | false, Some amount => Approve amount
  | _, _ =>
      match gas, stableVaultChange with
      | GasEstimation.inProgress, _ => Waiting
      | _, Some change => Confirm change maxBorrowingRate
      | _, None => Disabled
      end
  end.

Definition render (i : Inputs) (f : Form) (stableVaultChange : option (TroveChange Decimal.t))
    (gas : GasEstimation.GasEstimationState) : Res Rendered :=
  let s := selected i in
  let! g := figures s f in
  let! '(vaultChange, description) :=
    VaultValidation.validateVaultChange EMPTY_VAULT (trove g) (borrowingRate g)
      (validationContext s) in
  let! '(hasApproved, amountToApprove) :=
    useValidationState (erc20TokenAllowance s) stableVaultChange in
  Ok (mkRendered g vaultChange description hasApproved amountToApprove
        (mainButton hasApproved amountToApprove gas stableVaultChange (maxBorrowingRate g))
        (isCollateralChecked i && isPending (transactionType i))).

(** The mounted component.  Setting an amount makes a new object every time, which [revision]
    counts; [stable] carries its identity.  [warningDeps] are the dependencies of the effect of the
    warning, which is mounted while the allowance is enough; [minimumDeps], [minimumCleanup] and
    [openedDeps] those of the two effects of the component; [opened] counts the events
    [VAULT_OPENED] dispatched. *)
Record t : Type := mk {
  ins : Inputs;
  form : Form;
  revision : N;
  stable : option (Obj (TroveChange Decimal.t));
  nextChange : N;
  gas : GasEstimation.GasEstimationState;
  warning : GasEstimation.t;
  warningDeps : option (option N);
  minimumDeps : option (N * bool);
  minimumCleanup : bool;
  openedDeps : option (bool * Transactions.StateType * bool);
  opened : nat;
}.

Definition renderOf (a : t) : Res Rendered :=
  render (ins a) (form a) (option_map snd (stable a)) (gas a).

(** The dependencies of the warning's effect in this render, if it is mounted. *)
Definition depsOf (a : t) (r : Rendered) : option (option N) :=
  if hasApproved r then Some (option_map fst (stable a)) else None.

(** The warning's cleanup and effect: the state it sets, if any. *)
Definition warningEffect (a : t) (r : Rendered) :
    option GasEstimation.GasEstimationState * GasEstimation.t :=
  let deps := depsOf a r in
  if bool_decide (deps = warningDeps a) then (None, warning a)
  else
    let w := GasEstimation.cleanup (warning a) in
    match deps with
    | Some _ =>
        let '(g, w) := GasEstimation.effect (option_map snd (stable a))
                         (maxBorrowingRate (shown r)) w in (Some g, w)
    | None => (None, w)
    end.

(** The effect that proposes a minimum runs when an amount or [isMounted] has changed, after the
    cleanup its last run may have left, which sets [isMounted] to false. *)
Definition minimumRuns (a : t) : bool :=
  negb (bool_decide (minimumDeps a = Some (revision a, isMounted (form a)))).
Definition unmounts (a : t) : bool := minimumRuns a && minimumCleanup a.
Definition proposes (a : t) : bool :=
  minimumRuns a && isMounted (form a) && negb (Decimal.isZero (collateralAmount (form a))) &&
  Decimal.isZero (borrowAmount (form a)).

Definition openedDepsOf (a : t) : bool * Transactions.StateType * bool :=
  (isCollateralChecked (ins a), transactionType (ins a), isMounted (form a)).
Definition dispatches (a : t) : bool :=
  negb (bool_decide (openedDeps a = Some (openedDepsOf a))) &&
  isCollateralChecked (ins a) && isConfirmed (transactionType (ins a)).

(** A render and its effects: whether one of them has set a state, and what they leave. *)
Definition commit (a : t) : Res (bool * t) :=
  let! r := renderOf a in
  let '(newGas, warning) := warningEffect a r in
  let! moves := stableMoves (option_map snd (stable a)) (vaultChange r) in
  let f := form a in
  Ok (VaultValidation.present newGas || moves || proposes a || (unmounts a && isMounted f),
      mk (ins a)
        (mkForm (collateralAmount f)
           (if proposes a then THUSD_MINIMUM_NET_DEBT else borrowAmount f)
           (negb (unmounts a) && isMounted f))
        (if proposes a then revision a + 1 else revision a)%N
        (if (moves : bool) then option_map (pair (nextChange a)) (vaultChange r) else stable a)
        (if (moves : bool) then nextChange a + 1 else nextChange a)%N
        (match newGas with Some g => g | None => gas a end) warning (depsOf a r)
        (Some (revision a, isMounted f))
        (if minimumRuns a then isMounted f else minimumCleanup a)
        (Some (openedDepsOf a)) (if dispatches a then S (opened a) else opened a)).

(** Renders until no effect sets a state. *)
Fixpoint settle (fuel : nat) (a : t) : Res t :=
  match fuel with
  | O => Throw "Too many re-renders."
  | S fuel' =>
      let! '(again, a') := commit a in
      if (again : bool) then settle fuel' a' else Ok a'
  end.

Definition start (i : Inputs) : Res t :=
  let empty := mk i initial 0 None 0 GasEstimation.idle GasEstimation.init None None false None 0 in
  settle 4 empty.

Inductive Event : Type :=
| TypeCollateral (amount : string)
| TypeBorrow (amount : string)
| PressMax
| Rerender (i : Inputs)
| TimerFired (n : N)
| Estimated (n : N) (answer : option (option Z)).

Definition with_form (f : Form) (a : t) : t :=
  mk (ins a) f (revision a + 1) (stable a) (nextChange a) (gas a) (warning a) (warningDeps a)
    (minimumDeps a) (minimumCleanup a) (openedDeps a) (opened a).
Definition with_inputs (i : Inputs) (a : t) : t :=
  mk i (form a) (revision a) (stable a) (nextChange a) (gas a) (warning a) (warningDeps a)
    (minimumDeps a) (minimumCleanup a) (openedDeps a) (opened a).
Definition with_gas (g : option GasEstimation.GasEstimationState) (w : GasEstimation.t) (a : t) : t :=
  mk (ins a) (form a) (revision a) (stable a) (nextChange a)
    (match g with Some g => g | None => gas a end) w (warningDeps a)
    (minimumDeps a) (minimumCleanup a) (openedDeps a) (opened a).

(** [setCollateralAmount(Decimal.from(amount))]: an amount that cannot be read changes nothing. *)
Definition typeCollateral (amount : string) (a : t) : t :=
  match Decimal.from (Decimal.ofString amount) with
  | Ok d => with_form (mkForm d (borrowAmount (form a)) (isMounted (form a))) a
  | Throw _ => a
  end.
Definition typeBorrow (amount : string) (a : t) : t :=
  match Decimal.from (Decimal.ofString amount) with
  | Ok d => with_form (mkForm (collateralAmount (form a)) d (isMounted (form a))) a
  | Throw _ => a
  end.

(** The button "max" sets the text of the balance. *)
Definition pressMax (a : t) : t :=
  let balance := erc20TokenBalance (selected (ins a)) in
  match Decimal.eq (collateralAmount (form a)) (Decimal.ofDecimal balance),
        Decimal.toString balance None with
  | Ok false, Ok text => typeCollateral text a
  | _, _ => a
  end.

Definition handle (e : Event) (a : t) : t :=
  match e with
  | TypeCollateral amount => typeCollateral amount a
  | TypeBorrow amount => typeBorrow amount a
  | PressMax => pressMax a
  | Rerender i => with_inputs i a
  | TimerFired n => with_gas None (GasEstimation.timerFired n (warning a)) a
  | Estimated n answer =>
      let '(g, w) := GasEstimation.answered n answer (warning a) in with_gas g w a
  end.

Definition step (e : Event) (a : t) : Res t := settle 4 (handle e a).

Definition run (i : Inputs) (es : list Event) : Res t :=
  let! a := start i in res_foldM (fun a e => step e a) a es.

End Opening.
End Opening.

(** ** [Adjusting.tsx] *)
Module Adjusting.
Import Trove TroveParams VaultForms.

Record Selected : Type := mkSelected {
  trove : UserTrove.t;
  fees : Fees.t;
  price : Decimal.t;
  collateralAddress : string;
  erc20TokenBalance : Decimal.t;
  erc20TokenAllowance : Decimal.t;
  validationContext : VaultValidation.VaultChangeValidationSelectedState;
  symbol : string;
}.

Definition selector (b : LiquityStore.LiquityStoreBaseState)
    (d : LiquityStore.LiquityStoreDerivedState) : Selected :=
  mkSelected (snd (LiquityStore.trove d)) (snd (LiquityStore.fees d))
    (snd (LiquityStore.price _ b)) (LiquityStore.collateralAddress _ b)
    (snd (LiquityStore.erc20TokenBalance _ b)) (snd (LiquityStore.erc20TokenAllowance _ b))
    (VaultValidation.selectForVaultChangeValidation b) (LiquityStore.symbol _ b).

Definition TRANSACTION_ID : string := "vault-adjustment".

Record Form : Type := mkForm {
  collateralAmount : Decimal.t;
  netDebt : Decimal.t;
}.

Section Adjusting.
Context {BN : BigNumberOps}.

Definition initial (s : Selected) : Res Form :=
  let! net := Trove.netDebt (UserTrove.super (trove s)) in
  Ok (mkForm (Trove.collateral (UserTrove.super (trove s))) net).

Record Figures : Type := mkFigures {
  borrowingRate : Decimal.t;
  maxBorrowingRate : Decimal.t;
  isDirty : bool;
  debtIncreaseAmount : Decimal.t;
  fee : Decimal.t;
  totalDebt : Decimal.t;
  updatedVault : Trove.t;
  maxCollateral : Decimal.t;
  collateralMaxedOut : bool;
  collateralRatio : option Decimal.t;
  collateralRatioChange : Difference.t;
}.

Definition feeOf (trove : Trove.t) (debtIncreaseAmount borrowingRate : Decimal.t) : Res Decimal.t :=
  let! debt := Decimal.add (Trove.debt trove) (Decimal.ofDecimal debtIncreaseAmount) in
  VaultManager.feeFrom trove (Trove.mk (Trove.collateral trove) debt) borrowingRate.

Definition figures (s : Selected) (f : Form) : Res Figures :=
  let trove := UserTrove.super (trove s) in
  let! borrowingRate := Fees.borrowingRate (fees s) None in
  let! net := Trove.netDebt trove in
  let! sameCollateral :=
    Decimal.eq (collateralAmount f) (Decimal.ofDecimal (Trove.collateral trove)) in
  let! sameDebt := Decimal.eq (netDebt f) (Decimal.ofDecimal net) in
  let isDirty := negb sameCollateral || negb sameDebt in
  let! isDebtIncrease := Decimal.gt (netDebt f) (Decimal.ofDecimal net) in
  let! debtIncreaseAmount :=
    if (isDebtIncrease : bool) then Decimal.sub (netDebt f) (Decimal.ofDecimal net)
    else Ok Decimal.ZERO in
  let! fee :=
    if (isDebtIncrease : bool) then feeOf trove debtIncreaseAmount borrowingRate
    else Ok Decimal.ZERO in
  let! withReserve := Decimal.add (netDebt f) (Decimal.ofDecimal THUSD_LIQUIDATION_RESERVE) in
  let! totalDebt := Decimal.add withReserve (Decimal.ofDecimal fee) in
  let! maxBorrowingRate := VaultManager.maxBorrowingRate borrowingRate in
  let updatedVault := if isDirty then Trove.mk (collateralAmount f) totalDebt else trove in
  let! maxCollateral :=
    Decimal.add (Trove.collateral trove) (Decimal.ofDecimal (erc20TokenBalance s)) in
  let! collateralMaxedOut := Decimal.eq (collateralAmount f) (Decimal.ofDecimal maxCollateral) in
  let! collateralRatio :=
    if negb (Decimal.isZero (collateralAmount f)) && negb (Decimal.isZero (netDebt f))
    then let! r := Trove.collateralRatio updatedVault (Decimal.ofDecimal (price s)) in Ok (Some r)
    else Ok None in
  let! ratioNow := Trove.collateralRatio trove (Decimal.ofDecimal (price s)) in
  let! collateralRatioChange :=
    Difference.between (option_map Decimal.ofDecimal collateralRatio)
      (Some (Decimal.ofDecimal ratioNow)) in
  Ok (mkFigures borrowingRate maxBorrowingRate isDirty debtIncreaseAmount fee totalDebt
        updatedVault maxCollateral collateralMaxedOut collateralRatio collateralRatioChange).

Record Rendered : Type := mkRendered {
  shown : Figures;
  vaultChange : option (TroveChange Decimal.t);
  description : option VaultValidation.Element;
  button : Button;
  estimates : bool;
}.

(** The token of the collateral needs an approval when it has an address. *)
Definition mainButton (collateralAddress : string) (hasApproved : bool)
    (amountToApprove : option Decimal.t) (stableVaultChange : option (TroveChange Decimal.t))
    (maxBorrowingRate : Decimal.t) : Button :=
  match negb (String.eqb collateralAddress "") && negb hasApproved, amountToApprove with
  | true, Some amount => Approve amount
  | _, _ => match stableVaultChange with
            | Some change => Confirm change maxBorrowingRate
            | None => Disabled
            end
  end.

(** Nothing is rendered while the Vault is not open. *)
Definition render (s : Selected) (f : Form) (stableVaultChange : option (TroveChange Decimal.t)) :
    Res (option Rendered) :=
  let! g := figures s f in
  let! '(vaultChange, description) :=
    VaultValidation.validateVaultChange (UserTrove.super (trove s)) (updatedVault g)
      (borrowingRate g) (validationContext s) in
  let! '(hasApproved, amountToApprove) :=
    useValidationState (erc20TokenAllowance s) stableVaultChange in
  if bool_decide (UserTrove.status (trove s) = UserTrove.open) then
    Ok (Some (mkRendered g vaultChange description
                (mainButton (collateralAddress s) hasApproved amountToApprove stableVaultChange
                   (maxBorrowingRate g))
                (hasApproved || String.eqb (collateralAddress s) "")))
  else Ok None.

(** The event dispatched when the component's transaction has type [type]. *)
Definition onTransaction (isCollateralChecked : bool) (type : Transactions.StateType) :
    option VaultView.VaultEvent :=
  match isCollateralChecked, type with
  | true, Transactions.TconfirmedOneShot => Some VaultView.VAULT_ADJUSTED
  | _, _ => None
  end.

End Adjusting.
End Adjusting.

(** ** The component of [VaultManager.tsx], shown while a Vault is being closed, and [VaultEditor.tsx] *)
Module Closing.
Import Trove TroveParams VaultForms VaultManager.

Definition transactionIdPrefix : string := "vault-".
Definition transactionIdMatcher : string -> bool := String.prefix transactionIdPrefix.

(** What mounting with the amounts of the properties dispatches to the reducer; [Vault.tsx] gives
    [Decimal.ZERO] twice. *)
Definition mountActions (collateralAmount debt : option Decimal.Decimalish) :
    list VaultManagerAction :=
  match collateralAmount with Some d => [setCollateral d] | None => [] end ++
  match debt with Some d => [setDebt d] | None => [] end.

(** The effect of the component's transaction: an action of the reducer or an event of the view. *)
Definition onTransaction (isCollateralChecked : bool) (x : Transactions.TransactionState) :
    option (VaultManagerAction + VaultView.VaultEvent) :=
  if isCollateralChecked then
    match x with
    | Transactions.waitingForApproval _ _ _ | Transactions.waitingForConfirmation _ _ _ _ =>
        Some (inl startChange)
    | Transactions.failed _ _ _ _ | Transactions.cancelled _ _ _ => Some (inl finishChange)
    | Transactions.confirmedOneShot id _ _ =>
        Some (inr (if String.eqb id (transactionIdPrefix +:+ "closure") then VaultView.VAULT_CLOSED
                   else VaultView.VAULT_ADJUSTED))
    | _ => None
    end
  else None.

Section Closing.
Context {BN : BigNumberOps}.

(** What [VaultEditor] computes. *)
Definition ratios (original edited : Trove.t) (price : Decimal.t) :
    Res (option Decimal.t * Difference.t) :=
  let ratio (v : Trove.t) :=
    if negb (isEmpty v) then let! r := Trove.collateralRatio v (Decimal.ofDecimal price) in Ok (Some r)
    else Ok None in
  let! originalCollateralRatio := ratio original in
  let! collateralRatio := ratio edited in
  let! change := Difference.between (option_map Decimal.ofDecimal collateralRatio)
                   (option_map Decimal.ofDecimal originalCollateralRatio) in
  Ok (collateralRatio, change).

Record Rendered : Type := mkRendered {
  fee : Decimal.t;
  description : option VaultValidation.Element;
  button : Button;
  transactionId : option string;
  overlay : bool;
}.

Definition typeName {T} (c : TroveChange T) : string :=
  match c with
  | invalidCreation _ _ => "invalidCreation"
  | creation _ => "creation"
  | closure _ => "closure"
  | adjustment _ _ => "adjustment"
  end.

Definition render (fees : Fees.t) (context : VaultValidation.VaultChangeValidationSelectedState)
    (s : VaultManagerState) : Res Rendered :=
  let! borrowingRate := Fees.borrowingRate fees None in
  let! max := maxBorrowingRate borrowingRate in
  let original := UserTrove.super (original s) in
  let! '(validChange, description) :=
    VaultValidation.validateVaultChange original (edited s) borrowingRate context in
  let! fee := feeFrom original (edited s) borrowingRate in
  Ok (mkRendered fee description
        (match validChange with Some c => Confirm c max | None => Disabled end)
        (option_map (fun c => transactionIdPrefix +:+ typeName c) validChange)
        (changePending s)).

End Closing.
End Closing.
