(* ===== verification/VaultFormsProperties.v ===== *)
(** * What the forms of a Vault send

    [Opening.tsx] settles after every event, and the button it then offers asks for exactly what
    was typed, once the allowance covers it; a form that adjusts a Vault borrows a little less
    than was typed. *)

From S2P Require Import Prelude BigNumber Decimals Constants Troves TroveProperties Fees Deposits LiquityStore WebSocketProvider Populatable EthersLiquity VaultValidation VaultValidationProperties VaultManager VaultManagerProperties Views Transactions VaultForms.

Local Open Scope Z_scope.

Module VaultFormsProperties.
Import Decimal DecimalFacts Trove TroveParams TroveFacts TroveProperties.
Import VaultForms.

#[global] Instance creation_eq_dec : EqDecision (TroveCreationParams Decimal.t).
Proof. solve_decision. Defined.
#[global] Instance closure_eq_dec : EqDecision (TroveClosureParams Decimal.t).
Proof. solve_decision. Defined.
#[global] Instance creation_error_eq_dec : EqDecision TroveCreationError.
Proof. solve_decision. Defined.
#[global] Instance set_to_zero_eq_dec : EqDecision SetToZero.
Proof. solve_decision. Defined.
#[global] Instance change_eq_dec : EqDecision (TroveChange Decimal.t).
Proof. solve_decision. Defined.

(** The latest block is less than 2^32 minutes after the last operation with a fee, or the system
    is in recovery mode: the borrowing rate can be computed. *)
Definition computable (f : Fees.t) : Prop :=
  Fees._recoveryMode f = true \/ FeesFacts.minutes f None < 2 ^ 32.

(** The rate, between 0.5% and 5% unless it is zero in recovery mode. *)
Definition rateOf (f : Fees.t) : Decimal.t :=
  Decimal.mk (if Fees._recoveryMode f then 0
              else N.min (5 * 10 ^ 15 + FeesFacts.decayed f None) (5 * 10 ^ 16)).

Section Shared.
Context {BN : BigNumberOps} {BL : BigNumberLaws BN}.

Lemma rate_ok f : computable f -> Fees.borrowingRate f None = Ok (rateOf f).
Proof. apply FeesFacts.borrowingRate_ok. Qed.

Lemma rate_small f : (units (rateOf f) < SCALE)%N.
Proof. unfold rateOf. cbn [units]. destruct (Fees._recoveryMode f); unfold SCALE; lia. Qed.

Definition tolerance : Decimal.t := Decimal.mk (5 * 10 ^ 15).

Lemma maxRate_ok r : VaultManager.maxBorrowingRate r = Ok (dadd r tolerance).
Proof.
  unfold VaultManager.maxBorrowingRate. apply add_from. rewrite from_number. by vm_compute.
Qed.

(** An amount with its fee is what [dapplyFee] says. *)
Lemma dapplyFee_split r b :
  units (dapplyFee r b) = (units b + units (dmul b r))%N.
Proof.
  unfold dapplyFee, onePlus, dmul. cbn [units].
  replace (units b * (SCALE + units r))%N with (units b * SCALE + units b * units r)%N by lia.
  by rewrite N.div_add_l.
Qed.

(** The approval that [useValidationState] asks for. *)
Definition approved (allowance : Decimal.t) (change : option (TroveChange Decimal.t)) :
    bool * option Decimal.t :=
  match change with
  | Some c => match deposit (VaultValidation.changeProps c) with
              | Some d =>
                  let covers := negb (Decimal.isZero allowance) && dleb d allowance in
                  (covers, Some (if covers then Decimal.mk 0 else d))
              | None => (false, None)
              end
  | None => (false, None)
  end.

Lemma useValidationState_ok allowance change :
  useValidationState allowance change = Ok (approved allowance change).
Proof.
  unfold useValidationState, approved. destruct change as [c|]; [|done].
  destruct (deposit (VaultValidation.changeProps c)) as [d|]; [|done].
  assert (from (ofNumber "0") = Ok (Decimal.mk 0)) as Hz by (rewrite from_number; by vm_compute).
  destruct (Decimal.isZero allowance); cbn [res_bind negb andb];
    rewrite ?gte_ok; cbn [res_bind]; by rewrite Hz.
Qed.

(** Against a change without a zeroed amount, [stableMoves] compares the values. *)
Definition plain (c : option (TroveChange Decimal.t)) : Prop :=
  match c with None | Some (creation _) | Some (closure _) => True | _ => False end.

Lemma stableMoves_ok a b :
  plain b -> stableMoves a b = Ok (negb (bool_decide (a = b))).
Proof.
  intros Hb. destruct a as [a|], b as [b|]; cbn [stableMoves]; try done.
  rewrite VaultManagerProperties.change_equals_ok. cbn [res_bind]. f_equal. f_equal.
  apply eq_true_iff_eq. rewrite andb_true_iff, !bool_decide_eq_true.
  destruct b as [| [d b] | [w p] |]; try done; destruct a as [| [d' b'] | [w' p'] |];
    cbn [VaultManager.sameType VaultValidation.changeProps VaultValidation.creationProps
         VaultValidation.closureProps depositCollateral borrowTHUSD closureWithdraw closureRepay];
    (split; [intros [H1 H2]; try done; by simplify_eq | intros H; by simplify_eq]).
Qed.

End Shared.
End VaultFormsProperties.

(** ** Opening *)
Module OpeningProperties.
Import Decimal DecimalFacts Trove TroveParams TroveFacts TroveProperties.
Import VaultForms VaultFormsProperties VaultValidation VaultValidationProperties Opening.

Section Opening.
Context {BN : BigNumberOps} {BL : BigNumberLaws BN}.

Definition ready (i : Inputs) : Prop := computable (fees (selected i)).

Definition dirty (f : Form) : bool :=
  negb (units (collateralAmount f) =? 0)%N || negb (units (borrowAmount f) =? 0)%N.

(** The Vault the form describes: what is borrowed, its fee and the liquidation reserve. *)
Definition vaultOf (i : Inputs) (f : Form) : Trove.t :=
  Trove.mk (collateralAmount f)
    (dadd (Decimal.mk (200 * SCALE)) (dapplyFee (rateOf (fees (selected i))) (borrowAmount f))).

(** What was typed. *)
Definition asTyped (f : Form) : TroveChange Decimal.t :=
  creation (mkCreation (collateralAmount f) (borrowAmount f)).

(** The valid change: what was typed, when it is permitted. *)
Definition proposed (i : Inputs) (f : Form) : option (TroveChange Decimal.t) :=
  if dirty f && permitted (validationContext (selected i)) EMPTY_VAULT (vaultOf i f) (asTyped f)
  then Some (asTyped f) else None.

Lemma plain_proposed i f : plain (proposed i f).
Proof. unfold proposed. by destruct (_ && _). Qed.

Lemma empty_vault : EMPTY_VAULT = tempty.
Proof. unfold EMPTY_VAULT. by rewrite ZERO_val. Qed.

(** The fee is paid on top, so that the change borrows the amount typed. *)
Lemma opening_change i f :
  dirty f = true ->
  twhatChanged (rateOf (fees (selected i))) EMPTY_VAULT (vaultOf i f) = Some (asTyped f).
Proof.
  intros Hd. rewrite empty_vault. unfold twhatChanged, vaultOf, asTyped.
  cbn [Trove.collateral debt tempty].
  set (x := dapplyFee _ _).
  assert (units (dadd (Decimal.mk (200 * SCALE)) x) <> 0%N) as Hn by (cbn [dadd units]; unfold SCALE; lia).
  replace (deqb (Decimal.mk 0) (dadd _ x)) with false
    by (symmetry; apply N.eqb_neq; cbn [units]; lia).
  rewrite andb_false_r. replace (isEmpty tempty) with true by (by rewrite isEmpty_ok).
  replace (units (dadd (Decimal.mk (200 * SCALE)) x) <? 200 * SCALE)%N with false
    by (symmetry; apply N.ltb_ge; cbn [dadd units]; lia).
  do 3 f_equal. rewrite <- (unapply_apply (rateOf (fees (selected i))) (borrowAmount f)).
  fold x. f_equal. apply t_eq. cbn [dsub dadd units]. lia.
Qed.

Record shows (i : Inputs) (f : Form) (st : option (TroveChange Decimal.t))
    (g : GasEstimation.GasEstimationState) (r : Rendered) : Prop := {
  shows_change : vaultChange r = proposed i f;
  shows_approved : (hasApproved r, amountToApprove r) =
                     approved (erc20TokenAllowance (selected i)) st;
  shows_rate : maxBorrowingRate (shown r) = dadd (rateOf (fees (selected i))) tolerance;
  shows_button : button r =
    mainButton (hasApproved r) (amountToApprove r) g st (maxBorrowingRate (shown r));
}.

Lemma figures_ok i f :
  ready i ->
  exists g, figures (selected i) f = Ok g /\
    borrowingRate g = rateOf (fees (selected i)) /\
    maxBorrowingRate g = dadd (rateOf (fees (selected i))) tolerance /\
    trove g = (if dirty f then vaultOf i f else EMPTY_VAULT).
Proof.
  intros Hr. unfold figures. rewrite rate_ok by done. cbn [res_bind].
  rewrite maxRate_ok, mul_ok, THUSD_LIQUIDATION_RESERVE_val, add_ok. cbn [res_bind].
  rewrite add_ok, eq_ok, !isZero_ok. cbn [res_bind]. fold (dirty f).
  set (v := if dirty f then _ else EMPTY_VAULT).
  assert (v = (if dirty f then vaultOf i f else EMPTY_VAULT)) as Hv.
  { unfold v, vaultOf. destruct (dirty f); [|done]. f_equal. apply t_eq.
    cbn [dadd units]. rewrite dapplyFee_split. lia. }
  destruct (negb _ && negb _); [rewrite collateralRatio_ok|]; cbn [res_bind]; by eexists.
Qed.

Lemma render_ok i f st g : ready i -> exists r, render i f st g = Ok r /\ shows i f st g r.
Proof.
  intros Hr. unfold render. destruct (figures_ok i f Hr) as (x & -> & Hrate & Hmax & Hv).
  cbn [res_bind]. rewrite Hrate, Hv.
  pose proof (validation_outcome EMPTY_VAULT (if dirty f then vaultOf i f else EMPTY_VAULT) _
                (validationContext (selected i)) (rate_small (fees (selected i)))) as Ho.
  destruct (validateVaultChange _ _ _ _) as [ [v d]|m].
  2: { destruct Ho as [He _]. rewrite empty_vault, isEmpty_ok in He. done. }
  cbn [res_bind]. rewrite useValidationState_ok. cbn [res_bind].
  destruct (approved _ st) as [has amount] eqn:Ea. eexists; split; [done|].
  split; cbn [vaultChange hasApproved amountToApprove shown button]; try done.
  unfold proposed. destruct Ho as (c & Hc & Ho).
  rewrite (whatChanged_ok _ _ _ _ (from_decimal (rateOf (fees (selected i))))) in Hc.
  destruct (badClosure _ _); [done|]. apply Ok_inj in Hc as <-.
  destruct (dirty f) eqn:Hd; cbn [andb].
  - rewrite opening_change in Ho by done. destruct Ho as (t & Ht & Ho).
    assert (t = vaultOf i f) as ->.
    { unfold asTyped in Ht. change EMPTY_VAULT with empty in Ht.
      rewrite (apply_creation_ok _ _ _ (from_decimal _)) in Ht. by apply Ok_inj in Ht. }
    destruct (permitted _ _ _ _); apply Ho.
  - rewrite (proj2 (twhatChanged_none _ _ _) eq_refl) in Ho. apply Ho.
Qed.
(** *** One render with its effects *)

Definition value (a : t) : option (TroveChange Decimal.t) := option_map snd (stable a).
Definition current (a : t) : option (TroveChange Decimal.t) := proposed (ins a) (form a).
Definition moves (a : t) : bool := negb (bool_decide (value a = current a)).

Record committed (a : t) (r : Rendered) (b : bool) (a' : t) : Prop := {
  c_shows : shows (ins a) (form a) (value a) (gas a) r;
  c_again : b = present (fst (warningEffect a r)) || moves a || proposes a ||
                (unmounts a && isMounted (form a));
  c_ins : ins a' = ins a;
  c_collateral : collateralAmount (form a') = collateralAmount (form a);
  c_borrow : borrowAmount (form a') =
               (if proposes a then THUSD_MINIMUM_NET_DEBT else borrowAmount (form a));
  c_isMounted : isMounted (form a') = negb (unmounts a) && isMounted (form a);
  c_revision : revision a' = (if proposes a then revision a + 1 else revision a)%N;
  c_stable : moves a = false -> stable a' = stable a;
  c_value : value a' = current a;
  c_gas : gas a' = default (gas a) (fst (warningEffect a r));
  c_warning : warning a' = snd (warningEffect a r);
  c_warningDeps : warningDeps a' = depsOf a r;
  c_minimumDeps : minimumDeps a' = Some (revision a, isMounted (form a));
  c_cleanup : minimumCleanup a' = (if minimumRuns a then isMounted (form a) else minimumCleanup a);
}.

Lemma renderOf_ok a :
  ready (ins a) -> exists r, renderOf a = Ok r /\ shows (ins a) (form a) (value a) (gas a) r.
Proof. apply render_ok. Qed.

Lemma opening_commit_ok a :
  ready (ins a) ->
  exists r b a', renderOf a = Ok r /\ commit a = Ok (b, a') /\ committed a r b a'.
Proof.
  intros Hr. destruct (renderOf_ok a Hr) as (r & Er & Hs). exists r. unfold commit.
  rewrite Er. cbn [res_bind]. destruct (warningEffect a r) as [newGas w] eqn:Ew.
  rewrite (shows_change _ _ _ _ _ Hs), stableMoves_ok by apply plain_proposed.
  cbn [res_bind]. do 2 eexists. split; [done|]. split; [done|].
  fold (value a) (current a) (moves a).
  split; cbn [ins form revision stable gas warning warningDeps minimumDeps collateralAmount
              borrowAmount isMounted]; rewrite ?Ew; try done.
  - by intros ->.
  - unfold value at 1. cbn [stable]. unfold moves. case_bool_decide as E; cbn [negb]; [done|].
    by destruct (current a).
Qed.

(** The state after a render whose effects set no state. *)
Record settled (a : t) : Prop := {
  s_ready : ready (ins a);
  s_value : value a = current a;
  s_warning : exists r, renderOf a = Ok r /\ warningDeps a = depsOf a r;
  s_deps : minimumDeps a = Some (revision a, isMounted (form a));
}.

Lemma form_eq (f f' : Form) :
  collateralAmount f = collateralAmount f' -> borrowAmount f = borrowAmount f' ->
  isMounted f = isMounted f' -> f = f'.
Proof. destruct f, f'; cbn. congruence. Qed.

Lemma not_again a r b a' :
  committed a r b a' -> b = false ->
  fst (warningEffect a r) = None /\ moves a = false /\ proposes a = false /\
  unmounts a && isMounted (form a) = false.
Proof.
  intros H ->. pose proof (c_again _ _ _ _ H) as Hb. symmetry in Hb.
  apply orb_false_iff in Hb as [Hb ?]. apply orb_false_iff in Hb as [Hb ?].
  apply orb_false_iff in Hb as [Hb ?]. split; [|done].
  by destruct (fst (warningEffect a r)).
Qed.

Lemma quiet_settled a r b a' :
  ready (ins a) -> renderOf a = Ok r -> committed a r b a' -> b = false ->
  settled a' /\ form a' = form a /\ gas a' = gas a /\ stable a' = stable a.
Proof.
  intros Hr Er H Hb. destruct (not_again _ _ _ _ H Hb) as (Hw & Hm & Hp & Hu).
  assert (form a' = form a) as Hf.
  { apply form_eq; [apply (c_collateral _ _ _ _ H)|by rewrite (c_borrow _ _ _ _ H), Hp|].
    rewrite (c_isMounted _ _ _ _ H). by destruct (unmounts a), (isMounted (form a)). }
  assert (gas a' = gas a) as Hg by by rewrite (c_gas _ _ _ _ H), Hw.
  assert (stable a' = stable a) as Hs by apply (c_stable _ _ _ _ H Hm).
  assert (renderOf a' = Ok r) as Er'.
  { unfold renderOf. by rewrite (c_ins _ _ _ _ H), Hf, Hg, Hs. }
  split; [|done]. split.
  - by rewrite (c_ins _ _ _ _ H).
  - rewrite (c_value _ _ _ _ H). unfold current. by rewrite (c_ins _ _ _ _ H), Hf.
  - exists r. split; [done|]. rewrite (c_warningDeps _ _ _ _ H). unfold depsOf. by rewrite Hs.
  - rewrite (c_minimumDeps _ _ _ _ H), (c_revision _ _ _ _ H), Hp. by rewrite Hf.
Qed.

(** *** Four renders are enough *)

(** An amount is proposed by one of two renders in a row at most: the second one finds it, or the
    effect does not run again while [isMounted]. *)
Lemma proposes_once a r b a' : committed a r b a' -> proposes a' = false.
Proof.
  intros H. unfold proposes at 1, minimumRuns.
  rewrite (c_minimumDeps _ _ _ _ H), (c_revision _ _ _ _ H), (c_borrow _ _ _ _ H),
    (c_isMounted _ _ _ _ H).
  destruct (proposes a) eqn:Hp.
  - rewrite THUSD_MINIMUM_NET_DEBT_val, !isZero_ok. by rewrite !andb_false_r.
  - destruct (unmounts a); cbn [negb andb]; [by rewrite andb_false_r|].
    by rewrite bool_decide_eq_true_2.
Qed.

Lemma current_kept a r b a' : committed a r b a' -> proposes a = false -> current a' = current a.
Proof.
  intros H Hp. unfold current, proposed, dirty, vaultOf, asTyped.
  by rewrite (c_ins _ _ _ _ H), (c_collateral _ _ _ _ H), (c_borrow _ _ _ _ H), Hp.
Qed.

(** Once the amounts stay, the change is found by the next render and kept by the one after. *)
Lemma moves_twice a r b a' : committed a r b a' -> proposes a = false -> moves a' = false.
Proof.
  intros H Hp. unfold moves. rewrite (c_value _ _ _ _ H), (current_kept _ _ _ _ H Hp).
  by rewrite bool_decide_eq_true_2.
Qed.

Lemma warning_kept a r b a' r' :
  committed a r b a' -> moves a = false -> shows (ins a') (form a') (value a') (gas a') r' ->
  fst (warningEffect a' r') = None.
Proof.
  intros H Hm Hs'. pose proof (c_shows _ _ _ _ H) as Hs.
  pose proof (c_stable _ _ _ _ H Hm) as Est.
  unfold warningEffect. rewrite bool_decide_eq_true_2; [done|].
  rewrite (c_warningDeps _ _ _ _ H). unfold depsOf. rewrite Est.
  pose proof (shows_approved _ _ _ _ _ Hs) as A. pose proof (shows_approved _ _ _ _ _ Hs') as A'.
  rewrite (c_ins _ _ _ _ H) in A'. unfold value in A, A'. rewrite Est, <- A in A'.
  by apply pair_equal_spec in A' as [-> _].
Qed.

Lemma unmounts_kept a r b a' :
  committed a r b a' -> proposes a = false -> unmounts a' && isMounted (form a') = false.
Proof.
  intros H Hp. unfold unmounts at 1, minimumRuns.
  rewrite (c_minimumDeps _ _ _ _ H), (c_revision _ _ _ _ H), (c_isMounted _ _ _ _ H), Hp.
  destruct (unmounts a); cbn [negb andb]; [by rewrite andb_false_r|].
  by rewrite bool_decide_eq_true_2.
Qed.

(** After two renders, one more may only tell the warning of the new change. *)
Lemma fourth_quiet a0 r0 b0 a1 r1 b1 a2 r2 b2 a3 r3 b3 a4 :
  committed a0 r0 b0 a1 -> committed a1 r1 b1 a2 -> committed a2 r2 b2 a3 ->
  committed a3 r3 b3 a4 -> b3 = false.
Proof.
  intros H0 H1 H2 H3.
  pose proof (proposes_once _ _ _ _ H0) as P1. pose proof (proposes_once _ _ _ _ H1) as P2.
  pose proof (proposes_once _ _ _ _ H2) as P3.
  pose proof (moves_twice _ _ _ _ H1 P1) as M2. pose proof (moves_twice _ _ _ _ H2 P2) as M3.
  rewrite (c_again _ _ _ _ H3), P3, M3, (unmounts_kept _ _ _ _ H2 P2).
  by rewrite (warning_kept _ _ _ _ _ H2 M2 (c_shows _ _ _ _ H3)).
Qed.

Lemma settle_unfold n a b a' :
  commit a = Ok (b, a') -> settle (S n) a = if (b : bool) then settle n a' else Ok a'.
Proof. intros H. cbn [settle]. by rewrite H. Qed.

(** What the renders of one event have in common. *)
Definition outcome (a a' : t) : Prop :=
  settled a' /\ ins a' = ins a /\ collateralAmount (form a') = collateralAmount (form a).

Lemma outcome_more a r b a' a'' : committed a r b a' -> outcome a' a'' -> outcome a a''.
Proof.
  intros H (Hs & Hi & Hc). split; [done|].
  by rewrite Hi, Hc, (c_ins _ _ _ _ H), (c_collateral _ _ _ _ H).
Qed.

Lemma settles a : ready (ins a) -> exists a', settle 4 a = Ok a' /\ outcome a a'.
Proof.
  intros Hr.
  assert (forall a r b a', ready (ins a) -> renderOf a = Ok r -> committed a r b a' -> b = false ->
                           outcome a a') as Hq.
  { intros x r b x' Hx Er H Hb. destruct (quiet_settled _ _ _ _ Hx Er H Hb) as (Hs & Hf & _).
    split; [done|]. by rewrite (c_ins _ _ _ _ H), Hf. }
  assert (forall a r b a', ready (ins a) -> committed a r b a' -> ready (ins a')) as Hk.
  { intros x r b x' Hx H. by rewrite (c_ins _ _ _ _ H). }
  destruct (opening_commit_ok a Hr) as (r0 & b0 & a1 & E0 & C0 & H0).
  rewrite (settle_unfold _ _ _ _ C0). destruct b0; [|by eauto].
  destruct (opening_commit_ok a1) as (r1 & b1 & a2 & E1 & C1 & H1); [by eauto|].
  rewrite (settle_unfold _ _ _ _ C1). destruct b1; [|by eauto 6 using outcome_more].
  destruct (opening_commit_ok a2) as (r2 & b2 & a3 & E2 & C2 & H2); [by eauto|].
  rewrite (settle_unfold _ _ _ _ C2). destruct b2; [|by eauto 8 using outcome_more].
  destruct (opening_commit_ok a3) as (r3 & b3 & a4 & E3 & C3 & H3); [by eauto|].
  pose proof (fourth_quiet _ _ _ _ _ _ _ _ _ _ _ _ _ H0 H1 H2 H3) as ->.
  rewrite (settle_unfold _ _ _ _ C3). by eauto 10 using outcome_more.
Qed.

(** *** What the component does to the form *)

(** The first amount that is typed, and no later one, makes the form propose the minimum debt when
    it leaves a collateral and no debt. *)
Definition edited (f : Form) : Form :=
  mkForm (collateralAmount f)
    (if isMounted f && negb (units (collateralAmount f) =? 0)%N && (units (borrowAmount f) =? 0)%N
     then THUSD_MINIMUM_NET_DEBT else borrowAmount f) false.

Definition setCollateral (text : string) (f : Form) : Form :=
  match from (ofString text) with
  | Ok d => edited (mkForm d (borrowAmount f) (isMounted f))
  | Throw _ => f
  end.
Definition setBorrow (text : string) (f : Form) : Form :=
  match from (ofString text) with
  | Ok d => edited (mkForm (collateralAmount f) d (isMounted f))
  | Throw _ => f
  end.
Definition setMax (i : Inputs) (f : Form) : Form :=
  let balance := erc20TokenBalance (selected i) in
  if deqb (collateralAmount f) balance then f
  else match Decimal.toString balance None with
       | Ok text => setCollateral text f
       | Throw _ => f
       end.

(** The form as an abstract state: events that concern the estimation leave it alone. *)
Definition formStep (x : Inputs * Form) (e : Event) : Inputs * Form :=
  match e with
  | TypeCollateral text => (fst x, setCollateral text (snd x))
  | TypeBorrow text => (fst x, setBorrow text (snd x))
  | PressMax => (fst x, setMax (fst x) (snd x))
  | Rerender i => (i, snd x)
  | TimerFired _ | Estimated _ _ => x
  end.

(** The effect that proposes has nothing left to do. *)
Definition calm (a : t) : Prop :=
  isMounted (form a) = false \/ (minimumRuns a = false /\ minimumCleanup a = true).

Lemma calm_committed a r b a' : committed a r b a' -> calm a -> calm a' /\ form a' = form a.
Proof.
  intros H Hc.
  assert (proposes a = false /\ negb (unmounts a) && isMounted (form a) = isMounted (form a))
    as [Hp Hu].
  { unfold proposes, unmounts. destruct Hc as [-> | [-> _] ]; [|done]. by rewrite !andb_false_r. }
  assert (form a' = form a) as Hf.
  { apply form_eq; [apply (c_collateral _ _ _ _ H)|by rewrite (c_borrow _ _ _ _ H), Hp|].
    by rewrite (c_isMounted _ _ _ _ H). }
  split; [|done]. unfold calm, minimumRuns.
  rewrite Hf, (c_minimumDeps _ _ _ _ H), (c_revision _ _ _ _ H), Hp, (c_cleanup _ _ _ _ H).
  rewrite bool_decide_eq_true_2 by done. destruct Hc as [Hc | [Hm Hc] ]; [by left|right].
  by rewrite Hm, Hc.
Qed.

Lemma calm_settle n a a' :
  ready (ins a) -> calm a -> settle n a = Ok a' -> calm a' /\ form a' = form a.
Proof.
  revert a. induction n as [|n IH]; intros a Hr Hc; [done|].
  destruct (opening_commit_ok a Hr) as (r & b & a1 & _ & C & H). rewrite (settle_unfold _ _ _ _ C).
  destruct (calm_committed _ _ _ _ H Hc) as [Hc1 Hf].
  destruct b; [|intros [= <-]; done]. rewrite <- Hf. apply IH; [|done].
  by rewrite (c_ins _ _ _ _ H).
Qed.

(** An amount typed into a settled form. *)
Lemma edit_settle a f a' :
  settled a -> calm a -> isMounted f = isMounted (form a) ->
  settle 4 (with_form f a) = Ok a' -> calm a' /\ form a' = edited f.
Proof.
  intros Hs Hc Hf. set (a0 := with_form f a).
  assert (ready (ins a0)) as Hr by apply Hs.
  destruct (isMounted (form a)) eqn:Hm.
  2: { intros E. destruct (calm_settle 4 a0 a' Hr (or_introl Hf) E) as [Hk ->]. split; [done|].
       unfold edited. rewrite Hf. cbn [andb]. apply form_eq; cbn; by rewrite ?Hf. }
  destruct Hc as [Hc | [_ Hc] ]; [congruence|].
  assert (minimumRuns a0 = true) as Hruns.
  { unfold minimumRuns. cbn [minimumDeps revision form a0 with_form].
    rewrite (s_deps _ Hs), bool_decide_eq_false_2; [done|]. intros [= H _]. lia. }
  destruct (opening_commit_ok a0 Hr) as (r & b & a1 & Er & C & H). rewrite (settle_unfold _ _ _ _ C).
  assert (form a1 = edited f) as Hf1.
  { apply form_eq; cbn [edited collateralAmount borrowAmount isMounted];
      [apply (c_collateral _ _ _ _ H) | |].
    - rewrite (c_borrow _ _ _ _ H). unfold proposes. rewrite Hruns. cbn [form a0 with_form].
      by rewrite !isZero_ok.
    - rewrite (c_isMounted _ _ _ _ H). unfold unmounts. rewrite Hruns.
      cbn [minimumCleanup a0 with_form]. by rewrite Hc. }
  assert (calm a1) as Hc1 by (left; by rewrite Hf1).
  destruct b; [|intros [= <-]; done]. rewrite <- Hf1. apply calm_settle; [|done].
  by rewrite (c_ins _ _ _ _ H).
Qed.

(** A settled component whose form is as the abstract state says. *)
Definition at_ (x : Inputs * Form) (a : t) : Prop :=
  settled a /\ calm a /\ (ins a, form a) = x.

Lemma edit_at x a f :
  at_ x a -> isMounted f = isMounted (snd x) ->
  exists a', settle 4 (with_form f a) = Ok a' /\ at_ (fst x, edited f) a'.
Proof.
  intros (Hs & Hc & <-) Hf. cbn [fst snd] in *.
  destruct (settles (with_form f a)) as (a' & E & Hs' & Hi & _); [apply Hs|].
  destruct (edit_settle a f a' Hs Hc Hf E) as [Hc' Hf'].
  exists a'. split; [done|]. split; [done|]. split; [done|]. by rewrite Hi, Hf'.
Qed.

Lemma keep_at i a :
  ready (ins a) -> calm a -> ins a = i ->
  exists a', settle 4 a = Ok a' /\ at_ (i, form a) a'.
Proof.
  intros Hr Hc <-. destruct (settles a Hr) as (a' & E & Hs' & Hi & _).
  destruct (calm_settle 4 a a' Hr Hc E) as [Hc' Hf'].
  exists a'. split; [done|]. split; [done|]. split; [done|]. by rewrite Hi, Hf'.
Qed.

Lemma typeCollateral_at x a text :
  at_ x a ->
  exists a', settle 4 (typeCollateral text a) = Ok a' /\ at_ (fst x, setCollateral text (snd x)) a'.
Proof.
  intros Ha. unfold typeCollateral, setCollateral. destruct (from (ofString text)) as [d|m].
  - destruct Ha as (Hs & Hc & <-). by apply edit_at.
  - destruct Ha as (Hs & Hc & <-). apply keep_at; [apply Hs|done|done].
Qed.

Definition ready_event (e : Event) : Prop :=
  match e with Rerender i => ready i | _ => True end.

Lemma step_at x a e :
  at_ x a -> ready_event e -> exists a', step e a = Ok a' /\ at_ (formStep x e) a'.
Proof.
  intros Ha He. unfold step. pose proof Ha as (Hs & Hc & <-).
  destruct e as [text|text| |i|n|n answer]; cbn [handle formStep fst snd].
  - by apply (typeCollateral_at (ins a, form a)).
  - unfold typeBorrow, setBorrow. destruct (from (ofString text)) as [d|m].
    + by apply (edit_at (ins a, form a)).
    + apply keep_at; [apply Hs|done|done].
  - unfold pressMax, setMax. rewrite eq_ok.
    destruct (deqb _ _); [by apply keep_at; [apply Hs|..]|].
    destruct (Decimal.toString _ None) as [text|m];
      [by apply (typeCollateral_at (ins a, form a))|].
    by apply keep_at; [apply Hs|..].
  - by apply (keep_at i (with_inputs i a)).
  - apply (keep_at (ins a) (with_gas None _ a)); [apply Hs|done|done].
  - destruct (GasEstimation.answered n answer (warning a)) as [g w].
    apply (keep_at (ins a) (with_gas g w a)); [apply Hs|done|done].
Qed.

Lemma start_at i : ready i -> exists a, start i = Ok a /\ at_ (i, initial) a.
Proof.
  intros Hr. unfold start. set (a0 := mk i initial _ _ _ _ _ _ _ _ _ _).
  destruct (settles a0 Hr) as (a & E & Hs & Hi & _). exists a. split; [done|].
  split; [done|].
  destruct (opening_commit_ok a0 Hr) as (r & b & a1 & Er & C & H). rewrite (settle_unfold _ _ _ _ C) in E.
  assert (form a1 = initial /\ calm a1) as [Hf1 Hc1].
  { assert (proposes a0 = false) as Hp.
    { unfold proposes. cbn [form a0 initial collateralAmount]. rewrite ZERO_val, isZero_ok.
      by rewrite andb_false_r. }
    assert (form a1 = initial) as Hf.
    { apply form_eq; [apply (c_collateral _ _ _ _ H)|by rewrite (c_borrow _ _ _ _ H), Hp|].
      by rewrite (c_isMounted _ _ _ _ H). }
    split; [done|]. right. unfold minimumRuns.
    rewrite Hf, (c_minimumDeps _ _ _ _ H), (c_revision _ _ _ _ H), Hp, (c_cleanup _ _ _ _ H).
    by rewrite bool_decide_eq_true_2. }
  rewrite Hi. destruct b; [|by injection E as <-; rewrite Hf1].
  assert (ready (ins a1)) as Hr1 by by rewrite (c_ins _ _ _ _ H).
  destruct (calm_settle 3 a1 a Hr1 Hc1 E) as [Hc ->]. by rewrite Hf1.
Qed.

Lemma run_at i es :
  ready i -> Forall ready_event es ->
  exists a, run i es = Ok a /\ at_ (fold_left formStep es (i, initial)) a.
Proof.
  intros Hr He. unfold run. destruct (start_at i Hr) as (a & -> & Ha). cbn [res_bind].
  generalize dependent (i, initial). revert a. induction He as [|e es He _ IH]; intros a x Ha.
  { by exists a. }
  cbn [res_foldM fold_left]. destruct (step_at x a e Ha He) as (a' & -> & Ha'). cbn [res_bind].
  by apply IH.
Qed.

(** C37: for any sequence of events, typing, a moving store, timers and answers of the network, the
    renders and effects of the component that opens a Vault come to rest, and the component then
    implements an abstract form: a readable amount replaces the one of its field, the first one
    alone proposes the minimum debt, and the change kept for the buttons is the one typed when the
    validation permits it, and none otherwise. *)
Theorem opening_refines_form (i : Inputs) (es : list Event) :
  ready i -> Forall ready_event es ->
  exists a, run i es = Ok a /\
    (ins a, form a) = fold_left formStep es (i, initial) /\
    option_map snd (stable a) = proposed (ins a) (form a).
Proof.
  intros Hr He. destruct (run_at i es Hr He) as (a & E & Hs & _ & Hx).
  exists a. split; [done|]. split; [done|]. apply Hs.
Qed.

(** C38: whenever the component offers "Confirm", the button sends a single call, which opens a
    Vault with exactly the two amounts of the form and the current rate plus half a percent as its
    limit; the allowance and the balance cover the collateral, at least the minimum is borrowed,
    the Vault with its fee and reserve has at least the minimum ratio, and no estimation of its
    cost is on its way. *)
Theorem opening_confirms_typed (i : Inputs) (es : list Event) (a : t) (r : Rendered)
    (c : TroveChange Decimal.t) (limit : Decimal.t) :
  ready i -> Forall ready_event es -> run i es = Ok a -> renderOf a = Ok r ->
  button r = Confirm c limit ->
  let f := form a in let s := selected (ins a) in
  sends (button r) =
    Some (existT _ (OpenTrove
            (rawCreation (creationish (mkCreation (collateralAmount f) (borrowAmount f))))
            (Populatable.optionalParams (Some (ofDecimal limit)) (Some 60))
            Contracts.noOverrides)) /\
  units limit = (units (rateOf (fees s)) + 5 * 10 ^ 15)%N /\
  (units (collateralAmount f) <= units (erc20TokenAllowance s))%N /\
  (units (collateralAmount f) <= units (VaultValidation.erc20TokenBalance (validationContext s)))%N /\
  (1800 * SCALE <= units (borrowAmount f))%N /\
  below MCR (vaultOf (ins a) f) (VaultValidation.price (validationContext s)) = false /\
  gas a <> GasEstimation.inProgress.
Proof.
  intros Hr He E Er Hb f s. destruct (run_at i es Hr He) as (a' & E' & Hs & _ & _).
  rewrite E in E'. apply Ok_inj in E' as <-.
  destruct (renderOf_ok a (s_ready _ Hs)) as (r' & Er' & Sh). rewrite Er in Er'.
  apply Ok_inj in Er' as <-.
  pose proof (shows_button _ _ _ _ _ Sh) as B. pose proof (shows_approved _ _ _ _ _ Sh) as A.
  rewrite (s_value _ Hs) in A, B. unfold current, proposed in A, B. fold f s in A, B.
  destruct (dirty f && permitted _ _ _ _) eqn:Hd.
  2: { rewrite Hb in B. unfold mainButton in B.
       destruct (hasApproved r), (amountToApprove r), (gas a); discriminate B. }
  apply andb_true_iff in Hd as [_ Hp]. cbn [approved asTyped changeProps creationProps deposit
    depositCollateral] in A.
  rewrite Hb in B. unfold mainButton in B. apply pair_equal_spec in A as [A1 A2].
  destruct (negb (Decimal.isZero (erc20TokenAllowance s)) && dleb _ _) eqn:Hc;
    rewrite A1, ?A2 in B; [|discriminate B].
  assert (gas a <> GasEstimation.inProgress /\ c = asTyped f /\
          limit = maxBorrowingRate (shown r)) as (Hg & -> & ->).
  { destruct (gas a); [|discriminate B|]; by inversion B. }
  rewrite Hb. split; [done|]. split; [by rewrite (shows_rate _ _ _ _ _ Sh)|].
  apply andb_true_iff in Hc as [_ Hc]. split; [by apply N.leb_le|].
  cbn [permitted asTyped depositCollateral borrowTHUSD] in Hp.
  apply andb_true_iff in Hp as [Hp Hbal]. apply andb_true_iff in Hp as [Hmin Hrat].
  split; [by apply N.leb_le|]. split; [by apply N.leb_le|]. split; [|done].
  destruct (below CCR (total _) _).
  - apply negb_true_iff, below_false in Hrat. apply below_false. unfold MCR, CCR in *. lia.
  - apply andb_true_iff in Hrat as [Hrat _]. by apply negb_true_iff.
Qed.

(** *** The estimation of the cost *)

Import GasEstimation.

(** Only the last run of the warning's effect has not been cleaned up, and its change is the one
    kept for the buttons unless that has been replaced since the last render. *)
Record tracked (a : Opening.t) : Prop := {
  k_live : forall n e, estimates (warning a) !! n = Some e -> e_cancelled e = false ->
             live (warning a) = Some n;
  k_change : forall n e, live (warning a) = Some n -> estimates (warning a) !! n = Some e ->
               exists id, warningDeps a = Some (Some id) /\ (id < nextChange a)%N /\
                 forall c, stable a = Some (id, c) -> c = e_change e;
  k_stable : forall id c, stable a = Some (id, c) -> (id < nextChange a)%N;
}.

Lemma cleaned w n e :
  (forall n e, estimates w !! n = Some e -> e_cancelled e = false -> live w = Some n) ->
  estimates (cleanup w) !! n = Some e -> e_cancelled e = true.
Proof.
  intros Hl. unfold cleanup. destruct (live w) as [m|] eqn:Em; cbn [estimates].
  - destruct (decide (m = n)) as [->|Hn].
    + rewrite lookup_partial_alter_eq. destruct (estimates w !! n) as [e'|]; [|done].
      destruct (e_asking e'); [|done]. by intros [= <-].
    + rewrite lookup_partial_alter_ne by done. intros H. apply not_false_is_true. intros Hc.
      specialize (Hl _ _ H Hc). congruence.
  - intros H. apply not_false_is_true. intros Hc. by specialize (Hl _ _ H Hc).
Qed.

Lemma cleanup_live w : live (cleanup w) = None.
Proof. unfold cleanup. by destruct (live w) eqn:E. Qed.

Lemma warningEffect_tracked (a : Opening.t) r w :
  tracked a -> snd (warningEffect a r) = w ->
  (forall n e, estimates w !! n = Some e -> e_cancelled e = false -> live w = Some n) /\
  (forall n e, live w = Some n -> estimates w !! n = Some e ->
     exists id, depsOf a r = Some (Some id) /\ (id < nextChange a)%N /\
       forall c, stable a = Some (id, c) -> c = e_change e).
Proof.
  intros K <-. unfold warningEffect. case_bool_decide as Hd.
  { cbn [snd]. split; [apply K|]. rewrite Hd. apply K. }
  set (w := cleanup (warning a)).
  assert (forall n e, estimates w !! n = Some e -> e_cancelled e = true) as Hw
    by (intros n e; apply cleaned, K).
  assert (live w = None) as Hl by apply cleanup_live.
  assert ((forall n e, estimates w !! n = Some e -> e_cancelled e = false -> live w = Some n) /\
    (forall n e, live w = Some n -> estimates w !! n = Some e ->
     exists id, depsOf a r = Some (Some id) /\ (id < nextChange a)%N /\
       forall c, stable a = Some (id, c) -> c = e_change e)) as Hkeep.
  { split; [|intros n e; by rewrite Hl]. intros n e H. by rewrite (Hw _ _ H). }
  destruct (depsOf a r) as [o|] eqn:Eo; [|exact Hkeep].
  destruct (stable a) as [ [id c]|] eqn:Es; cbn [option_map snd]; [|exact Hkeep].
  assert (o = Some id) as ->.
  { revert Eo. unfold depsOf. rewrite Es. cbn [option_map fst].
    destruct (hasApproved r); [by intros [= <-]|done]. }
  destruct c; cbn [effect snd]; try exact Hkeep.
  all: split; cbn [estimates live];
    [ intros n e; rewrite lookup_insert_Some; intros [ [<- _] | [_ H] ]; [done|];
      by rewrite (Hw _ _ H)
    | intros n e [= <-]; rewrite lookup_insert_eq; intros [= <-]; exists id;
      split; [done|]; split; [by eapply K|]; intros c' [= <-]; done ].
Qed.

Lemma commit_tracked a b a' : ready (ins a) -> commit a = Ok (b, a') -> tracked a -> tracked a'.
Proof.
  intros Hr C K. destruct (renderOf_ok a Hr) as (r & Er & Hs). revert C. unfold commit.
  rewrite Er. cbn [res_bind]. pose proof (warningEffect_tracked a r _ K eq_refl) as [Hl Hc].
  destruct (warningEffect a r) as [newGas w]. cbn [snd] in Hl, Hc.
  rewrite (shows_change _ _ _ _ _ Hs), stableMoves_ok by apply plain_proposed.
  cbn [res_bind]. fold (value a) (current a) (moves a). intros H.
  apply Ok_inj, pair_equal_spec in H as [_ <-].
  split; cbn [warning warningDeps stable nextChange]; [exact Hl| |].
  - intros n e Hn He. destruct (Hc n e Hn He) as (id & -> & Hid & Hch). exists id.
    split; [done|]. destruct (moves a); [|done]. split; [lia|].
    intros c. destruct (current a); cbn [option_map]; [|done]. intros [= <- _]. lia.
  - intros id c. destruct (moves a); [|apply K].
    destruct (current a); cbn [option_map]; [|done]. intros [= <- _]. lia.
Qed.

Lemma settle_tracked n a a' :
  ready (ins a) -> settle n a = Ok a' -> tracked a -> tracked a'.
Proof.
  revert a. induction n as [|n IH]; intros a Hr; [done|].
  destruct (opening_commit_ok a Hr) as (r & b & a1 & _ & C & H). rewrite (settle_unfold _ _ _ _ C).
  intros E K. pose proof (commit_tracked _ _ _ Hr C K) as K1.
  destruct b; [|by injection E as <-]. apply (IH a1); [|done|done].
  by rewrite (c_ins _ _ _ _ H).
Qed.

Lemma handle_tracked (e : Event) a : tracked a -> tracked (handle e a).
Proof.
  intros K.
  assert (forall text, tracked (typeCollateral text a)) as Hc.
  { intros text. unfold typeCollateral. destruct (from _); [|done]. split; apply K. }
  destruct e as [text|text| |i|n|n answer]; cbn [handle].
  - apply Hc.
  - unfold typeBorrow. destruct (from _); [|done]. split; apply K.
  - unfold pressMax. destruct (eq _ _) as [ [|]|]; try done. destruct (Decimal.toString _ _); [|done].
    apply Hc.
  - split; apply K.
  - split; cbn [with_gas warning warningDeps nextChange stable GasEstimation.timerFired estimates live];
      [| |apply K].
    + intros m e. rewrite lookup_alter_Some. intros [ (<- & e' & He & ->) | [_ He] ]; cbn.
      * by apply K.
      * by apply K.
    + intros m e Hl. rewrite lookup_alter_Some. intros [ (<- & e' & He & ->) | [_ He] ]; cbn.
      * apply (k_change _ K n e' Hl He).
      * apply (k_change _ K m e Hl He).
  - unfold answered. destruct (estimates (warning a) !! n) as [e|]; [|split; apply K].
    destruct (e_asking e); [|split; apply K].
    split; cbn [with_gas warning warningDeps nextChange stable estimates live]; [| |apply K].
    + intros m e'. rewrite lookup_delete_Some. intros [_ H]. by apply K.
    + intros m e' Hl. rewrite lookup_delete_Some. intros [_ H]. by apply (k_change _ K m).
Qed.

Lemma run_tracked i es a :
  ready i -> Forall ready_event es -> run i es = Ok a -> tracked a.
Proof.
  intros Hr He. unfold run. destruct (start_at i Hr) as (a0 & E0 & H0). rewrite E0.
  cbn [res_bind].
  assert (tracked a0) as K0.
  { refine (settle_tracked 4 _ _ _ E0 _); [done|]. by split. }
  clear E0. generalize dependent (i, initial). revert a0 K0.
  induction He as [|e es He _ IH]; intros a0 K0 x H0; cbn [res_foldM]; [by intros [= <-]|].
  destruct (step_at x a0 e H0 He) as (a1 & E1 & H1). rewrite E1. cbn [res_bind].
  apply (IH a1) with (formStep x e); [|done]. refine (settle_tracked 4 _ _ _ E1 _).
  - destruct H0 as (Hs & _). pose proof (s_ready _ Hs) as Hi.
    destruct e; cbn [handle]; try done.
    + unfold typeCollateral. by destruct (from _).
    + unfold typeBorrow. by destruct (from _).
    + unfold pressMax, typeCollateral. destruct (eq _ _) as [ [|]|]; try done.
      destruct (Decimal.toString _ _); [|done]. by destruct (from _).
    + by destruct (answered _ _ _).
  - by apply handle_tracked.
Qed.

(** C39: an estimation of the cost counts only for the change it was asked for: when an answer of
    the network sets the state of the estimation, the run that asked for it is about the change
    now kept for the buttons, which is the one typed, and the state is that answer.  Late answers
    for earlier changes, and failures, set nothing. *)
Theorem opening_estimates_current (i : Inputs) (es : list Event) (a : Opening.t) (n : N)
    (answer : option (option Z)) (g : GasEstimationState) (w : GasEstimation.t) :
  ready i -> Forall ready_event es -> run i es = Ok a ->
  answered n answer (warning a) = (Some g, w) ->
  exists e gasHeadroom, estimates (warning a) !! n = Some e /\
    answer = Some gasHeadroom /\ g = complete gasHeadroom /\
    option_map snd (stable a) = Some (e_change e) /\ e_change e = asTyped (form a) /\
    exists limit, asks e = Some (existT _ (OpenTrove
      (rawCreation (creationish (mkCreation (collateralAmount (form a)) (borrowAmount (form a)))))
      limit Contracts.noOverrides)).
Proof.
  intros Hr He E Ha. pose proof (run_tracked i es a Hr He E) as K.
  destruct (run_at i es Hr He) as (a' & E' & Hs & _ & _). rewrite E in E'.
  apply Ok_inj in E' as <-. revert Ha. unfold answered.
  destruct (estimates (warning a) !! n) as [e|] eqn:En; [|done].
  destruct (e_asking e); [|done]. destruct answer as [h|]; [|done].
  destruct (e_cancelled e) eqn:Ec; [done|]. intros [= <- _]. exists e, h.
  split; [done|]. split; [done|]. split; [done|].
  destruct (k_change _ K n e (k_live _ K _ _ En Ec) En) as (id & Hd & _ & Hch).
  destruct (s_warning _ Hs) as (r & _ & Hdeps). rewrite Hd in Hdeps. unfold depsOf in Hdeps.
  destruct (hasApproved r); [|done]. pose proof (s_value _ Hs) as Hv. unfold value in *.
  destruct (stable a) as [ [id' c]|]; [|done]. injection Hdeps as <-.
  rewrite (Hch c eq_refl) in Hv. cbn [option_map snd] in *.
  unfold current, proposed in Hv. destruct (dirty _ && _); [|done]. injection Hv as Hv.
  split; [by rewrite (Hch c eq_refl)|]. split; [done|].
  unfold asks. rewrite Hv. by eexists.
Qed.

(** A failed estimation leaves the form as it is: while it was on its way it stays so, and the
    button keeps waiting until an amount is edited. *)
Lemma failed_estimation_waits (i : Inputs) (es : list Event) (a : Opening.t) (n : N) :
  ready i -> Forall ready_event es -> run i es = Ok a ->
  exists a', step (Estimated n None) a = Ok a' /\ gas a' = gas a /\ form a' = form a /\
    stable a' = stable a.
Proof.
  intros Hr He E. destruct (run_at i es Hr He) as (a0 & E' & Hs & Hc & _). rewrite E in E'.
  apply Ok_inj in E' as <-. unfold step. cbn [handle].
  assert (exists w, answered n None (warning a) = (None, w)) as [w ->].
  { unfold answered. destruct (estimates (warning a) !! n) as [e|]; [|by eexists].
    destruct (e_asking e); by eexists. }
  set (a0 := with_gas None w a).
  destruct (opening_commit_ok a0 (s_ready _ Hs)) as (r & b & a1 & Er & C & H).
  rewrite (settle_unfold _ _ _ _ C).
  assert (b = false) as ->.
  { rewrite (c_again _ _ _ _ H).
    assert (moves a0 = false) as -> by (unfold moves; by rewrite bool_decide_eq_true_2 by apply Hs).
    assert (minimumRuns a0 = false) as Hm
      by (unfold minimumRuns; by rewrite bool_decide_eq_true_2 by apply Hs).
    unfold proposes, unmounts. rewrite Hm. cbn [andb]. rewrite !orb_false_r.
    destruct (s_warning _ Hs) as (r' & Er' & Hd). unfold warningEffect.
    rewrite bool_decide_eq_true_2; [done|]. cbn [warningDeps a0 with_gas].
    unfold renderOf in Er. cbn [ins form stable gas a0 with_gas] in Er. unfold renderOf in Er'.
    rewrite Er' in Er. apply Ok_inj in Er as <-. by rewrite Hd. }
  destruct (quiet_settled a0 r false a1 (s_ready _ Hs) Er H eq_refl) as (_ & Hf & Hg & Hst).
  by exists a1.
Qed.

End Opening.
End OpeningProperties.

(** ** Adjusting *)
Module AdjustingProperties.
Import Decimal DecimalFacts Trove TroveParams TroveFacts TroveProperties.
Import VaultForms VaultFormsProperties VaultValidation VaultValidationProperties Adjusting.

(** ** The fee of an increase *)

(** The fee is that of the amount which, with its own fee, makes the increase typed ... *)
Definition feeFor (r d : Decimal.t) : Decimal.t := dmul (dunapplyFee r d) r.
(** ... so that a smaller amount is borrowed once this fee is added to the increase. *)
Definition borrowedFor (r d : Decimal.t) : Decimal.t := dunapplyFee r (dadd d (feeFor r d)).

Lemma ceil_bounds (x y : N) :
  (0 < y -> x <= (x + (y - 1)) / y * y < x + y)%N.
Proof.
  intros Hy. pose proof (N.div_mod (x + (y - 1)) y ltac:(lia)) as H1.
  pose proof (N.mod_lt (x + (y - 1)) y ltac:(lia)) as H2.
  generalize dependent ((x + (y - 1)) / y)%N. generalize dependent ((x + (y - 1)) mod y)%N.
  intros m Hm q Hq. nia.
Qed.

Lemma floor_bounds (x y : N) : (0 < y -> x / y * y <= x < x / y * y + y)%N.
Proof.
  intros Hy. pose proof (N.div_mod x y ltac:(lia)) as H1.
  pose proof (N.mod_lt x y ltac:(lia)) as H2.
  generalize dependent (x / y)%N. generalize dependent (x mod y)%N. intros m Hm q Hq. nia.
Qed.

Lemma borrowedFor_bounds r d :
  let S := SCALE in let F := onePlus r in
  (units d * S * (F + units r) < units (borrowedFor r d) * (F * F) + S * F)%N /\
  (units (borrowedFor r d) * (F * F) < units d * S * (F + units r) + 2 * (F * F))%N.
Proof.
  intros S F. unfold borrowedFor, feeFor, dunapplyFee, dmul. cbn [units dadd]. fold F S.
  assert (0 < S /\ units r < F /\ F = S + units r)%N as (HS & Hr & HF) by (unfold F, onePlus, S, SCALE; lia).
  pose proof (ceil_bounds (units d * S) F ltac:(lia)) as Hu.
  set (u := ((units d * S + (F - 1)) / F)%N) in *.
  pose proof (floor_bounds (u * units r) S HS) as Hf.
  set (f := (u * units r / S)%N) in *.
  pose proof (ceil_bounds ((units d + f) * S) F ltac:(lia)) as Hb.
  set (b := (((units d + f) * S + (F - 1)) / F)%N) in *.
  clearbody u f b. clearbody S F. subst F. destruct Hu, Hf, Hb. split; nia.
Qed.

Lemma feeFor_least r d : (0 < units d -> units (borrowedFor r d) <= units d)%N.
Proof.
  intros Hd. unfold borrowedFor, feeFor, dunapplyFee, dmul. cbn [units dadd].
  set (S := SCALE). set (F := onePlus r).
  assert (0 < S /\ units r < F /\ F = S + units r)%N as (HS & Hr & HF) by (unfold F, onePlus, S, SCALE; lia).
  pose proof (ceil_bounds (units d * S) F ltac:(lia)) as Hu.
  set (u := ((units d * S + (F - 1)) / F)%N) in *.
  pose proof (floor_bounds (u * units r) S HS) as Hf.
  set (f := (u * units r / S)%N) in *.
  pose proof (ceil_bounds ((units d + f) * S) F ltac:(lia)) as Hb.
  set (b := (((units d + f) * S + (F - 1)) / F)%N) in *.
  clearbody u f b. clearbody S F. subst F. destruct Hu, Hf, Hb.
  assert (u <= units d)%N by nia. nia.
Qed.

Section Adjusting.
Context {BN : BigNumberOps} {BL : BigNumberLaws BN}.

Lemma between_total (d1 d2 : option Decimal.t) :
  exists d, Difference.between (option_map ofDecimal d1) (option_map ofDecimal d2) = Ok d.
Proof.
  destruct d1 as [x|], d2 as [y|]; cbn [option_map Difference.between]; try by eexists.
  rewrite !from_decimal. cbn [res_bind]. rewrite !infinite_ok. cbn [res_bind].
  destruct (deqb x INF), (deqb y INF); cbn [res_bind]; try by eexists.
  rewrite !gt_ok. cbn [res_bind]. unfold dltb.
  destruct (N.ltb_spec (units y) (units x)); [rewrite sub_ok by lia; by eexists|].
  destruct (N.ltb_spec (units x) (units y)); [rewrite sub_ok by lia|]; by eexists.
Qed.

(** The Vault [a] and the form are those of a component whose Vault is open. *)
Definition openVault (s : Selected) : Prop :=
  computable (fees s) /\ UserTrove.status (trove s) = UserTrove.open /\
  (200 * SCALE <= units (debt (UserTrove.super (trove s))))%N.

(** The net debt typed is the Vault's, lower or higher; a higher one has a fee. *)
Definition feeShown (r : Decimal.t) (net typed : Decimal.t) : Decimal.t :=
  if dltb net typed then feeFor r (dsub typed net) else Decimal.mk 0.

(** The Vault the form describes. *)
Definition target (s : Selected) (f : Form) : Trove.t :=
  let net := dsub (debt (UserTrove.super (trove s))) (Decimal.mk (200 * SCALE)) in
  Trove.mk (collateralAmount f)
    (dadd (dadd (netDebt f) (Decimal.mk (200 * SCALE)))
       (feeShown (rateOf (fees s)) net (netDebt f))).

Lemma fee_ok (a : Trove.t) d r :
  (units (debt a) <> 0 -> units d <> 0 -> feeOf a d r = Ok (feeFor r d))%N.
Proof.
  intros Ha Hd. unfold feeOf. rewrite add_ok. cbn [res_bind]. unfold VaultManager.feeFrom.
  rewrite (whatChanged_ok _ _ _ _ (from_decimal r)).
  assert (badClosure a (Trove.mk (Trove.collateral a) (dadd (debt a) d)) = false) as ->.
  { unfold badClosure. rewrite (nonempty (Trove.mk _ _)) by (cbn [debt dadd units]; lia).
    by rewrite andb_false_r. }
  cbn [res_bind]. unfold twhatChanged. cbn [Trove.collateral debt]. rewrite deqb_refl.
  replace (deqb (debt a) (dadd (debt a) d)) with false
    by (symmetry; apply N.eqb_neq; cbn [dadd units]; lia).
  rewrite (nonempty a) by done. rewrite (nonempty (Trove.mk _ _)) by (cbn [debt dadd units]; lia).
  cbn [andb]. unfold tdebtChange, dltb. cbn [debt].
  replace (units (debt a) <? units (dadd (debt a) d))%N with true
    by (symmetry; apply N.ltb_lt; cbn [dadd units]; lia).
  cbn [changeProps borrow]. rewrite mul_ok. unfold feeFor. do 3 f_equal. f_equal.
  apply t_eq. cbn [dsub dadd units]. lia.
Qed.

Lemma same_target s f :
  openVault s ->
  let a := UserTrove.super (trove s) in
  let net := dsub (debt a) (Decimal.mk (200 * SCALE)) in
  negb (deqb (collateralAmount f) (Trove.collateral a)) || negb (deqb (netDebt f) net) = false ->
  target s f = a.
Proof.
  intros (_ & _ & Hd) a net H. apply orb_false_iff in H as [H1 H2].
  apply negb_false_iff, deqb_eq in H1, H2. unfold target, feeShown. fold a net.
  rewrite H2. unfold dltb. rewrite N.ltb_irrefl. apply trove_eq; cbn [Trove.collateral debt].
  - by rewrite H1.
  - unfold net. cbn [dadd dsub units]. fold a in Hd. lia.
Qed.

Lemma adjusting_figures_ok s f :
  openVault s ->
  exists g, figures s f = Ok g /\ updatedVault g = target s f /\
    borrowingRate g = rateOf (fees s) /\ maxBorrowingRate g = dadd (rateOf (fees s)) tolerance.
Proof.
  intros Ho. pose proof Ho as (Hr & _ & Hd). unfold figures. rewrite rate_ok by done.
  cbn [res_bind]. set (a := UserTrove.super (trove s)) in *. rewrite netDebt_ok.
  rewrite (proj2 (N.ltb_ge _ _) Hd). cbn [res_bind]. set (net := dsub (debt a) _).
  rewrite !eq_ok, gt_ok. cbn [res_bind].
  assert (exists inc, (if dltb net (netDebt f) then sub (netDebt f) (ofDecimal net) else Ok ZERO) = Ok inc /\
    (if dltb net (netDebt f) then feeOf a inc (rateOf (fees s)) else Ok ZERO) =
      Ok (feeShown (rateOf (fees s)) net (netDebt f))) as (inc & -> & Hfee).
  { unfold feeShown, dltb. destruct (N.ltb_spec (units net) (units (netDebt f))).
    - rewrite sub_ok by lia. eexists; split; [done|].
      rewrite fee_ok; [done| |cbn [dsub units]; lia]. unfold SCALE in Hd. lia.
    - rewrite ZERO_val. by eexists. }
  cbn [res_bind]. rewrite Hfee. cbn [res_bind].
  rewrite THUSD_LIQUIDATION_RESERVE_val, add_ok. cbn [res_bind]. rewrite add_ok. cbn [res_bind].
  rewrite maxRate_ok. cbn [res_bind]. rewrite add_ok. cbn [res_bind]. rewrite eq_ok. cbn [res_bind].
  set (v := if negb (deqb (collateralAmount f) (Trove.collateral a)) || _ then _ else a).
  assert (v = target s f) as ->.
  { unfold v. destruct (negb (deqb (collateralAmount f) _) || _) eqn:E; [done|].
    symmetry. by apply same_target. }
  assert (exists ratio, (if negb (isZero (collateralAmount f)) && negb (isZero (netDebt f))
    then let! r := Trove.collateralRatio (target s f) (ofDecimal (price s)) in Ok (Some r)
    else Ok None) = Ok ratio) as (ratio & ->).
  { destruct (negb _ && negb _); [rewrite collateralRatio_ok|]; cbn [res_bind]; by eexists. }
  cbn [res_bind]. rewrite collateralRatio_ok. cbn [res_bind].
  destruct (between_total ratio (Some (dmulDiv (Trove.collateral a) (price s) (debt a)))) as [d E].
  cbn [option_map] in E. rewrite E. cbn [res_bind]. by eexists.
Qed.

(** The change from the Vault to the one the form describes. *)
Lemma adjusting_change s f c :
  openVault s -> twhatChanged (rateOf (fees s)) (UserTrove.super (trove s)) (target s f) = Some c ->
  exists p z, c = adjustment p z /\
    let a := UserTrove.super (trove s) in
    let net := dsub (debt a) (Decimal.mk (200 * SCALE)) in
    deposit p = (if dltb (Trove.collateral a) (collateralAmount f)
                 then Some (dsub (collateralAmount f) (Trove.collateral a)) else None) /\
    withdraw p = (if dltb (collateralAmount f) (Trove.collateral a)
                  then Some (dsub (Trove.collateral a) (collateralAmount f)) else None) /\
    repay p = (if dltb (netDebt f) net then Some (dsub net (netDebt f)) else None) /\
    borrow p = (if dltb net (netDebt f)
                then Some (borrowedFor (rateOf (fees s)) (dsub (netDebt f) net)) else None).
Proof.
  intros (_ & _ & Hd) H. set (a := UserTrove.super (trove s)) in *. set (r := rateOf (fees s)) in *.
  set (net := dsub (debt a) (Decimal.mk (200 * SCALE))).
  assert (units net + 200 * SCALE = units (debt a))%N as Hnet by (unfold net; cbn [dsub units]; lia).
  revert H. unfold twhatChanged.
  rewrite (nonempty a) by (unfold SCALE in *; lia).
  rewrite (nonempty (target s f)) by (unfold target; cbn [debt dadd units]; unfold SCALE; lia).
  unfold target. fold a net r. cbn [Trove.collateral debt].
  assert (deqb (Trove.collateral a) (collateralAmount f) =
          (negb (dltb (Trove.collateral a) (collateralAmount f)) &&
           negb (dltb (collateralAmount f) (Trove.collateral a)))) as HC.
  { unfold deqb, dltb. destruct (N.eqb_spec (units (Trove.collateral a)) (units (collateralAmount f)));
      destruct (N.ltb_spec (units (Trove.collateral a)) (units (collateralAmount f)));
      destruct (N.ltb_spec (units (collateralAmount f)) (units (Trove.collateral a))); try done; lia. }
  set (b := dadd _ (feeShown r net (netDebt f))).
  assert (deqb (debt a) b = (negb (dltb net (netDebt f)) && negb (dltb (netDebt f) net)) /\
          dltb (debt a) b = dltb net (netDebt f) /\
          (dltb net (netDebt f) = false -> dsub (debt a) b = dsub net (netDebt f)) /\
          (dltb net (netDebt f) = true ->
             dsub b (debt a) = dadd (dsub (netDebt f) net) (feeFor r (dsub (netDebt f) net))))
    as (HD & HL & HR & HB).
  { unfold b, feeShown, deqb, dltb.
    destruct (N.ltb_spec (units net) (units (netDebt f))) as [Hlt|Hge].
    - split; [apply N.eqb_neq; cbn [dadd units]; lia|].
      split; [apply N.ltb_lt; cbn [dadd units]; lia|]. split; [done|]. intros _.
      apply t_eq. cbn [dsub dadd units]. lia.
    - destruct (N.ltb_spec (units (netDebt f)) (units net)) as [Hlt|Hge'];
        (split; [|split; [apply N.ltb_ge; cbn [dadd units]; lia|]; split;
                  [intros _; apply t_eq; cbn [dsub dadd units]; lia|done] ]).
      + apply N.eqb_neq. cbn [dadd units]. lia.
      + apply N.eqb_eq. cbn [dadd units]. lia. }
  unfold tdebtChange, tcollateralChange, spread. cbn [Trove.collateral debt].
  rewrite HC, HD, HL. unfold borrowedFor.
  assert (dltb (Trove.collateral a) (collateralAmount f) = true ->
          dltb (collateralAmount f) (Trove.collateral a) = false) as X1
    by (unfold dltb; rewrite N.ltb_lt, N.ltb_ge; lia).
  assert (dltb net (netDebt f) = true -> dltb (netDebt f) net = false) as X2
    by (unfold dltb; rewrite N.ltb_lt, N.ltb_ge; lia).
  destruct (dltb (Trove.collateral a) (collateralAmount f)) eqn:E1; [rewrite X1 by done|];
    [|destruct (dltb (collateralAmount f) (Trove.collateral a)) eqn:E2];
    (destruct (dltb net (netDebt f)) eqn:E3; [rewrite X2, <- HB by done|];
      [|destruct (dltb (netDebt f) net) eqn:E4; rewrite ?HR by done]);
    cbn [negb andb]; intros [= <-]; do 2 eexists; (split; [done|]);
    cbn [deposit withdraw borrow repay]; rewrite ?HR by done; done.
Qed.

(** The valid change of a render is the change to the target, and permitted. *)
Lemma adjusting_render_ok s f st r :
  openVault s -> render s f st = Ok (Some r) ->
  button r = mainButton (collateralAddress s) (fst (approved (erc20TokenAllowance s) st))
               (snd (approved (erc20TokenAllowance s) st)) st (dadd (rateOf (fees s)) tolerance) /\
  forall c, vaultChange r = Some c ->
    twhatChanged (rateOf (fees s)) (UserTrove.super (trove s)) (target s f) = Some c /\
    exists t, permitted (validationContext s) (UserTrove.super (trove s)) t c = true.
Proof.
  intros Ho. pose proof Ho as (_ & Hst & _). unfold render.
  destruct (adjusting_figures_ok s f Ho) as (g & -> & Hv & Hrate & Hmax). cbn [res_bind]. rewrite Hrate, Hv.
  pose proof (validation_outcome (UserTrove.super (trove s)) (target s f) _ (validationContext s)
                (rate_small (fees s))) as H.
  destruct (validateVaultChange _ _ _ _) as [ [v d]|]; [|done]. cbn [res_bind].
  rewrite useValidationState_ok. cbn [res_bind]. destruct (approved _ st) as [has amount].
  rewrite bool_decide_eq_true_2 by done. intros E. apply Ok_inj in E. injection E as <-.
  cbn [button vaultChange fst snd]. rewrite Hmax. split; [done|]. intros c ->.
  destruct H as (c' & Hc & H).
  rewrite (whatChanged_ok _ _ _ _ (from_decimal (rateOf (fees s)))) in Hc.
  destruct (badClosure _ _); [done|]. apply Ok_inj in Hc. rewrite Hc.
  destruct c' as [c'|]; [|by destruct H as (_ & ? & _)].
  destruct H as (t & _ & H). destruct (permitted _ _ _ _) eqn:Hp; [|by destruct H].
  destruct H as [ [= ->] _]. split; [done|]. by exists t.
Qed.

(** C40: when the form of an open Vault offers "Confirm" for the change it shows, the button adjusts
    the Vault by exactly the collateral typed and exactly what the net debt is lowered by, with an
    allowance and a balance that cover the deposit.  A net debt raised by [d] borrows less: the
    fee is computed as if it were part of [d], so that with the rate [r] the transaction borrows
    d (1 + 2r) / (1 + r)^2, up to two units, and not [d]. *)
Theorem adjusting_sends (s : Selected) (f : Form) (st : option (TroveChange Decimal.t))
    (r : Rendered) (c : TroveChange Decimal.t) (limit : Decimal.t) :
  openVault s -> render s f st = Ok (Some r) -> vaultChange r = st ->
  button r = Confirm c limit ->
  let a := UserTrove.super (trove s) in
  let net := dsub (debt a) (Decimal.mk (200 * SCALE)) in
  let rate := rateOf (fees s) in
  exists p,
    sends (button r) = Some (existT _ (AdjustTrove (rawAdjustment (adjustmentish p))
      (Populatable.optionalParams (Some (ofDecimal limit)) (Some 60)) Contracts.noOverrides)) /\
    deposit p = (if dltb (Trove.collateral a) (collateralAmount f)
                 then Some (dsub (collateralAmount f) (Trove.collateral a)) else None) /\
    withdraw p = (if dltb (collateralAmount f) (Trove.collateral a)
                  then Some (dsub (Trove.collateral a) (collateralAmount f)) else None) /\
    repay p = (if dltb (netDebt f) net then Some (dsub net (netDebt f)) else None) /\
    (forall d, deposit p = Some d -> collateralAddress s <> "" ->
       units d <= units (erc20TokenAllowance s))%N /\
    (forall d, deposit p = Some d ->
       units d <= units (VaultValidation.erc20TokenBalance (validationContext s)))%N /\
    match borrow p with
    | None => (units (netDebt f) <= units net)%N
    | Some b =>
        let d := (units (netDebt f) - units net)%N in
        let F := (SCALE + units rate)%N in
        (0 < d /\ units b <= d /\
         d * SCALE * (SCALE + 2 * units rate) < units b * (F * F) + SCALE * F /\
         units b * (F * F) < d * SCALE * (SCALE + 2 * units rate) + 2 * (F * F))%N
    end.
Proof.
  intros Ho Er Hst Hb a net rate. destruct (adjusting_render_ok s f st r Ho Er) as [B V].
  set (has := fst (approved (erc20TokenAllowance s) st)) in *.
  set (amount := snd (approved (erc20TokenAllowance s) st)) in *. pose proof B as B'.
  rewrite Hb in B'. unfold mainButton in B'.
  assert (st = Some c) as Hc.
  { destruct (negb (String.eqb (collateralAddress s) "") && negb has), amount, st;
      try discriminate B'; by inversion B'. }
  destruct (V c) as (Hchange & t & Hp); [by rewrite Hst, Hc|].
  destruct (adjusting_change s f c Ho Hchange) as (p & z & -> & Hdep & Hwit & Hrep & Hbor).
  fold a net in Hdep, Hwit, Hrep, Hbor. fold rate in Hbor. exists p. rewrite Hb.
  split; [done|]. split; [done|]. split; [done|]. split; [done|].
  cbn [permitted] in Hp. apply andb_true_iff in Hp as [_ Hbal]. split; [|split].
  - intros d Ed Haddr. subst has amount. rewrite Hc in B'. cbn [approved changeProps] in B'.
    rewrite Ed in B'. rewrite (proj2 (String.eqb_neq _ _) Haddr) in B'. cbn [negb andb] in B'.
    destruct (negb (Decimal.isZero (erc20TokenAllowance s)) && dleb d (erc20TokenAllowance s)) eqn:Hcov;
      cbn [fst snd negb] in B'; [|discriminate B'].
    apply andb_true_iff in Hcov as [_ Hcov]. by apply N.leb_le.
  - intros d Ed. rewrite Ed in Hbal. by apply N.leb_le.
  - rewrite Hbor. unfold dltb. destruct (N.ltb_spec (units net) (units (netDebt f))) as [Hlt|]; [|done].
    pose proof (borrowedFor_bounds rate (dsub (netDebt f) net)) as [H1 H2].
    pose proof (feeFor_least rate (dsub (netDebt f) net)) as H3. unfold onePlus in *.
    cbn [dsub units] in *.
    replace (SCALE + 2 * units rate)%N with (SCALE + units rate + units rate)%N by lia.
    split; [lia|]. split; [apply H3; lia|]. by split.
Qed.

End Adjusting.
End AdjustingProperties.

(** ** Runs *)
Module VaultFormsRuns.
Import Decimal DecimalFacts TroveParams.
Import VaultForms VaultFormsProperties OpeningProperties AdjustingProperties.
#[local] Existing Instance Z_bignumber.
#[local] Existing Instance Z_bignumber_laws.

Definition coins (n : N) : Decimal.t := Decimal.mk (n * 10 ^ 18).

(** A system with plenty of collateral, and a user with ten units of it, all approved. *)
Definition context : VaultValidation.VaultChangeValidationSelectedState :=
  VaultValidation.mkSelected (coins 2000) (Trove.mk (coins 1000) (coins 100000)) (coins 10)
    (coins 0) 20 "tBTC".
Definition inputs : Opening.Inputs :=
  Opening.mkInputs
    (Opening.mkSelected FeesProperties.someFees (coins 2000) (coins 10) (coins 10) context "tBTC")
    true Transactions.Tidle.

(** Five units are typed, which proposes the minimum debt; another debt is typed before the first
    estimation is answered, whose answer comes late. *)
Definition typing : list Opening.Event :=
  [Opening.TypeCollateral "5"; Opening.TimerFired 0; Opening.TypeBorrow "3000";
   Opening.Estimated 0 (Some (Some 900000)); Opening.TimerFired 1;
   Opening.Estimated 1 (Some (Some 150000))].

Lemma inputs_ready : ready inputs.
Proof. right. by vm_compute. Qed.
Lemma typing_ready : Forall ready_event typing.
Proof. by repeat constructor. Qed.

Lemma opening_refines_form_witness :
  exists a, Opening.run inputs typing = Ok a /\
    Opening.form a = Opening.mkForm (coins 5) (coins 3000) false /\
    option_map snd (Opening.stable a) = Some (asTyped (Opening.form a)).
Proof.
  destruct (opening_refines_form inputs typing inputs_ready typing_ready) as (a & E & Hf & Hs).
  exists a. apply pair_equal_spec in Hf as [Hi Hf]. rewrite Hs, Hi, Hf.
  split; [done|]. split; by vm_compute.
Defined.

Lemma opening_confirms_typed_witness :
  exists a r c limit, Opening.run inputs typing = Ok a /\ Opening.renderOf a = Ok r /\
    Opening.button r = Confirm c limit /\
    (1800 * SCALE <= units (Opening.borrowAmount (Opening.form a)))%N.
Proof.
  assert (exists a r c limit, Opening.run inputs typing = Ok a /\ Opening.renderOf a = Ok r /\
            Opening.button r = Confirm c limit) as (a & r & c & limit & E & Er & Hb).
  { do 4 eexists. split; [vm_compute; reflexivity|]. split; vm_compute; reflexivity. }
  exists a, r, c, limit. split; [exact E|]. split; [exact Er|]. split; [exact Hb|].
  apply (opening_confirms_typed inputs typing a r c limit inputs_ready typing_ready E Er Hb).
Defined.

(** Before the last answer: the first run has been cleaned up, so that only the second one counts. *)
Lemma opening_estimates_current_witness :
  exists a g w, Opening.run inputs (take 5 typing) = Ok a /\
    GasEstimation.answered 1 (Some (Some 150000)) (Opening.warning a) = (Some g, w) /\
    g = GasEstimation.complete (Some 150000).
Proof.
  assert (exists a g w, Opening.run inputs (take 5 typing) = Ok a /\
    GasEstimation.answered 1 (Some (Some 150000)) (Opening.warning a) = (Some g, w))
    as (a & g & w & E & Ha).
  { do 3 eexists. split; vm_compute; reflexivity. }
  exists a, g, w. split; [exact E|]. split; [exact Ha|].
  destruct (opening_estimates_current inputs (take 5 typing) a 1 _ g w inputs_ready
              ltac:(by repeat constructor) E Ha) as (e & h & _ & Hh & -> & _).
  by injection Hh as <-.
Defined.

(** A Vault of five units and a net debt of 2000, to which 1000 are added. *)
Definition adjusted : Adjusting.Selected :=
  Adjusting.mkSelected
    (UserTrove.mk (Trove.mk (coins 5) (coins 2200)) "0x1" UserTrove.open)
    FeesProperties.someFees (coins 2000) "0xc" (coins 10) (coins 0) context "tBTC".
Definition raised : Adjusting.Form := Adjusting.mkForm (coins 5) (coins 3000).

Lemma adjusting_sends_witness :
  exists st r c limit p b, Adjusting.render adjusted raised st = Ok (Some r) /\
    Adjusting.vaultChange r = st /\ Adjusting.button r = Confirm c limit /\
    borrow p = Some b /\ (units b < 1000 * SCALE)%N.
Proof.
  assert (exists st r c limit, Adjusting.render adjusted raised st = Ok (Some r) /\
    Adjusting.vaultChange r = st /\ Adjusting.button r = Confirm c limit)
    as (st & r & c & limit & E & Hst & Hb).
  { eexists (Some (Trove.adjustment (mkAdjustment None None (Some (Decimal.mk _)) None) None)).
    do 3 eexists. split; [vm_compute; reflexivity|]. split; vm_compute; reflexivity. }
  assert (openVault adjusted) as Ho.
  { split; [right; by vm_compute|]. split; by vm_compute. }
  destruct (adjusting_sends adjusted raised st r c limit Ho E Hst Hb)
    as (p & _ & _ & _ & _ & _ & _ & H).
  destruct (borrow p) as [b|] eqn:Eb.
  2: { exfalso. apply N.leb_le in H. revert H. vm_compute. discriminate. }
  exists st, r, c, limit, p, b. split; [exact E|]. split; [exact Hst|]. split; [exact Hb|].
  split; [exact Eb|]. destruct H as (_ & _ & _ & H). clear - H.
  apply N.nle_gt. intros Hb. revert H. apply N.nlt_ge.
  change (units (Adjusting.netDebt raised) - _)%N with (1000 * SCALE)%N.
  let r := eval vm_compute in (units (rateOf FeesProperties.someFees)) in
    assert (units (rateOf (Adjusting.fees adjusted)) = r) as -> by by vm_compute.
  unfold SCALE in *. lia.
Defined.

End VaultFormsRuns.
