(* ===== verification/DepositForms.v ===== *)
(** * The panels of deposits, claims and single Vaults

    What the components of [dev-frontend/src/components/Stability/], the panels of
    [components/Vault/] other than its forms and [CollateralSurplusAction.tsx] compute when they
    render, the calls their buttons make and the events they dispatch; and, composed with the
    shared state of [Transactions], when a surplus can be claimed. *)

From S2P Require Import Prelude BigNumber Decimals Constants Troves Fees Deposits LiquityStore WebSocketProvider Populatable EthersLiquity VaultValidation VaultValidationProperties VaultManager Views Transactions.

Local Open Scope Z_scope.

(** ** Which panel is shown: [Vault.tsx] and [Stability.tsx] *)
Module Panel.

Inductive VaultPanel : Type :=
| ReadOnlyVault
| Adjusting
| Closing
| Opening
| LiquidatedVault
| RedeemedVault
| NoVault.

Definition Vault (view : VaultView.VaultView) : VaultPanel :=
  match view with
  | VaultView.ACTIVE => ReadOnlyVault
  | VaultView.ADJUSTING => Adjusting
  | VaultView.CLOSING => Closing
  | VaultView.OPENING => Opening
  | VaultView.LIQUIDATED => LiquidatedVault
  | VaultView.REDEEMED => RedeemedVault
  | VaultView.NONE => NoVault
  end.

Inductive StabilityPanel : Type :=
| ActiveDeposit
| StabilityDepositManager
| NoDeposit.

Definition Stability (view : StabilityView.StabilityView) : StabilityPanel :=
  match view with
  | StabilityView.ACTIVE => ActiveDeposit
  | StabilityView.ADJUSTING | StabilityView.DEPOSITING => StabilityDepositManager
  | StabilityView.NONE => NoDeposit
  end.

(** The events of the buttons of [ReadOnlyVault.tsx]. *)
Definition adjustPressed : VaultView.VaultEvent := VaultView.ADJUST_VAULT_PRESSED.
Definition closePressed : VaultView.VaultEvent := VaultView.CLOSE_VAULT_PRESSED.

(** What [NoVault.tsx], [LiquidatedVault.tsx] and [RedeemedVault.tsx] offer: the claim of a surplus,
    and the button that opens a Vault, which may be disabled or missing. *)
Record Offer : Type := mkOffer {
  claims : bool;
  openButton : option bool;
}.

(** A collateral that is not on the mint list opens no Vaults. *)
Definition NoVaultOffer (isMintList : bool) : Offer := mkOffer false (Some isMintList).

Section Panel.
Context {BN : BigNumberOps}.

(** [!hasSurplusCollateral && isMintList === false ? ... : ...] *)
Definition LiquidatedVaultOffer (collateralSurplusBalance : Decimal.t) (isMintList : bool) : Offer :=
  let hasSurplusCollateral := negb (Decimal.isZero collateralSurplusBalance) in
  mkOffer hasSurplusCollateral (Some (negb (negb hasSurplusCollateral && negb isMintList))).

Definition RedeemedVaultOffer (collateralSurplusBalance : Decimal.t) (isMintList : bool) : Offer :=
  let hasSurplusCollateral := negb (Decimal.isZero collateralSurplusBalance) in
  mkOffer hasSurplusCollateral (if negb hasSurplusCollateral then Some true else None).

(** A balance, or a dash. *)
Definition balanceText (balance : Decimal.t) : Res string :=
  let! zero := Decimal.eq balance (Decimal.ofNumber "0") in
  if (zero : bool) then Ok "--" else Decimal.prettify balance None.

End Panel.
End Panel.

(** ** Deposits in the Stability Pool *)
Module StabilityForms.

(** What [select] takes of the store for [StabilityDepositEditor] and the other panels. *)
Record Selected : Type := mkSelected {
  thusdBalance : Decimal.t;
  thusdInStabilityPool : Decimal.t;
  stabilityDeposit : StabilityDeposit.t;
  isStabilityPools : bool;
  symbol : string;
}.

Definition select (b : LiquityStore.LiquityStoreBaseState) : Selected :=
  mkSelected (snd (LiquityStore.thusdBalance _ b)) (snd (LiquityStore.thusdInStabilityPool _ b))
    (snd (LiquityStore.stabilityDeposit _ b)) (LiquityStore.isStabilityPools _ b)
    (LiquityStore.symbol _ b).

Definition transactionId : string := "stability-deposit".

(** The effects of the transaction "stability-deposit" in [StabilityDepositManager.tsx] and
    [ActiveDeposit.tsx]. *)
Definition onTransaction (isCollateralChecked : bool) (type : Transactions.StateType) :
    option (StabilityDepositManager.StabilityDepositManagerAction + StabilityView.StabilityEvent) :=
  if isCollateralChecked then
    match type with
    | Transactions.TwaitingForApproval | Transactions.TwaitingForConfirmation =>
        Some (inl StabilityDepositManager.startChange)
    | Transactions.Tfailed | Transactions.Tcancelled =>
        Some (inl StabilityDepositManager.finishChange)
    | Transactions.TconfirmedOneShot => Some (inr StabilityView.DEPOSIT_CONFIRMED)
    | _ => None
    end
  else None.

Definition onClaim (type : Transactions.StateType) : option StabilityView.StabilityEvent :=
  match type with
  | Transactions.TconfirmedOneShot => Some StabilityView.REWARDS_CLAIMED
  | _ => None
  end.

Section StabilityForms.
Context {BN : BigNumberOps}.

(** What [StabilityDepositEditor] computes. *)
Record Figures : Type := mkFigures {
  maxAmount : Decimal.t;
  maxedOut : bool;
  thusdInStabilityPoolAfterChange : Decimal.t;
  originalPoolShare : Decimal.t;
  newPoolShare : Decimal.t;
  poolShareChange : option Difference.t;
}.

Definition percentOfPool (deposit pool : Decimal.t) : Res Decimal.t :=
  Decimal.mulDiv deposit (Decimal.ofNumber "100") (Decimal.ofDecimal pool).

Definition figures (s : Selected) (originalDeposit : StabilityDeposit.t) (editedUSD : Decimal.t) :
    Res Figures :=
  let! maxAmount := Decimal.add (StabilityDeposit.currentTHUSD (stabilityDeposit s))
                      (Decimal.ofDecimal (thusdBalance s)) in
  let! maxedOut := Decimal.eq editedUSD (Decimal.ofDecimal maxAmount) in
  let! without := Decimal.sub (thusdInStabilityPool s)
                    (Decimal.ofDecimal (StabilityDeposit.currentTHUSD originalDeposit)) in
  let! thusdInStabilityPoolAfterChange := Decimal.add without (Decimal.ofDecimal editedUSD) in
  let! originalPoolShare :=
    percentOfPool (StabilityDeposit.currentTHUSD originalDeposit) (thusdInStabilityPool s) in
  let! newPoolShare := percentOfPool editedUSD thusdInStabilityPoolAfterChange in
  let! poolShareChange :=
    match Decimal.nonZero (StabilityDeposit.currentTHUSD originalDeposit) with
    | None => Ok None
    | Some _ =>
        let! d := Difference.between (Some (Decimal.ofDecimal newPoolShare))
                    (Some (Decimal.ofDecimal originalPoolShare)) in
        Ok (Difference.nonZero d)
    end in
  Ok (mkFigures maxAmount maxedOut thusdInStabilityPoolAfterChange originalPoolShare newPoolShare
        poolShareChange).

(** The call of [StabilityDepositAction.tsx]; its button is disabled without a Stability Pool. *)
Definition stabilityDepositAction (change : DepositChange Decimal.t) : sigT Call :=
  match change with
  | depositTHUSD d =>
      existT _ (DepositTHUSDInStabilityPool (Decimal.ofDecimal d) Contracts.noOverrides)
  | withdrawTHUSD w _ =>
      existT _ (WithdrawTHUSDFromStabilityPool (Decimal.ofDecimal w) Contracts.noOverrides)
  end.

(** A render of [StabilityDepositManager]: what "Confirm" sends unless it is disabled. *)
Definition confirms (version collateral : string) (s : Selected)
    (context : VaultValidation.StabilityDepositChangeValidationContext)
    (m : StabilityDepositManager.StabilityDepositManagerState) : Res (option (sigT Call)) :=
  let! '(validChange, _) :=
    VaultValidation.validateStabilityDepositChange version collateral
      (StabilityDepositManager.originalDeposit m) (StabilityDepositManager.editedUSD m) context
      None None in
  Ok (match validChange with
      | Some change => if isStabilityPools s then Some (stabilityDepositAction change) else None
      | None => None
      end).

(** [ActiveDeposit.tsx]: the share, and what "Claim Rewards" sends unless it is disabled. *)
Definition poolShare (s : Selected) : Res Decimal.t :=
  percentOfPool (StabilityDeposit.currentTHUSD (stabilityDeposit s)) (thusdInStabilityPool s).

Definition claimRewards (s : Selected) : option (sigT Call) :=
  if Decimal.isZero (StabilityDeposit.collateralGain (stabilityDeposit s)) then None
  else Some (existT _ (WithdrawGainsFromBammPool Contracts.noOverrides)).

(** [ClaimAndMove.tsx] and [UnlockButton] of [NoDeposit.tsx]. *)
Definition claimAndMove : sigT Call := existT _ (TransferBammCollateralGainToTrove Contracts.noOverrides).
Definition unlock (s : Selected) : sigT Call :=
  existT _ (DepositTHUSDInStabilityPool (Decimal.ofDecimal (thusdBalance s)) Contracts.noOverrides).

(** [StabilityActionDescription.tsx]: a signed amount without its sign. *)
Definition unsigned (text : string) : string :=
  if Js.includes "-" text || Js.includes "+" text
  then match text with String _ rest => rest | EmptyString => "" end else text.

Definition describe (symbol : string) (originalDeposit : StabilityDeposit.t)
    (change : DepositChange Decimal.t) (thusdDiff collateralDiff : option Difference.t) :
    Res (string * option string * option string) :=
  let! first :=
    match change with
    | depositTHUSD d =>
        let! p := Decimal.prettify d None in
        Ok ("You are depositing " +:+ p +:+ " " +:+ VaultValidation.COIN +:+ " in the Stability Pool")
    | withdrawTHUSD _ _ =>
        let! p := match thusdDiff with
                  | Some d => let! p := Difference.prettify d (Some 2) in Ok (unsigned p)
                  | None => Ok ""
                  end in
        Ok ("You are withdrawing " +:+ p +:+ " " +:+ VaultValidation.COIN +:+ " to your wallet")
    end in
  let! second :=
    match change, collateralDiff with
    | withdrawTHUSD _ _, Some d =>
        match Difference.absoluteValue d with
        | Some x =>
            let! shown := Decimal.gte x (Decimal.ofNumber "0.0001") in
            if (shown : bool) then
              let! p := Difference.prettify d (Some 4) in
              Ok (Some (unsigned p +:+ " " +:+ symbol))
            else Ok None
        | None => Ok None
        end
    | _, _ => Ok None
    end in
  let! third :=
    match Decimal.nonZero (StabilityDeposit.collateralGain originalDeposit) with
    | Some g => let! p := Decimal.prettify g (Some 4) in
                Ok (Some (p +:+ " " +:+ symbol +:+ " " +:+ symbol))
    | None => Ok None
    end in
  Ok (first, second, third).

End StabilityForms.
End StabilityForms.

(** ** [CollateralSurplusAction.tsx] *)
Module Surplus.

Definition transactionId : string := "claim-coll-surplus".

Inductive Shown : Type :=
| WaitingForApproval
| Claim
| Nothing.

(** What is rendered for a Vault of [version] and [collateral] when the shared state is [x]. *)
Definition render (version collateral : string) (x : Transactions.TransactionState) : Shown :=
  let mine := Transactions.useMyTransactionState (String.eqb transactionId) version collateral x in
  let isCollateralChecked := Transactions.checkTransactionCollateral mine version collateral in
  match Transactions.typeOf mine with
  | Transactions.TwaitingForApproval => if isCollateralChecked then WaitingForApproval else Nothing
  | Transactions.TwaitingForConfirmation | Transactions.Tconfirmed => Nothing
  | _ => if isCollateralChecked then Claim else Nothing
  end.

Definition onTransaction (version collateral : string) (x : Transactions.TransactionState) :
    option VaultView.VaultEvent :=
  let mine := Transactions.useMyTransactionState (String.eqb transactionId) version collateral x in
  match Transactions.checkTransactionCollateral mine version collateral, Transactions.typeOf mine with
  | true, Transactions.TconfirmedOneShot => Some VaultView.VAULT_SURPLUS_COLLATERAL_CLAIMED
  | _, _ => None
  end.

(** What the button sends. *)
Definition sends (s : Shown) : option (sigT Call) :=
  match s with
  | Claim => Some (existT _ (ClaimCollateralSurplus Contracts.noOverrides))
  | _ => None
  end.

End Surplus.

(** ** Properties *)
Module DepositFormsProperties.
Import Decimal DecimalFacts.

Section Stability.
Context {BN : BigNumberOps} {BL : BigNumberLaws BN}.
Import StabilityForms.

Lemma percentOfPool_ok d p :
  percentOfPool d p = Ok (dmulDiv d (Decimal.mk (100 * SCALE)) p).
Proof.
  unfold percentOfPool. apply mulDiv_from; [|apply from_decimal].
  rewrite from_number. by vm_compute.
Qed.

(** A part of a pool is at most all of it. *)
Lemma share_bound d p :
  (units d <= units p)%N -> (units p <> 0)%N ->
  (units (dmulDiv d (Decimal.mk (100 * SCALE)) p) <= 100 * SCALE)%N.
Proof.
  intros Hd Hp. unfold dmulDiv. rewrite (proj2 (N.eqb_neq _ _) Hp). cbn [units].
  apply N.Div0.div_le_upper_bound. nia.
Qed.

(** The edit is refused: a deposit without any balance, or a withdrawal that has to wait. *)
Definition refused (context : VaultValidation.StabilityDepositChangeValidationContext)
    (c : DepositChange Decimal.t) : bool :=
  match c with
  | depositTHUSD _ => (units (VaultValidation.balance context) =? 0)%N
  | withdrawTHUSD _ _ => VaultValidation.haveUndercollateralizedTroves context
  end.

Lemma confirms_ok v c s context m :
  confirms v c s context m =
    Ok (match DepositFacts.change
                (StabilityDeposit.currentTHUSD (StabilityDepositManager.originalDeposit m))
                (StabilityDepositManager.editedUSD m) with
        | Some change => if isStabilityPools s && negb (refused context change)
                         then Some (stabilityDepositAction change) else None
        | None => None
        end).
Proof.
  unfold confirms, VaultValidation.validateStabilityDepositChange.
  rewrite (DepositFacts.stability_whatChanged_ok _ _ _ (from_decimal _)). cbn [res_bind].
  destruct (DepositFacts.change _ _) as [ [d|w all]|]; cbn [res_bind refused]; [| |done].
  - rewrite VaultValidationProperties.looselyZero_ok. cbn [res_bind].
    destruct (units _ =? 0)%N; cbn [res_bind negb]; [by rewrite andb_false_r|].
    by rewrite andb_true_r.
  - destruct (VaultValidation.haveUndercollateralizedTroves context); cbn [res_bind negb];
      [by rewrite andb_false_r|by rewrite andb_true_r].
Qed.

(** The form of a stability deposit, when the pool holds at least the deposit: the pool after
    the change is the pool with the deposit replaced by the amount typed, the share shown is that
    amount's part of it, which is at most 100% unless the pool is emptied, and "Confirm" sends one
    call for exactly the difference, except where the pool is missing or the change is refused. *)
Theorem stability_form (v c : string) (s : Selected)
    (context : VaultValidation.StabilityDepositChangeValidationContext)
    (m : StabilityDepositManager.StabilityDepositManagerState) :
  let o := StabilityDepositManager.originalDeposit m in
  let current := StabilityDeposit.currentTHUSD o in
  let edited := StabilityDepositManager.editedUSD m in
  (units current <= units (thusdInStabilityPool s))%N ->
  exists g sent, figures s o edited = Ok g /\ confirms v c s context m = Ok sent /\
    (units (thusdInStabilityPoolAfterChange g) + units current =
       units (thusdInStabilityPool s) + units edited)%N /\
    newPoolShare g = dmulDiv edited (Decimal.mk (100 * SCALE)) (thusdInStabilityPoolAfterChange g) /\
    (units (thusdInStabilityPoolAfterChange g) <> 0 -> units (newPoolShare g) <= 100 * SCALE)%N /\
    match sent with
    | Some call =>
        isStabilityPools s = true /\
        ((units current < units edited)%N /\ (units (VaultValidation.balance context) <> 0)%N /\
         call = existT _ (DepositTHUSDInStabilityPool (ofDecimal (dsub edited current))
                            Contracts.noOverrides) \/
         (units edited < units current)%N /\
         VaultValidation.haveUndercollateralizedTroves context = false /\
         call = existT _ (WithdrawTHUSDFromStabilityPool (ofDecimal (dsub current edited))
                            Contracts.noOverrides))
    | None =>
        isStabilityPools s = false \/ edited = current \/
        ((units current < units edited)%N /\ units (VaultValidation.balance context) = 0%N) \/
        ((units edited < units current)%N /\
         VaultValidation.haveUndercollateralizedTroves context = true)
    end.
Proof.
  intros o current edited Hpool. rewrite confirms_ok. fold o current edited.
  unfold figures. rewrite add_ok. cbn [res_bind]. rewrite eq_ok. cbn [res_bind].
  fold current. rewrite sub_ok by done. cbn [res_bind]. rewrite add_ok. cbn [res_bind].
  rewrite !percentOfPool_ok. cbn [res_bind].
  set (after := dadd (dsub (thusdInStabilityPool s) current) edited).
  set (share := dmulDiv edited _ after). set (before := dmulDiv current _ _).
  assert (exists x, match nonZero current with
                    | None => Ok None
                    | Some _ => let! d := Difference.between (Some (ofDecimal share)) (Some (ofDecimal before)) in
                                Ok (Difference.nonZero d)
                    end = Ok x) as [x ->].
  { destruct (nonZero current); [|by eexists]. cbn [Difference.between]. rewrite !from_decimal.
    cbn [res_bind]. rewrite !infinite_ok. cbn [res_bind].
    destruct (deqb share INF), (deqb before INF); cbn [res_bind]; try by eexists.
    rewrite !gt_ok. cbn [res_bind]. unfold dltb.
    destruct (N.ltb_spec (units before) (units share)); [rewrite sub_ok by lia; by eexists|].
    destruct (N.ltb_spec (units share) (units before)); [rewrite sub_ok by lia|]; by eexists. }
  cbn [res_bind]. do 2 eexists. split; [done|]. split; [done|].
  cbn [thusdInStabilityPoolAfterChange newPoolShare].
  split; [unfold after; cbn [dadd dsub units]; lia|]. split; [done|].
  split; [apply share_bound; unfold after; cbn [dadd dsub units]; lia|].
  unfold DepositFacts.change, dltb.
  destruct (N.ltb_spec (units edited) (units current)) as [H|H];
    [|destruct (N.ltb_spec (units current) (units edited)) as [H'|H'] ]; cbn [refused].
  - destruct (isStabilityPools s); cbn [andb]; [|by left].
    destruct (VaultValidation.haveUndercollateralizedTroves context); cbn [negb];
      [by do 3 right|]. split; [done|]. right. split; [done|]. done.
  - destruct (isStabilityPools s); cbn [andb]; [|by left].
    destruct (N.eqb_spec (units (VaultValidation.balance context)) 0); cbn [negb];
      [by right; right; left|]. split; [done|]. by left.
  - right. left. apply t_eq. lia.
Qed.

End Stability.

(** *** A surplus can be claimed once a transaction has been sent for its Vault *)

Import Transactions.

Section Surplus.
Context (P : string -> string -> Prop).

(** Every version and collateral the shared state, its monitors, timers and transactions name. *)
Record about (a : t) : Prop := {
  ab_state : P (versionOf (state a)) (collateralOf (state a));
  ab_monitors : forall n m, monitors a !! n = Some m -> P (m_version m) (m_collateral m);
  ab_timers : forall n x, timers a !! n = Some x -> P (t_version x) (t_collateral x);
  ab_sends : forall n id v c, sends a !! n = Some (id, v, c) -> P v c;
}.

Lemma orUndefined_some s s' : orUndefined s = Some s' -> s' = s.
Proof. unfold orUndefined. destruct (String.eqb s ""); [done|]. by intros [= <-]. Qed.

Lemma about_cleanup1 a q a' :
  about a -> cleanup1 a = (q, a') ->
  about a' /\ state a' = state a /\ forall s, q = Some s -> P (versionOf s) (collateralOf s).
Proof.
  intros H. unfold cleanup1. destruct (liveMonitor a) as [n|]; [|by intros [= <- <-] ].
  destruct (monitors a !! n) as [m|] eqn:E; [|by intros [= <- <-] ].
  destruct (m_finished m); intros [= <- <-].
  { split; [|done]. split; apply H. }
  split; [|split; [done|]; intros s [= <-]; by apply (ab_monitors _ H n)].
  split; cbn [state monitors timers sends]; try apply H.
  intros k x. rewrite lookup_insert_Some. intros [ [_ <-] | [_ Hk] ]; cbn.
  - by apply (ab_monitors _ H n).
  - by apply (ab_monitors _ H k).
Qed.

Lemma about_cleanup2 a : about a -> about (cleanup2 a) /\ state (cleanup2 a) = state a.
Proof.
  intros H. unfold cleanup2. destruct (liveTimer a) as [n|]; [|done]. split; [|done].
  split; cbn [state monitors timers sends]; try apply H.
  intros k x. rewrite lookup_alter_Some. intros [ (<- & y & Hy & ->) | [_ Hk] ]; cbn.
  - by apply (ab_timers _ H n).
  - by apply (ab_timers _ H k).
Qed.

Lemma about_effect1 a : about a -> about (effect1 a).
Proof.
  intros H. unfold effect1. destruct (idOf (state a)) as [id|]; [|done].
  destruct (txOf (state a)) as [tx|]; [|done].
  destruct (orUndefined (versionOf (state a))) as [v|] eqn:Ev; [|done].
  destruct (orUndefined (collateralOf (state a))) as [c|] eqn:Ec; [|done].
  destruct (String.eqb id ""); [done|]. apply orUndefined_some in Ev as ->, Ec as ->.
  split; cbn [state monitors timers sends]; try apply H.
  intros k m. rewrite lookup_insert_Some. intros [ [_ <-] | [_ Hk] ]; cbn; [apply H|].
  by apply (ab_monitors _ H k).
Qed.

Lemma about_effect2 a q a' :
  about a -> effect2 a = (q, a') ->
  about a' /\ forall s, q = Some s -> P (versionOf s) (collateralOf s).
Proof.
  intros H. unfold effect2.
  destruct (orUndefined (versionOf (state a))) as [v|] eqn:Ev; [|by destruct (typeOf (state a)), (idOf (state a)); intros [= <- <-] ].
  destruct (orUndefined (collateralOf (state a))) as [c|] eqn:Ec; [|by destruct (typeOf (state a)), (idOf (state a)); intros [= <- <-] ].
  apply orUndefined_some in Ev as ->, Ec as ->.
  assert (forall tl n, about (mk (provider a) (state a) (liveMonitor a) tl (monitors a)
            (<[n := mkTimer (versionOf (state a)) (collateralOf (state a)) false]> (timers a))
            (sends a) (n + 1))) as Ht.
  { intros tl n. split; cbn [state monitors timers sends]; try apply H.
    intros k x. rewrite lookup_insert_Some. intros [ [_ <-] | [_ Hk] ]; cbn; [apply H|].
    by apply (ab_timers _ H k). }
  destruct (typeOf (state a)); [| | | | | |destruct (idOf (state a)) as [id|] ];
    try (intros [= <- <-]; by split); [].
  destruct (String.eqb id ""); intros [= <- <-]; [by split|]. split; [done|].
  intros s [= <-]. apply H.
Qed.

Lemma about_commit p new a q a' :
  about a -> P (versionOf new) (collateralOf new) -> commit p new a = (q, a') ->
  about a' /\ forall s, q = Some s -> P (versionOf s) (collateralOf s).
Proof.
  intros H Hn. unfold commit.
  generalize (negb (bool_decide (deps1 (provider a) (state a) = deps1 p new))) as c1.
  generalize (negb (bool_decide (deps2 (state a) = deps2 new))) as c2. intros c2 c1.
  destruct (if c1 then cleanup1 a else (None, a)) as [q1 a1] eqn:E1.
  assert (about a1 /\ forall s, q1 = Some s -> P (versionOf s) (collateralOf s)) as [H1 Hq1].
  { destruct c1; [|by injection E1 as <- <-].
    destruct (about_cleanup1 a q1 a1 H E1) as (? & _ & ?). done. }
  set (a2 := if c2 then cleanup2 a1 else a1).
  assert (about a2) as H2 by (unfold a2; destruct c2; [by apply about_cleanup2|done]).
  set (a3 := mk p new _ _ _ _ _ _).
  assert (about a3) as H3 by (split; cbn; [done|apply H2..]).
  set (a4 := if c1 then effect1 a3 else a3).
  assert (about a4) as H4 by (unfold a4; destruct c1; [by apply about_effect1|done]).
  destruct (if c2 then effect2 a4 else (None, a4)) as [q2 a5] eqn:E5.
  assert (about a5 /\ forall s, q2 = Some s -> P (versionOf s) (collateralOf s)) as [H5 Hq2].
  { destruct c2; [|by injection E5 as <- <-]. by apply (about_effect2 a4). }
  intros [= <- <-]. split; [done|]. intros s. destruct q2 as [s2|].
  - intros [= <-]. by apply Hq2.
  - apply Hq1.
Qed.

Lemma about_settle n p new a a' :
  about a -> P (versionOf new) (collateralOf new) -> settle n p new a = Some a' -> about a'.
Proof.
  revert new a. induction n as [|n IH]; intros new a H Hn; [done|]. cbn [settle].
  destruct (commit p new a) as [q a1] eqn:E. destruct (about_commit p new a q a1 H Hn E) as [H1 Hq].
  destruct q as [s|]; [|by intros [= <-] ]. apply IH; [done|]. by apply Hq.
Qed.

Lemma about_sends x n a :
  about a -> (forall k id v c, x !! k = Some (id, v, c) -> P v c) -> about (with_sends x n a).
Proof. intros H Hx. split; cbn; [apply H..|exact Hx]. Qed.

Lemma about_monitors x a :
  about a -> (forall k m, x !! k = Some m -> P (m_version m) (m_collateral m)) ->
  about (with_monitors x a).
Proof. intros H Hx. split; cbn; [apply H|exact Hx|apply H..]. Qed.

Lemma about_finish mid m asking a :
  about a -> monitors a !! mid = Some m ->
  about (with_monitors (<[mid := finish asking m]> (monitors a)) a).
Proof.
  intros H E. apply about_monitors; [done|]. intros k x. rewrite lookup_insert_Some.
  intros [ [_ <-] | [_ Hk] ]; [exact (ab_monitors _ H mid m E)|by apply (ab_monitors _ H k)].
Qed.

Lemma about_forget n a : about a -> about (forgetTimer n a).
Proof.
  intros H. split; cbn [forgetTimer state monitors timers sends]; try apply H.
  intros k x. rewrite lookup_delete_Some. intros [_ Hk]. by apply (ab_timers _ H k).
Qed.

Lemma about_step e a a' :
  about a -> (forall id v c, e = Click id v c -> P v c) -> step e a = Some a' -> about a'.
Proof.
  intros H He.
  assert (forall sid id v c, sends a !! sid = Some (id, v, c) ->
            about (with_sends (delete sid (sends a)) (fresh a) a)) as Hd.
  { intros sid id v c _. apply about_sends; [done|]. intros k id' v' c'.
    rewrite lookup_delete_Some. intros [_ Hk]. by apply (ab_sends _ H k id'). }
  destruct e as [id v c|sid tx|sid message|mid answer|mid reason|tid|p]; cbn [step].
  - unfold sendTransaction, setTransactionState. apply about_settle; [|by apply (He id)].
    apply about_sends; [done|]. intros k id' v' c'. rewrite lookup_insert_Some.
    intros [ [_ [= <- <- <-] ] | [_ Hk] ]; [by apply (He id)|by apply (ab_sends _ H k id')].
  - unfold sent. destruct (sends a !! sid) as [ [ [id v] c]|] eqn:E; [|done].
    apply about_settle; [by eapply Hd|by apply (ab_sends _ H sid id)].
  - unfold sendFailed. destruct (sends a !! sid) as [ [ [id v] c]|] eqn:E; [|done].
    apply about_settle; [by eapply Hd|]. destruct (denied message); by apply (ab_sends _ H sid id).
  - unfold receiptAnswered. destruct (monitors a !! mid) as [m|] eqn:E; [|done]. cbn [mbind option_bind].
    destruct (m_finished m); [done|].
    destruct (m_cancelled m).
    { intros [= <-]. apply about_monitors; [done|]. intros k x. rewrite lookup_delete_Some.
      intros [_ Hk]. by apply (ab_monitors _ H k). }
    pose proof (about_finish mid m false a H E) as Hf.
    pose proof (ab_monitors _ H mid m E) as Hm.
    destruct answer; [by apply about_settle| |by apply about_settle..].
    intros [= <-]. by apply about_finish.
  - unfold reasonAnswered. destruct (monitors a !! mid) as [m|] eqn:E; [|done]. cbn [mbind option_bind].
    destruct (negb (m_askingReason m)); [done|].
    pose proof (about_finish mid m false a H E) as Hf.
    destruct (m_cancelled m); [by intros [= <-]|].
    apply about_settle; [done|]. by apply (ab_monitors _ H mid).
  - unfold timerFired. destruct (timers a !! tid) as [x|] eqn:E; [|done]. cbn [mbind option_bind].
    destruct (t_cancelled x); [intros [= <-]; by apply about_forget|].
    destruct (setTransactionState _ a) as [a1|] eqn:E1; [|done]. cbn. intros [= <-].
    apply about_forget. revert E1. apply about_settle; [done|]. by apply (ab_timers _ H tid).
  - apply about_settle; [done|apply H].
Qed.

Lemma about_run es : forall a a',
  about a -> (forall id v c, In (Click id v c) es -> P v c) -> run es a = Some a' -> about a'.
Proof.
  induction es as [|e es IH]; intros a a' H He; cbn [run]; [by intros [= <-]|].
  destruct (step e a) as [a1|] eqn:E; [|done]. cbn [mbind option_bind]. apply IH.
  - apply (about_step e a a1 H); [|done]. intros id v c ->. apply (He id). by left.
  - intros id v c Hin. apply (He id). by right.
Qed.

End Surplus.

(** The claim is offered while the shared state is about the Vault's version and collateral and is
    not the claim's own transaction, waiting or confirmed. *)
Lemma claim_iff (v c : string) (x : TransactionState) :
  Surplus.render v c x = Surplus.Claim <->
  checkTransactionCollateral x v c = true /\
  ~ (idOf x = Some Surplus.transactionId /\
     (typeOf x = TwaitingForApproval \/ typeOf x = TwaitingForConfirmation \/ typeOf x = Tconfirmed)).
Proof.
  unfold Surplus.render, useMyTransactionState.
  destruct (checkTransactionCollateral x v c) eqn:E; cbn [andb].
  2: { unfold checkTransactionCollateral in *. cbn [versionOf collateralOf typeOf] in *. rewrite E.
       by split; [|intros [? _] ]. }
  destruct (idOf x) as [id|] eqn:Eid.
  - destruct (String.eqb_spec Surplus.transactionId id) as [<-|Hn].
    + rewrite E. destruct (typeOf x); (split; [intros H; split; [done|]; intros [_ [|[|] ] ]; done|
        intros [_ H]; try done; exfalso; apply H; auto]).
    + cbn [typeOf]. unfold checkTransactionCollateral in *. cbn [versionOf collateralOf]. rewrite E.
      split; [|done]. intros _. split; [done|]. intros [ [= H] _]. by subst.
  - cbn [typeOf]. unfold checkTransactionCollateral in *. cbn [versionOf collateralOf]. rewrite E.
    split; [|done]. intros _. split; [done|]. by intros [? _].
Qed.

(** The surplus of a liquidated or redeemed Vault cannot be claimed until some other
    transaction has been sent for the same version and collateral: in every state the transactions
    of other stores can lead to from the start of the application, nothing is rendered where the
    button "Claim" belongs. *)
Theorem surplus_needs_transaction (v c : string) (es : list Event) (a : t) :
  run es init = Some a -> (v <> "" \/ c <> "") -> (forall id, ~ In (Click id v c) es) ->
  Surplus.render v c (state a) = Surplus.Nothing /\
  Surplus.sends (Surplus.render v c (state a)) = None.
Proof.
  intros E Hv Hes.
  assert (about (fun v' c' => (v', c') <> (v, c)) a) as H.
  { apply (about_run _ es init a); [|intros id v' c' Hin [= -> ->]; by apply (Hes id)|done].
    split; cbn; [intros [= <- <-]; by destruct Hv|done..]. }
  assert (checkTransactionCollateral (state a) v c = false) as Hc.
  { apply not_true_is_false. unfold checkTransactionCollateral. rewrite andb_true_iff, !String.eqb_eq.
    intros [H1 H2]. apply (ab_state _ _ H). by rewrite H1, H2. }
  unfold Surplus.render, useMyTransactionState. rewrite Hc. cbn [andb typeOf].
  unfold checkTransactionCollateral in *. cbn [versionOf collateralOf]. by rewrite Hc.
Qed.

(** With a transaction of another collateral confirmed, the claim is still missing. *)
Lemma surplus_needs_transaction_witness :
  exists a, run [Click "vault-closure" "v1" "eth"; Sent 0 7] init = Some a /\
    Surplus.render "v1" "tbtc" (state a) = Surplus.Nothing.
Proof.
  assert (exists a, run [Click "vault-closure" "v1" "eth"; Sent 0 7] init = Some a) as [a E]
    by (eexists; vm_compute; reflexivity).
  exists a. split; [exact E|].
  refine (proj1 (surplus_needs_transaction "v1" "tbtc" _ a E _ _)); [by left|].
  intros id [H|[H|[] ] ]; discriminate H.
Defined.

(** A liquidated Vault with a surplus offers to open a Vault all the same, and a redeemed one does
    so for a collateral that is not on the mint list. *)
Lemma panels_offer {BN : BigNumberOps} {BL : BigNumberLaws BN} (balance : Decimal.t) (mint : bool) :
  Panel.LiquidatedVaultOffer balance mint =
    Panel.mkOffer (negb (units balance =? 0)%N) (Some (negb (units balance =? 0)%N || mint)) /\
  Panel.RedeemedVaultOffer balance mint =
    Panel.mkOffer (negb (units balance =? 0)%N)
      (if (units balance =? 0)%N then Some true else None).
Proof.
  unfold Panel.LiquidatedVaultOffer, Panel.RedeemedVaultOffer. rewrite isZero_ok.
  destruct (units balance =? 0)%N, mint; done.
Qed.

#[local] Existing Instance Z_bignumber.
#[local] Existing Instance Z_bignumber_laws.

Definition coins (n : N) : Decimal.t := Decimal.mk (n * 10 ^ 18).

Lemma stability_form_witness :
  exists g sent,
    StabilityForms.figures (StabilityForms.mkSelected (coins 500) (coins 1000)
      (StabilityDeposit.mk (coins 100) (coins 90) (coins 1)) true "tBTC")
      (StabilityDeposit.mk (coins 100) (coins 90) (coins 1)) (coins 40) = Ok g /\
    StabilityForms.confirms "v1" "tbtc" (StabilityForms.mkSelected (coins 500) (coins 1000)
      (StabilityDeposit.mk (coins 100) (coins 90) (coins 1)) true "tBTC")
      (VaultValidation.mkDepositContext (coins 500) false)
      (StabilityDepositManager.mkState (StabilityDeposit.mk (coins 100) (coins 90) (coins 1)) (coins 40)
         false) = Ok sent /\
    (units (StabilityForms.newPoolShare g) <= 100 * SCALE)%N.
Proof.
  destruct (stability_form "v1" "tbtc" (StabilityForms.mkSelected (coins 500) (coins 1000)
      (StabilityDeposit.mk (coins 100) (coins 90) (coins 1)) true "tBTC")
      (VaultValidation.mkDepositContext (coins 500) false)
      (StabilityDepositManager.mkState (StabilityDeposit.mk (coins 100) (coins 90) (coins 1)) (coins 40)
         false)) as (g & sent & Hg & Hs & Ha & _ & Hb & _).
  { vm_compute. discriminate. }
  exists g, sent. split; [exact Hg|]. split; [exact Hs|]. apply Hb. intros H0. rewrite H0 in Ha.
  revert Ha. vm_compute. discriminate.
Defined.

End DepositFormsProperties.
