(* ===== verification/Wallets.v ===== *)
(** * The wallet, the configuration and the connections of the frontend

    [dev-frontend/src]: the configuration file ([config/index.ts]), the connection to a wallet
    ([components/WalletConnector.tsx], [hooks/useAuthorizedConnection.ts]) and
    [hooks/ThresholdContext.tsx], which connects to every deployment of the wallet's network and
    hands the stores to the application.  The wallet library is a sequence of inputs; the answers
    of the network are events. *)

From S2P Require Import Prelude Connection.

Local Open Scope Z_scope.

(** ** [config/index.ts] *)
Module Config.

(** What [JSON.parse] answers. *)
#[warnings="-register-all"]
Inductive Json : Type :=
| JNull
| JBool (b : bool)
| JNumber (text : string)
| JString (s : string)
| JArray (l : list Json)
| JObject (o : JsObject.t Json).

Record ThresholdConfig : Type := mkConfig {
  infuraApiKey : option string;
  testnetOnly : option bool;
  historicalApiUrl : option string;
}.

Definition defaultConfig : ThresholdConfig := mkConfig None None None.

(** A property that is to be a string: an empty or a malformed one is left out. *)
Definition stringProperty (key : string) (o : JsObject.t Json) : option string :=
  match JsObject.get key o with
  | Some (JString s) => if String.eqb s "" then None else Some s
  | _ => None
  end.

Definition boolProperty (key : string) (o : JsObject.t Json) : option bool :=
  match JsObject.get key o with
  | Some (JBool b) => Some b
  | _ => None
  end.

(** An array is an object without these properties. *)
Definition parseConfig (json : Json) : ThresholdConfig :=
  match json with
  | JObject o => mkConfig (stringProperty "infuraApiKey" o) (boolProperty "testnetOnly" o)
                   (stringProperty "historicalApiUrl" o)
  | _ => defaultConfig
  end.

(** What [fetch("config.json")] may lead to. *)
Inductive Response : Type :=
| Unreachable
| Status (ok : bool) (body : option Json).

Definition fetchConfig (r : Response) : ThresholdConfig :=
  match r with
  | Status true (Some json) => parseConfig json
  | _ => defaultConfig
  end.

(** [getConfig] fetches once: [configPromise] is the answer of the first call, and later ones do
    not fetch. *)
Definition getConfig (configPromise : option ThresholdConfig) (response : Response) :
    ThresholdConfig * option ThresholdConfig :=
  match configPromise with
  | Some c => (c, configPromise)
  | None => (fetchConfig response, Some (fetchConfig response))
  end.

End Config.

(** ** [WalletConnector.tsx] *)
Module WalletConnector.

(** Connectors are objects. *)
Inductive ConnectionState : Type :=
| inactive
| activating (connector : N)
| active (connector : N)
| rejectedByUser (connector : N)
| alreadyPending (connector : N)
| failed (connector : N).

Inductive ConnectionAction : Type :=
| startActivating (connector : N)
| fail (message : string)
| finishActivating
| retry
| cancel
| deactivate.

Definition connectorOf (s : ConnectionState) : option N :=
  match s with
  | inactive => None
  | activating c | active c | rejectedByUser c | alreadyPending c | failed c => Some c
  end.

Section Reducer.
(** [injectedConnector], and whether a message matches [/user rejected/i] and
    [/already pending/i]. *)
Context (injectedConnector : N) (userRejected pending : string -> bool).

Definition connectionReducer (state : ConnectionState) (action : ConnectionAction) :
    ConnectionState :=
  match action with
  | startActivating connector => activating connector
  | finishActivating => active (default injectedConnector (connectorOf state))
  | fail message =>
      match connectorOf state with
      | Some c => if userRejected message then rejectedByUser c
                  else if pending message then alreadyPending c else failed c
      | None => state
      end
  | retry => match connectorOf state with Some c => activating c | None => state end
  | cancel | deactivate => inactive
  end.

(** What the wallet library tells: whether it is active, and its error, an object. *)
Record Web3 : Type := mkWeb3 {
  isActive : bool;
  error : option (Obj string);
}.

(** The mounted component: [seen] are the dependencies its effects last ran with. *)
Record t : Type := mk {
  state : ConnectionState;
  tried : bool;
  web3 : Web3;
  seen : option Web3;
}.

Definition errorChanged (a : t) : bool :=
  match seen a with
  | Some w => negb (bool_decide (option_map fst (error w) = option_map fst (error (web3 a))))
  | None => true
  end.
Definition activeChanged (a : t) : bool :=
  match seen a with
  | Some w => negb (Bool.eqb (isActive w) (isActive (web3 a)))
  | None => true
  end.

(** The effects of [useAuthorizedConnection] (once active, it has finished) and of the component,
    in their order.  The call of [deactivate] changes the wallet library, an input. *)
Definition effects (a : t) : t :=
  let s := match error (web3 a) with
           | Some e => if errorChanged a then connectionReducer (state a) (fail (snd e)) else state a
           | None => state a
           end in
  let s := if activeChanged a
           then connectionReducer s (if isActive (web3 a) then finishActivating else deactivate)
           else s in
  mk s (tried a || (activeChanged a && isActive (web3 a))) (web3 a) (Some (web3 a)).

Definition start (w : Web3) : t := effects (mk inactive false w None).

Inductive Shown : Type :=
| Loader
| Children
| ConnectButton (spinning : bool).

Definition render (a : t) : Shown :=
  if negb (tried a) then Loader
  else match state a with
       | active _ => Children
       | activating _ | alreadyPending _ => ConnectButton true
       | _ => ConnectButton false
       end.

Inductive Event : Type :=
| Web3Changed (w : Web3)
| Unauthorized
| PressConnect.

(** The button is there only when it is rendered. *)
Definition handle (e : Event) (a : t) : t :=
  match e with
  | Web3Changed w => mk (state a) (tried a) w (seen a)
  | Unauthorized => mk (state a) true (web3 a) (seen a)
  | PressConnect =>
      match render a with
      | ConnectButton _ =>
          mk (connectionReducer (state a) (startActivating injectedConnector)) (tried a) (web3 a)
            (seen a)
      | _ => a
      end
  end.

Definition step (a : t) (e : Event) : t := effects (handle e a).

Definition run (w : Web3) (es : list Event) : t := fold_left step es (start w).

End Reducer.
End WalletConnector.

(** ** [ThresholdContext.tsx] *)
Module ThresholdProvider.
Import Connection.

Definition truthyChain (chainId : option Z) : option Z :=
  match chainId with Some 0 | None => None | Some c => Some c end.
Definition truthyAccount (account : option string) : option string :=
  match account with Some a => if String.eqb a "" then None else Some a | None => None end.

(** [chainId in supportedNetworks] *)
Definition supported (chainId : Z) : bool :=
  JsObject.has (Js.dec_string chainId) supportedNetworks.

Section ThresholdProvider.
Context {Net : Network}.
Variable getSigner : Provider -> string -> Signer.
(** Providers are objects, compared by their identity. *)
Variable objects : N -> Provider.

(** What [useWeb3React] answers. *)
Record Web3 : Type := mkWeb3 {
  w_chainId : option Z;
  w_provider : option N;
  w_account : option string;
}.

(** The closure of one request for the deployments of the network. *)
Record Request : Type := mkRequest {
  r_chainId : Z;
  r_provider : N;
  r_account : string;
}.

(** An element of [threshold]. *)
Record Threshold : Type := mkThreshold {
  t_collateral : string;
  t_version : string;
  t_connection : Connection.t;
}.

(** The dependencies the three effects last ran with. *)
Record Deps : Type := mkDeps {
  d_chainId : option Z;
  d_provider : option N;
  d_account : option string;
  d_config : bool;
  d_connections : option N;
}.

(** The mounted provider.  The identity of [connections] is the number of the request they answer;
    [requests] keeps the answered ones, with a mark. *)
Record t : Type := mk {
  web3 : Web3;
  config : option Config.ThresholdConfig;
  connections : option (Obj (list Connection.t));
  threshold : list Threshold;
  requests : gmap N (Request * bool);
  fresh : N;
  seen : option Deps;
}.

Definition depsOf (a : t) : Deps :=
  mkDeps (w_chainId (web3 a)) (w_provider (web3 a)) (w_account (web3 a))
    (match config a with Some _ => true | None => false end) (option_map fst (connections a)).

(** [!chainId || !(chainId in supportedNetworks)] *)
Definition unsupportedChain (w : Web3) : bool :=
  match truthyChain (w_chainId w) with Some c => negb (supported c) | None => true end.

Definition thresholdOf (c : Connection.t) : Threshold :=
  mkThreshold (deploymentCollateral c) (deploymentVersion c) c.

(** What an effect sets: [connections] to undefined, and [threshold]. *)
Record Sets : Type := mkSets {
  dropsConnections : bool;
  setsThreshold : option (list Threshold);
}.

Definition noSets : Sets := mkSets false None.

(** The first effect. *)
Definition chainEffect (a : t) : Sets :=
  if unsupportedChain (web3 a) then mkSets true (Some []) else noSets.

(** The second: a request for a supported network. *)
Definition requestEffect (a : t) : Sets * option Request :=
  match truthyChain (w_chainId (web3 a)), w_provider (web3 a), truthyAccount (w_account (web3 a)),
        config a with
  | Some chainId, Some provider, Some account, Some _ =>
      if supported chainId then (noSets, Some (mkRequest chainId provider account))
      else (mkSets true (Some []), None)
  | _, _, _, _ => (noSets, None)
  end.

(** The last one: the stores of the connections, unless there are none. *)
Definition storesEffect (a : t) : Sets :=
  if unsupportedChain (web3 a) then mkSets true None
  else match config a, connections a with
       | Some _, Some (_, c :: cs) => mkSets false (Some (map thresholdOf (c :: cs)))
       | _, _ => noSets
       end.

(** Whether each effect runs: its dependencies have changed. *)
Definition changed {B} `{EqDecision B} (dependencies : Deps -> B) (a : t) : bool :=
  match seen a with
  | Some s => negb (bool_decide (dependencies s = dependencies (depsOf a)))
  | None => true
  end.
Definition chainChanged : t -> bool := changed d_chainId.
Definition requestChanged : t -> bool :=
  changed (fun d => (d_chainId d, d_provider d, d_account d, d_config d)).
Definition storesChanged : t -> bool :=
  changed (fun d => (d_config d, d_connections d, d_chainId d)).

(** A render with the effects whose dependencies have changed. *)
Definition commit (a : t) : t :=
  let s1 := if chainChanged a then chainEffect a else noSets in
  let '(s2, request) := if requestChanged a then requestEffect a else (noSets, None) in
  let s3 := if storesChanged a then storesEffect a else noSets in
  let last (x y : option (list Threshold)) := match y with Some _ => y | None => x end in
  mk (web3 a) (config a)
    (if dropsConnections s1 || dropsConnections s2 || dropsConnections s3 then None
     else connections a)
    (default (threshold a) (last (last (setsThreshold s1) (setsThreshold s2)) (setsThreshold s3)))
    (match request with Some r => <[fresh a := (r, false)]> (requests a) | None => requests a end)
    (match request with Some _ => fresh a + 1 | None => fresh a end)%N
    (Some (depsOf a)).

(** The states they set cause another render, whose effects find nothing to do but to drop the
    connections again ([settled_twice]). *)
Definition rendered (a : t) : t := commit (commit a).

Definition start (w : Web3) : t := rendered (mk w None None [] ∅ 0 None).

(** The wallet changes, the configuration has been fetched, or a request is answered with the
    deployments that have arrived by then. *)
Inductive Event : Type :=
| Web3Changed (w : Web3)
| ConfigFetched (c : Config.ThresholdConfig)
| Deployments (n : N) (answer : Res CollateralsVersionedDeployments).

Definition answered (n : N) (answer : Res CollateralsVersionedDeployments) (a : t) : t :=
  match requests a !! n with
  | Some (q, false) =>
      let requests := <[n := (q, true)]> (requests a) in
      let connected :=
        let! collaterals := answer in
        getConnections getSigner (iterateVersions collaterals) (objects (r_provider q)) (r_account q)
          (r_chainId q) in
      mk (web3 a) (config a)
        (match connected with Ok cs => Some (n, cs) | Throw _ => connections a end)
        (threshold a) requests (fresh a) (seen a)
  | _ => a
  end.

Definition handle (a : t) (e : Event) : t :=
  match e with
  | Web3Changed w =>
      mk w (config a) (connections a) (threshold a) (requests a) (fresh a) (seen a)
  | ConfigFetched c =>
      mk (web3 a) (match config a with None => Some c | Some _ => config a end) (connections a)
        (threshold a) (requests a) (fresh a) (seen a)
  | Deployments n answer => answered n answer a
  end.

Definition step (a : t) (e : Event) : t := rendered (handle a e).
Definition run (w : Web3) (es : list Event) : t := fold_left step es (start w).

(** ** What is rendered *)

Inductive Shown : Type :=
| Loader
| UnsupportedMainnet
| UnsupportedNetwork (chainId : Z)
| Children (config : Config.ThresholdConfig) (account : string) (provider : N)
    (threshold : list Threshold).

Definition render (a : t) : Shown :=
  match config a, w_provider (web3 a), truthyAccount (w_account (web3 a)),
        truthyChain (w_chainId (web3 a)) with
  | Some config, Some provider, Some account, Some chainId =>
      if chainId =? 1 then UnsupportedMainnet
      else match connections a with
           | Some (_, connections) =>
               if negb (supported chainId) then UnsupportedNetwork chainId
               else if negb (Nat.eqb (length (threshold a)) (length connections)) then Loader
               else Children config account provider (threshold a)
           | None => UnsupportedNetwork chainId
           end
  | _, _, _, _ => Loader
  end.

End ThresholdProvider.
End ThresholdProvider.

(** ** Properties *)
Module WalletProperties.
Import WalletConnector.

Section Connector.
Context (injectedConnector : N) (userRejected pending : string -> bool).

(** An error is told of an inactive wallet only, as the wallet library documents. *)
Definition consistent (w : Web3) : Prop := error w <> None -> isActive w = false.
Definition consistent_event (e : Event) : Prop :=
  match e with Web3Changed w => consistent w | _ => True end.

(** The component is active with the wallet, and has tried by then. *)
Definition follows (a : t) : Prop :=
  consistent (web3 a) /\ seen a = Some (web3 a) /\
  ((exists c, state a = active c) <-> isActive (web3 a) = true) /\
  (isActive (web3 a) = true -> tried a = true).

Lemma effects_follow a :
  consistent (web3 a) ->
  (activeChanged a = false -> ((exists c, state a = active c) <-> isActive (web3 a) = true) /\
                              (isActive (web3 a) = true -> tried a = true)) ->
  follows (effects injectedConnector userRejected pending a).
Proof.
  intros Hc Hk. unfold follows, effects. cbn [web3 seen state tried]. split; [done|]. split; [done|].
  destruct (activeChanged a) eqn:E; cbn [andb].
  - destruct (isActive (web3 a)); cbn [connectionReducer orb andb].
    + split; [split; [done|by eexists]|]. by rewrite orb_true_r.
    + split; [split; [by intros [c Hc']|done]|done].
  - destruct Hk as [Hk Ht]; [done|]. rewrite orb_false_r. split; [|done].
    destruct (error (web3 a)) as [er|] eqn:Ee; [|done].
    assert (isActive (web3 a) = false) as Hi by (apply Hc; by rewrite Ee).
    rewrite Hi in *. split; [|done]. intros [c Hc']. exfalso.
    destruct (errorChanged a); [|by destruct Hk as [Hk _]; discriminate Hk; eexists].
    cbn [connectionReducer] in Hc'.
    destruct (connectorOf (state a)); [by destruct (userRejected (snd er)), (pending (snd er))|].
    destruct Hk as [Hk _]. discriminate Hk. by eexists.
Qed.

Lemma step_follows a e :
  follows a -> consistent_event e -> follows (step injectedConnector userRejected pending a e).
Proof.
  intros (Hc & Hs & Ha & Ht) He. unfold step. apply effects_follow.
  - destruct e; cbn [handle web3]; try done. by destruct (render a).
  - destruct e as [w| |]; cbn [handle].
    + unfold activeChanged. cbn [seen web3 state tried]. rewrite Hs.
      intros E%negb_false_iff%eqb_prop. by rewrite <- E.
    + intros _. cbn [state tried web3]. done.
    + intros _. destruct (render a) eqn:Er; try done. cbn [state tried web3].
      assert (isActive (web3 a) = false) as ->; [|split; [split; [by intros [c ?]|done]|done] ].
      apply not_true_is_false. intros Hi. destruct (proj2 Ha Hi) as [c Hc'].
      unfold render in Er. rewrite Ht, Hc' in Er by done. discriminate Er.
Qed.

(** The application is shown exactly while the wallet is active, whatever the presses of the
    button, the errors and the changes of the wallet: an error or a wallet that goes away takes it
    off the screen. *)
Theorem wallet_gate (w : Web3) (es : list Event) :
  consistent w -> Forall consistent_event es ->
  let a := run injectedConnector userRejected pending w es in
  render a = Children <-> isActive (web3 a) = true.
Proof.
  intros Hw He a. assert (follows a) as (_ & _ & Ha & Ht).
  { unfold a, run. assert (follows (start injectedConnector userRejected pending w)) as H0.
    { unfold start. apply effects_follow; [done|]. unfold activeChanged. done. }
    clear a Hw. revert H0. generalize (start injectedConnector userRejected pending w).
    induction He as [|e es He _ IH]; intros a H; cbn [fold_left]; [done|].
    apply IH. by apply step_follows. }
  unfold render. destruct (tried a) eqn:E; cbn [negb].
  - rewrite <- Ha. destruct (state a); split; try done; try (intros [c [=] ]); by eexists.
  - split; [done|]. intros H. discriminate (Ht H).
Qed.

End Connector.
End WalletProperties.

Module ThresholdProviderProperties.
Import Connection ThresholdProvider.

Section ThresholdProvider.
Context {Net : Network}.
Variable getSigner : Provider -> string -> Signer.
Variable objects : N -> Provider.

Notation t := (@ThresholdProvider.t Net).
Notation step := (@ThresholdProvider.step Net getSigner objects).
Notation run := (@ThresholdProvider.run Net getSigner objects).

(** ** Renders *)

(** The second of the two renders of [rendered] has nothing left to do. *)
Lemma commit_twice (a : t) :
  commit (commit a) =
    let b := commit a in
    mk (web3 b) (config b) (connections b) (threshold b) (requests b) (fresh b) (Some (depsOf b)).
Proof.
  set (b := commit a). assert (seen b = Some (depsOf a)) as Hs.
  { unfold b, commit. by repeat case_match. }
  assert (connections b = connections a \/ connections b = None) as Hc.
  { unfold b, commit. repeat case_match; cbn [connections]; auto. }
  assert (web3 b = web3 a) as Hw by (unfold b, commit; by repeat case_match).
  assert (config b = config a) as Hg by (unfold b, commit; by repeat case_match).
  clearbody b. cbn zeta. unfold commit, chainChanged, requestChanged, storesChanged, changed.
  rewrite Hs.
  assert (d_chainId (depsOf a) = d_chainId (depsOf b)) as -> by (cbn; by rewrite Hw).
  assert (d_provider (depsOf a) = d_provider (depsOf b)) as -> by (cbn; by rewrite Hw).
  assert (d_account (depsOf a) = d_account (depsOf b)) as -> by (cbn; by rewrite Hw).
  assert (d_config (depsOf a) = d_config (depsOf b)) as -> by (cbn; by rewrite Hg).
  rewrite !(bool_decide_true (_ = _)) by done. cbn [negb].
  destruct Hc as [Hc|Hc].
  - assert (d_connections (depsOf a) = d_connections (depsOf b)) as -> by (cbn; by rewrite Hc).
    rewrite bool_decide_true by done. done.
  - rewrite Hc. unfold storesEffect. rewrite Hc.
    repeat case_match; done.
Qed.

(** The request that is current: all that is needed is there. *)
Definition current (a : t) : option Request :=
  match truthyChain (w_chainId (web3 a)), w_provider (web3 a), truthyAccount (w_account (web3 a)),
        config a with
  | Some chainId, Some provider, Some account, Some _ =>
      if supported chainId then Some (mkRequest chainId provider account) else None
  | _, _, _, _ => None
  end.

Definition unsupported_empty (a : t) : Prop :=
  unsupportedChain (web3 a) = true -> connections a = None /\ threshold a = [].
Definition requested (a : t) : Prop :=
  forall q, current a = Some q ->
    exists m mark, fresh a = (m + 1)%N /\ requests a !! m = Some (q, mark).
Definition stored (a : t) : Prop :=
  forall g x c cs, config a = Some g -> connections a = Some (x, c :: cs) ->
    threshold a = map thresholdOf (c :: cs).
Definition from_answers (a : t) : Prop :=
  (forall n cs, connections a = Some (n, cs) ->
     exists q collaterals, requests a !! n = Some (q, true) /\
       getConnections getSigner (iterateVersions collaterals) (objects (r_provider q)) (r_account q)
         (r_chainId q) = Ok cs) /\
  (forall n r, requests a !! n = Some r -> (n < fresh a)%N /\ supported (r_chainId (fst r)) = true).

Definition settled (a : t) : Prop :=
  unsupported_empty a /\ requested a /\ stored a /\ from_answers a.

(** What a change leaves for the effects that run: all of it holds where they do not. *)
Definition pending (a : t) : Prop :=
  from_answers a /\
  (chainChanged a = false -> unsupportedChain (web3 a) = true -> threshold a = []) /\
  (requestChanged a = false -> requested a) /\
  (storesChanged a = false ->
     stored a /\ (unsupportedChain (web3 a) = true -> connections a = None)).

Lemma commit_kept (a : t) :
  web3 (commit a) = web3 a /\ config (commit a) = config a /\ seen (commit a) = Some (depsOf a).
Proof. unfold commit. by repeat case_match. Qed.

Lemma current_supported (a : t) q :
  current a = Some q -> unsupportedChain (web3 a) = false /\ supported (r_chainId q) = true.
Proof.
  unfold current, unsupportedChain. repeat case_match; try done. intros [= <-]. by subst.
Qed.

Lemma requestEffect_current (a : t) :
  requestEffect a =
    (if unsupportedChain (web3 a) then fst (requestEffect a) else noSets, current a) /\
  (setsThreshold (fst (requestEffect a)) = None \/
   setsThreshold (fst (requestEffect a)) = Some []).
Proof.
  unfold requestEffect, current, unsupportedChain. repeat case_match; cbn; simplify_eq; auto.
Qed.

(** On an unsupported network all is empty after a render. *)
Lemma commit_unsupported (a : t) :
  pending a -> unsupportedChain (web3 a) = true ->
  connections (commit a) = None /\ threshold (commit a) = [] /\
  requests (commit a) = requests a /\ fresh (commit a) = fresh a.
Proof.
  intros (_ & H1 & _ & H3) Hu. destruct (requestEffect_current a) as [Hr Ht]. rewrite Hu in Hr.
  assert (current a = None) as Hn.
  { destruct (current a) as [q|] eqn:E; [|done]. apply current_supported in E as [E _]. congruence. }
  rewrite Hn in Hr. unfold commit. rewrite Hr. clear Hr.
  unfold chainEffect, storesEffect. rewrite Hu.
  destruct (chainChanged a), (requestChanged a), (storesChanged a); cbn;
    rewrite ?orb_true_r; cbn; destruct Ht as [Ht|Ht]; rewrite ?Ht; cbn;
    repeat split; try done; try (by apply H1); try (by apply H3);
    repeat case_match; try done; by apply H3.
Qed.

(** On a supported one the connections stay, and their stores are shown. *)
Lemma commit_supported (a : t) :
  unsupportedChain (web3 a) = false ->
  connections (commit a) = connections a /\
  threshold (commit a) =
    (if storesChanged a then default (threshold a) (setsThreshold (storesEffect a))
     else threshold a) /\
  (requests (commit a), fresh (commit a)) =
    match (if requestChanged a then current a else None) with
    | Some q => (<[fresh a := (q, false)]> (requests a), (fresh a + 1)%N)
    | None => (requests a, fresh a)
    end.
Proof.
  intros Hu. destruct (requestEffect_current a) as [Hr _]. rewrite Hu in Hr.
  unfold commit. rewrite Hr. unfold chainEffect. rewrite Hu.
  assert (dropsConnections (storesEffect a) = false) as Hd.
  { unfold storesEffect. rewrite Hu. by repeat case_match. }
  destruct (chainChanged a), (requestChanged a), (storesChanged a), (current a); cbn;
    rewrite ?Hd; repeat split; try done; by destruct (setsThreshold (storesEffect a)).
Qed.

Lemma current_commit (a : t) : current (commit a) = current a.
Proof. destruct (commit_kept a) as (Hw & Hg & _). unfold current. by rewrite Hw, Hg. Qed.

Lemma commit_settled (a : t) : pending a -> settled (commit a).
Proof.
  intros Hp. destruct (commit_kept a) as (Hw & Hg & _). unfold settled, unsupported_empty.
  destruct (unsupportedChain (web3 a)) eqn:Hu.
  - destruct (commit_unsupported a Hp Hu) as (Hc & Ht & Hr & Hf).
    destruct Hp as ([_ Hp] & _). repeat split.
    + done.
    + done.
    + intros q Hq. rewrite current_commit in Hq. apply current_supported in Hq as [Hq _]. congruence.
    + intros g x c cs _ Hx. by rewrite Hc in Hx.
    + intros n cs Hx. by rewrite Hc in Hx.
    + rewrite Hf. rewrite Hr in H. by apply (Hp n r).
    + rewrite Hr in H. by apply (Hp n r).
  - destruct (commit_supported a Hu) as (Hc & Ht & Hr).
    destruct Hp as ([Hn Hq] & _ & H2 & H3).
    split; [by rewrite Hw, Hu|]. split; [|split].
    + intros q. rewrite current_commit. intros Hcur. rewrite Hcur in Hr.
      destruct (requestChanged a).
      * injection Hr as -> ->. exists (fresh a), false. by rewrite lookup_insert_eq.
      * injection Hr as -> ->. by apply H2.
    + intros g x c cs Hg' Hx. rewrite Hg in Hg'. rewrite Hc in Hx. rewrite Ht.
      destruct (storesChanged a).
      * unfold storesEffect. by rewrite Hu, Hg', Hx.
      * destruct H3 as [H3 _]; [done|]. by eapply H3.
    + assert (forall n r, requests a !! n = Some r -> requests (commit a) !! n = Some r) as Hkeep.
      { intros n r H. destruct (if requestChanged a then current a else None); injection Hr as -> _;
          [|done]. rewrite lookup_insert_ne; [done|]. apply Hq in H as [H _]. lia. }
      split.
      * intros n cs Hx. rewrite Hc in Hx. apply Hn in Hx as (q & ds & H & Hcs).
        exists q, ds. split; [by apply Hkeep|done].
      * intros n r H. destruct (if requestChanged a then current a else None) as [q|] eqn:E;
          injection Hr as Hr Hf; rewrite Hr in H; rewrite Hf; [|by apply Hq].
        apply lookup_insert_Some in H as [ [<- <-]|[_ H] ].
        -- split; [lia|]. destruct (requestChanged a); [|done]. by apply current_supported in E as [_ E].
        -- apply Hq in H as [H ?]. split; [lia|done].
Qed.

Lemma rendered_settled (a : t) :
  pending a -> settled (rendered a) /\ seen (rendered a) = Some (depsOf (rendered a)).
Proof.
  intros H%commit_settled. unfold rendered. rewrite commit_twice. cbn zeta. split; [|done]. exact H.
Qed.

Lemma changed_same {B} `{EqDecision B} (f : Deps -> B) (a : t) d :
  seen a = Some d -> changed f a = false -> f d = f (depsOf a).
Proof. unfold changed. intros ->. by case_bool_decide. Qed.

Lemma unchanged_pending (a : t) : settled a -> seen a = Some (depsOf a) -> pending a.
Proof.
  intros (Hu & Hr & Hs & Hn) _. split; [done|]. split; [by intros _ H; apply Hu|].
  split; [by intros _|]. intros _. split; [done|]. intros H. by apply Hu.
Qed.

Lemma handle_pending (a : t) e :
  settled a -> seen a = Some (depsOf a) -> pending (handle getSigner objects a e).
Proof.
  intros Hset Hseen. pose proof Hset as (Hu & Hr & Hs & Hn & Hq). destruct e as [w|g|n answer]; cbn [handle].
  - unfold pending. split; [done|]. cbn [web3].
    split; [|split]; unfold chainChanged, requestChanged, storesChanged;
      intros H%(changed_same _ _ (depsOf a)); try done; cbn in H.
    + intros Hx. apply Hu. unfold unsupportedChain in *. by rewrite H.
    + injection H as H1 H2 H3. intros q. cbn. unfold current. cbn.
      rewrite <- H1, <- H2, <- H3. apply Hr.
    + injection H as H1. split; [exact Hs|]. intros Hx. apply Hu. unfold unsupportedChain in *.
      by rewrite H1.
  - unfold pending. split; [done|]. cbn [web3].
    split; [|split]; unfold chainChanged, requestChanged, storesChanged;
      intros H%(changed_same _ _ (depsOf a)); try done; cbn in H.
    + apply Hu.
    + destruct (config a) eqn:E; [|done]. intros q Hc. apply Hr. unfold current in *. cbn in *.
      by rewrite E.
    + destruct (config a) eqn:E; [|done]. split; [|apply Hu]. intros g' x c cs _. cbn. by eapply Hs.
  - unfold answered. destruct (requests a !! n) as [ [q mark]|] eqn:E.
    2: by apply unchanged_pending.
    destruct mark; [by apply unchanged_pending|].
    set (r := res_bind _ _). split; [split|split; [|split] ]; cbn [connections requests fresh].
    + intros m cs. destruct r as [cs'|er] eqn:Er.
      * intros [= <- <-]. subst r. apply res_bind_inv in Er as (ds & _ & Er). exists q, ds.
        by rewrite lookup_insert_eq.
      * intros H. destruct (Hn m cs H) as (q' & ds & Hq' & Hcs). exists q', ds.
        split; [|done]. rewrite lookup_insert_ne; [done|]. intros ->. congruence.
    + intros m r'. rewrite lookup_insert_Some. intros [ [<- <-]|[_ H] ]; [by apply (Hq n _ E)|].
      by apply Hq.
    + intros _ Hx. by apply Hu.
    + intros _ q' Hc. destruct (Hr q' Hc) as (m & mark & Hf & Hm).
      exists m. cbn. destruct (decide (n = m)) as [->|Hne].
      * exists true. rewrite lookup_insert_eq. split; [done|]. congruence.
      * exists mark. by rewrite lookup_insert_ne.
    + intros H%(changed_same _ _ (depsOf a)); [|done]. cbn in H.
      destruct r as [cs'|er] eqn:Er; cbn in H.
      * injection H as H. exfalso. destruct (connections a) as [ [n' cs]|] eqn:Hc; [|done].
        cbn in H. injection H as ->. destruct (Hn n cs eq_refl) as (q' & _ & Hq' & _). congruence.
      * split; [exact Hs|]. apply Hu.
Qed.


Lemma step_settled (a : t) e :
  settled a -> seen a = Some (depsOf a) ->
  settled (step a e) /\ seen (step a e) = Some (depsOf (step a e)).
Proof. intros H Hs. by apply rendered_settled, handle_pending. Qed.

Lemma run_settled w es : settled (run w es) /\ seen (run w es) = Some (depsOf (run w es)).
Proof.
  unfold ThresholdProvider.run. induction es as [|e es IH] using rev_ind.
  - cbn. apply rendered_settled. split; [|done]. by split; intros n ? [=].
  - rewrite fold_left_app. cbn. destruct IH. by apply step_settled.
Qed.

(** C28: whenever the application is shown, whatever the changes of the wallet and whatever the order in
    which the answers to the requests for deployments arrive, the stores it is given are those of
    the connections that one answered request led to, one per deployment; and if that request is
    the last there was, they are connections of the account, through the provider and of the
    network the application is shown with. *)
Theorem shown_stores w es g account provider stores :
  let a := run w es in
  render a = Children g account provider stores ->
  exists n q collaterals cs,
    requests a !! n = Some (q, true) /\ supported (r_chainId q) = true /\
    getConnections getSigner (iterateVersions collaterals) (objects (r_provider q)) (r_account q)
      (r_chainId q) = Ok cs /\
    stores = map thresholdOf cs /\
    (fresh a = (n + 1)%N ->
     r_account q = account /\ r_provider q = provider /\ w_chainId (web3 a) = Some (r_chainId q)).
Proof.
  intros a Hr. destruct (run_settled w es) as [(Hu & Hreq & Hs & Hn & Hq) _]. fold a in Hu, Hreq, Hs, Hn, Hq.
  clearbody a. unfold render in Hr.
  destruct (config a) as [g'|] eqn:Hg; [|done].
  destruct (w_provider (web3 a)) as [p|] eqn:Hp; [|done].
  destruct (truthyAccount (w_account (web3 a))) as [ac|] eqn:Ha; [|done].
  destruct (truthyChain (w_chainId (web3 a))) as [c|] eqn:Hc; [|done].
  destruct (c =? 1); [done|]. destruct (connections a) as [ [n cs]|] eqn:Hcs; [|done].
  destruct (supported c) eqn:Hsup; [|done]. cbn [negb] in Hr.
  destruct (Nat.eqb_spec (length (threshold a)) (length cs)) as [Hl|]; [|done].
  injection Hr as -> -> -> <-.
  destruct (Hn n cs eq_refl) as (q & ds & Hx & Hok). exists n, q, ds, cs.
  split; [done|]. split; [by apply (Hq n (q, true))|]. split; [done|]. split.
  - destruct cs as [|c' cs]; [by apply nil_length_inv|]. by eapply Hs.
  - intros Hf. destruct (Hreq (mkRequest c provider account)) as (m & mark & Hm & Hx').
    { unfold current. by rewrite Hc, Hp, Ha, Hg, Hsup. }
    assert (n = m) as -> by lia. rewrite Hx in Hx'. injection Hx' as -> _. cbn. repeat split.
    revert Hc. unfold truthyChain. by destruct (w_chainId (web3 a)) as [ [| |]|].
Qed.

(** The answer to the current request takes the application to the screen: when the
    configuration, the provider, the account and a supported network are there, there is a request
    for them, and once it is answered with deployments that can be connected to, the application is
    shown, with a store per deployment. *)
Theorem answer_shown w es g account provider chain collaterals c cs :
  let a := run w es in
  config a = Some g -> w_provider (web3 a) = Some provider ->
  truthyAccount (w_account (web3 a)) = Some account -> w_chainId (web3 a) = Some chain ->
  supported chain = true ->
  exists n mark,
    requests a !! n = Some (mkRequest chain provider account, mark) /\ fresh a = (n + 1)%N /\
    (mark = false ->
     getConnections getSigner (iterateVersions collaterals) (objects provider) account chain =
       Ok (c :: cs) ->
     render (step a (Deployments n (Ok collaterals))) =
       Children g account provider (map thresholdOf (c :: cs))).
Proof.
  intros a Hg Hp Ha Hc Hsup. destruct (run_settled w es) as [Hset Hseen]. fold a in Hset, Hseen.
  clearbody a. pose proof Hset as (_ & Hreq & _).
  assert (truthyChain (w_chainId (web3 a)) = Some chain) as Ht.
  { rewrite Hc. by destruct chain. }
  destruct (Hreq (mkRequest chain provider account)) as (n & mark & Hf & Hn).
  { unfold current. by rewrite Ht, Hp, Ha, Hg, Hsup. }
  exists n, mark. split; [done|]. split; [done|]. intros -> Hok.
  pose proof (step_settled a (Deployments n (Ok collaterals)) Hset Hseen) as [(_ & _ & Hs & _) _].
  set (b := handle getSigner objects a (Deployments n (Ok collaterals))).
  assert (web3 b = web3 a /\ config b = config a /\ connections b = Some (n, c :: cs))
    as (Hw & Hg' & Hcs).
  { unfold b. cbn. unfold answered. rewrite Hn. cbn. by rewrite Hok. }
  assert (unsupportedChain (web3 b) = false) as Hu.
  { unfold unsupportedChain. by rewrite Hw, Ht, Hsup. }
  change (step a _) with (commit (commit b)) in *. rewrite commit_twice in *. cbn zeta in *.
  destruct (commit_kept b) as (Hw' & Hg'' & _), (commit_supported b Hu) as (Hcs' & _).
  rewrite Hw' , Hg'', Hcs', Hw, Hg', Hcs, Hg in *.
  unfold render. cbn [config connections web3 threshold]. rewrite Hp, Ha, Ht.
  destruct (Z.eqb_spec chain 1) as [->|]; [discriminate Hsup|]. rewrite Hsup. cbn [negb].
  specialize (Hs g n c cs eq_refl eq_refl). cbn [threshold] in Hs. by rewrite Hs, length_map, Nat.eqb_refl.
Qed.

End ThresholdProvider.
End ThresholdProviderProperties.


(** ** Runs *)
Module WalletRuns.
Import WalletProperties.

Lemma wallet_gate_witness :
  let matches (m : string) := String.eqb m "User rejected the request" in
  let w := WalletConnector.mkWeb3 in
  let events := [WalletConnector.Unauthorized; WalletConnector.PressConnect;
                 WalletConnector.Web3Changed (w false (Some (7%N, "User rejected the request")));
                 WalletConnector.PressConnect; WalletConnector.Web3Changed (w true None)] in
  WalletConnector.render (WalletConnector.run 0 matches matches (w false None) (take 3 events)) =
    WalletConnector.ConnectButton false /\
  WalletConnector.render (WalletConnector.run 0 matches matches (w false None) events) =
    WalletConnector.Children.
Proof.
  split; [reflexivity|]. apply wallet_gate; [done| |reflexivity].
  repeat (apply List.Forall_cons; [cbn; try done; unfold consistent; cbn; congruence|]).
  apply List.Forall_nil.
Defined.

Import ThresholdProvider.

Definition aWeb3 (account : string) : Web3 := mkWeb3 (Some 11155111) (Some 0%N) (Some account).
Definition loaded := Connection.getCollateralsDeployments ConnectionProperties.arrived.

Notation run := (@ThresholdProvider.run ConnectionProperties.network ConnectionProperties.signerOf
                   (fun _ => tt)).

Definition connectsOnce : list Event :=
  [ConfigFetched Config.defaultConfig; Deployments 0 (Ok loaded)].

(** The connections of an account to [loaded]. *)
Definition connectionsOf (account : string) : list Connection.t :=
  match Connection.getConnections ConnectionProperties.signerOf (Connection.iterateVersions loaded)
          tt account 11155111 with
  | Ok cs => cs
  | Throw _ => []
  end.

Lemma shown_stores_witness :
  exists n q collaterals cs,
    length (connectionsOf "0xA") = 2%nat /\
    requests (run (aWeb3 "0xA") connectsOnce) !! n = Some (q, true) /\
    Connection.getConnections ConnectionProperties.signerOf (Connection.iterateVersions collaterals)
      tt (r_account q) (r_chainId q) = Ok cs /\
    map thresholdOf (connectionsOf "0xA") = map thresholdOf cs.
Proof.
  assert (render (run (aWeb3 "0xA") connectsOnce) =
    Children Config.defaultConfig "0xA" 0 (map thresholdOf (connectionsOf "0xA"))) as H.
  { vm_compute. reflexivity. }
  destruct (ThresholdProviderProperties.shown_stores ConnectionProperties.signerOf
    (fun _ => tt) _ _ _ _ _ _ H) as (n & q & ds & cs & H1 & _ & H2 & H3 & _).
  exists n, q, ds, cs. split; [vm_compute; reflexivity|]. exact (conj H1 (conj H2 H3)).
Defined.

Lemma answer_shown_witness :
  let a := run (aWeb3 "0xA") [ConfigFetched Config.defaultConfig] in
  exists n mark,
    requests a !! n = Some (mkRequest 11155111 0 "0xA", mark) /\
    (mark = false ->
     render (step ConnectionProperties.signerOf (fun _ => tt) a (Deployments n (Ok loaded))) =
       Children Config.defaultConfig "0xA" 0 (map thresholdOf (connectionsOf "0xA"))).
Proof.
  destruct (connectionsOf "0xA") as [|c cs] eqn:Hcs; [apply (f_equal length) in Hcs; discriminate Hcs|].
  assert (Connection.getConnections ConnectionProperties.signerOf (Connection.iterateVersions loaded)
    tt "0xA" 11155111 = Ok (c :: cs)) as Hok.
  { rewrite <- Hcs. vm_compute. reflexivity. }
  destruct (ThresholdProviderProperties.answer_shown ConnectionProperties.signerOf
    (fun _ => tt) (aWeb3 "0xA") [ConfigFetched Config.defaultConfig] Config.defaultConfig "0xA" 0
    11155111 loaded c cs ltac:(reflexivity) ltac:(reflexivity) ltac:(reflexivity)
    ltac:(reflexivity) ltac:(reflexivity)) as (n & mark & H1 & _ & H2).
  exists n, mark. split; [exact H1|]. intros Hm. exact (H2 Hm Hok).
Defined.

(** Requests are not cancelled: an answer that comes after that of a later request, which was for
    another account, replaces its connections, and the application is shown to the one account with
    the stores of the other. *)
Lemma stale_account_shown :
  render (run (aWeb3 "0xA")
    [ConfigFetched Config.defaultConfig; Web3Changed (aWeb3 "0xB"); Deployments 1 (Ok loaded);
     Deployments 0 (Ok loaded)]) =
  Children Config.defaultConfig "0xB" 0 (map thresholdOf (connectionsOf "0xA")).
Proof. vm_compute. reflexivity. Qed.

(** Deployments that are answered before any of their files has arrived are no deployments: the
    application is shown without a store, and nothing asks again. *)
Lemma no_stores_shown :
  render (run (aWeb3 "0xA") [ConfigFetched Config.defaultConfig; Deployments 0 (Ok [])]) =
    Children Config.defaultConfig "0xA" 0 [].
Proof. reflexivity. Qed.

(** Until the deployments are answered, a supported network is said not to be. *)
Lemma connecting_unsupported :
  render (run (aWeb3 "0xA") [ConfigFetched Config.defaultConfig]) = UnsupportedNetwork 11155111 /\
  supported 11155111 = true.
Proof. by split. Qed.

End WalletRuns.
