(* ===== verification/Fuzzer.v ===== *)
(** * The fuzzer: [packages/fuzzer/src]

    The checks it makes on the lists of Troves and the pools, also those of the indexer against the
    chain ([utils.ts]), its histograms of gas ([GasHistogram.ts]), what it sends ([fixture.ts]) and
    its commands ([commands/*.ts]).  Random draws are arguments: integers where the code truncates
    them and Decimals otherwise; what the chain answers is a record of answers or a section
    variable. *)

From S2P Require Import Prelude BigNumber Decimals Constants Troves Connection.

Local Open Scope Z_scope.

(** ** [utils.ts] *)
Module Checks.
Import TroveWithPendingRedistribution.

Section Checks.
Context {BN : BigNumberOps}.

Notation Pending := TroveWithPendingRedistribution.t.

Definition owner (trove : Pending) : string := UserTrove.ownerAddress (super trove).

Definition tinyDifference : Decimal.t :=
  static_init (Decimal.mk 0) (Decimal.from (Decimal.ofString "0.000000001")).

(** The loop of [sortedByICR], from the current Trove on. *)
Fixpoint sortedFrom (currentTrove : UserTrove.t) (listOfTroves : list Pending)
    (totalRedistributed : Trove.t) (price : Decimal.Decimalish) : Res bool :=
  match listOfTroves with
  | [] => Ok true
  | trove :: rest =>
      let! nextTrove := applyRedistribution trove totalRedistributed in
      let! next := Trove.collateralRatio (UserTrove.super nextTrove) price in
      let! current := Trove.collateralRatio (UserTrove.super currentTrove) price in
      let! limit := Decimal.add current tinyDifference in
      let! broken := Decimal.gt next limit in
      if (broken : bool) then Ok false
      else sortedFrom nextTrove rest totalRedistributed price
  end.

Definition sortedByICR (listOfTroves : list Pending) (totalRedistributed : Trove.t)
    (price : Decimal.Decimalish) : Res bool :=
  match listOfTroves with
  | [] | [_] => Ok true
  | first :: rest =>
      let! currentTrove := applyRedistribution first totalRedistributed in
      sortedFrom currentTrove rest totalRedistributed price
  end.

Definition listDifference (listA listB : list string) : list string :=
  filter (fun x => x ∉ listB) listA.

(** [new Map(listB.map(trove => [trove.ownerAddress, trove]))] *)
Definition byOwner (listB : list Pending) : gmap string Pending :=
  fold_left (fun m trove => <[owner trove := trove]> m) listB ∅.

Definition checkOne (mapB : gmap string Pending) (troveA : Pending) : Res unit :=
  match mapB !! owner troveA with
  | None => Throw (owner troveA +:+ " has no trove in listB")
  | Some troveB =>
      let! e := equals troveA troveB in
      if (e : bool) then Ok tt
      else Throw (owner troveA +:+ " has different troves in listA & listB")
  end.

Definition listOfTrovesShouldBeEqual (listA listB : list Pending) : Res unit :=
  if negb (Nat.eqb (length listA) (length listB)) then
    Throw "length of trove lists is different"
  else let! _ := res_mapM (checkOne (byOwner listB)) listA in Ok tt.

Definition shortenAddress (address : string) : string :=
  Js.prefix 6 address +:+ "..." +:+
  String.substring (String.length address - 4) 4 address.

Definition troveToString (troveWithPendingRewards : Pending) (totalRedistributed : Trove.t)
    (price : Decimal.Decimalish) : Res string :=
  let active := trove troveWithPendingRewards in
  let! applied := applyRedistribution troveWithPendingRewards totalRedistributed in
  let trove := UserTrove.super applied in
  let! rewards := Trove.subtract trove active in
  let percent d := let! p := Percent.new d in Percent.toString p 2 in
  let! ratio := Trove.collateralRatio trove price in
  let! icr := percent ratio in
  let! without := Trove.collateralRatio active price in
  let! icrWithout := percent without in
  let! coll := Decimal.toString (Trove.collateral trove) (Some 2) in
  let! debt := Decimal.toString (Trove.debt trove) (Some 2) in
  let! collReward := Decimal.toString (Trove.collateral rewards) (Some 2) in
  let! debtReward := Decimal.toString (Trove.debt rewards) (Some 2) in
  Ok ("[" +:+ shortenAddress (owner troveWithPendingRewards) +:+ "]: ICR = " +:+ icr +:+
      ", ICR w/o reward = " +:+ icrWithout +:+ ", coll = " +:+ coll +:+ ", debt = " +:+ debt +:+
      ", coll reward = " +:+ collReward +:+ ", debt reward = " +:+ debtReward).

(** The lines [dumpTroves] prints, and whether each is in red; [currentTrove] is compared as it was
    listed before. *)
Fixpoint dumpFrom (currentTrove : Pending) (listOfTroves : list Pending)
    (totalRedistributed : Trove.t) (price : Decimal.Decimalish) : Res (list (bool * string)) :=
  match listOfTroves with
  | [] => Ok []
  | nextTrove :: rest =>
      let! n := applyRedistribution nextTrove totalRedistributed in
      let! next := Trove.collateralRatio (UserTrove.super n) price in
      let! next := Decimal.sub next tinyDifference in
      let! c := applyRedistribution currentTrove totalRedistributed in
      let! current := Trove.collateralRatio (UserTrove.super c) price in
      let! red := Decimal.gt next current in
      let! line := troveToString nextTrove totalRedistributed price in
      let! lines := dumpFrom nextTrove rest totalRedistributed price in
      Ok ((red : bool, (if (red : bool) then "!! " else "   ") +:+ line) :: lines)
  end.

Definition dumpTroves (listOfTroves : list Pending) (totalRedistributed : Trove.t)
    (price : Decimal.Decimalish) : Res (list (bool * string)) :=
  match listOfTroves with
  | [] => Ok []
  | currentTrove :: rest =>
      let! line := troveToString currentTrove totalRedistributed price in
      let! lines := dumpFrom currentTrove rest totalRedistributed price in
      Ok ((false, "   " +:+ line) :: lines)
  end.

Definition checkTroveOrdering (listOfTroves : list Pending) (totalRedistributed : Trove.t)
    (price : Decimal.t) (previousListOfTroves : option (list Pending)) : Res unit :=
  let! sorted := sortedByICR listOfTroves totalRedistributed price in
  if (sorted : bool) then Ok tt
  else
    let! _ := match previousListOfTroves with
              | Some previous => dumpTroves previous totalRedistributed price
              | None => Ok []
              end in
    let! _ := dumpTroves listOfTroves totalRedistributed price in
    Throw "ordering is broken".

(** The callback of [reduce]. *)
Definition addTotals (totalRedistributed : Trove.t) (totals : Trove.t * Trove.t)
    (troveActive : Pending) : Res (Trove.t * Trove.t) :=
  let '(activeTotal, defaultTotal) := totals in
  let! troveTotal := applyRedistribution troveActive totalRedistributed in
  let! troveDefault := Trove.subtract (UserTrove.super troveTotal) (trove troveActive) in
  let! activeTotal := Trove.add activeTotal (trove troveActive) in
  let! defaultTotal := Trove.add defaultTotal troveDefault in
  Ok (activeTotal, defaultTotal).

(** [Difference.between(a, b).absoluteValue?.lt(tinyDifference)], which is falsy if undefined. *)
Definition roughly (a b : Decimal.t) : Res bool :=
  let! d := Difference.between (Some (Decimal.ofDecimal a)) (Some (Decimal.ofDecimal b)) in
  match Difference.absoluteValue d with
  | Some x => Decimal.lt x tinyDifference
  | None => Ok false
  end.

(** [every] stops at the first that does not hold. *)
Fixpoint everyRoughly (pairs : list (Decimal.t * Decimal.t)) : Res bool :=
  match pairs with
  | [] => Ok true
  | (a, b) :: rest =>
      let! r := roughly a b in
      if (r : bool) then everyRoughly rest else Ok false
  end.

Definition checkPoolBalances (activePool defaultPool : Trove.t) (listOfTroves : list Pending)
    (totalRedistributed : Trove.t) : Res unit :=
  let! '(activeTotal, defaultTotal) :=
    res_foldM (addTotals totalRedistributed) (Trove.empty, Trove.empty) listOfTroves in
  let! ok := everyRoughly
    [(Trove.collateral activePool, Trove.collateral activeTotal);
     (Trove.debt activePool, Trove.debt activeTotal);
     (Trove.collateral defaultPool, Trove.collateral defaultTotal);
     (Trove.debt defaultPool, Trove.debt defaultTotal)] in
  if (ok : bool) then Ok tt else Throw "discrepancy between Troves & Pools".

(** ** The indexer against the chain *)

(** What a [ReadableLiquity] answers while nothing moves; [troves] are [getTroves]' by descending
    ratio, of the number of Troves asked for. *)
Record ReadableLiquity : Type := mkReadable {
  getNumberOfTroves : Res Z;
  getPrice : Res Decimal.t;
  getTotal : Res Trove.t;
  getTotalRedistributed : Res Trove.t;
  getTHUSDInStabilityPool : Res Decimal.t;
  troves : Z -> Res (list UserTrove.t);
  trovesBeforeRedistribution : Z -> Res (list Pending);
}.

Definition getListOfTroves (liquity : ReadableLiquity) : Res (list UserTrove.t) :=
  let! first := getNumberOfTroves liquity in troves liquity first.

Definition getListOfTrovesBeforeRedistribution (liquity : ReadableLiquity) : Res (list Pending) :=
  let! first := getNumberOfTroves liquity in trovesBeforeRedistribution liquity first.

Definition getListOfTroveOwners (liquity : ReadableLiquity) : Res (list string) :=
  let! troves := getListOfTrovesBeforeRedistribution liquity in Ok (map owner troves).

Definition trovesRoughlyEqual (troveA troveB : Trove.t) : Res bool :=
  everyRoughly [(Trove.collateral troveA, Trove.collateral troveB);
                (Trove.debt troveA, Trove.debt troveB)].

Record EqualityCheck (T : Type) : Type := mkCheck {
  name : string;
  get_ : ReadableLiquity -> Res T;
  equals_ : T -> T -> Res bool;
}.
Arguments name {T} _.
Arguments get_ {T} _.
Arguments equals_ {T} _.

Fixpoint everyEqual {T} (check : EqualityCheck T) (a : T) (rest : list T) : Res bool :=
  match rest with
  | [] => Ok true
  | b :: rest =>
      let! e := equals_ check a b in if (e : bool) then everyEqual check a rest else Ok false
  end.

Definition allEqual {T} (check : EqualityCheck T) (liquities : list ReadableLiquity) : Res unit :=
  let! answers := res_mapM (get_ check) liquities in
  match answers with
  | [] => Ok tt
  | a :: rest =>
      let! same := everyEqual check a rest in
      if (same : bool) then Ok tt else Throw ("Mismatch in " +:+ name check)
  end.

(** The checks are made at the same time; which of several that fail is reported first is not
    fixed, here it is the first of the list. *)
Definition checks : list (list ReadableLiquity -> Res unit) :=
  [allEqual (mkCheck _ "numberOfTroves" getNumberOfTroves (fun a b => Ok (a =? b)));
   allEqual (mkCheck _ "price" getPrice (fun a b => Decimal.eq a b));
   allEqual (mkCheck _ "total" getTotal trovesRoughlyEqual);
   allEqual (mkCheck _ "totalRedistributed" getTotalRedistributed Trove.equals);
   allEqual (mkCheck _ "tokensInStabilityPool" getTHUSDInStabilityPool (fun a b => Decimal.eq a b))].

Definition checkSubgraph (subgraph l1Liquity : ReadableLiquity) : Res unit :=
  let! _ := res_mapM (fun check => check [subgraph; l1Liquity]) checks in
  let! l1ListOfTroves := getListOfTrovesBeforeRedistribution l1Liquity in
  let! subgraphListOfTroves := getListOfTrovesBeforeRedistribution subgraph in
  let! _ := listOfTrovesShouldBeEqual l1ListOfTroves subgraphListOfTroves in
  let! totalRedistributed := getTotalRedistributed subgraph in
  let! price := getPrice subgraph in
  let! sorted := sortedByICR subgraphListOfTroves totalRedistributed price in
  if (sorted : bool) then Ok tt
  else
    let! _ := dumpTroves subgraphListOfTroves totalRedistributed price in
    Throw "subgraph sorting broken".

(** ** Random Troves and changes *)

Definition truncateLastDigits (n : Z) : Z :=
  if 100000 <? n then 1000 * (n / 1000)
  else if 10000 <? n then 100 * (n / 100)
  else if 1000 <? n then 10 * (n / 10)
  else n.

(** An integer where a Decimalish is expected. *)
Definition ofInteger (n : Z) : Decimal.Decimalish :=
  Decimal.ofNumber (if n <? 0 then "-" +:+ Js.dec_string (- n) else Js.dec_string n).

(** [coin] is whether [Math.random() < 0.5], [benford] what that function draws below a bound, and
    [drawn] its first draw. *)
Definition createRandomTrove (price : Decimal.t) (drawn : Z) (coin : bool) (benford : Z -> Z) :
    Res Trove.t :=
  let randomValue := truncateLastDigits drawn in
  if coin then
    let! collateral := Decimal.from (ofInteger randomValue) in
    let! value := Decimal.mul price collateral in
    let! text := Decimal.toString value (Some 0) in
    let maxDebt := Js.dec_value text in
    let! debt := Decimal.add THUSD_LIQUIDATION_RESERVE
                   (ofInteger (truncateLastDigits (maxDebt - benford maxDebt))) in
    Ok (Trove.mk collateral debt)
  else
    let! debt := Decimal.add THUSD_LIQUIDATION_RESERVE (ofInteger (100 * randomValue)) in
    let! collateral := Decimal.div debt price in
    let! collateral := Decimal.mul collateral (ofInteger (100 + benford 200)) in
    let! collateral := Decimal.div collateral (ofInteger 100) in
    let! text := Decimal.toString collateral (Some 4) in
    let! collateral := Decimal.from (Decimal.ofString text) in
    Ok (Trove.mk collateral debt).

(** The factors are [1.1 * Math.random()] and [0.5 * Math.random()]. *)
Definition randomCollateralChange (trove : Trove.t) (coin : bool) (factor : Decimal.Decimalish) :
    Res (TroveParams.TroveAdjustmentParams Decimal.t) :=
  let! amount := Decimal.mul (Trove.collateral trove) factor in
  Ok (if coin then TroveParams.mkAdjustment None (Some amount) None None
      else TroveParams.mkAdjustment (Some amount) None None None).

Definition randomDebtChange (trove : Trove.t) (coin : bool) (factor : Decimal.Decimalish) :
    Res (TroveParams.TroveAdjustmentParams Decimal.t) :=
  let! amount := Decimal.mul (Trove.debt trove) factor in
  Ok (if coin then TroveParams.mkAdjustment None None None (Some amount)
      else TroveParams.mkAdjustment None None (Some amount) None).

End Checks.
End Checks.

(** ** [GasHistogram.ts] *)
Module GasHistogram.

Definition intervalWidth : Z := 10000.
Definition numberOfBins : nat := 800.

(** A transaction that was sent and mined. *)
Record Attempt : Type := mkAttempt {
  succeeded : bool;
  gasUsed : Z;
  gasLimit : Z;
}.

Record t : Type := mk {
  expectedFailures : Z;
  outOfGasFailures : Z;
  gasUsedBins : list Z;
}.

Definition new : t := mk 0 0 (repeat 0 numberOfBins).

(** The loop of [retryUpTo]: [sendTx] is asked for its [retries]-th answer; [remaining] is
    [times - retries]. *)
Fixpoint retry (remaining retries : nat) (sendTx : nat -> Res Attempt) : Res (nat * Attempt) :=
  let! receipt := sendTx retries in
  if succeeded receipt || (gasUsed receipt <? gasLimit receipt) then Ok (retries, receipt)
  else match remaining with
       | O => Ok (retries, receipt)
       | S remaining => retry remaining (S retries) sendTx
       end.

Definition retryUpTo (times : nat) (sendTx : nat -> Res Attempt) : Res (nat * Attempt) :=
  retry times 0 sendTx.

(** [arr.findIndex(x => x > 0)] *)
Fixpoint findPositive (l : list Z) : Z :=
  match l with
  | [] => -1
  | x :: l => if 0 <? x then 0 else let i := findPositive l in if i <? 0 then -1 else i + 1
  end.

(** [arr.slice(start, end)]: negative indices count from the end. *)
Definition slice {A} (start end_ : Z) (l : list A) : list A :=
  let n := Z.of_nat (length l) in
  let clamp i := if i <? 0 then Z.max 0 (n + i) else Z.min i n in
  take (Z.to_nat (clamp end_ - clamp start)) (drop (Z.to_nat (clamp start)) l).

Definition getResults (this : t) : list (Z * Z) :=
  let firstNonZeroIndex := findPositive (gasUsedBins this) in
  let firstNonZeroIndexFromEnd := findPositive (rev (gasUsedBins this)) in
  imap (fun i frequency => (intervalWidth * (firstNonZeroIndex + Z.of_nat i), frequency))
    (slice firstNonZeroIndex (Z.of_nat (length (gasUsedBins this)) - firstNonZeroIndexFromEnd)
       (gasUsedBins this)).

Section Operations.
Context {BN : BigNumberOps}.

Definition addToGasUsedHisto (gasUsed : Z) : St t unit := fun this =>
  match bn_toNumber gasUsed with
  | Throw m => (Throw m, this)
  | Ok gas =>
      let binIndex := gas / intervalWidth in
      if binIndex <? Z.of_nat (length (gasUsedBins this)) then
        (Ok tt, mk (expectedFailures this) (outOfGasFailures this)
                  (alter (Z.add 1) (Z.to_nat binIndex) (gasUsedBins this)))
      else (Throw "AssertionError", this)
  end.

Definition expectSuccess (sendTx : nat -> Res Attempt) : St t unit :=
  do! '(retries, receipt) := st_lift (retryUpTo 1 sendTx) in
  do! _ := st_modify (fun this => mk (expectedFailures this)
                        (outOfGasFailures this + Z.of_nat retries) (gasUsedBins this)) in
  if succeeded receipt then addToGasUsedHisto (gasUsed receipt)
  else st_throw "Transaction failed".

Definition expectFailure {T} (waitForSuccess : Res T) : St t unit :=
  match waitForSuccess with
  | Throw _ => st_modify (fun this => mk (expectedFailures this + 1) (outOfGasFailures this)
                            (gasUsedBins this))
  | Ok _ => st_throw "Unexpected success"
  end.

End Operations.
End GasHistogram.

(** ** [fixture.ts] *)
Module Fixture.
Import TroveParams.

(** What is sent to the chain, by whom it is named. *)
Inductive Action : Type :=
| FunderOpens (params : TroveCreationParams Decimal.t)
| FunderAdjusts (params : TroveAdjustmentParams Decimal.t)
| FunderSendsTHUSD (toAddress : string) (amount : Decimal.t)
| FunderSendsCollateral (to value : string)
| Opens (params : TroveCreationParams Decimal.t)
| Adjusts (params : TroveAdjustmentParams Decimal.t)
| Closes
| Redeems (amount : Decimal.Decimalish)
| DepositsTHUSD (amount : Decimal.Decimalish)
| WithdrawsTHUSD (amount : Decimal.t)
| SendsTHUSD (toAddress : string) (amount : Decimal.t).

(** An operation answers what it sends, in order; one that throws may have sent the transfers of the
    funder before.  Whether the fuzzer expects an action of the user to succeed; the actions of the
    funder just have to. *)
Inductive Expectation : Type := Must | ExpectSuccess | ExpectFailure.

Section Fixture.
Context {BN : BigNumberOps}.

(** [targetCollateralRatio] of [sendTHUSDFromFunder]. *)
Definition targetCollateralRatio (trove total : Trove.t) (price : Decimal.t) :
    Res Decimal.Decimalish :=
  let! below := (if Trove.isEmpty trove then Ok false
                 else Trove.collateralRatioIsBelowCritical total price) in
  if (below : bool) then
    let! ratio := Trove.collateralRatio trove price in
    let! ratio := Decimal.add ratio (Decimal.ofNumber "0.00001") in
    let! m := Decimal.max ratio (Decimal.ofNumber "1.11") in
    Ok (Decimal.ofDecimal m)
  else Ok (Decimal.ofNumber "1.51").

(** The Trove the funder is to have: [short] is the amount that is missing. *)
Definition fundingTrove (trove total : Trove.t) (price short : Decimal.t) : Res Trove.t :=
  let! ratio := targetCollateralRatio trove total price in
  let! newTrove :=
    if Trove.isEmpty trove
    then Trove.create (mkCreation (Decimal.ofNumber "1") (Decimal.ofNumber "0")) None
    else Ok trove in
  let! twice := Decimal.mul short (Decimal.ofNumber "2") in
  let! newTrove := Trove.adjust newTrove
    (mkAdjustment None None (Some (Decimal.ofDecimal twice)) None) None in
  let! below := Decimal.lt (Trove.debt newTrove) THUSD_MINIMUM_DEBT in
  let! newTrove := if (below : bool) then Trove.setDebt newTrove THUSD_MINIMUM_DEBT
                   else Ok newTrove in
  let! collateral := Decimal.mulDiv (Trove.debt newTrove) ratio price in
  Trove.setCollateral newTrove collateral.

(** The collateral of an adjustment that would take the system into recovery mode is raised. *)
Definition keepHealthy (trove total newTrove : Trove.t) (price : Decimal.t) : Res Trove.t :=
  let! sum := Trove.add total newTrove in
  let! newTotal := Trove.subtract sum trove in
  let! already := Trove.collateralRatioIsBelowCritical total price in
  if (already : bool) then Ok newTrove
  else
    let! below := Trove.collateralRatioIsBelowCritical newTotal price in
    if (below : bool) then
      let! collateral := Decimal.mulDiv (Trove.debt newTotal) (Decimal.ofNumber "1.51") price in
      let! newTotal := Trove.setCollateral newTotal collateral in
      let! sum := Trove.add trove newTotal in
      Trove.subtract sum total
    else Ok newTrove.

(** What the funder reads before it sends; [rate] is [fees.borrowingRate()]. *)
Record Funder : Type := mkFunder {
  thusdBalance : Decimal.t;
  trove : Trove.t;
  total : Trove.t;
  rate : Decimal.t;
}.

Definition sendTHUSDFromFunder (funder : Funder) (price : Decimal.t) (toAddress : string)
    (amount : Decimal.Decimalish) : Res (list Action) :=
  let! amount := Decimal.from amount in
  let! short := Decimal.lt (thusdBalance funder) amount in
  let! borrows :=
    if (short : bool) then
      let! short := Decimal.sub amount (thusdBalance funder) in
      let! newTrove := fundingTrove (trove funder) (total funder) price short in
      if Trove.isEmpty (trove funder) then
        let! params := Trove.recreate newTrove (Some (Decimal.ofDecimal (rate funder))) in
        Ok [FunderOpens params]
      else
        let! newTrove := keepHealthy (trove funder) (total funder) newTrove price in
        let! params := Trove.adjustTo (trove funder) newTrove
                         (Some (Decimal.ofDecimal (rate funder))) in
        Ok [FunderAdjusts params]
    else Ok [] in
  Ok (borrows ++ [FunderSendsTHUSD toAddress amount]).

(** [draw] is [200 * Math.random() + 100]. *)
Definition setRandomPrice (price : Decimal.t) (draw : Decimal.Decimalish) : Res Decimal.t :=
  let! sum := Decimal.add price draw in Decimal.div sum (Decimal.ofNumber "2").

(** [maximum] is drawn; [after] are the owners once the liquidation has been mined. *)
Definition liquidateRandomNumberOfTroves (trovesBefore : list UserTrove.t) (price : Decimal.t)
    (maximum : Z) (after : Res (list string)) : Res (option Z * list string) :=
  match last trovesBefore with
  | None => Ok (None, [])
  | Some lastTrove =>
      let! below := Trove.collateralRatioIsBelowMinimum (UserTrove.super lastTrove) price in
      if negb below then Ok (None, [])
      else
        let! after := after in
        Ok (Some maximum,
            Checks.listDifference (map UserTrove.ownerAddress trovesBefore) after)
  end.

Definition cannotOpen (total newTrove : Trove.t) (price : Decimal.t) : Res bool :=
  let! small := Decimal.lt (Trove.debt newTrove) THUSD_MINIMUM_DEBT in
  if (small : bool) then Ok true
  else
    let! recovery := Trove.collateralRatioIsBelowCritical total price in
    if (recovery : bool) then
      let! openable := Trove.isOpenableInRecoveryMode newTrove price in Ok (negb openable)
    else
      let! below := Trove.collateralRatioIsBelowMinimum newTrove price in
      if (below : bool) then Ok true
      else
        let! sum := Trove.add total newTrove in Trove.collateralRatioIsBelowCritical sum price.

Definition openRandomTrove (userAddress : string) (total newTrove : Trove.t)
    (price borrowingRate : Decimal.t) : Res (list (Expectation * Action)) :=
  let value := Decimal.hex (Trove.collateral newTrove) in
  let! params := Trove.recreate newTrove (Some (Decimal.ofDecimal borrowingRate)) in
  let! cannot := cannotOpen total newTrove price in
  Ok [(Must, FunderSendsCollateral userAddress value);
      (if (cannot : bool) then ExpectFailure else ExpectSuccess, Opens params)].

(** [x?.gte(y)] and the like, falsy if undefined. *)
Definition optionally (x : option Decimal.t) (test : Decimal.t -> Res bool) : Res bool :=
  match x with Some d => test d | None => Ok false end.

Definition someNonZero (x : option Decimal.t) : bool :=
  match x ≫= Decimal.nonZero with Some _ => true | None => false end.

Definition cannotAdjust (total trove : Trove.t) (params : TroveAdjustmentParams Decimal.t)
    (price borrowingRate : Decimal.t) : Res bool :=
  let! all := optionally (withdraw params) (fun d => Decimal.gte d (Trove.collateral trove)) in
  let! tooMuch := (if (all : bool) then Ok true
                   else optionally (repay params) (fun d =>
                     let! net := Decimal.sub (Trove.debt trove) THUSD_MINIMUM_DEBT in
                     Decimal.gt d net)) in
  if (tooMuch : bool) then Ok true
  else
    let! adjusted := Trove.adjust trove (adjustmentish params)
                       (Some (Decimal.ofDecimal borrowingRate)) in
    if negb (someNonZero (withdraw params) || someNonZero (borrow params)) then Ok false
    else
      let! below := Trove.collateralRatioIsBelowMinimum adjusted price in
      if (below : bool) then Ok true
      else
        let! recovery := Trove.collateralRatioIsBelowCritical total price in
        if (recovery : bool) then
          let! a := Trove._nominalCollateralRatio adjusted in
          let! t := Trove._nominalCollateralRatio trove in
          Decimal.lt a t
        else
          let! sum := Trove.add total adjusted in
          let! newTotal := Trove.subtract sum trove in
          Trove.collateralRatioIsBelowCritical newTotal price.

(** [params] are drawn: a change of collateral, of debt or of both. *)
Definition randomlyAdjustTrove (userAddress : string) (funder : Funder) (total trove : Trove.t)
    (params : TroveAdjustmentParams Decimal.t) (price borrowingRate : Decimal.t) :
    Res (list (Expectation * Action)) :=
  let deposits := match deposit params with
                  | Some d => [FunderSendsCollateral userAddress (Decimal.hex d)]
                  | None => []
                  end in
  let! funds := match repay params with
                | Some d => sendTHUSDFromFunder funder price userAddress (Decimal.ofDecimal d)
                | None => Ok []
                end in
  let! cannot := cannotAdjust total trove params price borrowingRate in
  Ok (map (pair Must) (deposits ++ funds) ++
      [(if (cannot : bool) then ExpectFailure else ExpectSuccess, Adjusts params)]).

Definition closeTrove (userAddress : string) (funder : Funder) (total trove : Trove.t)
    (price : Decimal.t) : Res (list (Expectation * Action)) :=
  let! recovery := Trove.collateralRatioIsBelowCritical total price in
  if (recovery : bool) then Ok []
  else
    let! net := Trove.netDebt trove in
    let! funds := sendTHUSDFromFunder funder price userAddress (Decimal.ofDecimal net) in
    Ok (map (pair Must) funds ++ [(ExpectSuccess, Closes)]).

(** [amount] is drawn; a redemption that is too low to be made is let pass by its caller. *)
Definition redeemRandomAmount (userAddress : string) (funder : Funder) (total : Trove.t)
    (price : Decimal.t) (amount : Z) : Res (list (Expectation * Action)) :=
  let! below := Trove.collateralRatioIsBelowMinimum total price in
  if (below : bool) then Ok []
  else
    let! funds := sendTHUSDFromFunder funder price userAddress (Checks.ofInteger amount) in
    Ok (map (pair Must) funds ++ [(ExpectSuccess, Redeems (Checks.ofInteger amount))]).

Definition depositRandomAmountInStabilityPool (userAddress : string) (funder : Funder)
    (price : Decimal.t) (amount : Z) : Res (list (Expectation * Action)) :=
  let! funds := sendTHUSDFromFunder funder price userAddress (Checks.ofInteger amount) in
  Ok (map (pair Must) funds ++ [(ExpectSuccess, DepositsTHUSD (Checks.ofInteger amount))]).

(** [factor] is [1.1 * Math.random()] and [more] is [10 * Math.random()]. *)
Definition withdrawRandomAmountFromStabilityPool (lastTrove : Trove.t)
    (currentTHUSD price : Decimal.t) (factor more : Decimal.Decimalish) :
    Res (list (Expectation * Action)) :=
  let! amount := Decimal.mul currentTHUSD factor in
  let! amount := Decimal.add amount more in
  let! cannot := (match Decimal.nonZero amount with
                  | Some _ => Trove.collateralRatioIsBelowMinimum lastTrove price
                  | None => Ok false
                  end) in
  Ok [(if (cannot : bool) then ExpectFailure else ExpectSuccess, WithdrawsTHUSD amount)].

Definition sweepTHUSD (funderAddress : string) (thusdBalance : Decimal.t) : list Action :=
  match Decimal.nonZero thusdBalance with
  | Some balance => [SendsTHUSD funderAddress balance]
  | None => []
  end.

(** The lines [summarizeGasStats] prints of a histogram. *)
Definition summarize (name : string) (histo : GasHistogram.t) : list string :=
  [name +:+ ",outOfGas," +:+ Js.dec_string (GasHistogram.outOfGasFailures histo);
   name +:+ ",failure," +:+ Js.dec_string (GasHistogram.expectedFailures histo)] ++
  map (fun '(intervalMin, frequency) =>
    name +:+ ",success," +:+ Js.dec_string frequency +:+ "," +:+
    (if intervalMin <? 0 then "-" +:+ Js.dec_string (- intervalMin) else Js.dec_string intervalMin))
    (GasHistogram.getResults histo).

End Fixture.
End Fixture.

(** ** [commands/*.ts] *)
Module Commands.

(** *** Connecting: every command starts with [EthersLiquity.connect] *)
Section Connecting.
Context {N : Network} {BN : BigNumberOps}.
Context (arrivals : string -> list (Connection.Import * option Connection._LiquityDeploymentJSON)).
(** What a connected object answers. *)
Context (reads : Connection.Liquity -> Checks.ReadableLiquity).

Definition connectUsers (users : list Signer) : Res (list Connection.Liquity) :=
  res_mapM (fun user => Connection.connect Connection.EthersLiquity_from arrivals (inl user) None)
    users.

Definition deployerLiquity (deployer : Signer) : Res Checks.ReadableLiquity :=
  let! liquity := Connection.connect Connection.EthersLiquity_from arrivals (inl deployer) None in
  Ok (reads liquity).

Definition checkSorting (deployer : Signer) : Res string :=
  let! liquity := deployerLiquity deployer in
  let! listOfTroves := Checks.getListOfTrovesBeforeRedistribution liquity in
  let! totalRedistributed := Checks.getTotalRedistributed liquity in
  let! price := Checks.getPrice liquity in
  let! _ := Checks.checkTroveOrdering listOfTroves totalRedistributed price None in
  Ok "All Troves are sorted.".

Definition checkSubgraphCmd (subgraph : Checks.ReadableLiquity) (deployer : Signer) : Res string :=
  let! liquity := deployerLiquity deployer in
  let! _ := Checks.checkSubgraph subgraph liquity in
  Ok "Subgraph looks fine.".

Definition dumpTrovesCmd (deployer : Signer) : Res (list (bool * string)) :=
  let! liquity := deployerLiquity deployer in
  let! listOfTroves := Checks.getListOfTrovesBeforeRedistribution liquity in
  let! totalRedistributed := Checks.getTotalRedistributed liquity in
  let! price := Checks.getPrice liquity in
  Checks.dumpTroves listOfTroves totalRedistributed price.

(** [wrapCmd]: an error is printed, nothing is answered. *)
Definition wrapCmd {A} (cmd : Res A) : option A :=
  match cmd with Ok a => Some a | Throw _ => None end.

End Connecting.

(** *** [warzone.ts] *)

(** The Trove and whether its owner deposits; [debtDraw] is [99999 * Math.random()] and [ratioDraw]
    is [1.11 + 3 * Math.random()]. *)
Definition warzoneTrove {BN : BigNumberOps} (i : Z) (price borrowingRate : Decimal.t)
    (debtDraw ratioDraw : Decimal.Decimalish) :
    Res (string * TroveParams.TroveCreationParams Decimal.t * bool) :=
  let! debt := Decimal.add THUSD_MINIMUM_DEBT debtDraw in
  let! collateral := Decimal.mulDiv debt ratioDraw price in
  let! params := Trove.recreate (Trove.mk collateral debt) (Some (Decimal.ofDecimal borrowingRate)) in
  Ok (Decimal.hex collateral, params, i mod 4 =? 0).

(** *** [chaos.ts] *)

(** What a user does, for the draw [x] in thousandths and what the user has. *)
Inductive Move : Type :=
| OpenRandomTrove | RandomlyAdjustTrove | CloseTrove
| DepositRandomAmount | WithdrawRandomAmount
| RedeemRandomAmount.

Definition moveOf (x : Z) (troveIsEmpty initialTHUSDIsZero : bool) : Move :=
  if x <? 500 then
    if troveIsEmpty then OpenRandomTrove
    else if x <? 400 then RandomlyAdjustTrove else CloseTrove
  else if x <? 700 then
    if initialTHUSDIsZero || (x <? 600) then DepositRandomAmount else WithdrawRandomAmount
  else RedeemRandomAmount.

(** The checks after every move. *)
Definition afterMove {BN : BigNumberOps} (liquity : Checks.ReadableLiquity)
    (activePool defaultPool : Trove.t) (price : Decimal.t)
    (previousListOfTroves : option (list TroveWithPendingRedistribution.t)) :
    Res (list TroveWithPendingRedistribution.t) :=
  let! listOfTroves := Checks.getListOfTrovesBeforeRedistribution liquity in
  let! totalRedistributed := Checks.getTotalRedistributed liquity in
  let! _ := Checks.checkTroveOrdering listOfTroves totalRedistributed price previousListOfTroves in
  let! _ := Checks.checkPoolBalances activePool defaultPool listOfTroves totalRedistributed in
  Ok listOfTroves.

(** *** [order] *)

(** What makes the funder's Trove the first one, if it is not: [firstTrove] is the first of the
    list, [fees] the borrowing rate. *)
Definition hoist {BN : BigNumberOps} (firstTrove : UserTrove.t) (funder : string)
    (funderTrove : Trove.t) (price borrowingRate : Decimal.t) : Res (option Fixture.Action) :=
  if String.eqb (UserTrove.ownerAddress firstTrove) funder then Ok None
  else
    let! ratio := Trove.collateralRatio (UserTrove.super firstTrove) price in
    let! ratio := Decimal.add ratio (Decimal.ofNumber "0.00001") in
    let! target := Decimal.max ratio (Decimal.ofNumber "1.51") in
    if Trove.isEmpty funderTrove then
      let! collateral := Decimal.mulDiv THUSD_MINIMUM_DEBT target price in
      let! params := Trove.recreate (Trove.mk collateral THUSD_MINIMUM_DEBT)
                       (Some (Decimal.ofDecimal borrowingRate)) in
      Ok (Some (Fixture.FunderOpens params))
    else
      let! collateral := Decimal.mulDiv (Trove.debt funderTrove) target price in
      let! targetTrove := Trove.setCollateral funderTrove collateral in
      let! params := Trove.adjustTo funderTrove targetTrove None in
      Ok (Some (Fixture.FunderAdjusts params)).

Section Order.
(** The chain: how many Troves it has, and what liquidating up to a number of them makes of it. *)
Context {Chain : Type}.
Context (getNumberOfTroves : Chain -> Z) (liquidateUpTo : Z -> Chain -> Res Chain).

Definition numberOfTrovesToLiquidate (numberOfTroves : Z) : Z :=
  if 10 <? numberOfTroves then 10 else numberOfTroves - 1.

(** The loop, [None] when it has not ended within the fuel: the chain it ends with and the number
    of rounds. *)
Fixpoint liquidateAll (fuel : nat) (chain : Chain) : option (Res (Chain * nat)) :=
  let numberOfTroves := getNumberOfTroves chain in
  if 1 <? numberOfTroves then
    match fuel with
    | O => None
    | S fuel =>
        match liquidateUpTo (numberOfTrovesToLiquidate numberOfTroves) chain with
        | Throw m => Some (Throw m)
        | Ok chain' =>
            match liquidateAll fuel chain' with
            | Some (Ok (c, n)) => Some (Ok (c, S n))
            | r => r
            end
        end
    end
  else Some (Ok (chain, O)).

(** From the loop on: the price is set back before the number of Troves is checked. *)
Definition finish (fuel : nat) (setInitialPrice : Chain -> Chain) (chain : Chain) :
    option (Res Chain) :=
  match liquidateAll fuel chain with
  | None => None
  | Some (Throw m) => Some (Throw m)
  | Some (Ok (c, _)) =>
      let c := setInitialPrice c in
      if negb (getNumberOfTroves c =? 1)
      then Some (Throw "didn't manage to liquidate every Trove") else Some (Ok c)
  end.

End Order.
End Commands.
