(* ===== verification/FuzzerProperties.v ===== *)
(** * Properties of the fuzzer

    Its checks decide what they are meant to, its histograms count, the funder borrows enough, and
    the loop that liquidates every Trove but one ends.  All commands stop before they start, as
    connecting does ([Connection.v]). *)

From Stdlib Require Import Sorted.
From S2P Require Import Prelude BigNumber Decimals Constants Troves TroveProperties Connection Fuzzer.

Local Open Scope Z_scope.

(** ** The checks *)
Module ChecksProperties.
Import Decimal DecimalFacts Trove TroveFacts TroveWithPendingRedistribution Checks.

(** Two finite amounts less than 10^-9 apart. *)
Definition near (a b : Decimal.t) : bool :=
  negb (deqb a INF) && negb (deqb b INF) &&
  (Z.abs (Z.of_N (units a) - Z.of_N (units b)) <? 10 ^ 9).

(** A Trove with its share of what has been redistributed, and its ratio in units. *)
Definition redistributed (total : Trove.t) (t : TroveWithPendingRedistribution.t) : Trove.t :=
  tadd (trove t) (tmultiply (tsubtract total (snapshotOfTotalRedistributed t)) (stake t)).
Definition ratio (total : Trove.t) (price : Decimal.t) (t : TroveWithPendingRedistribution.t) : N :=
  units (dmulDiv (collateral (redistributed total t)) price (debt (redistributed total t))).

(** [b] may follow [a] in a list by descending ratio. *)
Definition follows (total : Trove.t) (price : Decimal.t) (a b : TroveWithPendingRedistribution.t) :
    Prop := (ratio total price b <= ratio total price a + 10 ^ 9)%N.

Section Facts.
Context {BN : BigNumberOps} {BNL : BigNumberLaws BN}.

Lemma tiny_val : tinyDifference = Decimal.mk (10 ^ 9).
Proof. unfold tinyDifference. unfold from. rewrite fromString_independent. by vm_compute. Qed.

Lemma redistribution_ok t total :
  applyRedistribution t total =
    Ok (UserTrove.mk (redistributed total t) (owner t) (UserTrove.status (super t))).
Proof.
  unfold applyRedistribution. rewrite subtract_ok. cbn [res_bind]. rewrite multiply_ok.
  cbn [res_bind]. by rewrite tadd_ok.
Qed.

Lemma ratio_ok t total price st :
  collateralRatio (UserTrove.super (UserTrove.mk (redistributed total t) (owner t) st))
    (ofDecimal price) = Ok (Decimal.mk (ratio total price t)).
Proof.
  unfold collateralRatio, ratio. cbn [UserTrove.super]. rewrite mulDiv_ok. by destruct (dmulDiv _ _ _).
Qed.

Ltac read_difference :=
  cbn [res_bind Difference.absoluteValue Difference._number Difference.magnitude option_map fmap
       option_fmap negb andb].

Lemma roughly_ok a b : roughly a b = Ok (near a b).
Proof.
  unfold roughly, near, Difference.between. rewrite !from_decimal. cbn [res_bind].
  rewrite !infinite_ok, tiny_val. cbn [res_bind].
  pose proof (deqb_eq a INF) as Ha. pose proof (deqb_eq b INF) as Hb.
  destruct (deqb a INF), (deqb b INF); read_difference; try done.
  - rewrite lt_ok. f_equal. rewrite (proj1 Ha) by done. by vm_compute.
  - rewrite lt_ok. f_equal. rewrite (proj1 Hb) by done. by vm_compute.
  - rewrite !gt_ok. cbn [res_bind]. unfold dltb.
    destruct (N.ltb_spec (units b) (units a)).
    + rewrite sub_ok by lia. read_difference. rewrite lt_ok. f_equal. unfold dltb, dsub. cbn [units].
      destruct (N.ltb_spec (units a - units b) (10 ^ 9)),
        (Z.ltb_spec (Z.abs (Z.of_N (units a) - Z.of_N (units b))) (10 ^ 9)); lia.
    + destruct (N.ltb_spec (units a) (units b)); cbn [res_bind].
      * rewrite sub_ok by lia. read_difference. rewrite lt_ok. f_equal. unfold dltb, dsub. cbn [units].
        destruct (N.ltb_spec (units b - units a) (10 ^ 9)),
        (Z.ltb_spec (Z.abs (Z.of_N (units a) - Z.of_N (units b))) (10 ^ 9)); lia.
      * read_difference. rewrite ZERO_val, lt_ok. f_equal. unfold dltb. cbn [units].
        assert (units a = units b) as -> by lia. by rewrite Z.sub_diag.
Qed.

Lemma everyRoughly_ok l : everyRoughly l = Ok (forallb (fun '(a, b) => near a b) l).
Proof.
  induction l as [|[a b] l IH]; [done|]. cbn [everyRoughly forallb]. rewrite roughly_ok.
  cbn [res_bind]. by destruct (near a b).
Qed.

(** *** Sorting *)

Lemma sortedFrom_ok l total price cur st :
  exists b, sortedFrom (UserTrove.mk (redistributed total cur) (owner cur) st) l total
      (ofDecimal price) = Ok b /\
    (b = true <-> Sorted (follows total price) (cur :: l)).
Proof.
  revert cur st. induction l as [|t l IH]; intros cur st; cbn [sortedFrom].
  { exists true. split; [done|]. split; [by repeat constructor|done]. }
  rewrite redistribution_ok. cbn [res_bind]. rewrite !ratio_ok. cbn [res_bind].
  rewrite tiny_val, add_ok. cbn [res_bind]. rewrite gt_ok. cbn [res_bind].
  unfold dltb, dadd. cbn [units].
  destruct (N.ltb_spec (ratio total price cur + 10 ^ 9) (ratio total price t)) as [H|H].
  - exists false. split; [done|]. split; [done|]. intros Hs. inversion Hs as [|? ? _ Hd]. subst.
    inversion Hd as [|? ? Hf]. subst. unfold follows in Hf. lia.
  - destruct (IH t (UserTrove.status (super t))) as (b & Hb & Hs). exists b. split; [exact Hb|].
    rewrite Hs. split; [intros; constructor; [done|by constructor]|by inversion 1].
Qed.

Lemma sortedByICR_ok l total price :
  exists b, sortedByICR l total (ofDecimal price) = Ok b /\
    (b = true <-> Sorted (follows total price) l).
Proof.
  destruct l as [|t [|t' l] ]; cbn [sortedByICR].
  1-2: exists true; split; [done|]; split; [by repeat constructor|done].
  rewrite redistribution_ok. cbn [res_bind]. apply (sortedFrom_ok (t' :: l)).
Qed.

(** *** Lists *)

Lemma byOwner_In l o t : byOwner l !! o = Some t -> In t l /\ owner t = o.
Proof.
  unfold byOwner. induction l as [|x l IH] using rev_ind; [done|].
  rewrite fold_left_app. cbn. rewrite lookup_insert_Some, in_app_iff.
  intros [ [<- <-]|[_ H] ]; [split; [right; by left|done]|]. destruct (IH H). auto.
Qed.

Lemma byOwner_lookup l t : NoDup (map owner l) -> In t l -> byOwner l !! owner t = Some t.
Proof.
  unfold byOwner. induction l as [|x l IH] using rev_ind; [done|].
  rewrite map_app, fold_left_app. cbn. intros [Hl [Hd _] ]%NoDup_app [H|[->|[] ] ]%in_app_iff.
  - rewrite lookup_insert_ne; [by apply IH|]. intros E.
    apply (Hd (owner t)); [by apply list_elem_of_In, in_map|]. rewrite <- E. by left.
  - by rewrite lookup_insert_eq.
Qed.

Lemma checkOne_ok l t : checkOne (byOwner l) t = Ok tt <-> byOwner l !! owner t = Some t.
Proof.
  unfold checkOne. destruct (byOwner l !! owner t) as [t'|]; [|done].
  rewrite pending_equals_decide. cbn [res_bind]. case_bool_decide as E.
  - by rewrite E.
  - split; [done|]. intros [= ->]. done.
Qed.

Lemma lists_equal_iff A B :
  NoDup (map owner A) -> listOfTrovesShouldBeEqual A B = Ok tt <-> Permutation A B.
Proof.
  intros Hnd. unfold listOfTrovesShouldBeEqual. split.
  - destruct (Nat.eqb_spec (length A) (length B)) as [Hl|]; [|done]. cbn [negb].
    intros H. apply res_bind_inv in H as (us & H & _). apply res_mapM_Forall2 in H.
    assert (incl A B) as Hin.
    { clear Hnd Hl. intros t Ht. revert Ht. induction H as [|x u A' us Hx _ IH]; [done|]. intros [->|Ht].
      - destruct u. apply checkOne_ok, byOwner_In in Hx. tauto.
      - by apply IH. }
    apply NoDup_Permutation_bis; [|lia|done]. apply NoDup_ListNoDup. by eapply NoDup_fmap_1.
  - intros HP. rewrite (Permutation_length HP), Nat.eqb_refl. cbn [negb].
    assert (NoDup (map owner B)) as HB by (by rewrite <- HP).
    assert (forall l, incl l A -> exists us, res_mapM (checkOne (byOwner B)) l = Ok us) as H.
    { induction l as [|x l IH]; intros Hi; [by eexists|].
      destruct IH as [us Hus]; [intros y Hy; apply Hi; by right|].
      exists (tt :: us). cbn [res_mapM]. rewrite (proj2 (checkOne_ok B x)).
      - cbn [res_bind]. by rewrite Hus.
      - apply byOwner_lookup; [done|]. apply (Permutation_in _ HP), Hi. by left. }
    destruct (H A (incl_refl A)) as [us ->]. done.
Qed.

(** *** The indexer and the pools *)

(** What a reader answers. *)
Record Snapshot : Type := mkSnapshot {
  s_number : Z;
  s_price : Decimal.t;
  s_total : Trove.t;
  s_redistributed : Trove.t;
  s_pool : Decimal.t;
  s_troves : list TroveWithPendingRedistribution.t;
}.

Definition answers (r : ReadableLiquity) (s : Snapshot) : Prop :=
  getNumberOfTroves r = Ok (s_number s) /\ getPrice r = Ok (s_price s) /\
  getTotal r = Ok (s_total s) /\ getTotalRedistributed r = Ok (s_redistributed s) /\
  getTHUSDInStabilityPool r = Ok (s_pool s) /\
  trovesBeforeRedistribution r (s_number s) = Ok (s_troves s).

Definition nearTroves (a b : Trove.t) : Prop :=
  near (collateral a) (collateral b) = true /\ near (debt a) (debt b) = true.

Lemma allEqual_pair {T} nm (get_ : ReadableLiquity -> Res T) equals_ r r' a b e :
  get_ r = Ok a -> get_ r' = Ok b -> equals_ a b = Ok e ->
  allEqual (mkCheck T nm get_ equals_) [r; r'] =
    if (e : bool) then Ok tt else Throw ("Mismatch in " +:+ nm).
Proof.
  intros Ha Hb He. unfold allEqual. cbn [res_mapM Checks.get_]. rewrite Ha. cbn [res_bind].
  rewrite Hb. cbn [res_bind everyEqual Checks.equals_]. rewrite He. by destruct e.
Qed.

Lemma checks_ok r r' s s' :
  answers r s -> answers r' s' ->
  (exists us, res_mapM (fun check => check [r; r']) checks = Ok us) <->
  s_number s = s_number s' /\ s_price s = s_price s' /\ nearTroves (s_total s) (s_total s') /\
  s_redistributed s = s_redistributed s' /\ s_pool s = s_pool s'.
Proof.
  intros (Hn & Hp & Ht & Hr & Hs & _) (Hn' & Hp' & Ht' & Hr' & Hs' & _). unfold checks.
  cbn [res_mapM].
  rewrite (allEqual_pair _ _ _ _ _ _ _ (s_number s =? s_number s') Hn Hn' eq_refl).
  rewrite (allEqual_pair _ _ _ _ _ _ _ (deqb (s_price s) (s_price s')) Hp Hp' (eq_ok _ _)).
  rewrite (allEqual_pair _ _ trovesRoughlyEqual _ _ _ _ _ Ht Ht' (everyRoughly_ok _)).
  rewrite (allEqual_pair _ _ _ _ _ _ _ _ Hr Hr' (equals_decide _ _)).
  rewrite (allEqual_pair _ _ _ _ _ _ _ (deqb (s_pool s) (s_pool s')) Hs Hs' (eq_ok _ _)).
  unfold nearTroves. cbn [forallb]. rewrite andb_true_r.
  pose proof (deqb_eq (s_price s) (s_price s')) as E1.
  pose proof (deqb_eq (s_pool s) (s_pool s')) as E2.
  destruct (Z.eqb_spec (s_number s) (s_number s')); cbn [res_bind]; [|naive_solver].
  destruct (deqb (s_price s) (s_price s')); cbn [res_bind]; [|naive_solver].
  destruct (near _ _), (near _ _); cbn [andb res_bind]; try naive_solver.
  case_bool_decide; cbn [res_bind]; [|naive_solver].
  destruct (deqb (s_pool s) (s_pool s')); cbn [res_bind]; naive_solver.
Qed.

(** C22: the fuzzer's check of the indexer against the chain, when both answer and no two Troves of
    the chain have the same owner, passes exactly when the numbers of Troves, the prices, what has
    been redistributed and the pools are the same, the totals are less than 10^-9 apart in
    collateral and in debt, the list of the indexer is a permutation of that of the chain, Trove
    by Trove equal in all its parts, and in it no ratio exceeds the one before by more than
    10^-9. *)
Theorem subgraph_check_decides subgraph l1 s s' :
  answers subgraph s -> answers l1 s' -> NoDup (map owner (s_troves s')) ->
  checkSubgraph subgraph l1 = Ok tt <->
  (s_number s = s_number s' /\ s_price s = s_price s' /\ nearTroves (s_total s) (s_total s') /\
   s_redistributed s = s_redistributed s' /\ s_pool s = s_pool s') /\
  Permutation (s_troves s') (s_troves s) /\
  Sorted (follows (s_redistributed s) (s_price s)) (s_troves s).
Proof.
  intros Ha Ha' Hnd. rewrite <- (checks_ok _ _ _ _ Ha Ha'), <- (lists_equal_iff _ _ Hnd).
  unfold checkSubgraph, getListOfTrovesBeforeRedistribution.
  destruct Ha as (Hn & Hp & _ & Hr & _ & Hl), Ha' as (Hn' & _ & _ & _ & _ & Hl').
  rewrite Hn, Hn', Hp, Hr. cbn [res_bind]. rewrite Hl, Hl'. cbn [res_bind].
  destruct (res_mapM _ checks) as [us|m]; cbn [res_bind]; [|naive_solver].
  destruct (listOfTrovesShouldBeEqual _ _) as [ []|m]; cbn [res_bind]; [|naive_solver].
  destruct (sortedByICR_ok (s_troves s) (s_redistributed s) (s_price s)) as (b & -> & Hb).
  cbn [res_bind]. rewrite <- Hb. destruct b; [naive_solver|].
  destruct (dumpTroves _ _ _); cbn [res_bind]; naive_solver.
Qed.

(** The sums of what the Troves had before and have got since. *)
Definition activeSum (l : list TroveWithPendingRedistribution.t) : Trove.t :=
  foldr (fun t acc => tadd (trove t) acc) tempty l.
Definition defaultSum (total : Trove.t) (l : list TroveWithPendingRedistribution.t) : Trove.t :=
  foldr (fun t acc =>
    tadd (tmultiply (tsubtract total (snapshotOfTotalRedistributed t)) (stake t)) acc) tempty l.

Lemma tadd_assoc a b c : tadd (tadd a b) c = tadd a (tadd b c).
Proof. apply trove_eq; cbn; lia. Qed.
Lemma tadd_empty_r a : tadd a tempty = a.
Proof. apply trove_eq; cbn; lia. Qed.

Lemma tsubtract_tadd a b : tsubtract (tadd a b) a = b.
Proof. apply trove_eq; cbn; lia. Qed.

Lemma pool_totals_ok total l a d :
  res_foldM (addTotals total) (a, d) l = Ok (tadd a (activeSum l), tadd d (defaultSum total l)).
Proof.
  revert a d. induction l as [|t l IH]; intros a d; cbn [res_foldM activeSum defaultSum foldr].
  { by rewrite !tadd_empty_r. }
  unfold addTotals. rewrite redistribution_ok. cbn [res_bind UserTrove.super].
  rewrite subtract_ok. cbn [res_bind]. rewrite tadd_ok. cbn [res_bind]. rewrite tadd_ok.
  cbn [res_bind]. rewrite IH, !tadd_assoc. f_equal. f_equal. f_equal. f_equal.
  unfold redistributed. by rewrite tsubtract_tadd.
Qed.

(** The fuzzer's check of the pools passes exactly when the active pool holds what the Troves
    have before redistribution and the default pool what they have got by it, to within 10^-9. *)
Theorem pool_check_decides activePool defaultPool l total :
  checkPoolBalances activePool defaultPool l total = Ok tt <->
  nearTroves activePool (activeSum l) /\ nearTroves defaultPool (defaultSum total l).
Proof.
  unfold checkPoolBalances. rewrite empty_val, pool_totals_ok. cbn [res_bind].
  assert (forall t, tadd tempty t = t) as E by (intros t; apply trove_eq; cbn; lia).
  rewrite !E, everyRoughly_ok. cbn [res_bind forallb]. unfold nearTroves. rewrite andb_true_r.
  destruct (near _ _), (near _ _), (near _ _), (near _ _); cbn [andb]; naive_solver.
Qed.

End Facts.
End ChecksProperties.

(** ** Histograms of gas *)
Module HistogramProperties.
Import GasHistogram.

Section Histogram.
Context {BN : BigNumberOps} {BNL : BigNumberLaws BN}.

(** The gas a call of [expectSuccess] records, if its transaction succeeds in the end. *)
Definition recorded (sendTx : nat -> Res Attempt) : option Z :=
  match retryUpTo 1 sendTx with
  | Ok (_, receipt) => if succeeded receipt then Some (gasUsed receipt) else None
  | Throw _ => None
  end.

(** The calls of a run, whose errors are caught. *)
Definition runSends (sends : list (nat -> Res Attempt)) : t :=
  fold_left (fun h sendTx => snd (expectSuccess sendTx h)) sends new.

(** How many of the amounts fall in an interval. *)
Definition count (gs : list Z) (i : Z) : Z :=
  Z.of_nat (length (filter (fun g => g / intervalWidth = i) gs)).

Definition counted (gs : list Z) : list Z := map (fun i => count gs (Z.of_nat i)) (seq 0 numberOfBins).

(** What the histogram has room for. *)
Definition fits (g : Z) : Prop := 0 <= g < 8000000.

Lemma count_snoc gs g i :
  count (gs ++ [g]) i = count gs i + (if bool_decide (g / intervalWidth = i) then 1 else 0).
Proof.
  unfold count. rewrite filter_app, length_app, Nat2Z.inj_add, filter_cons, filter_nil.
  case_bool_decide; destruct (decide _); done.
Qed.

Lemma counted_lookup gs i : (i < numberOfBins)%nat -> counted gs !! i = Some (count gs (Z.of_nat i)).
Proof.
  intros H. unfold counted. change (map ?f ?l) with (f <$> l).
  rewrite list_lookup_fmap, lookup_seq_lt by done. done.
Qed.

Lemma counted_length gs : length (counted gs) = numberOfBins.
Proof. unfold counted. by rewrite length_map, length_seq. Qed.

Lemma fits_bin g : fits g -> 0 <= g / intervalWidth < 800.
Proof.
  intros [H0 H1]. unfold intervalWidth. split; [by apply Z.div_pos|].
  apply Z.div_lt_upper_bound; lia.
Qed.

Lemma add_counted gs g h :
  gasUsedBins h = counted gs -> fits g ->
  exists h', addToGasUsedHisto g h = (Ok tt, h') /\ gasUsedBins h' = counted (gs ++ [g]).
Proof.
  intros Hh Hg. pose proof (fits_bin g Hg) as Hb. unfold addToGasUsedHisto.
  rewrite bn_toNumber_safe by (destruct Hg; unfold MAX_SAFE_INTEGER; lia).
  rewrite Hh, counted_length.
  destruct (Z.ltb_spec (g / intervalWidth) (Z.of_nat numberOfBins)) as [_|]; [|unfold numberOfBins in *; lia].
  eexists. split; [done|]. cbn [gasUsedBins]. apply list_eq. intros i.
  destruct (decide (i < numberOfBins)%nat) as [Hi|Hi].
  - rewrite (counted_lookup _ _ Hi), count_snoc. case_bool_decide as E.
    + rewrite E, Nat2Z.id, list_lookup_alter_eq, counted_lookup by done. cbn. f_equal. lia.
    + rewrite list_lookup_alter_ne, counted_lookup by (try done; lia). f_equal. lia.
  - rewrite !lookup_ge_None_2; [done| |]; rewrite ?length_alter, counted_length; lia.
Qed.

Lemma send_counted gs sendTx h :
  gasUsedBins h = counted gs -> (forall g, recorded sendTx = Some g -> fits g) ->
  gasUsedBins (snd (expectSuccess sendTx h)) =
    counted (gs ++ match recorded sendTx with Some g => [g] | None => [] end).
Proof.
  intros Hh. unfold recorded, expectSuccess, st_bind, st_lift, st_modify, st_throw.
  destruct (retryUpTo 1 sendTx) as [ [n r]|m]; [|by rewrite app_nil_r].
  destruct (succeeded r); [|by rewrite app_nil_r]. intros Hf.
  destruct (add_counted gs (gasUsed r) (mk (expectedFailures h)
    (outOfGasFailures h + Z.of_nat n) (gasUsedBins h)) Hh (Hf _ eq_refl)) as (h' & E & Hb).
  rewrite E. exact Hb.
Qed.

Lemma runSends_counted sends :
  (forall g, In g (omap recorded sends) -> fits g) ->
  gasUsedBins (runSends sends) = counted (omap recorded sends).
Proof.
  unfold runSends. induction sends as [|s sends IH] using rev_ind; intros H.
  - done.
  - rewrite fold_left_app. cbn [fold_left]. rewrite omap_app in *.
    rewrite (send_counted (omap recorded sends)).
    + by f_equal.
    + apply IH. intros g Hg. apply H, in_app_iff. by left.
    + intros g Hg. apply H, in_app_iff. right. cbn. rewrite Hg. by left.
Qed.

(** *** The results *)

Lemma findPositive_spec l :
  (findPositive l = -1 /\ forall i x, l !! i = Some x -> x <= 0) \/
  exists k, findPositive l = Z.of_nat k /\ (exists x, l !! k = Some x /\ 0 < x) /\
    forall i x, (i < k)%nat -> l !! i = Some x -> x <= 0.
Proof.
  induction l as [|x l IH]; [by left|]. cbn [findPositive].
  destruct (Z.ltb_spec 0 x).
  { right. exists 0%nat. split; [done|]. split; [by exists x|]. intros; lia. }
  destruct IH as [ [-> IH]|(k & -> & [y Hy] & IH)].
  - left. split; [done|]. intros [|i] y; [by intros [= <-]|apply IH].
  - right. exists (S k). destruct (Z.ltb_spec (Z.of_nat k) 0); [lia|].
    split; [lia|]. split; [by exists y|]. intros [|i] z Hi; [by intros [= <-]|]. apply IH. lia.
Qed.

Lemma count_pos gs i : 0 < count gs i <-> exists g, In g gs /\ g / intervalWidth = i.
Proof.
  unfold count. split.
  - intros H. destruct (filter (fun g => g / intervalWidth = i) gs) as [|g l] eqn:E; [done|].
    assert (g ∈ filter (fun g => g / intervalWidth = i) gs) as [H1 H2]%list_elem_of_filter
      by (rewrite E; by left).
    exists g. by rewrite <- list_elem_of_In.
  - intros (g & H1 & H2). assert (g ∈ filter (fun g => g / intervalWidth = i) gs) as Hin.
    { apply list_elem_of_filter. by rewrite list_elem_of_In. }
    destruct (filter _ gs); [by apply not_elem_of_nil in Hin|]. cbn [length]. lia.
Qed.

(** The frequencies of an interval that has all amounts in it. *)
Lemma counts_sum gs lo n :
  (forall g, In g gs -> lo <= g / intervalWidth < lo + Z.of_nat n) ->
  foldr Z.add 0 (map (fun i => count gs (lo + Z.of_nat i)) (seq 0 n)) = Z.of_nat (length gs).
Proof.
  assert (forall (f g : nat -> Z) l, foldr Z.add 0 (map (fun i => f i + g i) l) =
    foldr Z.add 0 (map f l) + foldr Z.add 0 (map g l)) as Hadd.
  { intros f g l. induction l as [|x l IH]; [done|]. cbn [map foldr]. rewrite IH. lia. }
  assert (forall b s m, foldr Z.add 0 (map (fun i => if bool_decide (b = lo + Z.of_nat i) then 1 else 0)
    (seq s m)) = if bool_decide (lo + Z.of_nat s <= b < lo + Z.of_nat (s + m)) then 1 else 0) as Hone.
  { intros b s m. revert s. induction m as [|m IH]; intros s; cbn [seq map foldr].
    - case_bool_decide; lia.
    - rewrite IH. repeat case_bool_decide; lia. }
  induction gs as [|g gs IH] using rev_ind; intros H.
  - unfold count. cbn. clear. induction (seq 0 n) as [|x l IH]; [done|]. exact IH.
  - rewrite (map_ext _ _ (fun i => count_snoc gs g (lo + Z.of_nat i))), Hadd, IH, Hone.
    + rewrite length_app. cbn [length]. rewrite bool_decide_true; [lia|].
      specialize (H g ltac:(apply in_app_iff; right; by left)). cbn. lia.
    + intros g' Hg. apply H, in_app_iff. by left.
Qed.

Lemma rev_counted gs i : (i < numberOfBins)%nat ->
  rev (counted gs) !! i = Some (count gs (Z.of_nat (numberOfBins - S i))).
Proof.
  intros H. assert (rev (counted gs) = reverse (counted gs)) as -> by apply rev_alt.
  rewrite reverse_lookup by (by rewrite counted_length).
  rewrite counted_length. apply counted_lookup. lia.
Qed.

Lemma slice_counted gs lo n :
  (lo + n <= numberOfBins)%nat ->
  slice (Z.of_nat lo) (Z.of_nat (lo + n)) (counted gs) =
    map (fun i => count gs (Z.of_nat lo + Z.of_nat i)) (seq 0 n).
Proof.
  intros H. unfold slice. rewrite counted_length.
  destruct (Z.ltb_spec (Z.of_nat lo) 0); [lia|]. destruct (Z.ltb_spec (Z.of_nat (lo + n)) 0); [lia|].
  rewrite !Z.min_l by lia. rewrite Nat2Z.id.
  replace (Z.to_nat (Z.of_nat (lo + n) - Z.of_nat lo)) with n by lia.
  change (map ?f ?l) with (f <$> l). apply list_eq. intros i. rewrite list_lookup_fmap.
  destruct (decide (i < n)%nat) as [Hi|Hi].
  - rewrite lookup_take_lt, lookup_drop, counted_lookup, lookup_seq_lt by lia. cbn. f_equal. f_equal. lia.
  - rewrite lookup_take_ge, lookup_seq_ge by lia. done.
Qed.

Lemma counted_bin gs :
  (forall g, In g gs -> fits g) -> forall g, In g gs ->
  exists b, (b < numberOfBins)%nat /\ g / intervalWidth = Z.of_nat b /\ 0 < count gs (Z.of_nat b).
Proof.
  intros Hf g Hg. pose proof (fits_bin g (Hf g Hg)) as Hb.
  exists (Z.to_nat (g / intervalWidth)). unfold numberOfBins. split; [lia|].
  rewrite Z2Nat.id by lia. split; [done|]. apply count_pos. by exists g.
Qed.

(** Where the results of a histogram that counts some amounts start and end. *)
Lemma bounds_counted gs :
  (forall g, In g gs -> fits g) -> gs <> [] ->
  exists lo n, (0 < n)%nat /\ (lo + n <= numberOfBins)%nat /\
    findPositive (counted gs) = Z.of_nat lo /\
    Z.of_nat (length (counted gs)) - findPositive (rev (counted gs)) = Z.of_nat (lo + n) /\
    (forall g, In g gs -> Z.of_nat lo <= g / intervalWidth < Z.of_nat lo + Z.of_nat n) /\
    0 < count gs (Z.of_nat lo) /\ 0 < count gs (Z.of_nat lo + Z.of_nat n - 1).
Proof.
  intros Hf Hne.
  pose proof (counted_bin gs Hf) as Hbin.
  destruct gs as [|g0 gs']; [done|]. set (gs := g0 :: gs') in *.
  destruct (Hbin g0) as (b0 & Hb0 & _ & Hc0); [by left|].
  assert (forall b, 0 < count gs (Z.of_nat b) -> (b < numberOfBins)%nat) as Hlt.
  { intros b (g & Hg & E)%count_pos. destruct (Hbin g Hg) as (b' & H & E' & _).
    rewrite E in E'. lia. }
  destruct (findPositive_spec (counted gs)) as [ [_ H]|(lo & -> & (x & Hx & Hpos) & Hlo)].
  { specialize (H b0 _ (counted_lookup gs b0 Hb0)). lia. }
  assert (lo < numberOfBins)%nat as Hlo' by (apply lookup_lt_Some in Hx; by rewrite counted_length in Hx).
  rewrite counted_lookup in Hx by done. injection Hx as <-.
  destruct (findPositive_spec (rev (counted gs))) as [ [_ H]|(k & -> & (x & Hx & Hpos') & Hhi)].
  { specialize (H (numberOfBins - S b0)%nat). rewrite rev_counted in H by lia.
    specialize (H _ eq_refl). replace (numberOfBins - S (numberOfBins - S b0))%nat with b0 in H by lia. lia. }
  assert (k < numberOfBins)%nat as Hk.
  { apply lookup_lt_Some in Hx. by rewrite length_rev, counted_length in Hx. }
  rewrite rev_counted in Hx by done. apply (inj Some) in Hx as <-.
  assert (lo <= numberOfBins - S k)%nat as Hle.
  { destruct (decide (numberOfBins - S k < lo)%nat) as [Hd|]; [|lia].
    specialize (Hlo _ _ Hd (counted_lookup gs (numberOfBins - S k) ltac:(lia))).
      by apply Z.le_ngt in Hlo. }
  exists lo, (numberOfBins - k - lo)%nat. rewrite counted_length.
  split; [lia|]. split; [lia|]. split; [done|]. split; [lia|]. split; [|split; [done|] ].
  - intros g Hg. destruct (Hbin g Hg) as (b & Hb & -> & Hc). split.
    + destruct (decide (b < lo)%nat) as [Hd|]; [|lia].
      specialize (Hlo _ _ Hd (counted_lookup gs b Hb)). lia.
    + destruct (decide (numberOfBins - S b < k)%nat) as [Hd|]; [|lia].
      specialize (Hhi _ _ Hd (rev_counted gs (numberOfBins - S b) ltac:(lia))).
      replace (numberOfBins - S (numberOfBins - S b))%nat with b in Hhi by lia. lia.
  - replace (Z.of_nat lo + Z.of_nat (numberOfBins - k - lo) - 1)
      with (Z.of_nat (numberOfBins - S k)) by lia. done.
Qed.

(** After any calls of [expectSuccess], whatever is sent, fails or runs out of gas, the results
    of the histogram are the numbers of successes by intervals of 10000 units of gas, without a gap
    from the first interval with a success to the last, and they add up to the number of
    successes; without a success they are a single interval below zero. *)
Theorem histogram_counts sends :
  (forall g, In g (omap recorded sends) -> fits g) ->
  let gs := omap recorded sends in
  let results := getResults (runSends sends) in
  (gs = [] -> results = [(-10000, 0)]) /\
  (gs <> [] -> exists lo n,
     results = map (fun i => (10000 * (lo + Z.of_nat i), count gs (lo + Z.of_nat i))) (seq 0 n) /\
     (forall g, In g gs -> lo <= g / 10000 < lo + Z.of_nat n) /\
     0 < count gs lo /\ 0 < count gs (lo + Z.of_nat n - 1) /\
     foldr Z.add 0 (map snd results) = Z.of_nat (length gs)).
Proof.
  intros Hf gs results. pose proof (runSends_counted sends Hf) as Hb. fold gs in Hf, Hb.
  subst results. unfold getResults. rewrite Hb. split; [by intros ->|]. intros Hne.
  destruct (bounds_counted gs Hf Hne) as (lo & n & _ & Hn & -> & -> & Hin & Hlo & Hhi).
  rewrite slice_counted by done. exists (Z.of_nat lo), n.
  assert (forall {A B} (f : nat -> A) (g : nat -> A -> B) m s,
    imap (fun i x => g (s + i)%nat x) (map f (seq s m)) = map (fun i => g i (f i)) (seq s m)) as Himap.
  { intros A B f g m. induction m as [|m IH]; intros s; [done|]. cbn [seq map].
    rewrite imap_cons. f_equal; [by rewrite Nat.add_0_r|]. rewrite <- IH. apply imap_ext.
    intros i x _. cbn. f_equal. lia. }
  rewrite (Himap _ _ _ (fun i frequency => (intervalWidth * (Z.of_nat lo + Z.of_nat i), frequency)) n 0%nat).
  split; [done|]. split; [done|]. split; [done|]. split; [done|].
  rewrite map_map. cbn [snd]. by apply counts_sum.
Qed.

End Histogram.
End HistogramProperties.

(** ** The funder *)
Module FixtureProperties.
Import Decimal DecimalFacts Trove TroveParams TroveFacts TroveProperties Fixture.

Section Fixture.
Context {BN : BigNumberOps} {BNL : BigNumberLaws BN}.

Lemma from_text s d : from (BN := Z_bignumber) (ofNumber s) = Ok d -> from (ofNumber s) = Ok d.
Proof. intros <-. apply from_number. Qed.

Lemma below_critical a (price : Decimal.t) :
  exists b, collateralRatioIsBelowCritical a (ofDecimal price) = Ok b.
Proof.
  unfold collateralRatioIsBelowCritical, collateralRatio. rewrite mulDiv_ok. cbn [res_bind].
  rewrite lt_ok. by eexists.
Qed.

Lemma target_ok trove total price :
  exists x r, targetCollateralRatio trove total price = Ok x /\ from x = Ok r.
Proof.
  unfold targetCollateralRatio.
  assert (from (ofNumber "1.51") = Ok (Decimal.mk (151 * 10 ^ 16))) as Hd by (apply from_text; by vm_compute).
  destruct (isEmpty trove); cbn [res_bind]; [by eexists _, _|].
  destruct (below_critical total price) as [b ->]. cbn [res_bind].
  destruct b; [|by eexists _, _].
  unfold collateralRatio. rewrite mulDiv_ok. cbn [res_bind].
  rewrite (add_from _ (Decimal.mk (10 ^ 13))) by (apply from_text; by vm_compute). cbn [res_bind].
  unfold max. rewrite from_decimal. cbn [res_bind].
  rewrite (from_text "1.11" (Decimal.mk (111 * 10 ^ 16))) by (by vm_compute). cbn [res_bind].
  rewrite gt_ok. cbn [res_bind]. destruct (dltb _ _); cbn [res_bind]; eexists _, _; split; done.
Qed.

Lemma base_ok trove :
  exists t, (if isEmpty trove then create (mkCreation (ofNumber "1") (ofNumber "0")) None
             else Ok trove) = Ok t /\
    units (debt t) = (if isEmpty trove then 200 * SCALE else units (debt trove))%N.
Proof.
  destruct (isEmpty trove); [|by eexists].
  assert (_normalizeTroveCreation (rawCreation (mkCreation (ofNumber "1") (ofNumber "0"))) =
    Ok (mkCreation (Decimal.mk SCALE) (Decimal.mk 0))) as H.
  { unfold _normalizeTroveCreation, decimalize. cbn -[Decimal.from].
    rewrite (from_text "1" (Decimal.mk SCALE)) by (by vm_compute). cbn -[Decimal.from].
    by rewrite (from_text "0" (Decimal.mk 0)) by (by vm_compute). }
  unfold create. rewrite H. cbn [res_bind].
  change (apply empty ?c None) with (apply empty c (Some (ofDecimal MINIMUM_BORROWING_RATE))).
  rewrite (apply_creation_ok _ _ (Decimal.mk (5 * 10 ^ 15))).
  - eexists. split; [done|]. cbn [debt]. unfold dapplyFee, dadd. cbn [units borrowTHUSD]. done.
  - rewrite from_decimal. by rewrite MINIMUM_BORROWING_RATE_val.
Qed.

(** What the debt of the funder's Trove becomes, at least: what it was, or the reserve, and twice
    what is missing. *)
Lemma funding_ok trove total price short :
  (0 < units short)%N ->
  exists t, fundingTrove trove total price short = Ok t /\
    ((if isEmpty trove then 200 * SCALE else units (debt trove)) + 2 * units short <= units (debt t))%N.
Proof.
  intros Hs. unfold fundingTrove. destruct (target_ok trove total price) as (x & r & -> & Hx).
  cbn [res_bind].
  set (base := (if isEmpty trove then 200 * SCALE else units (debt trove))%N).
  destruct (base_ok trove) as (t0 & -> & Ht0). cbn [res_bind]. fold base in Ht0.
  rewrite (mul_from _ (Decimal.mk (2 * SCALE))) by (apply from_text; by vm_compute). cbn [res_bind].
  set (twice := dmul short (Decimal.mk (2 * SCALE))).
  assert (units twice = 2 * units short)%N as Htwice.
  { unfold twice, dmul. cbn [units]. rewrite N.mul_assoc, N.div_mul by done. lia. }
  assert (adjust t0 (adjustmentish (mkAdjustment None None (Some twice) None)) None =
    Ok (tadjust (Decimal.mk (5 * 10 ^ 15)) t0 (mkAdjustment None None (Some twice) None) None)) as Hadj.
  { unfold adjust. rewrite normalizeAdjustment_normal.
    - cbn [res_bind]. change (apply t0 ?c None) with (apply t0 c (Some (ofDecimal MINIMUM_BORROWING_RATE))).
      apply apply_adjustment_ok. rewrite from_decimal. by rewrite MINIMUM_BORROWING_RATE_val.
    - unfold normal. cbn [positive exclusive present deposit withdraw borrow repay].
      rewrite (proj2 (N.eqb_neq (units twice) 0)) by lia. done. }
  change (mkAdjustment None None (Some (ofDecimal twice)) None)
    with (adjustmentish (mkAdjustment None None (Some twice) None)).
  rewrite Hadj. clear Hadj. cbn [res_bind].
  set (t1 := tadjust (Decimal.mk (5 * 10 ^ 15)) t0 (mkAdjustment None None (Some twice) None) None).
  assert (base + 2 * units short <= units (debt t1))%N as Ht1.
  { unfold t1, tadjust, increase, decrease, tsubtract, tadd. cbn [debt units dsub dadd borrow repay orZero].
    pose proof (dapplyFee_ge (Decimal.mk (5 * 10 ^ 15)) twice). lia. }
  rewrite THUSD_MINIMUM_DEBT_val, lt_ok. cbn [res_bind]. unfold dltb. cbn [units].
  destruct (N.ltb_spec (units (debt t1)) (2000 * SCALE)); unfold setDebt;
    rewrite ?from_decimal; cbn [res_bind debt];
    rewrite (mulDiv_from _ _ _ _ _ Hx (from_decimal _)); cbn [res_bind]; unfold setCollateral;
    rewrite from_decimal; cbn [res_bind]; eexists; (split; [done|]); cbn [debt units]; lia.
Qed.

(** Raising the collateral does not change the debt. *)
Lemma healthy_ok trove total t price :
  (units (debt trove) <= units (debt t))%N ->
  exists t', keepHealthy trove total t price = Ok t' /\ units (debt t') = units (debt t).
Proof.
  intros H. unfold keepHealthy. rewrite tadd_ok. cbn [res_bind]. rewrite subtract_ok. cbn [res_bind].
  destruct (below_critical total price) as [already ->]. cbn [res_bind].
  destruct already; [by eexists|].
  destruct (below_critical (tsubtract (tadd total t) trove) price) as [below ->]. cbn [res_bind].
  destruct below; [|by eexists].
  rewrite (mulDiv_from _ _ _ _ _ (from_text "1.51" (Decimal.mk (151 * 10 ^ 16)) ltac:(by vm_compute))
    (from_decimal price)). cbn [res_bind].
  unfold setCollateral. rewrite from_decimal. cbn [res_bind]. rewrite tadd_ok. cbn [res_bind].
  rewrite subtract_ok. eexists. split; [done|].
  unfold tsubtract, tadd. cbn [debt dsub dadd units]. lia.
Qed.

(** Taking a fee of at most the amount off leaves half of it. *)
Lemma unapply_half r d short :
  (units r <= SCALE)%N -> (2 * units short <= units d)%N ->
  (units short <= units (dunapplyFee r d))%N.
Proof.
  intros Hr Hd. unfold dunapplyFee, onePlus. cbn [units]. apply N.div_le_lower_bound; [unfold SCALE; lia|].
  set (S := SCALE) in *. assert (0 < S)%N by done. nia.
Qed.

(** What [recreate] and [adjustTo] borrow. *)
Lemma recreate_borrows t r x :
  from x = Ok r -> (200 * SCALE < units (debt t))%N ->
  recreate t (Some x) =
    Ok (mkCreation (collateral t) (dunapplyFee r (dsub (debt t) (Decimal.mk (200 * SCALE))))).
Proof.
  intros Hx H. unfold recreate. rewrite (whatChanged_ok _ _ _ _ Hx), empty_val.
  unfold badClosure, twhatChanged. rewrite !isEmpty_ok.
  assert (deqb (debt tempty) (debt t) = false) as ->.
  { apply not_true_is_false. rewrite deqb_eq. intros E. rewrite <- E in H. cbn in H. lia. }
  rewrite !andb_false_r. cbn [tempty collateral debt units N.eqb andb negb].
  rewrite (proj2 (N.ltb_ge (units (debt t)) (200 * SCALE))) by lia. done.
Qed.

Lemma adjustTo_borrows a t r x :
  from x = Ok r -> isEmpty a = false -> (units (debt a) < units (debt t))%N ->
  exists p, adjustTo a t (Some x) = Ok p /\
    borrow p = Some (dunapplyFee r (dsub (debt t) (debt a))).
Proof.
  intros Hx Ha H. unfold adjustTo. rewrite (whatChanged_ok _ _ _ _ Hx).
  assert (isEmpty t = false) as Ht.
  { rewrite isEmpty_ok. rewrite (proj2 (N.eqb_neq (units (debt t)) 0)) by lia. apply andb_false_r. }
  assert (deqb (debt a) (debt t) = false) as Hd.
  { apply not_true_is_false. rewrite deqb_eq. intros E. rewrite E in H. lia. }
  unfold badClosure, twhatChanged. rewrite Ha, Ht, Hd, !andb_false_r. cbn [andb negb res_bind].
  unfold tdebtChange, dltb. rewrite (proj2 (N.ltb_lt _ _) H).
  destruct (deqb (collateral a) (collateral t)); [by eexists|].
  unfold tcollateralChange. destruct (dltb _ _); by eexists.
Qed.

(** What an action of the funder borrows. *)
Definition borrows (a : Action) : option Decimal.t :=
  match a with
  | FunderOpens p => Some (borrowTHUSD p)
  | FunderAdjusts p => borrow p
  | _ => None
  end.

(** C20: whatever the funder's Trove, the system, the price and the rate (up to 100%), the funder
    that is to send an amount sends exactly it, and nothing else when its balance covers it;
    otherwise it first opens its Trove, or adjusts the one it has, borrowing at least what is
    missing. *)
Theorem funder_covers (funder : Funder) price toAddress x amount :
  from x = Ok amount -> (units (rate funder) <= SCALE)%N ->
  exists before, sendTHUSDFromFunder funder price toAddress x =
      Ok (before ++ [FunderSendsTHUSD toAddress amount]) /\
    ((units amount <= units (thusdBalance funder))%N -> before = []) /\
    ((units (thusdBalance funder) < units amount)%N ->
     exists a b, before = [a] /\ borrows a = Some b /\
       (units amount <= units (thusdBalance funder) + units b)%N /\
       (match a with FunderOpens _ => isEmpty (trove funder) | _ => negb (isEmpty (trove funder)) end
        = true)).
Proof.
  intros Hx Hr. unfold sendTHUSDFromFunder. rewrite Hx. cbn [res_bind]. rewrite lt_ok.
  cbn [res_bind]. unfold dltb.
  destruct (N.ltb_spec (units (thusdBalance funder)) (units amount)) as [Hs|Hs].
  2: { exists []. split; [done|]. split; [done|]. lia. }
  rewrite sub_ok by lia. cbn [res_bind]. set (short := dsub amount (thusdBalance funder)).
  assert (units short = units amount - units (thusdBalance funder))%N as Hshort by done.
  destruct (funding_ok (trove funder) (total funder) price short ltac:(lia)) as (t & -> & Ht).
  cbn [res_bind]. destruct (isEmpty (trove funder)) eqn:Ee.
  - rewrite (recreate_borrows _ _ _ (from_decimal (rate funder))) by lia. cbn [res_bind].
    eexists. split; [done|]. split; [lia|]. intros _. eexists _, _. split; [done|]. split; [done|].
    split; [|done]. cbn [borrowTHUSD].
    pose proof (unapply_half (rate funder) (dsub (debt t) (Decimal.mk (200 * SCALE))) short Hr) as Hh.
    cbn [dsub units] in Hh. lia.
  - destruct (healthy_ok (trove funder) (total funder) t price ltac:(lia)) as (t' & -> & Ht').
    cbn [res_bind].
    destruct (adjustTo_borrows (trove funder) t' _ _ (from_decimal (rate funder)) Ee) as (p & -> & Hp);
      [lia|]. cbn [res_bind].
    eexists. split; [done|]. split; [lia|]. intros _. exists (FunderAdjusts p). eexists.
    split; [done|]. split; [exact Hp|]. split; [|done].
    pose proof (unapply_half (rate funder) (dsub (debt t') (debt (trove funder))) short Hr) as Hh.
    cbn [dsub units] in Hh. lia.
Qed.

End Fixture.
End FixtureProperties.

(** ** The commands *)
Module CommandsProperties.
Import Commands.

Section Order.
Context {Chain : Type}.
Context (getNumberOfTroves : Chain -> Z) (liquidateUpTo : Z -> Chain -> Res Chain).
(** Liquidating up to [n] Troves of more than [n] closes one at least, when there is one to close,
    or reverts; with the price at 0.001 there is. *)
Context (liquidates : forall n c, 0 < n < getNumberOfTroves c ->
  exists c', liquidateUpTo n c = Ok c' /\
    getNumberOfTroves c - n <= getNumberOfTroves c' < getNumberOfTroves c).

Lemma liquidateAll_ends c fuel :
  1 <= getNumberOfTroves c <= 1 + Z.of_nat fuel ->
  exists c' rounds, liquidateAll getNumberOfTroves liquidateUpTo fuel c = Some (Ok (c', rounds)) /\
    getNumberOfTroves c' = 1 /\
    (getNumberOfTroves c - 1 <= 10 * Z.of_nat rounds /\ Z.of_nat rounds <= getNumberOfTroves c - 1).
Proof.
  revert c. induction fuel as [|fuel IH]; intros c H; cbn [liquidateAll].
  - destruct (Z.ltb_spec 1 (getNumberOfTroves c)); [lia|]. exists c, 0%nat. split; [done|]. lia.
  - destruct (Z.ltb_spec 1 (getNumberOfTroves c)); [|exists c, 0%nat; split; [done|lia] ].
    set (n := numberOfTrovesToLiquidate (getNumberOfTroves c)).
    assert (0 < n < getNumberOfTroves c /\ n <= 10) as [Hn Hten].
    { unfold n, numberOfTrovesToLiquidate. destruct (Z.ltb_spec 10 (getNumberOfTroves c)); lia. }
    destruct (liquidates n c Hn) as (c1 & -> & H1).
    destruct (IH c1) as (c' & rounds & -> & H2 & H3); [lia|].
    exists c', (S rounds). split; [done|]. lia.
Qed.

(** From a list with a Trove in it, the command that restores order ends, with one Trove left,
    after at most as many rounds as there are others, and at least a tenth of that, if every call
    of the contract closes at least one; and it does not throw. *)
Theorem order_ends c setInitialPrice fuel :
  (forall c, getNumberOfTroves (setInitialPrice c) = getNumberOfTroves c) ->
  1 <= getNumberOfTroves c <= 1 + Z.of_nat fuel ->
  exists c' rounds,
    liquidateAll getNumberOfTroves liquidateUpTo fuel c = Some (Ok (c', rounds)) /\
    getNumberOfTroves c' = 1 /\
    getNumberOfTroves c - 1 <= 10 * Z.of_nat rounds /\ Z.of_nat rounds <= getNumberOfTroves c - 1 /\
    finish getNumberOfTroves liquidateUpTo fuel setInitialPrice c = Some (Ok (setInitialPrice c')).
Proof.
  intros Hp H. destruct (liquidateAll_ends c fuel H) as (c' & rounds & E & H1 & H2 & H3).
  exists c', rounds. unfold finish. rewrite E, Hp, H1. by repeat split.
Qed.

End Order.

(** Every command connects first, which never succeeds: nothing is checked. *)
Lemma commands_stop {N : Network} {BN : BigNumberOps} arrivals reads subgraph deployer :
  (forall network imports i d,
     Connection.startedImports Connection.deployments network = Ok imports ->
     In (i, d) (arrivals network) -> In i imports) ->
  (forall user users, exists m, connectUsers arrivals (user :: users) = Throw m) /\
  wrapCmd (checkSorting arrivals reads deployer) = None /\
  wrapCmd (checkSubgraphCmd arrivals reads subgraph deployer) = None /\
  wrapCmd (dumpTrovesCmd arrivals reads deployer) = None.
Proof.
  intros Ha. split.
  - intros user users. unfold connectUsers. cbn [res_mapM].
    destruct (ConnectionProperties.connect_rejects Connection.EthersLiquity_from arrivals (inl user)
      None Ha) as (m & -> & _). by eexists.
  - unfold checkSorting, checkSubgraphCmd, dumpTrovesCmd, deployerLiquity.
    destruct (ConnectionProperties.connect_rejects Connection.EthersLiquity_from arrivals
      (inl deployer) None Ha) as (m & -> & _). done.
Qed.

End CommandsProperties.

(** ** Runs *)
Module FuzzerRuns.
Import Decimal DecimalFacts Trove TroveFacts TroveWithPendingRedistribution.
#[local] Existing Instances Z_bignumber Z_bignumber_laws.

Definition aTrove (o : string) (c d : N) : TroveWithPendingRedistribution.t :=
  TroveWithPendingRedistribution.mk
    (UserTrove.mk (Trove.mk (Decimal.mk (c * SCALE)) (Decimal.mk (d * SCALE))) o UserTrove.open)
    (Decimal.mk SCALE) (Trove.mk (Decimal.mk 0) (Decimal.mk 0)).
Definition byRatio : list TroveWithPendingRedistribution.t := [aTrove "0xA" 3 2000; aTrove "0xB" 2 2000].

Definition aReader (l : list TroveWithPendingRedistribution.t) : Checks.ReadableLiquity :=
  Checks.mkReadable (Ok 2) (Ok (Decimal.mk (2000 * SCALE)))
    (Ok (Trove.mk (Decimal.mk (5 * SCALE)) (Decimal.mk (4000 * SCALE)))) (Ok tempty)
    (Ok (Decimal.mk 0)) (fun _ => Ok []) (fun _ => Ok l).
Definition aSnapshot (l : list TroveWithPendingRedistribution.t) : ChecksProperties.Snapshot :=
  ChecksProperties.mkSnapshot 2 (Decimal.mk (2000 * SCALE))
    (Trove.mk (Decimal.mk (5 * SCALE)) (Decimal.mk (4000 * SCALE))) tempty (Decimal.mk 0) l.

Lemma subgraph_check_decides_witness :
  Checks.checkSubgraph (aReader byRatio) (aReader (rev byRatio)) = Ok tt /\
  Permutation (rev byRatio) byRatio.
Proof.
  assert (Checks.checkSubgraph (aReader byRatio) (aReader (rev byRatio)) = Ok tt) as H.
  { vm_compute. reflexivity. }
  split; [exact H|].
  assert (NoDup (map Checks.owner (rev byRatio))) as Hnd.
  { exact (bool_decide_unpack (NoDup (map Checks.owner (rev byRatio))) I). }
  apply (ChecksProperties.subgraph_check_decides (aReader byRatio) (aReader (rev byRatio))
    (aSnapshot byRatio) (aSnapshot (rev byRatio))) in H; [|by repeat split..|exact Hnd].
  destruct H as (_ & H & _). exact H.
Defined.

(** A transaction that runs out of gas and succeeds when it is sent again. *)
Definition retried (retries : nat) : Res GasHistogram.Attempt :=
  Ok (GasHistogram.mkAttempt (negb (Nat.eqb retries 0)) 345678 345678).
Definition once (gas : Z) (retries : nat) : Res GasHistogram.Attempt :=
  Ok (GasHistogram.mkAttempt true gas 1000000).
Definition someSends : list (nat -> Res GasHistogram.Attempt) :=
  [once 361000; retried; (fun _ => Throw "nonce"); once 349999].

Lemma histogram_counts_witness :
  GasHistogram.getResults (HistogramProperties.runSends someSends) =
    [(340000, 2); (350000, 0); (360000, 1)] /\
  exists lo n, GasHistogram.getResults (HistogramProperties.runSends someSends) =
    map (fun i => (10000 * (lo + Z.of_nat i),
                   HistogramProperties.count [361000; 345678; 349999] (lo + Z.of_nat i))) (seq 0 n).
Proof.
  split; [vm_compute; reflexivity|].
  destruct (HistogramProperties.histogram_counts someSends) as [_ H].
  - intros g Hg. vm_compute in Hg. unfold HistogramProperties.fits. lia.
  - destruct H as (lo & n & H & _); [vm_compute; discriminate|]. exists lo, n. exact H.
Defined.

Definition aFunder : Fixture.Funder :=
  Fixture.mkFunder (Decimal.mk (100 * SCALE)) tempty
    (Trove.mk (Decimal.mk (50 * SCALE)) (Decimal.mk (40000 * SCALE))) (Decimal.mk (5 * 10 ^ 15)).

Lemma funder_covers_witness :
  exists before a b,
    Fixture.sendTHUSDFromFunder aFunder (Decimal.mk (2000 * SCALE)) "0xB" (ofNumber "1100") =
      Ok (before ++ [Fixture.FunderSendsTHUSD "0xB" (Decimal.mk (1100 * SCALE))]) /\
    before = [a] /\ FixtureProperties.borrows a = Some b /\ (1000 * SCALE <= units b)%N.
Proof.
  destruct (FixtureProperties.funder_covers aFunder (Decimal.mk (2000 * SCALE)) "0xB" (ofNumber "1100")
    (Decimal.mk (1100 * SCALE))) as (before & H1 & _ & H2);
    [vm_compute; reflexivity|vm_compute; discriminate|].
  destruct H2 as (a & b & Hb & Hbb & Hle & _); [vm_compute; reflexivity|].
  exists before, a, b. split; [exact H1|]. split; [exact Hb|]. split; [exact Hbb|].
  cbn [aFunder Fixture.thusdBalance units] in Hle. lia.
Defined.

(** A chain that closes half of what it is asked for, and one at least. *)
Definition halves (n c : Z) : Res Z := Ok (c - (n + 1) / 2).

Lemma order_ends_witness :
  Commands.liquidateAll id halves 30 25 = Some (Ok (1, 7%nat)) /\
  exists c' rounds, Commands.liquidateAll id halves 30 25 = Some (Ok (c', rounds)) /\ c' = 1.
Proof.
  split; [vm_compute; reflexivity|].
  destruct (CommandsProperties.order_ends (id : Z -> Z) halves) with (c := 25) (fuel := 30%nat)
    (setInitialPrice := (id : Z -> Z)) as (c' & rounds & H1 & H2 & _).
  - intros n c Hn. cbn in Hn. exists (c - (n + 1) / 2). split; [done|]. cbn.
    pose proof (Z.div_mod (n + 1) 2 ltac:(lia)). pose proof (Z.mod_pos_bound (n + 1) 2 ltac:(lia)). lia.
  - done.
  - cbn. lia.
  - exists c', rounds. split; [exact H1|exact H2].
Defined.

(** The checks of lists take a list with the same Trove twice for one with two. *)
Lemma duplicate_passes :
  Checks.listOfTrovesShouldBeEqual [aTrove "0xA" 3 2000; aTrove "0xA" 3 2000] byRatio = Ok tt.
Proof. vm_compute. reflexivity. Qed.

(** A list in the wrong order with a ratio below 10^-9 is reported by another error, of the printing
    of the list. *)
Lemma broken_order_misreported :
  Checks.checkTroveOrdering
    [aTrove "0xA" 0 2000; aTrove "0xB" 3 2000; aTrove "0xC" 0 2000] tempty
    (Decimal.mk (2000 * SCALE)) None = Throw "negatives not supported by Decimal".
Proof. vm_compute. reflexivity. Qed.

End FuzzerRuns.
