(* ===== verification/Dashboard.v ===== *)
(** * The dashboard of the frontend

    [dev-frontend/src/components/SystemStatsCard.tsx], the cards of [components/Dashboard], the data
    of the charts ([Dashboard/Chart/context], [LineChart.tsx]), [TransactionStatus.tsx] and the
    texts of the cards of a user.  A component is its state; the effects run when it is mounted,
    and an update of the stores renders it again.  Dates and times are arguments. *)

From S2P Require Import Prelude BigNumber Decimals Constants Troves Fees LiquityStore Views Transactions Wallets.

Local Open Scope Z_scope.

Module Dashboard.

(** What the selectors of the cards take of the store of a version and a collateral. *)
Record Selected : Type := mkSelected {
  numberOfTroves : Z;
  price : Decimal.t;
  marketPrice : Decimal.t;
  total : Trove.t;
  thusdInStabilityPool : Decimal.t;
  borrowingRate : Decimal.t;
  piRedemptionRate : Decimal.t;
  deviationFactor : Decimal.t;
  pcvBalance : Decimal.t;
  symbol : string;
  mintList : bool;
}.

Definition selector (b : LiquityStore.LiquityStoreBaseState)
    (d : LiquityStore.LiquityStoreDerivedState) : Selected :=
  mkSelected (LiquityStore.numberOfTroves _ b) (snd (LiquityStore.price _ b))
    (snd (LiquityStore.marketPrice _ b)) (snd (LiquityStore.total _ b))
    (snd (LiquityStore.thusdInStabilityPool _ b)) (snd (LiquityStore.borrowingRate d))
    (snd (LiquityStore.piRedemptionRate _ b)) (snd (LiquityStore.deviationFactor _ b))
    (snd (LiquityStore.pcvBalance _ b)) (LiquityStore.symbol _ b) (LiquityStore.mintList _ b).

(** An element of what [useThresholdSelector] answers. *)
Record SelectorStore : Type := mkSelectorStore {
  version : string;
  collateral : string;
  store : Selected;
}.

Section Dashboard.
Context {BN : BigNumberOps}.

(** ** [SystemStatsCard.tsx] *)

Record Stats : Type := mkStats {
  borrowingFeeAvgPct : Percent.t Decimal.t;
  totalVaults : Z;
  thusdInSP : Decimal.t;
  thusdSupply : Decimal.t;
  pcvBal : Decimal.t;
}.

(** [thresholdSelectorStores.find(...)]: the first store of a version and a collateral. *)
Definition findStore (stores : list SelectorStore) (s : SelectorStore) : option SelectorStore :=
  List.find (fun s' => String.eqb (version s') (version s) && String.eqb (collateral s') (collateral s))
    stores.

(** The loop of the effect, with the sum of the rates; the state is set by functions of the
    previous one, the supply at the end. *)
Fixpoint addStores (all stores : list SelectorStore) (fee supply : Decimal.t) (s : Stats) :
    Res (Decimal.t * Decimal.t * Stats) :=
  match stores with
  | [] => Ok (fee, supply, s)
  | collateralStore :: stores =>
      match findStore all collateralStore with
      | None => Throw "TypeError: Cannot read properties of undefined (reading 'borrowingRate')"
      | Some thresholdStore =>
          let x := store thresholdStore in
          let! fee := Decimal.add fee (borrowingRate x) in
          let! inSP := Decimal.add (thusdInSP s) (thusdInStabilityPool x) in
          let! pcv := Decimal.add (pcvBal s) (pcvBalance x) in
          let! supply := Decimal.add supply (Trove.debt (total x)) in
          addStores all stores fee supply
            (mkStats (borrowingFeeAvgPct s) (totalVaults s + numberOfTroves x) inSP (thusdSupply s) pcv)
      end
  end.

(** A number where a Decimalish is expected. *)
Definition ofNat (n : nat) : Decimal.Decimalish := Decimal.ofNumber (Js.dec_string (Z.of_nat n)).

(** [useState(...)] *)
Definition noStats : Res Stats :=
  let! zero := Percent.new Decimal.ZERO in
  Ok (mkStats zero 0 Decimal.ZERO Decimal.ZERO Decimal.ZERO).

(** The effect, which runs when the card is mounted only. *)
Definition mountStats (stores : list SelectorStore) : Res Stats :=
  let! s := noStats in
  let! '(fee, supply, s) := addStores stores stores Decimal.ZERO Decimal.ZERO s in
  let! average := Decimal.div fee (ofNat (length stores)) in
  let! pct := Percent.new average in
  Ok (mkStats pct (totalVaults s) (thusdInSP s) supply (pcvBal s)).

(** What the card renders of the stores of the moment, besides its state. *)
Record Figures : Type := mkFigures {
  redemptionPrice : Decimal.t;
  oraclePrice : Decimal.t;
  shownMarketPrice : Decimal.t;
  totalCollateral : list (string * Decimal.t);
  recoveryModes : list string;
}.

Fixpoint inRecovery (stores : list SelectorStore) : Res (list string) :=
  match stores with
  | [] => Ok []
  | s :: stores =>
      let! below := Trove.collateralRatioIsBelowCritical (total (store s))
                      (Decimal.ofDecimal (price (store s))) in
      let! rest := inRecovery stores in
      Ok (if (below : bool) then symbol (store s) :: rest else rest)
  end.

Definition figures (stores : list SelectorStore) : Res Figures :=
  match stores with
  | [] => Throw "TypeError: Cannot read properties of undefined (reading 'store')"
  | first :: _ =>
      let! inversePrice := Decimal.div Decimal.ONE (price (store first)) in
      let! oracle := Decimal.div inversePrice (deviationFactor (store first)) in
      let! recovery := inRecovery stores in
      Ok (mkFigures inversePrice oracle (marketPrice (store first))
            (map (fun s => (symbol (store s), Trove.collateral (total (store s)))) stores) recovery)
  end.

(** The mounted card, and an update of the stores. *)
Record Card : Type := mkCard { stats : Stats; stores : list SelectorStore }.

Definition mount (l : list SelectorStore) : Res Card :=
  let! _ := figures l in
  let! s := mountStats l in
  Ok (mkCard s l).

Definition update (l : list SelectorStore) (c : Card) : Card := mkCard (stats c) l.

Definition runCard (l : list SelectorStore) (updates : list (list SelectorStore)) : Res Card :=
  let! c := mount l in Ok (fold_left (fun c l => update l c) updates c).

(** ** [Dashboard/BorrowingFee.tsx], [OpenedVaults.tsx], [ColRatio.tsx] *)

(** Recomputed whenever the stores are. *)
Definition borrowingFeeAvg (stores : list SelectorStore) : Res (option (Percent.t Decimal.t)) :=
  match stores with
  | [] => Ok None
  | _ =>
      let! total := res_foldM (fun total s => Decimal.add total (borrowingRate (store s)))
                      Decimal.ZERO stores in
      let! n := Decimal.from (ofNat (length stores)) in
      let! average := Decimal.div total n in
      let! pct := Percent.new average in
      Ok (Some pct)
  end.

Definition openedVaults (stores : list SelectorStore) : Z :=
  fold_left (fun prev s => prev + numberOfTroves (store s)) stores 0.

Record CollateralData : Type := mkCollateralData {
  collateralsQty : nat;
  collateralRatioAvgPct : Percent.t Decimal.t;
}.

(** One step of the second loop. *)
Definition addRatio (sum ratio : Decimal.t) : Res Decimal.t :=
  let! infinite := Decimal.infinite sum in
  let! infinite' := Decimal.infinite ratio in
  match infinite, infinite' with
  | None, None => Decimal.add sum ratio
  | _, _ => Ok Decimal.INFINITY
  end.

(** The effect of [ColRatio], which runs when it is mounted only; [totalCollateralRatio] is a
    property of its selector. *)
Definition collateralData (stores : list SelectorStore) : Res CollateralData :=
  let! ratios := res_mapM (fun s => Trove.collateralRatio (total (store s))
                                      (Decimal.ofDecimal (price (store s))))
                   (List.filter (fun s => mintList (store s)) stores) in
  let! sum := res_foldM addRatio Decimal.ZERO ratios in
  let! infinite := Decimal.infinite sum in
  let! average := match infinite with
                  | Some _ => Ok Decimal.INFINITY
                  | None => Decimal.div sum (ofNat (length stores))
                  end in
  let! pct := Percent.new average in
  Ok (mkCollateralData (length ratios) pct).

(** ** [Dashboard/PriceCard.tsx] *)

Definition redemptionPriceCard (s : Selected) : Res string :=
  let! inversePrice := Decimal.div Decimal.ONE (price s) in
  Decimal.prettify inversePrice (Some 4).

Definition marketPriceCard (s : Selected) : Res string := Decimal.prettify (marketPrice s) (Some 4).

Definition deviationFactorCard (s : Selected) : Res string :=
  Decimal.prettify (deviationFactor s) (Some 4).

Definition oraclePriceCard (s : Selected) : Res string :=
  let! inversePrice := Decimal.div Decimal.ONE (price s) in
  let! oraclePrice := Decimal.div inversePrice (deviationFactor s) in
  Decimal.prettify oraclePrice (Some 4).

(** The text that is read as a number of JavaScript, before it becomes a percentage. *)
Definition annualizeInterestRate (redemptionRate : Decimal.t) : Res string :=
  let! rate := Decimal.pow redemptionRate (JInt 31536000) in Decimal.toString rate None.

(** [Date('Jul 08 2023 19:00 GMT').getTime()] *)
Definition tournamentEndDate : Z := 1688842800000.

(** [now] in milliseconds. *)
Definition calculateTournamentYield (now : Z) (redemptionRate : Decimal.t) : Res string :=
  let secondsUntilEnd := (tournamentEndDate - now) / 1000 in
  let! rate := Decimal.pow redemptionRate (JInt secondsUntilEnd) in Decimal.toString rate None.

End Dashboard.
End Dashboard.

(** ** The cards of a user and of a transaction *)
Module UserCards.

Section UserCards.
Context {BN : BigNumberOps}.

(** [VaultCard.tsx] *)
Definition vaultStatus (view : VaultView.VaultView) : string :=
  match view with VaultView.ACTIVE => "Adjust Vault" | _ => "Open a Vault" end.

(** [balance.eq(0) ? '--' : balance.prettify()], which [StabilityPoolCard.tsx] has the other way
    round. *)
Definition available (balance : Decimal.t) : Res string :=
  let! none := Decimal.eq balance (Decimal.ofNumber "0") in
  if (none : bool) then Ok "--" else Decimal.prettify balance None.

(** The texts of [VaultCard]: collateral, debt and what is available. *)
Definition vaultCard (trove : Trove.t) (erc20TokenBalance : Decimal.t) (symbol coin : string) :
    Res (string * string * string) :=
  let! c := Decimal.toString (Trove.collateral trove) (Some 2) in
  let! d := Decimal.toString (Trove.debt trove) (Some 2) in
  let! a := available erc20TokenBalance in
  Ok (c +:+ " " +:+ symbol, d +:+ " " +:+ coin, a).

Definition stabilityPoolCard (currentTHUSD thusdBalance : Decimal.t) (coin : string) :
    Res (string * string) :=
  let! d := Decimal.toString currentTHUSD (Some 2) in
  let! a := available thusdBalance in
  Ok (d +:+ " " +:+ coin, a).

End UserCards.

(** [TransactionStatus.tsx]: the colour of the bar and its text, if there is one. *)
Definition transactionStatus (state : Transactions.StateType) (message : option string) :
    option (string * string) :=
  match state with
  | Transactions.Tidle | Transactions.TwaitingForApproval => None
  | Transactions.TwaitingForConfirmation => Some ("primary", "Waiting for confirmation")
  | Transactions.Tcancelled => Some ("warning", "Cancelled")
  | Transactions.Tfailed =>
      Some ("danger", match message with
                      | Some m => if String.eqb m "" then "Transaction failed. Please try again." else m
                      | None => "Transaction failed. Please try again."
                      end)
  | Transactions.Tconfirmed => Some ("success", "Confirmed")
  | Transactions.TconfirmedOneShot => Some ("primary", "Confirmed")
  end.

(** Where the donut goes when the state changes, in hundredths, and after how many milliseconds. *)
Definition donutValue (state : Transactions.StateType) : Z * Z :=
  match state with Transactions.Tconfirmed => (100, 40) | _ => (67, 20) end.

End UserCards.

(** ** The charts *)
Module Charts.

Record HistoricalDataItem : Type := mkItem { timestamp : Z; network : string; value : string }.

(** *** [ChartProvider.tsx] *)

Definition timestampBegin : Z := 1.
Definition timestampEnd : Z := 16873850922.

(** The mounted provider; [asked] is the request on its way. *)
Record t : Type := mk {
  isDataAvailable : bool;
  data : list HistoricalDataItem;
  asked : option string;
}.

Definition parsedUrl (historicalApiUrl : string) (dataSource : option string) : string :=
  historicalApiUrl +:+ "/" +:+ default "undefined" dataSource +:+ "?begin=" +:+
  Js.dec_string timestampBegin +:+ "&end=" +:+ Js.dec_string timestampEnd.

(** [getData], from the effect that runs when the provider is mounted. *)
Definition mount (historicalApiUrl : option string) (dataSource : option string) : t :=
  match historicalApiUrl with
  | Some url => if String.eqb url "" then mk false [] None else mk true [] (Some (parsedUrl url dataSource))
  | None => mk false [] None
  end.

(** The answer of the request. *)
Definition answered (result : Res (list HistoricalDataItem)) (a : t) : t :=
  match asked a, result with
  | Some _, Ok items => mk (isDataAvailable a) items None
  | Some _, Throw _ => mk false (data a) None
  | None, _ => a
  end.

(** The value of the context, [None] where there is none. *)
Definition context (a : t) : option (list HistoricalDataItem) :=
  if isDataAvailable a then Some (data a) else None.

Definition run (url dataSource : option string) (answers : list (Res (list HistoricalDataItem))) : t :=
  fold_left (fun a r => answered r a) answers (mount url dataSource).

(** *** [formatData] of [LineChart.tsx] *)
Section Format.
Context {BN : BigNumberOps}.
(** [utils.formatUnits(BigNumber.from(data), decimals)] of Ethers. *)
Context (formatUnits : string -> Z -> Res string).

(** The text that is parsed as a number, and whether that is turned into a percentage. *)
Definition formatData (dataTitle : option string) (data : string) (timestamp : Z) :
    Res (string * bool) :=
  let titled title := match dataTitle with Some t => String.eqb t title | None => false end in
  if titled "LED APY" || titled "LED End of Tournament Yield" then
    let! value := Decimal.from (Decimal.ofString data) in
    let! ten := Decimal.from (Decimal.ofNumber "10") in
    let! ray := Decimal.pow ten (JInt 27) in
    let! redemptionRate := Decimal.div value ray in
    let totalSeconds :=
      if titled "LED End of Tournament Yield"
      then Z.max 0 (Dashboard.tournamentEndDate / 1000 - timestamp) else 31536000 in
    let! ratePerYear := Decimal.pow redemptionRate (JInt (Z.max 0 totalSeconds)) in
    let! text := Decimal.toString ratePerYear None in
    Ok (text, true)
  else
    let! text := formatUnits data (if titled "Deviation Factor" then 27 else 18) in
    Ok (text, false).

End Format.

(** *** [fetchCoinGeckoPrice.ts] *)

(** [o[key]], for an object. *)
Definition property (key : string) (o : JsObject.t Config.Json) : option Config.Json :=
  JsObject.get key o.

Fixpoint validateCurrencies (coinId : string) (expectedCurrencies : list string)
    (coinPrices : JsObject.t Config.Json) : Res unit :=
  match expectedCurrencies with
  | [] => Ok tt
  | currency :: rest =>
      match property currency coinPrices with
      | None => Throw ("currency " +:+ Js.quoted currency +:+ " missing from CoinGecko response")
      | Some (Config.JNumber _) => validateCurrencies coinId rest coinPrices
      | Some _ => Throw ("price of coin " +:+ Js.quoted coinId +:+ " in currency " +:+
                         Js.quoted currency +:+ " is not a number")
      end
  end.

(** An array has none of the properties. *)
Definition asObject (json : Config.Json) : option (JsObject.t Config.Json) :=
  match json with
  | Config.JObject o => Some o
  | Config.JArray _ => Some []
  | _ => None
  end.

Fixpoint validateCoins (expectedCoinIds expectedCurrencies : list string)
    (body : JsObject.t Config.Json) : Res unit :=
  match expectedCoinIds with
  | [] => Ok tt
  | coinId :: rest =>
      match property coinId body with
      | None => Throw ("coin " +:+ Js.quoted coinId +:+ " missing from CoinGecko response")
      | Some prices =>
          let! _ := match asObject prices, expectedCurrencies with
                    | Some coinPrices, _ => validateCurrencies coinId expectedCurrencies coinPrices
                    | None, [] => Ok tt
                    | None, _ => Throw "TypeError: Cannot use 'in' operator"
                    end in
          validateCoins rest expectedCurrencies body
      end
  end.

Definition validateCoinGeckoSimplePriceResponse (expectedCoinIds expectedCurrencies : list string)
    (body : Config.Json) : Res unit :=
  match asObject body with
  | None => Throw "unexpected response from CoinGecko"
  | Some o => validateCoins expectedCoinIds expectedCurrencies o
  end.

(** The price of a coin in dollars; [body] is the answer. *)
Definition fetchCoinGeckoPrice {BN : BigNumberOps} (coingeckoId : string)
    (body : Res Config.Json) : Res Decimal.t :=
  let! body := body in
  let! _ := validateCoinGeckoSimplePriceResponse [coingeckoId] ["usd"] body in
  match ((asObject body ≫= property coingeckoId) ≫= asObject) ≫= property "usd" with
  | Some (Config.JNumber text) => Decimal.from (Decimal.ofNumber text)
  | _ => Throw "TypeError: Cannot read properties of undefined (reading 'usd')"
  end.

End Charts.

Module DashboardProperties.
Import Decimal DecimalFacts Trove Dashboard.

Section Facts.
Context {BN : BigNumberOps} {BNL : BigNumberLaws BN}.

(** Sums over stores. *)
Definition sum (f : Selected -> N) (l : list SelectorStore) : N :=
  foldr (fun s acc => (f (store s) + acc)%N) 0%N l.

Definition keys (l : list SelectorStore) : list (string * string) :=
  map (fun s => (version s, collateral s)) l.

Lemma findStore_own l s : NoDup (keys l) -> In s l -> findStore l s = Some s.
Proof.
  unfold findStore, keys. induction l as [|x l IH]; [done|]. cbn [map List.find].
  intros [Hx Hl]%NoDup_cons [->|Hin].
  - by rewrite !String.eqb_refl.
  - destruct (String.eqb_spec (version x) (version s)) as [E1|],
      (String.eqb_spec (collateral x) (collateral s)) as [E2|];
      cbn [andb]; try by apply IH.
    destruct Hx. rewrite E1, E2. apply list_elem_of_In.
    by apply (in_map (fun s => (version s, collateral s))).
Qed.

Lemma addStores_ok all l fee supply s :
  NoDup (keys all) -> incl l all ->
  addStores all l fee supply s = Ok
    (Decimal.mk (units fee + sum (fun x => units (borrowingRate x)) l),
     Decimal.mk (units supply + sum (fun x => units (debt (total x))) l),
     mkStats (borrowingFeeAvgPct s)
       (totalVaults s + foldr (fun x acc => numberOfTroves (store x) + acc) 0 l)
       (Decimal.mk (units (thusdInSP s) + sum (fun x => units (thusdInStabilityPool x)) l))
       (thusdSupply s)
       (Decimal.mk (units (pcvBal s) + sum (fun x => units (pcvBalance x)) l))).
Proof.
  intros Hnd. revert fee supply s. induction l as [|x l IH]; intros fee supply s Hi; cbn [addStores].
  - cbn. rewrite !N.add_0_r, Z.add_0_r. by destruct fee, supply, s as [? ? [] ? []].
  - rewrite (findStore_own all x Hnd) by (apply Hi; by left).
    rewrite add_ok. cbn [res_bind]. rewrite add_ok. cbn [res_bind]. rewrite add_ok. cbn [res_bind].
    rewrite add_ok. cbn [res_bind]. rewrite IH by (intros y Hy; apply Hi; by right).
    cbn [borrowingFeeAvgPct totalVaults thusdInSP thusdSupply pcvBal units dadd sum foldr].
    by rewrite !N.add_assoc, Z.add_assoc.
Qed.

Lemma from_nat n : from (ofNat n) = Ok (Decimal.mk (N.of_nat n * SCALE)).
Proof.
  unfold ofNat, from, _fromString. destruct (JsFacts.dec_string_spec (Z.of_nat n)) as [H1 H2]; [lia|].
  rewrite fromString_digits by (try done; apply JsFacts.dec_string_nonempty). rewrite H2. f_equal.
  unfold dec. f_equal. lia.
Qed.

(** A ratio as a percentage. *)
Definition percent (d : Decimal.t) : Percent.t Decimal.t :=
  Percent.mk (if deqb d INF then d else dmul d (Decimal.mk (100 * SCALE))).

Lemma percent_ok d : Percent.new d = Ok (percent d).
Proof.
  unfold Percent.new, percent. cbn [Percent.infinite Percent.Decimal_percentable Percent.mul].
  rewrite infinite_ok. cbn [res_bind]. destruct (deqb d INF); [done|].
  rewrite (mul_from _ (Decimal.mk (100 * SCALE))); [done|]. rewrite from_number. by vm_compute.
Qed.

Lemma inRecovery_ok l : exists r, inRecovery l = Ok r.
Proof.
  induction l as [|s l [r IH] ]; cbn [inRecovery]; [by eexists|].
  unfold collateralRatioIsBelowCritical, collateralRatio. rewrite mulDiv_ok. cbn [res_bind].
  rewrite lt_ok. cbn [res_bind]. rewrite IH. by eexists.
Qed.

Lemma figures_none_iff l : (exists f, figures l = Ok f) <-> l <> [].
Proof.
  destruct l as [|s l]; cbn [figures]; [split; [by intros [f Hf]|done]|]. split; [done|]. intros _.
  rewrite div_ok. cbn [res_bind]. rewrite div_ok. cbn [res_bind].
  destruct (inRecovery_ok (s :: l)) as [r ->]. by eexists.
Qed.

(** The card of the system's statistics is shown exactly when there is a store.  With one store
    for a version and a collateral, the number of Vaults, the supply, the pool, the controlled
    value and the average fee on it are the sums, and the average, over the stores there were when
    it was mounted, whatever updates come later; only the figures by store follow the updates. *)
Theorem stats_at_mount l updates :
  NoDup (keys l) ->
  (l = [] -> exists m, runCard l updates = Throw m) /\
  (l <> [] -> exists c, runCard l updates = Ok c /\
     stores c = default l (last updates) /\
     totalVaults (stats c) = foldr (fun x acc => numberOfTroves (store x) + acc) 0 l /\
     units (thusdSupply (stats c)) = sum (fun x => units (debt (total x))) l /\
     units (thusdInSP (stats c)) = sum (fun x => units (thusdInStabilityPool x)) l /\
     units (pcvBal (stats c)) = sum (fun x => units (pcvBalance x)) l /\
     borrowingFeeAvgPct (stats c) = percent (Decimal.mk
       (sum (fun x => units (borrowingRate x)) l / N.of_nat (length l)))).
Proof.
  intros Hnd. unfold runCard, mount. split; [intros ->; by eexists|]. intros Hne.
  destruct (proj2 (figures_none_iff l) Hne) as [f ->]. cbn [res_bind].
  unfold mountStats, noStats. rewrite percent_ok. cbn [res_bind].
  rewrite (addStores_ok l l _ _ _ Hnd (incl_refl l)), ZERO_val. cbn [res_bind].
  rewrite (div_from _ _ _ (from_nat (length l))). cbn [res_bind]. rewrite percent_ok. cbn [res_bind].
  eexists. split; [done|].
  match goal with |- context [fold_left _ updates ?x] => set (c0 := x) end.
  assert (stats (fold_left (fun c l => update l c) updates c0) = stats c0 /\
    stores (fold_left (fun c l => update l c) updates c0) = default l (last updates)) as [-> ->].
  { induction updates as [|u us IH] using rev_ind; [done|]. rewrite fold_left_app, last_snoc.
    cbn [fold_left update stats stores]. split; [apply IH|done]. }
  unfold c0. cbn [stats totalVaults thusdSupply thusdInSP pcvBal borrowingFeeAvgPct units].
  rewrite Z.add_0_l, !N.add_0_l. repeat (split; [done|]). f_equal. unfold ddiv. cbn [units].
  rewrite (proj2 (N.eqb_neq _ 0)).
  - f_equal. rewrite N.Div0.div_mul_cancel_r; [done|]. done.
  - destruct l; [done|]. cbn [length]. unfold SCALE. lia.
Qed.

(** After the tournament the card of its yield cannot be rendered: the exponent is negative. *)
Lemma tournament_over now rate :
  tournamentEndDate < now -> calculateTournamentYield now rate = Throw "AssertionError".
Proof.
  intros H. unfold calculateTournamentYield, pow, assert_.
  assert ((tournamentEndDate - now) / 1000 < 0) by (apply Z.div_lt_upper_bound; lia).
  destruct (Z.leb_spec 0 ((tournamentEndDate - now) / 1000)); [lia|]. done.
Qed.

End Facts.

(** ** Runs *)

#[local] Existing Instances Z_bignumber Z_bignumber_laws.

Definition aStore (v : string) (collateral_ debt_ : N) (approved : bool) : SelectorStore :=
  mkSelectorStore v "eth" (mkSelected 3 (Decimal.mk (2000 * SCALE)) (Decimal.mk SCALE)
    (Trove.mk (Decimal.mk (collateral_ * SCALE)) (Decimal.mk (debt_ * SCALE)))
    (Decimal.mk (50 * SCALE)) (Decimal.mk (5 * 10 ^ 15)) (Decimal.mk SCALE) (Decimal.mk SCALE)
    (Decimal.mk 0) "ETH" approved).

Lemma stats_at_mount_witness :
  exists c, runCard [aStore "v1" 10 8000 true; aStore "v2" 5 2000 true]
      [ [aStore "v1" 10 9000 true; aStore "v2" 5 2000 true] ] = Ok c /\
    totalVaults (stats c) = 6 /\ units (thusdSupply (stats c)) = (10000 * SCALE)%N /\
    map (fun s => units (debt (total (store s)))) (stores c) = [9000 * SCALE; 2000 * SCALE]%N.
Proof.
  assert (NoDup (keys [aStore "v1" 10 8000 true; aStore "v2" 5 2000 true])) as Hnd.
  { exact (bool_decide_unpack (NoDup (keys [aStore "v1" 10 8000 true; aStore "v2" 5 2000 true])) I). }
  destruct (stats_at_mount _ [ [aStore "v1" 10 9000 true; aStore "v2" 5 2000 true] ] Hnd) as [_ H].
  destruct (H ltac:(discriminate)) as (c & H1 & H2 & H3 & H4 & _). exists c. split; [exact H1|].
  split; [exact H3|]. split; [exact H4|]. rewrite H2. reflexivity.
Defined.

(** The average ratio divides the sum over the approved stores by the number of all. *)
Lemma average_over_all :
  collateralData [aStore "v1" 2 2000 true; aStore "v2" 2 2000 false] =
  Ok (mkCollateralData 1 (Percent.mk (Decimal.mk (100 * SCALE)))) /\
  collateralData [aStore "v1" 2 2000 true] =
  Ok (mkCollateralData 1 (Percent.mk (Decimal.mk (200 * SCALE)))).
Proof. split; vm_compute; reflexivity. Qed.

End DashboardProperties.
